(* ===== verification/_CoqProject ===== *)
-Q . S2P
Prelude.v
GoError.v
Models.v
Schema.v
Events.v
IdentityCache.v
Effects.v
EffectsLogic.v
StoreIdentity.v
StoreProject.v
StoreCluster.v
StoreAuth.v
StoreAllocation.v
StoreMembership.v
Wire.v
StoreTrace.v
UserService.v
AuthService.v
ProjectService.v
AllocationService.v
MembershipService.v
ServiceApi.v
AuthFacts.v
Scenario.v
ServiceTheorems.v
AuthTheorems.v
Resolver.v
MergeTheorems.v
ProjectTheorems.v
AllocationTheorems.v
IdentityTheorems.v
EventBus.v
Http.v
Server.v
ServerTheorems.v
ServerCoherence.v
TraceTheorems.v
Posix.v
AmieStore.v
AmieEffects.v
AmieHandlers.v
AmieDispatch.v
AmieWorker.v
AmieFacts.v
AmieMachine.v
AmieTheorems.v
AmieDNs.v
AmieAccounts.v
AmieReplies.v
AmieScenario.v
SignerText.v
Rfc3339.v
SignerStore.v
SignerEffects.v
SignerPolicy.v
SignerVault.v
SignerAuth.v
SignerHandlers.v
SignerServer.v
SignerLogic.v
SignerTheorems.v
SignerSerial.v
SignerKeys.v
SignerAccess.v
SignerOps.v
SignerScenario.v
SlurmTypes.v
SlurmEffects.v
SlurmMapper.v
SlurmMonitor.v
SlurmFacts.v
SlurmLogic.v
SlurmSweep.v
SlurmEvents.v
SlurmConverge.v
SlurmUsage.v
SlurmScenario.v
Comanage.v
ComanageProvision.v
ComanageTheorems.v
