(* ===== verification/Prelude.v ===== *)
(** * Custos: a verification of the core of Apache Airavata Custos

    Custos keeps the users, projects, allocations and authorizations of a
    computing centre. The Go program is layered, and so is this library: models
    (pkg/models), stores of SQL statements (internal/store) over a PostgreSQL
    schema (internal/db/migrations), a service that composes statements into
    transactions and publishes events (pkg/service, pkg/events), and an HTTP
    server behind an identity middleware (internal/server, pkg/identity). Beside
    it runs the AMIE connector (connectors/ACCESS/AMIE-Processor), which takes
    packets from the ACCESS allocation system and carries them out by calling the
    service; the SLURM connectors (connectors/SLURM), which keep the associations of
    a cluster in line with the allocations and record what jobs use; the COmanage
    connector (connectors/COmanage), which provisions the POSIX accounts of a cluster
    in an identity registry; and the SSH certificate signer (extensions/SSH-Certificate-Signer), a server of its own that
    signs the SSH keys of users with the CA keys of its clients, which it keeps in a
    secrets engine.

    ** How the program is modelled

    - Prelude: byte strings, rows of a table, ordering and paging, the tactics
      and hint databases used everywhere.
    - GoError, Models: errors with wrapping and [errors.Is]; one record per
      struct of pkg/models, statuses as the strings they are.
    - Schema: the database as a record of finite maps, one per table, with every
      PRIMARY KEY, UNIQUE, FOREIGN KEY and CHECK constraint as a proposition;
      [integrity] is their conjunction. A statement is a partial function
      [DB -> dberr + DB] that fails with the constraint it violates.
    - Events, IdentityCache, Effects, EffectsLogic: the state of a process
      (database, working copy of the open transaction, events published, identity
      cache, privilege registry, counters) and the monad [M] of the service. Every
      round trip to the server can fail ([fault]), every commit too, and a commit
      that fails may have been carried out, its answer being lost ([lost]); clocks and
      fresh identifiers are functions of [Env]. [inTx] is [db.TxFn]. EffectsLogic
      has the classes by which an operation is decomposed ([Quiet], [Acid],
      [DbRel], ...) and the tactics that do it; [NoLost] and [NoFaults] are the
      environments in which no answer of a commit is lost, and nothing fails.
    - StoreIdentity, StoreProject, StoreCluster, StoreAuth, StoreAllocation,
      StoreMembership, StoreTrace: every statement of internal/store, by
      the name of its store and method (pgUserStore_Create is
      [pgUserStore.Create]), with the proof that each preserves the integrity of the
      database.
    - Wire: the JSON of audit details; the decoding of request bodies, query strings
      and numbers.
    - UserService, AuthService, ProjectService, AllocationService,
      MembershipService: every method of [service.Service] under its own name.
      ServiceApi gathers those that change state into one type of requests
      ([Request], [serve]) and defines the runs of the service ([reachable]).
    - EventBus: pkg/events/bus.go, with goroutines as an interleaving step
      relation and handlers that may panic.
    - Http, Server: middleware, router and multiplexer; every handler; the route
      table, in the order of server.go, and the routes that the enabled connectors add
      to the same router ([Deployment]): the temporary-account connector with its
      handlers, those of AMIE and analytics with their gates, their reports being an
      argument.
    - Posix: pkg/posix. AmieStore, AmieEffects, AmieHandlers, AmieDispatch,
      AmieWorker: the AMIE connector, its five tables and their statements, its
      monad [AM], every packet handler, the router, the poller and the processor.
      The state of the connector contains that of the service. There are two kinds
      of transaction: the processor opens one on the connector's tables ([TxFn])
      for the whole of a packet, while each call a handler makes of the service
      ([svc]) begins and commits its own; either commit can be carried out and its
      answer lost, and so can a reply to AMIE. [amie_step] interleaves polls, passes of
      the processor and requests to the service; one poll or pass is one step.
    - SignerText, Rfc3339, SignerStore, SignerPolicy: what the signer uses of
      numbers, base64, IP addresses and times in text; its tables and statements;
      the policy of a client. SignerEffects: a request is a process ([Proc]) whose
      steps are the operations it makes on what requests share (the tables, the
      secrets engine, the caches, the network, the clock); [run] runs it alone,
      [pool_step] interleaves any number of them, and any operation on a server can
      fail, a failed write having been carried out or not. SignerVault, SignerAuth,
      SignerHandlers, SignerServer: internal/vault, internal/auth with
      internal/validation, internal/cert with internal/handler, and internal/server.
      The secrets engine ([SecretsEngine] with its laws [KVLaws]), the cryptography
      ([Crypto]), the reading of tokens ([JwtLib]), the LDAP server and chi
      ([ChiMux] with [ChiLaws]) are interfaces that SignerScenario implements. A
      group of requests that wait for one fetch of a key set (singleflight) is
      modelled as requests that each fetch it; the use of the LDAP connection under
      its mutex is one step.
    - SlurmTypes, SlurmEffects, SlurmMapper, SlurmMonitor: the records of the SLURM
      REST API and the query strings of its filters; the client; every handler of an
      event, the writer of associations and the reconciler; the usage monitor. The
      connectors run in the process of the service and call it ([core]); slurmrestd is
      a function of the request and of a state of its own ([SlurmServer]), of which
      [SlurmLaws] says what is documented of associations, and a request or its answer
      can be lost ([Delivery]). A handler, a sweep and a poll are each one run: nothing
      else happens meanwhile. SlurmScenario has a server that keeps the laws.
    - Comanage, ComanageProvision: the client of the COmanage registry, with the
      repetitions of a request and what encoding/json makes of an answer; the handler
      of a new account, which finds or creates a person, a group and an account. The
      registry is a function of the request and of a state of its own ([Registry]);
      requests and answers can be lost ([Transport]), and every request is logged. A
      handler is one run. ComanageTheorems ends with a registry and runs against it.
    - AuthFacts, AmieFacts, Scenario, AmieScenario, SignerLogic, SignerScenario,
      SlurmFacts, SlurmLogic and SlurmScenario hold shared lemmas, program logics and
      the concrete runs on which theorems are instantiated.

    ** What is shown

    - ServiceTheorems: every request preserves the integrity of the database,
      with whatever faults; a request that fails publishes nothing and leaves no
      trace in the database, unless the answer of its commit was lost, and then the
      database is the one of the run in which nothing fails (the two operations with
      several transactions apart); what each creation and deletion publishes.
    - AuthTheorems, Resolver: the authorization operations refine an
      abstract state of direct grants, role assignments and role contents; who is
      refused; what is audited; that the last holder of a meta privilege is kept
      by revocation; what the bootstrap of the administrator establishes; how a
      token is resolved to a user, and when an unknown subject is linked.
    - MergeTheorems, ProjectTheorems, AllocationTheorems, IdentityTheorems: the
      merge of two users, the single PI of a project, change requests and rates,
      the creation of users.
    - EventBus: every subscriber gets every event published after it subscribed,
      in any interleaving, and synchronous publication runs them in order.
    - ServerTheorems, ServerCoherence: no handler runs unless the policy of its
      route admits the request; a request that changes something needs a
      privilege the database holds for the caller; what the scoped policies
      admit; the identity cache agrees with the database after any sequence of
      requests that removes no temporary account, while no answer of a commit is lost.
      All of it on a server with any connectors.
    - TraceTheorems: the span tree, the status and the filter of audit traces; the
      aggregation of project members.

    - AmieMachine, AmieTheorems: the connector refines a machine in
      which a packet waits, is done, or is abandoned after three attempts, whatever
      fails, and in which a packet that is done can be taken up again when the answer of
      a commit was lost; each packet is stored once; an event that is due moves on, after the
      backoff; a failed attempt leaves the connector's tables alone, and the core
      keeps its invariants.
    - AmieReplies, AmieAccounts, AmieDNs: each attempt at a request sends at most the
      one reply of its type; the login names of accounts; persons and accounts are
      created once, and when a packet about a person can never be processed; who
      holds which DN after a synchronisation or a merge.

    - SignerTheorems: under any interleaving of requests, with any failures, every
      certificate that is returned has its row in the issuance log, rows are never
      changed, and each is one the policy of an enabled client allows.
    - SignerAccess: the signer answers only with the credentials of an enabled
      client or, unless it runs in dev mode, with a token the keys of its issuer verify,
      and lists certificates to the address of the identity only; the cache of key sets
      is bounded.
    - SignerSerial, SignerOps: serial numbers of concurrent issuances are distinct
      while the metadata is there and no rotation rewrites it; what an issuance and
      a rotation leave behind when nothing fails.
    - SignerKeys: the policy decides as its rules on addresses and
      durations say; a JWK determines its key, and the loop over the exponent ends;
      the patterns of the router do not overlap.

    - SlurmSweep, SlurmConverge: whatever fails, a sweep of the reconciler writes only
      what somebody is entitled to and removes only what nobody is entitled to on the
      accounts it manages; when nothing fails and every membership can be resolved, one
      sweep brings the associations of the cluster in line, and removes nothing if nobody
      is entitled to anything.
    - SlurmEvents: a handler that revokes removes exactly the associations of its
      member on the allocation, one that grants writes only those the membership
      grants, whatever fails, and what the audit trail reports has been done.
    - SlurmUsage: when the database does not fail, a poll refines a ledger with one
      charge for a job on an allocation; a job that is listed again is not charged
      again; whatever fails, the windows of the polls leave no gap.
    - SlurmFacts: the comparison of limits is equality up to order.
    - ComanageTheorems: whatever fails, an account is marked provisioned only after its
      record was put and accepted; the record put is the one read, with its cluster
      accounts replaced by the account, and with the login name; nothing of the account's group is created
      without a search that did not find it; what a run can change in the core, and how
      many requests it makes.

    Behaviours reported as findings are exhibited by [Example]s on concrete runs.

    ** Choices

    The only fuel is that of LIKE patterns (the sum of the lengths, which every
    step decreases), that of unfolding a span tree (one step per row, shown to
    be enough when parents come before their children), and that of the loop over
    the bytes of an RSA exponent (8, shown to be enough for 64 bits). Integers of 64 bits are
    checked where the program parses or casts them. Text is a string of bytes;
    comparisons that PostgreSQL makes case-insensitive fold ASCII. A query without
    ORDER BY returns rows in the order in which the map is enumerated, and ties
    are left in that order; theorems do not depend on it. A packet's raw JSON is
    represented by the value it encodes; the order in which Go visits the keys of
    a map is a parameter, any permutation, and so are the answers of the AMIE API
    and the prefix of login names.

    ** Not modelled

    go-oidc's verification of tokens, the reading of times and floats from text,
    clocks and identifiers are parameters. Tracing spans, log lines and the
    start-up of the process are left out, as are the reports of the AMIE connector
    (read-only listings of packets) and of the analytics connector, the configuration of the connectors, the PAM module, the metrics of the
    signer and the portal. *)

From stdpp Require Import base gmap sets list strings sorting.
From Stdlib Require Import ZArith Ascii Lia.

Set Default Proof Using "Type".
Set Default Goal Selector "!".

(** ** Hint databases

    [table] holds the lemmas on unique keys and references between tables,
    [frame] the lemmas that say a statement leaves a table alone. *)

Create HintDb table.
Create HintDb frame.

(** ** Tactics *)

(** Case analysis on every [decide] and [match] in sight, dropping the branches
    that are contradictory. *)
Ltac split_cases :=
  repeat (first [ case_decide | case_match ]; simplify_eq/=).

(** ** Byte strings *)

Definition ascii_lower (c : ascii) : ascii :=
  let n := nat_of_ascii c in
  if (65 <=? n)%nat && (n <=? 90)%nat then ascii_of_nat (n + 32) else c.

(** ASCII lower-casing, which is what comparing two CITEXT values does on the
    ASCII part of a string. *)
Fixpoint lower (s : string) : string :=
  match s with
  | EmptyString => EmptyString
  | String c s' => String (ascii_lower c) (lower s')
  end.

(** [strings.Contains]. *)
Definition str_contains (needle hay : string) : bool :=
  match String.index 0 needle hay with Some _ => true | None => false end.

(** Number of characters of a UTF-8 string: the bytes that are not
    continuation bytes (10xxxxxx). VARCHAR(n) counts characters. *)
Fixpoint char_length (s : string) : nat :=
  match s with
  | EmptyString => 0
  | String c s' =>
      let n := nat_of_ascii c in
      if (128 <=? n)%nat && (n <? 192)%nat then char_length s' else S (char_length s')
  end.

Fixpoint spaces (n : nat) : string :=
  match n with O => EmptyString | S n' => String " " (spaces n') end.

(** CHAR(n) stores its value blank-padded to [n] characters. *)
Definition bpchar (n : nat) (s : string) : string :=
  s +:+ spaces (n - char_length s).

Lemma ascii_lower_idem c : ascii_lower (ascii_lower c) = ascii_lower c.
Proof. destruct c as [[] [] [] [] [] [] [] []]; reflexivity. Qed.

Lemma lower_idem s : lower (lower s) = lower s.
Proof. induction s as [|c s IH]; simpl; [done|]. by rewrite ascii_lower_idem, IH. Qed.

Lemma string_app_assoc (s t u : string) : (s +:+ t) +:+ u = s +:+ (t +:+ u).
Proof.
  induction s as [|c s IH]; [done|].
  change (String c ((s +:+ t) +:+ u) = String c (s +:+ (t +:+ u))). by rewrite IH.
Qed.

(** ** Options *)

Lemma is_Some_not_None {A} (o : option A) : is_Some o ↔ o ≠ None.
Proof. symmetry. apply not_eq_None_Some. Qed.

(** ** Lists of rows

    A query reads the rows of a table as a list; [head] is what a query for
    one row returns. *)

Lemma head_Some_elem {A} (l : list A) x : head l = Some x → x ∈ l.
Proof. destruct l; simpl; intros; simplify_eq. by left. Qed.

Lemma head_None_nil {A} (l : list A) : head l = None → l = [].
Proof. by destruct l. Qed.

Lemma head_is_Some {A} (l : list A) x : x ∈ l → is_Some (head l).
Proof. destruct l; [by intros ?%not_elem_of_nil|]. by eexists. Qed.

Section rows.
Context {K} `{Countable K} {R : Type}.
Implicit Types (t : gmap K R) (P : R → Prop).

(** The rows of table [t] that satisfy the WHERE clause [P], in the order in
    which the table is enumerated. *)
Definition select_rows P `{!∀ r, Decision (P r)} (t : gmap K R) : list R :=
  filter P (snd <$> map_to_list t).

Lemma elem_of_select_rows P `{!∀ r, Decision (P r)} t r :
  r ∈ select_rows P t ↔ P r ∧ ∃ k, t !! k = Some r.
Proof.
  unfold select_rows. rewrite list_elem_of_filter, list_elem_of_fmap. split.
  - intros [HP ([k r'] & -> & Hk%elem_of_map_to_list)]. eauto.
  - intros [HP [k Hk]]. split; [done|].
    exists (k, r). by rewrite elem_of_map_to_list.
Qed.

(** The single row a query returns. *)
Definition select_one P `{!∀ r, Decision (P r)} (t : gmap K R) : option R :=
  head (select_rows P t).

Lemma select_one_Some P `{!∀ r, Decision (P r)} t r :
  select_one P t = Some r → P r ∧ ∃ k, t !! k = Some r.
Proof. by intros ?%head_Some_elem%elem_of_select_rows. Qed.

Lemma select_one_None P `{!∀ r, Decision (P r)} t :
  select_one P t = None ↔ ∀ k r, t !! k = Some r → ¬ P r.
Proof.
  unfold select_one. split.
  - intros Hn%head_None_nil k r Hk HP.
    assert (r ∈ select_rows P t) as Hr by (apply elem_of_select_rows; eauto).
    rewrite Hn in Hr. by apply not_elem_of_nil in Hr.
  - intros Hn. destruct (head _) as [r|] eqn:E; [|done].
    apply head_Some_elem, elem_of_select_rows in E as [HP [k Hk]]. by destruct (Hn k r).
Qed.

(** When at most one row satisfies the clause the query returns that row. *)
Lemma select_one_unique P `{!∀ r, Decision (P r)} t k r :
  t !! k = Some r → P r → (∀ k' r', t !! k' = Some r' → P r' → r' = r) →
  select_one P t = Some r.
Proof.
  intros Hk HP Hu. destruct (select_one P t) as [r'|] eqn:E.
  - apply select_one_Some in E as [HP' [k' Hk']]. f_equal. eauto.
  - by apply select_one_None with (k := k) (r := r) in E.
Qed.
(** More than one row satisfies the clause: two of them have distinct keys. *)
Lemma select_rows_two P `{!∀ r, Decision (P r)} t :
  1 < length (select_rows P t) →
  ∃ k1 k2 r1 r2, k1 ≠ k2 ∧ t !! k1 = Some r1 ∧ t !! k2 = Some r2 ∧ P r1 ∧ P r2.
Proof.
  unfold select_rows. intros Hl.
  assert (∀ l : list (K * R), filter P (snd <$> l) = snd <$> filter (λ kr, P kr.2) l) as Hf.
  { induction l as [|[k r] l IH]; [done|]. rewrite fmap_cons, !filter_cons. simpl.
    case_decide; [rewrite fmap_cons; simpl; by f_equal|done]. }
  rewrite Hf, length_fmap in Hl. pose proof (NoDup_fst_map_to_list t) as Hnd.
  assert (NoDup (filter (λ kr, P kr.2) (map_to_list t)).*1) as Hnd'.
  { eapply sublist_NoDup; [exact Hnd|]. apply fmap_sublist, sublist_filter. }
  destruct (filter _ _) as [|[k1 r1] [|[k2 r2] l]] eqn:Hl'; simpl in *; [lia|lia|].
  assert (∀ kr, kr ∈ (k1, r1) :: (k2, r2) :: l → P kr.2 ∧ t !! kr.1 = Some kr.2) as Hrow.
  { intros [k r] Hkr. rewrite <- Hl' in Hkr. apply list_elem_of_filter in Hkr as [? Hm].
    by apply elem_of_map_to_list in Hm. }
  destruct (Hrow (k1, r1)) as [? ?]; [by left|]. destruct (Hrow (k2, r2)) as [? ?]; [by right; left|].
  apply NoDup_cons in Hnd' as [Hn _]. exists k1, k2, r1, r2. repeat split; [|done..].
  intros ->. apply Hn. by left.
Qed.
End rows.

(** ORDER BY: a stable sort on a key. *)
Definition order_by {A B} (key : A → B) (le : B → B → Prop)
    `{!∀ x y, Decision (le x y)} (l : list A) : list A :=
  merge_sort (λ a b, le (key a) (key b)) l.

Lemma order_by_Permutation {A B} (key : A → B) (le : B → B → Prop)
    `{!∀ x y, Decision (le x y)} (l : list A) : order_by key le l ≡ₚ l.
Proof. apply merge_sort_Permutation. Qed.

Lemma elem_of_order_by {A B} (key : A → B) (le : B → B → Prop)
    `{!∀ x y, Decision (le x y)} (l : list A) x : x ∈ order_by key le l ↔ x ∈ l.
Proof. by rewrite order_by_Permutation. Qed.
