(* ===== verification/GoError.v ===== *)
(** * Go error values

    The error values the service layer returns: the sentinels of
    pkg/service/errors.go and pkg/identity/identity.go, the failures of a SQL
    statement, and the wrapping done by [fmt.Errorf] with [%w]. An error is a
    chain; [errors_Is] walks it the way [errors.Is] does. The format string and
    its arguments are kept apart; [Error] renders the text. *)

From S2P Require Import Prelude.
From stdpp Require Import base list strings.
From Stdlib Require Import Ascii.

(** What a SQL statement can fail with: a violated constraint (by name), a
    value too long for its column, a number out of range, a text that is not
    valid UTF-8, or an infrastructure fault (connection lost, server
    unavailable, context cancelled). *)
Inductive dberr :=
  | UniqueViolation (constraint : string)
  | ForeignKeyViolation (constraint : string)
  | CheckViolation (constraint : string)
  | StringTooLong
  | NumberOutOfRange
  | InvalidText
  | IOFault.

(** The package-level sentinel errors. *)
Inductive SentinelId :=
  | SNotFound
  | SAlreadyExists
  | SInvalidInput
  | SPIChange
  | SNotLinked
  | SEmailNotVerified
  | SNoUserMatchesEmail
  | SUserNotPending
  | SUserAlreadyOIDCLinked
  | SUnbuildableUsername
  | SNotProvisioned.

#[export] Instance SentinelId_eq_dec : EqDecision SentinelId.
Proof. solve_decision. Defined.

#[export] Instance dberr_eq_dec : EqDecision dberr.
Proof. solve_decision. Defined.

(** [Sentinel s] is the value [errors.New] made for [s]; [Derived s inner] is a
    package-level sentinel that itself wraps another one
    ([var ErrX = fmt.Errorf("%w: ...", ErrY)]); [Errorf] is [fmt.Errorf] with
    one [%w] verb, [NewError] is [fmt.Errorf] without one. *)
Inductive error :=
  | Sentinel (s : SentinelId)
  | Derived (s : SentinelId) (inner : error)
  | DbError (d : dberr)
  | Errorf (format : string) (args : list string) (wrapped : error)
  | NewError (format : string) (args : list string).

Definition ErrNotFound : error := Sentinel SNotFound.
Definition ErrAlreadyExists : error := Sentinel SAlreadyExists.
Definition ErrInvalidInput : error := Sentinel SInvalidInput.
Definition ErrPIChange : error := Sentinel SPIChange.
Definition ErrNotLinked : error := Sentinel SNotLinked.
Definition ErrEmailNotVerified : error := Derived SEmailNotVerified ErrNotLinked.
Definition ErrNoUserMatchesEmail : error := Derived SNoUserMatchesEmail ErrNotLinked.
Definition ErrUserNotPending : error := Derived SUserNotPending ErrNotLinked.
Definition ErrUserAlreadyOIDCLinked : error := Derived SUserAlreadyOIDCLinked ErrNotLinked.
Definition ErrUnbuildableUsername : error := Sentinel SUnbuildableUsername.
Definition errNotProvisioned : error := Sentinel SNotProvisioned.

(** [errors.Is(e, target)]. *)
Fixpoint errors_Is (e : error) (target : SentinelId) : bool :=
  match e with
  | Sentinel s => bool_decide (s = target)
  | Derived s inner => bool_decide (s = target) || errors_Is inner target
  | DbError _ => false
  | Errorf _ _ inner => errors_Is inner target
  | NewError _ _ => false
  end.

(** The text of a driver error, as far as the code inspects it: the name of
    the constraint appears in it. *)
Definition dberr_text (d : dberr) : string :=
  match d with
  | UniqueViolation c => "duplicate key value violates unique constraint " +:+ c
  | ForeignKeyViolation c => "violates foreign key constraint " +:+ c
  | CheckViolation c => "violates check constraint " +:+ c
  | StringTooLong => "value too long for type character varying"
  | NumberOutOfRange => "value out of range"
  | InvalidText => "invalid byte sequence for encoding"
  | IOFault => "connection failure"
  end.

(** [strings.Contains(err.Error(), needle)]: the text of an error is made of
    the format, the arguments and the text of what it wraps. *)
Fixpoint Error_contains (needle : string) (e : error) : bool :=
  match e with
  | Sentinel _ => false
  | Derived _ inner => Error_contains needle inner
  | DbError d => str_contains needle (dberr_text d)
  | Errorf f args inner =>
      str_contains needle f || existsb (str_contains needle) args || Error_contains needle inner
  | NewError f args => str_contains needle f || existsb (str_contains needle) args
  end.

(** ** [err.Error()] *)

Definition hex (n : nat) : ascii :=
  if (n <? 10)%nat then ascii_of_nat (48 + n) else ascii_of_nat (87 + n).

(** The bytes of [strconv.Quote], for text whose characters outside ASCII are
    printable. *)
Definition quote_char (c : ascii) : string :=
  let n := nat_of_ascii c in
  if (n =? 34)%nat || (n =? 92)%nat then String "\" (String c "")
  else if (n =? 7)%nat then "\a"
  else if (n =? 8)%nat then "\b"
  else if (n =? 12)%nat then "\f"
  else if (n =? 10)%nat then "\n"
  else if (n =? 13)%nat then "\r"
  else if (n =? 9)%nat then "\t"
  else if (n =? 11)%nat then "\v"
  else if (n <? 32)%nat || (n =? 127)%nat
  then "\x" +:+ String (hex (n / 16)) (String (hex (n mod 16)) "")
  else String c "".

Fixpoint quote_chars (s : string) : string :=
  match s with
  | EmptyString => EmptyString
  | String c s' => quote_char c +:+ quote_chars s'
  end.

Definition Quote (s : string) : string :=
  let q := String (ascii_of_nat 34) "" in q +:+ quote_chars s +:+ q.

(** [fmt.Sprintf] on the verbs the program uses; arguments of [%d] are given as
    decimal numbers, and [wrapped] is the text of the argument of [%w]. *)
Fixpoint Sprintf (format : string) (args : list string) (wrapped : string) : string :=
  match format with
  | EmptyString => EmptyString
  | String c f =>
      match f with
      | String v f' =>
          if decide (c = "%"%char) then
            if decide (v = "w"%char) then wrapped +:+ Sprintf f' args wrapped
            else match args with
                 | a :: args' =>
                     (if decide (v = "q"%char) then Quote a else a) +:+ Sprintf f' args' wrapped
                 | [] => String c (Sprintf f args wrapped)
                 end
          else String c (Sprintf f args wrapped)
      | EmptyString => String c EmptyString
      end
  end.

Definition sentinel_text (s : SentinelId) : string :=
  match s with
  | SNotFound => "record not found"
  | SAlreadyExists => "record already exists"
  | SInvalidInput => "invalid input"
  | SPIChange => "project PI cannot be changed"
  | SNotLinked => "identity not linked"
  | SEmailNotVerified => "verified email claim missing"
  | SNoUserMatchesEmail => "no user matches email"
  | SUserNotPending => "user is not pending"
  | SUserAlreadyOIDCLinked => "user already has an OIDC binding"
  | SUnbuildableUsername => "posix: cannot build username from empty first and last name"
  | SNotProvisioned => "cluster account not provisioned yet"
  end.

(** [err.Error()]. *)
Fixpoint Error (e : error) : string :=
  match e with
  | Sentinel s => sentinel_text s
  | Derived s inner => Error inner +:+ ": " +:+ sentinel_text s
  | DbError d => dberr_text d
  | Errorf f args inner => Sprintf f args (Error inner)
  | NewError f args => Sprintf f args ""
  end.

(** The result of a Go call: a value or an error. *)
Inductive Res (A : Type) :=
  | Ok (a : A)
  | Err (e : error).
Arguments Ok {_} _.
Arguments Err {_} _.

Definition is_Ok {A} (r : Res A) : Prop := ∃ a, r = Ok a.

(** The error of a result is (or wraps) the given sentinel. *)
Definition fails_with {A} (s : SentinelId) (r : Res A) : Prop :=
  ∃ e, r = Err e ∧ errors_Is e s = true.
