(* ===== verification/Models.v ===== *)
(** * Domain records

    The structs of pkg/models, field for field. Status, type and privilege
    fields are Go string types whose values are not validated by the code, so
    they are strings here, with the declared constants. A [time.Time] is a
    number of microseconds, the precision of the TIMESTAMPTZ(6) columns, with 0
    for the zero time; a [float64] is a [spec_float] with the parameters of
    binary64. *)

From S2P Require Import Prelude.
From stdpp Require Import base list strings.
From Stdlib Require Import ZArith SpecFloat.

Abbreviation Time := Z.
Abbreviation float64 := spec_float.
Abbreviation PrivilegeKey := string (only parsing).

(** [time.Time.IsZero]. *)
Definition IsZero (t : Time) : Prop := t = 0%Z.
#[export] Instance IsZero_dec t : Decision (IsZero t).
Proof. unfold IsZero. apply _. Defined.

Definition zero_time : Time := 0%Z.

(** ** pkg/models/project.go *)

Definition UserPending : string := "PENDING".
Definition UserActive : string := "ACTIVE".
Definition UserInactive : string := "INACTIVE".
Definition UserSuspended : string := "SUSPENDED".
Definition UserMerged : string := "MERGED".

Definition ProjectActive : string := "ACTIVE".
Definition ProjectInactive : string := "INACTIVE".
Definition ProjectDeleted : string := "DELETED".

Record Project := mkProject {
  Project_ID : string;
  Project_OriginatedID : string;
  Project_Title : string;
  Project_Origination : string;
  Project_ProjectPIID : string;
  Project_Status : string;
  Project_CreatedTime : Time }.

Record Organization := mkOrganization {
  Organization_ID : string;
  Organization_OriginatedID : string;
  Organization_Name : string }.

Definition UserTypeClusterLocal : string := "CLUSTER_LOCAL".
Definition UserTypeVirtual : string := "VIRTUAL".
Definition UserTypeSystem : string := "SYSTEM".

Record User := mkUser {
  User_ID : string;
  User_OrganizationID : string;
  User_FirstName : string;
  User_LastName : string;
  User_MiddleName : string;
  User_Email : string;
  User_Status : string;
  User_Type : string }.

(** ** pkg/models/identity.go *)

Record UserIdentity := mkUserIdentity {
  UserIdentity_ID : string;
  UserIdentity_UserID : string;
  UserIdentity_Source : string;
  UserIdentity_ExternalID : string;
  UserIdentity_Email : string;
  UserIdentity_OIDCSub : string;
  UserIdentity_Metadata : string;
  UserIdentity_CreatedAt : Time }.

(** ** pkg/models/project_membership.go *)

Definition ProjectRolePI : string := "PI".
Definition ProjectRoleCoPI : string := "CO_PI".
Definition ProjectRoleAllocationManager : string := "ALLOCATION_MANAGER".

Definition GovernanceRoles : list string :=
  [ProjectRolePI; ProjectRoleCoPI; ProjectRoleAllocationManager].

(** [IsGovernanceRole]: the loop over [GovernanceRoles]. *)
Definition IsGovernanceRole (role : string) : bool :=
  existsb (λ r, bool_decide (r = role)) GovernanceRoles.

Record ProjectMembership := mkProjectMembership {
  ProjectMembership_ProjectID : string;
  ProjectMembership_UserID : string;
  ProjectMembership_Role : string;
  ProjectMembership_AddedTime : Time }.

(** ** pkg/models/role.go *)

Definition SystemRoleSuperAdmin : string := "super_admin".

Record Role := mkRole {
  Role_ID : string;
  Role_Name : string;
  Role_Description : option string;
  Role_IsSystem : bool;
  Role_CreatedAt : Time }.

Record UserRole := mkUserRole {
  UserRole_UserID : string;
  UserRole_RoleID : string;
  UserRole_GrantedBy : option string;
  UserRole_GrantedAt : Time;
  UserRole_Reason : option string }.

(** ** pkg/models/privilege.go *)

Definition ClustersRead : PrivilegeKey := "core:clusters:read".
Definition ClustersWrite : PrivilegeKey := "core:clusters:write".
Definition AllocationsRead : PrivilegeKey := "core:allocations:read".
Definition AllocationsWrite : PrivilegeKey := "core:allocations:write".
Definition ProjectsRead : PrivilegeKey := "core:projects:read".
Definition ProjectsWrite : PrivilegeKey := "core:projects:write".
Definition UsersRead : PrivilegeKey := "core:users:read".
Definition UsersWrite : PrivilegeKey := "core:users:write".
Definition OrganizationsRead : PrivilegeKey := "core:organizations:read".
Definition OrganizationsWrite : PrivilegeKey := "core:organizations:write".
Definition TracesRead : PrivilegeKey := "core:traces:read".
Definition PrivilegesGrant : PrivilegeKey := "core:privileges:grant".
Definition RolesManage : PrivilegeKey := "core:roles:manage".

(** The registry after package initialisation: the keys [init] registers. *)
Definition core_privileges : list PrivilegeKey :=
  [ClustersRead; ClustersWrite; AllocationsRead; AllocationsWrite; ProjectsRead;
   ProjectsWrite; UsersRead; UsersWrite; OrganizationsRead; OrganizationsWrite;
   TracesRead; PrivilegesGrant; RolesManage].

Record UserPrivilege := mkUserPrivilege {
  UserPrivilege_ID : string;
  UserPrivilege_UserID : string;
  UserPrivilege_Privilege : PrivilegeKey;
  UserPrivilege_GrantedBy : option string;
  UserPrivilege_GrantedAt : Time;
  UserPrivilege_Reason : option string }.

(** ** pkg/models/audit.go *)

Record AuditEvent := mkAuditEvent {
  AuditEvent_ID : string;
  AuditEvent_EventType : string;
  AuditEvent_EventTime : Time;
  AuditEvent_EntityID : string;
  AuditEvent_EntityType : string;
  AuditEvent_Details : string;
  AuditEvent_Source : string;
  AuditEvent_TraceID : string;
  AuditEvent_SpanID : string;
  AuditEvent_ParentSpanID : string }.

(** ** pkg/models/allocation.go *)

Definition ACTIVE : string := "ACTIVE".
Definition INACTIVE : string := "INACTIVE".
Definition DELETED : string := "DELETED".

Record ComputeCluster := mkComputeCluster {
  ComputeCluster_ID : string;
  ComputeCluster_Name : string }.

Record ComputeClusterUser := mkComputeClusterUser {
  ComputeClusterUser_ID : string;
  ComputeClusterUser_ComputeClusterID : string;
  ComputeClusterUser_UserID : string;
  ComputeClusterUser_LocalUsername : string;
  ComputeClusterUser_ProvisionedAt : option Time }.

Record ComputeAllocation := mkComputeAllocation {
  ComputeAllocation_ID : string;
  ComputeAllocation_ProjectID : string;
  ComputeAllocation_Name : string;
  ComputeAllocation_Status : string;
  ComputeAllocation_ComputeClusterID : string;
  ComputeAllocation_InitialSUAmount : Z;
  ComputeAllocation_StartTime : Time;
  ComputeAllocation_EndTime : Time }.

Record ComputeAllocationResource := mkComputeAllocationResource {
  Resource_ID : string;
  Resource_Name : string;
  Resource_ResourceType : string;
  Resource_ResourceAmount : Z;
  Resource_ComputeClusterID : string }.

Record ComputeAllocationResourceMapping := mkComputeAllocationResourceMapping {
  Mapping_ID : string;
  Mapping_ComputeAllocationID : string;
  Mapping_ComputeAllocationResourceID : string;
  Mapping_ResourceAmount : Z;
  Mapping_ResourceTime : Z }.

Record ComputeAllocationResourceRate := mkComputeAllocationResourceRate {
  Rate_ID : string;
  Rate_ComputeAllocationResourceID : string;
  Rate_Rate : float64;
  Rate_StartTime : Time;
  Rate_EndTime : Time }.

Record ComputeAllocationDiff := mkComputeAllocationDiff {
  Diff_ID : string;
  Diff_ComputeAllocationID : string;
  Diff_DiffType : string;
  Diff_NewSUAmount : Z;
  Diff_Status : string;
  Diff_Timestamp : Time;
  Diff_Description : string }.

Record ComputeAllocationChangeRequest := mkComputeAllocationChangeRequest {
  ChangeRequest_ID : string;
  ChangeRequest_ComputeAllocationID : string;
  ChangeRequest_RequestedSUAmount : Z;
  ChangeRequest_RequestedStatus : string;
  ChangeRequest_Reason : string;
  ChangeRequest_ChangeStatus : string;
  ChangeRequest_RequesterID : string;
  ChangeRequest_ApproverID : string;
  ChangeRequest_Timestamp : Time }.

Record ComputeAllocationChangeRequestEvent := mkComputeAllocationChangeRequestEvent {
  ChangeEvent_ID : string;
  ChangeEvent_ComputeAllocationChangeRequestID : string;
  ChangeEvent_EventType : string;
  ChangeEvent_Description : string;
  ChangeEvent_Timestamp : Time }.

Record ComputeAllocationUsage := mkComputeAllocationUsage {
  Usage_ID : string;
  Usage_ComputeAllocationID : string;
  Usage_UsedRawAmount : float64;
  Usage_UsedSUAmount : float64;
  Usage_CalculatedTime : Time;
  Usage_UserID : string;
  Usage_JobID : string;
  Usage_ComputeAllocationResourceID : string }.

Record ComputeAllocationMembershipResourceOverride := mkComputeAllocationMembershipResourceOverride {
  Override_ID : string;
  Override_ComputeAllocationMembershipID : string;
  Override_ComputeAllocationResourceID : string;
  Override_OverrideResourceAmount : Z;
  Override_OverrideResourceTime : Z }.

Record ComputeAllocationMembership := mkComputeAllocationMembership {
  Membership_ID : string;
  Membership_ComputeAllocationID : string;
  Membership_UserID : string;
  Membership_StartTime : Time;
  Membership_EndTime : Time;
  Membership_MembershipStatus : string }.
