(* ===== verification/Schema.v ===== *)
(** * The database schema

    The tables of internal/db/migrations as finite maps from primary key to
    row, the constraints the migrations declare (UNIQUE, FOREIGN KEY with its
    ON DELETE action, CHECK, VARCHAR length), and the integrity invariant: every
    declared constraint holds. The store files write each INSERT, UPDATE and
    DELETE as a [stmt]: a partial function on databases that fails with the
    constraint it would violate. *)

From S2P Require Import Prelude GoError Models.
From stdpp Require Import base gmap sets list strings.

(** ** Tables *)

(** A row of role_privileges: the table has no struct in pkg/models. *)
Record RolePrivilege := mkRolePrivilege {
  RolePrivilege_RoleID : string;
  RolePrivilege_Privilege : PrivilegeKey }.

Record DB := mkDB {
  t_organizations : gmap string Organization;
  t_users : gmap string User;
  t_user_identities : gmap string UserIdentity;
  t_compute_clusters : gmap string ComputeCluster;
  t_compute_cluster_users : gmap string ComputeClusterUser;
  t_projects : gmap string Project;
  t_project_memberships : gmap (string * string) ProjectMembership;
  t_compute_allocations : gmap string ComputeAllocation;
  t_resources : gmap string ComputeAllocationResource;
  t_resource_mappings : gmap string ComputeAllocationResourceMapping;
  t_resource_rates : gmap string ComputeAllocationResourceRate;
  t_diffs : gmap string ComputeAllocationDiff;
  t_change_requests : gmap string ComputeAllocationChangeRequest;
  t_change_request_events : gmap string ComputeAllocationChangeRequestEvent;
  t_memberships : gmap string ComputeAllocationMembership;
  t_usages : gmap string ComputeAllocationUsage;
  t_overrides : gmap string ComputeAllocationMembershipResourceOverride;
  t_audit_events : gmap string AuditEvent;
  t_user_privileges : gmap string UserPrivilege;
  t_roles : gmap string Role;
  t_role_privileges : gmap (string * PrivilegeKey) RolePrivilege;
  t_user_roles : gmap (string * string) UserRole }.

Definition empty_db : DB :=
  mkDB ∅ ∅ ∅ ∅ ∅ ∅ ∅ ∅ ∅ ∅ ∅ ∅ ∅ ∅ ∅ ∅ ∅ ∅ ∅ ∅ ∅ ∅.

(** Replacing one table. *)

Definition set_organizations (t : gmap string Organization) (d : DB) : DB :=
  mkDB t (t_users d) (t_user_identities d) (t_compute_clusters d) (t_compute_cluster_users d)
    (t_projects d) (t_project_memberships d) (t_compute_allocations d) (t_resources d)
    (t_resource_mappings d) (t_resource_rates d) (t_diffs d) (t_change_requests d)
    (t_change_request_events d) (t_memberships d) (t_usages d) (t_overrides d)
    (t_audit_events d) (t_user_privileges d) (t_roles d) (t_role_privileges d) (t_user_roles d).

Definition set_users (t : gmap string User) (d : DB) : DB :=
  mkDB (t_organizations d) t (t_user_identities d) (t_compute_clusters d)
    (t_compute_cluster_users d) (t_projects d) (t_project_memberships d)
    (t_compute_allocations d) (t_resources d) (t_resource_mappings d) (t_resource_rates d)
    (t_diffs d) (t_change_requests d) (t_change_request_events d) (t_memberships d) (t_usages d)
    (t_overrides d) (t_audit_events d) (t_user_privileges d) (t_roles d) (t_role_privileges d)
    (t_user_roles d).

Definition set_user_identities (t : gmap string UserIdentity) (d : DB) : DB :=
  mkDB (t_organizations d) (t_users d) t (t_compute_clusters d) (t_compute_cluster_users d)
    (t_projects d) (t_project_memberships d) (t_compute_allocations d) (t_resources d)
    (t_resource_mappings d) (t_resource_rates d) (t_diffs d) (t_change_requests d)
    (t_change_request_events d) (t_memberships d) (t_usages d) (t_overrides d)
    (t_audit_events d) (t_user_privileges d) (t_roles d) (t_role_privileges d) (t_user_roles d).

Definition set_compute_clusters (t : gmap string ComputeCluster) (d : DB) : DB :=
  mkDB (t_organizations d) (t_users d) (t_user_identities d) t (t_compute_cluster_users d)
    (t_projects d) (t_project_memberships d) (t_compute_allocations d) (t_resources d)
    (t_resource_mappings d) (t_resource_rates d) (t_diffs d) (t_change_requests d)
    (t_change_request_events d) (t_memberships d) (t_usages d) (t_overrides d)
    (t_audit_events d) (t_user_privileges d) (t_roles d) (t_role_privileges d) (t_user_roles d).

Definition set_compute_cluster_users (t : gmap string ComputeClusterUser) (d : DB) : DB :=
  mkDB (t_organizations d) (t_users d) (t_user_identities d) (t_compute_clusters d) t
    (t_projects d) (t_project_memberships d) (t_compute_allocations d) (t_resources d)
    (t_resource_mappings d) (t_resource_rates d) (t_diffs d) (t_change_requests d)
    (t_change_request_events d) (t_memberships d) (t_usages d) (t_overrides d)
    (t_audit_events d) (t_user_privileges d) (t_roles d) (t_role_privileges d) (t_user_roles d).

Definition set_projects (t : gmap string Project) (d : DB) : DB :=
  mkDB (t_organizations d) (t_users d) (t_user_identities d) (t_compute_clusters d)
    (t_compute_cluster_users d) t (t_project_memberships d) (t_compute_allocations d)
    (t_resources d) (t_resource_mappings d) (t_resource_rates d) (t_diffs d)
    (t_change_requests d) (t_change_request_events d) (t_memberships d) (t_usages d)
    (t_overrides d) (t_audit_events d) (t_user_privileges d) (t_roles d) (t_role_privileges d)
    (t_user_roles d).

Definition set_project_memberships (t : gmap (string * string) ProjectMembership) (d : DB) : DB :=
  mkDB (t_organizations d) (t_users d) (t_user_identities d) (t_compute_clusters d)
    (t_compute_cluster_users d) (t_projects d) t (t_compute_allocations d) (t_resources d)
    (t_resource_mappings d) (t_resource_rates d) (t_diffs d) (t_change_requests d)
    (t_change_request_events d) (t_memberships d) (t_usages d) (t_overrides d)
    (t_audit_events d) (t_user_privileges d) (t_roles d) (t_role_privileges d) (t_user_roles d).

Definition set_compute_allocations (t : gmap string ComputeAllocation) (d : DB) : DB :=
  mkDB (t_organizations d) (t_users d) (t_user_identities d) (t_compute_clusters d)
    (t_compute_cluster_users d) (t_projects d) (t_project_memberships d) t (t_resources d)
    (t_resource_mappings d) (t_resource_rates d) (t_diffs d) (t_change_requests d)
    (t_change_request_events d) (t_memberships d) (t_usages d) (t_overrides d)
    (t_audit_events d) (t_user_privileges d) (t_roles d) (t_role_privileges d) (t_user_roles d).

Definition set_resources (t : gmap string ComputeAllocationResource) (d : DB) : DB :=
  mkDB (t_organizations d) (t_users d) (t_user_identities d) (t_compute_clusters d)
    (t_compute_cluster_users d) (t_projects d) (t_project_memberships d)
    (t_compute_allocations d) t (t_resource_mappings d) (t_resource_rates d) (t_diffs d)
    (t_change_requests d) (t_change_request_events d) (t_memberships d) (t_usages d)
    (t_overrides d) (t_audit_events d) (t_user_privileges d) (t_roles d) (t_role_privileges d)
    (t_user_roles d).

Definition set_resource_mappings (t : gmap string ComputeAllocationResourceMapping) (d : DB) : DB :=
  mkDB (t_organizations d) (t_users d) (t_user_identities d) (t_compute_clusters d)
    (t_compute_cluster_users d) (t_projects d) (t_project_memberships d)
    (t_compute_allocations d) (t_resources d) t (t_resource_rates d) (t_diffs d)
    (t_change_requests d) (t_change_request_events d) (t_memberships d) (t_usages d)
    (t_overrides d) (t_audit_events d) (t_user_privileges d) (t_roles d) (t_role_privileges d)
    (t_user_roles d).

Definition set_resource_rates (t : gmap string ComputeAllocationResourceRate) (d : DB) : DB :=
  mkDB (t_organizations d) (t_users d) (t_user_identities d) (t_compute_clusters d)
    (t_compute_cluster_users d) (t_projects d) (t_project_memberships d)
    (t_compute_allocations d) (t_resources d) (t_resource_mappings d) t (t_diffs d)
    (t_change_requests d) (t_change_request_events d) (t_memberships d) (t_usages d)
    (t_overrides d) (t_audit_events d) (t_user_privileges d) (t_roles d) (t_role_privileges d)
    (t_user_roles d).

Definition set_diffs (t : gmap string ComputeAllocationDiff) (d : DB) : DB :=
  mkDB (t_organizations d) (t_users d) (t_user_identities d) (t_compute_clusters d)
    (t_compute_cluster_users d) (t_projects d) (t_project_memberships d)
    (t_compute_allocations d) (t_resources d) (t_resource_mappings d) (t_resource_rates d) t
    (t_change_requests d) (t_change_request_events d) (t_memberships d) (t_usages d)
    (t_overrides d) (t_audit_events d) (t_user_privileges d) (t_roles d) (t_role_privileges d)
    (t_user_roles d).

Definition set_change_requests (t : gmap string ComputeAllocationChangeRequest) (d : DB) : DB :=
  mkDB (t_organizations d) (t_users d) (t_user_identities d) (t_compute_clusters d)
    (t_compute_cluster_users d) (t_projects d) (t_project_memberships d)
    (t_compute_allocations d) (t_resources d) (t_resource_mappings d) (t_resource_rates d)
    (t_diffs d) t (t_change_request_events d) (t_memberships d) (t_usages d) (t_overrides d)
    (t_audit_events d) (t_user_privileges d) (t_roles d) (t_role_privileges d) (t_user_roles d).

Definition set_change_request_events (t : gmap string ComputeAllocationChangeRequestEvent) (d : DB) : DB :=
  mkDB (t_organizations d) (t_users d) (t_user_identities d) (t_compute_clusters d)
    (t_compute_cluster_users d) (t_projects d) (t_project_memberships d)
    (t_compute_allocations d) (t_resources d) (t_resource_mappings d) (t_resource_rates d)
    (t_diffs d) (t_change_requests d) t (t_memberships d) (t_usages d) (t_overrides d)
    (t_audit_events d) (t_user_privileges d) (t_roles d) (t_role_privileges d) (t_user_roles d).

Definition set_memberships (t : gmap string ComputeAllocationMembership) (d : DB) : DB :=
  mkDB (t_organizations d) (t_users d) (t_user_identities d) (t_compute_clusters d)
    (t_compute_cluster_users d) (t_projects d) (t_project_memberships d)
    (t_compute_allocations d) (t_resources d) (t_resource_mappings d) (t_resource_rates d)
    (t_diffs d) (t_change_requests d) (t_change_request_events d) t (t_usages d) (t_overrides d)
    (t_audit_events d) (t_user_privileges d) (t_roles d) (t_role_privileges d) (t_user_roles d).

Definition set_usages (t : gmap string ComputeAllocationUsage) (d : DB) : DB :=
  mkDB (t_organizations d) (t_users d) (t_user_identities d) (t_compute_clusters d)
    (t_compute_cluster_users d) (t_projects d) (t_project_memberships d)
    (t_compute_allocations d) (t_resources d) (t_resource_mappings d) (t_resource_rates d)
    (t_diffs d) (t_change_requests d) (t_change_request_events d) (t_memberships d) t
    (t_overrides d) (t_audit_events d) (t_user_privileges d) (t_roles d) (t_role_privileges d)
    (t_user_roles d).

Definition set_overrides (t : gmap string ComputeAllocationMembershipResourceOverride) (d : DB) : DB :=
  mkDB (t_organizations d) (t_users d) (t_user_identities d) (t_compute_clusters d)
    (t_compute_cluster_users d) (t_projects d) (t_project_memberships d)
    (t_compute_allocations d) (t_resources d) (t_resource_mappings d) (t_resource_rates d)
    (t_diffs d) (t_change_requests d) (t_change_request_events d) (t_memberships d) (t_usages d)
    t (t_audit_events d) (t_user_privileges d) (t_roles d) (t_role_privileges d)
    (t_user_roles d).

Definition set_audit_events (t : gmap string AuditEvent) (d : DB) : DB :=
  mkDB (t_organizations d) (t_users d) (t_user_identities d) (t_compute_clusters d)
    (t_compute_cluster_users d) (t_projects d) (t_project_memberships d)
    (t_compute_allocations d) (t_resources d) (t_resource_mappings d) (t_resource_rates d)
    (t_diffs d) (t_change_requests d) (t_change_request_events d) (t_memberships d) (t_usages d)
    (t_overrides d) t (t_user_privileges d) (t_roles d) (t_role_privileges d) (t_user_roles d).

Definition set_user_privileges (t : gmap string UserPrivilege) (d : DB) : DB :=
  mkDB (t_organizations d) (t_users d) (t_user_identities d) (t_compute_clusters d)
    (t_compute_cluster_users d) (t_projects d) (t_project_memberships d)
    (t_compute_allocations d) (t_resources d) (t_resource_mappings d) (t_resource_rates d)
    (t_diffs d) (t_change_requests d) (t_change_request_events d) (t_memberships d) (t_usages d)
    (t_overrides d) (t_audit_events d) t (t_roles d) (t_role_privileges d) (t_user_roles d).

Definition set_roles (t : gmap string Role) (d : DB) : DB :=
  mkDB (t_organizations d) (t_users d) (t_user_identities d) (t_compute_clusters d)
    (t_compute_cluster_users d) (t_projects d) (t_project_memberships d)
    (t_compute_allocations d) (t_resources d) (t_resource_mappings d) (t_resource_rates d)
    (t_diffs d) (t_change_requests d) (t_change_request_events d) (t_memberships d) (t_usages d)
    (t_overrides d) (t_audit_events d) (t_user_privileges d) t (t_role_privileges d)
    (t_user_roles d).

Definition set_role_privileges (t : gmap (string * PrivilegeKey) RolePrivilege) (d : DB) : DB :=
  mkDB (t_organizations d) (t_users d) (t_user_identities d) (t_compute_clusters d)
    (t_compute_cluster_users d) (t_projects d) (t_project_memberships d)
    (t_compute_allocations d) (t_resources d) (t_resource_mappings d) (t_resource_rates d)
    (t_diffs d) (t_change_requests d) (t_change_request_events d) (t_memberships d) (t_usages d)
    (t_overrides d) (t_audit_events d) (t_user_privileges d) (t_roles d) t (t_user_roles d).

Definition set_user_roles (t : gmap (string * string) UserRole) (d : DB) : DB :=
  mkDB (t_organizations d) (t_users d) (t_user_identities d) (t_compute_clusters d)
    (t_compute_cluster_users d) (t_projects d) (t_project_memberships d)
    (t_compute_allocations d) (t_resources d) (t_resource_mappings d) (t_resource_rates d)
    (t_diffs d) (t_change_requests d) (t_change_request_events d) (t_memberships d) (t_usages d)
    (t_overrides d) (t_audit_events d) (t_user_privileges d) (t_roles d) (t_role_privileges d) t.

(** ** Statements *)

(** A write statement: the new database, or the error the server reports. *)
Abbreviation stmt := (DB → dberr + DB).

Notation "'ensure' P 'orelse' e ; k" :=
  (if decide P then k else inl e)
  (at level 10, P at level 199, e at level 99, k at level 200,
   format "'[v' 'ensure'  P  'orelse'  e ; '/' k ']'").

(** VARCHAR(n) columns: every value fits its column. *)
Definition fits (cols : list (nat * string)) : Prop :=
  Forall (λ c, char_length (snd c) ≤ fst c) cols.
#[export] Instance fits_dec cols : Decision (fits cols).
Proof. unfold fits. apply _. Defined.

Section constraints.
Context {K} `{Countable K} {R : Type}.
Implicit Types (t : gmap K R) (k : K) (r : R).

(** The primary key of a row is the key it is stored under. *)
Definition keyed (pk : R → K) (t : gmap K R) : Prop :=
  map_Forall (λ k r, pk r = k) t.

(** UNIQUE (f): no two rows have the same non-NULL value. *)
Definition uniq {U} (f : R → option U) (t : gmap K R) : Prop :=
  ∀ k1 k2 r1 r2 u, t !! k1 = Some r1 → t !! k2 = Some r2 →
    f r1 = Some u → f r2 = Some u → k1 = k2.

(** The check the server makes when row [r] is written under key [k]. *)
Definition free {U} (f : R → option U) (k : K) (r : R) (t : gmap K R) : Prop :=
  map_Forall (λ k' r', k' ≠ k → f r = None ∨ f r' ≠ f r) t.

#[export] Instance free_dec {U} `{EqDecision U} (f : R → option U) k r t :
  Decision (free f k r t).
Proof. unfold free. apply _. Defined.

#[export] Instance uniq_dec {U} `{EqDecision U} (f : R → option U) t : Decision (uniq f t).
Proof.
  refine (cast_if (decide (map_Forall (λ k r, free f k r t) t))); unfold uniq, free, map_Forall in *.
  - abstract (intros k1 k2 r1 r2 u H1 H2 F1 F2; destruct (decide (k1 = k2)); [done|];
      destruct (m k2 r2 H2 k1 r1 H1); congruence).
  - abstract (intros Hu; apply n; intros k r Hk k' r' Hk' Hne;
      destruct (f r) as [u|] eqn:Hf; [right|by left]; intros Hf'; by destruct Hne; eapply Hu).
Defined.
End constraints.

Section references.
Context {K} `{Countable K} {R : Type} {K'} `{Countable K'} {R' : Type}.
Implicit Types (t : gmap K R) (p : gmap K' R') (f : R → option K').

(** FOREIGN KEY (f) REFERENCES p: every non-NULL reference is to a row. *)
Definition refs f (t : gmap K R) (p : gmap K' R') : Prop :=
  map_Forall (λ _ r, ∀ k', f r = Some k' → is_Some (p !! k')) t.

(** The check made when a row with reference [o] is written. *)
Definition has_parent (o : option K') (p : gmap K' R') : Prop :=
  match o with Some k' => is_Some (p !! k') | None => True end.

#[export] Instance has_parent_dec o p : Decision (has_parent o p).
Proof. destruct o; simpl; apply _. Defined.

#[export] Instance refs_dec f t p : Decision (refs f t p).
Proof.
  refine (cast_if (decide (map_Forall (λ _ r, has_parent (f r) p) t)));
    unfold refs, map_Forall, has_parent in *.
  - abstract (intros k r Hk k' Hf; specialize (m k r Hk); by rewrite Hf in m).
  - abstract (intros Hr; apply n; intros k r Hk; destruct (f r) eqn:Hf; eauto).
Defined.

(** ON DELETE RESTRICT: no row refers to a deleted key. *)
Definition unreferenced f (k' : K') (t : gmap K R) : Prop :=
  map_Forall (λ _ r, f r ≠ Some k') t.

#[export] Instance unreferenced_dec f k' t : Decision (unreferenced f k' t).
Proof. unfold unreferenced. apply _. Defined.

(** ON DELETE CASCADE: the rows that refer to a deleted key go too. *)
Definition refers_in f (ks : gset K') (kr : K * R) : Prop :=
  match f kr.2 with Some k' => k' ∈ ks | None => False end.

#[export] Instance refers_in_dec f ks kr : Decision (refers_in f ks kr).
Proof. unfold refers_in. destruct (f kr.2); apply _. Defined.

Definition cascade f (ks : gset K') (t : gmap K R) : gmap K R :=
  filter (λ kr, ¬ refers_in f ks kr) t.
End references.

(** The keys of [t] that [t'] no longer has. *)
Definition removed_keys {K} `{Countable K} {R} (t t' : gmap K R) : gset K :=
  dom t ∖ dom t'.

(** UPDATE t SET ... WHERE the row satisfies [P]. *)
Definition update_where {K} `{Countable K} {R} (P : R → Prop) `{!∀ r, Decision (P r)}
    (g : R → R) (t : gmap K R) : gmap K R :=
  (λ r, if decide (P r) then g r else r) <$> t.

(** ** The declared constraints *)

Definition uq_users_email (u : User) : option string := Some (lower (User_Email u)).
Definition uq_user_identities_source_external (e : UserIdentity) : option (string * string) :=
  Some (UserIdentity_Source e, UserIdentity_ExternalID e).
(** oidc_sub is NULL when the struct field is empty. *)
Definition uq_user_identities_oidc_sub (e : UserIdentity) : option string :=
  if decide (UserIdentity_OIDCSub e = "") then None else Some (UserIdentity_OIDCSub e).
Definition uq_compute_clusters_name (c : ComputeCluster) : option string :=
  Some (ComputeCluster_Name c).
Definition uq_compute_cluster_users_pair (c : ComputeClusterUser) : option (string * string) :=
  Some (ComputeClusterUser_ComputeClusterID c, ComputeClusterUser_UserID c).
Definition uq_compute_cluster_users_local_username (c : ComputeClusterUser) : option (string * string) :=
  Some (ComputeClusterUser_ComputeClusterID c, ComputeClusterUser_LocalUsername c).
Definition uq_compute_allocation_resources_cluster_name (r : ComputeAllocationResource) : option (string * string) :=
  Some (Resource_ComputeClusterID r, Resource_Name r).
Definition uq_carm_pair (m : ComputeAllocationResourceMapping) : option (string * string) :=
  Some (Mapping_ComputeAllocationID m, Mapping_ComputeAllocationResourceID m).
Definition uq_compute_allocation_memberships_allocation_user (m : ComputeAllocationMembership) : option (string * string) :=
  Some (Membership_ComputeAllocationID m, Membership_UserID m).
Definition uq_camro_membership_resource (o : ComputeAllocationMembershipResourceOverride) : option (string * string) :=
  Some (Override_ComputeAllocationMembershipID o, Override_ComputeAllocationResourceID o).
Definition uq_user_privileges (p : UserPrivilege) : option (string * PrivilegeKey) :=
  Some (UserPrivilege_UserID p, UserPrivilege_Privilege p).
Definition uq_roles_name (r : Role) : option string := Some (Role_Name r).

Definition fk_users_organization (u : User) : option string := Some (User_OrganizationID u).
Definition fk_user_identities_user (e : UserIdentity) : option string := Some (UserIdentity_UserID e).
Definition fk_compute_cluster_users_cluster (c : ComputeClusterUser) : option string :=
  Some (ComputeClusterUser_ComputeClusterID c).
Definition fk_compute_cluster_users_user (c : ComputeClusterUser) : option string :=
  Some (ComputeClusterUser_UserID c).
Definition fk_projects_pi (p : Project) : option string := Some (Project_ProjectPIID p).
Definition fk_project_memberships_project (m : ProjectMembership) : option string :=
  Some (ProjectMembership_ProjectID m).
Definition fk_project_memberships_user (m : ProjectMembership) : option string :=
  Some (ProjectMembership_UserID m).
Definition fk_compute_allocations_project (a : ComputeAllocation) : option string :=
  Some (ComputeAllocation_ProjectID a).
Definition fk_compute_allocations_cluster (a : ComputeAllocation) : option string :=
  Some (ComputeAllocation_ComputeClusterID a).
Definition fk_compute_allocation_resources_cluster (r : ComputeAllocationResource) : option string :=
  Some (Resource_ComputeClusterID r).
Definition fk_carm_allocation (m : ComputeAllocationResourceMapping) : option string :=
  Some (Mapping_ComputeAllocationID m).
Definition fk_carm_resource (m : ComputeAllocationResourceMapping) : option string :=
  Some (Mapping_ComputeAllocationResourceID m).
Definition fk_carr_rates_resource (r : ComputeAllocationResourceRate) : option string :=
  Some (Rate_ComputeAllocationResourceID r).
Definition fk_compute_allocation_diffs_allocation (x : ComputeAllocationDiff) : option string :=
  Some (Diff_ComputeAllocationID x).
Definition fk_compute_allocation_change_requests_allocation (c : ComputeAllocationChangeRequest) : option string :=
  Some (ChangeRequest_ComputeAllocationID c).
Definition fk_compute_allocation_memberships_allocation (m : ComputeAllocationMembership) : option string :=
  Some (Membership_ComputeAllocationID m).
Definition fk_camro_membership (o : ComputeAllocationMembershipResourceOverride) : option string :=
  Some (Override_ComputeAllocationMembershipID o).
Definition fk_camro_resource (o : ComputeAllocationMembershipResourceOverride) : option string :=
  Some (Override_ComputeAllocationResourceID o).
Definition fk_user_privileges_user (p : UserPrivilege) : option string := Some (UserPrivilege_UserID p).
Definition fk_user_privileges_granted_by (p : UserPrivilege) : option string := UserPrivilege_GrantedBy p.
Definition fk_role_privileges_role (rp : RolePrivilege) : option string := Some (RolePrivilege_RoleID rp).
Definition fk_user_roles_user (ur : UserRole) : option string := Some (UserRole_UserID ur).
Definition fk_user_roles_role (ur : UserRole) : option string := Some (UserRole_RoleID ur).
Definition fk_user_roles_granted_by (ur : UserRole) : option string := UserRole_GrantedBy ur.

Definition ProjectMembership_pk (m : ProjectMembership) : string * string :=
  (ProjectMembership_ProjectID m, ProjectMembership_UserID m).
Definition RolePrivilege_pk (rp : RolePrivilege) : string * PrivilegeKey :=
  (RolePrivilege_RoleID rp, RolePrivilege_Privilege rp).
Definition UserRole_pk (ur : UserRole) : string * string :=
  (UserRole_UserID ur, UserRole_RoleID ur).

(** chk_project_memberships_role. *)
Definition chk_project_memberships_role (m : ProjectMembership) : Prop :=
  ProjectMembership_Role m ∈ GovernanceRoles.
#[export] Instance chk_project_memberships_role_dec m :
  Decision (chk_project_memberships_role m).
Proof. unfold chk_project_memberships_role. apply _. Defined.

(** ** Integrity: every constraint holds *)

Record integrity (d : DB) : Prop := {
  pk_organizations : keyed Organization_ID (t_organizations d);
  pk_users : keyed User_ID (t_users d);
  pk_user_identities : keyed UserIdentity_ID (t_user_identities d);
  pk_compute_clusters : keyed ComputeCluster_ID (t_compute_clusters d);
  pk_compute_cluster_users : keyed ComputeClusterUser_ID (t_compute_cluster_users d);
  pk_projects : keyed Project_ID (t_projects d);
  pk_project_memberships : keyed ProjectMembership_pk (t_project_memberships d);
  pk_compute_allocations : keyed ComputeAllocation_ID (t_compute_allocations d);
  pk_resources : keyed Resource_ID (t_resources d);
  pk_resource_mappings : keyed Mapping_ID (t_resource_mappings d);
  pk_resource_rates : keyed Rate_ID (t_resource_rates d);
  pk_diffs : keyed Diff_ID (t_diffs d);
  pk_change_requests : keyed ChangeRequest_ID (t_change_requests d);
  pk_change_request_events : keyed ChangeEvent_ID (t_change_request_events d);
  pk_memberships : keyed Membership_ID (t_memberships d);
  pk_usages : keyed Usage_ID (t_usages d);
  pk_overrides : keyed Override_ID (t_overrides d);
  pk_audit_events : keyed AuditEvent_ID (t_audit_events d);
  pk_user_privileges : keyed UserPrivilege_ID (t_user_privileges d);
  pk_roles : keyed Role_ID (t_roles d);
  pk_role_privileges : keyed RolePrivilege_pk (t_role_privileges d);
  pk_user_roles : keyed UserRole_pk (t_user_roles d);
  u_users_email : uniq uq_users_email (t_users d);
  u_identities_source : uniq uq_user_identities_source_external (t_user_identities d);
  u_identities_sub : uniq uq_user_identities_oidc_sub (t_user_identities d);
  u_clusters_name : uniq uq_compute_clusters_name (t_compute_clusters d);
  u_cluster_users_pair : uniq uq_compute_cluster_users_pair (t_compute_cluster_users d);
  u_cluster_users_name : uniq uq_compute_cluster_users_local_username (t_compute_cluster_users d);
  u_resources_name : uniq uq_compute_allocation_resources_cluster_name (t_resources d);
  u_mappings_pair : uniq uq_carm_pair (t_resource_mappings d);
  u_memberships_pair : uniq uq_compute_allocation_memberships_allocation_user (t_memberships d);
  u_overrides_pair : uniq uq_camro_membership_resource (t_overrides d);
  u_privileges_pair : uniq uq_user_privileges (t_user_privileges d);
  u_roles_name : uniq uq_roles_name (t_roles d);
  f_users_org : refs fk_users_organization (t_users d) (t_organizations d);
  f_identities_user : refs fk_user_identities_user (t_user_identities d) (t_users d);
  f_cluster_users_cluster : refs fk_compute_cluster_users_cluster (t_compute_cluster_users d) (t_compute_clusters d);
  f_cluster_users_user : refs fk_compute_cluster_users_user (t_compute_cluster_users d) (t_users d);
  f_projects_pi : refs fk_projects_pi (t_projects d) (t_users d);
  f_pm_project : refs fk_project_memberships_project (t_project_memberships d) (t_projects d);
  f_pm_user : refs fk_project_memberships_user (t_project_memberships d) (t_users d);
  f_alloc_project : refs fk_compute_allocations_project (t_compute_allocations d) (t_projects d);
  f_alloc_cluster : refs fk_compute_allocations_cluster (t_compute_allocations d) (t_compute_clusters d);
  f_resources_cluster : refs fk_compute_allocation_resources_cluster (t_resources d) (t_compute_clusters d);
  f_mappings_alloc : refs fk_carm_allocation (t_resource_mappings d) (t_compute_allocations d);
  f_mappings_resource : refs fk_carm_resource (t_resource_mappings d) (t_resources d);
  f_rates_resource : refs fk_carr_rates_resource (t_resource_rates d) (t_resources d);
  f_diffs_alloc : refs fk_compute_allocation_diffs_allocation (t_diffs d) (t_compute_allocations d);
  f_change_requests_alloc : refs fk_compute_allocation_change_requests_allocation (t_change_requests d) (t_compute_allocations d);
  f_memberships_alloc : refs fk_compute_allocation_memberships_allocation (t_memberships d) (t_compute_allocations d);
  f_overrides_membership : refs fk_camro_membership (t_overrides d) (t_memberships d);
  f_overrides_resource : refs fk_camro_resource (t_overrides d) (t_resources d);
  f_privileges_user : refs fk_user_privileges_user (t_user_privileges d) (t_users d);
  f_privileges_granter : refs fk_user_privileges_granted_by (t_user_privileges d) (t_users d);
  f_role_privileges_role : refs fk_role_privileges_role (t_role_privileges d) (t_roles d);
  f_user_roles_user : refs fk_user_roles_user (t_user_roles d) (t_users d);
  f_user_roles_role : refs fk_user_roles_role (t_user_roles d) (t_roles d);
  f_user_roles_granter : refs fk_user_roles_granted_by (t_user_roles d) (t_users d);
  c_pm_role : map_Forall (λ _ m, chk_project_memberships_role m) (t_project_memberships d) }.

(** ** Constraint lemmas *)

Section keyed_lemmas.
Context {K} `{Countable K} {R : Type}.
Implicit Types (t : gmap K R).

Lemma keyed_insert (pk : R → K) t k r : keyed pk t → pk r = k → keyed pk (<[k:=r]> t).
Proof. intros Ht Hk. by apply map_Forall_insert_2. Qed.

Lemma keyed_subseteq (pk : R → K) t t' : t' ⊆ t → keyed pk t → keyed pk t'.
Proof. intros Hs Ht k r Hk. eapply Ht, lookup_weaken; eauto. Qed.

Lemma keyed_fmap (pk : R → K) (g : R → R) t :
  (∀ r, pk (g r) = pk r) → keyed pk t → keyed pk (g <$> t).
Proof. intros Hg Ht k r (r0 & <- & Hk)%lookup_fmap_Some. cbn. rewrite Hg. by apply Ht. Qed.

Lemma uniq_insert {U} (f : R → option U) t k r :
  uniq f t → free f k r t → uniq f (<[k:=r]> t).
Proof.
  intros Hu Hf k1 k2 r1 r2 u [[<- <-]|[? H1]]%lookup_insert_Some
    [[<- <-]|[? H2]]%lookup_insert_Some Hr1 Hr2; try done; eauto.
  - destruct (Hf k2 r2 H2); [done|congruence..].
  - destruct (Hf k1 r1 H1); [done|congruence..].
Qed.

Lemma uniq_subseteq {U} (f : R → option U) t t' : t' ⊆ t → uniq f t → uniq f t'.
Proof. intros Hs Hu k1 k2 r1 r2 u H1 H2. eapply Hu; by eapply lookup_weaken. Qed.

Lemma uniq_fmap {U} (f : R → option U) (g : R → R) t :
  (∀ r, f (g r) = f r) → uniq f t → uniq f (g <$> t).
Proof.
  intros Hg Hu k1 k2 r1 r2 u (x & <- & H1)%lookup_fmap_Some (y & <- & H2)%lookup_fmap_Some.
  rewrite !Hg. by apply Hu.
Qed.

(** Two rows that agree on a unique column are the same row. *)
Lemma uniq_eq {U} (f : R → option U) t k1 k2 r1 r2 u :
  uniq f t → t !! k1 = Some r1 → t !! k2 = Some r2 → f r1 = Some u → f r2 = Some u →
  r1 = r2.
Proof. intros Hu H1 H2 F1 F2. assert (k1 = k2) by eauto. by simplify_eq. Qed.

(** A row rewritten in place, its constrained columns unchanged. *)
Lemma keyed_same (pk : R → K) t k r r' :
  keyed pk t → t !! k = Some r → pk r' = pk r → pk r' = k.
Proof. intros Ht Hk ->. by apply Ht. Qed.

Lemma free_same {U} (f : R → option U) t k r r' :
  uniq f t → t !! k = Some r → f r' = f r → free f k r' t.
Proof.
  intros Hu Hk Hf k1 r1 H1 Hne. rewrite Hf. destruct (f r) as [u|] eqn:Hr; [right|by left].
  intros Hr1. by destruct Hne; eapply Hu.
Qed.

Lemma Forall_subseteq (P : R → Prop) t t' :
  t' ⊆ t → map_Forall (λ _ r, P r) t → map_Forall (λ _ r, P r) t'.
Proof. intros Hs Ht k r Hk. eapply Ht, lookup_weaken; eauto. Qed.
End keyed_lemmas.

Section refs_lemmas.
Context {K} `{Countable K} {R : Type} {K'} `{Countable K'} {R' : Type}.
Implicit Types (t : gmap K R) (p : gmap K' R') (f : R → option K').

Lemma refs_insert f t p k r :
  refs f t p → has_parent (f r) p → refs f (<[k:=r]> t) p.
Proof.
  intros Ht Hp. apply map_Forall_insert_2; [|done]. intros k' Hk'. by rewrite Hk' in Hp.
Qed.

Lemma has_parent_same f t p k r r' :
  refs f t p → t !! k = Some r → f r' = f r → has_parent (f r') p.
Proof. intros Ht Hk ->. destruct (f r) eqn:Hf; simpl; [|done]. by eapply Ht. Qed.

Lemma refs_subseteq f t t' p : t' ⊆ t → refs f t p → refs f t' p.
Proof. intros Hs Ht k r Hk. eapply Ht, lookup_weaken; eauto. Qed.

Lemma refs_fmap f (g : R → R) t p :
  (∀ r, f (g r) = f r) → refs f t p → refs f (g <$> t) p.
Proof. intros Hg Ht k r (r0 & <- & Hk)%lookup_fmap_Some. cbn. rewrite Hg. by eapply Ht. Qed.

Lemma refs_parent_dom f t p p' :
  (∀ k', is_Some (p !! k') → is_Some (p' !! k')) → refs f t p → refs f t p'.
Proof. intros Hp Ht k r Hk k' Hf. eapply Hp, Ht; eauto. Qed.

Lemma refs_parent_insert f t p k' r' : refs f t p → refs f t (<[k':=r']> p).
Proof.
  apply refs_parent_dom. intros k Hk. destruct (decide (k' = k)) as [->|].
  - rewrite lookup_insert_eq. by eexists.
  - by rewrite lookup_insert_ne.
Qed.

Lemma refs_parent_fmap f t p (g : R' → R') : refs f t p → refs f t (g <$> p).
Proof. apply refs_parent_dom. intros k' Hk'. by rewrite lookup_fmap, fmap_is_Some. Qed.

Lemma refs_parent_delete f t p k' :
  refs f t p → unreferenced f k' t → refs f t (delete k' p).
Proof.
  intros Ht Hn k r Hk k0 Hf. assert (k0 ≠ k') by (intros ->; by apply (Hn k r Hk)).
  rewrite lookup_delete_ne by done. by eapply Ht.
Qed.

Lemma cascade_subseteq f ks t : cascade f ks t ⊆ t.
Proof. apply map_filter_subseteq. Qed.

Lemma cascade_lookup f ks t k r :
  cascade f ks t !! k = Some r ↔ t !! k = Some r ∧ ∀ k', f r = Some k' → k' ∉ ks.
Proof.
  unfold cascade. rewrite map_lookup_filter_Some. unfold refers_in; simpl.
  destruct (f r) as [k'|]; split; intros [? Hn]; (split; [done|]);
    [by intros ? [= <-]|by apply Hn|done|tauto].
Qed.

Lemma refs_cascade f t p p' ks :
  refs f t p → (∀ k', is_Some (p !! k') → k' ∉ ks → is_Some (p' !! k')) →
  refs f (cascade f ks t) p'.
Proof. intros Ht Hp k r [Hk Hn]%cascade_lookup k' Hf. apply Hp; [by eapply Ht|eauto]. Qed.

Lemma refs_cascade_delete f t p k' :
  refs f t p → refs f (cascade f {[k']} t) (delete k' p).
Proof.
  intros Ht. apply (refs_cascade _ _ _ _ _ Ht). intros k Hk Hn.
  rewrite lookup_delete_ne; [done|]. intros ->. by apply Hn, elem_of_singleton.
Qed.

Lemma refs_cascade_removed f t p p' :
  refs f t p → refs f (cascade f (removed_keys p p') t) p'.
Proof.
  intros Ht. apply (refs_cascade _ _ _ _ _ Ht). intros k Hk Hn.
  apply elem_of_dom. apply elem_of_dom in Hk. unfold removed_keys in Hn. set_solver.
Qed.
End refs_lemmas.

Section set_null.
Context {K} `{Countable K} {R : Type} {K'} `{Countable K'} {R' : Type}.

(** ON DELETE SET NULL. *)
Lemma refs_set_null (f : R → option K') (g : R → R) (t : gmap K R) (p : gmap K' R') k' :
  (∀ r, f (g r) = if decide (f r = Some k') then None else f r) →
  refs f t p → refs f (g <$> t) (delete k' p).
Proof.
  intros Hg Ht k r (r0 & <- & Hk)%lookup_fmap_Some k0. cbn. rewrite Hg.
  case_decide as Hd; [done|]. intros Hf. rewrite lookup_delete_ne by congruence.
  by eapply Ht.
Qed.
End set_null.

(** Syntax-directed proof that a constraint still holds after a change. *)
Ltac table_step :=
  first
  [ eassumption
  | lazymatch goal with
    | |- keyed _ (<[_:=_]> _) => apply keyed_insert; [|try done]
    | |- keyed _ (delete _ _) => eapply keyed_subseteq; [apply delete_subseteq|]
    | |- keyed _ (cascade _ _ _) => eapply keyed_subseteq; [apply cascade_subseteq|]
    | |- keyed _ (filter _ _) => eapply keyed_subseteq; [apply map_filter_subseteq|]
    | |- keyed _ (update_where _ _ _) => unfold update_where
    | |- keyed _ (_ <$> _) => apply keyed_fmap; [intros ?; cbn; try case_decide; done|]
    | |- uniq _ (<[_:=_]> _) => apply uniq_insert; [|try done]
    | |- uniq _ (delete _ _) => eapply uniq_subseteq; [apply delete_subseteq|]
    | |- uniq _ (cascade _ _ _) => eapply uniq_subseteq; [apply cascade_subseteq|]
    | |- uniq _ (filter _ _) => eapply uniq_subseteq; [apply map_filter_subseteq|]
    | |- uniq _ (update_where _ _ _) => unfold update_where
    | |- uniq _ (_ <$> _) => apply uniq_fmap; [intros ?; cbn; try case_decide; done|]
    | |- refs _ _ (<[_:=_]> _) => apply refs_parent_insert
    | |- refs _ (<[_:=_]> _) _ => apply refs_insert; [|try done]
    | |- refs _ _ (update_where _ _ _) => unfold update_where
    | |- refs _ _ (_ <$> _) => apply refs_parent_fmap
    | |- refs ?f (cascade ?f {[?k]} _) (delete ?k _) => apply refs_cascade_delete
    | |- refs ?f (cascade ?f (removed_keys ?p ?p') _) ?p' => apply refs_cascade_removed
    | |- refs _ (delete _ _) _ => eapply refs_subseteq; [apply delete_subseteq|]
    | |- refs _ (cascade _ _ _) _ => eapply refs_subseteq; [apply cascade_subseteq|]
    | |- refs _ (filter _ _) _ => eapply refs_subseteq; [apply map_filter_subseteq|]
    | |- refs _ (update_where _ _ _) _ => unfold update_where
    | |- refs _ _ (delete _ _) => first [ apply refs_parent_delete; [|eassumption] | apply refs_set_null; [intros ?; cbn; repeat case_decide; done|] ]
    | |- refs _ (_ <$> _) _ => apply refs_fmap; [intros ?; cbn; try case_decide; done|]
    | |- free _ _ _ _ => eapply free_same; [eassumption|eassumption|done]
    | |- has_parent _ _ => eapply has_parent_same; [eassumption|eassumption|done]
    | |- _ = _ => eapply keyed_same; [eassumption|eassumption|done]
    | |- map_Forall _ (<[_:=_]> _) => apply map_Forall_insert_2; [try done|]
    | |- map_Forall _ (delete _ _) => eapply Forall_subseteq; [apply delete_subseteq|]
    | |- map_Forall _ (cascade _ _ _) => eapply Forall_subseteq; [apply cascade_subseteq|]
    | |- map_Forall _ (filter _ _) => eapply Forall_subseteq; [apply map_filter_subseteq|]
    end ].

(** A statement preserves integrity: unfold it, keep the constraints it does
    not touch, and prove the others from the checks it makes. *)
Ltac solve_integrity :=
  let d := fresh "d" in let d' := fresh "d'" in let HS := fresh "HS" in let HI := fresh "HI" in
  intros d d' HS HI;
  repeat (case_decide || case_match); simplify_eq;
  destruct HI; split; cbn; try assumption;
  repeat table_step.

(** [stmts] holds the definitions of the write statements. [stmt_inv H] turns a
    statement that succeeded into the checks it passed and the new database. *)
Create HintDb stmts.

Ltac stmt_inv H :=
  autounfold with stmts in H;
  repeat (cbv zeta in H;
    lazymatch type of H with
    | context [decide ?P] => destruct (decide P); try discriminate H
    | context [match ?x with _ => _ end] => destruct x eqn:?; try discriminate H
    end);
  injection H as <-.

(** A part of the database that a statement does not touch. *)
Ltac stmt_frame :=
  let d := fresh "d" in let d' := fresh "d'" in let H := fresh "H" in
  intros d d' H; stmt_inv H; reflexivity.
