(* ===== verification/Events.v ===== *)
(** * Event types

    The event types and payloads of pkg/events/types.go. A payload on the bus
    is an [interface{}] value; the service always publishes a pointer to a
    struct of pkg/models. *)

From S2P Require Import Prelude Models.
From stdpp Require Import base list strings.

Abbreviation EventType := string (only parsing).

Definition ProjectCreateEvent : EventType := "project::create".
Definition ProjectUpdateEvent : EventType := "project::update".
Definition ProjectDeleteEvent : EventType := "project::delete".
Definition UserCreateEvent : EventType := "user::create".
Definition UserUpdateEvent : EventType := "user::update".
Definition UserDeleteEvent : EventType := "user::delete".
Definition OrganizationCreateEvent : EventType := "organization::create".
Definition OrganizationUpdateEvent : EventType := "organization::update".
Definition OrganizationDeleteEvent : EventType := "organization::delete".
Definition ComputeClusterCreateEvent : EventType := "compute_cluster::create".
Definition ComputeClusterUpdateEvent : EventType := "compute_cluster::update".
Definition ComputeClusterDeleteEvent : EventType := "compute_cluster::delete".
Definition ComputeClusterUserCreateEvent : EventType := "compute_cluster_user::create".
Definition ComputeClusterUserUpdateEvent : EventType := "compute_cluster_user::update".
Definition ComputeClusterUserDeleteEvent : EventType := "compute_cluster_user::delete".
Definition ComputeAllocationCreateEvent : EventType := "compute_allocation::create".
Definition ComputeAllocationUpdateEvent : EventType := "compute_allocation::update".
Definition ComputeAllocationDeleteEvent : EventType := "compute_allocation::delete".
Definition ComputeAllocationDiffCreateEvent : EventType := "compute_allocation_diff::create".
Definition ComputeAllocationDiffUpdateEvent : EventType := "compute_allocation_diff::update".
Definition ComputeAllocationDiffDeleteEvent : EventType := "compute_allocation_diff::delete".
Definition ComputeAllocationResourceCreateEvent : EventType := "compute_allocation_resource::create".
Definition ComputeAllocationResourceUpdateEvent : EventType := "compute_allocation_resource::update".
Definition ComputeAllocationResourceDeleteEvent : EventType := "compute_allocation_resource::delete".
Definition ComputeAllocationMembershipCreateEvent : EventType := "compute_allocation_membership::create".
Definition ComputeAllocationMembershipUpdateEvent : EventType := "compute_allocation_membership::update".
Definition ComputeAllocationMembershipDeleteEvent : EventType := "compute_allocation_membership::delete".
Definition ComputeAllocationMembershipResourceOverrideCreateEvent : EventType :=
  "compute_allocation_membership_resource_override::create".
Definition ComputeAllocationMembershipResourceOverrideUpdateEvent : EventType :=
  "compute_allocation_membership_resource_override::update".
Definition ComputeAllocationMembershipResourceOverrideDeleteEvent : EventType :=
  "compute_allocation_membership_resource_override::delete".
Definition ComputeAllocationResourceMappingCreateEvent : EventType := "compute_allocation_resource_mapping::create".
Definition ComputeAllocationResourceMappingUpdateEvent : EventType := "compute_allocation_resource_mapping::update".
Definition ComputeAllocationResourceMappingDeleteEvent : EventType := "compute_allocation_resource_mapping::delete".
Definition UserIdentityCreateEvent : EventType := "user_identity::create".
Definition UserIdentityUpdateEvent : EventType := "user_identity::update".
Definition UserIdentityDeleteEvent : EventType := "user_identity::delete".

(** The dynamic type and value of a payload. *)
Inductive Payload :=
  | POrganization (o : Organization)
  | PUser (u : User)
  | PUserIdentity (e : UserIdentity)
  | PProject (p : Project)
  | PComputeCluster (c : ComputeCluster)
  | PComputeClusterUser (c : ComputeClusterUser)
  | PComputeAllocation (a : ComputeAllocation)
  | PComputeAllocationDiff (x : ComputeAllocationDiff)
  | PComputeAllocationResource (r : ComputeAllocationResource)
  | PComputeAllocationResourceMapping (m : ComputeAllocationResourceMapping)
  | PComputeAllocationMembership (m : ComputeAllocationMembership)
  | PComputeAllocationMembershipResourceOverride (o : ComputeAllocationMembershipResourceOverride).

Record Event := mkEvent {
  Event_Type : EventType;
  Event_Payload : Payload }.
