(* ===== verification/IdentityCache.v ===== *)
(** * The identity cache

    The in-process cache of pkg/service/identity_resolver.go: entries keyed by
    OIDC subject, each with an expiry instant. The mutex that guards every
    method makes the methods atomic steps, so each is one function. *)

From S2P Require Import Prelude Models.
From stdpp Require Import base gmap list strings.
From Stdlib Require Import ZArith Lia.

Local Open Scope Z_scope.

(** [identity.Caller]. *)
Record Caller := mkCaller { Caller_UserID : string }.

Record identityCacheEntry := mkEntry {
  entry_caller : Caller;
  entry_privs : list PrivilegeKey;
  entry_expires : Time }.

Record identityCache := mkCache {
  cache_entries : gmap string identityCacheEntry;
  cache_ttl : Z }.

(** [30 * time.Second], in microseconds. *)
Definition identityCacheDefaultTTL : Z := 30 * 1000000.

Definition newIdentityCache : identityCache := mkCache ∅ identityCacheDefaultTTL.

(** [get]: an expired entry is dropped and reported as a miss. *)
Definition cache_get (sub : string) (now : Time) (c : identityCache) :
    option identityCacheEntry * identityCache :=
  match cache_entries c !! sub with
  | None => (None, c)
  | Some e =>
      if decide (now < entry_expires e) then (Some e, c)
      else (None, mkCache (delete sub (cache_entries c)) (cache_ttl c))
  end.

Definition cache_set (sub : string) (caller : Caller) (privs : list PrivilegeKey)
    (now : Time) (c : identityCache) : identityCache :=
  mkCache (<[sub := mkEntry caller privs (now + cache_ttl c)]> (cache_entries c)) (cache_ttl c).

Definition cache_invalidateAll (c : identityCache) : identityCache :=
  mkCache ∅ (cache_ttl c).

(** [setTTL]: a non-positive duration selects the default. *)
Definition cache_setTTL (d : Z) (c : identityCache) : identityCache :=
  mkCache (cache_entries c) (if decide (d <= 0) then identityCacheDefaultTTL else d).

Lemma cache_get_Some sub now c e c' :
  cache_get sub now c = (Some e, c') →
  cache_entries c !! sub = Some e ∧ now < entry_expires e ∧ c' = c.
Proof. unfold cache_get. intros. split_cases. eauto. Qed.

Lemma cache_get_None sub now c c' :
  cache_get sub now c = (None, c') →
  cache_entries c' !! sub = None ∧ ∀ s, s ≠ sub → cache_entries c' !! s = cache_entries c !! s.
Proof.
  unfold cache_get. destruct (cache_entries c !! sub) as [e|] eqn:E; [case_decide|];
    intros; simplify_eq/=; [|done].
  split; [apply lookup_delete_eq|]. intros. by rewrite lookup_delete_ne.
Qed.

(** ** Histories

    The calls made on a cache, oldest first. *)

Inductive cache_op :=
  | OpGet (sub : string) (now : Time)
  | OpSet (sub : string) (caller : Caller) (privs : list PrivilegeKey) (now : Time)
  | OpInvalidateAll
  | OpSetTTL (d : Z).

Definition cache_apply (c : identityCache) (o : cache_op) : identityCache :=
  match o with
  | OpGet sub now => (cache_get sub now c).2
  | OpSet sub caller privs now => cache_set sub caller privs now c
  | OpInvalidateAll => cache_invalidateAll c
  | OpSetTTL d => cache_setTTL d c
  end.

Definition cache_run (ops : list cache_op) : identityCache := foldl cache_apply newIdentityCache ops.

(** Discards the entry of [sub] or replaces it. *)
Definition drops (sub : string) (o : cache_op) : Prop :=
  match o with OpSet s _ _ _ => s = sub | OpInvalidateAll => True | _ => False end.

Lemma cache_run_snoc ops o : cache_run (ops ++ [o]) = cache_apply (cache_run ops) o.
Proof. unfold cache_run. by rewrite foldl_app. Qed.

(** An entry a call leaves in the cache was there, or is the one it stored. *)
Lemma cache_apply_entry c o sub e :
  cache_entries (cache_apply c o) !! sub = Some e →
  (cache_entries c !! sub = Some e ∧ ¬ drops sub o) ∨
  ∃ caller privs now, o = OpSet sub caller privs now ∧ e = mkEntry caller privs (now + cache_ttl c).
Proof.
  destruct o as [s now|s caller privs now| |d]; simpl; intros He.
  - left. split; [|auto]. unfold cache_get in He.
    destruct (cache_entries c !! s) as [e'|] eqn:Es; [case_decide|]; simpl in He; [done| |done].
    by apply lookup_delete_Some in He as [_ ?].
  - apply lookup_insert_Some in He as [[<- <-]|[Hne He]]; [right; eauto|]. left. auto.
  - by rewrite lookup_empty in He.
  - left. auto.
Qed.

Lemma cache_entry_origin ops sub e :
  cache_entries (cache_run ops) !! sub = Some e →
  ∃ pre caller privs t post,
    ops = pre ++ OpSet sub caller privs t :: post ∧ Forall (λ o, ¬ drops sub o) post ∧
    e = mkEntry caller privs (t + cache_ttl (cache_run pre)).
Proof.
  induction ops as [|o ops IH] using rev_ind.
  { cbn. by rewrite lookup_empty. }
  rewrite cache_run_snoc. intros [[He Hd]|(caller & privs & now & -> & ->)]%cache_apply_entry.
  - destruct (IH He) as (pre & caller & privs & t & post & -> & Hpost & ->).
    exists pre, caller, privs, t, (post ++ [o]). rewrite <- app_assoc. split; [done|].
    split; [|done]. apply Forall_app. auto.
  - exists ops, caller, privs, now, []. auto.
Qed.

(** Whatever calls were made on the cache, a lookup that hits at time [now]
    returns what the last store for that subject put in; that store happened
    less than the TTL then in force before [now], and the cache was not
    invalidated since. *)
Theorem cache_hit_origin ops sub now e c' :
  cache_get sub now (cache_run ops) = (Some e, c') →
  ∃ pre caller privs t post,
    ops = pre ++ OpSet sub caller privs t :: post ∧ Forall (λ o, ¬ drops sub o) post ∧
    entry_caller e = caller ∧ entry_privs e = privs ∧ now < t + cache_ttl (cache_run pre).
Proof.
  intros (He & Hnow & _)%cache_get_Some.
  destruct (cache_entry_origin _ _ _ He) as (pre & caller & privs & t & post & Ho & Hp & ->).
  exists pre, caller, privs, t, post. auto.
Qed.

Lemma cache_hit_origin_witness :
  ∃ pre caller privs t post,
    [OpSetTTL 10; OpSet "sub" (mkCaller "alice") [] 100; OpGet "other" 105]
      = pre ++ OpSet "sub" caller privs t :: post ∧
    Forall (λ o, ¬ drops "sub" o) post ∧
    Caller_UserID caller = "alice" ∧ privs = [] ∧ 109 < t + cache_ttl (cache_run pre).
Proof.
  destruct (cache_hit_origin [OpSetTTL 10; OpSet "sub" (mkCaller "alice") [] 100; OpGet "other" 105] "sub" 109
      (mkEntry (mkCaller "alice") [] 110)
      (cache_run [OpSetTTL 10; OpSet "sub" (mkCaller "alice") [] 100; OpGet "other" 105]) eq_refl)
    as (pre & caller & privs & t & post & H1 & H2 & <- & <- & H3).
  exists pre, (mkCaller "alice"), [], t, post. auto.
Defined.
