(* ===== verification/Effects.v ===== *)
(** * Effects of the service layer

    What a method of [service.Service] can do besides computing: read the
    database (the committed state, through [s.db]), run a transaction
    ([db.TxFn], here [inTx]) whose statements see the transaction's own working
    copy, draw an identifier ([newID]) or the time ([nowUTC], [NOW()]), publish
    an event, use the identity cache and the privilege registry. Every database
    round trip may fail: [fault n] says whether the [n]-th one of the run does,
    so a theorem quantified over [Env] covers a failure at any point. A COMMIT
    that fails may have been carried out all the same, when the connection broke
    before the server's answer arrived: [lost n]. *)

From S2P Require Import Prelude GoError Models Schema Events IdentityCache.
From stdpp Require Import base gmap list strings.
From Stdlib Require Import ZArith.

(** What the process does not control. [uuid n] is the [n]-th value of
    [uuid.NewString] (github.com/google/uuid), [clock n] the [n]-th reading of
    [time.Now], [db_clock n] the start time of the [n]-th transaction on the
    server, [fault n] whether the [n]-th database round trip fails, and [lost n]
    whether the server had nevertheless done what it was asked, so that only its
    answer was lost. *)
Class Env := {
  uuid : nat → string;
  clock : nat → Time;
  db_clock : nat → Time;
  fault : nat → bool;
  lost : nat → bool }.

(** The state of a running service. *)
Record World := mkWorld {
  w_db : DB;                       (* committed state *)
  w_tx : DB;                       (* working copy of the open transaction *)
  w_txnow : Time;                  (* CURRENT_TIMESTAMP of the open transaction *)
  w_ids : nat;                     (* identifiers drawn *)
  w_clock : nat;                   (* clock readings *)
  w_stmt : nat;                    (* database round trips made *)
  w_bus : list Event;              (* events published, oldest first *)
  w_cache : identityCache;
  w_registry : gset PrivilegeKey }.

Definition set_db (d : DB) (w : World) : World :=
  mkWorld d (w_tx w) (w_txnow w) (w_ids w) (w_clock w) (w_stmt w) (w_bus w) (w_cache w) (w_registry w).
Definition set_tx (d : DB) (w : World) : World :=
  mkWorld (w_db w) d (w_txnow w) (w_ids w) (w_clock w) (w_stmt w) (w_bus w) (w_cache w) (w_registry w).
Definition set_txnow (t : Time) (w : World) : World :=
  mkWorld (w_db w) (w_tx w) t (w_ids w) (w_clock w) (w_stmt w) (w_bus w) (w_cache w) (w_registry w).
Definition bump_ids (w : World) : World :=
  mkWorld (w_db w) (w_tx w) (w_txnow w) (S (w_ids w)) (w_clock w) (w_stmt w) (w_bus w) (w_cache w) (w_registry w).
Definition bump_clock (w : World) : World :=
  mkWorld (w_db w) (w_tx w) (w_txnow w) (w_ids w) (S (w_clock w)) (w_stmt w) (w_bus w) (w_cache w) (w_registry w).
Definition bump_stmt (w : World) : World :=
  mkWorld (w_db w) (w_tx w) (w_txnow w) (w_ids w) (w_clock w) (S (w_stmt w)) (w_bus w) (w_cache w) (w_registry w).
Definition set_bus (b : list Event) (w : World) : World :=
  mkWorld (w_db w) (w_tx w) (w_txnow w) (w_ids w) (w_clock w) (w_stmt w) b (w_cache w) (w_registry w).
Definition set_cache (c : identityCache) (w : World) : World :=
  mkWorld (w_db w) (w_tx w) (w_txnow w) (w_ids w) (w_clock w) (w_stmt w) (w_bus w) c (w_registry w).
Definition set_registry (g : gset PrivilegeKey) (w : World) : World :=
  mkWorld (w_db w) (w_tx w) (w_txnow w) (w_ids w) (w_clock w) (w_stmt w) (w_bus w) (w_cache w) g.

(** A service with the given committed database and nothing run yet. *)
Definition init_world (d : DB) : World :=
  mkWorld d empty_db 0%Z 0 0 0 [] newIdentityCache (list_to_set core_privileges).

(** ** The monad *)

Definition M (A : Type) : Type := World → Res A * World.

#[export] Instance M_ret : MRet M := λ A a w, (Ok a, w).
#[export] Instance M_bind : MBind M := λ A B k m w,
  match m w with
  | (Ok a, w') => k a w'
  | (Err e, w') => (Err e, w')
  end.

Definition throw {A} (e : error) : M A := λ w, (Err e, w).

(** [if P { return err }]. *)
Definition fail_if (P : Prop) `{Decision P} (e : error) : M unit :=
  if decide P then throw e else mret tt.

(** [if x == nil { return err }], and the value pointed to otherwise. *)
Definition deref {A} (o : option A) (e : error) : M A :=
  match o with Some a => mret a | None => throw e end.

(** [if err != nil { return fmt.Errorf(format, args..., err) }]. *)
Definition wrapf {A} (format : string) (args : list string) (m : M A) : M A := λ w,
  match m w with
  | (Ok a, w') => (Ok a, w')
  | (Err e, w') => (Err (Errorf format args e), w')
  end.
Abbreviation wrap format m := (wrapf format [] m).

(** A call whose error is translated: [switch { case ...: return err' }]. *)
Definition map_err {A} (f : error → error) (m : M A) : M A := λ w,
  match m w with
  | (Ok a, w') => (Ok a, w')
  | (Err e, w') => (Err (f e), w')
  end.

(** A call whose error the caller inspects. *)
Definition catch {A} (m : M A) : M (Res A) := λ w,
  let '(r, w') := m w in (Ok r, w').

Definition gets {A} (f : World → A) : M A := λ w, (Ok (f w), w).
Definition modify (f : World → World) : M unit := λ w, (Ok tt, f w).

(** [if cond { m }]. *)
Definition when (P : Prop) `{Decision P} (m : M unit) : M unit :=
  if decide P then m else mret tt.

(** ** The primitives *)

Section primitives.
Context `{E : Env}.

Definition newID : M string := λ w, (Ok (uuid (w_ids w)), bump_ids w).
Definition nowUTC : M Time := λ w, (Ok (clock (w_clock w)), bump_clock w).

(** One round trip to the server. *)
Definition round_trip : M unit := λ w,
  (if fault (w_stmt w) then Err (DbError IOFault) else Ok tt, bump_stmt w).

(** A SELECT through [s.db]: it sees the committed state. *)
Definition query {A} (f : DB → A) : M A := _ ← round_trip; gets (λ w, f (w_db w)).

(** A SELECT through the transaction: it sees the working copy. *)
Definition queryTx {A} (f : DB → A) : M A := _ ← round_trip; gets (λ w, f (w_tx w)).

Definition apply_stmt (s : stmt) : M unit := λ w,
  match s (w_tx w) with
  | inl e => (Err (DbError e), w)
  | inr d => (Ok tt, set_tx d w)
  end.

(** A write through the transaction. *)
Definition exec (s : stmt) : M unit := _ ← round_trip; apply_stmt s.

(** A write that uses the server's CURRENT_TIMESTAMP. *)
Definition exec_now (s : Time → stmt) : M unit :=
  _ ← round_trip; now ← gets w_txnow; apply_stmt (s now).

(** [db.TxFn] (internal/db/tx.go): begin, run, commit or roll back. The caller
    sees the same error of a COMMIT that was not carried out and of one whose
    answer was lost. *)
Definition inTx {A} (fn : M A) : M A := λ w,
  if fault (w_stmt w) then
    (Err (Errorf "begin transaction: %w" [] (DbError IOFault)), bump_stmt w)
  else
    let w0 := set_txnow (db_clock (w_stmt w)) (set_tx (w_db w) (bump_stmt w)) in
    match fn w0 with
    | (Err e, w1) =>
        (Err (if fault (w_stmt w1)
              then Errorf "rollback failed: %v (original error: %w)" ["connection failure"] e
              else e), bump_stmt w1)
    | (Ok a, w1) =>
        if fault (w_stmt w1) then
          (Err (Errorf "commit transaction: %w" [] (DbError IOFault)),
           if lost (w_stmt w1) then set_db (w_tx w1) (bump_stmt w1) else bump_stmt w1)
        else (Ok a, set_db (w_tx w1) (bump_stmt w1))
    end.

(** [s.eventBus.Publish]. *)
Definition publish (t : EventType) (p : Payload) : M unit :=
  modify (λ w, set_bus (w_bus w ++ [mkEvent t p]) w).
End primitives.
