(* ===== verification/EffectsLogic.v ===== *)
(** * Reasoning about effects

    Structural properties of methods, each a class with rules that follow the
    shape of the code: [Quiet] (nothing observable changes), [Acid] (an error
    leaves everything observable as it was, unless the answer of a COMMIT was
    lost, and then the database is that of the run in which nothing fails),
    [Total] (no error), [DbRel R] and
    [TxRel R] (the committed state, the working copy, moves along the preorder
    [R]). Then the inversion lemmas that run a method step by step. *)

From S2P Require Import Prelude GoError Models Schema Events IdentityCache Effects.
From stdpp Require Import base gmap list strings.

(** [quiet] holds the [Quiet] lemmas of helper methods, [stmt] what is known of
    write statements, [txrel] the [TxRel] lemmas of helper methods; the search
    goes by the name of the method. *)
Create HintDb quiet discriminated.
#[export] Hint Constants Opaque : quiet.
Create HintDb stmt discriminated.
#[export] Hint Constants Opaque : stmt.
Create HintDb txrel discriminated.
#[export] Hint Constants Opaque : txrel.

(** What is visible outside a run: the committed database, the events
    published, the cache and the registry. *)
Definition obs (w : World) : DB * list Event * identityCache * gset PrivilegeKey :=
  (w_db w, w_bus w, w_cache w, w_registry w).

Class Quiet {A} (m : M A) : Prop := quiet w : obs (m w).2 = obs w.
Class Total {A} (m : M A) : Prop := total w : is_Ok (m w).1.

(** A write statement moves the database along [R]. *)
Class StmtRel (R : relation DB) (s : stmt) : Prop :=
  stmt_rel d d' : s d = inr d' → R d d'.
Class DbRel {A} (R : relation DB) (m : M A) : Prop :=
  db_rel w : R (w_db w) (w_db (m w).2).
Class TxRel {A} (R : relation DB) (m : M A) : Prop :=
  tx_rel w : R (w_tx w) (w_tx (m w).2).

(** A predicate preserved, as a preorder. *)
Definition pres (P : DB → Prop) : relation DB := λ d d', P d → P d'.
#[export] Instance pres_preorder P : PreOrder (pres P).
Proof. split; unfold pres; intros ?; tauto. Qed.

(** A part of the database left alone, as a preorder. *)
Definition same {B} (f : DB → B) : relation DB := λ d d', f d' = f d.
#[export] Instance same_preorder {B} (f : DB → B) : PreOrder (same f).
Proof. split; unfold same; [intros ?; done|]. intros ??? H1 H2. by rewrite H2, H1. Qed.

Section structural.
Context `{E : Env} {A B : Type}.
Implicit Types (m : M A) (k : A → M B).

Lemma Quiet_ret (a : A) : Quiet (mret a : M A).
Proof. done. Qed.
Lemma Quiet_throw e : Quiet (throw e : M A).
Proof. done. Qed.
Lemma Quiet_fail_if P `{Decision P} e : Quiet (fail_if P e).
Proof. intros w. unfold fail_if. by case_decide. Qed.
Lemma Quiet_deref (o : option A) e : Quiet (deref o e).
Proof. by destruct o. Qed.
Lemma Quiet_gets (f : World → A) : Quiet (gets f).
Proof. done. Qed.
Lemma Quiet_newID : Quiet newID.
Proof. done. Qed.
Lemma Quiet_nowUTC : Quiet nowUTC.
Proof. done. Qed.
Lemma Quiet_round_trip : Quiet round_trip.
Proof. done. Qed.
Lemma Quiet_query (f : DB → A) : Quiet (query f).
Proof. intros w. unfold query, mbind, M_bind, round_trip. by destruct (fault _). Qed.
Lemma Quiet_queryTx (f : DB → A) : Quiet (queryTx f).
Proof. intros w. unfold queryTx, mbind, M_bind, round_trip. by destruct (fault _). Qed.
Lemma Quiet_exec s : Quiet (exec s).
Proof.
  intros w. unfold exec, mbind, M_bind, round_trip, apply_stmt.
  destruct (fault _); simpl; [done|]. by destruct (s _).
Qed.
Lemma Quiet_exec_now s : Quiet (exec_now s).
Proof.
  intros w. unfold exec_now, mbind, M_bind, round_trip, apply_stmt.
  destruct (fault _); simpl; [done|]. by destruct (s _ _).
Qed.
Lemma Quiet_wrapf f args m : Quiet m → Quiet (wrapf f args m).
Proof. intros Hm w. specialize (Hm w). unfold wrapf. destruct (m w) as [[] ?]; exact Hm. Qed.
Lemma Quiet_map_err f m : Quiet m → Quiet (map_err f m).
Proof. intros Hm w. specialize (Hm w). unfold map_err. destruct (m w) as [[] ?]; exact Hm. Qed.
Lemma Quiet_bind m k : Quiet m → (∀ a, Quiet (k a)) → Quiet (m ≫= k).
Proof.
  intros Hm Hk w. specialize (Hm w). unfold mbind, M_bind.
  destruct (m w) as [[a|e] w1]; simpl in *; [|done]. etrans; [apply Hk|exact Hm].
Qed.

Lemma Total_ret (a : A) : Total (mret a : M A).
Proof. intros w. by eexists. Qed.
Lemma Total_publish t p : Total (publish t p).
Proof. intros w. by eexists. Qed.
Lemma Total_modify f : Total (modify f).
Proof. intros w. by eexists. Qed.
Lemma Total_bind m k : Total m → (∀ a, Total (k a)) → Total (m ≫= k).
Proof.
  intros Hm Hk w. unfold mbind, M_bind. destruct (Hm w) as [a Ha].
  destruct (m w) as [r w1]; simpl in *; subst. apply Hk.
Qed.
End structural.

Section relations.
Context `{E : Env} (R : relation DB) `{!PreOrder R} {A B : Type}.
Implicit Types (m : M A) (k : A → M B).

Lemma Quiet_DbRel m : Quiet m → DbRel R m.
Proof. intros Hm w. specialize (Hm w). injection Hm as -> _ _ _. reflexivity. Qed.
Lemma DbRel_bind m k : DbRel R m → (∀ a, DbRel R (k a)) → DbRel R (m ≫= k).
Proof.
  intros Hm Hk w. specialize (Hm w). unfold mbind, M_bind.
  destruct (m w) as [[a|e] w1]; simpl in *; [|done]. etrans; [exact Hm|apply Hk].
Qed.
Lemma DbRel_wrapf f args m : DbRel R m → DbRel R (wrapf f args m).
Proof. intros Hm w. specialize (Hm w). unfold wrapf. destruct (m w) as [[] ?]; exact Hm. Qed.
Lemma DbRel_map_err f m : DbRel R m → DbRel R (map_err f m).
Proof. intros Hm w. specialize (Hm w). unfold map_err. destruct (m w) as [[] ?]; exact Hm. Qed.
Lemma DbRel_catch m : DbRel R m → DbRel R (catch m).
Proof. intros Hm w. specialize (Hm w). unfold catch. destruct (m w); exact Hm. Qed.
Lemma DbRel_publish t p : DbRel R (publish t p).
Proof. intros w. simpl. reflexivity. Qed.
Lemma DbRel_modify f : (∀ w, w_db (f w) = w_db w) → DbRel R (modify f).
Proof. intros Hf w. simpl. rewrite Hf. reflexivity. Qed.
Lemma DbRel_inTx m : Quiet m → TxRel R m → DbRel R (inTx m).
Proof.
  intros Hq Hm w. unfold inTx. destruct (fault _); [simpl; reflexivity|].
  match goal with |- context [m ?x] =>
    specialize (Hq x); specialize (Hm x); destruct (m x) as [[a|e1] w1] end;
    simpl in *; injection Hq as Hq _ _ _; [destruct (fault _); [destruct (lost _)|]|]; simpl;
    [done|by rewrite Hq|done|by rewrite Hq].
Qed.

Lemma TxRel_ret (a : A) : TxRel R (mret a : M A).
Proof. intros w. simpl. reflexivity. Qed.
Lemma TxRel_throw e : TxRel R (throw e : M A).
Proof. intros w. simpl. reflexivity. Qed.
Lemma TxRel_fail_if P `{Decision P} e : TxRel R (fail_if P e).
Proof. intros w. unfold fail_if. case_decide; simpl; reflexivity. Qed.
Lemma TxRel_deref (o : option A) e : TxRel R (deref o e).
Proof. intros w. destruct o; simpl; reflexivity. Qed.
Lemma TxRel_newID : TxRel R newID.
Proof. intros w. simpl. reflexivity. Qed.
Lemma TxRel_nowUTC : TxRel R nowUTC.
Proof. intros w. simpl. reflexivity. Qed.
Lemma TxRel_gets (f : World → A) : TxRel R (gets f).
Proof. intros w. simpl. reflexivity. Qed.
Lemma TxRel_query (f : DB → A) : TxRel R (query f).
Proof.
  intros w. unfold query, mbind, M_bind, round_trip. destruct (fault _); simpl; reflexivity.
Qed.
Lemma TxRel_queryTx (f : DB → A) : TxRel R (queryTx f).
Proof.
  intros w. unfold queryTx, mbind, M_bind, round_trip. destruct (fault _); simpl; reflexivity.
Qed.
Lemma TxRel_exec s : StmtRel R s → TxRel R (exec s).
Proof.
  intros Hs w. unfold exec, mbind, M_bind, round_trip, apply_stmt.
  destruct (fault _); simpl; [reflexivity|].
  destruct (s _) as [e|d] eqn:Es; simpl; [reflexivity|by apply Hs].
Qed.
Lemma TxRel_exec_now s : (∀ t, StmtRel R (s t)) → TxRel R (exec_now s).
Proof.
  intros Hs w. unfold exec_now, mbind, M_bind, round_trip, apply_stmt.
  destruct (fault _); simpl; [reflexivity|].
  destruct (s _ _) as [e|d] eqn:Es; simpl; [reflexivity|by eapply Hs].
Qed.
Lemma TxRel_wrapf f args m : TxRel R m → TxRel R (wrapf f args m).
Proof. intros Hm w. specialize (Hm w). unfold wrapf. destruct (m w) as [[] ?]; exact Hm. Qed.
Lemma TxRel_bind m k : TxRel R m → (∀ a, TxRel R (k a)) → TxRel R (m ≫= k).
Proof.
  intros Hm Hk w. specialize (Hm w). unfold mbind, M_bind.
  destruct (m w) as [[a|e] w1]; simpl in *; [|done]. etrans; [exact Hm|apply Hk].
Qed.
End relations.

(** ** Structural tactics

    They walk over the code of a method; what is left are the leaves (the write
    statements for a relation). *)

Ltac quiet_step :=
  lazymatch goal with
  | |- ∀ _, _ => intros ?
  | |- Quiet (mret _) => apply Quiet_ret
  | |- Quiet (throw _) => apply Quiet_throw
  | |- Quiet (fail_if _ _) => apply Quiet_fail_if
  | |- Quiet (deref _ _) => apply Quiet_deref
  | |- Quiet (gets _) => apply Quiet_gets
  | |- Quiet newID => apply Quiet_newID
  | |- Quiet nowUTC => apply Quiet_nowUTC
  | |- Quiet (query _) => apply Quiet_query
  | |- Quiet (queryTx _) => apply Quiet_queryTx
  | |- Quiet (exec _) => apply Quiet_exec
  | |- Quiet (exec_now _) => apply Quiet_exec_now
  | |- Quiet (wrapf _ _ _) => apply Quiet_wrapf
  | |- Quiet (map_err _ _) => apply Quiet_map_err
  | |- Quiet (when _ _) => unfold when
  | |- Quiet (_ ≫= _) => apply Quiet_bind
  | |- Quiet (if ?b then _ else _) => destruct b
  | |- Quiet (match ?x with _ => _ end) => destruct x
  | |- Quiet (let _ := _ in _) => cbv zeta
  | |- Quiet _ => first [assumption | solve [auto 1 with quiet nocore]]
  end.
Ltac solve_quiet := repeat quiet_step.

Ltac total_step :=
  lazymatch goal with
  | |- ∀ _, _ => intros ?
  | |- Total (mret _) => apply Total_ret
  | |- Total (publish _ _) => apply Total_publish
  | |- Total (_ ≫= _) => apply Total_bind
  | |- Total (if ?b then _ else _) => destruct b
  | |- Total (match ?x with _ => _ end) => destruct x
  end.

Ltac tx_step :=
  lazymatch goal with
  | |- ∀ _, _ => intros ?
  | |- StmtRel _ _ => solve [auto 1 with stmt nocore]
  | |- TxRel _ (mret _) => apply TxRel_ret; apply _
  | |- TxRel _ (throw _) => apply TxRel_throw; apply _
  | |- TxRel _ (fail_if _ _) => apply TxRel_fail_if; apply _
  | |- TxRel _ (deref _ _) => apply TxRel_deref; apply _
  | |- TxRel _ (gets _) => apply TxRel_gets; apply _
  | |- TxRel _ newID => apply TxRel_newID; apply _
  | |- TxRel _ nowUTC => apply TxRel_nowUTC; apply _
  | |- TxRel _ (query _) => apply TxRel_query; apply _
  | |- TxRel _ (queryTx _) => apply TxRel_queryTx; apply _
  | |- TxRel _ (exec _) => apply TxRel_exec; [apply _|]
  | |- TxRel _ (exec_now _) => apply TxRel_exec_now; [apply _|]
  | |- TxRel _ (wrapf _ _ _) => apply TxRel_wrapf
  | |- TxRel _ (when _ _) => unfold when
  | |- TxRel _ (_ ≫= _) => apply TxRel_bind; [apply _| |]
  | |- TxRel _ (if ?b then _ else _) => destruct b
  | |- TxRel _ (match ?x with _ => _ end) => destruct x
  | |- TxRel _ _ => first [assumption | solve [auto 1 with txrel nocore]]
  end.

Ltac db_step :=
  lazymatch goal with
  | |- ∀ _, _ => intros ?
  | |- DbRel _ (inTx _) => apply DbRel_inTx; [apply _|solve [solve_quiet]|]
  | |- DbRel _ (publish _ _) => apply DbRel_publish; apply _
  | |- DbRel _ (modify _) => apply DbRel_modify; [apply _|intros ?; reflexivity]
  | |- DbRel _ (wrapf _ _ _) => apply DbRel_wrapf
  | |- DbRel _ (map_err _ _) => apply DbRel_map_err
  | |- DbRel _ (when _ _) => unfold when
  | |- DbRel _ (_ ≫= _) => apply DbRel_bind; [apply _| |]
  | |- DbRel _ (if ?b then _ else _) => destruct b
  | |- DbRel _ (match ?x with _ => _ end) => destruct x
  | |- DbRel _ _ => first [assumption | apply Quiet_DbRel; [apply _|solve [solve_quiet]]]
  end.
Ltac solve_db := repeat (db_step || tx_step).

(** ** Running a method *)

Section run.
Context `{E : Env} {A B : Type}.
Implicit Types (m : M A) (k : A → M B) (w : World).

(** The state in which the body of a transaction starts. *)
Definition tx_begin (w : World) : World :=
  set_txnow (db_clock (w_stmt w)) (set_tx (w_db w) (bump_stmt w)).

Lemma bind_Ok m k w b w' :
  (m ≫= k) w = (Ok b, w') → ∃ a w1, m w = (Ok a, w1) ∧ k a w1 = (Ok b, w').
Proof. unfold mbind, M_bind. destruct (m w) as [[a|e] w1]; [eauto|done]. Qed.
Lemma bind_Err m k w e w' :
  (m ≫= k) w = (Err e, w') →
  m w = (Err e, w') ∨ ∃ a w1, m w = (Ok a, w1) ∧ k a w1 = (Err e, w').
Proof. unfold mbind, M_bind. destruct (m w) as [[a|e1] w1]; [eauto|]. intros [= -> ->]; auto. Qed.
Lemma bind_run m k w a w1 : m w = (Ok a, w1) → (m ≫= k) w = k a w1.
Proof. unfold mbind, M_bind. by intros ->. Qed.
Lemma bind_run_Err m k w e w1 : m w = (Err e, w1) → (m ≫= k) w = (Err e, w1).
Proof. unfold mbind, M_bind. by intros ->. Qed.

Lemma ret_Ok (a b : A) w w' : (mret a : M A) w = (Ok b, w') → a = b ∧ w' = w.
Proof. by intros [= -> ->]. Qed.
Lemma throw_Ok e (a : A) w w' : (throw e : M A) w = (Ok a, w') → False.
Proof. done. Qed.
Lemma fail_if_Ok P `{Decision P} e w x w' :
  fail_if P e w = (Ok x, w') → ¬ P ∧ w' = w.
Proof. unfold fail_if. case_decide; [done|]. by intros [= _ ->]. Qed.
Lemma fail_if_run P `{Decision P} e w : ¬ P → fail_if P e w = (Ok tt, w).
Proof. intros. unfold fail_if. by rewrite decide_False. Qed.
Lemma fail_if_fail P `{Decision P} e w : P → fail_if P e w = (Err e, w).
Proof. intros. unfold fail_if. by rewrite decide_True. Qed.
Lemma deref_Ok (o : option A) e w a w' : deref o e w = (Ok a, w') → o = Some a ∧ w' = w.
Proof. destruct o; [|done]. by intros [= -> ->]. Qed.
Lemma wrap_Ok f args m w a w' : wrapf f args m w = (Ok a, w') → m w = (Ok a, w').
Proof. unfold wrapf. destruct (m w) as [[] ?]; [|done]. by intros [= -> ->]. Qed.
Lemma wrap_run f args m w a w' : m w = (Ok a, w') → wrapf f args m w = (Ok a, w').
Proof. unfold wrapf. by intros ->. Qed.
Lemma map_err_Ok f m w a w' : map_err f m w = (Ok a, w') → m w = (Ok a, w').
Proof. unfold map_err. destruct (m w) as [[] ?]; [|done]. by intros [= -> ->]. Qed.
Lemma newID_Ok w i w' : newID w = (Ok i, w') → i = uuid (w_ids w) ∧ w' = bump_ids w.
Proof. by intros [= -> ->]. Qed.
Lemma nowUTC_Ok w t w' : nowUTC w = (Ok t, w') → t = clock (w_clock w) ∧ w' = bump_clock w.
Proof. by intros [= -> ->]. Qed.
Lemma gets_Ok (f : World → A) w a w' : gets f w = (Ok a, w') → a = f w ∧ w' = w.
Proof. by intros [= -> ->]. Qed.
Lemma modify_Ok f w x w' : modify f w = (Ok x, w') → w' = f w.
Proof. by intros [= _ ->]. Qed.
Lemma publish_Ok t p w x w' :
  publish t p w = (Ok x, w') → w' = set_bus (w_bus w ++ [mkEvent t p]) w.
Proof. by intros [= _ ->]. Qed.
Lemma query_Ok (f : DB → A) w a w' :
  query f w = (Ok a, w') → a = f (w_db w) ∧ w' = bump_stmt w.
Proof.
  unfold query, mbind, M_bind, round_trip. destruct (fault _); [done|]. by intros [= -> ->].
Qed.
Lemma queryTx_Ok (f : DB → A) w a w' :
  queryTx f w = (Ok a, w') → a = f (w_tx w) ∧ w' = bump_stmt w.
Proof.
  unfold queryTx, mbind, M_bind, round_trip. destruct (fault _); [done|]. by intros [= -> ->].
Qed.
Lemma exec_Ok s w x w' :
  exec s w = (Ok x, w') → ∃ d, s (w_tx w) = inr d ∧ w' = set_tx d (bump_stmt w).
Proof.
  unfold exec, mbind, M_bind, round_trip, apply_stmt. destruct (fault _); [done|]. simpl.
  destruct (s _); [done|]. intros [= _ <-]. eauto.
Qed.
Lemma exec_now_Ok s w x w' :
  exec_now s w = (Ok x, w') →
  ∃ d, s (w_txnow w) (w_tx w) = inr d ∧ w' = set_tx d (bump_stmt w).
Proof.
  unfold exec_now, mbind, M_bind, round_trip, apply_stmt. destruct (fault _); [done|]. simpl.
  destruct (s _ _); [done|]. intros [= _ <-]. eauto.
Qed.
Lemma inTx_Ok m w a w' :
  inTx m w = (Ok a, w') →
  ∃ w1, m (tx_begin w) = (Ok a, w1) ∧ w' = set_db (w_tx w1) (bump_stmt w1).
Proof.
  unfold inTx. fold (tx_begin w). destruct (fault _); [done|].
  destruct (m (tx_begin w)) as [[a'|e] w1]; [|done].
  destruct (fault _); [done|]. intros [= <- <-]. eauto.
Qed.
End run.

(** ** Runs that fail *)

Section failing.
Context `{E : Env} {A : Type}.
Implicit Types (m : M A) (w : World).

Lemma query_Err (f : DB → A) w e w' : query f w = (Err e, w') → e = DbError IOFault.
Proof. unfold query, mbind, M_bind, round_trip. destruct (fault _); [|done]. by intros [= <- _]. Qed.
Lemma wrap_Err f args m w e w' :
  wrapf f args m w = (Err e, w') → ∃ e', m w = (Err e', w') ∧ e = Errorf f args e'.
Proof. unfold wrapf. destruct (m w) as [[] ?]; [done|]. intros [= <- <-]. eauto. Qed.
Lemma map_err_Err f m w e w' : map_err f m w = (Err e, w') → ∃ e', m w = (Err e', w') ∧ e = f e'.
Proof. unfold map_err. destruct (m w) as [[] ?]; [done|]. intros [= <- <-]. eauto. Qed.
Lemma fail_if_Err P `{Decision P} e0 w e w' : fail_if P e0 w = (Err e, w') → P ∧ e = e0.
Proof. unfold fail_if. case_decide; [|done]. by intros [= <- _]. Qed.
Lemma exec_Err s w e w' :
  exec s w = (Err e, w') → ∃ d, (s (w_tx w) = inl d ∨ d = IOFault) ∧ e = DbError d.
Proof.
  unfold exec. intros [HE|(? & w1 & HR & HE)]%bind_Err; revert HE.
  - unfold round_trip. destruct (fault _); [|done]. intros [= <- _]. eauto.
  - revert HR. unfold round_trip. destruct (fault _); [done|]. intros [= _ <-]. unfold apply_stmt. simpl.
    destruct (s (w_tx w)); [|done]. intros [= <- _]. eauto.
Qed.
(** A transaction of one statement fails for want of a connection, or because the
    statement is refused. *)
Lemma inTx_exec_Err s w e w' :
  inTx (exec s) w = (Err e, w') →
  ∃ d, (s (w_db w) = inl d ∨ d = IOFault) ∧
    (e = DbError d ∨ e = Errorf "begin transaction: %w" [] (DbError d) ∨
     e = Errorf "commit transaction: %w" [] (DbError d) ∨
     e = Errorf "rollback failed: %v (original error: %w)" ["connection failure"] (DbError d)).
Proof.
  unfold inTx. destruct (fault (w_stmt w)); [intros [= <- _]; eauto 8|]. cbv zeta.
  destruct (exec s _) as [[x|e0] w1] eqn:HE.
  - destruct (fault _); [|done]. destruct (lost _); intros [= <- _]; eauto 8.
  - apply exec_Err in HE as (d & Hd & ->). simpl in Hd. destruct (fault _); intros [= <- _]; eauto 8.
Qed.
End failing.

(** Without infrastructure faults the primitives are functions of the state. *)
Class NoFaults `{Env} : Prop := no_faults n : fault n = false.

Section run_no_faults.
Context `{E : Env} `{!NoFaults} {A B : Type}.
Implicit Types (w : World).

Lemma query_run (f : DB → A) w : query f w = (Ok (f (w_db w)), bump_stmt w).
Proof. unfold query, mbind, M_bind, round_trip. by rewrite no_faults. Qed.
Lemma queryTx_run (f : DB → A) w : queryTx f w = (Ok (f (w_tx w)), bump_stmt w).
Proof. unfold queryTx, mbind, M_bind, round_trip. by rewrite no_faults. Qed.
Lemma exec_run s w d :
  s (w_tx w) = inr d → exec s w = (Ok tt, set_tx d (bump_stmt w)).
Proof.
  intros Hs. unfold exec, mbind, M_bind, round_trip, apply_stmt. rewrite no_faults. simpl.
  by rewrite Hs.
Qed.
Lemma exec_fail s w e :
  s (w_tx w) = inl e → exec s w = (Err (DbError e), bump_stmt w).
Proof.
  intros Hs. unfold exec, mbind, M_bind, round_trip, apply_stmt. rewrite no_faults. simpl.
  by rewrite Hs.
Qed.
Lemma exec_now_run s w d :
  s (w_txnow w) (w_tx w) = inr d → exec_now s w = (Ok tt, set_tx d (bump_stmt w)).
Proof.
  intros Hs. unfold exec_now, mbind, M_bind, round_trip, apply_stmt. rewrite no_faults. simpl.
  by rewrite Hs.
Qed.
Lemma inTx_run (m : M A) w :
  inTx m w =
    match m (tx_begin w) with
    | (Ok a, w1) => (Ok a, set_db (w_tx w1) (bump_stmt w1))
    | (Err e, w1) => (Err e, bump_stmt w1)
    end.
Proof.
  unfold inTx. rewrite no_faults. fold (tx_begin w).
  destruct (m (tx_begin w)) as [[a|e] w1]; by rewrite no_faults.
Qed.
End run_no_faults.

(** ** Runs that fail, against the run in which nothing fails

    The environment of a run without its faults; a method and the same method
    in that environment are compared step by step. *)

Definition fault_free (E : Env) : Env := {|
  uuid := @uuid E;
  clock := @clock E;
  db_clock := @db_clock E;
  fault _ := false;
  lost _ := false |}.

#[export] Instance NoFaults_fault_free E : @NoFaults (fault_free E).
Proof. done. Qed.

(** A run of [m] that succeeds is a run of [m']. *)
Class Replay {A} (m m' : M A) : Prop := replay w a w' : m w = (Ok a, w') → m' w = (Ok a, w').

(** The last round trip of the run from [w] to [w'] was carried out and its
    answer lost; nothing but the database changed. *)
Definition answer_lost `{Env} (w w' : World) : Prop :=
  w_bus w' = w_bus w ∧ w_cache w' = w_cache w ∧ w_registry w' = w_registry w ∧
  ∃ n, w_stmt w' = S n ∧ fault n = true ∧ lost n = true.

(** Every COMMIT that fails was not carried out. *)
Class NoLost `{Env} : Prop := no_lost n : fault n = true → lost n = false.
#[export] Instance NoFaults_NoLost `{Env} : NoFaults → NoLost.
Proof. intros Hf n. by rewrite Hf. Qed.

Lemma no_answer_lost `{Env} `{!NoLost} w w' : ¬ answer_lost w w'.
Proof. intros (_ & _ & _ & n & _ & Hf & Hl). by rewrite (no_lost n Hf) in Hl. Qed.

(** An error of [m] leaves no trace, unless it is that of a COMMIT that was
    carried out: then the database is the one [m'] leaves. *)
Class Acid `{Env} {A} (m m' : M A) : Prop := acid w e w' :
  m w = (Err e, w') →
  obs w' = obs w ∨ answer_lost w w' ∧ ∃ a w'', m' w = (Ok a, w'') ∧ w_db w'' = w_db w'.

(** Cannot fail, and leaves the database alone. *)
Class Epilogue {A} (m : M A) : Prop := epilogue w : is_Ok (m w).1 ∧ w_db (m w).2 = w_db w.

Section replay.
Context `{E : Env} {A B : Type}.
Abbreviation E' := (fault_free E).
Implicit Types (m : M A) (k : A → M B).

Lemma Replay_refl m : Replay m m.
Proof. by intros w a w'. Qed.
Lemma Replay_newID : Replay (@newID E) (@newID E').
Proof. by intros w a w'. Qed.
Lemma Replay_nowUTC : Replay (@nowUTC E) (@nowUTC E').
Proof. by intros w a w'. Qed.
Lemma Replay_query (f : DB → A) : Replay (@query E _ f) (@query E' _ f).
Proof.
  intros w a w'. unfold query, mbind, M_bind, round_trip. simpl. by destruct (fault _).
Qed.
Lemma Replay_queryTx (f : DB → A) : Replay (@queryTx E _ f) (@queryTx E' _ f).
Proof.
  intros w a w'. unfold queryTx, mbind, M_bind, round_trip. simpl. by destruct (fault _).
Qed.
Lemma Replay_exec s : Replay (@exec E s) (@exec E' s).
Proof.
  intros w a w'. unfold exec, mbind, M_bind, round_trip. simpl. by destruct (fault _).
Qed.
Lemma Replay_exec_now s : Replay (@exec_now E s) (@exec_now E' s).
Proof.
  intros w a w'. unfold exec_now, mbind, M_bind, round_trip. simpl. by destruct (fault _).
Qed.
Lemma Replay_wrapf f args m m' : Replay m m' → Replay (wrapf f args m) (wrapf f args m').
Proof. intros Hm w a w' H%wrap_Ok%Hm. by apply wrap_run. Qed.
Lemma Replay_map_err f m m' : Replay m m' → Replay (map_err f m) (map_err f m').
Proof. intros Hm w a w' H%map_err_Ok%Hm. unfold map_err. by rewrite H. Qed.
Lemma Replay_bind m m' k k' :
  Replay m m' → (∀ a, Replay (k a) (k' a)) → Replay (m ≫= k) (m' ≫= k').
Proof.
  intros Hm Hk w b w' (a & w1 & H1%Hm & H2%Hk)%bind_Ok. by rewrite (bind_run _ _ _ _ _ H1).
Qed.
Lemma Replay_inTx m m' : Replay m m' → Replay (@inTx E _ m) (@inTx E' _ m').
Proof.
  intros Hm w a w' (w1 & H1%Hm & ->)%inTx_Ok. rewrite (@inTx_run E' _).
  change (@tx_begin E' w) with (tx_begin w). by rewrite H1.
Qed.

Lemma Acid_quiet m m' : Quiet m → Acid m m'.
Proof. intros Hm w e w' H. specialize (Hm w). rewrite H in Hm. by left. Qed.
Lemma Acid_total m m' : Total m → Acid m m'.
Proof. intros Hm w e w' H. destruct (Hm w) as [a Ha]. by rewrite H in Ha. Qed.
Lemma Acid_wrapf f args m m' : Acid m m' → Acid (wrapf f args m) (wrapf f args m').
Proof.
  intros Hm w e w' (e' & H & ->)%wrap_Err. destruct (Hm _ _ _ H) as [?|(Hl & a & w'' & Ha & Hd)];
    [by left|right]. split; [done|]. exists a, w''. by split; [apply wrap_run|].
Qed.
Lemma Acid_map_err f m m' : Acid m m' → Acid (map_err f m) (map_err f m').
Proof.
  intros Hm w e w' (e' & H & ->)%map_err_Err. destruct (Hm _ _ _ H) as [?|(Hl & a & w'' & Ha & Hd)];
    [by left|right]. split; [done|]. exists a, w''. split; [|done]. unfold map_err. by rewrite Ha.
Qed.
Lemma Acid_bind m m' k k' :
  Quiet m → Replay m m' → (∀ a, Acid (k a) (k' a)) → Acid (m ≫= k) (m' ≫= k').
Proof.
  intros Hq Hm Hk w e w' [H|(a & w1 & H1 & H2)]%bind_Err; specialize (Hq w).
  - rewrite H in Hq. by left.
  - rewrite H1 in Hq. simpl in Hq. apply Hm in H1.
    destruct (Hk _ _ _ _ H2) as [Ho|(Hl & b & w'' & Hb & Hd)]; [left; congruence|right].
    injection Hq as _ Hb1 Hc1 Hr1. destruct Hl as (? & ? & ? & Hl).
    split; [split_and!; [congruence..|done]|]. exists b, w''.
    by rewrite (bind_run _ _ _ _ _ H1).
Qed.
Lemma Acid_bind_Epilogue m m' k k' :
  Acid m m' → (∀ a, Total (k a)) → (∀ a, Epilogue (k' a)) → Acid (m ≫= k) (m' ≫= k').
Proof.
  intros Hm Hk Hk' w e w' [H|(a & w1 & H1 & H2)]%bind_Err.
  - destruct (Hm _ _ _ H) as [?|(Hl & a & w'' & Ha & Hd)]; [by left|right]. split; [done|].
    destruct (Hk' a w'') as [[b Hb] Hd']. rewrite (bind_run _ _ _ _ _ Ha).
    destruct (k' a w'') as [r w2]; simpl in *. subst. exists b, w2. by rewrite Hd'.
  - destruct (Hk a w1) as [b Hb]. by rewrite H2 in Hb.
Qed.
Lemma Acid_inTx m m' : Quiet m → Replay m m' → Acid (@inTx E _ m) (@inTx E' _ m').
Proof.
  intros Hq Hm w e w'. rewrite (@inTx_run E' _). change (@tx_begin E' w) with (tx_begin w).
  unfold inTx. fold (tx_begin w).
  destruct (fault _); [by intros [= _ <-]; left|].
  specialize (Hq (tx_begin w)). destruct (m (tx_begin w)) as [[a|e1] w1] eqn:H1; simpl in Hq.
  - destruct (fault _) eqn:Hf; [|done]. destruct (lost _) eqn:Hl; intros [= _ <-]; [right|by left].
    rewrite (Hm _ _ _ H1). split; [|by eexists _, _]. injection Hq as _ ? ? ?. unfold answer_lost. simpl.
    split_and!; [done..|]. by exists (w_stmt w1).
  - intros [= _ <-]. by left.
Qed.

Lemma Epilogue_ret (a : A) : Epilogue (mret a : M A).
Proof. intros w. by split; [eexists|]. Qed.
Lemma Epilogue_publish t p : Epilogue (publish t p).
Proof. intros w. by split; [eexists|]. Qed.
Lemma Epilogue_bind m k : Epilogue m → (∀ a, Epilogue (k a)) → Epilogue (m ≫= k).
Proof.
  intros Hm Hk w. unfold mbind, M_bind. destruct (Hm w) as [[a Ha] Hd].
  destruct (m w) as [r w1]; simpl in *; subst. rewrite <- Hd. apply Hk.
Qed.
End replay.

(** [replay] holds the [Replay] lemmas of the loops; every other helper method
    is unfolded, in both environments at once. *)
Create HintDb replay discriminated.
#[export] Hint Constants Opaque : replay.

Ltac head_of t := lazymatch t with ?f _ => head_of f | _ => t end.
Ltac unfold_both m := let h := head_of m in unfold h.

Ltac replay_step :=
  lazymatch goal with
  | |- ∀ _, _ => intros ?
  | |- Replay (query _) _ => apply Replay_query
  | |- Replay (queryTx _) _ => apply Replay_queryTx
  | |- Replay (exec _) _ => apply Replay_exec
  | |- Replay (exec_now _) _ => apply Replay_exec_now
  | |- Replay (wrapf _ _ _) _ => apply Replay_wrapf
  | |- Replay (map_err _ _) _ => apply Replay_map_err
  | |- Replay (_ ≫= _) _ => apply Replay_bind
  | |- Replay (inTx _) _ => apply Replay_inTx
  | |- Replay (mret _) _ => apply Replay_refl
  | |- Replay (throw _) _ => apply Replay_refl
  | |- Replay (fail_if _ _) _ => apply Replay_refl
  | |- Replay (deref _ _) _ => apply Replay_refl
  | |- Replay (gets _) _ => apply Replay_refl
  | |- Replay (publish _ _) _ => apply Replay_refl
  | |- Replay (modify _) _ => apply Replay_refl
  | |- Replay newID _ => apply Replay_newID
  | |- Replay nowUTC _ => apply Replay_nowUTC
  | |- Replay (if ?b then _ else _) _ => destruct b
  | |- Replay (match ?x with _ => _ end) _ => destruct x
  | |- Replay (let _ := _ in _) _ => cbv zeta
  | |- Replay ?m _ => first [assumption | solve [auto 1 with replay nocore] | unfold_both m]
  end.
Ltac solve_replay := repeat replay_step.

Ltac epilogue_step :=
  lazymatch goal with
  | |- ∀ _, _ => intros ?
  | |- Epilogue (mret _) => apply Epilogue_ret
  | |- Epilogue (publish _ _) => apply Epilogue_publish
  | |- Epilogue (_ ≫= _) => apply Epilogue_bind
  | |- Epilogue (if ?b then _ else _) => destruct b
  | |- Epilogue (match ?x with _ => _ end) => destruct x
  end.

Ltac acid_step :=
  lazymatch goal with
  | |- ∀ _, _ => intros ?
  | |- Acid (inTx _) _ => apply Acid_inTx; [solve [solve_quiet]|solve [solve_replay]]
  | |- Acid (wrapf _ _ _) _ => apply Acid_wrapf
  | |- Acid (map_err _ _) _ => apply Acid_map_err
  | |- Acid (when _ _) _ => unfold when
  | |- Acid (_ ≫= _) _ =>
      first [ apply Acid_bind; [solve [solve_quiet]|solve [solve_replay]|]
            | apply Acid_bind_Epilogue; [|solve [repeat total_step]|solve [repeat epilogue_step]] ]
  | |- Acid (if ?b then _ else _) _ => destruct b
  | |- Acid (match ?x with _ => _ end) _ => destruct x
  | |- Acid (publish _ _) _ => apply Acid_total, Total_publish
  | |- Acid (modify _) _ => apply Acid_total, Total_modify
  | |- Acid _ _ => apply Acid_quiet; solve [solve_quiet]
  end.
Ltac solve_acid := repeat acid_step.

(** Runs methods that succeeded: [run_step] takes one step of the run in [H],
    [run] runs all of them to the end, so that every step is a hypothesis on the
    states. *)
Ltac use_result H :=
  lazymatch type of H with ?a = _ => first [ is_var a; subst a | symmetry in H ] end.
Ltac run_step H :=
  cbv beta zeta in H;
  lazymatch type of H with
  | (_ ≫= _) _ = (Ok _, _) =>
      let a := fresh "a" in let w := fresh "w" in let H1 := fresh "R" in
      apply bind_Ok in H as (a & w & H1 & H)
  | mret _ _ = (Ok _, _) => apply ret_Ok in H as [? ->]; try subst
  | throw _ _ = (Ok _, _) => by apply throw_Ok in H
  | fail_if _ _ _ = (Ok _, _) => apply fail_if_Ok in H as [H ->]
  | deref _ _ _ = (Ok _, _) => apply deref_Ok in H as [H ->]
  | wrapf _ _ _ _ = (Ok _, _) => apply wrap_Ok in H
  | map_err _ _ _ = (Ok _, _) => apply map_err_Ok in H
  | newID _ = (Ok _, _) => apply newID_Ok in H as [-> ->]
  | nowUTC _ = (Ok _, _) => apply nowUTC_Ok in H as [-> ->]
  | gets _ _ = (Ok _, _) => apply gets_Ok in H as [H ->]; use_result H
  | modify _ _ = (Ok _, _) => apply modify_Ok in H as ->
  | publish _ _ _ = (Ok _, _) => apply publish_Ok in H as ->
  | query _ _ = (Ok _, _) => apply query_Ok in H as [H ->]; use_result H
  | queryTx _ _ = (Ok _, _) => apply queryTx_Ok in H as [H ->]; use_result H
  | exec _ _ = (Ok _, _) => let d := fresh "d" in apply exec_Ok in H as (d & H & ->)
  | exec_now _ _ = (Ok _, _) => let d := fresh "d" in apply exec_now_Ok in H as (d & H & ->)
  | inTx _ _ = (Ok _, _) => let w := fresh "w" in apply inTx_Ok in H as (w & H & ->)
  | when _ _ _ = (Ok _, _) => unfold when in H
  | (if ?b then _ else _) _ = (Ok _, _) => destruct b
  | (match ?x with _ => _ end) _ = (Ok _, _) => destruct x eqn:?
  end.
Ltac run :=
  repeat match goal with H : _ _ = (Ok _, _) |- _ => run_step H end;
  simpl in *.
