(* ===== verification/StoreIdentity.v ===== *)
(** * Stores: organizations, users, user identities

    internal/store/{organization,user,user_identity}_store.go. A SELECT is a
    function of the database; an INSERT, UPDATE or DELETE is a [stmt]. Driver
    failures are the business of [query] and [exec]. ORDER BY on a text column
    uses byte order (the C collation). *)

From stdpp Require Import base gmap sets list strings.
From Stdlib Require Import ZArith Lia.
From S2P Require Import Prelude GoError Models Schema Effects EffectsLogic.

(** ** Pages *)

(** The clamping of [limit] and [offset] shared by the List methods. *)
Definition clamp_limit (limit : Z) : Z :=
  let l := if decide (limit <= 0)%Z then 50%Z else limit in
  if decide (l > 200)%Z then 200%Z else l.

Definition clamp_offset (offset : Z) : Z := if decide (offset < 0)%Z then 0%Z else offset.

(** [... LIMIT limit OFFSET offset] after clamping. *)
Definition page {A} (limit offset : Z) (rows : list A) : list A :=
  take (Z.to_nat (clamp_limit limit)) (drop (Z.to_nat (clamp_offset offset)) rows).

Lemma clamp_limit_bounds limit : (1 ≤ clamp_limit limit ≤ 200)%Z.
Proof. unfold clamp_limit. repeat case_decide; lia. Qed.

Lemma length_page {A} limit offset (rows : list A) : length (page limit offset rows) ≤ 200.
Proof. unfold page. rewrite length_take. pose proof (clamp_limit_bounds limit). lia. Qed.

(** All rows of a table. *)
Definition all_rows {K} `{Countable K} {R} (t : gmap K R) : list R := snd <$> map_to_list t.

(** ** organization_store.go *)

Definition pgOrganizationStore_FindByID (id : string) (d : DB) : option Organization :=
  t_organizations d !! id.

Definition pgOrganizationStore_FindByOriginatedID (originatedID : string) (d : DB) : option Organization :=
  select_one (λ o, Organization_OriginatedID o = originatedID) (t_organizations d).

Definition pgOrganizationStore_List (limit offset : Z) (d : DB) : list Organization * nat :=
  (page limit offset (order_by Organization_Name String.le (all_rows (t_organizations d))),
   size (t_organizations d)).

Definition organization_fits (o : Organization) : Prop :=
  fits [(255, Organization_ID o); (255, Organization_OriginatedID o); (255, Organization_Name o)].
#[export] Instance organization_fits_dec o : Decision (organization_fits o) := fits_dec _.

Definition pgOrganizationStore_Create (o : Organization) : stmt := λ d,
  ensure organization_fits o orelse StringTooLong;
  ensure t_organizations d !! Organization_ID o = None orelse UniqueViolation "organizations_pkey";
  inr (set_organizations (<[Organization_ID o := o]> (t_organizations d)) d).

Definition pgOrganizationStore_Update (o : Organization) : stmt := λ d,
  match t_organizations d !! Organization_ID o with
  | None => inr d
  | Some _ =>
      ensure organization_fits o orelse StringTooLong;
      inr (set_organizations (<[Organization_ID o := o]> (t_organizations d)) d)
  end.

Definition pgOrganizationStore_Delete (id : string) : stmt := λ d,
  ensure unreferenced fk_users_organization id (t_users d)
    orelse ForeignKeyViolation "fk_users_organization";
  inr (set_organizations (delete id (t_organizations d)) d).

(** ** user_store.go *)

Definition pgUserStore_FindByID (id : string) (d : DB) : option User := t_users d !! id.

Definition pgUserStore_List (limit offset : Z) (d : DB) : list User * nat :=
  (page limit offset (order_by (λ u, lower (User_Email u)) String.le (all_rows (t_users d))),
   size (t_users d)).

(** email is CITEXT: the comparison ignores case. *)
Definition pgUserStore_FindByEmail (email : string) (d : DB) : option User :=
  select_one (λ u, lower (User_Email u) = lower email) (t_users d).

(** users JOIN user_identities ON user_id WHERE oidc_sub = sub. *)
Definition pgUserStore_GetUserByOIDCSub (oidcSub : string) (d : DB) : option User :=
  if decide (oidcSub = "") then None
  else head (omap (λ ui, t_users d !! UserIdentity_UserID ui)
               (select_rows (λ ui, UserIdentity_OIDCSub ui = oidcSub) (t_user_identities d))).

Definition pgUserStore_FindByOrganization (organizationID : string) (d : DB) : list User :=
  select_rows (λ u, User_OrganizationID u = organizationID) (t_users d).

(** The VARCHAR columns and the CHECK on the length of email. *)
Definition user_fits (u : User) : Prop :=
  fits [(255, User_ID u); (255, User_OrganizationID u); (255, User_FirstName u);
        (255, User_LastName u); (255, User_MiddleName u); (255, User_Email u);
        (32, User_Status u); (32, User_Type u)].
#[export] Instance user_fits_dec u : Decision (user_fits u) := fits_dec _.

Definition pgUserStore_Create (u : User) : stmt := λ d,
  ensure user_fits u orelse StringTooLong;
  ensure t_users d !! User_ID u = None orelse UniqueViolation "users_pkey";
  ensure free uq_users_email (User_ID u) u (t_users d) orelse UniqueViolation "uq_users_email";
  ensure has_parent (fk_users_organization u) (t_organizations d)
    orelse ForeignKeyViolation "fk_users_organization";
  inr (set_users (<[User_ID u := u]> (t_users d)) d).

Definition pgUserStore_Update (u : User) : stmt := λ d,
  match t_users d !! User_ID u with
  | None => inr d
  | Some _ =>
      ensure user_fits u orelse StringTooLong;
      ensure free uq_users_email (User_ID u) u (t_users d) orelse UniqueViolation "uq_users_email";
      ensure has_parent (fk_users_organization u) (t_organizations d)
        orelse ForeignKeyViolation "fk_users_organization";
      inr (set_users (<[User_ID u := u]> (t_users d)) d)
  end.

Definition with_user_status (status : string) (u : User) : User :=
  mkUser (User_ID u) (User_OrganizationID u) (User_FirstName u) (User_LastName u)
    (User_MiddleName u) (User_Email u) status (User_Type u).

Definition pgUserStore_UpdateStatus (id status : string) : stmt := λ d,
  match t_users d !! id with
  | None => inr d
  | Some u =>
      ensure fits [(32, status)] orelse StringTooLong;
      inr (set_users (<[id := with_user_status status u]> (t_users d)) d)
  end.

(** ON DELETE SET NULL of granted_by. *)
Definition privilege_forget_granter (id : string) (p : UserPrivilege) : UserPrivilege :=
  mkUserPrivilege (UserPrivilege_ID p) (UserPrivilege_UserID p) (UserPrivilege_Privilege p)
    (if decide (UserPrivilege_GrantedBy p = Some id) then None else UserPrivilege_GrantedBy p)
    (UserPrivilege_GrantedAt p) (UserPrivilege_Reason p).

Definition user_role_forget_granter (id : string) (ur : UserRole) : UserRole :=
  mkUserRole (UserRole_UserID ur) (UserRole_RoleID ur)
    (if decide (UserRole_GrantedBy ur = Some id) then None else UserRole_GrantedBy ur)
    (UserRole_GrantedAt ur) (UserRole_Reason ur).

(** The foreign keys on users: projects restrict the deletion, the identity,
    cluster and authorization tables cascade, granted_by is set to NULL.
    compute_allocation_memberships declares no foreign key on user_id. *)
Definition pgUserStore_Delete (id : string) : stmt := λ d,
  ensure unreferenced fk_projects_pi id (t_projects d) orelse ForeignKeyViolation "fk_projects_pi";
  inr (set_users (delete id (t_users d))
      (set_user_identities (cascade fk_user_identities_user {[id]} (t_user_identities d))
      (set_compute_cluster_users (cascade fk_compute_cluster_users_user {[id]} (t_compute_cluster_users d))
      (set_project_memberships (cascade fk_project_memberships_user {[id]} (t_project_memberships d))
      (set_user_privileges (cascade fk_user_privileges_user {[id]}
                              (privilege_forget_granter id <$> t_user_privileges d))
      (set_user_roles (cascade fk_user_roles_user {[id]}
                         (user_role_forget_granter id <$> t_user_roles d)) d)))))).

(** ** user_identity_store.go *)

Definition pgUserIdentityStore_FindByID (id : string) (d : DB) : option UserIdentity :=
  t_user_identities d !! id.

Definition pgUserIdentityStore_FindBySourceAndExternalID (source externalID : string) (d : DB) : option UserIdentity :=
  select_one (λ e, UserIdentity_Source e = source ∧ UserIdentity_ExternalID e = externalID)
    (t_user_identities d).

Definition pgUserIdentityStore_FindByOIDCSub (oidcSub : string) (d : DB) : option UserIdentity :=
  if decide (oidcSub = "") then None
  else select_one (λ e, UserIdentity_OIDCSub e = oidcSub) (t_user_identities d).

Definition pgUserIdentityStore_FindByUser (userID : string) (d : DB) : list UserIdentity :=
  order_by UserIdentity_CreatedAt Z.le
    (select_rows (λ e, UserIdentity_UserID e = userID) (t_user_identities d)).

Definition pgUserIdentityStore_FindByUserAndSource (userID source : string) (d : DB) : option UserIdentity :=
  select_one (λ e, UserIdentity_UserID e = userID ∧ UserIdentity_Source e = source)
    (t_user_identities d).

Definition identity_fits (e : UserIdentity) : Prop :=
  fits [(255, UserIdentity_ID e); (255, UserIdentity_UserID e); (64, UserIdentity_Source e);
        (255, UserIdentity_ExternalID e); (255, UserIdentity_Email e); (255, UserIdentity_OIDCSub e)].
#[export] Instance identity_fits_dec e : Decision (identity_fits e) := fits_dec _.

Definition with_identity_created (t : Time) (e : UserIdentity) : UserIdentity :=
  mkUserIdentity (UserIdentity_ID e) (UserIdentity_UserID e) (UserIdentity_Source e)
    (UserIdentity_ExternalID e) (UserIdentity_Email e) (UserIdentity_OIDCSub e)
    (UserIdentity_Metadata e) t.

(** INSERT without created_at: the column takes its default, the transaction's
    CURRENT_TIMESTAMP. *)
Definition pgUserIdentityStore_Create (e : UserIdentity) (now : Time) : stmt := λ d,
  let row := with_identity_created now e in
  ensure identity_fits e orelse StringTooLong;
  ensure t_user_identities d !! UserIdentity_ID e = None orelse UniqueViolation "user_identities_pkey";
  ensure free uq_user_identities_source_external (UserIdentity_ID e) row (t_user_identities d)
    orelse UniqueViolation "uq_user_identities_source_external";
  ensure free uq_user_identities_oidc_sub (UserIdentity_ID e) row (t_user_identities d)
    orelse UniqueViolation "uq_user_identities_oidc_sub";
  ensure has_parent (fk_user_identities_user row) (t_users d)
    orelse ForeignKeyViolation "fk_user_identities_user";
  inr (set_user_identities (<[UserIdentity_ID e := row]> (t_user_identities d)) d).

Definition pgUserIdentityStore_Update (e : UserIdentity) : stmt := λ d,
  match t_user_identities d !! UserIdentity_ID e with
  | None => inr d
  | Some old =>
      let row := with_identity_created (UserIdentity_CreatedAt old) e in
      ensure identity_fits e orelse StringTooLong;
      ensure free uq_user_identities_source_external (UserIdentity_ID e) row (t_user_identities d)
        orelse UniqueViolation "uq_user_identities_source_external";
      ensure free uq_user_identities_oidc_sub (UserIdentity_ID e) row (t_user_identities d)
        orelse UniqueViolation "uq_user_identities_oidc_sub";
      ensure has_parent (fk_user_identities_user row) (t_users d)
        orelse ForeignKeyViolation "fk_user_identities_user";
      inr (set_user_identities (<[UserIdentity_ID e := row]> (t_user_identities d)) d)
  end.

Definition with_identity_user (userID : string) (e : UserIdentity) : UserIdentity :=
  mkUserIdentity (UserIdentity_ID e) userID (UserIdentity_Source e)
    (UserIdentity_ExternalID e) (UserIdentity_Email e) (UserIdentity_OIDCSub e)
    (UserIdentity_Metadata e) (UserIdentity_CreatedAt e).

(** UPDATE user_identities SET user_id = to WHERE user_id = from. *)
Definition pgUserIdentityStore_ReassignUser (fromUserID toUserID : string) : stmt := λ d,
  let t' := update_where (λ e, UserIdentity_UserID e = fromUserID) (with_identity_user toUserID)
              (t_user_identities d) in
  ensure refs fk_user_identities_user t' (t_users d) orelse ForeignKeyViolation "fk_user_identities_user";
  inr (set_user_identities t' d).

Definition pgUserIdentityStore_Delete (id : string) : stmt := λ d,
  inr (set_user_identities (delete id (t_user_identities d)) d).

#[export] Hint Unfold
  pgOrganizationStore_Create pgOrganizationStore_Update pgOrganizationStore_Delete
  pgUserStore_Create pgUserStore_Update pgUserStore_UpdateStatus pgUserStore_Delete
  pgUserIdentityStore_Create pgUserIdentityStore_Update pgUserIdentityStore_ReassignUser
  pgUserIdentityStore_Delete : stmts.

(** * Facts on the identity stores

    Every write statement of StoreIdentity preserves [integrity]; what the
    lookups return on a database with integrity. *)

Lemma pgOrganizationStore_Create_integrity o :
  StmtRel (pres integrity) (pgOrganizationStore_Create o).
Proof. unfold pgOrganizationStore_Create. solve_integrity. Qed.

Lemma pgOrganizationStore_Update_integrity o :
  StmtRel (pres integrity) (pgOrganizationStore_Update o).
Proof. unfold pgOrganizationStore_Update. solve_integrity. Qed.

Lemma pgOrganizationStore_Delete_integrity id :
  StmtRel (pres integrity) (pgOrganizationStore_Delete id).
Proof. unfold pgOrganizationStore_Delete. solve_integrity. Qed.

Lemma pgUserStore_Create_integrity u :
  StmtRel (pres integrity) (pgUserStore_Create u).
Proof. unfold pgUserStore_Create. solve_integrity. Qed.

Lemma pgUserStore_Update_integrity u :
  StmtRel (pres integrity) (pgUserStore_Update u).
Proof. unfold pgUserStore_Update. solve_integrity. Qed.

Lemma pgUserStore_UpdateStatus_integrity id st :
  StmtRel (pres integrity) (pgUserStore_UpdateStatus id st).
Proof. unfold pgUserStore_UpdateStatus. solve_integrity. Qed.

Lemma pgUserStore_Delete_integrity id :
  StmtRel (pres integrity) (pgUserStore_Delete id).
Proof. unfold pgUserStore_Delete. solve_integrity. Qed.

Lemma pgUserIdentityStore_Create_integrity e now :
  StmtRel (pres integrity) (pgUserIdentityStore_Create e now).
Proof. unfold pgUserIdentityStore_Create. solve_integrity. Qed.

Lemma pgUserIdentityStore_Update_integrity e :
  StmtRel (pres integrity) (pgUserIdentityStore_Update e).
Proof. unfold pgUserIdentityStore_Update. solve_integrity. Qed.

Lemma pgUserIdentityStore_ReassignUser_integrity a b :
  StmtRel (pres integrity) (pgUserIdentityStore_ReassignUser a b).
Proof. unfold pgUserIdentityStore_ReassignUser. solve_integrity. Qed.

Lemma pgUserIdentityStore_Delete_integrity id :
  StmtRel (pres integrity) (pgUserIdentityStore_Delete id).
Proof. unfold pgUserIdentityStore_Delete. solve_integrity. Qed.

#[export] Hint Resolve
  pgOrganizationStore_Create_integrity pgOrganizationStore_Update_integrity
  pgOrganizationStore_Delete_integrity pgUserStore_Create_integrity pgUserStore_Update_integrity
  pgUserStore_UpdateStatus_integrity pgUserStore_Delete_integrity
  pgUserIdentityStore_Create_integrity pgUserIdentityStore_Update_integrity
  pgUserIdentityStore_ReassignUser_integrity pgUserIdentityStore_Delete_integrity : stmt.
