(* ===== verification/StoreProject.v ===== *)
(** * Stores: projects and project memberships

    internal/store/{project,project_membership}_store.go. *)

From stdpp Require Import base gmap sets list strings.
From Stdlib Require Import ZArith Ascii.
From S2P Require Import Prelude GoError Models Schema Effects StoreIdentity EffectsLogic.

(** ** ILIKE *)

(** Skips the continuation bytes of a UTF-8 character. *)
Fixpoint skip_continuation (s : string) : string :=
  match s with
  | String c s' =>
      let n := Ascii.nat_of_ascii c in
      if (128 <=? n)%nat && (n <? 192)%nat then skip_continuation s' else s
  | EmptyString => EmptyString
  end.

(** LIKE with the wildcards [%] and [_] and the escape character backslash.
    The fuel bounds the length of the pattern plus that of the text. *)
Fixpoint like (fuel : nat) (p s : string) : bool :=
  let literal n c p' :=
    match s with String c' s' => bool_decide (c = c') && like n p' s' | EmptyString => false end in
  match fuel, p with
  | O, _ => false
  | S _, EmptyString => bool_decide (s = "")
  | S n, String c p' =>
      if decide (c = "%"%char) then
        like n p' s || match s with String _ s' => like n p s' | EmptyString => false end
      else if decide (c = "_"%char) then
        match s with String _ s' => like n p' (skip_continuation s') | EmptyString => false end
      else if decide (c = "\"%char) then
        match p' with
        | String c1 p1 => literal n c1 p1
        | EmptyString => false
        end
      else literal n c p'
  end.

(** [column ILIKE '%' || q || '%']. *)
Definition ilike_contains (q column : string) : bool :=
  let p := "%" +:+ lower q +:+ "%" in
  like (S (String.length p + String.length column)) p (lower column).

(** ** project_store.go *)

Record ProjectListFilter := mkProjectListFilter {
  PLF_PIID : string;
  PLF_Status : string;
  PLF_Query : string;
  PLF_Limit : Z;
  PLF_Offset : Z }.

Record ProjectWithPI := mkProjectWithPI {
  PWP_Project : Project;
  PWP_PIFirstName : string;
  PWP_PILastName : string;
  PWP_PIEmail : string }.

(** One row of [projectWithPISelect]: LEFT JOIN users ON id = project_pi_id. *)
Definition join_pi (d : DB) (p : Project) : ProjectWithPI :=
  match t_users d !! Project_ProjectPIID p with
  | Some u => mkProjectWithPI p (User_FirstName u) (User_LastName u) (User_Email u)
  | None => mkProjectWithPI p "" "" ""
  end.

Definition pgProjectStore_FindByIDWithPI (id : string) (d : DB) : option ProjectWithPI :=
  join_pi d <$> t_projects d !! id.

Definition pgProjectStore_FindByID (id : string) (d : DB) : option Project := t_projects d !! id.

Definition pgProjectStore_FindByOriginatedID (originatedID : string) (d : DB) : option Project :=
  select_one (λ p, Project_OriginatedID p = originatedID) (t_projects d).

Definition pgProjectStore_FindByPI (piUserID : string) (d : DB) : list Project :=
  select_rows (λ p, Project_ProjectPIID p = piUserID) (t_projects d).

Definition project_fits (p : Project) : Prop :=
  fits [(255, Project_ID p); (255, Project_OriginatedID p); (255, Project_Title p);
        (255, Project_Origination p); (255, Project_ProjectPIID p); (32, Project_Status p)].
#[export] Instance project_fits_dec p : Decision (project_fits p) := fits_dec _.

Definition pgProjectStore_Create (p : Project) : stmt := λ d,
  ensure project_fits p orelse StringTooLong;
  ensure t_projects d !! Project_ID p = None orelse UniqueViolation "projects_pkey";
  ensure has_parent (fk_projects_pi p) (t_users d) orelse ForeignKeyViolation "fk_projects_pi";
  inr (set_projects (<[Project_ID p := p]> (t_projects d)) d).

Definition with_project_created (t : Time) (p : Project) : Project :=
  mkProject (Project_ID p) (Project_OriginatedID p) (Project_Title p) (Project_Origination p)
    (Project_ProjectPIID p) (Project_Status p) t.

(** The UPDATE does not set created_time. *)
Definition pgProjectStore_Update (p : Project) : stmt := λ d,
  match t_projects d !! Project_ID p with
  | None => inr d
  | Some old =>
      let row := with_project_created (Project_CreatedTime old) p in
      ensure project_fits p orelse StringTooLong;
      ensure has_parent (fk_projects_pi row) (t_users d) orelse ForeignKeyViolation "fk_projects_pi";
      inr (set_projects (<[Project_ID p := row]> (t_projects d)) d)
  end.

Definition with_project_status (status : string) (p : Project) : Project :=
  mkProject (Project_ID p) (Project_OriginatedID p) (Project_Title p) (Project_Origination p)
    (Project_ProjectPIID p) status (Project_CreatedTime p).

Definition pgProjectStore_UpdateStatus (id status : string) : stmt := λ d,
  match t_projects d !! id with
  | None => inr d
  | Some p =>
      ensure fits [(32, status)] orelse StringTooLong;
      inr (set_projects (<[id := with_project_status status p]> (t_projects d)) d)
  end.

Definition with_project_pi (pi : string) (p : Project) : Project :=
  mkProject (Project_ID p) (Project_OriginatedID p) (Project_Title p) (Project_Origination p)
    pi (Project_Status p) (Project_CreatedTime p).

Definition pgProjectStore_ReassignPI (fromUserID toUserID : string) : stmt := λ d,
  let t' := update_where (λ p, Project_ProjectPIID p = fromUserID) (with_project_pi toUserID)
              (t_projects d) in
  ensure refs fk_projects_pi t' (t_users d) orelse ForeignKeyViolation "fk_projects_pi";
  inr (set_projects t' d).

Definition pgProjectStore_Delete (id : string) : stmt := λ d,
  ensure unreferenced fk_compute_allocations_project id (t_compute_allocations d)
    orelse ForeignKeyViolation "fk_compute_allocations_project";
  inr (set_projects (delete id (t_projects d))
      (set_project_memberships (cascade fk_project_memberships_project {[id]} (t_project_memberships d)) d)).

(** The WHERE clause that List and ListWithPI assemble: one conjunct per
    non-empty field of the filter. *)
Definition project_matches (f : ProjectListFilter) (p : Project) : Prop :=
  (PLF_PIID f ≠ "" → Project_ProjectPIID p = PLF_PIID f) ∧
  (PLF_Status f ≠ "" → Project_Status p = PLF_Status f) ∧
  (PLF_Query f ≠ "" →
     ilike_contains (PLF_Query f) (Project_Title p) = true ∨
     ilike_contains (PLF_Query f) (Project_OriginatedID p) = true).
#[export] Instance project_matches_dec f p : Decision (project_matches f p).
Proof. unfold project_matches. apply _. Defined.

Definition pgProjectStore_List (f : ProjectListFilter) (d : DB) : list Project * nat :=
  let rows := select_rows (project_matches f) (t_projects d) in
  (page (PLF_Limit f) (PLF_Offset f) (order_by Project_CreatedTime Z.ge rows), length rows).

Definition pgProjectStore_ListWithPI (f : ProjectListFilter) (d : DB) : list ProjectWithPI * nat :=
  let rows := select_rows (project_matches f) (t_projects d) in
  (page (PLF_Limit f) (PLF_Offset f) (join_pi d <$> order_by Project_CreatedTime Z.ge rows),
   length rows).

(** The user has an ACTIVE membership on an allocation of the project. *)
Definition has_active_membership (projectID userID : string) (d : DB) : Prop :=
  Exists (λ cam,
      from_option (λ ca, ComputeAllocation_ProjectID ca = projectID) False
        (t_compute_allocations d !! Membership_ComputeAllocationID cam))
    (select_rows (λ cam, Membership_UserID cam = userID ∧ Membership_MembershipStatus cam = "ACTIVE")
       (t_memberships d)).
#[export] Instance has_active_membership_dec p u d : Decision (has_active_membership p u d).
Proof.
  unfold has_active_membership. apply Exists_dec. intros cam.
  destruct (t_compute_allocations d !! _); simpl; apply _.
Defined.

(** [IsParticipant]: a project_memberships row, or an active allocation
    membership. *)
Definition pgProjectMembershipStore_IsParticipant (projectID userID : string) (d : DB) : bool :=
  bool_decide (is_Some (t_project_memberships d !! (projectID, userID)) ∨
               has_active_membership projectID userID d).

Definition pgProjectStore_ListWithPIForParticipant (userID : string) (d : DB) : list ProjectWithPI :=
  join_pi d <$> order_by Project_CreatedTime Z.ge
    (select_rows (λ p, is_Some (t_project_memberships d !! (Project_ID p, userID)) ∨
                       has_active_membership (Project_ID p) userID d) (t_projects d)).

(** ** project_membership_store.go *)

Definition pgProjectMembershipStore_FindByPair (projectID userID : string) (d : DB) : option ProjectMembership :=
  t_project_memberships d !! (projectID, userID).

Definition pgProjectMembershipStore_FindByProject (projectID : string) (d : DB) : list ProjectMembership :=
  order_by ProjectMembership_AddedTime Z.le
    (select_rows (λ pm, ProjectMembership_ProjectID pm = projectID) (t_project_memberships d)).

Definition pgProjectMembershipStore_FindPIByProject (projectID : string) (d : DB) : option ProjectMembership :=
  select_one (λ pm, ProjectMembership_ProjectID pm = projectID ∧ ProjectMembership_Role pm = "PI")
    (t_project_memberships d).

Definition pgProjectMembershipStore_Create (pm : ProjectMembership) : stmt := λ d,
  ensure fits [(255, ProjectMembership_ProjectID pm); (255, ProjectMembership_UserID pm);
               (32, ProjectMembership_Role pm)] orelse StringTooLong;
  ensure chk_project_memberships_role pm orelse CheckViolation "chk_project_memberships_role";
  ensure t_project_memberships d !! ProjectMembership_pk pm = None
    orelse UniqueViolation "project_memberships_pkey";
  ensure has_parent (fk_project_memberships_project pm) (t_projects d)
    orelse ForeignKeyViolation "fk_project_memberships_project";
  ensure has_parent (fk_project_memberships_user pm) (t_users d)
    orelse ForeignKeyViolation "fk_project_memberships_user";
  inr (set_project_memberships (<[ProjectMembership_pk pm := pm]> (t_project_memberships d)) d).

Definition with_pm_role (role : string) (pm : ProjectMembership) : ProjectMembership :=
  mkProjectMembership (ProjectMembership_ProjectID pm) (ProjectMembership_UserID pm) role
    (ProjectMembership_AddedTime pm).

Definition pgProjectMembershipStore_UpdateRole (projectID userID role : string) : stmt := λ d,
  match t_project_memberships d !! (projectID, userID) with
  | None => inr d
  | Some pm =>
      ensure fits [(32, role)] orelse StringTooLong;
      ensure chk_project_memberships_role (with_pm_role role pm)
        orelse CheckViolation "chk_project_memberships_role";
      inr (set_project_memberships
             (<[(projectID, userID) := with_pm_role role pm]> (t_project_memberships d)) d)
  end.

Definition pgProjectMembershipStore_Delete (projectID userID : string) : stmt := λ d,
  inr (set_project_memberships (delete (projectID, userID) (t_project_memberships d)) d).

(** The DELETE of [ReassignUser]: the retiring user's rows on projects where
    the surviving user has a row. *)
Definition pm_reassign_delete (fromUserID toUserID : string) : stmt := λ d,
  inr (set_project_memberships
         (filter (λ kr, ¬ (ProjectMembership_UserID kr.2 = fromUserID ∧
                           is_Some (t_project_memberships d !! (ProjectMembership_ProjectID kr.2, toUserID))))
            (t_project_memberships d)) d).

Definition with_pm_user (userID : string) (pm : ProjectMembership) : ProjectMembership :=
  mkProjectMembership (ProjectMembership_ProjectID pm) userID (ProjectMembership_Role pm)
    (ProjectMembership_AddedTime pm).

(** The moved rows stored under the keys of user [to]. *)
Definition rekey (to : string) (kept moved : gmap (string * string) ProjectMembership) :
    gmap (string * string) ProjectMembership :=
  map_fold (λ _ pm, insert (ProjectMembership_ProjectID pm, to) (with_pm_user to pm)) kept moved.

(** The UPDATE of [ReassignUser]. user_id is part of the primary key: the rows
    move to the keys of the surviving user. *)
Definition pm_reassign_update (fromUserID toUserID : string) : stmt := λ d,
  let t := t_project_memberships d in
  let moved := filter (λ kr, ProjectMembership_UserID kr.2 = fromUserID) t in
  let kept := filter (λ kr, ProjectMembership_UserID kr.2 ≠ fromUserID) t in
  ensure map_Forall (λ _ pm, kept !! (ProjectMembership_ProjectID pm, toUserID) = None) moved
    orelse UniqueViolation "project_memberships_pkey";
  ensure moved = ∅ ∨ is_Some (t_users d !! toUserID)
    orelse ForeignKeyViolation "fk_project_memberships_user";
  inr (set_project_memberships (rekey toUserID kept moved) d).

Definition pgProjectMembershipStore_ReassignUser `{Env} (fromUserID toUserID : string) : M unit :=
  _ ← exec (pm_reassign_delete fromUserID toUserID);
  exec (pm_reassign_update fromUserID toUserID).

#[export] Hint Unfold
  pgProjectStore_Create pgProjectStore_Update pgProjectStore_UpdateStatus pgProjectStore_ReassignPI
  pgProjectStore_Delete pgProjectMembershipStore_Create pgProjectMembershipStore_UpdateRole
  pgProjectMembershipStore_Delete pm_reassign_delete pm_reassign_update : stmts.

(** * Facts on the project stores

    Every write statement of StoreProject preserves [integrity], including the
    re-keying UPDATE of project_memberships. *)

Lemma pgProjectStore_Create_integrity p :
  StmtRel (pres integrity) (pgProjectStore_Create p).
Proof. unfold pgProjectStore_Create. solve_integrity. Qed.

Lemma pgProjectStore_Update_integrity p :
  StmtRel (pres integrity) (pgProjectStore_Update p).
Proof. unfold pgProjectStore_Update. solve_integrity. Qed.

Lemma pgProjectStore_UpdateStatus_integrity id st :
  StmtRel (pres integrity) (pgProjectStore_UpdateStatus id st).
Proof. unfold pgProjectStore_UpdateStatus. solve_integrity. Qed.

Lemma pgProjectStore_ReassignPI_integrity a b :
  StmtRel (pres integrity) (pgProjectStore_ReassignPI a b).
Proof. unfold pgProjectStore_ReassignPI. solve_integrity. Qed.

Lemma pgProjectStore_Delete_integrity id :
  StmtRel (pres integrity) (pgProjectStore_Delete id).
Proof. unfold pgProjectStore_Delete. solve_integrity. Qed.

Lemma pgProjectMembershipStore_Create_integrity pm :
  StmtRel (pres integrity) (pgProjectMembershipStore_Create pm).
Proof. unfold pgProjectMembershipStore_Create. solve_integrity. Qed.

Lemma pgProjectMembershipStore_UpdateRole_integrity p u r :
  StmtRel (pres integrity) (pgProjectMembershipStore_UpdateRole p u r).
Proof. unfold pgProjectMembershipStore_UpdateRole. solve_integrity. Qed.

Lemma pgProjectMembershipStore_Delete_integrity p u :
  StmtRel (pres integrity) (pgProjectMembershipStore_Delete p u).
Proof. unfold pgProjectMembershipStore_Delete. solve_integrity. Qed.

Lemma pm_reassign_delete_integrity a b :
  StmtRel (pres integrity) (pm_reassign_delete a b).
Proof. unfold pm_reassign_delete. solve_integrity. Qed.

(** ** The re-keying UPDATE *)

(** A row of the updated table is an untouched row or a moved one. *)
Lemma rekey_lookup (to : string) (kept moved : gmap (string * string) ProjectMembership) k r :
  rekey to kept moved !! k = Some r →
  kept !! k = Some r ∨
  ∃ k0 pm, moved !! k0 = Some pm ∧ k = (ProjectMembership_ProjectID pm, to) ∧ r = with_pm_user to pm.
Proof.
  unfold rekey. revert r.
  apply (map_fold_weak_ind (λ acc m, ∀ r, acc !! k = Some r → kept !! k = Some r ∨
    ∃ k0 pm, m !! k0 = Some pm ∧ k = (ProjectMembership_ProjectID pm, to) ∧ r = with_pm_user to pm)).
  - auto.
  - intros k0 pm m acc Hn IH r [[<- <-]|[Hne Hr]]%lookup_insert_Some.
    + right. exists k0, pm. by rewrite lookup_insert_eq.
    + destruct (IH r Hr) as [?|(k1 & pm1 & H1 & ? & ?)]; [by left|right].
      exists k1, pm1. rewrite lookup_insert_ne by congruence. done.
Qed.

Lemma pm_reassign_update_integrity a b :
  StmtRel (pres integrity) (pm_reassign_update a b).
Proof.
  unfold pm_reassign_update. intros d d' HS HI.
  repeat case_decide; simplify_eq. destruct HI; split; cbn; try assumption.
  all: intros k r [[Hk ?]%map_lookup_filter_Some|(k0 & pm & [Hk0 ?]%map_lookup_filter_Some & -> & ->)]%rekey_lookup.
  - by apply pk_project_memberships.
  - done.
  - by eapply f_pm_project.
  - intros k' Hk'. cbn in Hk'. by eapply f_pm_project.
  - by eapply f_pm_user.
  - intros k' [= <-]. match goal with H : _ ∨ _ |- _ => destruct H as [He|?]; [|done] end.
    exfalso. eapply map_filter_empty_not_lookup in He; [by apply He|done].
  - by eapply c_pm_role.
  - by apply (c_pm_role _ _ Hk0).
Qed.

#[export] Hint Resolve
  pgProjectStore_Create_integrity pgProjectStore_Update_integrity
  pgProjectStore_UpdateStatus_integrity pgProjectStore_ReassignPI_integrity
  pgProjectStore_Delete_integrity pgProjectMembershipStore_Create_integrity
  pgProjectMembershipStore_UpdateRole_integrity pgProjectMembershipStore_Delete_integrity
  pm_reassign_delete_integrity pm_reassign_update_integrity : stmt.
