(* ===== verification/StoreCluster.v ===== *)
(** * Stores: compute clusters and cluster users

    internal/store/{compute_cluster,compute_cluster_user}_store.go, and that
    every write statement preserves [integrity]. *)

From S2P Require Import Prelude GoError Models Schema Effects EffectsLogic StoreIdentity.
From stdpp Require Import base gmap sets list strings.
From Stdlib Require Import ZArith.

(** ** compute_cluster_store.go *)

Definition pgComputeClusterStore_FindByID (id : string) (d : DB) : option ComputeCluster :=
  t_compute_clusters d !! id.

Definition pgComputeClusterStore_FindByName (name : string) (d : DB) : option ComputeCluster :=
  select_one (λ c, ComputeCluster_Name c = name) (t_compute_clusters d).

Definition pgComputeClusterStore_List (d : DB) : list ComputeCluster :=
  order_by ComputeCluster_Name String.le (all_rows (t_compute_clusters d)).

Definition pgComputeClusterStore_Create (c : ComputeCluster) : stmt := λ d,
  ensure fits [(255, ComputeCluster_ID c); (255, ComputeCluster_Name c)] orelse StringTooLong;
  ensure t_compute_clusters d !! ComputeCluster_ID c = None orelse UniqueViolation "compute_clusters_pkey";
  ensure free uq_compute_clusters_name (ComputeCluster_ID c) c (t_compute_clusters d)
    orelse UniqueViolation "uq_compute_clusters_name";
  inr (set_compute_clusters (<[ComputeCluster_ID c := c]> (t_compute_clusters d)) d).

Definition pgComputeClusterStore_Update (c : ComputeCluster) : stmt := λ d,
  match t_compute_clusters d !! ComputeCluster_ID c with
  | None => inr d
  | Some _ =>
      ensure fits [(255, ComputeCluster_Name c)] orelse StringTooLong;
      ensure free uq_compute_clusters_name (ComputeCluster_ID c) c (t_compute_clusters d)
        orelse UniqueViolation "uq_compute_clusters_name";
      inr (set_compute_clusters (<[ComputeCluster_ID c := c]> (t_compute_clusters d)) d)
  end.

(** Allocations and resources restrict the deletion; cluster users cascade. *)
Definition pgComputeClusterStore_Delete (id : string) : stmt := λ d,
  ensure unreferenced fk_compute_allocations_cluster id (t_compute_allocations d)
    orelse ForeignKeyViolation "fk_compute_allocations_cluster";
  ensure unreferenced fk_compute_allocation_resources_cluster id (t_resources d)
    orelse ForeignKeyViolation "fk_compute_allocation_resources_cluster";
  inr (set_compute_clusters (delete id (t_compute_clusters d))
      (set_compute_cluster_users
         (cascade fk_compute_cluster_users_cluster {[id]} (t_compute_cluster_users d)) d)).

(** ** compute_cluster_user_store.go *)

Definition pgComputeClusterUserStore_FindByID (id : string) (d : DB) : option ComputeClusterUser :=
  t_compute_cluster_users d !! id.

Definition pgComputeClusterUserStore_FindByPair (clusterID userID : string) (d : DB) : option ComputeClusterUser :=
  select_one (λ c, ComputeClusterUser_ComputeClusterID c = clusterID ∧ ComputeClusterUser_UserID c = userID)
    (t_compute_cluster_users d).

Definition pgComputeClusterUserStore_FindByClusterAndLocalUsername
    (clusterID localUsername : string) (d : DB) : option ComputeClusterUser :=
  select_one (λ c, ComputeClusterUser_ComputeClusterID c = clusterID ∧
                   ComputeClusterUser_LocalUsername c = localUsername)
    (t_compute_cluster_users d).

Definition pgComputeClusterUserStore_FindByCluster (clusterID : string) (d : DB) : list ComputeClusterUser :=
  order_by ComputeClusterUser_LocalUsername String.le
    (select_rows (λ c, ComputeClusterUser_ComputeClusterID c = clusterID) (t_compute_cluster_users d)).

Definition pgComputeClusterUserStore_FindByUser (userID : string) (d : DB) : list ComputeClusterUser :=
  order_by ComputeClusterUser_ComputeClusterID String.le
    (select_rows (λ c, ComputeClusterUser_UserID c = userID) (t_compute_cluster_users d)).

Definition cluster_user_fits (c : ComputeClusterUser) : Prop :=
  fits [(255, ComputeClusterUser_ID c); (255, ComputeClusterUser_ComputeClusterID c);
        (255, ComputeClusterUser_UserID c); (255, ComputeClusterUser_LocalUsername c)].
#[export] Instance cluster_user_fits_dec c : Decision (cluster_user_fits c) := fits_dec _.

Definition with_provisioned (t : option Time) (c : ComputeClusterUser) : ComputeClusterUser :=
  mkComputeClusterUser (ComputeClusterUser_ID c) (ComputeClusterUser_ComputeClusterID c)
    (ComputeClusterUser_UserID c) (ComputeClusterUser_LocalUsername c) t.

(** The INSERT does not name provisioned_at: the column is NULL. *)
Definition pgComputeClusterUserStore_Create (c : ComputeClusterUser) : stmt := λ d,
  let row := with_provisioned None c in
  ensure cluster_user_fits c orelse StringTooLong;
  ensure t_compute_cluster_users d !! ComputeClusterUser_ID c = None
    orelse UniqueViolation "compute_cluster_users_pkey";
  ensure free uq_compute_cluster_users_pair (ComputeClusterUser_ID c) row (t_compute_cluster_users d)
    orelse UniqueViolation "uq_compute_cluster_users_pair";
  ensure free uq_compute_cluster_users_local_username (ComputeClusterUser_ID c) row (t_compute_cluster_users d)
    orelse UniqueViolation "uq_compute_cluster_users_local_username";
  ensure has_parent (fk_compute_cluster_users_cluster row) (t_compute_clusters d)
    orelse ForeignKeyViolation "fk_compute_cluster_users_cluster";
  ensure has_parent (fk_compute_cluster_users_user row) (t_users d)
    orelse ForeignKeyViolation "fk_compute_cluster_users_user";
  inr (set_compute_cluster_users (<[ComputeClusterUser_ID c := row]> (t_compute_cluster_users d)) d).

(** The UPDATE does not set provisioned_at. *)
Definition pgComputeClusterUserStore_Update (c : ComputeClusterUser) : stmt := λ d,
  match t_compute_cluster_users d !! ComputeClusterUser_ID c with
  | None => inr d
  | Some old =>
      let row := with_provisioned (ComputeClusterUser_ProvisionedAt old) c in
      ensure cluster_user_fits c orelse StringTooLong;
      ensure free uq_compute_cluster_users_pair (ComputeClusterUser_ID c) row (t_compute_cluster_users d)
        orelse UniqueViolation "uq_compute_cluster_users_pair";
      ensure free uq_compute_cluster_users_local_username (ComputeClusterUser_ID c) row (t_compute_cluster_users d)
        orelse UniqueViolation "uq_compute_cluster_users_local_username";
      ensure has_parent (fk_compute_cluster_users_cluster row) (t_compute_clusters d)
        orelse ForeignKeyViolation "fk_compute_cluster_users_cluster";
      ensure has_parent (fk_compute_cluster_users_user row) (t_users d)
        orelse ForeignKeyViolation "fk_compute_cluster_users_user";
      inr (set_compute_cluster_users (<[ComputeClusterUser_ID c := row]> (t_compute_cluster_users d)) d)
  end.

(** provisioned_at = NOW(). *)
Definition pgComputeClusterUserStore_MarkProvisioned (id : string) (now : Time) : stmt := λ d,
  match t_compute_cluster_users d !! id with
  | None => inr d
  | Some c =>
      inr (set_compute_cluster_users
             (<[id := with_provisioned (Some now) c]> (t_compute_cluster_users d)) d)
  end.

(** The DELETE of [ReassignUser]: the retiring user's accounts on clusters
    where the surviving user has an account. *)
Definition ccu_reassign_delete (fromUserID toUserID : string) : stmt := λ d,
  inr (set_compute_cluster_users
         (filter (λ kr, ¬ (ComputeClusterUser_UserID kr.2 = fromUserID ∧
                           is_Some (pgComputeClusterUserStore_FindByPair
                                      (ComputeClusterUser_ComputeClusterID kr.2) toUserID d)))
            (t_compute_cluster_users d)) d).

Definition with_cluster_user_user (userID : string) (c : ComputeClusterUser) : ComputeClusterUser :=
  mkComputeClusterUser (ComputeClusterUser_ID c) (ComputeClusterUser_ComputeClusterID c)
    userID (ComputeClusterUser_LocalUsername c) (ComputeClusterUser_ProvisionedAt c).

(** The UPDATE of [ReassignUser]. *)
Definition ccu_reassign_update (fromUserID toUserID : string) : stmt := λ d,
  let t' := update_where (λ c, ComputeClusterUser_UserID c = fromUserID)
              (with_cluster_user_user toUserID) (t_compute_cluster_users d) in
  ensure uniq uq_compute_cluster_users_pair t' orelse UniqueViolation "uq_compute_cluster_users_pair";
  ensure refs fk_compute_cluster_users_user t' (t_users d)
    orelse ForeignKeyViolation "fk_compute_cluster_users_user";
  inr (set_compute_cluster_users t' d).

Definition pgComputeClusterUserStore_ReassignUser `{Env} (fromUserID toUserID : string) : M unit :=
  _ ← exec (ccu_reassign_delete fromUserID toUserID);
  exec (ccu_reassign_update fromUserID toUserID).

Definition pgComputeClusterUserStore_Delete (id : string) : stmt := λ d,
  inr (set_compute_cluster_users (delete id (t_compute_cluster_users d)) d).

#[export] Hint Unfold
  pgComputeClusterStore_Create pgComputeClusterStore_Update pgComputeClusterStore_Delete
  pgComputeClusterUserStore_Create pgComputeClusterUserStore_Update
  pgComputeClusterUserStore_MarkProvisioned ccu_reassign_delete ccu_reassign_update
  pgComputeClusterUserStore_Delete : stmts.

(** ** Integrity *)

Lemma pgComputeClusterStore_Create_integrity c :
  StmtRel (pres integrity) (pgComputeClusterStore_Create c).
Proof. unfold pgComputeClusterStore_Create. solve_integrity. Qed.

Lemma pgComputeClusterStore_Update_integrity c :
  StmtRel (pres integrity) (pgComputeClusterStore_Update c).
Proof. unfold pgComputeClusterStore_Update. solve_integrity. Qed.

Lemma pgComputeClusterStore_Delete_integrity id :
  StmtRel (pres integrity) (pgComputeClusterStore_Delete id).
Proof. unfold pgComputeClusterStore_Delete. solve_integrity. Qed.

Lemma pgComputeClusterUserStore_Create_integrity c :
  StmtRel (pres integrity) (pgComputeClusterUserStore_Create c).
Proof. unfold pgComputeClusterUserStore_Create. solve_integrity. Qed.

Lemma pgComputeClusterUserStore_Update_integrity c :
  StmtRel (pres integrity) (pgComputeClusterUserStore_Update c).
Proof. unfold pgComputeClusterUserStore_Update. solve_integrity. Qed.

Lemma pgComputeClusterUserStore_MarkProvisioned_integrity id now :
  StmtRel (pres integrity) (pgComputeClusterUserStore_MarkProvisioned id now).
Proof. unfold pgComputeClusterUserStore_MarkProvisioned. solve_integrity. Qed.

Lemma ccu_reassign_delete_integrity a b :
  StmtRel (pres integrity) (ccu_reassign_delete a b).
Proof. unfold ccu_reassign_delete. solve_integrity. Qed.

Lemma ccu_reassign_update_integrity a b :
  StmtRel (pres integrity) (ccu_reassign_update a b).
Proof. unfold ccu_reassign_update. solve_integrity. Qed.

Lemma pgComputeClusterUserStore_Delete_integrity id :
  StmtRel (pres integrity) (pgComputeClusterUserStore_Delete id).
Proof. unfold pgComputeClusterUserStore_Delete. solve_integrity. Qed.

#[export] Hint Resolve
  pgComputeClusterStore_Create_integrity pgComputeClusterStore_Update_integrity
  pgComputeClusterStore_Delete_integrity pgComputeClusterUserStore_Create_integrity
  pgComputeClusterUserStore_Update_integrity pgComputeClusterUserStore_MarkProvisioned_integrity
  ccu_reassign_delete_integrity ccu_reassign_update_integrity
  pgComputeClusterUserStore_Delete_integrity : stmt.
