(* ===== verification/StoreAuth.v ===== *)
(** * Stores: roles, privileges and the audit trail

    internal/store/{role,user_role,user_privilege,audit_event}_store.go, the
    two aggregate queries of pkg/service/user_role.go, and that every write
    statement preserves [integrity]. *)

From S2P Require Import Prelude GoError Models Schema Effects EffectsLogic StoreIdentity.
From stdpp Require Import base gmap sets list strings.
From Stdlib Require Import ZArith.

(** ** role_store.go *)

Definition pgRoleStore_FindByID (id : string) (d : DB) : option Role := t_roles d !! id.

Definition pgRoleStore_FindByName (name : string) (d : DB) : option Role :=
  select_one (λ r, Role_Name r = name) (t_roles d).

Definition pgRoleStore_List (d : DB) : list Role :=
  order_by Role_Name String.le (all_rows (t_roles d)).

Definition with_role_created (t : Time) (r : Role) : Role :=
  mkRole (Role_ID r) (Role_Name r) (Role_Description r) (Role_IsSystem r) t.

(** The INSERT does not name created_at: the column takes its default. *)
Definition pgRoleStore_Create (r : Role) (now : Time) : stmt := λ d,
  let row := with_role_created now r in
  ensure fits [(255, Role_ID r); (64, Role_Name r)] orelse StringTooLong;
  ensure t_roles d !! Role_ID r = None orelse UniqueViolation "roles_pkey";
  ensure free uq_roles_name (Role_ID r) row (t_roles d) orelse UniqueViolation "uq_roles_name";
  inr (set_roles (<[Role_ID r := row]> (t_roles d)) d).

(** UPDATE roles SET name, description: is_system and created_at are kept. *)
Definition pgRoleStore_Update (r : Role) : stmt := λ d,
  match t_roles d !! Role_ID r with
  | None => inr d
  | Some old =>
      let row := mkRole (Role_ID r) (Role_Name r) (Role_Description r)
                   (Role_IsSystem old) (Role_CreatedAt old) in
      ensure fits [(64, Role_Name r)] orelse StringTooLong;
      ensure free uq_roles_name (Role_ID r) row (t_roles d) orelse UniqueViolation "uq_roles_name";
      inr (set_roles (<[Role_ID r := row]> (t_roles d)) d)
  end.

(** role_privileges and user_roles cascade. *)
Definition pgRoleStore_Delete (id : string) : stmt := λ d,
  inr (set_roles (delete id (t_roles d))
      (set_role_privileges (cascade fk_role_privileges_role {[id]} (t_role_privileges d))
      (set_user_roles (cascade fk_user_roles_role {[id]} (t_user_roles d)) d))).

Definition pgRoleStore_ListPrivileges (roleID : string) (d : DB) : list PrivilegeKey :=
  order_by id String.le
    (RolePrivilege_Privilege <$> select_rows (λ rp, RolePrivilege_RoleID rp = roleID) (t_role_privileges d)).

Definition pgRoleStore_AddPrivilege (roleID : string) (privilege : PrivilegeKey) : stmt := λ d,
  let row := mkRolePrivilege roleID privilege in
  ensure fits [(255, roleID); (64, privilege)] orelse StringTooLong;
  ensure t_role_privileges d !! (roleID, privilege) = None orelse UniqueViolation "role_privileges_pkey";
  ensure has_parent (fk_role_privileges_role row) (t_roles d)
    orelse ForeignKeyViolation "fk_role_privileges_role";
  inr (set_role_privileges (<[(roleID, privilege) := row]> (t_role_privileges d)) d).

Definition pgRoleStore_RemovePrivilege (roleID : string) (privilege : PrivilegeKey) : stmt := λ d,
  inr (set_role_privileges (delete (roleID, privilege) (t_role_privileges d)) d).

(** COUNT of the rows with the given role and privilege, compared with 0. *)
Definition pgRoleStore_HasPrivilege (roleID : string) (privilege : PrivilegeKey) (d : DB) : bool :=
  bool_decide (is_Some (t_role_privileges d !! (roleID, privilege))).

Definition pgRoleStore_CountRolesGrantingPrivilege (privilege : PrivilegeKey) (d : DB) : nat :=
  length (select_rows (λ rp, RolePrivilege_Privilege rp = privilege) (t_role_privileges d)).

(** ** user_privilege_store.go *)

Definition pgUserPrivilegeStore_Find (userID : string) (privilege : PrivilegeKey) (d : DB) : option UserPrivilege :=
  select_one (λ p, UserPrivilege_UserID p = userID ∧ UserPrivilege_Privilege p = privilege)
    (t_user_privileges d).

(** The same SELECT with FOR UPDATE, which locks the row it returns. *)
Definition pgUserPrivilegeStore_FindForUpdate (userID : string) (privilege : PrivilegeKey) (d : DB) : option UserPrivilege :=
  select_one (λ p, UserPrivilege_UserID p = userID ∧ UserPrivilege_Privilege p = privilege)
    (t_user_privileges d).

Definition pgUserPrivilegeStore_ListByUser (userID : string) (d : DB) : list UserPrivilege :=
  order_by UserPrivilege_GrantedAt Z.le
    (select_rows (λ p, UserPrivilege_UserID p = userID) (t_user_privileges d)).

Definition pgUserPrivilegeStore_ListByPrivilege (privilege : PrivilegeKey) (d : DB) : list UserPrivilege :=
  order_by UserPrivilege_GrantedAt Z.le
    (select_rows (λ p, UserPrivilege_Privilege p = privilege) (t_user_privileges d)).

Definition pgUserPrivilegeStore_CountByPrivilege (privilege : PrivilegeKey) (d : DB) : nat :=
  length (select_rows (λ p, UserPrivilege_Privilege p = privilege) (t_user_privileges d)).

Definition pgUserPrivilegeStore_Create (r : UserPrivilege) : stmt := λ d,
  ensure fits [(255, UserPrivilege_ID r); (255, UserPrivilege_UserID r);
               (64, UserPrivilege_Privilege r); (255, default "" (UserPrivilege_GrantedBy r))]
    orelse StringTooLong;
  ensure t_user_privileges d !! UserPrivilege_ID r = None orelse UniqueViolation "user_privileges_pkey";
  ensure free uq_user_privileges (UserPrivilege_ID r) r (t_user_privileges d)
    orelse UniqueViolation "uq_user_privileges";
  ensure has_parent (fk_user_privileges_user r) (t_users d)
    orelse ForeignKeyViolation "fk_user_privileges_user";
  ensure has_parent (fk_user_privileges_granted_by r) (t_users d)
    orelse ForeignKeyViolation "fk_user_privileges_granted_by";
  inr (set_user_privileges (<[UserPrivilege_ID r := r]> (t_user_privileges d)) d).

Definition pgUserPrivilegeStore_Delete (userID : string) (privilege : PrivilegeKey) : stmt := λ d,
  inr (set_user_privileges
         (filter (λ kr, ¬ (UserPrivilege_UserID kr.2 = userID ∧ UserPrivilege_Privilege kr.2 = privilege))
            (t_user_privileges d)) d).

(** ** user_role_store.go *)

Record UserRoleDetail := mkUserRoleDetail {
  URD_Role : Role;
  URD_Privileges : list PrivilegeKey;
  URD_GrantedAt : Time }.

Definition pgUserRoleStore_Find (userID roleID : string) (d : DB) : option UserRole :=
  t_user_roles d !! (userID, roleID).

Definition pgUserRoleStore_FindForUpdate (userID roleID : string) (d : DB) : option UserRole :=
  t_user_roles d !! (userID, roleID).

Definition pgUserRoleStore_ListByUser (userID : string) (d : DB) : list UserRole :=
  order_by UserRole_GrantedAt Z.le (select_rows (λ r, UserRole_UserID r = userID) (t_user_roles d)).

Definition pgUserRoleStore_ListByRole (roleID : string) (d : DB) : list UserRole :=
  order_by UserRole_GrantedAt Z.le (select_rows (λ r, UserRole_RoleID r = roleID) (t_user_roles d)).

Definition pgUserRoleStore_ListUserIDsByRole (roleID : string) (d : DB) : list string :=
  UserRole_UserID <$> select_rows (λ r, UserRole_RoleID r = roleID) (t_user_roles d).

Definition pgUserRoleStore_Create (r : UserRole) : stmt := λ d,
  ensure fits [(255, UserRole_UserID r); (255, UserRole_RoleID r); (255, default "" (UserRole_GrantedBy r))]
    orelse StringTooLong;
  ensure t_user_roles d !! UserRole_pk r = None orelse UniqueViolation "user_roles_pkey";
  ensure has_parent (fk_user_roles_user r) (t_users d) orelse ForeignKeyViolation "fk_user_roles_user";
  ensure has_parent (fk_user_roles_role r) (t_roles d) orelse ForeignKeyViolation "fk_user_roles_role";
  ensure has_parent (fk_user_roles_granted_by r) (t_users d)
    orelse ForeignKeyViolation "fk_user_roles_granted_by";
  inr (set_user_roles (<[UserRole_pk r := r]> (t_user_roles d)) d).

Definition pgUserRoleStore_Delete (userID roleID : string) : stmt := λ d,
  inr (set_user_roles (delete (userID, roleID) (t_user_roles d)) d).

(** One row of the query of [ListDetailedByUser]; [None] is the NULL privilege
    of the LEFT JOIN. *)
Record role_detail_row := mkRoleDetailRow {
  rdr_role : Role;
  rdr_granted : Time;
  rdr_privilege : option PrivilegeKey }.

Definition role_detail_rows (userID : string) (d : DB) : list role_detail_row :=
  ur ← order_by (λ ur, from_option Role_Name "" (t_roles d !! UserRole_RoleID ur)) String.le
         (select_rows (λ ur, UserRole_UserID ur = userID ∧ is_Some (t_roles d !! UserRole_RoleID ur))
            (t_user_roles d));
  match t_roles d !! UserRole_RoleID ur with
  | None => []
  | Some r =>
      match pgRoleStore_ListPrivileges (Role_ID r) d with
      | [] => [mkRoleDetailRow r (UserRole_GrantedAt ur) None]
      | ps => (λ p, mkRoleDetailRow r (UserRole_GrantedAt ur) (Some p)) <$> ps
      end
  end.

(** The loop of [ListDetailedByUser]: [index] maps a role id to its position in
    the output. *)
Fixpoint group_rows (rows : list role_detail_row) (out : list UserRoleDetail)
    (index : gmap string nat) : list UserRoleDetail :=
  match rows with
  | [] => out
  | row :: rows' =>
      let rid := Role_ID (rdr_role row) in
      let '(i, out1, index1) :=
        match index !! rid with
        | Some i => (i, out, index)
        | None => (length out, out ++ [mkUserRoleDetail (rdr_role row) [] (rdr_granted row)],
                   <[rid := length out]> index)
        end in
      let out2 :=
        match rdr_privilege row with
        | Some p =>
            alter (λ u, mkUserRoleDetail (URD_Role u) (URD_Privileges u ++ [p]) (URD_GrantedAt u)) i out1
        | None => out1
        end in
      group_rows rows' out2 index1
  end.

Definition pgUserRoleStore_ListDetailedByUser (userID : string) (d : DB) : list UserRoleDetail :=
  group_rows (role_detail_rows userID d) [] ∅.

(** The keys a role carries. *)
Definition role_keys (roleID : string) (d : DB) : list PrivilegeKey :=
  RolePrivilege_Privilege <$> select_rows (λ rp, RolePrivilege_RoleID rp = roleID) (t_role_privileges d).

Definition pgUserRoleStore_PrivilegesForUser (userID : string) (d : DB) : list PrivilegeKey :=
  remove_dups (ur ← select_rows (λ ur, UserRole_UserID ur = userID) (t_user_roles d);
               role_keys (UserRole_RoleID ur) d).

(** The user_roles rows whose role carries the privilege. *)
Definition role_grants (privilege : PrivilegeKey) (d : DB) : list UserRole :=
  select_rows (λ ur, is_Some (t_role_privileges d !! (UserRole_RoleID ur, privilege))) (t_user_roles d).

Definition pgUserRoleStore_UsersHoldingPrivilege (privilege : PrivilegeKey) (d : DB) : list string :=
  remove_dups (UserRole_UserID <$> role_grants privilege d).

(** The UNION in the query of [countUsersHoldingPrivilegeTx]. *)
Definition privilege_holders (key : PrivilegeKey) (d : DB) : gset string :=
  list_to_set (UserPrivilege_UserID <$>
     select_rows (λ p, UserPrivilege_Privilege p = key) (t_user_privileges d)) ∪
  list_to_set (UserRole_UserID <$> role_grants key d).

(** The COUNT of [userHasPrivilegeOutsideTx] is positive. *)
Definition has_privilege_outside (userID : string) (key : PrivilegeKey) (excludeRoleID : string) (d : DB) : bool :=
  bool_decide (is_Some (pgUserPrivilegeStore_Find userID key d) ∨
    Exists (λ ur, UserRole_UserID ur = userID ∧ UserRole_RoleID ur ≠ excludeRoleID) (role_grants key d)).

(** ** audit_event_store.go *)

Definition pgAuditEventStore_FindByID (id : string) (d : DB) : option AuditEvent :=
  t_audit_events d !! id.

Definition pgAuditEventStore_FindByEntity (entityID : string) (d : DB) : list AuditEvent :=
  order_by AuditEvent_EventTime Z.le
    (select_rows (λ e, AuditEvent_EntityID e = entityID) (t_audit_events d)).

Definition pgAuditEventStore_FindByEventType (eventType : string) (d : DB) : list AuditEvent :=
  order_by AuditEvent_EventTime Z.le
    (select_rows (λ e, AuditEvent_EventType e = eventType) (t_audit_events d)).

Definition pgAuditEventStore_ListAll (d : DB) : list AuditEvent :=
  order_by AuditEvent_EventTime Z.le (all_rows (t_audit_events d)).

(** trace_id is CHAR(32), the span ids CHAR(16): stored blank-padded. *)
Definition audit_row (e : AuditEvent) : AuditEvent :=
  mkAuditEvent (AuditEvent_ID e) (AuditEvent_EventType e) (AuditEvent_EventTime e)
    (AuditEvent_EntityID e) (AuditEvent_EntityType e) (AuditEvent_Details e) (AuditEvent_Source e)
    (bpchar 32 (AuditEvent_TraceID e)) (bpchar 16 (AuditEvent_SpanID e))
    (bpchar 16 (AuditEvent_ParentSpanID e)).

Definition audit_fits (e : AuditEvent) : Prop :=
  fits [(255, AuditEvent_ID e); (128, AuditEvent_EventType e); (255, AuditEvent_EntityID e);
        (64, AuditEvent_EntityType e); (64, AuditEvent_Source e); (32, AuditEvent_TraceID e);
        (16, AuditEvent_SpanID e); (16, AuditEvent_ParentSpanID e)].
#[export] Instance audit_fits_dec e : Decision (audit_fits e) := fits_dec _.

Definition pgAuditEventStore_Create (e : AuditEvent) : stmt := λ d,
  ensure audit_fits e orelse StringTooLong;
  ensure t_audit_events d !! AuditEvent_ID e = None orelse UniqueViolation "audit_events_pkey";
  inr (set_audit_events (<[AuditEvent_ID e := audit_row e]> (t_audit_events d)) d).

Definition pgAuditEventStore_Delete (id : string) : stmt := λ d,
  inr (set_audit_events (delete id (t_audit_events d)) d).

#[export] Hint Unfold
  pgRoleStore_Create pgRoleStore_Update pgRoleStore_Delete pgRoleStore_AddPrivilege
  pgRoleStore_RemovePrivilege pgUserPrivilegeStore_Create pgUserPrivilegeStore_Delete
  pgUserRoleStore_Create pgUserRoleStore_Delete pgAuditEventStore_Create pgAuditEventStore_Delete : stmts.

(** ** Integrity *)

Lemma pgRoleStore_Create_integrity r now :
  StmtRel (pres integrity) (pgRoleStore_Create r now).
Proof. unfold pgRoleStore_Create. solve_integrity. Qed.

Lemma pgRoleStore_Update_integrity r :
  StmtRel (pres integrity) (pgRoleStore_Update r).
Proof. unfold pgRoleStore_Update. solve_integrity. Qed.

Lemma pgRoleStore_Delete_integrity id :
  StmtRel (pres integrity) (pgRoleStore_Delete id).
Proof. unfold pgRoleStore_Delete. solve_integrity. Qed.

Lemma pgRoleStore_AddPrivilege_integrity r p :
  StmtRel (pres integrity) (pgRoleStore_AddPrivilege r p).
Proof. unfold pgRoleStore_AddPrivilege. solve_integrity. Qed.

Lemma pgRoleStore_RemovePrivilege_integrity r p :
  StmtRel (pres integrity) (pgRoleStore_RemovePrivilege r p).
Proof. unfold pgRoleStore_RemovePrivilege. solve_integrity. Qed.

Lemma pgUserPrivilegeStore_Create_integrity r :
  StmtRel (pres integrity) (pgUserPrivilegeStore_Create r).
Proof. unfold pgUserPrivilegeStore_Create. solve_integrity. Qed.

Lemma pgUserPrivilegeStore_Delete_integrity u p :
  StmtRel (pres integrity) (pgUserPrivilegeStore_Delete u p).
Proof. unfold pgUserPrivilegeStore_Delete. solve_integrity. Qed.

Lemma pgUserRoleStore_Create_integrity r :
  StmtRel (pres integrity) (pgUserRoleStore_Create r).
Proof. unfold pgUserRoleStore_Create. solve_integrity. Qed.

Lemma pgUserRoleStore_Delete_integrity u r :
  StmtRel (pres integrity) (pgUserRoleStore_Delete u r).
Proof. unfold pgUserRoleStore_Delete. solve_integrity. Qed.

Lemma pgAuditEventStore_Create_integrity e :
  StmtRel (pres integrity) (pgAuditEventStore_Create e).
Proof. unfold pgAuditEventStore_Create. solve_integrity. Qed.

Lemma pgAuditEventStore_Delete_integrity id :
  StmtRel (pres integrity) (pgAuditEventStore_Delete id).
Proof. unfold pgAuditEventStore_Delete. solve_integrity. Qed.

#[export] Hint Resolve
  pgRoleStore_Create_integrity pgRoleStore_Update_integrity pgRoleStore_Delete_integrity
  pgRoleStore_AddPrivilege_integrity pgRoleStore_RemovePrivilege_integrity
  pgUserPrivilegeStore_Create_integrity pgUserPrivilegeStore_Delete_integrity
  pgUserRoleStore_Create_integrity pgUserRoleStore_Delete_integrity
  pgAuditEventStore_Create_integrity pgAuditEventStore_Delete_integrity : stmt.
