(* ===== verification/StoreAllocation.v ===== *)
(** * Stores: allocations, resources, rates, diffs, change requests

    internal/store/compute_allocation{,_resource,_resource_mapping,
    _resource_rate,_diff,_change_request,_change_request_event}_store.go, and
    that every write statement preserves [integrity]. *)

From S2P Require Import Prelude GoError Models Schema Effects EffectsLogic StoreIdentity StoreProject.
From stdpp Require Import base gmap sets list strings.
From Stdlib Require Import ZArith.

(** ** compute_allocation_store.go *)

Record AllocationListFilter := mkAllocationListFilter {
  ALF_ProjectID : string;
  ALF_Status : string;
  ALF_Query : string;
  ALF_Limit : Z;
  ALF_Offset : Z }.

Definition pgComputeAllocationStore_FindByID (id : string) (d : DB) : option ComputeAllocation :=
  t_compute_allocations d !! id.

Definition pgComputeAllocationStore_FindByProject (projectID : string) (d : DB) : list ComputeAllocation :=
  select_rows (λ a, ComputeAllocation_ProjectID a = projectID) (t_compute_allocations d).

Definition pgComputeAllocationStore_FindByCluster (clusterID : string) (d : DB) : list ComputeAllocation :=
  select_rows (λ a, ComputeAllocation_ComputeClusterID a = clusterID) (t_compute_allocations d).

Definition allocation_fits (a : ComputeAllocation) : Prop :=
  fits [(255, ComputeAllocation_ID a); (255, ComputeAllocation_ProjectID a); (255, ComputeAllocation_Name a);
        (64, ComputeAllocation_Status a); (255, ComputeAllocation_ComputeClusterID a)].
#[export] Instance allocation_fits_dec a : Decision (allocation_fits a) := fits_dec _.

Definition pgComputeAllocationStore_Create (a : ComputeAllocation) : stmt := λ d,
  ensure allocation_fits a orelse StringTooLong;
  ensure t_compute_allocations d !! ComputeAllocation_ID a = None
    orelse UniqueViolation "compute_allocations_pkey";
  ensure has_parent (fk_compute_allocations_project a) (t_projects d)
    orelse ForeignKeyViolation "fk_compute_allocations_project";
  ensure has_parent (fk_compute_allocations_cluster a) (t_compute_clusters d)
    orelse ForeignKeyViolation "fk_compute_allocations_cluster";
  inr (set_compute_allocations (<[ComputeAllocation_ID a := a]> (t_compute_allocations d)) d).

Definition pgComputeAllocationStore_Update (a : ComputeAllocation) : stmt := λ d,
  match t_compute_allocations d !! ComputeAllocation_ID a with
  | None => inr d
  | Some _ =>
      ensure allocation_fits a orelse StringTooLong;
      ensure has_parent (fk_compute_allocations_project a) (t_projects d)
        orelse ForeignKeyViolation "fk_compute_allocations_project";
      ensure has_parent (fk_compute_allocations_cluster a) (t_compute_clusters d)
        orelse ForeignKeyViolation "fk_compute_allocations_cluster";
      inr (set_compute_allocations (<[ComputeAllocation_ID a := a]> (t_compute_allocations d)) d)
  end.

(** Mappings, diffs, change requests and memberships cascade; the overrides of
    a membership go with it. Usages and change-request events have no foreign
    key. *)
Definition pgComputeAllocationStore_Delete (id : string) : stmt := λ d,
  let ms := cascade fk_compute_allocation_memberships_allocation {[id]} (t_memberships d) in
  inr (set_compute_allocations (delete id (t_compute_allocations d))
      (set_resource_mappings (cascade fk_carm_allocation {[id]} (t_resource_mappings d))
      (set_diffs (cascade fk_compute_allocation_diffs_allocation {[id]} (t_diffs d))
      (set_change_requests
         (cascade fk_compute_allocation_change_requests_allocation {[id]} (t_change_requests d))
      (set_memberships ms
      (set_overrides (cascade fk_camro_membership (removed_keys (t_memberships d) ms) (t_overrides d)) d)))))).

(** The user has an active membership on the allocation, or a governance role
    on its project. *)
Definition participates (userID : string) (d : DB) (a : ComputeAllocation) : Prop :=
  select_rows (λ cam, Membership_ComputeAllocationID cam = ComputeAllocation_ID a ∧
                      Membership_UserID cam = userID ∧
                      Membership_MembershipStatus cam = "ACTIVE") (t_memberships d) ≠ [] ∨
  from_option (λ pm, ProjectMembership_Role pm ∈ GovernanceRoles) False
    (t_project_memberships d !! (ComputeAllocation_ProjectID a, userID)).
#[export] Instance participates_dec u d a : Decision (participates u d a).
Proof.
  unfold participates. apply or_dec.
  - destruct (select_rows _ _); [right|left]; abstract naive_solver.
  - destruct (t_project_memberships d !! _); simpl; apply _.
Defined.

Definition pgComputeAllocationStore_FindByParticipant (userID : string) (d : DB) : list ComputeAllocation :=
  order_by ComputeAllocation_StartTime Z.ge
    (select_rows (participates userID d) (t_compute_allocations d)).

Definition allocation_matches (f : AllocationListFilter) (a : ComputeAllocation) : Prop :=
  (ALF_ProjectID f ≠ "" → ComputeAllocation_ProjectID a = ALF_ProjectID f) ∧
  (ALF_Status f ≠ "" → ComputeAllocation_Status a = ALF_Status f) ∧
  (ALF_Query f ≠ "" → ilike_contains (ALF_Query f) (ComputeAllocation_Name a) = true).
#[export] Instance allocation_matches_dec f a : Decision (allocation_matches f a).
Proof. unfold allocation_matches. apply _. Defined.

Definition pgComputeAllocationStore_List (f : AllocationListFilter) (d : DB) : list ComputeAllocation * nat :=
  let rows := select_rows (allocation_matches f) (t_compute_allocations d) in
  (page (ALF_Limit f) (ALF_Offset f) (order_by ComputeAllocation_StartTime Z.ge rows), length rows).

(** ** compute_allocation_resource_store.go *)

Definition pgComputeAllocationResourceStore_FindByID (id : string) (d : DB) : option ComputeAllocationResource :=
  t_resources d !! id.

Definition pgComputeAllocationResourceStore_FindByNameAndCluster (name clusterID : string) (d : DB) :
    option ComputeAllocationResource :=
  select_one (λ r, Resource_Name r = name ∧ Resource_ComputeClusterID r = clusterID) (t_resources d).

Definition pgComputeAllocationResourceStore_FindByTypeAndCluster (resourceType clusterID : string) (d : DB) :
    list ComputeAllocationResource :=
  order_by Resource_Name String.le
    (select_rows (λ r, Resource_ResourceType r = resourceType ∧ Resource_ComputeClusterID r = clusterID)
       (t_resources d)).

Definition pgComputeAllocationResourceStore_List (d : DB) : list ComputeAllocationResource :=
  order_by Resource_Name String.le (all_rows (t_resources d)).

Definition resource_fits (r : ComputeAllocationResource) : Prop :=
  fits [(255, Resource_ID r); (255, Resource_Name r); (64, Resource_ResourceType r);
        (255, Resource_ComputeClusterID r)].
#[export] Instance resource_fits_dec r : Decision (resource_fits r) := fits_dec _.

Definition pgComputeAllocationResourceStore_Create (r : ComputeAllocationResource) : stmt := λ d,
  ensure resource_fits r orelse StringTooLong;
  ensure t_resources d !! Resource_ID r = None orelse UniqueViolation "compute_allocation_resources_pkey";
  ensure free uq_compute_allocation_resources_cluster_name (Resource_ID r) r (t_resources d)
    orelse UniqueViolation "uq_compute_allocation_resources_cluster_name";
  ensure has_parent (fk_compute_allocation_resources_cluster r) (t_compute_clusters d)
    orelse ForeignKeyViolation "fk_compute_allocation_resources_cluster";
  inr (set_resources (<[Resource_ID r := r]> (t_resources d)) d).

Definition pgComputeAllocationResourceStore_Update (r : ComputeAllocationResource) : stmt := λ d,
  match t_resources d !! Resource_ID r with
  | None => inr d
  | Some _ =>
      ensure resource_fits r orelse StringTooLong;
      ensure free uq_compute_allocation_resources_cluster_name (Resource_ID r) r (t_resources d)
        orelse UniqueViolation "uq_compute_allocation_resources_cluster_name";
      ensure has_parent (fk_compute_allocation_resources_cluster r) (t_compute_clusters d)
        orelse ForeignKeyViolation "fk_compute_allocation_resources_cluster";
      inr (set_resources (<[Resource_ID r := r]> (t_resources d)) d)
  end.

(** Mappings, rates and overrides cascade. *)
Definition pgComputeAllocationResourceStore_Delete (id : string) : stmt := λ d,
  inr (set_resources (delete id (t_resources d))
      (set_resource_mappings (cascade fk_carm_resource {[id]} (t_resource_mappings d))
      (set_resource_rates (cascade fk_carr_rates_resource {[id]} (t_resource_rates d))
      (set_overrides (cascade fk_camro_resource {[id]} (t_overrides d)) d)))).

(** ** compute_allocation_resource_mapping_store.go *)

Definition pgComputeAllocationResourceMappingStore_FindByID (id : string) (d : DB) :
    option ComputeAllocationResourceMapping :=
  t_resource_mappings d !! id.

Definition pgComputeAllocationResourceMappingStore_FindByPair (allocationID resourceID : string) (d : DB) :
    option ComputeAllocationResourceMapping :=
  select_one (λ m, Mapping_ComputeAllocationID m = allocationID ∧
                   Mapping_ComputeAllocationResourceID m = resourceID) (t_resource_mappings d).

Definition pgComputeAllocationResourceMappingStore_FindResourcesByAllocation (allocationID : string) (d : DB) :
    list ComputeAllocationResource :=
  order_by Resource_Name String.le
    (omap (λ m, t_resources d !! Mapping_ComputeAllocationResourceID m)
       (select_rows (λ m, Mapping_ComputeAllocationID m = allocationID) (t_resource_mappings d))).

Definition pgComputeAllocationResourceMappingStore_FindAllocationsByResource (resourceID : string) (d : DB) :
    list ComputeAllocation :=
  order_by ComputeAllocation_Name String.le
    (omap (λ m, t_compute_allocations d !! Mapping_ComputeAllocationID m)
       (select_rows (λ m, Mapping_ComputeAllocationResourceID m = resourceID) (t_resource_mappings d))).

Definition pgComputeAllocationResourceMappingStore_Create (m : ComputeAllocationResourceMapping) : stmt := λ d,
  ensure fits [(255, Mapping_ID m); (255, Mapping_ComputeAllocationID m);
               (255, Mapping_ComputeAllocationResourceID m)] orelse StringTooLong;
  ensure t_resource_mappings d !! Mapping_ID m = None
    orelse UniqueViolation "compute_allocation_resource_mappings_pkey";
  ensure free uq_carm_pair (Mapping_ID m) m (t_resource_mappings d) orelse UniqueViolation "uq_carm_pair";
  ensure has_parent (fk_carm_allocation m) (t_compute_allocations d)
    orelse ForeignKeyViolation "fk_carm_allocation";
  ensure has_parent (fk_carm_resource m) (t_resources d) orelse ForeignKeyViolation "fk_carm_resource";
  inr (set_resource_mappings (<[Mapping_ID m := m]> (t_resource_mappings d)) d).

(** UPDATE ... SET resource_amount, resource_time: the pair is kept. *)
Definition pgComputeAllocationResourceMappingStore_Update (m : ComputeAllocationResourceMapping) : stmt := λ d,
  match t_resource_mappings d !! Mapping_ID m with
  | None => inr d
  | Some old =>
      let row := mkComputeAllocationResourceMapping (Mapping_ID m) (Mapping_ComputeAllocationID old)
                   (Mapping_ComputeAllocationResourceID old) (Mapping_ResourceAmount m) (Mapping_ResourceTime m) in
      inr (set_resource_mappings (<[Mapping_ID m := row]> (t_resource_mappings d)) d)
  end.

Definition pgComputeAllocationResourceMappingStore_DeleteByPair (allocationID resourceID : string) : stmt := λ d,
  inr (set_resource_mappings
         (filter (λ kr, ¬ (Mapping_ComputeAllocationID kr.2 = allocationID ∧
                           Mapping_ComputeAllocationResourceID kr.2 = resourceID)) (t_resource_mappings d)) d).

(** ** compute_allocation_resource_rate_store.go *)

Definition pgComputeAllocationResourceRateStore_FindByID (id : string) (d : DB) :
    option ComputeAllocationResourceRate :=
  t_resource_rates d !! id.

Definition pgComputeAllocationResourceRateStore_FindByResource (resourceID : string) (d : DB) :
    list ComputeAllocationResourceRate :=
  order_by Rate_StartTime Z.le
    (select_rows (λ r, Rate_ComputeAllocationResourceID r = resourceID) (t_resource_rates d)).

(** start_time <= at AND end_time > at ORDER BY start_time DESC LIMIT 1. *)
Definition pgComputeAllocationResourceRateStore_FindEffective (resourceID : string) (at_time : Time) (d : DB) :
    option ComputeAllocationResourceRate :=
  head (order_by Rate_StartTime Z.ge
    (select_rows (λ r, Rate_ComputeAllocationResourceID r = resourceID ∧
                       (Rate_StartTime r <= at_time)%Z ∧ (Rate_EndTime r > at_time)%Z)
       (t_resource_rates d))).

Definition pgComputeAllocationResourceRateStore_Create (r : ComputeAllocationResourceRate) : stmt := λ d,
  ensure fits [(255, Rate_ID r); (255, Rate_ComputeAllocationResourceID r)] orelse StringTooLong;
  ensure t_resource_rates d !! Rate_ID r = None
    orelse UniqueViolation "compute_allocation_resource_rates_pkey";
  ensure has_parent (fk_carr_rates_resource r) (t_resources d)
    orelse ForeignKeyViolation "fk_carr_rates_resource";
  inr (set_resource_rates (<[Rate_ID r := r]> (t_resource_rates d)) d).

Definition pgComputeAllocationResourceRateStore_Update (r : ComputeAllocationResourceRate) : stmt := λ d,
  match t_resource_rates d !! Rate_ID r with
  | None => inr d
  | Some old =>
      let row := mkComputeAllocationResourceRate (Rate_ID r) (Rate_ComputeAllocationResourceID old)
                   (Rate_Rate r) (Rate_StartTime r) (Rate_EndTime r) in
      inr (set_resource_rates (<[Rate_ID r := row]> (t_resource_rates d)) d)
  end.

Definition pgComputeAllocationResourceRateStore_Delete (id : string) : stmt := λ d,
  inr (set_resource_rates (delete id (t_resource_rates d)) d).

(** ** compute_allocation_diff_store.go *)

Definition pgComputeAllocationDiffStore_FindByID (id : string) (d : DB) : option ComputeAllocationDiff :=
  t_diffs d !! id.

Definition pgComputeAllocationDiffStore_FindByAllocation (allocationID : string) (d : DB) :
    list ComputeAllocationDiff :=
  order_by Diff_Timestamp Z.le (select_rows (λ x, Diff_ComputeAllocationID x = allocationID) (t_diffs d)).

Definition pgComputeAllocationDiffStore_FindLatestByAllocation (allocationID : string) (d : DB) :
    option ComputeAllocationDiff :=
  head (order_by Diff_Timestamp Z.ge (select_rows (λ x, Diff_ComputeAllocationID x = allocationID) (t_diffs d))).

Definition pgComputeAllocationDiffStore_Create (x : ComputeAllocationDiff) : stmt := λ d,
  ensure fits [(255, Diff_ID x); (255, Diff_ComputeAllocationID x); (64, Diff_DiffType x); (64, Diff_Status x)]
    orelse StringTooLong;
  ensure t_diffs d !! Diff_ID x = None orelse UniqueViolation "compute_allocation_diffs_pkey";
  ensure has_parent (fk_compute_allocation_diffs_allocation x) (t_compute_allocations d)
    orelse ForeignKeyViolation "fk_compute_allocation_diffs_allocation";
  inr (set_diffs (<[Diff_ID x := x]> (t_diffs d)) d).

Definition pgComputeAllocationDiffStore_Delete (id : string) : stmt := λ d,
  inr (set_diffs (delete id (t_diffs d)) d).

(** ** compute_allocation_change_request_store.go *)

Record ChangeRequestListFilter := mkChangeRequestListFilter {
  CRLF_Status : string;
  CRLF_Limit : Z }.

Definition pgComputeAllocationChangeRequestStore_FindByID (id : string) (d : DB) :
    option ComputeAllocationChangeRequest :=
  t_change_requests d !! id.

Definition pgComputeAllocationChangeRequestStore_FindByAllocation (allocationID : string) (d : DB) :
    list ComputeAllocationChangeRequest :=
  order_by ChangeRequest_Timestamp Z.le
    (select_rows (λ c, ChangeRequest_ComputeAllocationID c = allocationID) (t_change_requests d)).

Definition pgComputeAllocationChangeRequestStore_FindByRequester (requesterID : string) (d : DB) :
    list ComputeAllocationChangeRequest :=
  order_by ChangeRequest_Timestamp Z.le
    (select_rows (λ c, ChangeRequest_RequesterID c = requesterID) (t_change_requests d)).

Definition change_request_fits (c : ComputeAllocationChangeRequest) : Prop :=
  fits [(255, ChangeRequest_ID c); (255, ChangeRequest_ComputeAllocationID c);
        (64, ChangeRequest_RequestedStatus c); (64, ChangeRequest_ChangeStatus c);
        (255, ChangeRequest_RequesterID c); (255, ChangeRequest_ApproverID c)].
#[export] Instance change_request_fits_dec c : Decision (change_request_fits c) := fits_dec _.

Definition pgComputeAllocationChangeRequestStore_Create (c : ComputeAllocationChangeRequest) : stmt := λ d,
  ensure change_request_fits c orelse StringTooLong;
  ensure t_change_requests d !! ChangeRequest_ID c = None
    orelse UniqueViolation "compute_allocation_change_requests_pkey";
  ensure has_parent (fk_compute_allocation_change_requests_allocation c) (t_compute_allocations d)
    orelse ForeignKeyViolation "fk_compute_allocation_change_requests_allocation";
  inr (set_change_requests (<[ChangeRequest_ID c := c]> (t_change_requests d)) d).

Definition pgComputeAllocationChangeRequestStore_Update (c : ComputeAllocationChangeRequest) : stmt := λ d,
  match t_change_requests d !! ChangeRequest_ID c with
  | None => inr d
  | Some _ =>
      ensure change_request_fits c orelse StringTooLong;
      ensure has_parent (fk_compute_allocation_change_requests_allocation c) (t_compute_allocations d)
        orelse ForeignKeyViolation "fk_compute_allocation_change_requests_allocation";
      inr (set_change_requests (<[ChangeRequest_ID c := c]> (t_change_requests d)) d)
  end.

Definition pgComputeAllocationChangeRequestStore_Delete (id : string) : stmt := λ d,
  inr (set_change_requests (delete id (t_change_requests d)) d).

Definition pgComputeAllocationChangeRequestStore_List (f : ChangeRequestListFilter) (d : DB) :
    list ComputeAllocationChangeRequest :=
  take (Z.to_nat (clamp_limit (CRLF_Limit f)))
    (order_by ChangeRequest_Timestamp Z.ge
       (if decide (CRLF_Status f ≠ "")
        then select_rows (λ c, ChangeRequest_ChangeStatus c = CRLF_Status f) (t_change_requests d)
        else all_rows (t_change_requests d))).

(** ** compute_allocation_change_request_event_store.go *)

Definition pgComputeAllocationChangeRequestEventStore_FindByID (id : string) (d : DB) :
    option ComputeAllocationChangeRequestEvent :=
  t_change_request_events d !! id.

Definition pgComputeAllocationChangeRequestEventStore_FindByChangeRequest (changeRequestID : string) (d : DB) :
    list ComputeAllocationChangeRequestEvent :=
  order_by ChangeEvent_Timestamp Z.le
    (select_rows (λ e, ChangeEvent_ComputeAllocationChangeRequestID e = changeRequestID)
       (t_change_request_events d)).

Definition pgComputeAllocationChangeRequestEventStore_FindLatestByChangeRequest (changeRequestID : string) (d : DB) :
    option ComputeAllocationChangeRequestEvent :=
  head (order_by ChangeEvent_Timestamp Z.ge
    (select_rows (λ e, ChangeEvent_ComputeAllocationChangeRequestID e = changeRequestID)
       (t_change_request_events d))).

(** The table has no foreign key. *)
Definition pgComputeAllocationChangeRequestEventStore_Create (e : ComputeAllocationChangeRequestEvent) : stmt := λ d,
  ensure fits [(255, ChangeEvent_ID e); (255, ChangeEvent_ComputeAllocationChangeRequestID e);
               (64, ChangeEvent_EventType e)] orelse StringTooLong;
  ensure t_change_request_events d !! ChangeEvent_ID e = None
    orelse UniqueViolation "compute_allocation_change_request_events_pkey";
  inr (set_change_request_events (<[ChangeEvent_ID e := e]> (t_change_request_events d)) d).

Definition pgComputeAllocationChangeRequestEventStore_Delete (id : string) : stmt := λ d,
  inr (set_change_request_events (delete id (t_change_request_events d)) d).

#[export] Hint Unfold
  pgComputeAllocationStore_Create pgComputeAllocationStore_Update pgComputeAllocationStore_Delete
  pgComputeAllocationResourceStore_Create pgComputeAllocationResourceStore_Update
  pgComputeAllocationResourceStore_Delete pgComputeAllocationResourceMappingStore_Create
  pgComputeAllocationResourceMappingStore_Update
  pgComputeAllocationResourceMappingStore_DeleteByPair pgComputeAllocationResourceRateStore_Create
  pgComputeAllocationResourceRateStore_Update pgComputeAllocationResourceRateStore_Delete
  pgComputeAllocationDiffStore_Create pgComputeAllocationDiffStore_Delete
  pgComputeAllocationChangeRequestStore_Create pgComputeAllocationChangeRequestStore_Update
  pgComputeAllocationChangeRequestStore_Delete pgComputeAllocationChangeRequestEventStore_Create
  pgComputeAllocationChangeRequestEventStore_Delete : stmts.

(** ** Integrity *)

Lemma pgComputeAllocationStore_Create_integrity a :
  StmtRel (pres integrity) (pgComputeAllocationStore_Create a).
Proof. unfold pgComputeAllocationStore_Create. solve_integrity. Qed.

Lemma pgComputeAllocationStore_Update_integrity a :
  StmtRel (pres integrity) (pgComputeAllocationStore_Update a).
Proof. unfold pgComputeAllocationStore_Update. solve_integrity. Qed.

Lemma pgComputeAllocationStore_Delete_integrity id :
  StmtRel (pres integrity) (pgComputeAllocationStore_Delete id).
Proof. unfold pgComputeAllocationStore_Delete. solve_integrity. Qed.

Lemma pgComputeAllocationResourceStore_Create_integrity r :
  StmtRel (pres integrity) (pgComputeAllocationResourceStore_Create r).
Proof. unfold pgComputeAllocationResourceStore_Create. solve_integrity. Qed.

Lemma pgComputeAllocationResourceStore_Update_integrity r :
  StmtRel (pres integrity) (pgComputeAllocationResourceStore_Update r).
Proof. unfold pgComputeAllocationResourceStore_Update. solve_integrity. Qed.

Lemma pgComputeAllocationResourceStore_Delete_integrity id :
  StmtRel (pres integrity) (pgComputeAllocationResourceStore_Delete id).
Proof. unfold pgComputeAllocationResourceStore_Delete. solve_integrity. Qed.

Lemma pgComputeAllocationResourceMappingStore_Create_integrity m :
  StmtRel (pres integrity) (pgComputeAllocationResourceMappingStore_Create m).
Proof. unfold pgComputeAllocationResourceMappingStore_Create. solve_integrity. Qed.

Lemma pgComputeAllocationResourceMappingStore_Update_integrity m :
  StmtRel (pres integrity) (pgComputeAllocationResourceMappingStore_Update m).
Proof. unfold pgComputeAllocationResourceMappingStore_Update. solve_integrity. Qed.

Lemma pgComputeAllocationResourceMappingStore_DeleteByPair_integrity a r :
  StmtRel (pres integrity) (pgComputeAllocationResourceMappingStore_DeleteByPair a r).
Proof. unfold pgComputeAllocationResourceMappingStore_DeleteByPair. solve_integrity. Qed.

Lemma pgComputeAllocationResourceRateStore_Create_integrity r :
  StmtRel (pres integrity) (pgComputeAllocationResourceRateStore_Create r).
Proof. unfold pgComputeAllocationResourceRateStore_Create. solve_integrity. Qed.

Lemma pgComputeAllocationResourceRateStore_Update_integrity r :
  StmtRel (pres integrity) (pgComputeAllocationResourceRateStore_Update r).
Proof. unfold pgComputeAllocationResourceRateStore_Update. solve_integrity. Qed.

Lemma pgComputeAllocationResourceRateStore_Delete_integrity id :
  StmtRel (pres integrity) (pgComputeAllocationResourceRateStore_Delete id).
Proof. unfold pgComputeAllocationResourceRateStore_Delete. solve_integrity. Qed.

Lemma pgComputeAllocationDiffStore_Create_integrity x :
  StmtRel (pres integrity) (pgComputeAllocationDiffStore_Create x).
Proof. unfold pgComputeAllocationDiffStore_Create. solve_integrity. Qed.

Lemma pgComputeAllocationDiffStore_Delete_integrity id :
  StmtRel (pres integrity) (pgComputeAllocationDiffStore_Delete id).
Proof. unfold pgComputeAllocationDiffStore_Delete. solve_integrity. Qed.

Lemma pgComputeAllocationChangeRequestStore_Create_integrity c :
  StmtRel (pres integrity) (pgComputeAllocationChangeRequestStore_Create c).
Proof. unfold pgComputeAllocationChangeRequestStore_Create. solve_integrity. Qed.

Lemma pgComputeAllocationChangeRequestStore_Update_integrity c :
  StmtRel (pres integrity) (pgComputeAllocationChangeRequestStore_Update c).
Proof. unfold pgComputeAllocationChangeRequestStore_Update. solve_integrity. Qed.

Lemma pgComputeAllocationChangeRequestStore_Delete_integrity id :
  StmtRel (pres integrity) (pgComputeAllocationChangeRequestStore_Delete id).
Proof. unfold pgComputeAllocationChangeRequestStore_Delete. solve_integrity. Qed.

Lemma pgComputeAllocationChangeRequestEventStore_Create_integrity e :
  StmtRel (pres integrity) (pgComputeAllocationChangeRequestEventStore_Create e).
Proof. unfold pgComputeAllocationChangeRequestEventStore_Create. solve_integrity. Qed.

Lemma pgComputeAllocationChangeRequestEventStore_Delete_integrity id :
  StmtRel (pres integrity) (pgComputeAllocationChangeRequestEventStore_Delete id).
Proof. unfold pgComputeAllocationChangeRequestEventStore_Delete. solve_integrity. Qed.

#[export] Hint Resolve
  pgComputeAllocationStore_Create_integrity pgComputeAllocationStore_Update_integrity
  pgComputeAllocationStore_Delete_integrity pgComputeAllocationResourceStore_Create_integrity
  pgComputeAllocationResourceStore_Update_integrity
  pgComputeAllocationResourceStore_Delete_integrity
  pgComputeAllocationResourceMappingStore_Create_integrity
  pgComputeAllocationResourceMappingStore_Update_integrity
  pgComputeAllocationResourceMappingStore_DeleteByPair_integrity
  pgComputeAllocationResourceRateStore_Create_integrity
  pgComputeAllocationResourceRateStore_Update_integrity
  pgComputeAllocationResourceRateStore_Delete_integrity
  pgComputeAllocationDiffStore_Create_integrity pgComputeAllocationDiffStore_Delete_integrity
  pgComputeAllocationChangeRequestStore_Create_integrity
  pgComputeAllocationChangeRequestStore_Update_integrity
  pgComputeAllocationChangeRequestStore_Delete_integrity
  pgComputeAllocationChangeRequestEventStore_Create_integrity
  pgComputeAllocationChangeRequestEventStore_Delete_integrity : stmt.
