(* ===== verification/StoreMembership.v ===== *)
(** * Stores: allocation memberships, resource overrides, usages

    internal/store/compute_allocation_{membership,
    membership_resource_override,usage}_store.go, and that every write
    statement preserves [integrity]. *)

From S2P Require Import Prelude GoError Models Schema Effects EffectsLogic StoreIdentity StoreProject.
From stdpp Require Import base gmap sets list strings.
From Stdlib Require Import ZArith.

(** ** compute_allocation_membership_store.go *)

Record MembershipWithUser := mkMembershipWithUser {
  MWU_Membership : ComputeAllocationMembership;
  MWU_Role : string;
  MWU_DisplayName : string;
  MWU_Email : string;
  MWU_AllocationName : string }.

Definition pgComputeAllocationMembershipStore_FindByID (id : string) (d : DB) : option ComputeAllocationMembership :=
  t_memberships d !! id.

Definition pgComputeAllocationMembershipStore_FindByPair (allocationID userID : string) (d : DB) :
    option ComputeAllocationMembership :=
  select_one (λ m, Membership_ComputeAllocationID m = allocationID ∧ Membership_UserID m = userID)
    (t_memberships d).

Definition pgComputeAllocationMembershipStore_FindByAllocation (allocationID : string) (d : DB) :
    list ComputeAllocationMembership :=
  order_by Membership_StartTime Z.le
    (select_rows (λ m, Membership_ComputeAllocationID m = allocationID) (t_memberships d)).

Definition pgComputeAllocationMembershipStore_FindByUser (userID : string) (d : DB) :
    list ComputeAllocationMembership :=
  order_by Membership_StartTime Z.le
    (select_rows (λ m, Membership_UserID m = userID) (t_memberships d)).

Definition membership_fits (m : ComputeAllocationMembership) : Prop :=
  fits [(255, Membership_ID m); (255, Membership_ComputeAllocationID m); (255, Membership_UserID m);
        (64, Membership_MembershipStatus m)].
#[export] Instance membership_fits_dec m : Decision (membership_fits m) := fits_dec _.

Definition pgComputeAllocationMembershipStore_Create (m : ComputeAllocationMembership) : stmt := λ d,
  ensure membership_fits m orelse StringTooLong;
  ensure t_memberships d !! Membership_ID m = None
    orelse UniqueViolation "compute_allocation_memberships_pkey";
  ensure free uq_compute_allocation_memberships_allocation_user (Membership_ID m) m (t_memberships d)
    orelse UniqueViolation "uq_compute_allocation_memberships_allocation_user";
  ensure has_parent (fk_compute_allocation_memberships_allocation m) (t_compute_allocations d)
    orelse ForeignKeyViolation "fk_compute_allocation_memberships_allocation";
  inr (set_memberships (<[Membership_ID m := m]> (t_memberships d)) d).

Definition pgComputeAllocationMembershipStore_Update (m : ComputeAllocationMembership) : stmt := λ d,
  match t_memberships d !! Membership_ID m with
  | None => inr d
  | Some _ =>
      ensure membership_fits m orelse StringTooLong;
      ensure free uq_compute_allocation_memberships_allocation_user (Membership_ID m) m (t_memberships d)
        orelse UniqueViolation "uq_compute_allocation_memberships_allocation_user";
      ensure has_parent (fk_compute_allocation_memberships_allocation m) (t_compute_allocations d)
        orelse ForeignKeyViolation "fk_compute_allocation_memberships_allocation";
      inr (set_memberships (<[Membership_ID m := m]> (t_memberships d)) d)
  end.

(** Rows of compute_allocation_memberships replaced by a part of them: the
    overrides of the removed rows cascade. *)
Definition keep_memberships (ms : gmap string ComputeAllocationMembership) (d : DB) : DB :=
  set_memberships ms
    (set_overrides (cascade fk_camro_membership (removed_keys (t_memberships d) ms) (t_overrides d)) d).

(** The DELETE of [ReassignUser]. *)
Definition cam_reassign_delete (fromUserID toUserID : string) : stmt := λ d,
  inr (keep_memberships
         (filter (λ kr, ¬ (Membership_UserID kr.2 = fromUserID ∧
                           is_Some (pgComputeAllocationMembershipStore_FindByPair
                                      (Membership_ComputeAllocationID kr.2) toUserID d))) (t_memberships d)) d).

Definition with_membership_user (userID : string) (m : ComputeAllocationMembership) : ComputeAllocationMembership :=
  mkComputeAllocationMembership (Membership_ID m) (Membership_ComputeAllocationID m) userID
    (Membership_StartTime m) (Membership_EndTime m) (Membership_MembershipStatus m).

(** The UPDATE of [ReassignUser]. *)
Definition cam_reassign_update (fromUserID toUserID : string) : stmt := λ d,
  let t' := update_where (λ m, Membership_UserID m = fromUserID) (with_membership_user toUserID)
              (t_memberships d) in
  ensure uniq uq_compute_allocation_memberships_allocation_user t'
    orelse UniqueViolation "uq_compute_allocation_memberships_allocation_user";
  inr (set_memberships t' d).

Definition pgComputeAllocationMembershipStore_ReassignUser `{Env} (fromUserID toUserID : string) : M unit :=
  _ ← exec (cam_reassign_delete fromUserID toUserID);
  exec (cam_reassign_update fromUserID toUserID).

Definition pgComputeAllocationMembershipStore_Delete (id : string) : stmt := λ d,
  inr (keep_memberships (delete id (t_memberships d)) d).

Definition displayName (first last email : string) : string :=
  let full :=
    if decide (first ≠ "" ∨ last ≠ "") then
      first +:+ (if decide (first ≠ "" ∧ last ≠ "") then " " else "") +:+ last
    else "" in
  if decide (full = "") then email else full.

(** COALESCE(pm.role, 'MEMBER') of the LEFT JOIN with project_memberships. *)
Definition project_role (d : DB) (projectID userID : string) : string :=
  from_option ProjectMembership_Role "MEMBER" (t_project_memberships d !! (projectID, userID)).

(** The inner joins with compute_allocations and users: a membership whose user
    row is gone yields no row. *)
Definition join_member (d : DB) (m : ComputeAllocationMembership) :
    option (ComputeAllocationMembership * ComputeAllocation * User) :=
  a ← t_compute_allocations d !! Membership_ComputeAllocationID m;
  u ← t_users d !! Membership_UserID m;
  Some (m, a, u).

Definition pgComputeAllocationMembershipStore_FindByAllocationWithUser (allocationID : string) (d : DB) :
    list MembershipWithUser :=
  (λ '(m, a, u), mkMembershipWithUser m (project_role d (ComputeAllocation_ProjectID a) (Membership_UserID m))
       (displayName (User_FirstName u) (User_LastName u) (User_Email u)) (User_Email u) "") <$>
  omap (join_member d) (pgComputeAllocationMembershipStore_FindByAllocation allocationID d).

(** ORDER BY u.email, ca.name: the sort is stable, so the last key first. *)
Definition pgComputeAllocationMembershipStore_FindByProjectWithUser (projectID : string) (d : DB) :
    list MembershipWithUser :=
  (λ '(m, a, u), mkMembershipWithUser m (project_role d (ComputeAllocation_ProjectID a) (Membership_UserID m))
       (displayName (User_FirstName u) (User_LastName u) (User_Email u)) (User_Email u)
       (ComputeAllocation_Name a)) <$>
  order_by (λ x, lower (User_Email x.2)) String.le
    (order_by (λ x, ComputeAllocation_Name x.1.2) String.le
      (filter (λ x, ComputeAllocation_ProjectID x.1.2 = projectID)
         (omap (join_member d) (all_rows (t_memberships d))))).

(** ** compute_allocation_membership_resource_override_store.go *)

Definition pgComputeAllocationMembershipResourceOverrideStore_FindByID (id : string) (d : DB) :
    option ComputeAllocationMembershipResourceOverride :=
  t_overrides d !! id.

Definition pgComputeAllocationMembershipResourceOverrideStore_FindByPair (membershipID resourceID : string) (d : DB) :
    option ComputeAllocationMembershipResourceOverride :=
  select_one (λ o, Override_ComputeAllocationMembershipID o = membershipID ∧
                   Override_ComputeAllocationResourceID o = resourceID) (t_overrides d).

Definition pgComputeAllocationMembershipResourceOverrideStore_FindByMembership (membershipID : string) (d : DB) :
    list ComputeAllocationMembershipResourceOverride :=
  order_by Override_ComputeAllocationResourceID String.le
    (select_rows (λ o, Override_ComputeAllocationMembershipID o = membershipID) (t_overrides d)).

Definition pgComputeAllocationMembershipResourceOverrideStore_FindByResource (resourceID : string) (d : DB) :
    list ComputeAllocationMembershipResourceOverride :=
  order_by Override_ComputeAllocationMembershipID String.le
    (select_rows (λ o, Override_ComputeAllocationResourceID o = resourceID) (t_overrides d)).

Definition override_fits (o : ComputeAllocationMembershipResourceOverride) : Prop :=
  fits [(255, Override_ID o); (255, Override_ComputeAllocationMembershipID o);
        (255, Override_ComputeAllocationResourceID o)].
#[export] Instance override_fits_dec o : Decision (override_fits o) := fits_dec _.

Definition pgComputeAllocationMembershipResourceOverrideStore_Create
    (o : ComputeAllocationMembershipResourceOverride) : stmt := λ d,
  ensure override_fits o orelse StringTooLong;
  ensure t_overrides d !! Override_ID o = None
    orelse UniqueViolation "compute_allocation_membership_resource_overrides_pkey";
  ensure free uq_camro_membership_resource (Override_ID o) o (t_overrides d)
    orelse UniqueViolation "uq_camro_membership_resource";
  ensure has_parent (fk_camro_membership o) (t_memberships d) orelse ForeignKeyViolation "fk_camro_membership";
  ensure has_parent (fk_camro_resource o) (t_resources d) orelse ForeignKeyViolation "fk_camro_resource";
  inr (set_overrides (<[Override_ID o := o]> (t_overrides d)) d).

Definition pgComputeAllocationMembershipResourceOverrideStore_Update
    (o : ComputeAllocationMembershipResourceOverride) : stmt := λ d,
  match t_overrides d !! Override_ID o with
  | None => inr d
  | Some _ =>
      ensure override_fits o orelse StringTooLong;
      ensure free uq_camro_membership_resource (Override_ID o) o (t_overrides d)
        orelse UniqueViolation "uq_camro_membership_resource";
      ensure has_parent (fk_camro_membership o) (t_memberships d) orelse ForeignKeyViolation "fk_camro_membership";
      ensure has_parent (fk_camro_resource o) (t_resources d) orelse ForeignKeyViolation "fk_camro_resource";
      inr (set_overrides (<[Override_ID o := o]> (t_overrides d)) d)
  end.

Definition pgComputeAllocationMembershipResourceOverrideStore_Delete (id : string) : stmt := λ d,
  inr (set_overrides (delete id (t_overrides d)) d).

(** ** compute_allocation_usage_store.go *)

Definition pgComputeAllocationUsageStore_FindByID (id : string) (d : DB) : option ComputeAllocationUsage :=
  t_usages d !! id.

Definition pgComputeAllocationUsageStore_FindByAllocation (allocationID : string) (d : DB) :
    list ComputeAllocationUsage :=
  order_by Usage_CalculatedTime Z.le
    (select_rows (λ u, Usage_ComputeAllocationID u = allocationID) (t_usages d)).

Definition pgComputeAllocationUsageStore_FindByUser (userID : string) (d : DB) : list ComputeAllocationUsage :=
  order_by Usage_CalculatedTime Z.le (select_rows (λ u, Usage_UserID u = userID) (t_usages d)).

Definition pgComputeAllocationUsageStore_FindByComputeAllocationIDAndJobID (allocationID jobID : string) (d : DB) :
    option ComputeAllocationUsage :=
  select_one (λ u, Usage_ComputeAllocationID u = allocationID ∧ Usage_JobID u = jobID) (t_usages d).

(** The table has no foreign key. *)
Definition pgComputeAllocationUsageStore_Create (u : ComputeAllocationUsage) : stmt := λ d,
  ensure fits [(255, Usage_ID u); (255, Usage_ComputeAllocationID u); (255, Usage_UserID u);
               (255, Usage_JobID u); (255, Usage_ComputeAllocationResourceID u)] orelse StringTooLong;
  ensure t_usages d !! Usage_ID u = None orelse UniqueViolation "compute_allocation_usages_pkey";
  inr (set_usages (<[Usage_ID u := u]> (t_usages d)) d).

Definition pgComputeAllocationUsageStore_Delete (id : string) : stmt := λ d,
  inr (set_usages (delete id (t_usages d)) d).

#[export] Hint Unfold
  pgComputeAllocationMembershipStore_Create pgComputeAllocationMembershipStore_Update
  cam_reassign_delete cam_reassign_update pgComputeAllocationMembershipStore_Delete
  pgComputeAllocationMembershipResourceOverrideStore_Create
  pgComputeAllocationMembershipResourceOverrideStore_Update
  pgComputeAllocationMembershipResourceOverrideStore_Delete pgComputeAllocationUsageStore_Create
  pgComputeAllocationUsageStore_Delete keep_memberships : stmts.

(** ** Integrity *)

Lemma pgComputeAllocationMembershipStore_Create_integrity m :
  StmtRel (pres integrity) (pgComputeAllocationMembershipStore_Create m).
Proof. unfold pgComputeAllocationMembershipStore_Create. solve_integrity. Qed.

Lemma pgComputeAllocationMembershipStore_Update_integrity m :
  StmtRel (pres integrity) (pgComputeAllocationMembershipStore_Update m).
Proof. unfold pgComputeAllocationMembershipStore_Update. solve_integrity. Qed.

Lemma cam_reassign_delete_integrity a b :
  StmtRel (pres integrity) (cam_reassign_delete a b).
Proof. unfold cam_reassign_delete, keep_memberships. solve_integrity. Qed.

Lemma cam_reassign_update_integrity a b :
  StmtRel (pres integrity) (cam_reassign_update a b).
Proof. unfold cam_reassign_update. solve_integrity. Qed.

Lemma pgComputeAllocationMembershipStore_Delete_integrity id :
  StmtRel (pres integrity) (pgComputeAllocationMembershipStore_Delete id).
Proof. unfold pgComputeAllocationMembershipStore_Delete, keep_memberships. solve_integrity. Qed.

Lemma pgComputeAllocationMembershipResourceOverrideStore_Create_integrity o :
  StmtRel (pres integrity) (pgComputeAllocationMembershipResourceOverrideStore_Create o).
Proof. unfold pgComputeAllocationMembershipResourceOverrideStore_Create. solve_integrity. Qed.

Lemma pgComputeAllocationMembershipResourceOverrideStore_Update_integrity o :
  StmtRel (pres integrity) (pgComputeAllocationMembershipResourceOverrideStore_Update o).
Proof. unfold pgComputeAllocationMembershipResourceOverrideStore_Update. solve_integrity. Qed.

Lemma pgComputeAllocationMembershipResourceOverrideStore_Delete_integrity id :
  StmtRel (pres integrity) (pgComputeAllocationMembershipResourceOverrideStore_Delete id).
Proof. unfold pgComputeAllocationMembershipResourceOverrideStore_Delete. solve_integrity. Qed.

Lemma pgComputeAllocationUsageStore_Create_integrity u :
  StmtRel (pres integrity) (pgComputeAllocationUsageStore_Create u).
Proof. unfold pgComputeAllocationUsageStore_Create. solve_integrity. Qed.

Lemma pgComputeAllocationUsageStore_Delete_integrity id :
  StmtRel (pres integrity) (pgComputeAllocationUsageStore_Delete id).
Proof. unfold pgComputeAllocationUsageStore_Delete. solve_integrity. Qed.

#[export] Hint Resolve
  pgComputeAllocationMembershipStore_Create_integrity
  pgComputeAllocationMembershipStore_Update_integrity cam_reassign_delete_integrity
  cam_reassign_update_integrity pgComputeAllocationMembershipStore_Delete_integrity
  pgComputeAllocationMembershipResourceOverrideStore_Create_integrity
  pgComputeAllocationMembershipResourceOverrideStore_Update_integrity
  pgComputeAllocationMembershipResourceOverrideStore_Delete_integrity
  pgComputeAllocationUsageStore_Create_integrity pgComputeAllocationUsageStore_Delete_integrity : stmt.
