(* ===== verification/Wire.v ===== *)
(** * JSON bodies and query strings

    What the handlers of internal/server use of encoding/json (through
    [common.DecodeJSON]), strconv, strings and net/url. A body is the first
    JSON value of the request, or nothing when the syntax is wrong; a decoder
    of a struct is built from one decoder per field, in the order of the
    fields of the struct, with the names of its json tags. How a text denotes
    an instant or a floating point number is left to the class [TextLib]. *)

From stdpp Require Import base list strings gmap sets.
From Stdlib Require Import Ascii ZArith SpecFloat.
From S2P Require Import Prelude Models.

(** * JSON encoding of audit details

    [json.Marshal] of a [map[string]any] whose values are strings, as far as
    the audit writers use it: keys in increasing order, strings escaped the way
    encoding/json does (quotes, backslash, control characters, the HTML
    characters, U+2028 and U+2029). Strings are valid UTF-8. *)

Definition hex_digit (n : nat) : ascii :=
  if (n <? 10)%nat then ascii_of_nat (48 + n) else ascii_of_nat (87 + n).

(** [\u00XX]. *)
Definition json_u00 (n : nat) : string :=
  "\u00" +:+ String (hex_digit (n / 16)) (String (hex_digit (n mod 16)) "").

Definition json_char (c : ascii) : string :=
  let n := nat_of_ascii c in
  if (n =? 34)%nat then String "\" (String c "")
  else if (n =? 92)%nat then String "\" (String c "")
  else if (n =? 8)%nat then "\b"
  else if (n =? 12)%nat then "\f"
  else if (n =? 10)%nat then "\n"
  else if (n =? 13)%nat then "\r"
  else if (n =? 9)%nat then "\t"
  else if ((n <? 32) || (n =? 60) || (n =? 62) || (n =? 38))%nat then json_u00 n
  else String c "".

(** The bytes E2 80 A8 and E2 80 A9 are U+2028 and U+2029. *)
Fixpoint json_escape (s : string) : string :=
  match s with
  | String a (String b (String c s') as s1) =>
      if ((nat_of_ascii a =? 226) && (nat_of_ascii b =? 128) && (nat_of_ascii c =? 168))%nat
      then "\u2028" +:+ json_escape s'
      else if ((nat_of_ascii a =? 226) && (nat_of_ascii b =? 128) && (nat_of_ascii c =? 169))%nat
      then "\u2029" +:+ json_escape s'
      else json_char a +:+ json_escape s1
  | String a s1 => json_char a +:+ json_escape s1
  | EmptyString => EmptyString
  end.

Definition quote : string := String (ascii_of_nat 34) "".
Definition json_string (s : string) : string := quote +:+ json_escape s +:+ quote.

Fixpoint json_fields (kvs : list (string * string)) : string :=
  match kvs with
  | [] => ""
  | [(k, v)] => json_string k +:+ ":" +:+ json_string v
  | (k, v) :: kvs' => json_string k +:+ ":" +:+ json_string v +:+ "," +:+ json_fields kvs'
  end.

Definition json_marshal (details : list (string * string)) : string :=
  "{" +:+ json_fields (order_by fst String.le details) +:+ "}".

(** ** Strings *)

Definition is_space (c : ascii) : bool :=
  let n := nat_of_ascii c in ((9 <=? n)%nat && (n <=? 13)%nat) || (n =? 32)%nat.

Fixpoint trim_left (s : string) : string :=
  match s with
  | EmptyString => EmptyString
  | String c s' => if is_space c then trim_left s' else s
  end.

Fixpoint trim_right (s : string) : string :=
  match s with
  | EmptyString => EmptyString
  | String c s' =>
      match trim_right s' with
      | EmptyString => if is_space c then EmptyString else String c EmptyString
      | t => String c t
      end
  end.

(** [strings.TrimSpace], on ASCII white space. *)
Definition TrimSpace (s : string) : string := trim_right (trim_left s).

(** [strings.Split(s, sep)] for a one-byte separator. *)
Fixpoint split_on (sep : ascii) (s : string) : list string :=
  match s with
  | EmptyString => [EmptyString]
  | String c s' =>
      if decide (c = sep) then EmptyString :: split_on sep s'
      else match split_on sep s' with
           | [] => [String c EmptyString]
           | x :: xs => String c x :: xs
           end
  end.

(** ** Numbers *)

Definition max_int64 : Z := 9223372036854775807.
Definition min_int64 : Z := -9223372036854775808.
Definition in_int64 (z : Z) : bool := (min_int64 <=? z)%Z && (z <=? max_int64)%Z.

Definition digit (c : ascii) : option Z :=
  let n := nat_of_ascii c in
  if (48 <=? n)%nat && (n <=? 57)%nat then Some (Z.of_nat (n - 48)) else None.

Fixpoint digits (acc : Z) (s : string) : option Z :=
  match s with
  | EmptyString => Some acc
  | String c s' => d ← digit c; digits (10 * acc + d) s'
  end.

Definition unsigned (s : string) : option Z :=
  match s with EmptyString => None | _ => digits 0 s end.

(** [strconv.ParseInt(s, 10, 64)] and [strconv.Atoi]: an optional sign and
    decimal digits, within the range of a 64-bit integer. *)
Definition ParseInt (s : string) : option Z :=
  z ← match s with
      | String c s' =>
          if decide (c = "-"%char) then Z.opp <$> unsigned s'
          else if decide (c = "+"%char) then unsigned s'
          else unsigned s
      | EmptyString => None
      end;
  if in_int64 z then Some z else None.

(** [atoiOr] of server.go. *)
Definition atoiOr (s : string) (def : Z) : Z :=
  if decide (s = "") then def else default def (ParseInt s).

(** ** Texts the standard library reads *)

Class TextLib := {
  (* time.Parse(time.RFC3339Nano, s); RFC3339 reads the same texts *)
  time_Parse : string → option Time;
  (* time.Time.UnmarshalJSON on the contents of a JSON string *)
  time_Unmarshal : string → option Time;
  (* strconv.ParseFloat(s, 64) *)
  ParseFloat : string → option float64 }.

(** ** JSON *)

(** A value inside an object; what an object there holds is never looked at. *)
Inductive JVal :=
  | JNull
  | JBool (b : bool)
  | JNum (literal : string)
  | JStr (s : string)
  | JArr (vs : list JVal)
  | JNested.

(** The value at the top: an object, or anything else. *)
Inductive JBody :=
  | BObj (members : list (string * JVal))
  | BVal (v : JVal).

(** The key folding of encoding/json: ASCII letters, and the two characters
    outside ASCII that fold to one (long s, Kelvin sign). *)
Fixpoint fold_key (s : string) : string :=
  match s with
  | EmptyString => EmptyString
  | String a s1 =>
      match s1 with
      | String b s2 =>
          if decide (nat_of_ascii a = 197 ∧ nat_of_ascii b = 191) then String "s" (fold_key s2)
          else match s2 with
               | String c s3 =>
                   if decide (nat_of_ascii a = 226 ∧ nat_of_ascii b = 132 ∧ nat_of_ascii c = 170)
                   then String "k" (fold_key s3)
                   else String (ascii_lower a) (fold_key s1)
               | EmptyString => String (ascii_lower a) (fold_key s1)
               end
      | EmptyString => String (ascii_lower a) EmptyString
      end
  end.

(** A Go type a field can have: its zero value, and what storing a JSON value
    in it does (the new value, and whether there was no error); null leaves a
    field alone that is not a pointer. *)
Class JField (A : Type) := {
  jzero : A;
  jset : JVal → A → A * bool }.

#[export] Instance string_field : JField string := {|
  jzero := "";
  jset v old := match v with JStr s => (s, true) | JNull => (old, true) | _ => (old, false) end |}.

#[export] Instance int64_field : JField Z | 10 := {|
  jzero := 0%Z;
  jset v old := match v with
                | JNum lit => match ParseInt lit with Some z => (z, true) | None => (old, false) end
                | JNull => (old, true)
                | _ => (old, false)
                end |}.

Section json.
Context `{TL : TextLib}.

#[export] Instance float_field : JField float64 := {|
  jzero := S754_zero false;
  jset v old := match v with
                | JNum lit => match ParseFloat lit with Some x => (x, true) | None => (old, false) end
                | JNull => (old, true)
                | _ => (old, false)
                end |}.

(** [time.Time] and [*time.Time]. *)
Definition time_field : JField Time := {|
  jzero := zero_time;
  jset v old := match v with
                | JStr s => match time_Unmarshal s with Some t => (t, true) | None => (old, false) end
                | JNull => (old, true)
                | _ => (old, false)
                end |}.

Definition time_ptr_field : JField (option Time) := {|
  jzero := None;
  jset v old := match v with
                | JStr s => match time_Unmarshal s with Some t => (Some t, true) | None => (old, false) end
                | JNull => (None, true)
                | _ => (old, false)
                end |}.
End json.

(** ** Decoders of structs *)

Record Dec (A : Type) := mkDec {
  dec_keys : list string;
  dec_run : list (string * JVal) → A * bool }.
Arguments mkDec {A} _ _.
Arguments dec_keys {A} _.
Arguments dec_run {A} _ _.

(** Members are stored one after the other: a later one overwrites. *)
Definition set_member {A} (F : JField A) (name : string) (st : A * bool) (kv : string * JVal) : A * bool :=
  if decide (fold_key kv.1 = fold_key name)
  then let '(v, ok) := @jset _ F kv.2 st.1 in (v, st.2 && ok)
  else st.

Definition field_of {A} (F : JField A) (name : string) : Dec A :=
  mkDec [name] (foldl (set_member F name) (@jzero _ F, true)).
Abbreviation field name := (field_of _ name).

Definition struct {A} (make : A) : Dec A := mkDec [] (λ _, (make, true)).

Definition with_field {A B} (df : Dec (A → B)) (da : Dec A) : Dec B :=
  mkDec (dec_keys df ++ dec_keys da)
    (λ ms, let '(f, ok) := dec_run df ms in let '(a, ok') := dec_run da ms in (f a, ok && ok')).

Declare Scope wire_scope.
Delimit Scope wire_scope with wire.
Infix "⊛" := with_field (at level 61, left associativity) : wire_scope.

(** [DecodeJSON]: the struct, and whether there was no error. A key that no
    field has is an error, but the rest is still stored; null at the top is
    no error. *)
Definition decode {A} (d : Dec A) (body : option JBody) : A * bool :=
  let zero := (dec_run d []).1 in
  match body with
  | Some (BObj ms) =>
      let '(a, ok) := dec_run d ms in
      (a, ok && forallb (λ kv, bool_decide (fold_key kv.1 ∈ fold_key <$> dec_keys d)) ms)
  | Some (BVal JNull) => (zero, true)
  | _ => (zero, false)
  end.

(** ** Query strings *)

(** The parameters of a URL, decoded, in order. *)
Abbreviation Query := (list (string * string)) (only parsing).

(** [q[name]] and [q.Get(name)]. *)
Definition query_all (name : string) (q : Query) : list string := snd <$> filter (λ kv, kv.1 = name) q.
Definition query_get (name : string) (q : Query) : string := default "" (head (query_all name q)).

(** [splitMulti] of audit_handlers.go: repeated and comma-separated values. *)
Definition splitMulti (vals : list string) : list string :=
  filter (λ p, p ≠ "") (TrimSpace <$> (vals ≫= split_on ",")).
