(* ===== verification/StoreTrace.v ===== *)
(** * Audit traces

    internal/store/audit_trace_store.go, pkg/models/trace.go and
    internal/tracing/status.go: the summaries, the span tree and the events of
    the traces recorded in audit_events. The ids of that table are CHAR
    columns, so a row comes back blank-padded. *)

From stdpp Require Import base gmap sets list strings.
From Stdlib Require Import ZArith SpecFloat Ascii.
From S2P Require Import Prelude GoError Models Schema Effects StoreIdentity StoreAllocation StoreMembership Wire.
From S2P Require Import StoreProject StoreAuth.

(** * Aggregates of usage

    The reads that add up rows: [SumSUForAllocation] and
    [SumSUForUserInAllocation] (compute_allocation_usage_store.go),
    [ListSummaries] (compute_allocation_resource_store.go), and the service
    methods over them. Amounts are binary64 numbers: SUM adds them one after
    the other with rounding and fails on overflow, ROUND goes to the nearest
    integer, ties to even, and the cast to BIGINT fails out of range. The
    order in which the server adds the rows is that in which the table is
    enumerated. *)

(** ** Arithmetic of the server *)

Definition float_add (x y : float64) : float64 := SFadd 53 1024 x y.

Definition is_infinite (x : float64) : bool := match x with S754_infinity _ => true | _ => false end.

(** float8 addition: an infinite result of finite operands is an error. *)
Definition float8pl (x y : float64) : option float64 :=
  let r := float_add x y in
  if is_infinite r && negb (is_infinite x) && negb (is_infinite y) then None else Some r.

(** SUM over the rows; NULL, hence 0 by COALESCE, over none. *)
Definition float_sum (xs : list float64) : option float64 :=
  match xs with
  | [] => Some (S754_zero false)
  | x :: xs' => foldl (λ acc y, a ← acc; float8pl a y) (Some x) xs'
  end.

(** The nearest integer of [n / d], ties to even. *)
Definition round_div (n d : Z) : Z :=
  let q := (n / d)%Z in
  let r := (n mod d)%Z in
  match (2 * r ?= d)%Z with
  | Lt => q
  | Gt => (q + 1)%Z
  | Eq => if Z.even q then q else (q + 1)%Z
  end.

(** CAST(ROUND(x) AS BIGINT). *)
Definition round_bigint (x : float64) : option Z :=
  match x with
  | S754_zero _ => Some 0%Z
  | S754_finite s m e =>
      let n := if s then Z.neg m else Z.pos m in
      let z := if (0 <=? e)%Z then (n * 2 ^ e)%Z else round_div n (2 ^ (- e))%Z in
      if in_int64 z then Some z else None
  | S754_infinity _ | S754_nan => None
  end.

(** ** The statements *)

Definition sum_su (rows : list ComputeAllocationUsage) : option Z :=
  float_sum (Usage_UsedSUAmount <$> rows) ≫= round_bigint.

Definition pgComputeAllocationUsageStore_SumSUForAllocation (allocationID : string) (d : DB) : option Z :=
  sum_su (select_rows (λ u, Usage_ComputeAllocationID u = allocationID) (t_usages d)).

Definition pgComputeAllocationUsageStore_SumSUForUserInAllocation (allocationID userID : string) (d : DB) :
    option Z :=
  sum_su (select_rows (λ u, Usage_ComputeAllocationID u = allocationID ∧ Usage_UserID u = userID) (t_usages d)).

Record ComputeAllocationResourceSummary := mkComputeAllocationResourceSummary {
  Summary_Resource : ComputeAllocationResource;
  Summary_AllocationCount : Z;
  Summary_TotalAllocated : Z;
  Summary_TotalUsedSU : float64;
  Summary_RateCount : Z }.

(** One row of [ListSummaries]. SUM of a BIGINT is a NUMERIC, which is scanned
    into an int64. *)
Definition resource_summary (d : DB) (r : ComputeAllocationResource) : option ComputeAllocationResourceSummary :=
  let ms := select_rows (λ m, Mapping_ComputeAllocationResourceID m = Resource_ID r) (t_resource_mappings d) in
  let us := select_rows (λ u, Usage_ComputeAllocationResourceID u = Resource_ID r) (t_usages d) in
  let rates := select_rows (λ x, Rate_ComputeAllocationResourceID x = Resource_ID r) (t_resource_rates d) in
  let allocated := foldr Z.add 0%Z (Mapping_ResourceAmount <$> ms) in
  used ← float_sum (Usage_UsedSUAmount <$> us);
  if in_int64 allocated then
    Some (mkComputeAllocationResourceSummary r
            (Z.of_nat (length (remove_dups (Mapping_ComputeAllocationID <$> ms))))
            allocated used (Z.of_nat (length rates)))
  else None.

Definition pgComputeAllocationResourceStore_ListSummaries (d : DB) :
    option (list ComputeAllocationResourceSummary) :=
  mapM (resource_summary d)
    (order_by Resource_Name String.le (all_rows (t_resources d))).

(** ** The service *)

Section service.
Context `{E : Env}.

(** A read that can fail on its data. *)
Definition query_checked {A} (f : DB → option A) : M A :=
  res ← query f; deref res (DbError NumberOutOfRange).

Definition GetTotalSUUsageForAllocation (allocationID : string) : M Z :=
  _ ← fail_if (allocationID = "") (Errorf "%w: compute_allocation_id is required" [] ErrInvalidInput);
  wrap "sum su usage for allocation: %w"
    (query_checked (pgComputeAllocationUsageStore_SumSUForAllocation allocationID)).

Definition GetTotalSUUsageForUserInAllocation (allocationID userID : string) : M Z :=
  _ ← fail_if (allocationID = "") (Errorf "%w: compute_allocation_id is required" [] ErrInvalidInput);
  _ ← fail_if (userID = "") (Errorf "%w: user_id is required" [] ErrInvalidInput);
  wrap "sum su usage for user in allocation: %w"
    (query_checked (pgComputeAllocationUsageStore_SumSUForUserInAllocation allocationID userID)).

Definition ListComputeAllocationResourceSummaries : M (list ComputeAllocationResourceSummary) :=
  wrap "list compute allocation resource summaries: %w"
    (query_checked pgComputeAllocationResourceStore_ListSummaries).
End service.

(** ** internal/tracing/status.go *)

Definition StatusOk : string := "ok".
Definition StatusError : string := "error".
Definition StatusInProgress : string := "in_progress".

Definition errorMarkers : list string := ["failed"; "error"; "rejected"].

Definition EventStatus (eventType : string) : string :=
  let l := lower eventType in
  if existsb (λ marker, str_contains marker l) errorMarkers then StatusError else StatusOk.

(** The registry of terminal markers, by source. *)
Abbreviation Markers := (gmap string (list string)) (only parsing).

Definition RegisterTerminalMarkers (source : string) (markers : list string) (t : Markers) : Markers :=
  <[source := default [] (t !! source) ++ markers]> t.

Record TraceEventStatus := mkTraceEventStatus { TES_Source : string; TES_EventType : string }.

(** The loop of [TraceStatus]: the two flags. *)
Definition trace_flags (t : Markers) (st : bool * bool) (e : TraceEventStatus) : bool * bool :=
  (st.1 || bool_decide (EventStatus (TES_EventType e) = StatusError),
   st.2 || bool_decide (TES_EventType e ∈ default [] (t !! TES_Source e))).

Definition TraceStatus (t : Markers) (events : list TraceEventStatus) : string :=
  let '(hasError, hasTerminal) := foldl (trace_flags t) (false, false) events in
  if hasError then StatusError else if hasTerminal then StatusOk else StatusInProgress.

(** ** pkg/models/trace.go *)

Record TraceSummary := mkTraceSummary {
  TraceSummary_TraceID : string;
  TraceSummary_RootOperation : string;
  TraceSummary_Source : string;
  TraceSummary_Status : string;
  TraceSummary_StartedAt : Time;
  TraceSummary_EndedAt : Time;
  TraceSummary_EventCount : nat }.

Record TraceEvent := mkTraceEvent {
  TraceEvent_SpanID : string;
  TraceEvent_ParentSpanID : string;
  TraceEvent_Source : string;
  TraceEvent_EventType : string;
  TraceEvent_EntityType : string;
  TraceEvent_EntityID : string;
  TraceEvent_Description : string;
  TraceEvent_Status : string;
  TraceEvent_CreatedAt : Time }.
#[export] Instance TraceEvent_eq_dec : EqDecision TraceEvent.
Proof. solve_decision. Defined.

(** ** internal/store/audit_trace_store.go *)

Definition TreeRowLimit : nat := 500.

Record TraceFilter := mkTraceFilter {
  TF_Sources : list string;
  TF_Statuses : list string;
  TF_From : Time;
  TF_To : Time;
  TF_Q : string;
  TF_Limit : Z;
  TF_Offset : Z }.

(** Values of a CHAR column are compared without their trailing blanks. *)
Fixpoint rtrim (s : string) : string :=
  match s with
  | EmptyString => EmptyString
  | String c s' =>
      match rtrim s' with
      | EmptyString => if decide (c = " "%char) then EmptyString else String c EmptyString
      | t => String c t
      end
  end.
Definition bp_eq (a b : string) : Prop := rtrim a = rtrim b.
#[export] Instance bp_eq_dec a b : Decision (bp_eq a b).
Proof. unfold bp_eq. apply _. Defined.

(** The rows of [auditTraceSelect]. *)
Definition auditTraceSelect (d : DB) : list AuditEvent :=
  select_rows (λ e, ¬ bp_eq (AuditEvent_TraceID e) "") (t_audit_events d).

Definition toTraceEvent (r : AuditEvent) : TraceEvent :=
  mkTraceEvent (AuditEvent_SpanID r) (AuditEvent_ParentSpanID r) (AuditEvent_Source r)
    (AuditEvent_EventType r) (AuditEvent_EntityType r) (AuditEvent_EntityID r)
    (AuditEvent_Details r) (EventStatus (AuditEvent_EventType r)) (AuditEvent_EventTime r).

(** [column ILIKE q || '%'] with the pattern already in lower case. *)
Definition ilike_prefix (q column : string) : bool :=
  let p := lower q +:+ "%" in
  like (S (String.length p + String.length column)) p (lower column).

(** The condition [buildTraceWhere] puts together. *)
Definition buildTraceWhere (f : TraceFilter) (e : AuditEvent) : Prop :=
  (TF_Sources f ≠ [] → AuditEvent_Source e ∈ TF_Sources f) ∧
  (¬ IsZero (TF_From f) → (TF_From f <= AuditEvent_EventTime e)%Z) ∧
  (¬ IsZero (TF_To f) → (AuditEvent_EventTime e <= TF_To f)%Z) ∧
  (TF_Q f ≠ "" → ilike_prefix (TF_Q f) (AuditEvent_TraceID e) = true ∨
                 ilike_contains (TF_Q f) (AuditEvent_EventType e) = true).
#[export] Instance buildTraceWhere_dec f e : Decision (buildTraceWhere f e).
Proof. unfold buildTraceWhere. apply _. Defined.

(** GROUP BY trace_id, in the order of the first row of each group. *)
Definition trace_ids (rows : list AuditEvent) : list string := remove_dups (AuditEvent_TraceID <$> rows).

Record listRow := mkListRow {
  LR_TraceID : string;
  LR_StartedAt : Time;
  LR_EndedAt : Time;
  LR_EventCount : nat }.

Definition group_row (rows : list AuditEvent) (traceID : string) : listRow :=
  let ts := AuditEvent_EventTime <$> filter (λ e, AuditEvent_TraceID e = traceID) rows in
  mkListRow traceID (foldr Z.min (default 0%Z (head ts)) ts) (foldr Z.max (default 0%Z (head ts)) ts)
    (length ts).

(** The count and the page of [ListTraces]. *)
Definition pgAuditTraceStore_count (f : TraceFilter) (d : DB) : nat :=
  length (trace_ids (filter (buildTraceWhere f) (auditTraceSelect d))).

Definition pgAuditTraceStore_page (f : TraceFilter) (d : DB) : list listRow :=
  let rows := filter (buildTraceWhere f) (auditTraceSelect d) in
  let limit := if decide (TF_Limit f <= 0)%Z then 50%Z else TF_Limit f in
  take (Z.to_nat limit) (drop (Z.to_nat (TF_Offset f))
    (order_by LR_EndedAt Z.ge (group_row rows <$> trace_ids rows))).

(** ORDER BY created_at ASC, span_id ASC. *)
Definition event_le (a b : AuditEvent) : Prop :=
  (AuditEvent_EventTime a < AuditEvent_EventTime b)%Z ∨
  (AuditEvent_EventTime a = AuditEvent_EventTime b ∧
   String.leb (AuditEvent_SpanID a) (AuditEvent_SpanID b) = true).
#[export] Instance event_le_dec a b : Decision (event_le a b).
Proof. unfold event_le. apply _. Defined.

Definition trace_rows (traceID : string) (d : DB) : list AuditEvent :=
  order_by id event_le (filter (λ e, bp_eq (AuditEvent_TraceID e) traceID) (auditTraceSelect d)).

(** The first row without a parent. *)
Definition root_row (rows : list AuditEvent) : option AuditEvent :=
  head (filter (λ r, AuditEvent_ParentSpanID r = "") rows).

(** The second loop of [summariseTrace]. *)
Definition rootOperation (rows : list AuditEvent) : string :=
  match root_row rows with
  | Some r => if decide (AuditEvent_EventType r = "")
              then default "" (AuditEvent_EventType <$> head rows) else AuditEvent_EventType r
  | None => default "" (AuditEvent_EventType <$> head rows)
  end.

Definition dominantSource (rows : list AuditEvent) : string :=
  match root_row rows with
  | Some r => AuditEvent_Source r
  | None => default "" (AuditEvent_Source <$> head rows)
  end.

Definition event_status (r : AuditEvent) : TraceEventStatus :=
  mkTraceEventStatus (AuditEvent_Source r) (AuditEvent_EventType r).

Definition matchesStatusFilter (status : string) (want : list string) : bool :=
  bool_decide (want = []) || bool_decide (status ∈ want).

(** ** The span tree

    The nodes [buildTree] allocates are reached only through the map by span
    id, so a pointer is a span id: the map gives the event of the node (that of
    the last row with the id), and the children are appended to the node. *)
Record TraceNode := mkTraceNode {
  tree_events : gmap string TraceEvent;
  tree_children : gmap string (list string);
  tree_root : list string }.

Definition index_spans (rows : list AuditEvent) : gmap string TraceEvent :=
  foldl (λ m r, <[AuditEvent_SpanID r := toTraceEvent r]> m) ∅ rows.

Definition link_row (bySpan : gmap string TraceEvent) (t : TraceNode) (r : AuditEvent) : TraceNode :=
  if decide (AuditEvent_ParentSpanID r ≠ "" ∧ is_Some (bySpan !! AuditEvent_ParentSpanID r))
  then mkTraceNode (tree_events t)
         (<[AuditEvent_ParentSpanID r :=
              default [] (tree_children t !! AuditEvent_ParentSpanID r) ++ [AuditEvent_SpanID r]]>
            (tree_children t))
         (tree_root t)
  else mkTraceNode (tree_events t) (tree_children t) (tree_root t ++ [AuditEvent_SpanID r]).

Definition buildTree (rows : list AuditEvent) : TraceNode :=
  let bySpan := index_spans rows in
  foldl (link_row bySpan) (mkTraceNode bySpan ∅ []) rows.

(** What the encoder writes: it follows the pointers, and never ends on a
    cycle. *)
#[warnings="-register-all"]
Inductive Tree := Node (e : TraceEvent) (children : list Tree).

Definition children_of (t : TraceNode) (span : string) : list string := default [] (tree_children t !! span).

Fixpoint unfold_tree (fuel : nat) (t : TraceNode) (span : string) : option Tree :=
  match fuel with
  | O => None
  | S n => e ← tree_events t !! span; cs ← mapM (unfold_tree n t) (children_of t span); Some (Node e cs)
  end.

Definition encode_tree (fuel : nat) (t : TraceNode) : option (list Tree) := mapM (unfold_tree fuel t) (tree_root t).

Section store.
Context `{E : Env} (markers : Markers).

Definition summariseTrace (traceID : string) : M (string * string * string) :=
  rows ← wrap "audit_trace_store: summarise: %w" (query (trace_rows traceID));
  mret (if decide (rows = []) then ("", "", StatusInProgress)
        else (rootOperation rows, dominantSource rows, TraceStatus markers (event_status <$> rows))).

(** The loop of [ListTraces] over the page. *)
Fixpoint summariseLoop (f : TraceFilter) (raw : list listRow) : M (list TraceSummary) :=
  match raw with
  | [] => mret []
  | r :: raw' =>
      s ← summariseTrace (LR_TraceID r);
      let '(rootOp, src, status) := s in
      rest ← summariseLoop f raw';
      mret (if matchesStatusFilter status (TF_Statuses f)
            then mkTraceSummary (LR_TraceID r) rootOp src status (LR_StartedAt r) (LR_EndedAt r)
                   (LR_EventCount r) :: rest
            else rest)
  end.

Definition ListTraces (f : TraceFilter) : M (list TraceSummary * nat) :=
  total ← wrap "audit_trace_store: count: %w" (query (pgAuditTraceStore_count f));
  raw ← wrap "audit_trace_store: list: %w" (query (pgAuditTraceStore_page f));
  out ← summariseLoop f raw;
  mret (out, total).

Definition GetTraceTree (traceID : string) : M (option (TraceNode * bool)) :=
  rows ← wrap "audit_trace_store: tree: %w" (query (λ d, take (S TreeRowLimit) (trace_rows traceID d)));
  mret (if decide (rows = []) then None
        else Some (buildTree (take TreeRowLimit rows), bool_decide (TreeRowLimit < length rows))).

Definition ListEvents (traceID spanID : string) : M (list TraceEvent) :=
  rows ← wrap "audit_trace_store: events: %w"
           (query (λ d, order_by id event_le
              (filter (λ e, bp_eq (AuditEvent_TraceID e) traceID ∧
                            (spanID ≠ "" → bp_eq (AuditEvent_SpanID e) spanID)) (auditTraceSelect d))));
  mret (toTraceEvent <$> rows).

Definition ListSources : M (list string) := mret ["amie"; "comanage"; "core"; "slurm"].
End store.
