(* ===== verification/UserService.v ===== *)
(** * Service: organizations, users, user identities

    pkg/service/{organization,user,user_identity,user_merge}.go. A method that
    takes a pointer takes an [option]; a method that fills in blank fields of
    its argument returns the filled-in record, which is also what it publishes. *)

From S2P Require Import Prelude GoError Models Schema Events IdentityCache Effects.
From S2P Require Import StoreIdentity StoreProject StoreCluster StoreMembership.
From stdpp Require Import base gmap list strings.
From Stdlib Require Import ZArith.

Section user_service.
Context `{E : Env}.

(** [if x == "" { x = dflt }]. *)
Definition or_blank (x dflt : string) : string := if decide (x = "") then dflt else x.

(** [if x.ID == "" { x.ID = newID() }]. *)
Definition or_newID (id : string) : M string := if decide (id = "") then newID else mret id.

(** [if t.IsZero() { t = nowUTC() }]. *)
Definition or_now (t : Time) : M Time := if decide (IsZero t) then nowUTC else mret t.

(** ** organization.go *)

Definition CreateOrganization (org : option Organization) : M Organization :=
  o ← deref org (Errorf "%w: organization is nil" [] ErrInvalidInput);
  _ ← fail_if (Organization_Name o = "")
        (Errorf "%w: organization name is required" [] ErrInvalidInput);
  id ← or_newID (Organization_ID o);
  let o := mkOrganization id (Organization_OriginatedID o) (Organization_Name o) in
  _ ← when (Organization_OriginatedID o ≠ "") (
        existing ← wrap "lookup organization by originated id: %w"
                     (query (pgOrganizationStore_FindByOriginatedID (Organization_OriginatedID o)));
        fail_if (existing ≠ None)
          (Errorf "%w: organization with originated_id %q" [Organization_OriginatedID o] ErrAlreadyExists));
  _ ← wrap "create organization: %w" (inTx (exec (pgOrganizationStore_Create o)));
  _ ← publish OrganizationCreateEvent (POrganization o);
  mret o.

Definition GetOrganization (id : string) : M Organization :=
  org ← wrap "get organization: %w" (query (pgOrganizationStore_FindByID id));
  deref org ErrNotFound.

Definition ListOrganizations (limit offset : Z) : M (list Organization * nat) :=
  wrap "list organizations: %w" (query (pgOrganizationStore_List limit offset)).

Definition GetOrganizationByOriginatedID (originatedID : string) : M Organization :=
  org ← wrap "get organization by originated id: %w"
          (query (pgOrganizationStore_FindByOriginatedID originatedID));
  deref org ErrNotFound.

Definition UpdateOrganization (org : option Organization) : M unit :=
  o ← deref org (Errorf "%w: organization id is required" [] ErrInvalidInput);
  _ ← fail_if (Organization_ID o = "") (Errorf "%w: organization id is required" [] ErrInvalidInput);
  _ ← wrap "update organization: %w" (inTx (exec (pgOrganizationStore_Update o)));
  publish OrganizationUpdateEvent (POrganization o).

Definition DeleteOrganization (id : string) : M unit :=
  _ ← fail_if (id = "") (Errorf "%w: organization id is required" [] ErrInvalidInput);
  org ← wrap "lookup organization: %w" (query (pgOrganizationStore_FindByID id));
  o ← deref org ErrNotFound;
  _ ← wrap "delete organization: %w" (inTx (exec (pgOrganizationStore_Delete id)));
  publish OrganizationDeleteEvent (POrganization o).

(** ** user.go *)

Definition CreateUser (user : option User) : M User :=
  u ← deref user (Errorf "%w: user is nil" [] ErrInvalidInput);
  _ ← fail_if (User_Email u = "") (Errorf "%w: user email is required" [] ErrInvalidInput);
  _ ← fail_if (User_OrganizationID u = "")
        (Errorf "%w: user organization_id is required" [] ErrInvalidInput);
  org ← wrap "verify organization: %w" (query (pgOrganizationStore_FindByID (User_OrganizationID u)));
  _ ← fail_if (org = None)
        (Errorf "%w: organization %q does not exist" [User_OrganizationID u] ErrInvalidInput);
  existing ← wrap "lookup user by email: %w" (query (pgUserStore_FindByEmail (User_Email u)));
  _ ← fail_if (existing ≠ None) (Errorf "%w: user with email %q" [User_Email u] ErrAlreadyExists);
  id ← or_newID (User_ID u);
  let u := mkUser id (User_OrganizationID u) (User_FirstName u) (User_LastName u) (User_MiddleName u)
             (User_Email u) (or_blank (User_Status u) UserPending)
             (or_blank (User_Type u) UserTypeClusterLocal) in
  _ ← wrap "create user: %w" (inTx (exec (pgUserStore_Create u)));
  _ ← publish UserCreateEvent (PUser u);
  mret u.

Definition ListUsers (limit offset : Z) : M (list User * nat) :=
  wrap "list users: %w" (query (pgUserStore_List limit offset)).

Definition GetUser (id : string) : M User :=
  u ← wrap "get user: %w" (query (pgUserStore_FindByID id));
  deref u ErrNotFound.

Definition GetUserByUserIdentity (source externalID : string) : M User :=
  _ ← fail_if (source = "") (Errorf "%w: source is required" [] ErrInvalidInput);
  _ ← fail_if (externalID = "") (Errorf "%w: external_id is required" [] ErrInvalidInput);
  ident ← wrap "lookup user identity: %w"
            (query (pgUserIdentityStore_FindBySourceAndExternalID source externalID));
  e ← deref ident ErrNotFound;
  GetUser (UserIdentity_UserID e).

Definition GetUserByEmail (email : string) : M User :=
  u ← wrap "get user by email: %w" (query (pgUserStore_FindByEmail email));
  deref u ErrNotFound.

Definition ListUsersByOrganization (organizationID : string) : M (list User) :=
  wrap "list users by organization: %w" (query (pgUserStore_FindByOrganization organizationID)).

(** The record [UpdateUser] stores: blank fields fall back to the stored ones. *)
Definition merge_user (u existing : User) : User :=
  mkUser (User_ID u)
    (or_blank (User_OrganizationID u) (User_OrganizationID existing))
    (or_blank (User_FirstName u) (User_FirstName existing))
    (or_blank (User_LastName u) (User_LastName existing))
    (or_blank (User_MiddleName u) (User_MiddleName existing))
    (or_blank (User_Email u) (User_Email existing))
    (or_blank (User_Status u) (User_Status existing))
    (or_blank (User_Type u) (User_Type existing)).

Definition UpdateUser (user : option User) : M unit :=
  u ← deref user (Errorf "%w: user id is required" [] ErrInvalidInput);
  _ ← fail_if (User_ID u = "") (Errorf "%w: user id is required" [] ErrInvalidInput);
  found ← wrap "lookup user: %w" (query (pgUserStore_FindByID (User_ID u)));
  existing ← deref found ErrNotFound;
  _ ← when (User_Email u ≠ "" ∧ User_Email u ≠ User_Email existing) (
        other ← wrap "lookup user by email: %w" (query (pgUserStore_FindByEmail (User_Email u)));
        match other with
        | Some o => fail_if (User_ID o ≠ User_ID u)
                      (Errorf "%w: user with email %q" [User_Email u] ErrAlreadyExists)
        | None => mret tt
        end);
  let u := merge_user u existing in
  _ ← wrap "update user: %w" (inTx (exec (pgUserStore_Update u)));
  publish UserUpdateEvent (PUser u).

Definition UpdateUserStatus (id status : string) : M User :=
  _ ← fail_if (id = "") (Errorf "%w: user id is required" [] ErrInvalidInput);
  _ ← fail_if (status = "") (Errorf "%w: status is required" [] ErrInvalidInput);
  found ← wrap "lookup user: %w" (query (pgUserStore_FindByID id));
  existing ← deref found ErrNotFound;
  _ ← wrap "update user status: %w" (inTx (exec (pgUserStore_UpdateStatus id status)));
  let existing := with_user_status status existing in
  _ ← publish UserUpdateEvent (PUser existing);
  mret existing.

Definition DeleteUser (id : string) : M unit :=
  _ ← fail_if (id = "") (Errorf "%w: user id is required" [] ErrInvalidInput);
  found ← wrap "lookup user: %w" (query (pgUserStore_FindByID id));
  existing ← deref found ErrNotFound;
  _ ← wrap "delete user: %w" (inTx (exec (pgUserStore_Delete id)));
  publish UserDeleteEvent (PUser existing).

(** ** user_identity.go *)

Definition with_identity_id (id : string) (e : UserIdentity) : UserIdentity :=
  mkUserIdentity id (UserIdentity_UserID e) (UserIdentity_Source e) (UserIdentity_ExternalID e)
    (UserIdentity_Email e) (UserIdentity_OIDCSub e) (UserIdentity_Metadata e) (UserIdentity_CreatedAt e).

Definition CreateUserIdentity (ident : option UserIdentity) : M UserIdentity :=
  e ← deref ident (Errorf "%w: user identity is nil" [] ErrInvalidInput);
  _ ← fail_if (UserIdentity_UserID e = "")
        (Errorf "%w: user identity user_id is required" [] ErrInvalidInput);
  _ ← fail_if (UserIdentity_Source e = "")
        (Errorf "%w: user identity source is required" [] ErrInvalidInput);
  _ ← fail_if (UserIdentity_ExternalID e = "")
        (Errorf "%w: user identity external_id is required" [] ErrInvalidInput);
  user ← wrap "verify user: %w" (query (pgUserStore_FindByID (UserIdentity_UserID e)));
  _ ← fail_if (user = None)
        (Errorf "%w: user %q does not exist" [UserIdentity_UserID e] ErrInvalidInput);
  existing ← wrap "lookup user identity: %w"
    (query (pgUserIdentityStore_FindBySourceAndExternalID (UserIdentity_Source e) (UserIdentity_ExternalID e)));
  _ ← fail_if (existing ≠ None)
        (Errorf "%w: user identity for source %q, external_id %q"
           [UserIdentity_Source e; UserIdentity_ExternalID e] ErrAlreadyExists);
  id ← or_newID (UserIdentity_ID e);
  let e := with_identity_id id e in
  _ ← wrap "create user identity: %w" (inTx (exec_now (pgUserIdentityStore_Create e)));
  _ ← publish UserIdentityCreateEvent (PUserIdentity e);
  mret e.

Definition GetUserIdentity (id : string) : M UserIdentity :=
  e ← wrap "get user identity: %w" (query (pgUserIdentityStore_FindByID id));
  deref e ErrNotFound.

Definition GetUserIdentityBySourceAndExternalID (source externalID : string) : M UserIdentity :=
  _ ← fail_if (source = "") (Errorf "%w: source is required" [] ErrInvalidInput);
  _ ← fail_if (externalID = "") (Errorf "%w: external_id is required" [] ErrInvalidInput);
  e ← wrap "get user identity by source/external_id: %w"
        (query (pgUserIdentityStore_FindBySourceAndExternalID source externalID));
  deref e ErrNotFound.

Definition GetUserIdentityByOIDCSub (oidcSub : string) : M UserIdentity :=
  _ ← fail_if (oidcSub = "") (Errorf "%w: oidc_sub is required" [] ErrInvalidInput);
  e ← wrap "get user identity by oidc_sub: %w" (query (pgUserIdentityStore_FindByOIDCSub oidcSub));
  deref e ErrNotFound.

Definition ListUserIdentitiesForUser (userID : string) : M (list UserIdentity) :=
  _ ← fail_if (userID = "") (Errorf "%w: user_id is required" [] ErrInvalidInput);
  wrap "list user identities by user: %w" (query (pgUserIdentityStore_FindByUser userID)).

Definition merge_identity (e existing : UserIdentity) : UserIdentity :=
  mkUserIdentity (UserIdentity_ID e)
    (or_blank (UserIdentity_UserID e) (UserIdentity_UserID existing))
    (or_blank (UserIdentity_Source e) (UserIdentity_Source existing))
    (or_blank (UserIdentity_ExternalID e) (UserIdentity_ExternalID existing))
    (or_blank (UserIdentity_Email e) (UserIdentity_Email existing))
    (or_blank (UserIdentity_OIDCSub e) (UserIdentity_OIDCSub existing))
    (or_blank (UserIdentity_Metadata e) (UserIdentity_Metadata existing))
    (UserIdentity_CreatedAt e).

(** The struct the caller passed is filled in; it is returned here. *)
Definition UpdateUserIdentity (ident : option UserIdentity) : M UserIdentity :=
  e ← deref ident (Errorf "%w: user identity id is required" [] ErrInvalidInput);
  _ ← fail_if (UserIdentity_ID e = "") (Errorf "%w: user identity id is required" [] ErrInvalidInput);
  found ← wrap "lookup user identity: %w" (query (pgUserIdentityStore_FindByID (UserIdentity_ID e)));
  existing ← deref found ErrNotFound;
  let e := merge_identity e existing in
  _ ← wrap "update user identity: %w" (inTx (exec (pgUserIdentityStore_Update e)));
  _ ← publish UserIdentityUpdateEvent (PUserIdentity e);
  mret e.

Definition DeleteUserIdentity (id : string) : M unit :=
  _ ← fail_if (id = "") (Errorf "%w: user identity id is required" [] ErrInvalidInput);
  found ← wrap "lookup user identity: %w" (query (pgUserIdentityStore_FindByID id));
  e ← deref found ErrNotFound;
  _ ← wrap "delete user identity: %w" (inTx (exec (pgUserIdentityStore_Delete id)));
  publish UserIdentityDeleteEvent (PUserIdentity e).

(** ** user_merge.go *)

Definition canBeMerged (s : string) : bool :=
  bool_decide (s = UserActive ∨ s = UserPending).

(** The body of the transaction of [MergeUsers]. *)
Definition mergeTx (retiringID survivingID : string) : M unit :=
  _ ← wrap "reassign user identities: %w"
        (exec (pgUserIdentityStore_ReassignUser retiringID survivingID));
  _ ← wrap "reassign compute cluster users: %w"
        (pgComputeClusterUserStore_ReassignUser retiringID survivingID);
  _ ← wrap "reassign project PI: %w" (exec (pgProjectStore_ReassignPI retiringID survivingID));
  _ ← wrap "reassign memberships: %w"
        (pgComputeAllocationMembershipStore_ReassignUser retiringID survivingID);
  _ ← wrap "reassign project memberships: %w"
        (pgProjectMembershipStore_ReassignUser retiringID survivingID);
  exec (pgUserStore_UpdateStatus retiringID UserMerged).

Definition MergeUsers (survivingID retiringID : string) : M User :=
  _ ← fail_if (survivingID = "" ∨ retiringID = "")
        (Errorf "%w: surviving and retiring user IDs are required" [] ErrInvalidInput);
  _ ← fail_if (survivingID = retiringID)
        (Errorf "%w: cannot merge a user with itself" [] ErrInvalidInput);
  s ← wrap "lookup surviving user: %w" (query (pgUserStore_FindByID survivingID));
  survivor ← deref s (Errorf "%w: surviving user %q does not exist" [survivingID] ErrInvalidInput);
  _ ← fail_if (canBeMerged (User_Status survivor) = false)
        (Errorf "%w: surviving user %q must be ACTIVE or PENDING (got %s)"
           [survivingID; User_Status survivor] ErrInvalidInput);
  r ← wrap "lookup retiring user: %w" (query (pgUserStore_FindByID retiringID));
  retiring ← deref r (Errorf "%w: retiring user %q does not exist" [retiringID] ErrInvalidInput);
  _ ← fail_if (User_Status retiring = UserMerged)
        (Errorf "%w: retiring user %q is already merged" [retiringID] ErrAlreadyExists);
  _ ← fail_if (canBeMerged (User_Status retiring) = false)
        (Errorf "%w: retiring user %q must be ACTIVE or PENDING (got %s)"
           [retiringID; User_Status retiring] ErrInvalidInput);
  _ ← wrap "merge users: %w" (inTx (mergeTx retiringID survivingID));
  _ ← publish UserUpdateEvent (PUser (with_user_status UserMerged retiring));
  _ ← publish UserUpdateEvent (PUser survivor);
  mret survivor.
End user_service.
