(* ===== verification/AuthService.v ===== *)
(** * Service: authorization, audit trail and caller resolution

    pkg/models/privilege.go (the privilege registry), pkg/service/{role,
    user_role,user_privilege,audit_event,identity_resolver}.go. *)

From S2P Require Import Prelude GoError Models Schema Events IdentityCache Effects Wire.
From S2P Require Import StoreIdentity StoreAuth UserService.
From stdpp Require Import base gmap list strings.
From Stdlib Require Import ZArith.

(** What an audit write reads from its [context.Context]: the ids of the active
    span, the parent span id and the source tag, each empty when absent. *)
Record AuditCtx := mkAuditCtx {
  ctx_traceID : string;
  ctx_spanID : string;
  ctx_parentSpanID : string;
  ctx_source : string }.

(** [identity.Claims]. *)
Record Claims := mkClaims {
  Claims_Sub : string;
  Claims_Email : string;
  Claims_EmailVerified : bool }.

Definition roleAuditCreated : string := "ROLE_CREATED".
Definition roleAuditUpdated : string := "ROLE_UPDATED".
Definition roleAuditDeleted : string := "ROLE_DELETED".
Definition roleAuditPrivilegeAdded : string := "ROLE_PRIVILEGE_ADDED".
Definition roleAuditPrivilegeRemoved : string := "ROLE_PRIVILEGE_REMOVED".
Definition userRoleAuditGranted : string := "ROLE_GRANTED".
Definition userRoleAuditRevoked : string := "ROLE_REVOKED".
Definition userRoleAuditBootstrap : string := "ROLE_BOOTSTRAPPED".
Definition userAuditBootstrapped : string := "USER_BOOTSTRAPPED".
Definition bootstrapSystemOrgID : string := "system".
Definition privilegeAuditGrant : string := "PRIVILEGE_GRANTED".
Definition privilegeAuditRevoke : string := "PRIVILEGE_REVOKED".
Definition identityAuditLinked : string := "IDENTITY_LINKED".
Definition identitySourceOIDC : string := "oidc".
Definition SourceCore : string := "core".

Definition stringPtrOrNil (s : string) : option string := if decide (s = "") then None else Some s.

Section auth_service.
Context `{E : Env}.

(** ** pkg/models/privilege.go *)

Definition Register (keys : list PrivilegeKey) : M unit :=
  modify (λ w, set_registry (list_to_set keys ∪ w_registry w) w).

Definition KnownPrivileges : M (list PrivilegeKey) :=
  gets (λ w, order_by id String.le (elements (w_registry w))).

Definition IsKnownPrivilege (p : PrivilegeKey) : M bool :=
  gets (λ w, bool_decide (p ∈ w_registry w)).

(** [if !models.IsKnownPrivilege(privilege) { return err }]. *)
Definition require_known (p : PrivilegeKey) : M unit :=
  known ← IsKnownPrivilege p;
  fail_if (known = false) (Errorf "%w: unknown privilege %q" [p] ErrInvalidInput).

(** ** Audit rows written inside the transaction of an operation *)

(** The row [writeRoleAuditTx], [writePrivilegeAuditTx],
    [writeUserBootstrappedAuditTx] and [writeIdentityAuditTx] insert: Source
    and the trace ids are left empty. *)
Definition writeAuditTx (entityType eventType entityID : string) (details : list (string * string)) : M unit :=
  id ← newID;
  now ← nowUTC;
  exec (pgAuditEventStore_Create
          (mkAuditEvent id eventType now entityID entityType (json_marshal details) "" "" "" "")).

Definition writeRoleAuditTx (eventType entityID : string) (details : list (string * string)) : M unit :=
  writeAuditTx "role" eventType entityID details.
Definition writePrivilegeAuditTx (eventType entityID : string) (details : list (string * string)) : M unit :=
  writeAuditTx "user" eventType entityID details.
Definition writeUserBootstrappedAuditTx (userID : string) (details : list (string * string)) : M unit :=
  writeAuditTx "user" userAuditBootstrapped userID details.
Definition writeIdentityAuditTx (userID : string) (details : list (string * string)) : M unit :=
  writeAuditTx "user" identityAuditLinked userID details.

(** ** role.go *)

Definition assertHasPrivilegeTx (actorID : string) (required : PrivilegeKey) : M unit :=
  direct ← wrap "lookup actor direct privilege: %w"
             (queryTx (pgUserPrivilegeStore_FindForUpdate actorID required));
  if decide (direct ≠ None) then mret tt
  else
    roleKeys ← wrap "lookup actor role privileges: %w" (query (pgUserRoleStore_PrivilegesForUser actorID));
    fail_if (required ∉ roleKeys) (Errorf "%w: actor does not hold %s" [required] ErrInvalidInput).

Definition CreateRole (name description actorID : string) : M Role :=
  _ ← fail_if (name = "") (Errorf "%w: name is required" [] ErrInvalidInput);
  _ ← fail_if (actorID = "") (Errorf "%w: actor_id is required" [] ErrInvalidInput);
  id ← newID;
  let role := mkRole id name (stringPtrOrNil description) false zero_time in
  _ ← inTx (
        _ ← assertHasPrivilegeTx actorID RolesManage;
        existing ← wrap "lookup role by name: %w" (query (pgRoleStore_FindByName name));
        _ ← fail_if (existing ≠ None) (Errorf "%w: role %q already exists" [name] ErrAlreadyExists);
        _ ← wrap "insert role: %w" (exec_now (pgRoleStore_Create role));
        writeRoleAuditTx roleAuditCreated (Role_ID role)
          [("name", Role_Name role); ("actor_id", actorID)]);
  mret role.

(** The struct [UpdateRole] writes back. *)
Definition merge_role (name description : string) (existing : Role) : Role :=
  mkRole (Role_ID existing) (or_blank name (Role_Name existing))
    (if decide (description ≠ "") then stringPtrOrNil description else Role_Description existing)
    (Role_IsSystem existing) (Role_CreatedAt existing).

Definition UpdateRole (roleID name description actorID : string) : M Role :=
  _ ← fail_if (roleID = "") (Errorf "%w: role_id is required" [] ErrInvalidInput);
  _ ← fail_if (actorID = "") (Errorf "%w: actor_id is required" [] ErrInvalidInput);
  inTx (
    _ ← assertHasPrivilegeTx actorID RolesManage;
    found ← wrap "lookup role: %w" (query (pgRoleStore_FindByID roleID));
    existing ← deref found (Errorf "%w: role %q does not exist" [roleID] ErrNotFound);
    _ ← fail_if (Role_IsSystem existing = true ∧ name ≠ "" ∧ name ≠ Role_Name existing)
          (Errorf "%w: cannot rename system role %q" [Role_Name existing] ErrInvalidInput);
    let existing := merge_role name description existing in
    _ ← wrap "update role: %w" (exec (pgRoleStore_Update existing));
    _ ← writeRoleAuditTx roleAuditUpdated (Role_ID existing)
          [("actor_id", actorID); ("name", Role_Name existing)];
    mret existing).

Definition DeleteRole (roleID actorID : string) : M unit :=
  _ ← fail_if (roleID = "") (Errorf "%w: role_id is required" [] ErrInvalidInput);
  _ ← fail_if (actorID = "") (Errorf "%w: actor_id is required" [] ErrInvalidInput);
  inTx (
    _ ← assertHasPrivilegeTx actorID RolesManage;
    found ← wrap "lookup role: %w" (query (pgRoleStore_FindByID roleID));
    existing ← deref found (Errorf "%w: role %q does not exist" [roleID] ErrNotFound);
    _ ← fail_if (Role_IsSystem existing = true)
          (Errorf "%w: cannot delete system role %q" [Role_Name existing] ErrInvalidInput);
    _ ← wrap "delete role: %w" (exec (pgRoleStore_Delete roleID));
    writeRoleAuditTx roleAuditDeleted roleID [("actor_id", actorID); ("name", Role_Name existing)]).

Definition GetRole (roleID : string) : M Role :=
  r ← wrap "get role: %w" (query (pgRoleStore_FindByID roleID));
  deref r ErrNotFound.

Definition ListRoles : M (list Role) := query pgRoleStore_List.

Definition ListRolePrivileges (roleID : string) : M (list PrivilegeKey) :=
  _ ← fail_if (roleID = "") (Errorf "%w: role_id is required" [] ErrInvalidInput);
  query (pgRoleStore_ListPrivileges roleID).

Definition AddPrivilegeToRole (roleID : string) (privilege : PrivilegeKey) (actorID : string) : M unit :=
  _ ← fail_if (roleID = "") (Errorf "%w: role_id is required" [] ErrInvalidInput);
  _ ← require_known privilege;
  _ ← fail_if (actorID = "") (Errorf "%w: actor_id is required" [] ErrInvalidInput);
  inTx (
    _ ← assertHasPrivilegeTx actorID RolesManage;
    found ← wrap "lookup role: %w" (query (pgRoleStore_FindByID roleID));
    existing ← deref found (Errorf "%w: role %q does not exist" [roleID] ErrNotFound);
    has ← wrap "check role privilege: %w" (queryTx (pgRoleStore_HasPrivilege roleID privilege));
    _ ← fail_if (has = true)
          (Errorf "%w: role %q already carries %q" [Role_Name existing; privilege] ErrAlreadyExists);
    _ ← wrap "add role privilege: %w" (exec (pgRoleStore_AddPrivilege roleID privilege));
    writeRoleAuditTx roleAuditPrivilegeAdded roleID
      [("actor_id", actorID); ("privilege", privilege); ("role_name", Role_Name existing)]).

Definition RemovePrivilegeFromRole (roleID : string) (privilege : PrivilegeKey) (actorID : string) : M unit :=
  _ ← fail_if (roleID = "") (Errorf "%w: role_id is required" [] ErrInvalidInput);
  _ ← require_known privilege;
  _ ← fail_if (actorID = "") (Errorf "%w: actor_id is required" [] ErrInvalidInput);
  inTx (
    _ ← assertHasPrivilegeTx actorID RolesManage;
    found ← wrap "lookup role: %w" (query (pgRoleStore_FindByID roleID));
    existing ← deref found (Errorf "%w: role %q does not exist" [roleID] ErrNotFound);
    has ← wrap "check role privilege: %w" (queryTx (pgRoleStore_HasPrivilege roleID privilege));
    _ ← fail_if (has = false)
          (Errorf "%w: role %q does not carry %q" [Role_Name existing; privilege] ErrNotFound);
    _ ← when (privilege = PrivilegesGrant ∨ privilege = RolesManage) (
          count ← wrap "count roles granting privilege: %w"
                    (queryTx (pgRoleStore_CountRolesGrantingPrivilege privilege));
          fail_if (count ≤ 1)
            (Errorf "%w: cannot remove the last source of %q from any role" [privilege] ErrInvalidInput));
    _ ← wrap "remove role privilege: %w" (exec (pgRoleStore_RemovePrivilege roleID privilege));
    writeRoleAuditTx roleAuditPrivilegeRemoved roleID
      [("actor_id", actorID); ("privilege", privilege); ("role_name", Role_Name existing)]).

(** ** user_role.go *)

Definition GrantRoleToUser (userID roleID granterID reason : string) : M UserRole :=
  _ ← fail_if (userID = "") (Errorf "%w: user_id is required" [] ErrInvalidInput);
  _ ← fail_if (roleID = "") (Errorf "%w: role_id is required" [] ErrInvalidInput);
  _ ← fail_if (granterID = "") (Errorf "%w: granter_id is required" [] ErrInvalidInput);
  now ← nowUTC;
  let assignment := mkUserRole userID roleID (stringPtrOrNil granterID) now (stringPtrOrNil reason) in
  _ ← inTx (
        _ ← assertHasPrivilegeTx granterID RolesManage;
        found ← wrap "lookup role: %w" (query (pgRoleStore_FindByID roleID));
        role ← deref found (Errorf "%w: role %q does not exist" [roleID] ErrNotFound);
        existing ← wrap "lookup existing assignment: %w"
                     (queryTx (pgUserRoleStore_FindForUpdate userID roleID));
        _ ← fail_if (existing ≠ None)
              (Errorf "%w: user already holds role %q" [Role_Name role] ErrAlreadyExists);
        _ ← wrap "insert role assignment: %w" (exec (pgUserRoleStore_Create assignment));
        writeRoleAuditTx userRoleAuditGranted userID
          [("actor_id", granterID); ("role_id", roleID); ("role_name", Role_Name role); ("reason", reason)]);
  mret assignment.

Definition countUsersHoldingPrivilegeTx (key : PrivilegeKey) : M nat :=
  queryTx (λ d, size (privilege_holders key d)).

Definition userHasPrivilegeOutsideTx (userID : string) (key : PrivilegeKey) (excludeRoleID : string) : M bool :=
  queryTx (has_privilege_outside userID key excludeRoleID).

(** The loop of [assertNotLastMetaHolderTx] over the meta privileges. *)
Fixpoint lastMetaHolderLoop (keys : list PrivilegeKey) (userID roleID : string) : M unit :=
  match keys with
  | [] => mret tt
  | key :: keys' =>
      rolePrivs ← wrap "list role privileges: %w" (query (pgRoleStore_ListPrivileges roleID));
      _ ← when (key ∈ rolePrivs) (
            count ← wrapf "count holders of %s: %w" [key] (countUsersHoldingPrivilegeTx key);
            when (count ≤ 1) (
              other ← wrap "check alternative source: %w" (userHasPrivilegeOutsideTx userID key roleID);
              fail_if (other = false)
                (Errorf "%w: cannot revoke; would leave no holder of %s" [key] ErrInvalidInput)));
      lastMetaHolderLoop keys' userID roleID
  end.

Definition assertNotLastMetaHolderTx (userID roleID : string) : M unit :=
  lastMetaHolderLoop [PrivilegesGrant; RolesManage] userID roleID.

Definition RevokeRoleFromUser (userID roleID revokerID reason : string) : M unit :=
  _ ← fail_if (userID = "") (Errorf "%w: user_id is required" [] ErrInvalidInput);
  _ ← fail_if (roleID = "") (Errorf "%w: role_id is required" [] ErrInvalidInput);
  _ ← fail_if (revokerID = "") (Errorf "%w: revoker_id is required" [] ErrInvalidInput);
  inTx (
    _ ← assertHasPrivilegeTx revokerID RolesManage;
    found ← wrap "lookup role: %w" (query (pgRoleStore_FindByID roleID));
    role ← deref found (Errorf "%w: role %q does not exist" [roleID] ErrNotFound);
    existing ← wrap "lookup assignment: %w" (queryTx (pgUserRoleStore_FindForUpdate userID roleID));
    _ ← fail_if (existing = None)
          (Errorf "%w: user does not hold role %q" [Role_Name role] ErrNotFound);
    _ ← assertNotLastMetaHolderTx userID roleID;
    _ ← wrap "delete role assignment: %w" (exec (pgUserRoleStore_Delete userID roleID));
    writeRoleAuditTx userRoleAuditRevoked userID
      [("actor_id", revokerID); ("role_id", roleID); ("role_name", Role_Name role); ("reason", reason)]).

Definition ListUserRoles (userID : string) : M (list UserRole) :=
  _ ← fail_if (userID = "") (Errorf "%w: user_id is required" [] ErrInvalidInput);
  query (pgUserRoleStore_ListByUser userID).

Definition ListUserRolesWithPrivileges (userID : string) : M (list UserRoleDetail) :=
  _ ← fail_if (userID = "") (Errorf "%w: user_id is required" [] ErrInvalidInput);
  query (pgUserRoleStore_ListDetailedByUser userID).

Definition ListRoleHolders (roleID : string) : M (list UserRole) :=
  _ ← fail_if (roleID = "") (Errorf "%w: role_id is required" [] ErrInvalidInput);
  query (pgUserRoleStore_ListByRole roleID).

(** The loop of [ensureSuperAdminRoleTx] over the registered privileges. *)
Fixpoint attachPrivilegesTx (roleID : string) (keys : list PrivilegeKey) : M unit :=
  match keys with
  | [] => mret tt
  | key :: keys' =>
      has ← wrapf "check super_admin privilege %s: %w" [key] (queryTx (pgRoleStore_HasPrivilege roleID key));
      _ ← when (has = false)
            (wrapf "attach %s to super_admin: %w" [key] (exec (pgRoleStore_AddPrivilege roleID key)));
      attachPrivilegesTx roleID keys'
  end.

Definition ensureSuperAdminRoleTx : M Role :=
  found ← wrap "lookup super_admin role: %w" (query (pgRoleStore_FindByName SystemRoleSuperAdmin));
  role ← match found with
         | Some role => mret role
         | None =>
             id ← newID;
             let role := mkRole id SystemRoleSuperAdmin
                           (stringPtrOrNil "bootstrap role carrying every registered privilege")
                           true zero_time in
             _ ← wrap "create super_admin role: %w" (exec_now (pgRoleStore_Create role));
             mret role
         end;
  keys ← KnownPrivileges;
  _ ← attachPrivilegesTx (Role_ID role) keys;
  mret role.

Definition createBootstrapUser (email source : string) : M User :=
  inTx (
    found ← wrap "lookup system org: %w" (query (pgOrganizationStore_FindByID bootstrapSystemOrgID));
    org ← match found with
          | Some org => mret org
          | None =>
              let org := mkOrganization bootstrapSystemOrgID bootstrapSystemOrgID "System" in
              _ ← wrap "create system org: %w" (exec (pgOrganizationStore_Create org));
              mret org
          end;
    id ← newID;
    let created := mkUser id (Organization_ID org) "" "" "" email UserPending UserTypeSystem in
    _ ← wrap "insert bootstrap user: %w" (exec (pgUserStore_Create created));
    _ ← writeUserBootstrappedAuditTx (User_ID created) [("email", email); ("source", source)];
    mret created).

(** The transaction of [BootstrapSuperAdmin]. *)
Definition bootstrapTx (userID source : string) : M unit :=
  role ← wrap "ensure super_admin role: %w" ensureSuperAdminRoleTx;
  existing ← wrap "lookup existing assignment: %w"
               (queryTx (pgUserRoleStore_FindForUpdate userID (Role_ID role)));
  if decide (existing ≠ None) then mret tt
  else
    holders ← wrap "count super_admin holders: %w" (query (pgUserRoleStore_ListByRole (Role_ID role)));
    if decide (0 < length holders) then mret tt
    else
      now ← nowUTC;
      let assignment := mkUserRole userID (Role_ID role) None now (stringPtrOrNil "bootstrap") in
      _ ← wrap "insert bootstrap assignment: %w" (exec (pgUserRoleStore_Create assignment));
      wrap "audit bootstrap assignment: %w"
        (writeRoleAuditTx userRoleAuditBootstrap userID
           [("role_id", Role_ID role); ("role_name", Role_Name role); ("source", source)]).

Definition BootstrapSuperAdmin (email source : string) : M unit :=
  if decide (email = "") then mret tt
  else
    found ← wrap "lookup bootstrap user: %w" (query (pgUserStore_FindByEmail email));
    user ← match found with
           | Some user => mret user
           | None => wrap "create bootstrap user: %w" (createBootstrapUser email source)
           end;
    inTx (bootstrapTx (User_ID user) source).

(** ** user_privilege.go *)

Definition assertGranterTx (actorID : string) : M unit := assertHasPrivilegeTx actorID PrivilegesGrant.

Definition GrantPrivilege (userID : string) (privilege : PrivilegeKey) (granterID reason : string) : M UserPrivilege :=
  _ ← fail_if (userID = "") (Errorf "%w: user_id is required" [] ErrInvalidInput);
  _ ← fail_if (granterID = "") (Errorf "%w: granter_id is required" [] ErrInvalidInput);
  _ ← require_known privilege;
  id ← newID;
  now ← nowUTC;
  let grant := mkUserPrivilege id userID privilege (stringPtrOrNil granterID) now (stringPtrOrNil reason) in
  _ ← inTx (
        _ ← assertGranterTx granterID;
        existing ← wrap "lookup existing grant: %w"
                     (queryTx (pgUserPrivilegeStore_FindForUpdate userID privilege));
        _ ← fail_if (existing ≠ None)
              (Errorf "%w: privilege %q is already active for user" [privilege] ErrAlreadyExists);
        _ ← wrap "insert privilege grant: %w" (exec (pgUserPrivilegeStore_Create grant));
        writePrivilegeAuditTx privilegeAuditGrant userID
          [("privilege", privilege); ("actor_id", granterID); ("reason", reason)]);
  mret grant.

Definition RevokePrivilege (userID : string) (privilege : PrivilegeKey) (revokerID reason : string) : M unit :=
  _ ← fail_if (userID = "") (Errorf "%w: user_id is required" [] ErrInvalidInput);
  _ ← fail_if (revokerID = "") (Errorf "%w: revoker_id is required" [] ErrInvalidInput);
  _ ← require_known privilege;
  _ ← fail_if (privilege = PrivilegesGrant ∧ revokerID = userID)
        (Errorf "%w: cannot self-revoke %s" [PrivilegesGrant] ErrInvalidInput);
  inTx (
    _ ← assertGranterTx revokerID;
    existing ← wrap "lookup active grant: %w"
                 (queryTx (pgUserPrivilegeStore_FindForUpdate userID privilege));
    _ ← fail_if (existing = None)
          (Errorf "%w: no active grant for privilege %q" [privilege] ErrNotFound);
    _ ← when (privilege = PrivilegesGrant) (
          count ← wrap "count meta holders: %w" (queryTx (pgUserPrivilegeStore_CountByPrivilege PrivilegesGrant));
          fail_if (count ≤ 1)
            (Errorf "%w: cannot revoke the last active %s" [PrivilegesGrant] ErrInvalidInput));
    _ ← wrap "delete grant: %w" (exec (pgUserPrivilegeStore_Delete userID privilege));
    writePrivilegeAuditTx privilegeAuditRevoke userID
      [("privilege", privilege); ("actor_id", revokerID); ("reason", reason)]).

Definition HasPrivilege (userID : string) (privilege : PrivilegeKey) : M bool :=
  _ ← fail_if (userID = "") (Errorf "%w: user_id is required" [] ErrInvalidInput);
  _ ← require_known privilege;
  direct ← wrap "lookup direct privilege: %w" (query (pgUserPrivilegeStore_Find userID privilege));
  if decide (direct ≠ None) then mret true
  else
    roleKeys ← wrap "lookup role privileges: %w" (query (pgUserRoleStore_PrivilegesForUser userID));
    mret (bool_decide (privilege ∈ roleKeys)).

Definition ListUserPrivileges (userID : string) : M (list UserPrivilege) :=
  _ ← fail_if (userID = "") (Errorf "%w: user_id is required" [] ErrInvalidInput);
  wrap "list privileges: %w" (query (pgUserPrivilegeStore_ListByUser userID)).

(** The keys of a Go map come in no specified order: the result is read as a
    set. *)
Definition EffectivePrivileges (userID : string) : M (list PrivilegeKey) :=
  _ ← fail_if (userID = "") (Errorf "%w: user_id is required" [] ErrInvalidInput);
  direct ← wrap "list direct privileges: %w" (query (pgUserPrivilegeStore_ListByUser userID));
  roleKeys ← wrap "list role privileges: %w" (query (pgUserRoleStore_PrivilegesForUser userID));
  mret (elements (list_to_set (UserPrivilege_Privilege <$> direct) ∪ list_to_set roleKeys : gset PrivilegeKey)).

Definition ListPrivilegeHolders (privilege : PrivilegeKey) : M (list UserPrivilege) :=
  _ ← require_known privilege;
  wrap "list privilege holders: %w" (query (pgUserPrivilegeStore_ListByPrivilege privilege)).

Definition PrivilegeCatalog : M (list PrivilegeKey) := KnownPrivileges.

(** ** audit_event.go *)

(** internal/audit [WithSource]. *)
Definition WithSource (ctx : AuditCtx) (source : string) : AuditCtx :=
  if decide (source = "") then ctx
  else mkAuditCtx (ctx_traceID ctx) (ctx_spanID ctx) (ctx_parentSpanID ctx) source.

(** internal/tracing/audit.go [PopulateAuditIDs]. *)
Definition PopulateAuditIDs (ctx : AuditCtx) (traceID spanID parentSpanID : string) : string * string * string :=
  let '(t, s) := if decide (traceID = "" ∧ spanID = "") then (ctx_traceID ctx, ctx_spanID ctx)
                 else (traceID, spanID) in
  (t, s, or_blank parentSpanID (ctx_parentSpanID ctx)).

Definition CreateAuditEvent (ctx : AuditCtx) (event : option AuditEvent) : M AuditEvent :=
  e ← deref event (Errorf "%w: audit event is nil" [] ErrInvalidInput);
  _ ← fail_if (AuditEvent_EventType e = "") (Errorf "%w: event_type is required" [] ErrInvalidInput);
  _ ← fail_if (AuditEvent_EntityID e = "") (Errorf "%w: entity_id is required" [] ErrInvalidInput);
  id ← or_newID (AuditEvent_ID e);
  time ← or_now (AuditEvent_EventTime e);
  let '(traceID, spanID, parentSpanID) :=
    PopulateAuditIDs ctx (AuditEvent_TraceID e) (AuditEvent_SpanID e) (AuditEvent_ParentSpanID e) in
  let source := or_blank (AuditEvent_Source e) (or_blank (ctx_source ctx) SourceCore) in
  let e := mkAuditEvent id (AuditEvent_EventType e) time (AuditEvent_EntityID e) (AuditEvent_EntityType e)
             (AuditEvent_Details e) source traceID spanID parentSpanID in
  _ ← wrap "create audit event: %w" (inTx (exec (pgAuditEventStore_Create e)));
  mret e.

Definition GetAuditEvent (id : string) : M AuditEvent :=
  e ← wrap "get audit event: %w" (query (pgAuditEventStore_FindByID id));
  deref e ErrNotFound.

Definition ListAuditEventsByEntity (entityID : string) : M (list AuditEvent) :=
  _ ← fail_if (entityID = "") (Errorf "%w: entity_id is required" [] ErrInvalidInput);
  wrap "list audit events by entity: %w" (query (pgAuditEventStore_FindByEntity entityID)).

Definition ListAuditEventsByEventType (eventType : string) : M (list AuditEvent) :=
  _ ← fail_if (eventType = "") (Errorf "%w: event_type is required" [] ErrInvalidInput);
  wrap "list audit events by event type: %w" (query (pgAuditEventStore_FindByEventType eventType)).

Definition ListAllAuditEvents : M (list AuditEvent) :=
  wrap "list all audit events: %w" (query pgAuditEventStore_ListAll).

Definition DeleteAuditEvent (id : string) : M unit :=
  _ ← fail_if (id = "") (Errorf "%w: audit event id is required" [] ErrInvalidInput);
  existing ← wrap "lookup audit event: %w" (query (pgAuditEventStore_FindByID id));
  _ ← fail_if (existing = None) ErrNotFound;
  wrap "delete audit event: %w" (inTx (exec (pgAuditEventStore_Delete id))).

(** ** identity_resolver.go *)

Definition SetIdentityCacheTTL (d : Z) : M unit :=
  modify (λ w, set_cache (cache_setTTL d (w_cache w)) w).

Definition InvalidateAllIdentities : M unit :=
  modify (λ w, set_cache (cache_invalidateAll (w_cache w)) w).

Definition cacheGet (sub : string) (now : Time) : M (option identityCacheEntry) := λ w,
  let '(r, c) := cache_get sub now (w_cache w) in (Ok r, set_cache c w).

Definition cacheSet (sub : string) (caller : Caller) (privs : list PrivilegeKey) (now : Time) : M unit :=
  modify (λ w, set_cache (cache_set sub caller privs now (w_cache w)) w).

(** The transaction of [linkBySub]. *)
Definition linkTx (claims : Claims) (userID : string) : M unit :=
  id ← newID;
  let binding := mkUserIdentity id userID identitySourceOIDC (Claims_Sub claims) (Claims_Email claims)
                   (Claims_Sub claims) "" zero_time in
  _ ← wrap "create oidc identity: %w" (exec_now (pgUserIdentityStore_Create binding));
  _ ← wrap "activate user: %w" (exec (pgUserStore_UpdateStatus userID UserActive));
  writeIdentityAuditTx userID
    [("oidc_sub", Claims_Sub claims); ("email", Claims_Email claims); ("source", "oidc_email_fallback")].

Definition linkBySub (claims : Claims) : M User :=
  _ ← fail_if (Claims_Email claims = "") ErrEmailNotVerified;
  found ← wrap "email-fallback lookup: %w" (query (pgUserStore_FindByEmail (Claims_Email claims)));
  user ← deref found ErrNoUserMatchesEmail;
  existingOIDC ← wrap "email-fallback identity scan: %w"
    (query (pgUserIdentityStore_FindByUserAndSource (User_ID user) identitySourceOIDC));
  _ ← fail_if (existingOIDC ≠ None) ErrUserAlreadyOIDCLinked;
  _ ← fail_if (User_Status user ≠ UserPending)
        (Errorf "%w: status=%s" [User_Status user] ErrUserNotPending);
  _ ← inTx (linkTx claims (User_ID user));
  mret (with_user_status UserActive user).

Definition ResolveCaller (claims : option Claims) : M (Caller * list PrivilegeKey) :=
  c ← deref claims ErrNotLinked;
  _ ← fail_if (Claims_Sub c = "") ErrNotLinked;
  now ← nowUTC;
  hit ← cacheGet (Claims_Sub c) now;
  match hit with
  | Some e => mret (entry_caller e, entry_privs e)
  | None =>
      found ← query (pgUserStore_GetUserByOIDCSub (Claims_Sub c));
      user ← match found with
             | Some user => mret user
             | None => linkBySub c
             end;
      privs ← EffectivePrivileges (User_ID user);
      let caller := mkCaller (User_ID user) in
      _ ← cacheSet (Claims_Sub c) caller privs now;
      mret (caller, privs)
  end.
End auth_service.
