(* ===== verification/ProjectService.v ===== *)
(** * Service: projects, clusters and cluster users

    pkg/service/{project,project_membership,compute_cluster,
    compute_cluster_user}.go. *)

From S2P Require Import Prelude GoError Models Schema Events IdentityCache Effects.
From S2P Require Import StoreIdentity StoreProject StoreCluster UserService.
From stdpp Require Import base gmap list strings.
From Stdlib Require Import ZArith.

Section project_service.
Context `{E : Env}.

(** ** project.go *)

Definition CreateProject (project : option Project) : M Project :=
  p ← deref project (Errorf "%w: project is nil" [] ErrInvalidInput);
  _ ← fail_if (Project_Title p = "") (Errorf "%w: project title is required" [] ErrInvalidInput);
  _ ← fail_if (Project_ProjectPIID p = "") (Errorf "%w: project_pi_id is required" [] ErrInvalidInput);
  pi ← wrap "verify project PI: %w" (query (pgUserStore_FindByID (Project_ProjectPIID p)));
  _ ← fail_if (pi = None)
        (Errorf "%w: PI user %q does not exist" [Project_ProjectPIID p] ErrInvalidInput);
  _ ← when (Project_OriginatedID p ≠ "") (
        existing ← wrap "lookup project by originated id: %w"
                     (query (pgProjectStore_FindByOriginatedID (Project_OriginatedID p)));
        fail_if (existing ≠ None)
          (Errorf "%w: project with originated_id %q" [Project_OriginatedID p] ErrAlreadyExists));
  id ← or_newID (Project_ID p);
  created ← or_now (Project_CreatedTime p);
  let p := mkProject id (Project_OriginatedID p) (Project_Title p) (Project_Origination p)
             (Project_ProjectPIID p) (or_blank (Project_Status p) ProjectActive) created in
  _ ← wrap "create project: %w" (inTx (exec (pgProjectStore_Create p)));
  _ ← publish ProjectCreateEvent (PProject p);
  mret p.

Definition GetProject (id : string) : M Project :=
  p ← wrap "get project: %w" (query (pgProjectStore_FindByID id));
  deref p ErrNotFound.

Definition GetProjectByOriginatedID (originatedID : string) : M Project :=
  p ← wrap "get project by originated id: %w" (query (pgProjectStore_FindByOriginatedID originatedID));
  deref p ErrNotFound.

Definition ListProjectsByPI (piUserID : string) : M (list Project) :=
  wrap "list projects by PI: %w" (query (pgProjectStore_FindByPI piUserID)).

Definition ListProjects (f : ProjectListFilter) : M (list Project * nat) :=
  wrap "list projects: %w" (query (pgProjectStore_List f)).

Definition GetProjectWithPI (id : string) : M ProjectWithPI :=
  p ← wrap "get project: %w" (query (pgProjectStore_FindByIDWithPI id));
  deref p ErrNotFound.

Definition ListProjectsWithPI (f : ProjectListFilter) : M (list ProjectWithPI * nat) :=
  wrap "list projects: %w" (query (pgProjectStore_ListWithPI f)).

Definition ListProjectsForParticipant (userID : string) : M (list ProjectWithPI) :=
  _ ← fail_if (userID = "") (Errorf "%w: user id is required" [] ErrInvalidInput);
  wrap "list projects for participant: %w" (query (pgProjectStore_ListWithPIForParticipant userID)).

Definition IsProjectParticipant (projectID userID : string) : M bool :=
  _ ← fail_if (projectID = "" ∨ userID = "")
        (Errorf "%w: project id and user id are required" [] ErrInvalidInput);
  wrap "check project participant: %w" (query (pgProjectMembershipStore_IsParticipant projectID userID)).

Definition merge_project (p existing : Project) : Project :=
  mkProject (Project_ID p)
    (or_blank (Project_OriginatedID p) (Project_OriginatedID existing))
    (or_blank (Project_Title p) (Project_Title existing))
    (or_blank (Project_Origination p) (Project_Origination existing))
    (or_blank (Project_ProjectPIID p) (Project_ProjectPIID existing))
    (or_blank (Project_Status p) (Project_Status existing))
    (if decide (IsZero (Project_CreatedTime p)) then Project_CreatedTime existing else Project_CreatedTime p).

Definition UpdateProject (project : option Project) : M unit :=
  p ← deref project (Errorf "%w: project id is required" [] ErrInvalidInput);
  _ ← fail_if (Project_ID p = "") (Errorf "%w: project id is required" [] ErrInvalidInput);
  found ← wrap "lookup project: %w" (query (pgProjectStore_FindByID (Project_ID p)));
  existing ← deref found ErrNotFound;
  let p := merge_project p existing in
  _ ← wrap "update project: %w" (inTx (exec (pgProjectStore_Update p)));
  publish ProjectUpdateEvent (PProject p).

Definition UpdateProjectStatus (id status : string) : M Project :=
  _ ← fail_if (id = "") (Errorf "%w: project id is required" [] ErrInvalidInput);
  _ ← fail_if (status = "") (Errorf "%w: status is required" [] ErrInvalidInput);
  found ← wrap "lookup project: %w" (query (pgProjectStore_FindByID id));
  existing ← deref found ErrNotFound;
  _ ← wrap "update project status: %w" (inTx (exec (pgProjectStore_UpdateStatus id status)));
  let existing := with_project_status status existing in
  _ ← publish ProjectUpdateEvent (PProject existing);
  mret existing.

Definition DeleteProject (id : string) : M unit :=
  _ ← fail_if (id = "") (Errorf "%w: project id is required" [] ErrInvalidInput);
  found ← wrap "lookup project: %w" (query (pgProjectStore_FindByID id));
  project ← deref found ErrNotFound;
  _ ← wrap "delete project: %w" (inTx (exec (pgProjectStore_Delete id)));
  publish ProjectDeleteEvent (PProject project).

(** ** project_membership.go *)

Definition normalizeProjectRole (raw : string) : option string :=
  if decide (raw = "PI") then Some ProjectRolePI
  else if decide (raw = "CO_PI") then Some ProjectRoleCoPI
  else if decide (raw = "ALLOCATION_MANAGER") then Some ProjectRoleAllocationManager
  else None.

Definition EnsureProjectMembership (projectID userID role : string) : M unit :=
  _ ← fail_if (projectID = "") (Errorf "%w: project_id is required" [] ErrInvalidInput);
  _ ← fail_if (userID = "") (Errorf "%w: user_id is required" [] ErrInvalidInput);
  if decide (role = "MEMBER" ∨ role = "") then
    existing ← wrap "lookup project membership: %w"
                 (query (pgProjectMembershipStore_FindByPair projectID userID));
    match existing with
    | None => mret tt
    | Some pm =>
        _ ← fail_if (ProjectMembership_Role pm = ProjectRolePI)
              (Errorf "%w: cannot demote PI of project %q" [projectID] ErrPIChange);
        inTx (exec (pgProjectMembershipStore_Delete projectID userID))
    end
  else
    pr ← deref (normalizeProjectRole role) (Errorf "%w: unknown project role %q" [role] ErrInvalidInput);
    existing ← wrap "lookup project membership: %w"
                 (query (pgProjectMembershipStore_FindByPair projectID userID));
    _ ← when (pr = ProjectRolePI) (
          currentPI ← wrap "lookup PI: %w" (query (pgProjectMembershipStore_FindPIByProject projectID));
          match currentPI with
          | Some cp => fail_if (ProjectMembership_UserID cp ≠ userID)
                         (Errorf "%w: project %q already has PI %q"
                            [projectID; ProjectMembership_UserID cp] ErrPIChange)
          | None => mret tt
          end);
    match existing with
    | Some pm =>
        _ ← fail_if (ProjectMembership_Role pm = ProjectRolePI ∧ pr ≠ ProjectRolePI)
              (Errorf "%w: cannot downgrade PI of project %q" [projectID] ErrPIChange);
        if decide (ProjectMembership_Role pm = pr) then mret tt
        else inTx (exec (pgProjectMembershipStore_UpdateRole projectID userID pr))
    | None =>
        now ← nowUTC;
        inTx (exec (pgProjectMembershipStore_Create (mkProjectMembership projectID userID pr now)))
    end.

Definition ProjectRoleForUser (projectID userID : string) : M string :=
  pm ← wrap "lookup project role: %w" (query (pgProjectMembershipStore_FindByPair projectID userID));
  mret (from_option ProjectMembership_Role "" pm).

Definition ListProjectMemberships (projectID : string) : M (list ProjectMembership) :=
  _ ← fail_if (projectID = "") (Errorf "%w: project_id is required" [] ErrInvalidInput);
  wrap "list project memberships: %w" (query (pgProjectMembershipStore_FindByProject projectID)).

(** ** compute_cluster.go *)

Definition CreateComputeCluster (cluster : option ComputeCluster) : M ComputeCluster :=
  c ← deref cluster (Errorf "%w: compute cluster is nil" [] ErrInvalidInput);
  _ ← fail_if (ComputeCluster_Name c = "")
        (Errorf "%w: compute cluster name is required" [] ErrInvalidInput);
  id ← or_newID (ComputeCluster_ID c);
  let c := mkComputeCluster id (ComputeCluster_Name c) in
  existing ← wrap "lookup compute cluster by name: %w"
               (query (pgComputeClusterStore_FindByName (ComputeCluster_Name c)));
  _ ← fail_if (existing ≠ None)
        (Errorf "%w: compute cluster with name %q" [ComputeCluster_Name c] ErrAlreadyExists);
  _ ← wrap "create compute cluster: %w" (inTx (exec (pgComputeClusterStore_Create c)));
  _ ← publish ComputeClusterCreateEvent (PComputeCluster c);
  mret c.

Definition GetComputeCluster (id : string) : M ComputeCluster :=
  c ← wrap "get compute cluster: %w" (query (pgComputeClusterStore_FindByID id));
  deref c ErrNotFound.

Definition GetComputeClusterByName (name : string) : M ComputeCluster :=
  c ← wrap "get compute cluster by name: %w" (query (pgComputeClusterStore_FindByName name));
  deref c ErrNotFound.

Definition ListComputeClusters : M (list ComputeCluster) :=
  wrap "list compute clusters: %w" (query pgComputeClusterStore_List).

Definition UpdateComputeCluster (cluster : option ComputeCluster) : M unit :=
  c ← deref cluster (Errorf "%w: compute cluster id is required" [] ErrInvalidInput);
  _ ← fail_if (ComputeCluster_ID c = "") (Errorf "%w: compute cluster id is required" [] ErrInvalidInput);
  _ ← fail_if (ComputeCluster_Name c = "")
        (Errorf "%w: compute cluster name is required" [] ErrInvalidInput);
  _ ← wrap "update compute cluster: %w" (inTx (exec (pgComputeClusterStore_Update c)));
  publish ComputeClusterUpdateEvent (PComputeCluster c).

Definition DeleteComputeCluster (id : string) : M unit :=
  _ ← fail_if (id = "") (Errorf "%w: compute cluster id is required" [] ErrInvalidInput);
  found ← wrap "lookup compute cluster: %w" (query (pgComputeClusterStore_FindByID id));
  cluster ← deref found ErrNotFound;
  _ ← wrap "delete compute cluster: %w" (inTx (exec (pgComputeClusterStore_Delete id)));
  publish ComputeClusterDeleteEvent (PComputeCluster cluster).

(** ** compute_cluster_user.go *)

Definition isLocalUsernameDuplicate (e : error) : bool :=
  Error_contains "uq_compute_cluster_users_local_username" e.

Definition isPairDuplicate (e : error) : bool :=
  Error_contains "uq_compute_cluster_users_pair" e.

(** The switch on the error of the transaction of [CreateComputeClusterUser]. *)
Definition cluster_user_error (cu : ComputeClusterUser) (e : error) : error :=
  if isLocalUsernameDuplicate e then Errorf "%w: %s" [ComputeClusterUser_LocalUsername cu] ErrAlreadyExists
  else if isPairDuplicate e then
    Errorf "%w: user %q is already mapped on cluster %q"
      [ComputeClusterUser_UserID cu; ComputeClusterUser_ComputeClusterID cu] ErrAlreadyExists
  else Errorf "create compute cluster user: %w" [] e.

Definition with_cluster_user_id (id : string) (c : ComputeClusterUser) : ComputeClusterUser :=
  mkComputeClusterUser id (ComputeClusterUser_ComputeClusterID c) (ComputeClusterUser_UserID c)
    (ComputeClusterUser_LocalUsername c) (ComputeClusterUser_ProvisionedAt c).

Definition CreateComputeClusterUser (clusterUser : option ComputeClusterUser) : M ComputeClusterUser :=
  cu ← deref clusterUser (Errorf "%w: compute cluster user is nil" [] ErrInvalidInput);
  _ ← fail_if (ComputeClusterUser_ComputeClusterID cu = "")
        (Errorf "%w: compute_cluster_id is required" [] ErrInvalidInput);
  _ ← fail_if (ComputeClusterUser_UserID cu = "") (Errorf "%w: user_id is required" [] ErrInvalidInput);
  _ ← fail_if (ComputeClusterUser_LocalUsername cu = "")
        (Errorf "%w: local_username is required" [] ErrInvalidInput);
  id ← or_newID (ComputeClusterUser_ID cu);
  let cu := with_cluster_user_id id cu in
  cluster ← wrap "lookup compute cluster: %w"
              (query (pgComputeClusterStore_FindByID (ComputeClusterUser_ComputeClusterID cu)));
  _ ← fail_if (cluster = None)
        (Errorf "%w: compute cluster %q not found" [ComputeClusterUser_ComputeClusterID cu] ErrInvalidInput);
  user ← wrap "lookup user: %w" (query (pgUserStore_FindByID (ComputeClusterUser_UserID cu)));
  _ ← fail_if (user = None)
        (Errorf "%w: user %q not found" [ComputeClusterUser_UserID cu] ErrInvalidInput);
  existing ← wrap "lookup compute cluster user by pair: %w"
    (query (pgComputeClusterUserStore_FindByPair (ComputeClusterUser_ComputeClusterID cu)
              (ComputeClusterUser_UserID cu)));
  _ ← fail_if (existing ≠ None)
        (Errorf "%w: user %q is already mapped on cluster %q"
           [ComputeClusterUser_UserID cu; ComputeClusterUser_ComputeClusterID cu] ErrAlreadyExists);
  _ ← map_err (cluster_user_error cu) (inTx (exec (pgComputeClusterUserStore_Create cu)));
  _ ← publish ComputeClusterUserCreateEvent (PComputeClusterUser cu);
  mret cu.

Definition GetComputeClusterUser (id : string) : M ComputeClusterUser :=
  c ← wrap "get compute cluster user: %w" (query (pgComputeClusterUserStore_FindByID id));
  deref c ErrNotFound.

Definition GetComputeClusterUserByPair (clusterID userID : string) : M ComputeClusterUser :=
  _ ← fail_if (clusterID = "") (Errorf "%w: compute_cluster_id is required" [] ErrInvalidInput);
  _ ← fail_if (userID = "") (Errorf "%w: user_id is required" [] ErrInvalidInput);
  c ← wrap "get compute cluster user by pair: %w"
        (query (pgComputeClusterUserStore_FindByPair clusterID userID));
  deref c ErrNotFound.

Definition GetComputeClusterUserByClusterAndLocalUsername (clusterID localUsername : string) : M ComputeClusterUser :=
  _ ← fail_if (clusterID = "") (Errorf "%w: compute_cluster_id is required" [] ErrInvalidInput);
  _ ← fail_if (localUsername = "") (Errorf "%w: local_username is required" [] ErrInvalidInput);
  c ← wrap "get compute cluster user by local username and cluster: %w"
        (query (pgComputeClusterUserStore_FindByClusterAndLocalUsername clusterID localUsername));
  deref c ErrNotFound.

Definition ListComputeClusterUsersByCluster (clusterID : string) : M (list ComputeClusterUser) :=
  _ ← fail_if (clusterID = "") (Errorf "%w: compute_cluster_id is required" [] ErrInvalidInput);
  wrap "list compute cluster users by cluster: %w" (query (pgComputeClusterUserStore_FindByCluster clusterID)).

Definition ListComputeClusterUsersByUser (userID : string) : M (list ComputeClusterUser) :=
  _ ← fail_if (userID = "") (Errorf "%w: user_id is required" [] ErrInvalidInput);
  wrap "list compute cluster users by user: %w" (query (pgComputeClusterUserStore_FindByUser userID)).

Definition merge_cluster_user (cu existing : ComputeClusterUser) : ComputeClusterUser :=
  mkComputeClusterUser (ComputeClusterUser_ID cu)
    (or_blank (ComputeClusterUser_ComputeClusterID cu) (ComputeClusterUser_ComputeClusterID existing))
    (or_blank (ComputeClusterUser_UserID cu) (ComputeClusterUser_UserID existing))
    (or_blank (ComputeClusterUser_LocalUsername cu) (ComputeClusterUser_LocalUsername existing))
    (ComputeClusterUser_ProvisionedAt cu).

(** The struct the caller passed is filled in; it is returned here. *)
Definition UpdateComputeClusterUser (clusterUser : option ComputeClusterUser) : M ComputeClusterUser :=
  cu ← deref clusterUser (Errorf "%w: compute cluster user id is required" [] ErrInvalidInput);
  _ ← fail_if (ComputeClusterUser_ID cu = "")
        (Errorf "%w: compute cluster user id is required" [] ErrInvalidInput);
  found ← wrap "lookup compute cluster user: %w"
            (query (pgComputeClusterUserStore_FindByID (ComputeClusterUser_ID cu)));
  existing ← deref found ErrNotFound;
  let cu := merge_cluster_user cu existing in
  _ ← wrap "update compute cluster user: %w" (inTx (exec (pgComputeClusterUserStore_Update cu)));
  _ ← publish ComputeClusterUserUpdateEvent (PComputeClusterUser cu);
  mret cu.

Definition MarkComputeClusterUserProvisioned (id : string) : M unit :=
  _ ← fail_if (id = "") (Errorf "%w: compute cluster user id is required" [] ErrInvalidInput);
  cu ← wrap "lookup compute cluster user: %w" (query (pgComputeClusterUserStore_FindByID id));
  _ ← fail_if (cu = None) ErrNotFound;
  wrap "mark compute cluster user provisioned: %w"
    (inTx (exec_now (pgComputeClusterUserStore_MarkProvisioned id))).

Definition DeleteComputeClusterUser (id : string) : M unit :=
  _ ← fail_if (id = "") (Errorf "%w: compute cluster user id is required" [] ErrInvalidInput);
  found ← wrap "lookup compute cluster user: %w" (query (pgComputeClusterUserStore_FindByID id));
  cu ← deref found ErrNotFound;
  _ ← wrap "delete compute cluster user: %w" (inTx (exec (pgComputeClusterUserStore_Delete id)));
  publish ComputeClusterUserDeleteEvent (PComputeClusterUser cu).
End project_service.
