(* ===== verification/AllocationService.v ===== *)
(** * Service: compute allocations, resources, rates, diffs, change requests

    pkg/service/compute_allocation{,_resource,_resource_mapping,_resource_rate,
    _diff,_change_request,_change_request_event}.go. *)

From S2P Require Import Prelude GoError Models Schema Events IdentityCache Effects.
From S2P Require Import StoreIdentity StoreProject StoreCluster StoreAllocation UserService.
From stdpp Require Import base gmap list strings.
From Stdlib Require Import ZArith SpecFloat.

(** [x < 0] on a float64; false on NaN and on both zeros. *)
Definition float_negative (x : float64) : bool := SFltb x (S754_zero false).

Section allocation_service.
Context `{E : Env}.

(** ** compute_allocation.go *)

Definition ListComputeAllocations (f : AllocationListFilter) : M (list ComputeAllocation * nat) :=
  wrap "list compute allocations: %w" (query (pgComputeAllocationStore_List f)).

Definition ListComputeAllocationsForParticipant (userID : string) : M (list ComputeAllocation) :=
  _ ← fail_if (userID = "") (Errorf "%w: user id is required" [] ErrInvalidInput);
  wrap "list compute allocations for participant: %w"
    (query (pgComputeAllocationStore_FindByParticipant userID)).

Definition CreateComputeAllocation (allocation : option ComputeAllocation) : M ComputeAllocation :=
  a ← deref allocation (Errorf "%w: compute allocation is nil" [] ErrInvalidInput);
  _ ← fail_if (ComputeAllocation_Name a = "")
        (Errorf "%w: compute allocation name is required" [] ErrInvalidInput);
  _ ← fail_if (ComputeAllocation_ProjectID a = "") (Errorf "%w: project_id is required" [] ErrInvalidInput);
  _ ← fail_if (ComputeAllocation_ComputeClusterID a = "")
        (Errorf "%w: compute_cluster_id is required" [] ErrInvalidInput);
  id ← or_newID (ComputeAllocation_ID a);
  let a := mkComputeAllocation id (ComputeAllocation_ProjectID a) (ComputeAllocation_Name a)
             (or_blank (ComputeAllocation_Status a) ACTIVE) (ComputeAllocation_ComputeClusterID a)
             (ComputeAllocation_InitialSUAmount a) (ComputeAllocation_StartTime a)
             (ComputeAllocation_EndTime a) in
  proj ← wrap "lookup project: %w" (query (pgProjectStore_FindByID (ComputeAllocation_ProjectID a)));
  _ ← fail_if (proj = None)
        (Errorf "%w: project %q not found" [ComputeAllocation_ProjectID a] ErrInvalidInput);
  cluster ← wrap "lookup compute cluster: %w"
              (query (pgComputeClusterStore_FindByID (ComputeAllocation_ComputeClusterID a)));
  _ ← fail_if (cluster = None)
        (Errorf "%w: compute cluster %q not found" [ComputeAllocation_ComputeClusterID a] ErrInvalidInput);
  _ ← wrap "create compute allocation: %w" (inTx (exec (pgComputeAllocationStore_Create a)));
  _ ← publish ComputeAllocationCreateEvent (PComputeAllocation a);
  mret a.

Definition GetComputeAllocation (id : string) : M ComputeAllocation :=
  a ← wrap "get compute allocation: %w" (query (pgComputeAllocationStore_FindByID id));
  deref a ErrNotFound.

Definition ListComputeAllocationsByProject (projectID : string) : M (list ComputeAllocation) :=
  wrap "list compute allocations by project: %w" (query (pgComputeAllocationStore_FindByProject projectID)).

Definition ListComputeAllocationsByCluster (clusterID : string) : M (list ComputeAllocation) :=
  wrap "list compute allocations by cluster: %w" (query (pgComputeAllocationStore_FindByCluster clusterID)).

Definition UpdateComputeAllocation (allocation : option ComputeAllocation) : M unit :=
  a ← deref allocation (Errorf "%w: compute allocation id is required" [] ErrInvalidInput);
  _ ← fail_if (ComputeAllocation_ID a = "")
        (Errorf "%w: compute allocation id is required" [] ErrInvalidInput);
  _ ← wrap "update compute allocation: %w" (inTx (exec (pgComputeAllocationStore_Update a)));
  publish ComputeAllocationUpdateEvent (PComputeAllocation a).

Definition DeleteComputeAllocation (id : string) : M unit :=
  _ ← fail_if (id = "") (Errorf "%w: compute allocation id is required" [] ErrInvalidInput);
  found ← wrap "lookup compute allocation: %w" (query (pgComputeAllocationStore_FindByID id));
  a ← deref found ErrNotFound;
  _ ← wrap "delete compute allocation: %w" (inTx (exec (pgComputeAllocationStore_Delete id)));
  publish ComputeAllocationDeleteEvent (PComputeAllocation a).

(** ** compute_allocation_resource.go *)

Definition with_resource_id (id : string) (r : ComputeAllocationResource) : ComputeAllocationResource :=
  mkComputeAllocationResource id (Resource_Name r) (Resource_ResourceType r) (Resource_ResourceAmount r)
    (Resource_ComputeClusterID r).

Definition CreateComputeAllocationResource (resource : option ComputeAllocationResource) : M ComputeAllocationResource :=
  r ← deref resource (Errorf "%w: compute allocation resource is nil" [] ErrInvalidInput);
  _ ← fail_if (Resource_Name r = "") (Errorf "%w: resource name is required" [] ErrInvalidInput);
  _ ← fail_if (Resource_ResourceType r = "") (Errorf "%w: resource_type is required" [] ErrInvalidInput);
  _ ← fail_if (Resource_ComputeClusterID r = "")
        (Errorf "%w: compute_cluster_id is required" [] ErrInvalidInput);
  cluster ← wrap "lookup compute cluster: %w"
              (query (pgComputeClusterStore_FindByID (Resource_ComputeClusterID r)));
  _ ← fail_if (cluster = None)
        (Errorf "%w: compute cluster %q not found" [Resource_ComputeClusterID r] ErrInvalidInput);
  id ← or_newID (Resource_ID r);
  let r := with_resource_id id r in
  _ ← wrap "create compute allocation resource: %w" (inTx (exec (pgComputeAllocationResourceStore_Create r)));
  _ ← publish ComputeAllocationResourceCreateEvent (PComputeAllocationResource r);
  mret r.

Definition GetComputeAllocationResource (id : string) : M ComputeAllocationResource :=
  r ← wrap "get compute allocation resource: %w" (query (pgComputeAllocationResourceStore_FindByID id));
  deref r ErrNotFound.

Definition GetComputeAllocationResourceByNameAndCluster (name clusterID : string) : M ComputeAllocationResource :=
  _ ← fail_if (name = "") (Errorf "%w: resource name is required" [] ErrInvalidInput);
  _ ← fail_if (clusterID = "") (Errorf "%w: compute_cluster_id is required" [] ErrInvalidInput);
  r ← wrap "get compute allocation resource by name and cluster: %w"
        (query (pgComputeAllocationResourceStore_FindByNameAndCluster name clusterID));
  deref r ErrNotFound.

Definition ListComputeAllocationResources : M (list ComputeAllocationResource) :=
  wrap "list compute allocation resources: %w" (query pgComputeAllocationResourceStore_List).

Definition ListComputeAllocationResourcesByTypeAndCluster (resourceType clusterID : string) :
    M (list ComputeAllocationResource) :=
  _ ← fail_if (resourceType = "") (Errorf "%w: resource_type is required" [] ErrInvalidInput);
  _ ← fail_if (clusterID = "") (Errorf "%w: compute_cluster_id is required" [] ErrInvalidInput);
  wrap "list compute allocation resources by type and cluster: %w"
    (query (pgComputeAllocationResourceStore_FindByTypeAndCluster resourceType clusterID)).

Definition UpdateComputeAllocationResource (resource : option ComputeAllocationResource) : M unit :=
  r ← deref resource (Errorf "%w: compute allocation resource id is required" [] ErrInvalidInput);
  _ ← fail_if (Resource_ID r = "")
        (Errorf "%w: compute allocation resource id is required" [] ErrInvalidInput);
  _ ← wrap "update compute allocation resource: %w" (inTx (exec (pgComputeAllocationResourceStore_Update r)));
  publish ComputeAllocationResourceUpdateEvent (PComputeAllocationResource r).

Definition DeleteComputeAllocationResource (id : string) : M unit :=
  _ ← fail_if (id = "") (Errorf "%w: compute allocation resource id is required" [] ErrInvalidInput);
  found ← wrap "lookup compute allocation resource: %w" (query (pgComputeAllocationResourceStore_FindByID id));
  r ← deref found ErrNotFound;
  _ ← wrap "delete compute allocation resource: %w" (inTx (exec (pgComputeAllocationResourceStore_Delete id)));
  publish ComputeAllocationResourceDeleteEvent (PComputeAllocationResource r).

(** ** compute_allocation_resource_mapping.go *)

Definition AttachResourceToAllocation (allocationID resourceID : string) (resourceAmount resourceTime : Z) :
    M ComputeAllocationResourceMapping :=
  _ ← fail_if (allocationID = "") (Errorf "%w: compute_allocation_id is required" [] ErrInvalidInput);
  _ ← fail_if (resourceID = "") (Errorf "%w: compute_allocation_resource_id is required" [] ErrInvalidInput);
  _ ← fail_if (resourceAmount < 0)%Z (Errorf "%w: resource_amount must be non-negative" [] ErrInvalidInput);
  _ ← fail_if (resourceTime < 0)%Z (Errorf "%w: resource_time must be non-negative" [] ErrInvalidInput);
  a ← wrap "lookup compute allocation: %w" (query (pgComputeAllocationStore_FindByID allocationID));
  _ ← fail_if (a = None) (Errorf "%w: compute allocation %q not found" [allocationID] ErrInvalidInput);
  r ← wrap "lookup compute allocation resource: %w"
        (query (pgComputeAllocationResourceStore_FindByID resourceID));
  _ ← fail_if (r = None)
        (Errorf "%w: compute allocation resource %q not found" [resourceID] ErrInvalidInput);
  existing ← wrap "lookup mapping: %w"
               (query (pgComputeAllocationResourceMappingStore_FindByPair allocationID resourceID));
  _ ← fail_if (existing ≠ None)
        (Errorf "%w: resource %q already attached to allocation %q" [resourceID; allocationID] ErrAlreadyExists);
  id ← newID;
  let mapping := mkComputeAllocationResourceMapping id allocationID resourceID resourceAmount resourceTime in
  _ ← wrap "attach resource to allocation: %w"
        (inTx (exec (pgComputeAllocationResourceMappingStore_Create mapping)));
  _ ← publish ComputeAllocationResourceMappingCreateEvent (PComputeAllocationResourceMapping mapping);
  mret mapping.

Definition UpdateAllocationResourceMapping (allocationID resourceID : string) (resourceAmount resourceTime : Z) :
    M ComputeAllocationResourceMapping :=
  _ ← fail_if (allocationID = "" ∨ resourceID = "")
        (Errorf "%w: allocation and resource ids are required" [] ErrInvalidInput);
  _ ← fail_if (resourceAmount < 0)%Z (Errorf "%w: resource_amount must be non-negative" [] ErrInvalidInput);
  _ ← fail_if (resourceTime < 0)%Z (Errorf "%w: resource_time must be non-negative" [] ErrInvalidInput);
  found ← wrap "lookup mapping: %w"
            (query (pgComputeAllocationResourceMappingStore_FindByPair allocationID resourceID));
  existing ← deref found ErrNotFound;
  let existing := mkComputeAllocationResourceMapping (Mapping_ID existing)
                    (Mapping_ComputeAllocationID existing) (Mapping_ComputeAllocationResourceID existing)
                    resourceAmount resourceTime in
  _ ← wrap "update allocation resource mapping: %w"
        (inTx (exec (pgComputeAllocationResourceMappingStore_Update existing)));
  _ ← publish ComputeAllocationResourceMappingUpdateEvent (PComputeAllocationResourceMapping existing);
  mret existing.

Definition DetachResourceFromAllocation (allocationID resourceID : string) : M unit :=
  _ ← fail_if (allocationID = "" ∨ resourceID = "")
        (Errorf "%w: allocation and resource ids are required" [] ErrInvalidInput);
  found ← wrap "lookup mapping: %w"
            (query (pgComputeAllocationResourceMappingStore_FindByPair allocationID resourceID));
  existing ← deref found ErrNotFound;
  _ ← wrap "detach resource from allocation: %w"
        (inTx (exec (pgComputeAllocationResourceMappingStore_DeleteByPair allocationID resourceID)));
  publish ComputeAllocationResourceMappingDeleteEvent (PComputeAllocationResourceMapping existing).

Definition ListResourcesForAllocation (allocationID : string) : M (list ComputeAllocationResource) :=
  _ ← fail_if (allocationID = "") (Errorf "%w: compute_allocation_id is required" [] ErrInvalidInput);
  wrap "list resources for allocation: %w"
    (query (pgComputeAllocationResourceMappingStore_FindResourcesByAllocation allocationID)).

Definition ListAllocationsForResource (resourceID : string) : M (list ComputeAllocation) :=
  _ ← fail_if (resourceID = "") (Errorf "%w: compute_allocation_resource_id is required" [] ErrInvalidInput);
  wrap "list allocations for resource: %w"
    (query (pgComputeAllocationResourceMappingStore_FindAllocationsByResource resourceID)).

(** ** compute_allocation_resource_rate.go *)

Definition with_rate_id (id : string) (r : ComputeAllocationResourceRate) : ComputeAllocationResourceRate :=
  mkComputeAllocationResourceRate id (Rate_ComputeAllocationResourceID r) (Rate_Rate r)
    (Rate_StartTime r) (Rate_EndTime r).

Definition CreateComputeAllocationResourceRate (rate : option ComputeAllocationResourceRate) :
    M ComputeAllocationResourceRate :=
  r ← deref rate (Errorf "%w: compute allocation resource rate is nil" [] ErrInvalidInput);
  _ ← fail_if (Rate_ComputeAllocationResourceID r = "")
        (Errorf "%w: compute_allocation_resource_id is required" [] ErrInvalidInput);
  _ ← fail_if (float_negative (Rate_Rate r) = true)
        (Errorf "%w: rate must be non-negative" [] ErrInvalidInput);
  _ ← fail_if (IsZero (Rate_StartTime r) ∨ IsZero (Rate_EndTime r))
        (Errorf "%w: start_time and end_time are required" [] ErrInvalidInput);
  _ ← fail_if (¬ (Rate_StartTime r < Rate_EndTime r)%Z)
        (Errorf "%w: start_time must be before end_time" [] ErrInvalidInput);
  res ← wrap "lookup compute allocation resource: %w"
          (query (pgComputeAllocationResourceStore_FindByID (Rate_ComputeAllocationResourceID r)));
  _ ← fail_if (res = None)
        (Errorf "%w: compute allocation resource %q not found" [Rate_ComputeAllocationResourceID r] ErrInvalidInput);
  id ← or_newID (Rate_ID r);
  let r := with_rate_id id r in
  _ ← wrap "create compute allocation resource rate: %w"
        (inTx (exec (pgComputeAllocationResourceRateStore_Create r)));
  mret r.

Definition GetComputeAllocationResourceRate (id : string) : M ComputeAllocationResourceRate :=
  r ← wrap "get compute allocation resource rate: %w" (query (pgComputeAllocationResourceRateStore_FindByID id));
  deref r ErrNotFound.

Definition ListRatesForResource (resourceID : string) : M (list ComputeAllocationResourceRate) :=
  _ ← fail_if (resourceID = "") (Errorf "%w: compute_allocation_resource_id is required" [] ErrInvalidInput);
  wrap "list rates for resource: %w" (query (pgComputeAllocationResourceRateStore_FindByResource resourceID)).

Definition GetEffectiveRateForResource (resourceID : string) (at_time : Time) : M ComputeAllocationResourceRate :=
  _ ← fail_if (resourceID = "") (Errorf "%w: compute_allocation_resource_id is required" [] ErrInvalidInput);
  t ← or_now at_time;
  r ← wrap "get effective rate for resource: %w"
        (query (pgComputeAllocationResourceRateStore_FindEffective resourceID t));
  deref r ErrNotFound.

Definition UpdateComputeAllocationResourceRate (rate : option ComputeAllocationResourceRate) : M unit :=
  r ← deref rate (Errorf "%w: compute allocation resource rate id is required" [] ErrInvalidInput);
  _ ← fail_if (Rate_ID r = "")
        (Errorf "%w: compute allocation resource rate id is required" [] ErrInvalidInput);
  _ ← fail_if (float_negative (Rate_Rate r) = true)
        (Errorf "%w: rate must be non-negative" [] ErrInvalidInput);
  _ ← fail_if (¬ IsZero (Rate_StartTime r) ∧ ¬ IsZero (Rate_EndTime r) ∧
               ¬ (Rate_StartTime r < Rate_EndTime r)%Z)
        (Errorf "%w: start_time must be before end_time" [] ErrInvalidInput);
  wrap "update compute allocation resource rate: %w"
    (inTx (exec (pgComputeAllocationResourceRateStore_Update r))).

Definition DeleteComputeAllocationResourceRate (id : string) : M unit :=
  _ ← fail_if (id = "") (Errorf "%w: compute allocation resource rate id is required" [] ErrInvalidInput);
  wrap "delete compute allocation resource rate: %w"
    (inTx (exec (pgComputeAllocationResourceRateStore_Delete id))).

(** ** compute_allocation_diff.go *)

Definition CreateComputeAllocationDiff (diff : option ComputeAllocationDiff) : M ComputeAllocationDiff :=
  x ← deref diff (Errorf "%w: compute allocation diff is nil" [] ErrInvalidInput);
  _ ← fail_if (Diff_ComputeAllocationID x = "")
        (Errorf "%w: compute_allocation_id is required" [] ErrInvalidInput);
  _ ← fail_if (Diff_DiffType x = "") (Errorf "%w: diff_type is required" [] ErrInvalidInput);
  _ ← fail_if (Diff_Status x = "") (Errorf "%w: status is required" [] ErrInvalidInput);
  a ← wrap "lookup compute allocation: %w"
        (query (pgComputeAllocationStore_FindByID (Diff_ComputeAllocationID x)));
  _ ← fail_if (a = None)
        (Errorf "%w: compute allocation %q not found" [Diff_ComputeAllocationID x] ErrInvalidInput);
  id ← or_newID (Diff_ID x);
  t ← or_now (Diff_Timestamp x);
  let x := mkComputeAllocationDiff id (Diff_ComputeAllocationID x) (Diff_DiffType x) (Diff_NewSUAmount x)
             (Diff_Status x) t (Diff_Description x) in
  _ ← wrap "create compute allocation diff: %w" (inTx (exec (pgComputeAllocationDiffStore_Create x)));
  _ ← publish ComputeAllocationDiffCreateEvent (PComputeAllocationDiff x);
  mret x.

Definition GetComputeAllocationDiff (id : string) : M ComputeAllocationDiff :=
  x ← wrap "get compute allocation diff: %w" (query (pgComputeAllocationDiffStore_FindByID id));
  deref x ErrNotFound.

Definition ListDiffsForAllocation (allocationID : string) : M (list ComputeAllocationDiff) :=
  _ ← fail_if (allocationID = "") (Errorf "%w: compute_allocation_id is required" [] ErrInvalidInput);
  wrap "list diffs for allocation: %w" (query (pgComputeAllocationDiffStore_FindByAllocation allocationID)).

Definition GetLatestDiffForAllocation (allocationID : string) : M ComputeAllocationDiff :=
  _ ← fail_if (allocationID = "") (Errorf "%w: compute_allocation_id is required" [] ErrInvalidInput);
  x ← wrap "get latest diff for allocation: %w"
        (query (pgComputeAllocationDiffStore_FindLatestByAllocation allocationID));
  deref x ErrNotFound.

Definition DeleteComputeAllocationDiff (id : string) : M unit :=
  _ ← fail_if (id = "") (Errorf "%w: compute allocation diff id is required" [] ErrInvalidInput);
  found ← wrap "lookup compute allocation diff: %w" (query (pgComputeAllocationDiffStore_FindByID id));
  x ← deref found ErrNotFound;
  _ ← wrap "delete compute allocation diff: %w" (inTx (exec (pgComputeAllocationDiffStore_Delete id)));
  publish ComputeAllocationDiffDeleteEvent (PComputeAllocationDiff x).

(** ** compute_allocation_change_request.go *)

Definition ListChangeRequests (f : ChangeRequestListFilter) : M (list ComputeAllocationChangeRequest) :=
  wrap "list change requests: %w" (query (pgComputeAllocationChangeRequestStore_List f)).

Definition CreateComputeAllocationChangeRequest (req : option ComputeAllocationChangeRequest) :
    M ComputeAllocationChangeRequest :=
  c ← deref req (Errorf "%w: compute allocation change request is nil" [] ErrInvalidInput);
  _ ← fail_if (ChangeRequest_ComputeAllocationID c = "")
        (Errorf "%w: compute_allocation_id is required" [] ErrInvalidInput);
  _ ← fail_if (ChangeRequest_RequesterID c = "") (Errorf "%w: requester_id is required" [] ErrInvalidInput);
  a ← wrap "lookup compute allocation: %w"
        (query (pgComputeAllocationStore_FindByID (ChangeRequest_ComputeAllocationID c)));
  _ ← fail_if (a = None)
        (Errorf "%w: compute allocation %q not found" [ChangeRequest_ComputeAllocationID c] ErrInvalidInput);
  id ← or_newID (ChangeRequest_ID c);
  t ← or_now (ChangeRequest_Timestamp c);
  let c := mkComputeAllocationChangeRequest id (ChangeRequest_ComputeAllocationID c)
             (ChangeRequest_RequestedSUAmount c) (ChangeRequest_RequestedStatus c) (ChangeRequest_Reason c)
             (or_blank (ChangeRequest_ChangeStatus c) "PENDING") (ChangeRequest_RequesterID c)
             (ChangeRequest_ApproverID c) t in
  _ ← wrap "create compute allocation change request: %w" (inTx (
        _ ← exec (pgComputeAllocationChangeRequestStore_Create c);
        eid ← newID;
        exec (pgComputeAllocationChangeRequestEventStore_Create
                (mkComputeAllocationChangeRequestEvent eid (ChangeRequest_ID c) "CREATED"
                   "Change request created" (ChangeRequest_Timestamp c)))));
  mret c.

Definition GetComputeAllocationChangeRequest (id : string) : M ComputeAllocationChangeRequest :=
  c ← wrap "get compute allocation change request: %w" (query (pgComputeAllocationChangeRequestStore_FindByID id));
  deref c ErrNotFound.

Definition ListChangeRequestsForAllocation (allocationID : string) : M (list ComputeAllocationChangeRequest) :=
  _ ← fail_if (allocationID = "") (Errorf "%w: compute_allocation_id is required" [] ErrInvalidInput);
  wrap "list change requests for allocation: %w"
    (query (pgComputeAllocationChangeRequestStore_FindByAllocation allocationID)).

Definition ListChangeRequestsByRequester (requesterID : string) : M (list ComputeAllocationChangeRequest) :=
  _ ← fail_if (requesterID = "") (Errorf "%w: requester_id is required" [] ErrInvalidInput);
  wrap "list change requests by requester: %w"
    (query (pgComputeAllocationChangeRequestStore_FindByRequester requesterID)).

(** The record [UpdateComputeAllocationChangeRequest] stores: only the
    allocation, requester, status and timestamp fall back to the stored row. *)
Definition merge_change_request (c existing : ComputeAllocationChangeRequest) : ComputeAllocationChangeRequest :=
  mkComputeAllocationChangeRequest (ChangeRequest_ID c)
    (or_blank (ChangeRequest_ComputeAllocationID c) (ChangeRequest_ComputeAllocationID existing))
    (ChangeRequest_RequestedSUAmount c) (ChangeRequest_RequestedStatus c) (ChangeRequest_Reason c)
    (or_blank (ChangeRequest_ChangeStatus c) (ChangeRequest_ChangeStatus existing))
    (or_blank (ChangeRequest_RequesterID c) (ChangeRequest_RequesterID existing))
    (ChangeRequest_ApproverID c)
    (if decide (IsZero (ChangeRequest_Timestamp c)) then ChangeRequest_Timestamp existing
     else ChangeRequest_Timestamp c).

(** The type and the description of the event of an update. *)
Definition change_event (old new : string) : string * string :=
  if decide (new ≠ old)
  then (new, "Change request transitioned from " +:+ old +:+ " to " +:+ new)
  else ("UPDATED", "Change request updated").

(** The diff an approved request is recorded as. *)
Definition approval_diff (c : ComputeAllocationChangeRequest) : ComputeAllocationDiff :=
  mkComputeAllocationDiff "" (ChangeRequest_ComputeAllocationID c) "CHANGE_REQUEST_APPROVED"
    (ChangeRequest_RequestedSUAmount c) (or_blank (ChangeRequest_RequestedStatus c) ACTIVE) zero_time
    ("Applied approved change request " +:+ ChangeRequest_ID c).

Definition UpdateComputeAllocationChangeRequest (req : option ComputeAllocationChangeRequest) :
    M ComputeAllocationChangeRequest :=
  c ← deref req (Errorf "%w: compute allocation change request id is required" [] ErrInvalidInput);
  _ ← fail_if (ChangeRequest_ID c = "")
        (Errorf "%w: compute allocation change request id is required" [] ErrInvalidInput);
  found ← wrap "lookup compute allocation change request: %w"
            (query (pgComputeAllocationChangeRequestStore_FindByID (ChangeRequest_ID c)));
  existing ← deref found ErrNotFound;
  let c := merge_change_request c existing in
  let '(eventType, eventDescription) :=
    change_event (ChangeRequest_ChangeStatus existing) (ChangeRequest_ChangeStatus c) in
  _ ← wrap "update compute allocation change request: %w" (inTx (
        _ ← exec (pgComputeAllocationChangeRequestStore_Update c);
        eid ← newID;
        now ← nowUTC;
        exec (pgComputeAllocationChangeRequestEventStore_Create
                (mkComputeAllocationChangeRequestEvent eid (ChangeRequest_ID c) eventType
                   eventDescription now))));
  _ ← when (ChangeRequest_ChangeStatus c = "APPROVED" ∧ ChangeRequest_ChangeStatus existing ≠ "APPROVED") (
        _ ← wrap "record approved change request diff: %w"
              (CreateComputeAllocationDiff (Some (approval_diff c)));
        mret tt);
  mret c.

Definition DeleteComputeAllocationChangeRequest (id : string) : M unit :=
  _ ← fail_if (id = "")
        (Errorf "%w: compute allocation change request id is required" [] ErrInvalidInput);
  existing ← wrap "lookup compute allocation change request: %w"
               (query (pgComputeAllocationChangeRequestStore_FindByID id));
  _ ← fail_if (existing = None) ErrNotFound;
  wrap "delete compute allocation change request: %w" (inTx (
    eid ← newID;
    now ← nowUTC;
    _ ← exec (pgComputeAllocationChangeRequestEventStore_Create
                (mkComputeAllocationChangeRequestEvent eid id "DELETED" "Change request deleted" now));
    exec (pgComputeAllocationChangeRequestStore_Delete id))).

(** ** compute_allocation_change_request_event.go *)

Definition CreateComputeAllocationChangeRequestEvent (evt : option ComputeAllocationChangeRequestEvent) :
    M ComputeAllocationChangeRequestEvent :=
  e ← deref evt (Errorf "%w: compute allocation change request event is nil" [] ErrInvalidInput);
  _ ← fail_if (ChangeEvent_ComputeAllocationChangeRequestID e = "")
        (Errorf "%w: compute_allocation_change_request_id is required" [] ErrInvalidInput);
  _ ← fail_if (ChangeEvent_EventType e = "") (Errorf "%w: event_type is required" [] ErrInvalidInput);
  cr ← wrap "lookup compute allocation change request: %w"
         (query (pgComputeAllocationChangeRequestStore_FindByID (ChangeEvent_ComputeAllocationChangeRequestID e)));
  _ ← fail_if (cr = None)
        (Errorf "%w: compute allocation change request %q not found"
           [ChangeEvent_ComputeAllocationChangeRequestID e] ErrInvalidInput);
  id ← or_newID (ChangeEvent_ID e);
  t ← or_now (ChangeEvent_Timestamp e);
  let e := mkComputeAllocationChangeRequestEvent id (ChangeEvent_ComputeAllocationChangeRequestID e)
             (ChangeEvent_EventType e) (ChangeEvent_Description e) t in
  _ ← wrap "create compute allocation change request event: %w"
        (inTx (exec (pgComputeAllocationChangeRequestEventStore_Create e)));
  mret e.

Definition GetComputeAllocationChangeRequestEvent (id : string) : M ComputeAllocationChangeRequestEvent :=
  e ← wrap "get compute allocation change request event: %w"
        (query (pgComputeAllocationChangeRequestEventStore_FindByID id));
  deref e ErrNotFound.

Definition ListEventsForChangeRequest (changeRequestID : string) : M (list ComputeAllocationChangeRequestEvent) :=
  _ ← fail_if (changeRequestID = "")
        (Errorf "%w: compute_allocation_change_request_id is required" [] ErrInvalidInput);
  wrap "list events for change request: %w"
    (query (pgComputeAllocationChangeRequestEventStore_FindByChangeRequest changeRequestID)).

Definition GetLatestEventForChangeRequest (changeRequestID : string) : M ComputeAllocationChangeRequestEvent :=
  _ ← fail_if (changeRequestID = "")
        (Errorf "%w: compute_allocation_change_request_id is required" [] ErrInvalidInput);
  e ← wrap "get latest event for change request: %w"
        (query (pgComputeAllocationChangeRequestEventStore_FindLatestByChangeRequest changeRequestID));
  deref e ErrNotFound.

Definition DeleteComputeAllocationChangeRequestEvent (id : string) : M unit :=
  _ ← fail_if (id = "")
        (Errorf "%w: compute allocation change request event id is required" [] ErrInvalidInput);
  wrap "delete compute allocation change request event: %w"
    (inTx (exec (pgComputeAllocationChangeRequestEventStore_Delete id))).
End allocation_service.
