(* ===== verification/MembershipService.v ===== *)
(** * Service: allocation memberships, resource overrides, usages

    pkg/service/compute_allocation_{membership,membership_resource_override,
    usage}.go. The two SUM queries over usages are not modelled: the result of
    a floating-point SUM depends on the order in which the server scans. *)

From S2P Require Import Prelude GoError Models Schema Events IdentityCache Effects.
From S2P Require Import StoreIdentity StoreAllocation StoreMembership UserService AllocationService.
From stdpp Require Import base gmap list strings.
From Stdlib Require Import ZArith.

Section membership_service.
Context `{E : Env}.

(** ** compute_allocation_membership.go *)

Definition CreateComputeAllocationMembership (membership : option ComputeAllocationMembership) :
    M ComputeAllocationMembership :=
  m ← deref membership (Errorf "%w: compute allocation membership is nil" [] ErrInvalidInput);
  _ ← fail_if (Membership_ComputeAllocationID m = "")
        (Errorf "%w: compute_allocation_id is required" [] ErrInvalidInput);
  _ ← fail_if (Membership_UserID m = "") (Errorf "%w: user_id is required" [] ErrInvalidInput);
  a ← wrap "lookup compute allocation: %w"
        (query (pgComputeAllocationStore_FindByID (Membership_ComputeAllocationID m)));
  _ ← fail_if (a = None)
        (Errorf "%w: compute allocation %q not found" [Membership_ComputeAllocationID m] ErrInvalidInput);
  u ← wrap "lookup user: %w" (query (pgUserStore_FindByID (Membership_UserID m)));
  _ ← fail_if (u = None) (Errorf "%w: user %q not found" [Membership_UserID m] ErrInvalidInput);
  existing ← wrap "lookup compute allocation membership: %w"
    (query (pgComputeAllocationMembershipStore_FindByPair (Membership_ComputeAllocationID m) (Membership_UserID m)));
  _ ← fail_if (existing ≠ None)
        (Errorf "%w: user %q already has a membership on allocation %q"
           [Membership_UserID m; Membership_ComputeAllocationID m] ErrAlreadyExists);
  id ← or_newID (Membership_ID m);
  let m := mkComputeAllocationMembership id (Membership_ComputeAllocationID m) (Membership_UserID m)
             (Membership_StartTime m) (Membership_EndTime m)
             (or_blank (Membership_MembershipStatus m) ACTIVE) in
  _ ← wrap "create compute allocation membership: %w"
        (inTx (exec (pgComputeAllocationMembershipStore_Create m)));
  _ ← publish ComputeAllocationMembershipCreateEvent (PComputeAllocationMembership m);
  mret m.

Definition GetComputeAllocationMembership (id : string) : M ComputeAllocationMembership :=
  m ← wrap "get compute allocation membership: %w" (query (pgComputeAllocationMembershipStore_FindByID id));
  deref m ErrNotFound.

Definition IsAllocationMember (allocationID userID : string) : M bool :=
  m ← wrap "lookup compute allocation membership: %w"
        (query (pgComputeAllocationMembershipStore_FindByPair allocationID userID));
  mret match m with
       | Some m => bool_decide (Membership_MembershipStatus m = ACTIVE)
       | None => false
       end.

Definition ListMembersForAllocation (allocationID : string) : M (list MembershipWithUser) :=
  _ ← fail_if (allocationID = "") (Errorf "%w: compute_allocation_id is required" [] ErrInvalidInput);
  wrap "list members for allocation: %w"
    (query (pgComputeAllocationMembershipStore_FindByAllocationWithUser allocationID)).

Definition ListMembersForProject (projectID : string) : M (list MembershipWithUser) :=
  _ ← fail_if (projectID = "") (Errorf "%w: project_id is required" [] ErrInvalidInput);
  wrap "list members for project: %w"
    (query (pgComputeAllocationMembershipStore_FindByProjectWithUser projectID)).

Definition ListAllocationsForUser (userID : string) : M (list ComputeAllocationMembership) :=
  _ ← fail_if (userID = "") (Errorf "%w: user_id is required" [] ErrInvalidInput);
  wrap "list allocations for user: %w" (query (pgComputeAllocationMembershipStore_FindByUser userID)).

Definition merge_membership (m existing : ComputeAllocationMembership) : ComputeAllocationMembership :=
  mkComputeAllocationMembership (Membership_ID m)
    (or_blank (Membership_ComputeAllocationID m) (Membership_ComputeAllocationID existing))
    (or_blank (Membership_UserID m) (Membership_UserID existing))
    (if decide (IsZero (Membership_StartTime m)) then Membership_StartTime existing else Membership_StartTime m)
    (if decide (IsZero (Membership_EndTime m)) then Membership_EndTime existing else Membership_EndTime m)
    (or_blank (Membership_MembershipStatus m) (Membership_MembershipStatus existing)).

Definition UpdateComputeAllocationMembership (membership : option ComputeAllocationMembership) :
    M ComputeAllocationMembership :=
  m ← deref membership (Errorf "%w: compute allocation membership id is required" [] ErrInvalidInput);
  _ ← fail_if (Membership_ID m = "")
        (Errorf "%w: compute allocation membership id is required" [] ErrInvalidInput);
  found ← wrap "lookup compute allocation membership: %w"
            (query (pgComputeAllocationMembershipStore_FindByID (Membership_ID m)));
  existing ← deref found ErrNotFound;
  let m := merge_membership m existing in
  _ ← wrap "update compute allocation membership: %w"
        (inTx (exec (pgComputeAllocationMembershipStore_Update m)));
  _ ← publish ComputeAllocationMembershipUpdateEvent (PComputeAllocationMembership m);
  mret m.

Definition with_membership_status (status : string) (m : ComputeAllocationMembership) : ComputeAllocationMembership :=
  mkComputeAllocationMembership (Membership_ID m) (Membership_ComputeAllocationID m) (Membership_UserID m)
    (Membership_StartTime m) (Membership_EndTime m) status.

Definition UpdateMembershipStatus (id status : string) : M ComputeAllocationMembership :=
  _ ← fail_if (id = "") (Errorf "%w: compute allocation membership id is required" [] ErrInvalidInput);
  _ ← fail_if (status = "") (Errorf "%w: membership_status is required" [] ErrInvalidInput);
  found ← wrap "lookup compute allocation membership: %w"
            (query (pgComputeAllocationMembershipStore_FindByID id));
  existing ← deref found ErrNotFound;
  let existing := with_membership_status status existing in
  _ ← wrap "update compute allocation membership status: %w"
        (inTx (exec (pgComputeAllocationMembershipStore_Update existing)));
  _ ← publish ComputeAllocationMembershipUpdateEvent (PComputeAllocationMembership existing);
  mret existing.

Definition DeleteComputeAllocationMembership (id : string) : M unit :=
  _ ← fail_if (id = "") (Errorf "%w: compute allocation membership id is required" [] ErrInvalidInput);
  found ← wrap "lookup compute allocation membership: %w"
            (query (pgComputeAllocationMembershipStore_FindByID id));
  m ← deref found ErrNotFound;
  _ ← wrap "delete compute allocation membership: %w"
        (inTx (exec (pgComputeAllocationMembershipStore_Delete id)));
  publish ComputeAllocationMembershipDeleteEvent (PComputeAllocationMembership m).

(** ** compute_allocation_membership_resource_override.go *)

Definition with_override_id (id : string) (o : ComputeAllocationMembershipResourceOverride) :
    ComputeAllocationMembershipResourceOverride :=
  mkComputeAllocationMembershipResourceOverride id (Override_ComputeAllocationMembershipID o)
    (Override_ComputeAllocationResourceID o) (Override_OverrideResourceAmount o) (Override_OverrideResourceTime o).

Definition CreateComputeAllocationMembershipResourceOverride
    (override : option ComputeAllocationMembershipResourceOverride) :
    M ComputeAllocationMembershipResourceOverride :=
  o ← deref override (Errorf "%w: membership resource override is nil" [] ErrInvalidInput);
  _ ← fail_if (Override_ComputeAllocationMembershipID o = "")
        (Errorf "%w: compute_allocation_membership_id is required" [] ErrInvalidInput);
  _ ← fail_if (Override_ComputeAllocationResourceID o = "")
        (Errorf "%w: compute_allocation_resource_id is required" [] ErrInvalidInput);
  _ ← fail_if (Override_OverrideResourceAmount o < 0)%Z
        (Errorf "%w: override_resource_amount must be non-negative" [] ErrInvalidInput);
  _ ← fail_if (Override_OverrideResourceTime o < 0)%Z
        (Errorf "%w: override_resource_time must be non-negative" [] ErrInvalidInput);
  m ← wrap "lookup compute allocation membership: %w"
        (query (pgComputeAllocationMembershipStore_FindByID (Override_ComputeAllocationMembershipID o)));
  _ ← fail_if (m = None)
        (Errorf "%w: compute allocation membership %q not found"
           [Override_ComputeAllocationMembershipID o] ErrInvalidInput);
  r ← wrap "lookup compute allocation resource: %w"
        (query (pgComputeAllocationResourceStore_FindByID (Override_ComputeAllocationResourceID o)));
  _ ← fail_if (r = None)
        (Errorf "%w: compute allocation resource %q not found"
           [Override_ComputeAllocationResourceID o] ErrInvalidInput);
  existing ← wrap "lookup membership resource override: %w"
    (query (pgComputeAllocationMembershipResourceOverrideStore_FindByPair
              (Override_ComputeAllocationMembershipID o) (Override_ComputeAllocationResourceID o)));
  _ ← fail_if (existing ≠ None)
        (Errorf "%w: override already exists for membership %q resource %q"
           [Override_ComputeAllocationMembershipID o; Override_ComputeAllocationResourceID o] ErrAlreadyExists);
  id ← or_newID (Override_ID o);
  let o := with_override_id id o in
  _ ← wrap "create membership resource override: %w"
        (inTx (exec (pgComputeAllocationMembershipResourceOverrideStore_Create o)));
  _ ← publish ComputeAllocationMembershipResourceOverrideCreateEvent
        (PComputeAllocationMembershipResourceOverride o);
  mret o.

Definition GetComputeAllocationMembershipResourceOverride (id : string) :
    M ComputeAllocationMembershipResourceOverride :=
  o ← wrap "get membership resource override: %w"
        (query (pgComputeAllocationMembershipResourceOverrideStore_FindByID id));
  deref o ErrNotFound.

Definition GetComputeAllocationMembershipResourceOverrideByPair (membershipID resourceID : string) :
    M ComputeAllocationMembershipResourceOverride :=
  _ ← fail_if (membershipID = "") (Errorf "%w: compute_allocation_membership_id is required" [] ErrInvalidInput);
  _ ← fail_if (resourceID = "") (Errorf "%w: compute_allocation_resource_id is required" [] ErrInvalidInput);
  o ← wrap "get membership resource override by pair: %w"
        (query (pgComputeAllocationMembershipResourceOverrideStore_FindByPair membershipID resourceID));
  deref o ErrNotFound.

Definition ListOverridesForMembership (membershipID : string) :
    M (list ComputeAllocationMembershipResourceOverride) :=
  _ ← fail_if (membershipID = "") (Errorf "%w: compute_allocation_membership_id is required" [] ErrInvalidInput);
  wrap "list overrides for membership: %w"
    (query (pgComputeAllocationMembershipResourceOverrideStore_FindByMembership membershipID)).

Definition ListOverridesForResource (resourceID : string) :
    M (list ComputeAllocationMembershipResourceOverride) :=
  _ ← fail_if (resourceID = "") (Errorf "%w: compute_allocation_resource_id is required" [] ErrInvalidInput);
  wrap "list overrides for resource: %w"
    (query (pgComputeAllocationMembershipResourceOverrideStore_FindByResource resourceID)).

Definition merge_override (o existing : ComputeAllocationMembershipResourceOverride) :
    ComputeAllocationMembershipResourceOverride :=
  mkComputeAllocationMembershipResourceOverride (Override_ID o)
    (or_blank (Override_ComputeAllocationMembershipID o) (Override_ComputeAllocationMembershipID existing))
    (or_blank (Override_ComputeAllocationResourceID o) (Override_ComputeAllocationResourceID existing))
    (Override_OverrideResourceAmount o) (Override_OverrideResourceTime o).

Definition UpdateComputeAllocationMembershipResourceOverride
    (override : option ComputeAllocationMembershipResourceOverride) :
    M ComputeAllocationMembershipResourceOverride :=
  o ← deref override (Errorf "%w: membership resource override id is required" [] ErrInvalidInput);
  _ ← fail_if (Override_ID o = "")
        (Errorf "%w: membership resource override id is required" [] ErrInvalidInput);
  _ ← fail_if (Override_OverrideResourceAmount o < 0)%Z
        (Errorf "%w: override_resource_amount must be non-negative" [] ErrInvalidInput);
  _ ← fail_if (Override_OverrideResourceTime o < 0)%Z
        (Errorf "%w: override_resource_time must be non-negative" [] ErrInvalidInput);
  found ← wrap "lookup membership resource override: %w"
            (query (pgComputeAllocationMembershipResourceOverrideStore_FindByID (Override_ID o)));
  existing ← deref found ErrNotFound;
  let o := merge_override o existing in
  _ ← wrap "update membership resource override: %w"
        (inTx (exec (pgComputeAllocationMembershipResourceOverrideStore_Update o)));
  _ ← publish ComputeAllocationMembershipResourceOverrideUpdateEvent
        (PComputeAllocationMembershipResourceOverride o);
  mret o.

Definition DeleteComputeAllocationMembershipResourceOverride (id : string) : M unit :=
  _ ← fail_if (id = "") (Errorf "%w: membership resource override id is required" [] ErrInvalidInput);
  found ← wrap "lookup membership resource override: %w"
            (query (pgComputeAllocationMembershipResourceOverrideStore_FindByID id));
  o ← deref found ErrNotFound;
  _ ← wrap "delete membership resource override: %w"
        (inTx (exec (pgComputeAllocationMembershipResourceOverrideStore_Delete id)));
  publish ComputeAllocationMembershipResourceOverrideDeleteEvent
    (PComputeAllocationMembershipResourceOverride o).

(** ** compute_allocation_usage.go *)

Definition CreateComputeAllocationUsage (usage : option ComputeAllocationUsage) : M ComputeAllocationUsage :=
  u ← deref usage (Errorf "%w: compute allocation usage is nil" [] ErrInvalidInput);
  _ ← fail_if (Usage_ComputeAllocationID u = "")
        (Errorf "%w: compute_allocation_id is required" [] ErrInvalidInput);
  _ ← fail_if (float_negative (Usage_UsedRawAmount u) = true ∨ float_negative (Usage_UsedSUAmount u) = true)
        (Errorf "%w: used_raw_amount and used_su_amount must be non-negative" [] ErrInvalidInput);
  a ← wrap "lookup compute allocation: %w"
        (query (pgComputeAllocationStore_FindByID (Usage_ComputeAllocationID u)));
  _ ← fail_if (a = None)
        (Errorf "%w: compute allocation %q not found" [Usage_ComputeAllocationID u] ErrInvalidInput);
  _ ← when (Usage_ComputeAllocationResourceID u ≠ "") (
        r ← wrap "lookup compute allocation resource: %w"
              (query (pgComputeAllocationResourceStore_FindByID (Usage_ComputeAllocationResourceID u)));
        fail_if (r = None)
          (Errorf "%w: compute allocation resource %q not found"
             [Usage_ComputeAllocationResourceID u] ErrInvalidInput));
  id ← or_newID (Usage_ID u);
  t ← or_now (Usage_CalculatedTime u);
  let u := mkComputeAllocationUsage id (Usage_ComputeAllocationID u) (Usage_UsedRawAmount u)
             (Usage_UsedSUAmount u) t (Usage_UserID u) (Usage_JobID u) (Usage_ComputeAllocationResourceID u) in
  _ ← wrap "create compute allocation usage: %w" (inTx (exec (pgComputeAllocationUsageStore_Create u)));
  mret u.

Definition GetComputeAllocationUsage (id : string) : M ComputeAllocationUsage :=
  u ← wrap "get compute allocation usage: %w" (query (pgComputeAllocationUsageStore_FindByID id));
  deref u ErrNotFound.

Definition GetComputeAllocationUsageByComputeAllocationIDAndJobID (allocationID jobID : string) :
    M ComputeAllocationUsage :=
  _ ← fail_if (allocationID = "") (Errorf "%w: compute_allocation_id is required" [] ErrInvalidInput);
  _ ← fail_if (jobID = "") (Errorf "%w: job_id is required" [] ErrInvalidInput);
  u ← wrap "get compute allocation usage by allocation id and job id: %w"
        (query (pgComputeAllocationUsageStore_FindByComputeAllocationIDAndJobID allocationID jobID));
  deref u ErrNotFound.

Definition ListUsagesForAllocation (allocationID : string) : M (list ComputeAllocationUsage) :=
  _ ← fail_if (allocationID = "") (Errorf "%w: compute_allocation_id is required" [] ErrInvalidInput);
  wrap "list usages for allocation: %w" (query (pgComputeAllocationUsageStore_FindByAllocation allocationID)).

Definition ListUsagesByUser (userID : string) : M (list ComputeAllocationUsage) :=
  _ ← fail_if (userID = "") (Errorf "%w: user_id is required" [] ErrInvalidInput);
  wrap "list usages by user: %w" (query (pgComputeAllocationUsageStore_FindByUser userID)).

Definition DeleteComputeAllocationUsage (id : string) : M unit :=
  _ ← fail_if (id = "") (Errorf "%w: compute allocation usage id is required" [] ErrInvalidInput);
  existing ← wrap "lookup compute allocation usage: %w" (query (pgComputeAllocationUsageStore_FindByID id));
  _ ← fail_if (existing = None) ErrNotFound;
  wrap "delete compute allocation usage: %w" (inTx (exec (pgComputeAllocationUsageStore_Delete id))).
End membership_service.
