(* ===== verification/ServiceApi.v ===== *)
(** * The state-changing operations of the service as a transition system

    [Request] has one constructor per operation of [service.Service] that
    changes state, [serve] runs it, [step] is one call and [reachable] the
    states a service can get to from a database, whatever fails on the way
    (requests run one after another). The theorems here are about all
    operations at once: integrity of the database in every reachable state and
    atomicity of every operation that uses a single transaction. *)

From S2P Require Import Prelude GoError Models Schema Events IdentityCache Effects EffectsLogic.
From S2P Require Import StoreIdentity StoreProject StoreCluster.
From S2P Require Import StoreAuth StoreAllocation StoreMembership.
From S2P Require Import UserService AuthService ProjectService AllocationService MembershipService.
From stdpp Require Import base gmap list strings.
From Stdlib Require Import ZArith.

Inductive Request :=
  | ReqCreateOrganization (o : option Organization)
  | ReqUpdateOrganization (o : option Organization)
  | ReqDeleteOrganization (id : string)
  | ReqCreateUser (u : option User)
  | ReqUpdateUser (u : option User)
  | ReqUpdateUserStatus (id status : string)
  | ReqDeleteUser (id : string)
  | ReqMergeUsers (survivingID retiringID : string)
  | ReqCreateUserIdentity (e : option UserIdentity)
  | ReqUpdateUserIdentity (e : option UserIdentity)
  | ReqDeleteUserIdentity (id : string)
  | ReqCreateProject (p : option Project)
  | ReqUpdateProject (p : option Project)
  | ReqUpdateProjectStatus (id status : string)
  | ReqDeleteProject (id : string)
  | ReqEnsureProjectMembership (projectID userID role : string)
  | ReqCreateComputeCluster (c : option ComputeCluster)
  | ReqUpdateComputeCluster (c : option ComputeCluster)
  | ReqDeleteComputeCluster (id : string)
  | ReqCreateComputeClusterUser (c : option ComputeClusterUser)
  | ReqUpdateComputeClusterUser (c : option ComputeClusterUser)
  | ReqMarkComputeClusterUserProvisioned (id : string)
  | ReqDeleteComputeClusterUser (id : string)
  | ReqCreateComputeAllocation (a : option ComputeAllocation)
  | ReqUpdateComputeAllocation (a : option ComputeAllocation)
  | ReqDeleteComputeAllocation (id : string)
  | ReqCreateComputeAllocationResource (r : option ComputeAllocationResource)
  | ReqUpdateComputeAllocationResource (r : option ComputeAllocationResource)
  | ReqDeleteComputeAllocationResource (id : string)
  | ReqAttachResourceToAllocation (allocationID resourceID : string) (amount time : Z)
  | ReqUpdateAllocationResourceMapping (allocationID resourceID : string) (amount time : Z)
  | ReqDetachResourceFromAllocation (allocationID resourceID : string)
  | ReqCreateComputeAllocationResourceRate (r : option ComputeAllocationResourceRate)
  | ReqUpdateComputeAllocationResourceRate (r : option ComputeAllocationResourceRate)
  | ReqDeleteComputeAllocationResourceRate (id : string)
  | ReqCreateComputeAllocationDiff (x : option ComputeAllocationDiff)
  | ReqDeleteComputeAllocationDiff (id : string)
  | ReqCreateComputeAllocationChangeRequest (c : option ComputeAllocationChangeRequest)
  | ReqUpdateComputeAllocationChangeRequest (c : option ComputeAllocationChangeRequest)
  | ReqDeleteComputeAllocationChangeRequest (id : string)
  | ReqCreateComputeAllocationChangeRequestEvent (e : option ComputeAllocationChangeRequestEvent)
  | ReqDeleteComputeAllocationChangeRequestEvent (id : string)
  | ReqCreateComputeAllocationMembership (m : option ComputeAllocationMembership)
  | ReqUpdateComputeAllocationMembership (m : option ComputeAllocationMembership)
  | ReqUpdateMembershipStatus (id status : string)
  | ReqDeleteComputeAllocationMembership (id : string)
  | ReqCreateComputeAllocationMembershipResourceOverride (o : option ComputeAllocationMembershipResourceOverride)
  | ReqUpdateComputeAllocationMembershipResourceOverride (o : option ComputeAllocationMembershipResourceOverride)
  | ReqDeleteComputeAllocationMembershipResourceOverride (id : string)
  | ReqCreateComputeAllocationUsage (u : option ComputeAllocationUsage)
  | ReqDeleteComputeAllocationUsage (id : string)
  | ReqCreateRole (name description actorID : string)
  | ReqUpdateRole (roleID name description actorID : string)
  | ReqDeleteRole (roleID actorID : string)
  | ReqAddPrivilegeToRole (roleID : string) (privilege : PrivilegeKey) (actorID : string)
  | ReqRemovePrivilegeFromRole (roleID : string) (privilege : PrivilegeKey) (actorID : string)
  | ReqGrantRoleToUser (userID roleID granterID reason : string)
  | ReqRevokeRoleFromUser (userID roleID revokerID reason : string)
  | ReqBootstrapSuperAdmin (email source : string)
  | ReqGrantPrivilege (userID : string) (privilege : PrivilegeKey) (granterID reason : string)
  | ReqRevokePrivilege (userID : string) (privilege : PrivilegeKey) (revokerID reason : string)
  | ReqCreateAuditEvent (ctx : AuditCtx) (e : option AuditEvent)
  | ReqDeleteAuditEvent (id : string)
  | ReqResolveCaller (claims : option Claims)
  | ReqSetIdentityCacheTTL (d : Z)
  | ReqInvalidateAllIdentities
  | ReqRegister (keys : list PrivilegeKey).

(** The result of the operation is dropped. *)
Definition ignore {A} (m : M A) : M unit := _ ← m; mret tt.

Definition serve `{Env} (r : Request) : M unit :=
  match r with
  | ReqCreateOrganization o => ignore (CreateOrganization o)
  | ReqUpdateOrganization o => UpdateOrganization o
  | ReqDeleteOrganization id => DeleteOrganization id
  | ReqCreateUser u => ignore (CreateUser u)
  | ReqUpdateUser u => UpdateUser u
  | ReqUpdateUserStatus id status => ignore (UpdateUserStatus id status)
  | ReqDeleteUser id => DeleteUser id
  | ReqMergeUsers s r => ignore (MergeUsers s r)
  | ReqCreateUserIdentity e => ignore (CreateUserIdentity e)
  | ReqUpdateUserIdentity e => ignore (UpdateUserIdentity e)
  | ReqDeleteUserIdentity id => DeleteUserIdentity id
  | ReqCreateProject p => ignore (CreateProject p)
  | ReqUpdateProject p => UpdateProject p
  | ReqUpdateProjectStatus id status => ignore (UpdateProjectStatus id status)
  | ReqDeleteProject id => DeleteProject id
  | ReqEnsureProjectMembership p u role => EnsureProjectMembership p u role
  | ReqCreateComputeCluster c => ignore (CreateComputeCluster c)
  | ReqUpdateComputeCluster c => UpdateComputeCluster c
  | ReqDeleteComputeCluster id => DeleteComputeCluster id
  | ReqCreateComputeClusterUser c => ignore (CreateComputeClusterUser c)
  | ReqUpdateComputeClusterUser c => ignore (UpdateComputeClusterUser c)
  | ReqMarkComputeClusterUserProvisioned id => MarkComputeClusterUserProvisioned id
  | ReqDeleteComputeClusterUser id => DeleteComputeClusterUser id
  | ReqCreateComputeAllocation a => ignore (CreateComputeAllocation a)
  | ReqUpdateComputeAllocation a => UpdateComputeAllocation a
  | ReqDeleteComputeAllocation id => DeleteComputeAllocation id
  | ReqCreateComputeAllocationResource r => ignore (CreateComputeAllocationResource r)
  | ReqUpdateComputeAllocationResource r => UpdateComputeAllocationResource r
  | ReqDeleteComputeAllocationResource id => DeleteComputeAllocationResource id
  | ReqAttachResourceToAllocation a r n t => ignore (AttachResourceToAllocation a r n t)
  | ReqUpdateAllocationResourceMapping a r n t => ignore (UpdateAllocationResourceMapping a r n t)
  | ReqDetachResourceFromAllocation a r => DetachResourceFromAllocation a r
  | ReqCreateComputeAllocationResourceRate r => ignore (CreateComputeAllocationResourceRate r)
  | ReqUpdateComputeAllocationResourceRate r => UpdateComputeAllocationResourceRate r
  | ReqDeleteComputeAllocationResourceRate id => DeleteComputeAllocationResourceRate id
  | ReqCreateComputeAllocationDiff x => ignore (CreateComputeAllocationDiff x)
  | ReqDeleteComputeAllocationDiff id => DeleteComputeAllocationDiff id
  | ReqCreateComputeAllocationChangeRequest c => ignore (CreateComputeAllocationChangeRequest c)
  | ReqUpdateComputeAllocationChangeRequest c => ignore (UpdateComputeAllocationChangeRequest c)
  | ReqDeleteComputeAllocationChangeRequest id => DeleteComputeAllocationChangeRequest id
  | ReqCreateComputeAllocationChangeRequestEvent e => ignore (CreateComputeAllocationChangeRequestEvent e)
  | ReqDeleteComputeAllocationChangeRequestEvent id => DeleteComputeAllocationChangeRequestEvent id
  | ReqCreateComputeAllocationMembership m => ignore (CreateComputeAllocationMembership m)
  | ReqUpdateComputeAllocationMembership m => ignore (UpdateComputeAllocationMembership m)
  | ReqUpdateMembershipStatus id status => ignore (UpdateMembershipStatus id status)
  | ReqDeleteComputeAllocationMembership id => DeleteComputeAllocationMembership id
  | ReqCreateComputeAllocationMembershipResourceOverride o =>
      ignore (CreateComputeAllocationMembershipResourceOverride o)
  | ReqUpdateComputeAllocationMembershipResourceOverride o =>
      ignore (UpdateComputeAllocationMembershipResourceOverride o)
  | ReqDeleteComputeAllocationMembershipResourceOverride id =>
      DeleteComputeAllocationMembershipResourceOverride id
  | ReqCreateComputeAllocationUsage u => ignore (CreateComputeAllocationUsage u)
  | ReqDeleteComputeAllocationUsage id => DeleteComputeAllocationUsage id
  | ReqCreateRole n d a => ignore (CreateRole n d a)
  | ReqUpdateRole r n d a => ignore (UpdateRole r n d a)
  | ReqDeleteRole r a => DeleteRole r a
  | ReqAddPrivilegeToRole r p a => AddPrivilegeToRole r p a
  | ReqRemovePrivilegeFromRole r p a => RemovePrivilegeFromRole r p a
  | ReqGrantRoleToUser u r g reason => ignore (GrantRoleToUser u r g reason)
  | ReqRevokeRoleFromUser u r g reason => RevokeRoleFromUser u r g reason
  | ReqBootstrapSuperAdmin email source => BootstrapSuperAdmin email source
  | ReqGrantPrivilege u p g reason => ignore (GrantPrivilege u p g reason)
  | ReqRevokePrivilege u p g reason => RevokePrivilege u p g reason
  | ReqCreateAuditEvent ctx e => ignore (CreateAuditEvent ctx e)
  | ReqDeleteAuditEvent id => DeleteAuditEvent id
  | ReqResolveCaller claims => ignore (ResolveCaller claims)
  | ReqSetIdentityCacheTTL d => SetIdentityCacheTTL d
  | ReqInvalidateAllIdentities => InvalidateAllIdentities
  | ReqRegister keys => Register keys
  end.

(** One call of an operation. *)
Inductive step `{Env} (w : World) : Request → World → Prop :=
  | step_serve r : step w r (serve r w).2.

(** The states reached from [w0] by calls one after another. *)
Inductive reachable `{Env} (w0 : World) : World → Prop :=
  | reachable_init : reachable w0 w0
  | reachable_step w r w' : reachable w0 w → step w r w' → reachable w0 w'.

(** The operations that use more than one transaction. *)
Definition multi_tx (r : Request) : bool :=
  match r with
  | ReqUpdateComputeAllocationChangeRequest _ | ReqBootstrapSuperAdmin _ _ | ReqResolveCaller _ => true
  | _ => false
  end.

(** ** Structural facts *)

(** The operations and their parts, for the structural proofs. *)
Create HintDb ops.
#[export] Hint Unfold
  CreateOrganization UpdateOrganization DeleteOrganization CreateUser UpdateUser UpdateUserStatus
  DeleteUser MergeUsers CreateUserIdentity UpdateUserIdentity DeleteUserIdentity CreateProject
  UpdateProject UpdateProjectStatus DeleteProject EnsureProjectMembership CreateComputeCluster
  UpdateComputeCluster DeleteComputeCluster CreateComputeClusterUser UpdateComputeClusterUser
  MarkComputeClusterUserProvisioned DeleteComputeClusterUser CreateComputeAllocation
  UpdateComputeAllocation DeleteComputeAllocation CreateComputeAllocationResource
  UpdateComputeAllocationResource DeleteComputeAllocationResource AttachResourceToAllocation
  UpdateAllocationResourceMapping DetachResourceFromAllocation CreateComputeAllocationResourceRate
  UpdateComputeAllocationResourceRate DeleteComputeAllocationResourceRate
  CreateComputeAllocationDiff DeleteComputeAllocationDiff CreateComputeAllocationChangeRequest
  UpdateComputeAllocationChangeRequest DeleteComputeAllocationChangeRequest
  CreateComputeAllocationChangeRequestEvent DeleteComputeAllocationChangeRequestEvent
  CreateComputeAllocationMembership UpdateComputeAllocationMembership UpdateMembershipStatus
  DeleteComputeAllocationMembership CreateComputeAllocationMembershipResourceOverride
  UpdateComputeAllocationMembershipResourceOverride
  DeleteComputeAllocationMembershipResourceOverride CreateComputeAllocationUsage
  DeleteComputeAllocationUsage CreateRole UpdateRole DeleteRole AddPrivilegeToRole
  RemovePrivilegeFromRole GrantRoleToUser RevokeRoleFromUser BootstrapSuperAdmin GrantPrivilege
  RevokePrivilege CreateAuditEvent DeleteAuditEvent ResolveCaller SetIdentityCacheTTL
  InvalidateAllIdentities Register ignore mergeTx pgComputeClusterUserStore_ReassignUser
  pgComputeAllocationMembershipStore_ReassignUser pgProjectMembershipStore_ReassignUser
  writeRoleAuditTx writePrivilegeAuditTx writeUserBootstrappedAuditTx writeIdentityAuditTx
  writeAuditTx assertHasPrivilegeTx assertGranterTx assertNotLastMetaHolderTx require_known
  IsKnownPrivilege KnownPrivileges ensureSuperAdminRoleTx createBootstrapUser bootstrapTx linkTx
  linkBySub EffectivePrivileges cacheGet cacheSet or_newID or_now countUsersHoldingPrivilegeTx
  userHasPrivilegeOutsideTx : ops.

Section facts.
Context `{E : Env}.

Lemma Quiet_or_newID id : Quiet (or_newID id).
Proof. unfold or_newID. solve_quiet. Qed.
Lemma Quiet_or_now t : Quiet (or_now t).
Proof. unfold or_now. solve_quiet. Qed.
Lemma Quiet_require_known p : Quiet (require_known p).
Proof. unfold require_known, IsKnownPrivilege. solve_quiet. Qed.
Lemma Quiet_assertHasPrivilegeTx a p : Quiet (assertHasPrivilegeTx a p).
Proof. unfold assertHasPrivilegeTx. solve_quiet. Qed.
Lemma Quiet_writeAuditTx t e i d : Quiet (writeAuditTx t e i d).
Proof. unfold writeAuditTx. solve_quiet. Qed.
Lemma Quiet_lastMetaHolderLoop ks u r : Quiet (lastMetaHolderLoop ks u r).
Proof.
  induction ks as [|k ks IH]; simpl;
    unfold countUsersHoldingPrivilegeTx, userHasPrivilegeOutsideTx; solve_quiet.
Qed.
Lemma Quiet_attachPrivilegesTx r ks : Quiet (attachPrivilegesTx r ks).
Proof. induction ks as [|k ks IH]; simpl; solve_quiet. Qed.

Lemma Replay_lastMetaHolderLoop ks u r :
  Replay (lastMetaHolderLoop ks u r) (@lastMetaHolderLoop (fault_free E) ks u r).
Proof. induction ks as [|k ks IH]; simpl; solve_replay. Qed.
Lemma Replay_attachPrivilegesTx r ks :
  Replay (attachPrivilegesTx r ks) (@attachPrivilegesTx (fault_free E) r ks).
Proof. induction ks as [|k ks IH]; simpl; solve_replay. Qed.

Lemma TxRel_lastMetaHolderLoop R `{!PreOrder R} ks u r : TxRel R (lastMetaHolderLoop ks u r).
Proof. induction ks as [|k ks IH]; simpl; autounfold with ops; repeat tx_step. Qed.

Lemma TxRel_attachPrivilegesTx R `{!PreOrder R} r ks :
  (∀ p, StmtRel R (pgRoleStore_AddPrivilege r p)) → TxRel R (attachPrivilegesTx r ks).
Proof. intros HR. induction ks as [|k ks IH]; simpl; repeat (apply HR || tx_step). Qed.

Lemma DbRel_cacheGet (R : relation DB) `{!PreOrder R} sub now : DbRel R (cacheGet sub now).
Proof. intros w. unfold cacheGet. destruct (cache_get _ _ _). simpl. reflexivity. Qed.
End facts.

#[export] Hint Resolve Quiet_or_newID Quiet_or_now Quiet_require_known Quiet_assertHasPrivilegeTx
  Quiet_writeAuditTx Quiet_lastMetaHolderLoop Quiet_attachPrivilegesTx : quiet.
#[export] Hint Resolve Replay_lastMetaHolderLoop Replay_attachPrivilegesTx : replay.

Section all_requests.
Context `{E : Env}.

(** Every operation preserves integrity, whatever fails on the way. *)
Lemma serve_integrity r : DbRel (pres integrity) (serve r).
Proof.
  destruct r; unfold serve; autounfold with ops;
    repeat first [ apply DbRel_cacheGet; apply _ | apply TxRel_lastMetaHolderLoop; apply _
                 | apply TxRel_attachPrivilegesTx; [apply _|] | db_step | tx_step ].
Qed.

(** An operation with a single transaction leaves no trace when it fails, unless
    the answer of its COMMIT was lost: then the database is that of the run in
    which nothing fails. *)
Lemma serve_acid r : multi_tx r = false → Acid (serve r) (@serve (fault_free E) r).
Proof.
  destruct r; intros [=]; unfold serve; autounfold with ops; solve_acid.
Qed.

Lemma serve_err_db r w e w' :
  multi_tx r = false → serve r w = (Err e, w') →
  w_db w' = w_db w ∨ ∃ w'', @serve (fault_free E) r w = (Ok tt, w'') ∧ w_db w' = w_db w''.
Proof.
  intros Hm H. apply serve_acid in H as [H|(_ & [] & w'' & H & Hd)]; [|eauto|done].
  left. by injection H.
Qed.

Lemma serve_err_obs `{!NoLost} r w e w' :
  multi_tx r = false → serve r w = (Err e, w') → obs w' = obs w.
Proof. intros Hm [?|[[]%no_answer_lost _]]%serve_acid; done. Qed.
End all_requests.

(** A property of the databases before and after every request that succeeds, in
    whatever environment, holds of every request that fails too. *)
Lemma serve_err_rel (R : relation DB) `{!Reflexive R} r `{E : Env} w e w' :
  multi_tx r = false →
  (∀ (E' : Env) w'', @serve E' r w = (Ok tt, w'') → R (w_db w) (w_db w'')) →
  serve r w = (Err e, w') → R (w_db w) (w_db w').
Proof. intros Hm HR H. destruct (serve_err_db _ _ _ _ Hm H) as [->|(w'' & H'' & ->)]; [done|exact (HR _ _ H'')]. Qed.
