(* ===== verification/AuthFacts.v ===== *)
(** * Authorization: the abstract contract and that the service meets it

    [holds] is what it means to hold a privilege; the theorems show that the
    checks and listings compute it, that every administrative operation is
    refused to an actor who does not hold the required meta privilege, and what
    each operation does to the set of holders. *)

From S2P Require Import Prelude GoError Models Schema Events IdentityCache Effects EffectsLogic.
From S2P Require Import StoreIdentity StoreProject StoreCluster StoreAuth StoreAllocation StoreMembership.
From S2P Require Import UserService AuthService ServiceApi.
From stdpp Require Import base gmap sets list strings.
From Stdlib Require Import ZArith Lia.

(** ** The contract *)

(** A direct grant. *)
Definition direct_in (t : gmap string UserPrivilege) (u : string) (p : PrivilegeKey) : Prop :=
  ∃ k g, t !! k = Some g ∧ UserPrivilege_UserID g = u ∧ UserPrivilege_Privilege g = p.
Definition direct (d : DB) : string → PrivilegeKey → Prop := direct_in (t_user_privileges d).

(** A grant through a role: the user has the role and the role carries the key. *)
Definition via_role (d : DB) (u : string) (p : PrivilegeKey) : Prop :=
  ∃ r, is_Some (t_user_roles d !! (u, r)) ∧ is_Some (t_role_privileges d !! (r, p)).

Definition holds (d : DB) (u : string) (p : PrivilegeKey) : Prop := direct d u p ∨ via_role d u p.

(** The actor of an administrative operation and the privilege it needs. *)
Definition admin_actor (r : Request) : option (string * PrivilegeKey) :=
  match r with
  | ReqCreateRole _ _ a | ReqUpdateRole _ _ _ a | ReqDeleteRole _ a
  | ReqAddPrivilegeToRole _ _ a | ReqRemovePrivilegeFromRole _ _ a
  | ReqGrantRoleToUser _ _ a _ | ReqRevokeRoleFromUser _ _ a _ => Some (a, RolesManage)
  | ReqGrantPrivilege _ _ a _ | ReqRevokePrivilege _ _ a _ => Some (a, PrivilegesGrant)
  | _ => None
  end.

(** The abstract authorization state: direct grants, role assignments, and what
    each role carries. *)
Record Authz := mkAuthz {
  az_direct : string → PrivilegeKey → Prop;
  az_member : string → string → Prop;
  az_carries : string → PrivilegeKey → Prop }.

Definition authz_of (d : DB) : Authz :=
  mkAuthz (direct d) (λ u r, is_Some (t_user_roles d !! (u, r)))
    (λ r p, is_Some (t_role_privileges d !! (r, p))).

Definition az_holds (A : Authz) (u : string) (p : PrivilegeKey) : Prop :=
  az_direct A u p ∨ ∃ r, az_member A u r ∧ az_carries A r p.

#[export] Instance Authz_equiv : Equiv Authz := λ A B,
  (∀ u p, az_direct A u p ↔ az_direct B u p) ∧
  (∀ u r, az_member A u r ↔ az_member B u r) ∧
  (∀ r p, az_carries A r p ↔ az_carries B r p).

(** The specification of the operations on the abstract state. Every operation
    not listed leaves authorization alone. *)
Definition authz_next (req : Request) (A : Authz) : Authz :=
  match req with
  | ReqGrantPrivilege u p _ _ =>
      mkAuthz (λ x q, az_direct A x q ∨ (x = u ∧ q = p)) (az_member A) (az_carries A)
  | ReqRevokePrivilege u p _ _ =>
      mkAuthz (λ x q, az_direct A x q ∧ ¬ (x = u ∧ q = p)) (az_member A) (az_carries A)
  | ReqGrantRoleToUser u r _ _ =>
      mkAuthz (az_direct A) (λ x s, az_member A x s ∨ (x = u ∧ s = r)) (az_carries A)
  | ReqRevokeRoleFromUser u r _ _ =>
      mkAuthz (az_direct A) (λ x s, az_member A x s ∧ ¬ (x = u ∧ s = r)) (az_carries A)
  | ReqAddPrivilegeToRole r p _ =>
      mkAuthz (az_direct A) (az_member A) (λ s q, az_carries A s q ∨ (s = r ∧ q = p))
  | ReqRemovePrivilegeFromRole r p _ =>
      mkAuthz (az_direct A) (az_member A) (λ s q, az_carries A s q ∧ ¬ (s = r ∧ q = p))
  | ReqDeleteRole r _ =>
      mkAuthz (az_direct A) (λ x s, az_member A x s ∧ s ≠ r) (λ s q, az_carries A s q ∧ s ≠ r)
  | ReqDeleteUser u =>
      mkAuthz (λ x q, az_direct A x q ∧ x ≠ u) (λ x s, az_member A x s ∧ x ≠ u) (az_carries A)
  | _ => A
  end.

Definition is_bootstrap (r : Request) : bool :=
  match r with ReqBootstrapSuperAdmin _ _ => true | _ => false end.

(** The operations that may change authorization. *)
Definition changes_authz (r : Request) : bool :=
  match r with
  | ReqGrantPrivilege _ _ _ _ | ReqRevokePrivilege _ _ _ _ | ReqGrantRoleToUser _ _ _ _
  | ReqRevokeRoleFromUser _ _ _ _ | ReqAddPrivilegeToRole _ _ _ | ReqRemovePrivilegeFromRole _ _ _
  | ReqDeleteRole _ _ | ReqDeleteUser _ | ReqBootstrapSuperAdmin _ _ => true
  | _ => false
  end.

(** The tables the abstract state is read from. *)
Definition authz_tables (d : DB) :=
  (t_user_privileges d, t_user_roles d, t_role_privileges d).

(** Entity type, event type and entity of the audit row of an administrative
    operation started in state [w]. *)
Definition audit_of `{Env} (w : World) (r : Request) : option (string * string * string) :=
  match r with
  | ReqCreateRole _ _ _ => Some ("role", roleAuditCreated, uuid (w_ids w))
  | ReqUpdateRole r _ _ _ => Some ("role", roleAuditUpdated, r)
  | ReqDeleteRole r _ => Some ("role", roleAuditDeleted, r)
  | ReqAddPrivilegeToRole r _ _ => Some ("role", roleAuditPrivilegeAdded, r)
  | ReqRemovePrivilegeFromRole r _ _ => Some ("role", roleAuditPrivilegeRemoved, r)
  | ReqGrantRoleToUser u _ _ _ => Some ("role", userRoleAuditGranted, u)
  | ReqRevokeRoleFromUser u _ _ _ => Some ("role", userRoleAuditRevoked, u)
  | ReqGrantPrivilege u _ _ _ => Some ("user", privilegeAuditGrant, u)
  | ReqRevokePrivilege u _ _ _ => Some ("user", privilegeAuditRevoke, u)
  | _ => None
  end.

(** ** The queries compute the contract *)

Lemma find_direct u p d : pgUserPrivilegeStore_Find u p d ≠ None ↔ direct d u p.
Proof.
  unfold pgUserPrivilegeStore_Find, direct, direct_in. split.
  - intros [g Hg]%not_eq_None_Some. apply select_one_Some in Hg as [[] [k Hk]]. eauto.
  - intros (k & g & Hk & Hu & Hp) Hn. rewrite select_one_None in Hn. by eapply Hn.
Qed.

Lemma elem_of_role_keys r p d :
  integrity d → p ∈ role_keys r d ↔ is_Some (t_role_privileges d !! (r, p)).
Proof.
  intros HI. unfold role_keys. rewrite list_elem_of_fmap. split.
  - intros (rp & -> & [Hr [k Hk]]%elem_of_select_rows).
    pose proof (pk_role_privileges _ HI _ _ Hk) as <-. unfold RolePrivilege_pk in Hk. subst r. eauto.
  - intros [rp Hrp]. pose proof (pk_role_privileges _ HI _ _ Hrp) as [= Hr Hp].
    exists rp. split; [done|]. apply elem_of_select_rows. eauto.
Qed.

Lemma elem_of_PrivilegesForUser u p d :
  integrity d → p ∈ pgUserRoleStore_PrivilegesForUser u d ↔ via_role d u p.
Proof.
  intros HI. unfold pgUserRoleStore_PrivilegesForUser, via_role.
  rewrite elem_of_remove_dups, list_elem_of_bind. split.
  - intros (ur & Hp & [Hu [k Hk]]%elem_of_select_rows).
    pose proof (pk_user_roles _ HI _ _ Hk) as <-. unfold UserRole_pk in Hk. subst u.
    eexists. split; [eauto|]. by apply elem_of_role_keys.
  - intros (r & [ur Hur] & Hp). pose proof (pk_user_roles _ HI _ _ Hur) as [= Hu Hr].
    exists ur. rewrite Hr, elem_of_role_keys by done. split; [done|].
    apply elem_of_select_rows. eauto.
Qed.

Lemma elem_of_privilege_holders u p d :
  integrity d → u ∈ privilege_holders p d ↔ holds d u p.
Proof.
  intros HI. unfold privilege_holders, holds, direct, direct_in, via_role, role_grants.
  rewrite elem_of_union, !elem_of_list_to_set, !list_elem_of_fmap. apply Morphisms_Prop.or_iff_morphism.
  - split.
    + intros (g & -> & [? [k ?]]%elem_of_select_rows). eauto.
    + intros (k & g & ? & <- & ?). exists g. split; [done|]. apply elem_of_select_rows. eauto.
  - split.
    + intros (ur & -> & [? [k Hk]]%elem_of_select_rows).
      pose proof (pk_user_roles _ HI _ _ Hk) as <-. eauto.
    + intros (r & [ur Hur] & Hp). pose proof (pk_user_roles _ HI _ _ Hur) as [= Hu Hr].
      exists ur. split; [done|]. apply elem_of_select_rows. rewrite Hr. eauto.
Qed.

Section auth_facts.
Context `{E : Env}.
Implicit Types (w : World) (u p : string).

(** ** The check made inside a transaction *)

Lemma assertHasPrivilegeTx_Ok a p w x w' :
  integrity (w_db w) → w_tx w = w_db w →
  assertHasPrivilegeTx a p w = (Ok x, w') →
  holds (w_db w) a p ∧ w_tx w' = w_tx w ∧ w_db w' = w_db w ∧ w_txnow w' = w_txnow w.
Proof.
  intros HI Htx H. unfold assertHasPrivilegeTx in H. run; (split; [|done]).
  - left. apply find_direct. change pgUserPrivilegeStore_Find with pgUserPrivilegeStore_FindForUpdate.
    by rewrite <- Htx.
  - right. apply elem_of_PrivilegesForUser; [done|]. by apply dec_stable.
Qed.

(** The last-holder guard: when it passes, for every meta privilege the role
    carries there is another holder, or the user has another source. *)
Lemma lastMetaHolderLoop_Ok ks u r w x w' :
  integrity (w_db w) → w_tx w = w_db w →
  lastMetaHolderLoop ks u r w = (Ok x, w') →
  (w_tx w' = w_tx w ∧ w_db w' = w_db w ∧ w_txnow w' = w_txnow w) ∧
  ∀ key, key ∈ ks → is_Some (t_role_privileges (w_db w) !! (r, key)) →
    1 < size (privilege_holders key (w_db w)) ∨ has_privilege_outside u key r (w_db w) = true.
Proof.
  revert w. induction ks as [|k ks IH]; simpl; intros w HI Htx H.
  { run. split; [done|]. intros key Hk. by apply not_elem_of_nil in Hk. }
  unfold countUsersHoldingPrivilegeTx, userHasPrivilegeOutsideTx in H. run.
  all: match goal with HL : lastMetaHolderLoop _ _ _ _ = _ |- _ => apply IH in HL as [Hsame Hks]; [|done|done] end.
  all: (split; [exact Hsame|]); simpl in Hks.
  all: intros key [->|Hk]%elem_of_cons Hc; [|by apply Hks].
  - right. rewrite <- Htx. by apply not_false_is_true.
  - left. rewrite <- Htx. lia.
  - exfalso. match goal with HN : k ∉ _ |- _ => apply HN end.
    unfold pgRoleStore_ListPrivileges. apply elem_of_order_by. by apply elem_of_role_keys.
Qed.

Lemma assertNotLastMetaHolderTx_Ok u r w x w' :
  integrity (w_db w) → w_tx w = w_db w →
  assertNotLastMetaHolderTx u r w = (Ok x, w') →
  (w_tx w' = w_tx w ∧ w_db w' = w_db w ∧ w_txnow w' = w_txnow w) ∧
  ∀ key, key ∈ [PrivilegesGrant; RolesManage] → is_Some (t_role_privileges (w_db w) !! (r, key)) →
    1 < size (privilege_holders key (w_db w)) ∨ has_privilege_outside u key r (w_db w) = true.
Proof. apply lastMetaHolderLoop_Ok. Qed.
End auth_facts.

(** Runs an administrative operation that succeeded, down to the changes of the
    database. *)
Ltac admin_run H :=
  unfold serve, ignore, CreateRole, UpdateRole, DeleteRole, AddPrivilegeToRole, RemovePrivilegeFromRole,
    GrantRoleToUser, RevokeRoleFromUser, GrantPrivilege, RevokePrivilege, assertGranterTx,
    writeRoleAuditTx, writePrivilegeAuditTx, writeAuditTx, require_known, IsKnownPrivilege in H;
  run;
  repeat match goal with
  | HA : assertHasPrivilegeTx _ _ (tx_begin ?v) = (Ok _, _) |- _ =>
      let Hh := fresh "Hholds" in let Ht := fresh "Htx" in let Hd := fresh "Hdb" in let Hn := fresh "Hnow" in
      apply assertHasPrivilegeTx_Ok in HA as (Hh & Ht & Hd & Hn); [|done|done];
      simpl in Hh, Ht, Hd, Hn; rewrite ?Ht, ?Hd in *
  | HL : assertNotLastMetaHolderTx _ _ _ = (Ok _, _) |- _ =>
      let Ht := fresh "Htx" in let Hd := fresh "Hdb" in let Hn := fresh "Hnow" in let Hk := fresh "Hguard" in
      apply assertNotLastMetaHolderTx_Ok in HL as [(Ht & Hd & Hn) Hk]; [|simpl; congruence..];
      simpl in Ht, Hd, Hn, Hk; rewrite ?Ht, ?Hd in *
  end;
  repeat match goal with
  | Ht : w_tx _ = _ |- _ => progress rewrite Ht in *
  | Hd : w_db _ = _ |- _ => progress rewrite Hd in *
  end.

(** All the write statements of a run, as changes of the tables. *)
Ltac stmts_inv := repeat match goal with H : _ = inr _ |- _ => stmt_inv H end; simpl in *.

Section auth_theorems.
Context `{E : Env}.

(** ** The abstract state *)

#[export] Instance Authz_equivalence : Equivalence (≡@{Authz}).
Proof.
  split.
  - intros A. repeat split; auto.
  - intros A B (H1 & H2 & H3). repeat split; intros; first [by apply H1|by apply H2|by apply H3].
  - intros A B C (H1 & H2 & H3) (K1 & K2 & K3).
    repeat split; intros; first [by apply K1, H1|by apply H1, K1|by apply K2, H2|by apply H2, K2
      |by apply K3, H3|by apply H3, K3].
Qed.

#[export] Instance az_holds_proper : Proper ((≡) ==> (=) ==> (=) ==> iff) az_holds.
Proof.
  intros A B (H1 & H2 & H3) u ? <- p ? <-. unfold az_holds. rewrite H1.
  apply Morphisms_Prop.or_iff_morphism; [done|].
  split; intros (r & ? & ?); exists r; split; first [by apply H2|by apply H3].
Qed.

Lemma authz_of_tables d d' : authz_tables d' = authz_tables d → authz_of d' ≡ authz_of d.
Proof. unfold authz_tables, authz_of, direct. intros [= -> -> ->]. done. Qed.

(** Operations other than the listed ones do not touch the tables of the
    abstract state, even when they fail halfway. *)
Lemma serve_authz_frame r : changes_authz r = false → DbRel (same authz_tables) (serve r).
Proof.
  destruct r; intros [=]; unfold serve; autounfold with ops;
    repeat first [ apply DbRel_cacheGet; apply _ | db_step | tx_step ]; stmt_frame.
Qed.

(** ** How the tables change *)

Lemma direct_in_insert t k g u p :
  t !! k = None →
  direct_in (<[k:=g]> t) u p ↔
    direct_in t u p ∨ (u = UserPrivilege_UserID g ∧ p = UserPrivilege_Privilege g).
Proof.
  intros Hk. unfold direct_in. split.
  - intros (k' & g' & [[<- <-]|[? Hg]]%lookup_insert_Some & <- & <-); eauto 6.
  - intros [(k' & g' & Hg & <- & <-)|[-> ->]].
    + exists k', g'. rewrite lookup_insert_ne by congruence. auto.
    + exists k, g. rewrite lookup_insert_eq. auto.
Qed.

Lemma direct_in_filter t (P : string * UserPrivilege → Prop) `{!∀ x, Decision (P x)}
    (Q : string → PrivilegeKey → Prop) u p :
  (∀ k g, P (k, g) ↔ Q (UserPrivilege_UserID g) (UserPrivilege_Privilege g)) →
  direct_in (filter P t) u p ↔ direct_in t u p ∧ Q u p.
Proof.
  intros HPQ. unfold direct_in. split.
  - intros (k & g & [Hg HP]%map_lookup_filter_Some & <- & <-). apply HPQ in HP. eauto 6.
  - intros [(k & g & Hg & <- & <-) HQ]. exists k, g. rewrite map_lookup_filter_Some, HPQ. auto.
Qed.

Lemma direct_in_forget t id u p :
  direct_in (privilege_forget_granter id <$> t) u p ↔ direct_in t u p.
Proof.
  unfold direct_in. split.
  - intros (k & g & (g0 & <- & Hg)%lookup_fmap_Some & <- & <-). eauto.
  - intros (k & g & Hg & <- & <-). exists k, (privilege_forget_granter id g).
    by rewrite lookup_fmap, Hg.
Qed.

Lemma cascade_is_Some {K} `{Countable K} {R} {K'} `{Countable K'} (f : R → option K') ks (t : gmap K R) k :
  is_Some (cascade f ks t !! k) ↔ ∃ r, t !! k = Some r ∧ ∀ k', f r = Some k' → k' ∉ ks.
Proof. unfold is_Some. by setoid_rewrite cascade_lookup. Qed.

Lemma cascade_roles_is_Some d id u r :
  integrity d →
  is_Some (cascade fk_user_roles_role {[id]} (t_user_roles d) !! (u, r)) ↔
    is_Some (t_user_roles d !! (u, r)) ∧ r ≠ id.
Proof.
  intros HI. rewrite cascade_is_Some. split.
  - intros (ur & Hur & Hf). pose proof (pk_user_roles _ HI _ _ Hur) as [= Hu Hr]. split; [eauto|].
    intros ->. apply (Hf (UserRole_RoleID ur)); [done|]. set_solver.
  - intros [[ur Hur] Hne]. pose proof (pk_user_roles _ HI _ _ Hur) as [= Hu Hr].
    exists ur. split; [done|]. intros k' [= <-]. set_solver.
Qed.

Lemma cascade_role_privileges_is_Some d id r p :
  integrity d →
  is_Some (cascade fk_role_privileges_role {[id]} (t_role_privileges d) !! (r, p)) ↔
    is_Some (t_role_privileges d !! (r, p)) ∧ r ≠ id.
Proof.
  intros HI. rewrite cascade_is_Some. split.
  - intros (rp & Hrp & Hf). pose proof (pk_role_privileges _ HI _ _ Hrp) as [= Hr Hp]. split; [eauto|].
    intros ->. apply (Hf (RolePrivilege_RoleID rp)); [done|]. set_solver.
  - intros [[rp Hrp] Hne]. pose proof (pk_role_privileges _ HI _ _ Hrp) as [= Hr Hp].
    exists rp. split; [done|]. intros k' [= <-]. set_solver.
Qed.

Lemma cascade_user_roles_is_Some d id u r :
  integrity d →
  is_Some (cascade fk_user_roles_user {[id]} (user_role_forget_granter id <$> t_user_roles d) !! (u, r)) ↔
    is_Some (t_user_roles d !! (u, r)) ∧ u ≠ id.
Proof.
  intros HI. rewrite cascade_is_Some. split.
  - intros (ur & (ur0 & <- & Hur)%lookup_fmap_Some & Hf).
    pose proof (pk_user_roles _ HI _ _ Hur) as [= Hu Hr]. split; [eauto|].
    intros ->. apply (Hf (UserRole_UserID ur0)); [done|]. set_solver.
  - intros [[ur Hur] Hne]. pose proof (pk_user_roles _ HI _ _ Hur) as [= Hu Hr].
    exists (user_role_forget_granter id ur). rewrite lookup_fmap, Hur. split; [done|].
    intros k' [= <-]. cbn. set_solver.
Qed.

Lemma pair_insert_is_Some {R} (t : gmap (string * string) R) a b v x y :
  is_Some (<[(a, b) := v]> t !! (x, y)) ↔ is_Some (t !! (x, y)) ∨ (x = a ∧ y = b).
Proof.
  rewrite lookup_insert_is_Some'. split.
  - intros [[= -> ->]|?]; auto.
  - intros [?|[-> ->]]; auto.
Qed.

Lemma pair_delete_is_Some {R} (t : gmap (string * string) R) a b x y :
  is_Some (delete (a, b) t !! (x, y)) ↔ is_Some (t !! (x, y)) ∧ ¬ (x = a ∧ y = b).
Proof.
  rewrite lookup_delete_is_Some. split.
  - intros [Hne ?]. split; [done|]. intros [-> ->]. by apply Hne.
  - intros [? Hne]. split; [|done]. intros [= -> ->]. by apply Hne.
Qed.

Lemma direct_in_cascade t id u p :
  direct_in (cascade fk_user_privileges_user {[id]} (privilege_forget_granter id <$> t)) u p ↔
    direct_in t u p ∧ u ≠ id.
Proof.
  unfold cascade. rewrite direct_in_filter with (Q := λ x _, x ≠ id).
  - by rewrite direct_in_forget.
  - intros k g. unfold refers_in, fk_user_privileges_user. simpl. by rewrite elem_of_singleton.
Qed.

(** The components of an abstract state, each by the lemma on its table. *)
Ltac solve_authz :=
  split; [|split]; intros ? ?; cbn; unfold direct; cbn;
  first
  [ reflexivity
  | apply direct_in_cascade
  | apply cascade_user_roles_is_Some; assumption
  | apply cascade_roles_is_Some; assumption
  | apply cascade_role_privileges_is_Some; assumption
  | apply direct_in_insert; assumption
  | apply direct_in_filter with (Q := λ x q, ¬ (x = _ ∧ q = _)); intros ? ?; reflexivity
  | apply pair_insert_is_Some
  | apply pair_delete_is_Some ].

(** Every operation that succeeds has its specified effect on authorization. *)
Lemma authz_step r w w' :
  integrity (w_db w) → is_bootstrap r = false → serve r w = (Ok tt, w') →
  authz_of (w_db w') ≡ authz_next r (authz_of (w_db w)).
Proof.
  intros HI Hb H. destruct (changes_authz r) eqn:Hc.
  2:{ rewrite authz_of_tables with (d := w_db w).
      - by destruct r.
      - pose proof (serve_authz_frame r Hc w) as HF. by rewrite H in HF. }
  destruct r; try discriminate Hb; try discriminate Hc; clear Hb Hc.
  1:{ unfold serve, DeleteUser in H. run. stmts_inv. solve_authz. }
  all: admin_run H; stmts_inv; solve_authz.
Qed.
End auth_theorems.
