(* ===== verification/Scenario.v ===== *)
(** * Concrete runs

    An environment without faults and a few databases reached by calling the
    operations, on which the theorems are instantiated and on which the
    behaviours reported as findings are exhibited. *)

From S2P Require Import Prelude GoError Models Schema Events IdentityCache Effects EffectsLogic.
From S2P Require Import UserService AuthService ServiceApi.
From stdpp Require Import base gmap sets list strings pretty.
From Stdlib Require Import ZArith.

(** Distinct identifiers, a clock that ticks, nothing fails. *)
Definition env0 : Env := {|
  uuid n := "id" +:+ pretty n;
  clock n := (1000000 * Z.of_nat (S n))%Z;
  db_clock n := (1000000 * Z.of_nat (S n))%Z;
  fault _ := false;
  lost _ := false |}.

(** The same, with the round trips of [l] failing. *)
Definition env_fault (l : list nat) : Env := {|
  uuid n := "id" +:+ pretty n;
  clock n := (1000000 * Z.of_nat (S n))%Z;
  db_clock n := (1000000 * Z.of_nat (S n))%Z;
  fault n := bool_decide (n ∈ l);
  lost _ := false |}.

#[export] Instance env0_NoFaults : @NoFaults env0.
Proof. intros n. reflexivity. Qed.

(** Calls one after another. *)
Definition run_requests (E : Env) (rs : list Request) (w : World) : World :=
  foldl (λ w r, (@serve E r w).2) w rs.

Lemma empty_integrity : integrity empty_db.
Proof. split; repeat intros ?; simplify_map_eq. Qed.

Lemma run_requests_integrity E rs w :
  integrity (w_db w) → integrity (w_db (run_requests E rs w)).
Proof.
  unfold run_requests. revert w. induction rs as [|r rs IH]; intros w Hw; simpl; [done|].
  apply IH. by apply (serve_integrity r w).
Qed.

Lemma run_empty_integrity E rs : integrity (w_db (run_requests E rs (init_world empty_db))).
Proof. apply run_requests_integrity. exact empty_integrity. Qed.

(** A call with a known result, as an equation. *)
Lemma run_result {A} (m : M A) w res : (m w).1 = res → m w = (res, (m w).2).
Proof. intros <-. by destruct (m w). Qed.
Lemma serve_result `{Env} r w res : (serve r w).1 = res → serve r w = (res, (serve r w).2).
Proof. intros <-. by destruct (serve r w). Qed.

(** An installation: an administrator, an organization, three users, a cluster
    and a project with an allocation. *)
Definition setup : list Request :=
  [ReqBootstrapSuperAdmin "root@example.org" "env";
   ReqCreateOrganization (Some (mkOrganization "org" "" "Org"));
   ReqCreateUser (Some (mkUser "alice" "org" "Alice" "A" "" "alice@example.org" "ACTIVE" ""));
   ReqCreateUser (Some (mkUser "bob" "org" "Bob" "B" "" "bob@example.org" "ACTIVE" ""));
   ReqCreateUser (Some (mkUser "carol" "org" "Carol" "C" "" "carol@example.org" "" ""));
   ReqCreateComputeCluster (Some (mkComputeCluster "delta" "Delta"));
   ReqCreateProject (Some (mkProject "proj" "TG-1" "Title" "ACCESS" "alice" "" 0));
   ReqCreateComputeAllocation (Some (mkComputeAllocation "alloc" "proj" "Alloc" "" "delta" 100 1 2))].

Definition w_setup : World := run_requests env0 setup (init_world empty_db).

(** The administrator and the super_admin role of [w_setup]. *)
Definition root_id : string := "id0".
Definition super_admin_id : string := "id2".

Lemma w_setup_integrity : integrity (w_db w_setup).
Proof. apply run_empty_integrity. Qed.

(** Only [vm_compute] runs it. *)
#[global] Opaque w_setup.

Example w_setup_admin :
  (dom (t_users (w_db w_setup)), dom (t_roles (w_db w_setup)), dom (t_user_roles (w_db w_setup)),
   size (t_role_privileges (w_db w_setup)), length (w_bus w_setup)) =
  ({[root_id; "alice"; "bob"; "carol"]}, {[super_admin_id]}, {[(root_id, super_admin_id)]}, 13, 7).
Proof. vm_compute. reflexivity. Qed.
