(* ===== verification/ServiceTheorems.v ===== *)
(** * The service as a whole

    Theorems about every operation at once: the declared constraints hold in
    every reachable state, a failed operation leaves no trace unless the answer
    of its COMMIT was lost, events are published only for committed changes, and what they carry is what was
    stored or removed. *)

From stdpp Require Import base gmap sets list strings.
From Stdlib Require Import ZArith.
From S2P Require Import Prelude GoError Models Schema Events IdentityCache Effects EffectsLogic.
From S2P Require Import StoreIdentity StoreProject StoreCluster StoreAuth StoreAllocation StoreMembership.
From S2P Require Import UserService AuthService ProjectService AllocationService MembershipService.
From S2P Require Import ServiceApi Scenario.

(** Publishes nothing; publishes nothing when it fails. *)
Class Silent {A} (m : M A) : Prop := silent w : w_bus (m w).2 = w_bus w.
Class SilentErr {A} (m : M A) : Prop :=
  silent_err w e w' : m w = (Err e, w') → w_bus w' = w_bus w.

(** The row a payload stands for is in the database, under its key. The server
    fills in created_at of an identity and leaves provisioned_at of a new
    cluster user blank, so those two columns are left open. *)
Definition stored (d : DB) (p : Payload) : Prop :=
  match p with
  | POrganization o => t_organizations d !! Organization_ID o = Some o
  | PUser u => t_users d !! User_ID u = Some u
  | PUserIdentity e => ∃ t, t_user_identities d !! UserIdentity_ID e = Some (with_identity_created t e)
  | PProject p => t_projects d !! Project_ID p = Some p
  | PComputeCluster c => t_compute_clusters d !! ComputeCluster_ID c = Some c
  | PComputeClusterUser c =>
      ∃ t, t_compute_cluster_users d !! ComputeClusterUser_ID c = Some (with_provisioned t c)
  | PComputeAllocation a => t_compute_allocations d !! ComputeAllocation_ID a = Some a
  | PComputeAllocationDiff x => t_diffs d !! Diff_ID x = Some x
  | PComputeAllocationResource r => t_resources d !! Resource_ID r = Some r
  | PComputeAllocationResourceMapping m => t_resource_mappings d !! Mapping_ID m = Some m
  | PComputeAllocationMembership m => t_memberships d !! Membership_ID m = Some m
  | PComputeAllocationMembershipResourceOverride o => t_overrides d !! Override_ID o = Some o
  end.

(** No row has the key of the payload. *)
Definition absent (d : DB) (p : Payload) : Prop :=
  match p with
  | POrganization o => t_organizations d !! Organization_ID o = None
  | PUser u => t_users d !! User_ID u = None
  | PUserIdentity e => t_user_identities d !! UserIdentity_ID e = None
  | PProject p => t_projects d !! Project_ID p = None
  | PComputeCluster c => t_compute_clusters d !! ComputeCluster_ID c = None
  | PComputeClusterUser c => t_compute_cluster_users d !! ComputeClusterUser_ID c = None
  | PComputeAllocation a => t_compute_allocations d !! ComputeAllocation_ID a = None
  | PComputeAllocationDiff x => t_diffs d !! Diff_ID x = None
  | PComputeAllocationResource r => t_resources d !! Resource_ID r = None
  | PComputeAllocationResourceMapping m => t_resource_mappings d !! Mapping_ID m = None
  | PComputeAllocationMembership m => t_memberships d !! Membership_ID m = None
  | PComputeAllocationMembershipResourceOverride o => t_overrides d !! Override_ID o = None
  end.

(** The event a creation publishes. *)
Definition create_event (r : Request) : option EventType :=
  match r with
  | ReqCreateOrganization _ => Some OrganizationCreateEvent
  | ReqCreateUser _ => Some UserCreateEvent
  | ReqCreateUserIdentity _ => Some UserIdentityCreateEvent
  | ReqCreateProject _ => Some ProjectCreateEvent
  | ReqCreateComputeCluster _ => Some ComputeClusterCreateEvent
  | ReqCreateComputeClusterUser _ => Some ComputeClusterUserCreateEvent
  | ReqCreateComputeAllocation _ => Some ComputeAllocationCreateEvent
  | ReqCreateComputeAllocationDiff _ => Some ComputeAllocationDiffCreateEvent
  | ReqCreateComputeAllocationResource _ => Some ComputeAllocationResourceCreateEvent
  | ReqAttachResourceToAllocation _ _ _ _ => Some ComputeAllocationResourceMappingCreateEvent
  | ReqCreateComputeAllocationMembership _ => Some ComputeAllocationMembershipCreateEvent
  | ReqCreateComputeAllocationMembershipResourceOverride _ =>
      Some ComputeAllocationMembershipResourceOverrideCreateEvent
  | _ => None
  end.

(** The event a deletion publishes. *)
Definition delete_event (r : Request) : option EventType :=
  match r with
  | ReqDeleteOrganization _ => Some OrganizationDeleteEvent
  | ReqDeleteUser _ => Some UserDeleteEvent
  | ReqDeleteUserIdentity _ => Some UserIdentityDeleteEvent
  | ReqDeleteProject _ => Some ProjectDeleteEvent
  | ReqDeleteComputeCluster _ => Some ComputeClusterDeleteEvent
  | ReqDeleteComputeClusterUser _ => Some ComputeClusterUserDeleteEvent
  | ReqDeleteComputeAllocation _ => Some ComputeAllocationDeleteEvent
  | ReqDeleteComputeAllocationDiff _ => Some ComputeAllocationDiffDeleteEvent
  | ReqDeleteComputeAllocationResource _ => Some ComputeAllocationResourceDeleteEvent
  | ReqDetachResourceFromAllocation _ _ => Some ComputeAllocationResourceMappingDeleteEvent
  | ReqDeleteComputeAllocationMembership _ => Some ComputeAllocationMembershipDeleteEvent
  | ReqDeleteComputeAllocationMembershipResourceOverride _ =>
      Some ComputeAllocationMembershipResourceOverrideDeleteEvent
  | _ => None
  end.

(** ** Silence, structurally *)

Section silent.
Context `{E : Env} {A B : Type}.
Implicit Types (m : M A) (k : A → M B).

Lemma Quiet_Silent m : Quiet m → Silent m.
Proof. intros Hm w. specialize (Hm w). by injection Hm. Qed.
Lemma Silent_bind m k : Silent m → (∀ a, Silent (k a)) → Silent (m ≫= k).
Proof.
  intros Hm Hk w. specialize (Hm w). unfold mbind, M_bind.
  destruct (m w) as [[a|e] w1]; simpl in *; [|done]. etrans; [apply Hk|exact Hm].
Qed.
Lemma Silent_wrapf f args m : Silent m → Silent (wrapf f args m).
Proof. intros Hm w. specialize (Hm w). unfold wrapf. destruct (m w) as [[] ?]; exact Hm. Qed.
Lemma Silent_inTx m : Quiet m → Silent (inTx m).
Proof.
  intros Hm w. unfold inTx. destruct (fault _); [done|].
  match goal with |- context [m ?x] => specialize (Hm x); destruct (m x) as [[a|e1] w1] end;
    simpl in *; injection Hm as _ Hb _ _; [destruct (fault _); [destruct (lost _)|]|];
    exact Hb.
Qed.
Lemma Silent_modify f : (∀ w, w_bus (f w) = w_bus w) → Silent (modify f).
Proof. intros Hf w. apply Hf. Qed.
Lemma Silent_Err m : Silent m → SilentErr m.
Proof. intros Hm w e w' H. specialize (Hm w). by rewrite H in Hm. Qed.
Lemma Acid_SilentErr m m' : Acid m m' → SilentErr m.
Proof. intros Hm w e w' H. apply Hm in H as [H|[[H _] _]]; [by injection H|done]. Qed.
Lemma Total_SilentErr m : Total m → SilentErr m.
Proof. intros Hm w e w' H. destruct (Hm w) as [a Ha]. by rewrite H in Ha. Qed.
Lemma SilentErr_bind m k : Silent m → (∀ a, SilentErr (k a)) → SilentErr (m ≫= k).
Proof.
  intros Hm Hk w e w'. specialize (Hm w). unfold mbind, M_bind.
  destruct (m w) as [[a|e1] w1]; simpl in *; intros H; [|injection H as _ <-; exact Hm].
  etrans; [by eapply Hk|exact Hm].
Qed.
Lemma SilentErr_bind_Total m k : SilentErr m → (∀ a, Total (k a)) → SilentErr (m ≫= k).
Proof.
  intros Hm Hk w e w'. unfold mbind, M_bind. destruct (m w) as [[a|e1] w1] eqn:Em; intros H.
  - destruct (Hk a w1) as [b Hb]. by rewrite H in Hb.
  - injection H as <- <-. eauto.
Qed.
Lemma SilentErr_wrapf f args m : SilentErr m → SilentErr (wrapf f args m).
Proof.
  intros Hm w e w'. unfold wrapf. destruct (m w) as [[a|e1] w1] eqn:Em; [done|].
  intros H; injection H as <- <-. eauto.
Qed.
End silent.

Lemma Silent_cacheGet `{Env} sub now : Silent (cacheGet sub now).
Proof. intros w. unfold cacheGet. by destruct (cache_get _ _ _). Qed.

Ltac silent_step :=
  lazymatch goal with
  | |- ∀ _, _ => intros ?
  | |- Silent (inTx _) => apply Silent_inTx; solve [solve_quiet]
  | |- Silent (modify _) => apply Silent_modify; intros ?; reflexivity
  | |- Silent (wrapf _ _ _) => apply Silent_wrapf
  | |- Silent (when _ _) => unfold when
  | |- Silent (_ ≫= _) => apply Silent_bind
  | |- Silent (if ?b then _ else _) => destruct b
  | |- Silent (match ?x with _ => _ end) => destruct x
  | |- Silent _ => first [apply Silent_cacheGet | apply Quiet_Silent; solve [solve_quiet]]
  end.

Section theorems.
Context `{E : Env}.

Lemma CreateComputeAllocationDiff_acid x :
  Acid (CreateComputeAllocationDiff x) (@CreateComputeAllocationDiff (fault_free E) x).
Proof. unfold CreateComputeAllocationDiff. solve_acid. Qed.

Lemma serve_silent_err r : SilentErr (serve r).
Proof.
  destruct (multi_tx r) eqn:Hm; [|by eapply Acid_SilentErr, serve_acid].
  destruct r; try discriminate Hm; clear Hm; unfold serve.
  - unfold UpdateComputeAllocationChangeRequest, ignore.
    apply SilentErr_bind_Total; [|intros ?; apply Total_ret].
    do 4 (apply SilentErr_bind; [repeat silent_step|intros ?]).
    destruct (change_event _ _). apply SilentErr_bind; [repeat silent_step|intros ?].
    apply SilentErr_bind_Total; [|intros ?; apply Total_ret]. unfold when. case_decide.
    + apply SilentErr_bind_Total; [|intros ?; apply Total_ret].
      eapply SilentErr_wrapf, Acid_SilentErr, CreateComputeAllocationDiff_acid.
    + apply Total_SilentErr, Total_ret.
  - apply Silent_Err. autounfold with ops. repeat silent_step.
  - apply Silent_Err. autounfold with ops. repeat silent_step.
Qed.

(** Reading a row back, and that it is gone once its key is deleted. *)
Lemma deleted_row {R} (pk : R → string) (t : gmap string R) id r :
  keyed pk t → t !! id = Some r → t !! pk r = Some r ∧ delete id t !! pk r = None.
Proof. intros Hk Hr. rewrite (Hk _ _ Hr). split; [done|apply lookup_delete_eq]. Qed.

Lemma detached_row d a r m :
  integrity d → pgComputeAllocationResourceMappingStore_FindByPair a r d = Some m →
  t_resource_mappings d !! Mapping_ID m = Some m ∧
  filter (λ kr, ¬ (Mapping_ComputeAllocationID kr.2 = a ∧ Mapping_ComputeAllocationResourceID kr.2 = r))
    (t_resource_mappings d) !! Mapping_ID m = None.
Proof.
  intros HI [Hp [k Hk]]%select_one_Some. pose proof (pk_resource_mappings _ HI _ _ Hk) as <-.
  split; [done|]. apply map_lookup_filter_None_2. right. intros m' Hm'. simplify_eq. simpl. tauto.
Qed.

(** ** The theorems *)

(** Every constraint the schema declares (primary keys, UNIQUE and FOREIGN KEY
    constraints, the role CHECK) holds in every state reached from a state in
    which they hold: the statements modelled keep PostgreSQL's promise, which the
    other theorems use. *)
Theorem reachable_integrity w0 w :
  integrity (w_db w0) → reachable w0 w → integrity (w_db w).
Proof.
  intros H0 Hr. induction Hr as [|w r w' _ IH Hs]; [done|]. destruct Hs as [r]. by apply serve_integrity.
Qed.

(** C3: an operation with a single transaction that returns an error leaves the
    committed database, the event bus, the identity cache and the privilege
    registry exactly as they were, wherever the failure happened, with one
    exception: when its last round trip was carried out and only the answer was
    lost (a COMMIT). Then events, cache and registry are still as they were, and
    the database is exactly the one the same operation leaves when nothing
    fails: all of the transaction, never a part of it. *)
Theorem failed_request_no_trace r w e w' :
  multi_tx r = false → serve r w = (Err e, w') →
  obs w' = obs w ∨
  answer_lost w w' ∧ ∃ w'', @serve (fault_free E) r w = (Ok tt, w'') ∧ w_db w' = w_db w''.
Proof.
  intros Hm H. apply serve_acid in H as [H|(Hl & [] & w'' & H & Hd)]; [by left|by right; eauto|done].
Qed.

(** No operation, including those with several transactions, publishes an
    event and then returns an error. *)
Theorem failed_request_silent r w e w' : serve r w = (Err e, w') → w_bus w' = w_bus w.
Proof. apply serve_silent_err. Qed.

(** A creation that succeeds publishes exactly one event, of its type, and
    the payload is the row the database now holds. *)
Theorem create_published r t w w' :
  create_event r = Some t → serve r w = (Ok tt, w') →
  ∃ p, w_bus w' = w_bus w ++ [mkEvent t p] ∧ stored (w_db w') p.
Proof.
  intros Ht H. destruct r; simpl in Ht; try discriminate Ht; injection Ht as <-;
    unfold serve in H; autounfold with ops in H; run;
    match goal with H : _ = inr _ |- _ => stmt_inv H end; simpl;
    (eexists; split; [reflexivity|]); simpl; try eexists; apply lookup_insert_eq.
Qed.

(** A deletion that succeeds publishes exactly one event, of its type; the
    payload is the row as it was, and no row has its key afterwards. *)
Theorem delete_published r t w w' :
  integrity (w_db w) → delete_event r = Some t → serve r w = (Ok tt, w') →
  ∃ p, w_bus w' = w_bus w ++ [mkEvent t p] ∧ stored (w_db w) p ∧ absent (w_db w') p.
Proof.
  intros HI Ht H. destruct r; simpl in Ht; try discriminate Ht; injection Ht as <-;
    unfold serve in H; autounfold with ops in H; run;
    match goal with H : _ = inr _ |- _ => stmt_inv H end; simpl;
    (eexists; split; [reflexivity|]); simpl.
  all: try (eapply deleted_row; [by destruct HI|eassumption]).
  - edestruct (deleted_row UserIdentity_ID) as [Hs ?]; [by destruct HI|eassumption|].
    split; [|done]. exists (UserIdentity_CreatedAt a1). rewrite Hs. by destruct a1.
  - edestruct (deleted_row ComputeClusterUser_ID) as [Hs ?]; [by destruct HI|eassumption|].
    split; [|done]. exists (ComputeClusterUser_ProvisionedAt a1). rewrite Hs. by destruct a1.
  - by apply detached_row.
Qed.
End theorems.

(** ** Instances on concrete runs *)

Lemma reachable_integrity_witness : integrity (w_db (@serve env0 (ReqDeleteUser root_id) w_setup).2).
Proof.
  apply (@reachable_integrity env0 w_setup); [apply w_setup_integrity|].
  eapply reachable_step; [apply reachable_init|apply step_serve].
Defined.

(** The name of a cluster is taken. *)
Definition duplicate_cluster : Request := ReqCreateComputeCluster (Some (mkComputeCluster "" "Delta")).

(** The connection breaks at a COMMIT that the server carries out. *)
Definition env_answer_lost (l : list nat) : Env := {|
  uuid := @uuid env0;
  clock := @clock env0;
  db_clock := @db_clock env0;
  fault n := bool_decide (n ∈ l);
  lost _ := true |}.
Definition create_bridges : Request := ReqCreateComputeCluster (Some (mkComputeCluster "bridges" "Bridges")).
Definition env_lost_create : Env := env_answer_lost [w_stmt w_setup + 3].

Lemma failed_request_no_trace_witness :
  (obs (@serve env0 duplicate_cluster w_setup).2 = obs w_setup ∨
   @answer_lost env0 w_setup (@serve env0 duplicate_cluster w_setup).2 ∧ ∃ w'',
     @serve (fault_free env0) duplicate_cluster w_setup = (Ok tt, w'') ∧
     w_db (@serve env0 duplicate_cluster w_setup).2 = w_db w'') ∧
  (let w' := (@serve env_lost_create create_bridges w_setup).2 in
   obs w' = obs w_setup ∨
   @answer_lost env_lost_create w_setup w' ∧ ∃ w'',
     @serve (fault_free env_lost_create) create_bridges w_setup = (Ok tt, w'') ∧ w_db w' = w_db w'').
Proof.
  split.
  - apply (@failed_request_no_trace env0 duplicate_cluster w_setup
             (Errorf "%w: compute cluster with name %q" ["Delta"] ErrAlreadyExists)); [reflexivity|].
    apply serve_result. vm_compute. reflexivity.
  - apply (@failed_request_no_trace env_lost_create create_bridges w_setup
             (Errorf "create compute cluster: %w" [] (Errorf "commit transaction: %w" [] (DbError IOFault))));
      [reflexivity|]. apply serve_result. vm_compute. reflexivity.
Defined.

(** The exception happens: the cluster is stored, the caller is told that it is
    not, and nobody who subscribed to cluster creations hears of it. *)
Example committed_without_event :
  let '(r, w') := @serve env_lost_create create_bridges w_setup in
  (∃ e, r = Err e) ∧ (ComputeCluster_Name <$> t_compute_clusters (w_db w') !! "bridges") = Some "Bridges" ∧
  w_bus w' = w_bus w_setup.
Proof.
  destruct (@serve env_lost_create create_bridges w_setup) as [r w'] eqn:H.
  assert (r = Err (Errorf "create compute cluster: %w" [] (Errorf "commit transaction: %w" [] (DbError IOFault)))) as ->.
  { apply (f_equal fst) in H. simpl in H. rewrite <- H. vm_compute. reflexivity. }
  split; [eauto|]. apply (f_equal snd) in H. simpl in H. rewrite <- H. split; vm_compute; reflexivity.
Qed.

(** A change request is approved, and the transaction that records the diff
    cannot begin. *)
Definition pending_request : ComputeAllocationChangeRequest :=
  mkComputeAllocationChangeRequest "cr" "alloc" 500 "ACTIVE" "more" "PENDING" "alice" "" 0.
Definition approve_request : ComputeAllocationChangeRequest :=
  mkComputeAllocationChangeRequest "cr" "" 500 "ACTIVE" "more" "APPROVED" "" "bob" 0.
Definition w_pending : World :=
  run_requests env0 [ReqCreateComputeAllocationChangeRequest (Some pending_request)] w_setup.
Definition env_second_tx : Env := env_fault [w_stmt w_pending + 6].

Lemma failed_request_silent_witness :
  w_bus (@serve env_second_tx (ReqUpdateComputeAllocationChangeRequest (Some approve_request)) w_pending).2
  = w_bus w_pending.
Proof.
  apply (@failed_request_silent env_second_tx (ReqUpdateComputeAllocationChangeRequest (Some approve_request)) w_pending
    (Errorf "record approved change request diff: %w" [] (Errorf "create compute allocation diff: %w" []
       (Errorf "begin transaction: %w" [] (DbError IOFault))))).
  apply serve_result. vm_compute. reflexivity.
Defined.

Definition create_lab : Request := ReqCreateOrganization (Some (mkOrganization "" "" "Lab")).

Lemma create_published_witness :
  ∃ p, w_bus (@serve env0 create_lab w_setup).2 = w_bus w_setup ++ [mkEvent OrganizationCreateEvent p] ∧
       stored (w_db (@serve env0 create_lab w_setup).2) p.
Proof.
  apply (@create_published env0 create_lab); [reflexivity|]. apply serve_result. vm_compute. reflexivity.
Defined.

Lemma delete_published_witness :
  ∃ p, w_bus (@serve env0 (ReqDeleteUser "carol") w_setup).2 = w_bus w_setup ++ [mkEvent UserDeleteEvent p] ∧
       stored (w_db w_setup) p ∧ absent (w_db (@serve env0 (ReqDeleteUser "carol") w_setup).2) p.
Proof.
  apply (@delete_published env0 (ReqDeleteUser "carol")); [apply w_setup_integrity|reflexivity|].
  apply serve_result. vm_compute. reflexivity.
Defined.

(** An UPDATE by an unknown id changes no row, and is reported and published as
    a success all the same. *)
Example update_of_missing_id_succeeds :
  let r := ReqUpdateOrganization (Some (mkOrganization "nowhere" "" "Ghost")) in
  (@serve env0 r w_setup).1 = Ok tt ∧
  t_organizations (w_db (@serve env0 r w_setup).2) !! "nowhere" = None ∧
  last (w_bus (@serve env0 r w_setup).2) =
    Some (mkEvent OrganizationUpdateEvent (POrganization (mkOrganization "nowhere" "" "Ghost"))).
Proof. repeat split; vm_compute; reflexivity. Qed.

(** After the failure above the request is APPROVED and no diff exists, and
    sending the approval again records none either. *)
Example approval_without_diff :
  let req := ReqUpdateComputeAllocationChangeRequest (Some approve_request) in
  let w1 := (@serve env_second_tx req w_pending).2 in
  let w2 := (@serve env0 req w1).2 in
  (ChangeRequest_ChangeStatus <$> t_change_requests (w_db w1) !! "cr") = Some "APPROVED" ∧
  size (t_diffs (w_db w1)) = 0 ∧ (@serve env0 req w1).1 = Ok tt ∧ size (t_diffs (w_db w2)) = 0.
Proof. repeat split; vm_compute; reflexivity. Qed.
