(* ===== verification/AuthTheorems.v ===== *)
(** * Authorization theorems

    The service against the contract of AuthFacts: refinement of the abstract
    authorization state, the checks, who may administer, the last-holder
    guards, the audit trail and the protection of system roles. Each theorem
    with a hypothesis is followed by its instance on a concrete run. *)

From S2P Require Import Prelude GoError Models Schema Events IdentityCache Effects EffectsLogic.
From S2P Require Import StoreIdentity StoreProject StoreCluster StoreAuth StoreAllocation StoreMembership.
From S2P Require Import Wire UserService AuthService ServiceApi AuthFacts Scenario.
From stdpp Require Import base gmap sets list strings.
From Stdlib Require Import ZArith Lia.

(** System roles stay: present, still system, same name. *)
Definition system_roles_kept : relation DB := λ d d',
  ∀ id r, t_roles d !! id = Some r → Role_IsSystem r = true →
    ∃ r', t_roles d' !! id = Some r' ∧ Role_IsSystem r' = true ∧ Role_Name r' = Role_Name r.

(** Nobody loses a privilege. *)
Definition holders_kept : relation DB := λ d d', ∀ u p, holds d u p → holds d' u p.

(** Some user holds the key. *)
Definition has_holder (d : DB) (p : PrivilegeKey) : Prop := ∃ u, holds d u p.

(** The requests that may take a key from its last holder: role and user
    deletion, taking a key out of a role, and revoking a direct grant of a key
    other than privileges:grant. *)
Definition may_orphan (r : Request) (key : PrivilegeKey) : bool :=
  match r with
  | ReqDeleteRole _ _ | ReqDeleteUser _ | ReqRemovePrivilegeFromRole _ _ _ => true
  | ReqRevokePrivilege _ p _ _ => bool_decide (p = key ∧ key ≠ PrivilegesGrant)
  | _ => false
  end.

(** What the abstract machine requires of a request that changes something: an
    administrative request comes from an actor who holds the meta privilege it
    needs, and a meta privilege that the request may not orphan and that has a
    holder keeps one. *)
Definition authz_admits (req : Request) (A : Authz) : Prop :=
  (∀ actor p, admin_actor req = Some (actor, p) → az_holds A actor p) ∧
  (∀ key, key ∈ [PrivilegesGrant; RolesManage] → may_orphan req key = false →
     (∃ u, az_holds A u key) → ∃ u, az_holds (authz_next req A) u key).

(** ** Helper lemmas *)

Section successes.
Context `{E : Env}.

Lemma require_known_run w p : p ∈ w_registry w → require_known p w = (Ok tt, w).
Proof.
  intros Hp. unfold require_known, IsKnownPrivilege. erewrite bind_run by reflexivity.
  apply fail_if_run. rewrite bool_decide_eq_true_2; done.
Qed.

Lemma HasPrivilege_run `{!NoFaults} w u p :
  u ≠ "" → p ∈ w_registry w → integrity (w_db w) →
  ∃ b w', HasPrivilege u p w = (Ok b, w') ∧ (b = true ↔ holds (w_db w) u p).
Proof.
  intros Hu Hp HI. unfold HasPrivilege.
  rewrite (bind_run _ _ _ _ _ (fail_if_run _ _ _ Hu)), (bind_run _ _ _ _ _ (require_known_run _ _ Hp)).
  rewrite (bind_run _ _ _ _ _ (wrap_run _ _ _ _ _ _ (query_run _ _))).
  unfold holds. setoid_rewrite <- find_direct. case_decide as Hd.
  - do 2 eexists. split; [reflexivity|]. tauto.
  - rewrite (bind_run _ _ _ _ _ (wrap_run _ _ _ _ _ _ (query_run _ _))).
    do 2 eexists. split; [reflexivity|].
    simpl. rewrite bool_decide_eq_true, elem_of_PrivilegesForUser by done. tauto.
Qed.

Lemma EffectivePrivileges_Ok u w ps w' :
  integrity (w_db w) → EffectivePrivileges u w = (Ok ps, w') →
  NoDup ps ∧ (∀ p, p ∈ ps ↔ holds (w_db w) u p) ∧ w' = bump_stmt (bump_stmt w) ∧ u ≠ "".
Proof.
  intros HI H. unfold EffectivePrivileges in H. run. split; [apply NoDup_elements|].
  split; [|done]. intros p. rewrite elem_of_elements, elem_of_union, !elem_of_list_to_set.
  unfold holds. rewrite elem_of_PrivilegesForUser by done.
  apply Morphisms_Prop.or_iff_morphism; [|done].
  unfold pgUserPrivilegeStore_ListByUser, direct, direct_in. rewrite list_elem_of_fmap. split.
  - intros (g & -> & [? [k ?]]%elem_of_order_by%elem_of_select_rows). eauto.
  - intros (k & g & ? & ? & <-). exists g. split; [done|].
    apply elem_of_order_by, elem_of_select_rows. eauto.
Qed.

Lemma admin_requires r actor p w w' :
  integrity (w_db w) → admin_actor r = Some (actor, p) → serve r w = (Ok tt, w') →
  holds (w_db w) actor p.
Proof.
  intros HI Ha H. destruct r; simpl in Ha; simplify_eq; admin_run H; assumption.
Qed.

(** The error case of an operation leaves the abstract state alone, unless its
    COMMIT was carried out. *)
Lemma authz_err r w e w' :
  is_bootstrap r = false → serve r w = (Err e, w') →
  authz_of (w_db w') ≡ authz_of (w_db w) ∨
  answer_lost w w' ∧ ∃ w'', @serve (fault_free E) r w = (Ok tt, w'') ∧ w_db w' = w_db w''.
Proof.
  intros Hb H. destruct (multi_tx r) eqn:Hm.
  - assert (changes_authz r = false) as Hc by (by destruct r). left.
    apply authz_of_tables. pose proof (serve_authz_frame r Hc w) as HF. by rewrite H in HF.
  - apply serve_acid in H as [H|(Hl & [] & w'' & H & Hd)]; [|by right; eauto|done].
    left. injection H as -> _ _ _. done.
Qed.

Lemma holds_az d u p : holds d u p ↔ az_holds (authz_of d) u p.
Proof. reflexivity. Qed.

#[export] Instance holders_kept_preorder : PreOrder holders_kept.
Proof. split; unfold holders_kept; [auto|]. intros d1 d2 d3 H1 H2 u p H. by apply H2, H1. Qed.

(** Statements that only add grants, or touch none. *)
Lemma holders_kept_same s : StmtRel (same authz_tables) s → StmtRel holders_kept s.
Proof.
  intros Hs d d' H u p. apply Hs in H. rewrite !holds_az. by rewrite (authz_of_tables _ _ H).
Qed.

Lemma holders_kept_AddPrivilege r p : StmtRel holders_kept (pgRoleStore_AddPrivilege r p).
Proof.
  intros d d' H u q. stmt_inv H. intros [?|(r' & ? & ?)]; [by left|right]. exists r'. split; [done|].
  simpl. apply pair_insert_is_Some. auto.
Qed.

Lemma holders_kept_UserRole a : StmtRel holders_kept (pgUserRoleStore_Create a).
Proof.
  intros d d' H u q. stmt_inv H. intros [?|(r' & ? & ?)]; [by left|right]. exists r'. split; [|done].
  simpl. apply pair_insert_is_Some. auto.
Qed.

Lemma bootstrap_holders_kept email source : DbRel holders_kept (BootstrapSuperAdmin email source).
Proof.
  autounfold with ops.
  repeat first [ apply TxRel_attachPrivilegesTx; [apply _|] | db_step | tx_step
               | apply holders_kept_AddPrivilege | apply holders_kept_UserRole
               | apply holders_kept_same; stmt_frame ].
Qed.

(** Another holder than [u]. *)
Lemma other_holder d u key :
  integrity d → 1 < size (privilege_holders key d) → ∃ x, x ≠ u ∧ holds d x key.
Proof.
  intros HI Hs. assert (∃ x, x ∈ privilege_holders key d ∖ {[u]}) as [x Hx].
  { apply set_choose_L. intros He. apply (f_equal size) in He.
    rewrite size_empty, size_difference_alt in He.
    assert (size (privilege_holders key d ∩ {[u]}) ≤ size ({[u]} : gset string)) as Hle
      by (apply subseteq_size, intersection_subseteq_r).
    rewrite size_singleton in Hle. lia. }
  exists x. apply elem_of_difference in Hx as [Hx Hne]. split; [set_solver|].
  by apply elem_of_privilege_holders.
Qed.

Lemma holds_outside d u key r :
  integrity d → has_privilege_outside u key r d = true →
  direct d u key ∨ ∃ r', r' ≠ r ∧ is_Some (t_user_roles d !! (u, r')) ∧ is_Some (t_role_privileges d !! (r', key)).
Proof.
  intros HI [Hd|He]%bool_decide_eq_true.
  - left. apply find_direct. by apply is_Some_not_None.
  - right. apply Exists_exists in He as (ur & Hur & Hu & Hne).
    apply elem_of_select_rows in Hur as [Hp [k Hk]].
    pose proof (pk_user_roles _ HI _ _ Hk) as <-. unfold UserRole_pk in Hk. rewrite Hu in Hk. eauto.
Qed.

(** A key that keeps a holder under the abstract effect of an operation. *)
Lemma has_holder_az d' A key :
  authz_of d' ≡ A → (∃ x, az_holds A x key) → has_holder d' key.
Proof. intros HA [x Hx]. exists x. rewrite holds_az. by rewrite HA. Qed.

Lemma RevokeRole_has_holder u r a reason w w' key :
  integrity (w_db w) → key ∈ [PrivilegesGrant; RolesManage] →
  serve (ReqRevokeRoleFromUser u r a reason) w = (Ok tt, w') →
  has_holder (w_db w) key → has_holder (w_db w') key.
Proof.
  intros HI Hkey H [x Hx]. pose proof H as HA. apply authz_step in HA; [|done..].
  apply (has_holder_az _ _ _ HA). admin_run H.
  destruct (decide (is_Some (t_role_privileges (w_db w) !! (r, key)))) as [Hc|Hc].
  - destruct (Hguard _ Hkey Hc) as [Hs|Ho].
    + destruct (other_holder _ u _ HI Hs) as (y & Hne & [Hd|(r' & ? & ?)]).
      * exists y. by left.
      * exists y. right. exists r'. simpl. split; [|done]. split; [done|]. intros [-> _]. done.
    + exists u. destruct (holds_outside _ _ _ _ HI Ho) as [Hd|(r' & ? & ? & ?)]; [by left|right].
      exists r'. simpl. split; [|done]. split; [done|]. intros [_ ->]. done.
  - exists x. destruct Hx as [Hd|(r' & ? & ?)]; [by left|right].
    exists r'. simpl. split; [|done]. split; [done|]. intros [_ ->]. done.
Qed.

Lemma RevokePrivilege_has_holder u p a reason w w' key :
  integrity (w_db w) → may_orphan (ReqRevokePrivilege u p a reason) key = false →
  serve (ReqRevokePrivilege u p a reason) w = (Ok tt, w') →
  has_holder (w_db w) key → has_holder (w_db w') key.
Proof.
  intros HI Hm%bool_decide_eq_false H [x Hx]. pose proof H as HA. apply authz_step in HA; [|done..].
  apply (has_holder_az _ _ _ HA). destruct (decide (p = key)) as [->|Hne].
  - assert (key = PrivilegesGrant) as -> by (destruct (decide (key = PrivilegesGrant)); tauto).
    admin_run H; [|done]. match goal with HN : ¬ (_ ≤ 1) |- _ => rename HN into Hcount end.
    apply not_le, select_rows_two in Hcount as (k1 & k2 & g1 & g2 & Hk & H1 & H2 & P1 & P2).
    destruct (decide (UserPrivilege_UserID g1 = u)) as [Hu|Hu].
    + exists (UserPrivilege_UserID g2). left. split; [by exists k2, g2|]. intros [Hu2 _]. apply Hk.
      apply (u_privileges_pair _ HI k1 k2 g1 g2 (u, PrivilegesGrant)); [done|done|..];
        unfold uq_user_privileges; congruence.
    + exists (UserPrivilege_UserID g1). left. split; [by exists k1, g1|]. intros [? _]. done.
  - exists x. destruct Hx as [Hd|?]; [left|by right]. split; [done|]. intros [_ ->]. done.
Qed.

(** The meta privileges keep a holder through a request that succeeds. *)
Lemma serve_meta_holder r key w w' :
  integrity (w_db w) → key ∈ [PrivilegesGrant; RolesManage] → may_orphan r key = false →
  is_bootstrap r = false → serve r w = (Ok tt, w') →
  has_holder (w_db w) key → has_holder (w_db w') key.
Proof.
  intros HI Hk Hm Hb H [u Hu]. pose proof H as HA. apply authz_step in HA; [|done..].
  destruct r; try discriminate Hm; simpl in HA;
    try (apply (has_holder_az _ _ _ HA); exists u; exact Hu).
  - apply (has_holder_az _ _ _ HA). exists u. destruct Hu as [?|(r' & ? & ?)]; [by left|right].
    exists r'. simpl. auto.
  - apply (has_holder_az _ _ _ HA). exists u. destruct Hu as [?|(r' & ? & ?)]; [by left|right].
    exists r'. simpl. auto.
  - eapply RevokeRole_has_holder; [done..|]. by exists u.
  - apply (has_holder_az _ _ _ HA). exists u. destruct Hu as [?|?]; [left|by right]. simpl. auto.
  - eapply RevokePrivilege_has_holder; [done..|]. by exists u.
Qed.

(** What a request that succeeds has passed, and where it leads. *)
Lemma authz_success r w w' :
  integrity (w_db w) → is_bootstrap r = false → serve r w = (Ok tt, w') →
  authz_admits r (authz_of (w_db w)) ∧ authz_of (w_db w') ≡ authz_next r (authz_of (w_db w)).
Proof.
  intros HI Hb H. pose proof H as HA. apply authz_step in HA; [|done..]. split; [|done]. split.
  - intros actor p Ha. by eapply admin_requires.
  - intros key Hk Hm Hh. destruct (serve_meta_holder _ _ _ _ HI Hk Hm Hb H Hh) as [u Hu].
    exists u. rewrite holds_az in Hu. by rewrite HA in Hu.
Qed.

#[export] Instance system_roles_kept_preorder : PreOrder system_roles_kept.
Proof.
  split.
  - intros d id r Hr Hs. eauto.
  - intros d1 d2 d3 H1 H2 id r Hr Hs. destruct (H1 _ _ Hr Hs) as (r2 & Hr2 & Hs2 & <-). eauto.
Qed.

Lemma system_roles_same s : StmtRel (same t_roles) s → StmtRel system_roles_kept s.
Proof. intros Hs d d' H%Hs id r Hr Hsys. rewrite H. eauto. Qed.

Lemma system_roles_Create r now : StmtRel system_roles_kept (pgRoleStore_Create r now).
Proof.
  intros d d' H id r' Hr' Hsys. stmt_inv H. exists r'. simpl. rewrite lookup_insert_ne; [done|congruence].
Qed.

(** The two requests that rewrite or delete a role spare the system roles. *)
Lemma role_requests_system_roles r w w' :
  integrity (w_db w) → match r with ReqUpdateRole _ _ _ _ | ReqDeleteRole _ _ => True | _ => False end →
  serve r w = (Ok tt, w') → system_roles_kept (w_db w) (w_db w').
Proof.
  intros HI Hr H. destruct r; try done; admin_run H;
    match goal with HF : pgRoleStore_FindByID _ _ = Some ?x |- _ =>
      pose proof (pk_roles _ HI _ _ HF) as Hid; rename x into old; unfold pgRoleStore_FindByID in HF; rename HF into Hold end;
    stmts_inv; intros id x Hr' Hsys; simpl.
  all: try (by exists x).
  - rewrite Hid in *. destruct (decide (id = roleID)) as [->|Hne]; [|rewrite lookup_insert_ne by done; eauto].
    rewrite lookup_insert_eq. simplify_eq. eexists. split; [reflexivity|]. split; [done|].
    simpl. unfold or_blank. destruct (decide (name = "")); [done|].
    apply dec_stable. intros Hne. naive_solver.
  - exists x. rewrite lookup_delete_ne; [done|]. intros <-. congruence.
Qed.

End successes.

Section theorems.
Context `{E : Env}.

Lemma serve_system_roles r w :
  integrity (w_db w) → system_roles_kept (w_db w) (w_db (serve r w).2).
Proof.
  intros HI. destruct (match r with ReqUpdateRole _ _ _ _ | ReqDeleteRole _ _ => true | _ => false end) eqn:Hr.
  - destruct (serve r w) as [[[]|e] w'] eqn:H; simpl.
    + eapply role_requests_system_roles; [done| |done]. by destruct r.
    + eapply (serve_err_rel system_roles_kept r); [by destruct r| |exact H].
      intros E' w''. eapply role_requests_system_roles; [done|]. by destruct r.
  - cut (DbRel system_roles_kept (serve r)); [intros HD; apply HD|].
    destruct r; try discriminate Hr; unfold serve; autounfold with ops;
    repeat first [ apply DbRel_cacheGet; apply _ | apply TxRel_lastMetaHolderLoop; apply _
                 | apply TxRel_attachPrivilegesTx; [apply _|] | db_step | tx_step
                 | apply system_roles_Create | apply system_roles_same; stmt_frame ].
Qed.

(** ** The theorems *)

(** C1: the service implements the abstract authorization machine. A request
    that succeeds was admitted (an administrative one comes from an actor who
    holds roles:manage, or privileges:grant for direct grants; the last holder
    of a meta privilege is kept by the requests that may not remove it) and
    takes the grants, role assignments and role contents to exactly what
    [authz_next] says of it. A request that fails, at whatever round trip to the
    database, leaves all three as they were; unless the answer of its COMMIT was
    lost, and then it too was admitted and they are exactly what [authz_next]
    says. The bootstrap, which runs two transactions, is specified on its own. *)
Theorem authz_refines r w res w' :
  integrity (w_db w) → is_bootstrap r = false → serve r w = (res, w') →
  let A := authz_of (w_db w) in let A' := authz_of (w_db w') in
  match res with
  | Ok _ => authz_admits r A ∧ A' ≡ authz_next r A
  | Err _ => A' ≡ A ∨ answer_lost w w' ∧ authz_admits r A ∧ A' ≡ authz_next r A
  end.
Proof.
  intros HI Hb H. destruct res as [[]|e]; [by apply authz_success|].
  destruct (authz_err _ _ _ _ Hb H) as [?|(Hl & w'' & H'' & Hd)]; [by left|right].
  split; [done|]. rewrite Hd. by apply (authz_success (E := fault_free E)).
Qed.

(** [HasPrivilege] decides [holds]. Without infrastructure faults it always
    answers: an invalid-input error when the user is blank or the key is not
    registered, and otherwise true exactly when the user has a direct grant or
    a role that carries the key. It changes nothing. *)
Theorem HasPrivilege_correct `{!NoFaults} w u p :
  integrity (w_db w) →
  (if decide (u ≠ "" ∧ p ∈ w_registry w)
   then ∃ b, (HasPrivilege u p w).1 = Ok b ∧ (b = true ↔ holds (w_db w) u p)
   else fails_with SInvalidInput (HasPrivilege u p w).1) ∧
  obs (HasPrivilege u p w).2 = obs w.
Proof.
  intros HI. split.
  - case_decide as Hc.
    + destruct Hc as [Hu Hp]. destruct (HasPrivilege_run w u p Hu Hp HI) as (b & w' & -> & Hb). eauto.
    + unfold HasPrivilege. destruct (decide (u = "")) as [->|Hu].
      { rewrite (bind_run_Err _ _ _ _ _ (fail_if_fail _ _ _ eq_refl)). by eexists. }
      rewrite (bind_run _ _ _ _ _ (fail_if_run _ _ _ Hu)).
      rewrite (bind_run_Err _ _ w (Errorf "%w: unknown privilege %q" [p] ErrInvalidInput) w).
      { by eexists. }
      unfold require_known, IsKnownPrivilege. erewrite bind_run by reflexivity.
      apply fail_if_fail, bool_decide_eq_false_2. tauto.
  - cut (Quiet (HasPrivilege u p)); [intros HQ; apply HQ|]. unfold HasPrivilege. solve_quiet.
Qed.

(** [EffectivePrivileges] lists every privilege the user holds, directly or
    through a role, each once, and nothing else. *)
Theorem EffectivePrivileges_correct u w ps w' :
  integrity (w_db w) → EffectivePrivileges u w = (Ok ps, w') →
  NoDup ps ∧ ∀ p, p ∈ ps ↔ holds (w_db w) u p.
Proof. intros HI H. by apply EffectivePrivileges_Ok in H as (? & ? & _); [|done]. Qed.

(** C2: administration is refused to whoever does not hold the meta privilege.
    Role operations need roles:manage, direct grants need privileges:grant; an
    actor without it gets an error, and neither the database, the events, the
    cache nor the registry change. *)
Theorem admin_refused r actor p w :
  integrity (w_db w) → admin_actor r = Some (actor, p) → ¬ holds (w_db w) actor p →
  (∃ e, (serve r w).1 = Err e) ∧ obs (serve r w).2 = obs w.
Proof.
  intros HI Ha Hn. assert (multi_tx r = false) as Hm by (by destruct r).
  destruct (serve r w) as [[[]|e] w'] eqn:H.
  - destruct Hn. by eapply admin_requires.
  - split; [eauto|]. apply serve_acid in H as [H|(_ & [] & w'' & H & _)]; [done| |done].
    destruct Hn. by eapply (admin_requires (E := fault_free E)).
Qed.

(** C8: the meta privileges keep a holder. If some user holds privileges:grant
    (or roles:manage), some user still holds it after any request other than
    the deletion of a role or a user, the removal of a key from a role, and (for
    roles:manage) the revocation of a direct grant of it; whether the request
    succeeds or fails. *)
Theorem meta_holder_kept r key w :
  integrity (w_db w) → key ∈ [PrivilegesGrant; RolesManage] → may_orphan r key = false →
  has_holder (w_db w) key → has_holder (w_db (serve r w).2) key.
Proof.
  intros HI Hk Hm Hh. destruct (is_bootstrap r) eqn:Hb.
  { destruct r; try discriminate Hb. destruct Hh as [u Hu]. exists u. by apply bootstrap_holders_kept. }
  destruct (serve r w) as [[[]|e] w'] eqn:H; simpl; [by eapply serve_meta_holder|].
  destruct (authz_err _ _ _ _ Hb H) as [HA|(_ & w'' & H'' & ->)].
  - apply (has_holder_az _ _ _ HA). exact Hh.
  - by eapply (serve_meta_holder (E := fault_free E)).
Qed.

(** System roles cannot be deleted, renamed or made ordinary, by any
    sequence of requests: a system role of the starting state is in every
    reachable state, still a system role, under the same name. *)
Theorem system_roles_protected w0 w :
  integrity (w_db w0) → reachable w0 w → system_roles_kept (w_db w0) (w_db w).
Proof.
  intros HI Hr. cut (integrity (w_db w) ∧ system_roles_kept (w_db w0) (w_db w)); [tauto|].
  induction Hr as [|w r w' Hr [IH1 IH2] Hs]; [done|]. destruct Hs as [r]. split.
  - by apply serve_integrity.
  - etrans; [exact IH2|]. by apply serve_system_roles.
Qed.

(** Every administrative request that succeeds leaves exactly one new audit
    row, in the same transaction: of the entity type, event type and entity the
    operation is about, with the actor among its details. *)
Theorem admin_audited r w w' et ev ent actor p :
  integrity (w_db w) → admin_actor r = Some (actor, p) → audit_of w r = Some (et, ev, ent) →
  serve r w = (Ok tt, w') →
  ∃ id row fields,
    t_audit_events (w_db w) !! id = None ∧
    t_audit_events (w_db w') = <[id := row]> (t_audit_events (w_db w)) ∧
    AuditEvent_EntityType row = et ∧ AuditEvent_EventType row = ev ∧ AuditEvent_EntityID row = ent ∧
    AuditEvent_Details row = json_marshal fields ∧ ("actor_id", actor) ∈ fields.
Proof.
  intros HI Ha Hau H.
  destruct r; simpl in Ha, Hau; try discriminate Ha; injection Ha as -> _; injection Hau as <- <- <-;
    admin_run H; stmts_inv; do 3 eexists.
  all: split; [eassumption|]; split; [reflexivity|]; simpl.
  all: do 2 (split; [reflexivity|]); split; [first [reflexivity|by eapply (pk_roles _ HI)]|].
  all: split; [reflexivity|]; rewrite !elem_of_cons; auto.
Qed.
End theorems.

(** ** Instances on concrete runs *)

(** The administrator grants a privilege to alice. *)
Definition grant_alice : Request := ReqGrantPrivilege "alice" UsersRead root_id "on call".

Lemma authz_refines_witness :
  authz_admits grant_alice (authz_of (w_db w_setup)) ∧
  authz_of (w_db (@serve env0 grant_alice w_setup).2) ≡ authz_next grant_alice (authz_of (w_db w_setup)).
Proof.
  apply (@authz_refines env0 grant_alice w_setup (Ok tt)); [apply w_setup_integrity|done|].
  apply serve_result. vm_compute. reflexivity.
Defined.

Lemma HasPrivilege_correct_witness :
  ∃ b, (@HasPrivilege env0 root_id RolesManage w_setup).1 = Ok b ∧
       (b = true ↔ holds (w_db w_setup) root_id RolesManage).
Proof.
  destruct (@HasPrivilege_correct env0 _ w_setup root_id RolesManage w_setup_integrity) as [H _].
  rewrite decide_True in H; [exact H|]. split; [done|].
  apply (bool_decide_unpack (_ ∈ _)). vm_compute. exact I.
Defined.

Lemma EffectivePrivileges_correct_witness :
  ∃ ps, (@EffectivePrivileges env0 root_id w_setup).1 = Ok ps ∧ NoDup ps ∧
        ∀ p, p ∈ ps ↔ holds (w_db w_setup) root_id p.
Proof.
  eexists. split; [vm_compute; reflexivity|].
  apply (@EffectivePrivileges_correct env0 root_id w_setup _ (@EffectivePrivileges env0 root_id w_setup).2);
    [apply w_setup_integrity|]. apply run_result. vm_compute. reflexivity.
Defined.

(** bob holds nothing: he may not grant himself anything. *)
Lemma admin_refused_witness :
  (∃ e, (@serve env0 (ReqGrantPrivilege "bob" UsersRead "bob" "") w_setup).1 = Err e) ∧
  obs (@serve env0 (ReqGrantPrivilege "bob" UsersRead "bob" "") w_setup).2 = obs w_setup.
Proof.
  apply (@admin_refused env0 _ "bob" PrivilegesGrant w_setup); [apply w_setup_integrity|reflexivity|].
  intros Hb%elem_of_privilege_holders; [|apply w_setup_integrity]. revert Hb.
  apply (bool_decide_unpack (_ ∉ _)). vm_compute. exact I.
Defined.

Lemma meta_holder_kept_witness :
  has_holder (w_db (@serve env0 (ReqRevokeRoleFromUser root_id super_admin_id root_id "") w_setup).2) RolesManage.
Proof.
  apply (@meta_holder_kept env0); [apply w_setup_integrity|by right; left|reflexivity|].
  exists root_id. apply elem_of_privilege_holders; [apply w_setup_integrity|].
  apply (bool_decide_unpack (_ ∈ _)). vm_compute. exact I.
Defined.

Lemma system_roles_protected_witness :
  ∃ r', t_roles (w_db (@serve env0 (ReqDeleteRole super_admin_id root_id) w_setup).2) !! super_admin_id = Some r' ∧
        Role_IsSystem r' = true ∧ Role_Name r' = SystemRoleSuperAdmin.
Proof.
  destruct (t_roles (w_db w_setup) !! super_admin_id) as [r|] eqn:Hr; [|vm_compute in Hr; discriminate Hr].
  assert (Role_IsSystem r = true ∧ Role_Name r = SystemRoleSuperAdmin) as [Hs Hn]
    by (vm_compute in Hr; injection Hr as <-; done).
  rewrite <- Hn.
  apply (@system_roles_protected env0 w_setup
           (@serve env0 (ReqDeleteRole super_admin_id root_id) w_setup).2 w_setup_integrity
           (reachable_step _ _ _ _ (reachable_init _) (step_serve _ _)) _ _ Hr Hs).
Defined.

Lemma admin_audited_witness :
  ∃ id row fields,
    t_audit_events (w_db w_setup) !! id = None ∧
    t_audit_events (w_db (@serve env0 grant_alice w_setup).2) = <[id := row]> (t_audit_events (w_db w_setup)) ∧
    AuditEvent_EntityType row = "user" ∧ AuditEvent_EventType row = privilegeAuditGrant ∧
    AuditEvent_EntityID row = "alice" ∧
    AuditEvent_Details row = json_marshal fields ∧ ("actor_id", root_id) ∈ fields.
Proof.
  apply (@admin_audited env0 grant_alice w_setup _ _ _ _ root_id PrivilegesGrant);
    [apply w_setup_integrity|reflexivity|reflexivity|].
  apply serve_result. vm_compute. reflexivity.
Defined.

(** ** The guards do not cover every way to lose the last holder *)

(** The administrator hands both meta privileges to alice through an ordinary
    role; alice takes the super_admin role from the administrator and then
    deletes her own role. *)
Definition lockout_run : list Request :=
  [ReqCreateRole "ops" "" root_id;
   ReqAddPrivilegeToRole "id4" RolesManage root_id;
   ReqAddPrivilegeToRole "id4" PrivilegesGrant root_id;
   ReqGrantRoleToUser "alice" "id4" root_id "";
   ReqRevokeRoleFromUser root_id super_admin_id "alice" "";
   ReqDeleteRole "id4" "alice"].

(** Who holds a meta privilege after each run: deleting an ordinary role, or
    the only administrator, leaves nobody. *)
Example lockout_by_delete :
  let holders w := (privilege_holders RolesManage (w_db w), privilege_holders PrivilegesGrant (w_db w)) in
  holders w_setup = ({[root_id]}, {[root_id]}) ∧
  holders (run_requests env0 lockout_run w_setup) = (∅, ∅) ∧
  holders (run_requests env0 [ReqDeleteUser root_id] w_setup) = (∅, ∅).
Proof. repeat split; vm_compute; reflexivity. Qed.
