(* ===== verification/Resolver.v ===== *)
(** * Resolving the caller of a request

    [ResolveCaller] (pkg/service/identity_resolver.go): what a resolution that
    succeeds returns, when it links an unknown subject to a user, and what it
    writes then. *)

From stdpp Require Import base gmap sets list strings.
From Stdlib Require Import ZArith.
From S2P Require Import Prelude GoError Models Schema Events IdentityCache Effects EffectsLogic StoreIdentity.
From S2P Require Import StoreAuth Wire UserService AuthService ServiceApi AuthFacts Scenario AuthTheorems.

(** * The bootstrap of an installation

    [BootstrapSuperAdmin] (pkg/service/user_role.go) creates the first user and
    the super_admin role, and assigns one to the other unless somebody holds
    the role already. What it establishes, and that running it again at every
    start changes nothing. *)

(** The super_admin role exists, carries every key of [reg], and has a holder. *)
Definition bootstrapped (reg : gset PrivilegeKey) (d : DB) : Prop :=
  ∃ id role u,
    t_roles d !! id = Some role ∧ Role_Name role = SystemRoleSuperAdmin ∧
    (∀ k, k ∈ reg → is_Some (t_role_privileges d !! (id, k))) ∧
    is_Some (t_user_roles d !! (u, id)).

(** Somebody held super_admin before. *)
Definition has_super_admin (d : DB) : Prop :=
  ∃ id role u, t_roles d !! id = Some role ∧ Role_Name role = SystemRoleSuperAdmin ∧
    is_Some (t_user_roles d !! (u, id)).

Section bootstrap.
Context `{E : Env}.

Lemma FindByName_unique d id r :
  integrity d → t_roles d !! id = Some r → pgRoleStore_FindByName (Role_Name r) d = Some r.
Proof.
  intros HI Hr. eapply select_one_unique; [exact Hr|done|]. intros k' r' Hr' Hn.
  eapply (uniq_eq uq_roles_name); [by destruct HI|exact Hr'|exact Hr| |reflexivity].
  unfold uq_roles_name. by rewrite Hn.
Qed.

Lemma FindByEmail_unique d id u email :
  integrity d → t_users d !! id = Some u → lower (User_Email u) = lower email →
  pgUserStore_FindByEmail email d = Some u.
Proof.
  intros HI Hu He. eapply select_one_unique; [exact Hu|done|]. intros k' u' Hu' He'.
  eapply (uniq_eq uq_users_email); [by destruct HI|exact Hu'|exact Hu| |reflexivity].
  unfold uq_users_email. by rewrite He, He'.
Qed.

Lemma elem_of_ListByRole d id ur :
  integrity d → ur ∈ pgUserRoleStore_ListByRole id d →
  is_Some (t_user_roles d !! (UserRole_UserID ur, id)).
Proof.
  intros HI [Hr [k Hk]]%elem_of_order_by%elem_of_select_rows.
  pose proof (pk_user_roles _ HI _ _ Hk) as <-. unfold UserRole_pk in Hk. rewrite Hr in Hk. eauto.
Qed.

Lemma ListByRole_nil d id u :
  integrity d → is_Some (t_user_roles d !! (u, id)) → 0 < length (pgUserRoleStore_ListByRole id d).
Proof.
  intros HI [ur Hur]. pose proof (pk_user_roles _ HI _ _ Hur) as [= _ Hr].
  destruct (pgUserRoleStore_ListByRole id d) as [|x l] eqn:Hl; [|simpl; lia].
  assert (ur ∈ pgUserRoleStore_ListByRole id d) as Hin.
  { apply elem_of_order_by, elem_of_select_rows. eauto. }
  rewrite Hl in Hin. by apply not_elem_of_nil in Hin.
Qed.

(** ** The parts *)

(** Attaching keys only adds to role_privileges, and does nothing when the role
    carries them all. *)
Lemma attachPrivilegesTx_Ok r ks w x w' :
  attachPrivilegesTx r ks w = (Ok x, w') →
  w_db w' = w_db w ∧ w_registry w' = w_registry w ∧
  ∃ t, w_tx w' = set_role_privileges t (w_tx w) ∧ t_role_privileges (w_tx w) ⊆ t ∧
    (∀ k, k ∈ ks → is_Some (t !! (r, k))) ∧
    ((∀ k, k ∈ ks → is_Some (t_role_privileges (w_tx w) !! (r, k))) → t = t_role_privileges (w_tx w)).
Proof.
  revert w. induction ks as [|k ks IH]; simpl; intros w H.
  { run. do 2 (split; [done|]). exists (t_role_privileges (w_tx w)). split; [by destruct (w_tx w)|].
    split; [done|]. split; [|done]. intros k Hk. by apply not_elem_of_nil in Hk. }
  run.
  all: match goal with H : attachPrivilegesTx _ _ _ = _ |- _ =>
         apply IH in H as (Hdb & Hreg & t & Ht & Hsub & Hks & Hid) end; simpl in *.
  all: do 2 (split; [done|]); exists t.
  - match goal with H : _ = inr _ |- _ => stmt_inv H end; simpl in *.
    split; [exact Ht|]. split; [|split].
    + etrans; [|exact Hsub]. by apply insert_subseteq.
    + intros k0 [->|?]%elem_of_cons; [|by apply Hks].
      eexists. eapply lookup_weaken; [apply lookup_insert_eq|exact Hsub].
    + intros Hall. destruct (Hall k) as [? ?]; [by left|congruence].
  - split; [exact Ht|]. split; [exact Hsub|]. split.
    + intros k0 [->|?]%elem_of_cons; [|by apply Hks].
      match goal with HN : _ ≠ false |- _ => apply not_false_is_true, bool_decide_eq_true in HN as [v Hv] end.
      exists v. by eapply lookup_weaken.
    + intros Hall. apply Hid. intros k0 Hk0. apply Hall. by right.
Qed.

(** In the transaction the role exists, under the id returned, with every
    registered key; assignments and users are as before. If all of that was so
    before, nothing is written. *)
Lemma ensureSuperAdminRoleTx_Ok w role w' :
  integrity (w_db w) → w_tx w = w_db w → ensureSuperAdminRoleTx w = (Ok role, w') →
  w_db w' = w_db w ∧ w_registry w' = w_registry w ∧
  t_user_roles (w_tx w') = t_user_roles (w_db w) ∧ t_users (w_tx w') = t_users (w_db w) ∧
  (∃ r, t_roles (w_tx w') !! Role_ID role = Some r ∧ Role_Name r = SystemRoleSuperAdmin) ∧
  (∀ k, k ∈ w_registry w → is_Some (t_role_privileges (w_tx w') !! (Role_ID role, k))) ∧
  (∀ r, t_roles (w_db w) !! Role_ID role = Some r → Role_Name r = SystemRoleSuperAdmin) ∧
  (∀ id r, t_roles (w_db w) !! id = Some r → Role_Name r = SystemRoleSuperAdmin → Role_ID role = id ∧
     ((∀ k, k ∈ w_registry w → is_Some (t_role_privileges (w_db w) !! (id, k))) → w_tx w' = w_db w)).
Proof.
  intros HI Htx H. unfold ensureSuperAdminRoleTx, KnownPrivileges in H. run.
  all: match goal with H : attachPrivilegesTx _ _ _ = _ |- _ =>
         apply attachPrivilegesTx_Ok in H as (Hdb & Hreg & t & Ht & Hsub & Hks & Hid) end; simpl in *.
  all: eassert (∀ k, k ∈ w_registry w → is_Some (t !! (_, k))) as Hall
         by (intros k Hk; apply Hks, elem_of_order_by; by apply elem_of_elements).
  all: do 2 (split; [done|]); rewrite Ht.
  - match goal with HF : pgRoleStore_FindByName _ _ = Some _ |- _ =>
      pose proof HF as HF'; apply select_one_Some in HF as [Hn [k Hk]] end.
    pose proof (pk_roles _ HI _ _ Hk) as Hpk. rewrite Hpk, Htx in *. simpl.
    do 2 (split; [done|]). split; [by exists role|]. split; [done|]. split; [by intros r ?; simplify_eq|].
    intros id r Hr Hrn.
    pose proof (FindByName_unique _ _ _ HI Hr) as Hu. rewrite Hrn in Hu. simplify_eq.
    assert (k = id) as <- by (pose proof (pk_roles _ HI _ _ Hr); congruence). split; [done|]. intros Hc.
    rewrite Hid; [by destruct (w_db w)|]. intros k0 Hk0.
    by apply Hc, elem_of_elements, (elem_of_order_by Datatypes.id String.le).
  - match goal with H : _ = inr _ |- _ => stmt_inv H end; simpl in *. rewrite Htx in *. simpl.
    do 2 (split; [done|]). split; [eexists; split; [apply lookup_insert_eq|done]|]. split; [done|].
    split; [intros r Hr; congruence|]. intros id r Hr Hn. exfalso.
    match goal with HF : pgRoleStore_FindByName _ _ = None |- _ =>
      unfold pgRoleStore_FindByName in HF; rewrite select_one_None in HF; by eapply HF end.
Qed.

(** The second transaction: it ends bootstrapped; the assignment goes to the
    given user when nobody held the role, and when the state was bootstrapped
    already nothing is written. *)
Lemma bootstrapTx_Ok u source w x w' :
  integrity (w_db w) → w_tx w = w_db w → bootstrapTx u source w = (Ok x, w') →
  w_registry w' = w_registry w ∧ t_users (w_tx w') = t_users (w_db w) ∧
  bootstrapped (w_registry w) (w_tx w') ∧
  (¬ has_super_admin (w_db w) → ∀ k, k ∈ w_registry w →
     ∃ r, is_Some (t_user_roles (w_tx w') !! (u, r)) ∧ is_Some (t_role_privileges (w_tx w') !! (r, k))) ∧
  (has_super_admin (w_db w) → t_user_roles (w_tx w') = t_user_roles (w_db w)) ∧
  (bootstrapped (w_registry w) (w_db w) → w_tx w' = w_db w).
Proof.
  intros HI Htx H. unfold bootstrapTx, writeRoleAuditTx, writeAuditTx in H.
  apply bind_Ok in H as (role & w1 & H1%wrap_Ok & H).
  apply ensureSuperAdminRoleTx_Ok in H1
    as (Hdb & Hreg & Hur & Hus & (r & Hr & Hn) & Hall & Hname & Hold); [|done..].
  assert (∀ x, is_Some (t_user_roles (w_db w) !! (x, Role_ID role)) → has_super_admin (w_db w)) as Hsome.
  { intros v [ur Hv]. pose proof (pk_user_roles _ HI _ _ Hv) as [= _ Hk].
    destruct (f_user_roles_role _ HI _ _ Hv (Role_ID role)) as [r0 Hr0]; [by rewrite <- Hk|].
    exists (Role_ID role), r0, v. split; [done|]. split; [by apply Hname|by exists ur]. }
  assert (bootstrapped (w_registry w) (w_db w) → w_tx w1 = w_db w) as Hsame.
  { intros (id & r0 & v & Hr0 & Hn0 & Hk0 & _). by apply (Hold _ _ Hr0 Hn0). }
  run; unfold pgUserRoleStore_FindForUpdate in *; rewrite ?Hur in *; rewrite ?Hdb in *.
  - apply is_Some_not_None in n. do 2 (split; [done|]). split.
    { exists (Role_ID role), r, u. by rewrite Hur. }
    split; [|done]. intros Hno. destruct Hno. by apply (Hsome u).
  - destruct (pgUserRoleStore_ListByRole _ _) as [|ur l'] eqn:Hl; [simpl in *; lia|].
    assert (is_Some (t_user_roles (w_db w) !! (UserRole_UserID ur, Role_ID role))) as Hs.
    { apply elem_of_ListByRole; [done|]. rewrite Hl. by left. }
    do 2 (split; [done|]). split.
    { exists (Role_ID role), r, (UserRole_UserID ur). by rewrite Hur. }
    split; [|done]. intros Hno. destruct Hno. by apply (Hsome _ Hs).
  - assert (¬ has_super_admin (w_db w)) as Hno.
    { intros (id & r0 & v & Hr0 & Hn0 & Hv). destruct (Hold _ _ Hr0 Hn0) as [<- _].
      apply ListByRole_nil in Hv; [done..]. }
    repeat match goal with H : _ = inr _ |- _ => stmt_inv H end; simpl in *.
    do 2 (split; [done|]). split; [|split].
    + exists (Role_ID role), r, u. do 3 (split; [done|]). simpl. rewrite lookup_insert_eq. by eexists.
    + intros _ k Hk. exists (Role_ID role). rewrite lookup_insert_eq. split; [by eexists|by apply Hall].
    + split; [done|]. intros (id & r0 & v & ? & ? & _ & ?). destruct Hno. by exists id, r0, v.
Qed.

(** The first transaction adds a user with the email and touches no grant. *)
Lemma createBootstrapUser_Ok email source w u w' :
  createBootstrapUser email source w = (Ok u, w') →
  w_registry w' = w_registry w ∧ t_users (w_db w') !! User_ID u = Some u ∧ User_Email u = email ∧
  t_roles (w_db w') = t_roles (w_db w) ∧ authz_tables (w_db w') = authz_tables (w_db w).
Proof.
  intros H. unfold createBootstrapUser, writeUserBootstrappedAuditTx, writeAuditTx in H. run;
    repeat match goal with H : _ = inr _ |- _ => stmt_inv H end; simpl; by rewrite lookup_insert_eq.
Qed.

Lemma createBootstrapUser_integrity email source :
  DbRel (pres integrity) (createBootstrapUser email source).
Proof. autounfold with ops. solve_db. Qed.

Lemma has_super_admin_tables d d' :
  t_roles d' = t_roles d → authz_tables d' = authz_tables d → has_super_admin d' ↔ has_super_admin d.
Proof. unfold has_super_admin, authz_tables. by intros -> [= _ -> _]. Qed.

Lemma bootstrapped_tables reg d d' :
  t_roles d' = t_roles d → authz_tables d' = authz_tables d → bootstrapped reg d' ↔ bootstrapped reg d.
Proof. unfold bootstrapped, authz_tables. by intros -> [= _ -> ->]. Qed.

(** The run of [BootstrapSuperAdmin]: the first transaction when the email is
    unknown, then the second. *)
Lemma BootstrapSuperAdmin_Ok email source w w' :
  integrity (w_db w) → email ≠ "" → BootstrapSuperAdmin email source w = (Ok tt, w') →
  ∃ w1 u,
    integrity (w_db w1) ∧ w_registry w1 = w_registry w ∧
    t_roles (w_db w1) = t_roles (w_db w) ∧ authz_tables (w_db w1) = authz_tables (w_db w) ∧
    t_users (w_db w1) !! User_ID u = Some u ∧ lower (User_Email u) = lower email ∧
    inTx (bootstrapTx (User_ID u) source) w1 = (Ok tt, w') ∧
    (pgUserStore_FindByEmail email (w_db w) ≠ None → w_db w1 = w_db w).
Proof.
  intros HI He H. unfold BootstrapSuperAdmin in H. rewrite decide_False in H by done.
  apply bind_Ok in H as (found & w0 & H0 & H). apply wrap_Ok, query_Ok in H0 as [-> ->].
  apply bind_Ok in H as (u & w1 & H1 & H). exists w1, u.
  destruct (pgUserStore_FindByEmail email (w_db w)) as [u'|] eqn:Hf.
  - apply ret_Ok in H1 as [-> ->]. apply select_one_Some in Hf as [Hm [k Hk]].
    pose proof (pk_users _ HI _ _ Hk) as <-. done.
  - apply wrap_Ok in H1. pose proof (createBootstrapUser_integrity email source (bump_stmt w)) as HI1.
    rewrite H1 in HI1. apply createBootstrapUser_Ok in H1 as (? & ? & Hem & ? & ?).
    split; [by apply HI1|]. rewrite Hem. repeat (split; [done|]). done.
Qed.


(** The bootstrap never takes over an installation: when somebody holds
    super_admin already, it assigns no role to anyone. *)
Theorem bootstrap_no_takeover email source w w' :
  integrity (w_db w) → has_super_admin (w_db w) → BootstrapSuperAdmin email source w = (Ok tt, w') →
  t_user_roles (w_db w') = t_user_roles (w_db w).
Proof.
  intros HI Hs H. destruct (decide (email = "")) as [->|He].
  { unfold BootstrapSuperAdmin in H. run; done. }
  apply BootstrapSuperAdmin_Ok in H as (w1 & u & HI1 & Hreg & Hr & Ha & Hu & Hm & Ht & _); [|done..].
  apply inTx_Ok in Ht as (w2 & Ht & ->). apply bootstrapTx_Ok in Ht as (_ & _ & _ & _ & Hkeep & _); [|done..].
  simpl in *. rewrite Hkeep.
  - by injection Ha.
  - by rewrite (has_super_admin_tables _ _ Hr Ha).
Qed.

(** Running the bootstrap again, as every start of the server does, writes
    nothing: the second run leaves the database as the first one left it. *)
Theorem bootstrap_idempotent email source source' w w1 w2 :
  integrity (w_db w) → BootstrapSuperAdmin email source w = (Ok tt, w1) →
  BootstrapSuperAdmin email source' w1 = (Ok tt, w2) → w_db w2 = w_db w1.
Proof.
  intros HI H1 H2. destruct (decide (email = "")) as [->|He].
  { unfold BootstrapSuperAdmin in H2. clear H1. run; done. }
  assert (integrity (w_db w1)) as HI1.
  { pose proof (serve_integrity (ReqBootstrapSuperAdmin email source) w) as Hp.
    simpl in Hp. rewrite H1 in Hp. by apply Hp. }
  apply BootstrapSuperAdmin_Ok in H1 as (v & u & HIv & Hreg & Hr & Ha & Hu & Hm & Ht & _); [|done..].
  apply inTx_Ok in Ht as (w1' & Ht & ->). apply bootstrapTx_Ok in Ht as (Hreg' & Hus & Hb & _); [|done..].
  simpl in *.
  apply BootstrapSuperAdmin_Ok in H2 as (v2 & u2 & HIv2 & Hreg2 & Hr2 & Ha2 & _ & _ & Ht & Hsame); [|done..].
  simpl in *. rewrite <- Hus in Hu. rewrite (FindByEmail_unique _ _ _ _ HI1 Hu Hm) in Hsame.
  rewrite <- Hsame by done.
  apply inTx_Ok in Ht as (w2' & Ht & ->). apply bootstrapTx_Ok in Ht as (_ & _ & _ & _ & _ & Hno); [|done..].
  simpl in *. apply Hno. rewrite Hreg2, Hreg'. simpl. by rewrite (bootstrapped_tables _ _ _ Hr2 Ha2).
Qed.
End bootstrap.

(** ** Instances on concrete runs *)

Definition w_first : World := (@serve env0 (ReqBootstrapSuperAdmin "root@example.org" "env") (init_world empty_db)).2.

Lemma first_bootstrap :
  @BootstrapSuperAdmin env0 "root@example.org" "env" (init_world empty_db) = (Ok tt, w_first).
Proof. apply (serve_result (ReqBootstrapSuperAdmin "root@example.org" "env")). vm_compute. reflexivity. Qed.

Lemma second_bootstrap :
  @BootstrapSuperAdmin env0 "root@example.org" "env" w_first =
  (Ok tt, (@serve env0 (ReqBootstrapSuperAdmin "root@example.org" "env") w_first).2).
Proof. apply (serve_result (ReqBootstrapSuperAdmin "root@example.org" "env")). vm_compute. reflexivity. Qed.

Lemma w_first_integrity : integrity (w_db w_first).
Proof. apply (@serve_integrity env0 (ReqBootstrapSuperAdmin "root@example.org" "env")), empty_integrity. Qed.


Lemma bootstrap_no_takeover_witness :
  t_user_roles (w_db (@serve env0 (ReqBootstrapSuperAdmin "mallory@example.org" "env") w_first).2)
  = t_user_roles (w_db w_first).
Proof.
  apply (@bootstrap_no_takeover env0 "mallory@example.org" "env" w_first).
  - apply w_first_integrity.
  - exists "id2". eexists. exists "id0". split; [vm_compute; reflexivity|]. split; [reflexivity|].
    vm_compute. by eexists.
  - apply (serve_result (ReqBootstrapSuperAdmin "mallory@example.org" "env")). vm_compute. reflexivity.
Defined.

Lemma bootstrap_idempotent_witness :
  w_db (@serve env0 (ReqBootstrapSuperAdmin "root@example.org" "env") w_first).2 = w_db w_first.
Proof.
  apply (@bootstrap_idempotent env0 "root@example.org" "env" "env" (init_world empty_db) w_first);
    [apply empty_integrity|apply first_bootstrap|apply second_bootstrap].
Defined.

(** The subject is bound to the user. *)
Definition bound (d : DB) (sub userID : string) : Prop :=
  ∃ k e, t_user_identities d !! k = Some e ∧ UserIdentity_OIDCSub e = sub ∧ UserIdentity_UserID e = userID.

(** What linking the claims to a user needs: a PENDING user with that email and
    no identity from the OIDC provider. *)
Definition linkable (d : DB) (c : Claims) (u : User) : Prop :=
  Claims_Email c ≠ "" ∧ t_users d !! User_ID u = Some u ∧
  lower (User_Email u) = lower (Claims_Email c) ∧ User_Status u = UserPending ∧
  ∀ k e, t_user_identities d !! k = Some e →
    ¬ (UserIdentity_UserID e = User_ID u ∧ UserIdentity_Source e = identitySourceOIDC).

(** What it changes: one identity and one audit row are added, the user becomes
    ACTIVE, nothing else. *)
Definition linked (d : DB) (c : Claims) (u : User) (d' : DB) : Prop :=
  ∃ k e ka a,
    t_user_identities d !! k = None ∧
    UserIdentity_UserID e = User_ID u ∧ UserIdentity_OIDCSub e = Claims_Sub c ∧
    UserIdentity_Source e = identitySourceOIDC ∧
    t_audit_events d !! ka = None ∧ AuditEvent_EventType a = identityAuditLinked ∧
    AuditEvent_EntityID a = User_ID u ∧
    d' = set_audit_events (<[ka := a]> (t_audit_events d))
        (set_users (<[User_ID u := with_user_status UserActive u]> (t_users d))
        (set_user_identities (<[k := e]> (t_user_identities d)) d)).

(** The cache has no entry for the subject that is still valid. *)
Definition cache_miss (sub : string) (now : Time) (c : identityCache) : Prop :=
  (cache_get sub now c).1 = None.

Section resolver.
Context `{E : Env}.

Lemma GetUserByOIDCSub_Some sub u d :
  integrity d → pgUserStore_GetUserByOIDCSub sub d = Some u → sub ≠ "" ∧ bound d sub (User_ID u).
Proof.
  intros HI H. unfold pgUserStore_GetUserByOIDCSub in H. case_decide as Hs; [done|]. split; [done|].
  apply head_Some_elem, list_elem_of_omap in H as (e & He & Hu).
  apply elem_of_select_rows in He as [Hsub [k Hk]]. exists k, e. split; [done|]. split; [done|].
  symmetry. by apply (pk_users _ HI _ _ Hu).
Qed.

Lemma GetUserByOIDCSub_None sub d u :
  integrity d → sub ≠ "" → bound d sub u → pgUserStore_GetUserByOIDCSub sub d ≠ None.
Proof.
  intros HI Hs (k & e & Hk & Hsub & Hu) Hn. unfold pgUserStore_GetUserByOIDCSub in Hn.
  rewrite decide_False in Hn by done. apply head_None_nil in Hn.
  destruct (f_identities_user _ HI _ _ Hk (UserIdentity_UserID e) eq_refl) as [v Hv].
  assert (v ∈ omap (λ ui, t_users d !! UserIdentity_UserID ui)
            (select_rows (λ ui, UserIdentity_OIDCSub ui = sub) (t_user_identities d))) as Hin.
  { apply list_elem_of_omap. exists e. split; [|done]. apply elem_of_select_rows. eauto. }
  rewrite Hn in Hin. by apply not_elem_of_nil in Hin.
Qed.

(** A link that succeeds. *)
Lemma linkBySub_Ok c w u w' :
  integrity (w_db w) → linkBySub c w = (Ok u, w') →
  ∃ u0, linkable (w_db w) c u0 ∧ linked (w_db w) c u0 (w_db w') ∧ User_ID u = User_ID u0 ∧
    w_cache w' = w_cache w ∧ w_clock w ≤ w_clock w'.
Proof.
  intros HI H. unfold linkBySub, linkTx, writeIdentityAuditTx, writeAuditTx in H. run.
  match goal with HF : pgUserStore_FindByEmail _ _ = Some ?x |- _ =>
    apply select_one_Some in HF as [He [k Hk]]; rename x into u0 end.
  pose proof (pk_users _ HI _ _ Hk) as Hpk. cbv beta in Hpk. subst k.
  repeat match goal with H : _ = inr _ |- _ => stmt_inv H end; simpl in *; try congruence.
  exists u0. split; [|split; [|split; [done|split; [done|lia]]]].
  - split; [done|]. split; [done|]. split; [done|]. split; [by apply dec_stable|].
    intros k' e' Hk' [? ?].
    match goal with HN : ¬ (pgUserIdentityStore_FindByUserAndSource _ _ _ ≠ None) |- _ =>
      apply dec_stable in HN; unfold pgUserIdentityStore_FindByUserAndSource in HN;
      rewrite select_one_None in HN; by eapply HN end.
  - simplify_eq. do 4 eexists. split_and!.
    8: reflexivity.
    all: done.
Qed.

Lemma linkBySub_integrity c : DbRel (pres integrity) (linkBySub c).
Proof. autounfold with ops. solve_db. Qed.

(** The user is found by its subject, or linked. *)
Lemma find_or_link_Ok c w user w' :
  integrity (w_db w) → Claims_Sub c ≠ "" →
  match pgUserStore_GetUserByOIDCSub (Claims_Sub c) (w_db w) with
  | Some user => mret user
  | None => linkBySub c
  end w = (Ok user, w') →
  integrity (w_db w') ∧ w_cache w' = w_cache w ∧
  ∃ u, User_ID user = User_ID u ∧
    ((w_db w' = w_db w ∧ bound (w_db w) (Claims_Sub c) (User_ID u)) ∨
     (linkable (w_db w) c u ∧ linked (w_db w) c u (w_db w') ∧ ∀ x, ¬ bound (w_db w) (Claims_Sub c) x)).
Proof.
  intros HI Hs H. destruct (pgUserStore_GetUserByOIDCSub _ _) as [u|] eqn:Hf.
  - apply ret_Ok in H as [-> ->]. apply GetUserByOIDCSub_Some in Hf as [_ Hb]; [|done].
    split; [done|]. split; [done|]. exists user. auto.
  - pose proof (linkBySub_integrity c w) as HI'. rewrite H in HI'.
    apply linkBySub_Ok in H as (u0 & Hl & Hd & Hid & Hc & _); [|done].
    split; [by apply HI'|]. split; [done|]. exists u0. split; [done|]. right. do 2 (split; [done|]).
    intros x Hb. by apply GetUserByOIDCSub_None in Hb.
Qed.

(** The state after a resolution that missed the cache: the user is bound to
    the subject, the privileges are those the user holds, the cache has the
    answer, and the database changed only if the subject was linked. *)
Lemma ResolveCaller_miss_Ok c w caller privs w' :
  integrity (w_db w) → cache_miss (Claims_Sub c) (clock (w_clock w)) (w_cache w) →
  ResolveCaller (Some c) w = (Ok (caller, privs), w') →
  (∃ u, Caller_UserID caller = User_ID u ∧
     ((w_db w' = w_db w ∧ bound (w_db w) (Claims_Sub c) (User_ID u)) ∨
      (linkable (w_db w) c u ∧ linked (w_db w) c u (w_db w') ∧ ∀ x, ¬ bound (w_db w) (Claims_Sub c) x))) ∧
  NoDup privs ∧ (∀ p, p ∈ privs ↔ holds (w_db w') (Caller_UserID caller) p) ∧
  cache_entries (w_cache w') !! Claims_Sub c =
    Some (mkEntry caller privs (clock (w_clock w) + cache_ttl (w_cache w))%Z).
Proof.
  intros HI Hmiss H. unfold ResolveCaller, cacheSet in H.
  apply bind_Ok in H as (c0 & w0 & [[= <-] ->]%deref_Ok & H).
  apply bind_Ok in H as ([] & w1 & [Hsub ->]%fail_if_Ok & H).
  apply bind_Ok in H as (now & w2 & [-> ->]%nowUTC_Ok & H).
  apply bind_Ok in H as (hit & w3 & Hc & H).
  unfold cacheGet in Hc. unfold cache_miss in Hmiss. simpl in Hc.
  destruct (cache_get _ _ _) as [o cc] eqn:Hg. simpl in Hmiss. subst o. injection Hc as <- <-.
  assert (cache_ttl cc = cache_ttl (w_cache w)) as <-.
  { unfold cache_get in Hg. repeat case_match; by simplify_eq. }
  apply bind_Ok in H as (found & w4 & [-> ->]%query_Ok & H).
  apply bind_Ok in H as (user & w5 & Hu & H).
  apply bind_Ok in H as (ps & w6 & Hp & H).
  apply (find_or_link_Ok c (bump_stmt (set_cache cc (bump_clock w)))) in Hu as (HI5 & Hc5 & Hu); [|done..].
  apply EffectivePrivileges_Ok in Hp as (Hnd & Hps & -> & _); [|done]. run. simplify_eq.
  split; [done|]. split; [done|]. split; [done|]. apply lookup_insert_eq.
Qed.

(** A resolution from the cache. *)
Lemma ResolveCaller_hit_Ok c w caller privs w' :
  ¬ cache_miss (Claims_Sub c) (clock (w_clock w)) (w_cache w) →
  ResolveCaller (Some c) w = (Ok (caller, privs), w') →
  (∃ t, cache_entries (w_cache w) !! Claims_Sub c = Some (mkEntry caller privs t) ∧ (clock (w_clock w) < t)%Z) ∧
  obs w' = obs w.
Proof.
  unfold cache_miss. intros Hhit H. unfold ResolveCaller in H.
  apply bind_Ok in H as (c0 & w0 & [[= <-] ->]%deref_Ok & H).
  apply bind_Ok in H as ([] & w1 & [Hsub ->]%fail_if_Ok & H).
  apply bind_Ok in H as (now & w2 & [-> ->]%nowUTC_Ok & H).
  apply bind_Ok in H as (hit & w3 & Hc & H). unfold cacheGet in Hc. simpl in Hc.
  destruct (cache_get _ _ _) as [[e|] cc] eqn:Hg; [|done]. injection Hc as <- <-.
  apply cache_get_Some in Hg as (He & Hnow & ->). apply ret_Ok in H as [[= <- <-] ->].
  split; [|done]. exists (entry_expires e). rewrite He. by destruct e.
Qed.

(** Without faults a link that is not allowed is refused, and writes nothing. *)
Lemma linkBySub_refused `{!NoFaults} c w :
  integrity (w_db w) → (∀ u, ¬ linkable (w_db w) c u) →
  fails_with SNotLinked (linkBySub c w).1 ∧ w_db (linkBySub c w).2 = w_db w.
Proof.
  intros HI Hnl. unfold linkBySub. destruct (decide (Claims_Email c = "")) as [He|He].
  { rewrite (bind_run_Err _ _ _ _ _ (fail_if_fail _ _ _ He)). split; [by eexists|done]. }
  rewrite (bind_run _ _ _ _ _ (fail_if_run _ _ _ He)).
  rewrite (bind_run _ _ _ _ _ (wrap_run _ _ _ _ _ _ (query_run _ _))).
  destruct (pgUserStore_FindByEmail _ _) as [u|] eqn:Hu; [|split; [by eexists|done]].
  erewrite bind_run by reflexivity.
  rewrite (bind_run _ _ _ _ _ (wrap_run _ _ _ _ _ _ (query_run _ _))). simpl.
  destruct (decide (pgUserIdentityStore_FindByUserAndSource (User_ID u) identitySourceOIDC (w_db w) ≠ None)) as [Ho|Ho].
  { rewrite (bind_run_Err _ _ _ _ _ (fail_if_fail _ _ _ Ho)). split; [by eexists|done]. }
  rewrite (bind_run _ _ _ _ _ (fail_if_run _ _ _ Ho)).
  destruct (decide (User_Status u ≠ UserPending)) as [Hs|Hs].
  { rewrite (bind_run_Err _ _ _ _ _ (fail_if_fail _ _ _ Hs)). split; [by eexists|done]. }
  destruct (Hnl u). apply select_one_Some in Hu as [Hem [k Hk]].
  pose proof (pk_users _ HI _ _ Hk) as <-. split_and!; [done..|by apply dec_stable|].
  apply dec_stable in Ho. unfold pgUserIdentityStore_FindByUserAndSource in Ho.
  by rewrite select_one_None in Ho.
Qed.

(** ** The theorems *)

(** A resolution from the cache returns the stored answer, which has not
    expired, and touches neither the database nor the cache. *)
Theorem resolve_from_cache c w caller privs w' :
  ¬ cache_miss (Claims_Sub c) (clock (w_clock w)) (w_cache w) →
  ResolveCaller (Some c) w = (Ok (caller, privs), w') →
  (∃ t, cache_entries (w_cache w) !! Claims_Sub c = Some (mkEntry caller privs t) ∧ (clock (w_clock w) < t)%Z) ∧
  obs w' = obs w.
Proof. apply ResolveCaller_hit_Ok. Qed.

(** C5: a resolution that goes to the database returns a user bound to the
    subject of the token, with exactly the privileges that user holds, each
    once, and stores that answer for the TTL. If the subject was bound before
    nothing is written. *)
Theorem resolve_from_database c w caller privs w' :
  integrity (w_db w) → cache_miss (Claims_Sub c) (clock (w_clock w)) (w_cache w) →
  ResolveCaller (Some c) w = (Ok (caller, privs), w') →
  bound (w_db w') (Claims_Sub c) (Caller_UserID caller) ∧
  NoDup privs ∧ (∀ p, p ∈ privs ↔ holds (w_db w') (Caller_UserID caller) p) ∧
  cache_entries (w_cache w') !! Claims_Sub c =
    Some (mkEntry caller privs (clock (w_clock w) + cache_ttl (w_cache w))%Z) ∧
  ((∃ u, bound (w_db w) (Claims_Sub c) u) → w_db w' = w_db w).
Proof.
  intros HI Hm H. apply ResolveCaller_miss_Ok in H as ((u & -> & Hu) & Hnd & Hps & Hc); [|done..].
  split.
  - destruct Hu as [[-> ?]|(_ & (k & e & ka & a & _ & ? & ? & _ & _ & _ & _ & ->) & _)]; [done|].
    exists k, e. simpl. by rewrite lookup_insert_eq.
  - do 3 (split; [done|]). intros [x Hx]. destruct Hu as [[? _]|(_ & _ & Hno)]; [done|]. by destruct (Hno x).
Qed.

(** An unknown subject is linked only to a PENDING user with the email of
    the token and no OIDC identity; the link adds one identity row and one
    IDENTITY_LINKED audit row, makes the user ACTIVE, and changes nothing else. *)
Theorem resolve_links_pending_only c w caller privs w' :
  integrity (w_db w) → cache_miss (Claims_Sub c) (clock (w_clock w)) (w_cache w) →
  (∀ x, ¬ bound (w_db w) (Claims_Sub c) x) →
  ResolveCaller (Some c) w = (Ok (caller, privs), w') →
  ∃ u, Caller_UserID caller = User_ID u ∧ linkable (w_db w) c u ∧ linked (w_db w) c u (w_db w').
Proof.
  intros HI Hm Hno H. apply ResolveCaller_miss_Ok in H as ((u & Hu & [[_ Hb]|(? & ? & _)]) & _); [..|done|done].
  - by destruct (Hno (User_ID u)).
  - by exists u.
Qed.

(** A subject that stays unlinked is refused with an error that
    [errors.Is] recognises as ErrNotLinked, and nothing is written: a blank
    subject or email, an unknown email, a user that is not PENDING or has an
    OIDC identity. *)
Theorem resolve_refusals `{!NoFaults} c w :
  cache_miss (Claims_Sub c) (clock (w_clock w)) (w_cache w) →
  integrity (w_db w) → (∀ x, ¬ bound (w_db w) (Claims_Sub c) x) →
  (∀ u, ¬ linkable (w_db w) c u) →
  fails_with SNotLinked (ResolveCaller (Some c) w).1 ∧ w_db (ResolveCaller (Some c) w).2 = w_db w.
Proof.
  intros Hm HI Hno Hnl. unfold ResolveCaller. rewrite (bind_run _ _ _ c w) by done.
  destruct (decide (Claims_Sub c = "")) as [He|He].
  { rewrite (bind_run_Err _ _ _ _ _ (fail_if_fail _ _ _ He)). split; [by eexists|done]. }
  rewrite (bind_run _ _ _ _ _ (fail_if_run _ _ _ He)). erewrite bind_run by reflexivity.
  unfold cache_miss in Hm. destruct (cache_get _ _ _) as [o cc] eqn:Hg. simpl in Hm. subst o.
  rewrite (bind_run _ _ _ None (set_cache cc (bump_clock w))).
  2:{ unfold cacheGet. simpl. by rewrite Hg. }
  rewrite (bind_run _ _ _ _ _ (query_run _ _)). simpl.
  destruct (pgUserStore_GetUserByOIDCSub _ _) as [u|] eqn:Hu.
  { apply GetUserByOIDCSub_Some in Hu as [_ Hb]; [|done]. by destruct (Hno (User_ID u)). }
  pose proof (linkBySub_refused c (bump_stmt (set_cache cc (bump_clock w))) HI Hnl) as [(e & Hl & Hse) Hdb].
  destruct (linkBySub c _) as [r w'] eqn:Hl'. simpl in Hl. subst r.
  rewrite (bind_run_Err _ _ _ _ _ Hl'). split; [by exists e|done].
Qed.
End resolver.

(** ** Instances on concrete runs *)

(** carol is PENDING and signs in for the first time. *)
Definition carol_token : Claims := mkClaims "sub-carol" "carol@example.org" false.
Definition carol_in : World := (@ResolveCaller env0 (Some carol_token) w_setup).2.

Lemma carol_unbound : ∀ x, ¬ bound (w_db w_setup) "sub-carol" x.
Proof.
  intros x (k & e & Hk & _). assert (t_user_identities (w_db w_setup) = ∅) as He by (vm_compute; reflexivity).
  rewrite He in Hk. exact (lookup_empty_Some _ _ Hk).
Qed.

Lemma resolve_links_pending_only_witness :
  ∃ u, User_ID u = "carol" ∧ linkable (w_db w_setup) carol_token u ∧
       linked (w_db w_setup) carol_token u (w_db carol_in).
Proof.
  destruct (@resolve_links_pending_only env0 carol_token w_setup (mkCaller "carol") [] carol_in)
    as (u & Hu & Hl & Hd).
  - apply w_setup_integrity.
  - vm_compute. reflexivity.
  - apply carol_unbound.
  - unfold carol_in. apply run_result. vm_compute. reflexivity.
  - exists u. split; [exact (eq_sym Hu)|]. split; [exact Hl|exact Hd].
Defined.

(** She has no privilege, and signs in again within the TTL. *)
Lemma resolve_from_cache_witness :
  (∃ t, cache_entries (w_cache carol_in) !! "sub-carol" = Some (mkEntry (mkCaller "carol") [] t) ∧
        (@clock env0 (w_clock carol_in) < t)%Z) ∧
  obs (@ResolveCaller env0 (Some carol_token) carol_in).2 = obs carol_in.
Proof.
  apply (@resolve_from_cache env0 carol_token carol_in (mkCaller "carol") []).
  - vm_compute. discriminate.
  - apply run_result. vm_compute. reflexivity.
Defined.

(** The cache is invalidated: the next resolution reads the database. *)
Definition carol_out : World := (@serve env0 ReqInvalidateAllIdentities carol_in).2.

Lemma carol_in_integrity : integrity (w_db carol_in).
Proof.
  pose proof (@serve_integrity env0 (ReqResolveCaller (Some carol_token)) w_setup w_setup_integrity) as H.
  unfold serve, ignore, mbind, M_bind in H. unfold carol_in.
  destruct (@ResolveCaller env0 (Some carol_token) w_setup) as [[]]; exact H.
Qed.

Lemma carol_out_integrity : integrity (w_db carol_out).
Proof.
  apply (@serve_integrity env0 ReqInvalidateAllIdentities),
    carol_in_integrity.
Qed.

Lemma resolve_from_database_witness :
  bound (w_db (@ResolveCaller env0 (Some carol_token) carol_out).2) "sub-carol" "carol".
Proof.
  apply (@resolve_from_database env0 carol_token carol_out (mkCaller "carol") []).
  - apply carol_out_integrity.
  - vm_compute. reflexivity.
  - apply run_result. vm_compute. reflexivity.
Defined.

(** alice is ACTIVE: an unknown subject with her email is refused. *)
Definition alice_token : Claims := mkClaims "sub-alice" "alice@example.org" true.

Lemma resolve_refusals_witness :
  fails_with SNotLinked (@ResolveCaller env0 (Some alice_token) w_setup).1.
Proof.
  apply (@resolve_refusals env0 _ alice_token w_setup).
  - vm_compute. reflexivity.
  - apply w_setup_integrity.
  - intros x (k & e & Hk & _). assert (t_user_identities (w_db w_setup) = ∅) as He by (vm_compute; reflexivity).
    rewrite He in Hk. exact (lookup_empty_Some _ _ Hk).
  - intros u (_ & Hu & Hem & Hs & _).
    assert (map_Forall (λ _ u, lower (User_Email u) = "alice@example.org" → User_Status u ≠ UserPending)
              (t_users (w_db w_setup))) as Hall
      by (refine (bool_decide_unpack _ _); vm_compute; exact I).
    by apply (Hall _ _ Hu).
Defined.

(** The link asks only for the email: a token whose email the provider has not
    verified is linked all the same (carol's token above is such a one). *)
Example unverified_email_linked :
  Claims_EmailVerified carol_token = false ∧
  (@serve env0 (ReqResolveCaller (Some carol_token)) w_setup).1 = Ok tt ∧
  (User_Status <$> t_users (w_db carol_in) !! "carol") = Some UserActive.
Proof. repeat split; vm_compute; reflexivity. Qed.
