(* ===== verification/MergeTheorems.v ===== *)
(** * Merging two users

    [MergeUsers] (pkg/service/user_merge.go): it goes through whenever its
    preconditions hold, whatever rows the two users have in common, and
    afterwards the retiring user owns nothing and the survivor owns all of it. *)

From stdpp Require Import base gmap sets list strings.
From Stdlib Require Import ZArith.
From S2P Require Import Prelude GoError Models Schema Events IdentityCache Effects EffectsLogic.
From S2P Require Import StoreIdentity StoreProject StoreCluster.
From S2P Require Import StoreMembership UserService AuthService ServiceApi Scenario.

(** No identity, cluster account, project, allocation membership or project
    membership belongs to the user. *)
Definition owns_nothing (d : DB) (u : string) : Prop :=
  map_Forall (λ _ e, UserIdentity_UserID e ≠ u) (t_user_identities d) ∧
  map_Forall (λ _ c, ComputeClusterUser_UserID c ≠ u) (t_compute_cluster_users d) ∧
  map_Forall (λ _ p, Project_ProjectPIID p ≠ u) (t_projects d) ∧
  map_Forall (λ _ m, Membership_UserID m ≠ u) (t_memberships d) ∧
  map_Forall (λ _ pm, ProjectMembership_UserID pm ≠ u) (t_project_memberships d).

(** [u] has an account on the cluster, a membership on the allocation, a row on
    the project. *)
Definition on_cluster (d : DB) (u cluster : string) : Prop :=
  ∃ k c, t_compute_cluster_users d !! k = Some c ∧ ComputeClusterUser_UserID c = u ∧
    ComputeClusterUser_ComputeClusterID c = cluster.
Definition on_allocation (d : DB) (u alloc : string) : Prop :=
  ∃ k m, t_memberships d !! k = Some m ∧ Membership_UserID m = u ∧ Membership_ComputeAllocationID m = alloc.
Definition on_project (d : DB) (u project : string) : Prop :=
  is_Some (t_project_memberships d !! (project, u)).

(** The rows of [r] given to [s]: a row of anyone else stays as it is; a row of
    [r] becomes the row [move] makes of it, unless [s] has a row of its own for
    the same [other] thing, and then it is dropped. *)
Definition handed_over {R} (owner other : R → string) (move : R → R) (r s : string) (t t' : gmap string R) : Prop :=
  ∀ k x, t !! k = Some x →
    let own := ∃ k' y, t !! k' = Some y ∧ other y = other x ∧ owner y = s in
    (owner x ≠ r → t' !! k = Some x) ∧
    (owner x = r → ¬ own → t' !! k = Some (move x)) ∧
    (owner x = r → own → t' !! k = None).

(** Both users exist, differ, and may be merged. *)
Definition mergeable (d : DB) (s r : string) (su : User) : Prop :=
  s ≠ "" ∧ r ≠ "" ∧ s ≠ r ∧ t_users d !! s = Some su ∧ canBeMerged (User_Status su) = true ∧
  ∃ ru, t_users d !! r = Some ru ∧ canBeMerged (User_Status ru) = true.

(** The tables after the merge of [r] into [s]. *)
Definition identities_after (r s : string) (d : DB) : gmap string UserIdentity :=
  update_where (λ e, UserIdentity_UserID e = r) (with_identity_user s) (t_user_identities d).
Definition cluster_users_after (r s : string) (d : DB) : gmap string ComputeClusterUser :=
  update_where (λ c, ComputeClusterUser_UserID c = r) (with_cluster_user_user s)
    (filter (λ kr, ¬ (ComputeClusterUser_UserID kr.2 = r ∧
        is_Some (pgComputeClusterUserStore_FindByPair (ComputeClusterUser_ComputeClusterID kr.2) s d)))
      (t_compute_cluster_users d)).
Definition projects_after (r s : string) (d : DB) : gmap string Project :=
  update_where (λ p, Project_ProjectPIID p = r) (with_project_pi s) (t_projects d).
Definition memberships_kept (r s : string) (d : DB) : gmap string ComputeAllocationMembership :=
  filter (λ kr, ¬ (Membership_UserID kr.2 = r ∧
      is_Some (pgComputeAllocationMembershipStore_FindByPair (Membership_ComputeAllocationID kr.2) s d)))
    (t_memberships d).
Definition memberships_after (r s : string) (d : DB) : gmap string ComputeAllocationMembership :=
  update_where (λ m, Membership_UserID m = r) (with_membership_user s) (memberships_kept r s d).
Definition pm_kept (r s : string) (d : DB) : gmap (string * string) ProjectMembership :=
  filter (λ kr, ¬ (ProjectMembership_UserID kr.2 = r ∧
      is_Some (t_project_memberships d !! (ProjectMembership_ProjectID kr.2, s)))) (t_project_memberships d).
Definition pm_after (r s : string) (d : DB) : gmap (string * string) ProjectMembership :=
  rekey s (filter (λ kr, ProjectMembership_UserID kr.2 ≠ r) (pm_kept r s d))
          (filter (λ kr, ProjectMembership_UserID kr.2 = r) (pm_kept r s d)).

Definition merged (r s : string) (ru : User) (d : DB) : DB :=
  set_users (<[r := with_user_status UserMerged ru]> (t_users d))
  (set_project_memberships (pm_after r s d)
  (set_memberships (memberships_after r s d)
  (set_overrides (cascade fk_camro_membership (removed_keys (t_memberships d) (memberships_kept r s d))
                    (t_overrides d))
  (set_projects (projects_after r s d)
  (set_compute_cluster_users (cluster_users_after r s d)
  (set_user_identities (identities_after r s d) d)))))).

Section reassign.
Context {K} `{Countable K} {R : Type} (owner : R → string) (move : R → R) (s r : string).

(** Rows of [r] given to [s]. *)
Lemma update_where_lookup (t : gmap K R) k x :
  update_where (λ x, owner x = r) move t !! k = Some x ↔
  ∃ y, t !! k = Some y ∧ x = if decide (owner y = r) then move y else y.
Proof.
  unfold update_where. rewrite lookup_fmap_Some. split; intros (y & H1 & H2); exists y; split; congruence.
Qed.

Lemma update_where_owner (t : gmap K R) :
  s ≠ r → (∀ x, owner (move x) = s) →
  map_Forall (λ _ x, owner x ≠ r) (update_where (λ x, owner x = r) move t).
Proof.
  intros Hne Hm k x (y & Hy & ->)%update_where_lookup. case_decide; [|done]. by rewrite Hm.
Qed.

Lemma update_where_refs {R'} (t : gmap K R) (p : gmap string R') :
  (∀ x, owner (move x) = s) → refs (λ x, Some (owner x)) t p → is_Some (p !! s) →
  refs (λ x, Some (owner x)) (update_where (λ x, owner x = r) move t) p.
Proof.
  intros Hm Ht Hs k x (y & Hy & ->)%update_where_lookup k' Hk'. case_decide.
  - rewrite Hm in Hk'. by injection Hk' as <-.
  - by eapply Ht.
Qed.

(** A pair of owner and [other] stays unique when the rows of [r] that clash
    with one of [s] are deleted first. *)
Lemma reassign_uniq {U} (other : R → U) (t : gmap K R) (clash : R → Prop) `{!∀ x, Decision (clash x)} :
  (∀ x, owner (move x) = s) → (∀ x, other (move x) = other x) →
  uniq (λ x, Some (other x, owner x)) t →
  (∀ x, clash x ↔ ∃ k y, t !! k = Some y ∧ other y = other x ∧ owner y = s) →
  uniq (λ x, Some (other x, owner x))
    (update_where (λ x, owner x = r) move (filter (λ kr, ¬ (owner kr.2 = r ∧ clash kr.2)) t)).
Proof.
  intros Hm Ho Hu Hc k1 k2 x1 x2 [o v] (y1 & [Hy1 Hn1]%map_lookup_filter_Some & ->)%update_where_lookup
    (y2 & [Hy2 Hn2]%map_lookup_filter_Some & ->)%update_where_lookup. simpl in *.
  rewrite Hc in Hn1, Hn2.
  repeat case_decide; rewrite ?Ho, ?Hm; intros [= E1 E2] [= E3 E4].
  - eapply Hu; [exact Hy1|exact Hy2|reflexivity|]. simpl. congruence.
  - destruct Hn1. split; [done|]. exists k2, y2. split; [done|]. split; congruence.
  - destruct Hn2. split; [done|]. exists k1, y1. split; [done|]. split; congruence.
  - eapply Hu; [exact Hy1|exact Hy2|reflexivity|]. simpl. congruence.
Qed.

(** What becomes of each row. *)
Lemma reassign_rows (other : R → string) (t : gmap string R) (clash : R → Prop) `{!∀ x, Decision (clash x)} :
  (∀ x, clash x ↔ ∃ k y, t !! k = Some y ∧ other y = other x ∧ owner y = s) →
  handed_over owner other move r s t
    (update_where (λ x, owner x = r) move (filter (λ kr, ¬ (owner kr.2 = r ∧ clash kr.2)) t)).
Proof.
  intros Hc k x Hx own. unfold update_where, own.
  rewrite <- Hc, lookup_fmap, map_lookup_filter, Hx. simpl. split_and!.
  - intros Hn. rewrite option_guard_True by tauto. simpl. by rewrite decide_False.
  - intros Hr Hn. rewrite option_guard_True by tauto. simpl. by rewrite decide_True.
  - intros Hr Hn. by rewrite option_guard_False by tauto.
Qed.

(** What either had on [o], [s] has afterwards. *)
Lemma reassign_covers {U} (other : R → U) (t : gmap K R) (clash : R → Prop) `{!∀ x, Decision (clash x)} o :
  s ≠ r → (∀ x, owner (move x) = s) → (∀ x, other (move x) = other x) →
  (∀ x, clash x → ∃ k y, t !! k = Some y ∧ other y = other x ∧ owner y = s) →
  (∃ k y, t !! k = Some y ∧ (owner y = r ∨ owner y = s) ∧ other y = o) →
  ∃ k x, update_where (λ x, owner x = r) move (filter (λ kr, ¬ (owner kr.2 = r ∧ clash kr.2)) t) !! k = Some x ∧
    owner x = s ∧ other x = o.
Proof.
  intros Hne Hm Ho Hc.
  assert (∀ k y, t !! k = Some y → owner y = s → other y = o →
    ∃ k x, update_where (λ x, owner x = r) move (filter (λ kr, ¬ (owner kr.2 = r ∧ clash kr.2)) t) !! k = Some x ∧
      owner x = s ∧ other x = o) as Hs.
  { intros k y Hy Hys Hyo. exists k, y. split; [|done]. apply update_where_lookup. exists y.
    rewrite map_lookup_filter_Some, decide_False by congruence. split; [|done]. split; [done|]. intros [? _]. simpl in *. congruence. }
  intros (k & y & Hy & [Hyr|Hys] & Hyo); [|by eapply Hs].
  destruct (decide (clash y)) as [Hcl|Hcl].
  - destruct (Hc _ Hcl) as (k' & y' & Hy' & Hoo & Hss). eapply Hs; [exact Hy'|done|congruence].
  - exists k, (move y). rewrite Hm, Ho. split; [|done]. apply update_where_lookup. exists y.
    rewrite map_lookup_filter_Some, decide_True by done. split; [|done]. split; [done|]. simpl. tauto.
Qed.
End reassign.

(** The rows of one user, re-keyed to another. *)
Lemma rekey_spec (to from p u : string) (kept moved : gmap (string * string) ProjectMembership) :
  (∀ k pm, moved !! k = Some pm → k = (ProjectMembership_ProjectID pm, from)) →
  rekey to kept moved !! (p, u) =
    if decide (u = to) then
      match moved !! (p, from) with Some pm => Some (with_pm_user to pm) | None => kept !! (p, u) end
    else kept !! (p, u).
Proof.
  unfold rekey. revert moved.
  refine (map_fold_weak_ind (λ acc m, (∀ k pm, m !! k = Some pm → k = (ProjectMembership_ProjectID pm, from)) →
    acc !! (p, u) = if decide (u = to) then
      match m !! (p, from) with Some pm => Some (with_pm_user to pm) | None => kept !! (p, u) end
    else kept !! (p, u)) _ _ _ _).
  - intros _. rewrite lookup_empty. by case_decide.
  - intros k pm m acc Hk IH Hm. assert (k = (ProjectMembership_ProjectID pm, from)) as ->.
    { apply Hm. apply lookup_insert_eq. }
    assert (∀ k' pm', m !! k' = Some pm' → k' = (ProjectMembership_ProjectID pm', from)) as Hm'.
    { intros k' pm' Hk'. apply Hm. rewrite lookup_insert_ne by congruence. done. }
    specialize (IH Hm'). destruct (decide ((p, u) = (ProjectMembership_ProjectID pm, to))) as [[= -> ->]|Hne].
    + rewrite lookup_insert_eq, decide_True, lookup_insert_eq by done. done.
    + rewrite lookup_insert_ne, IH by congruence. case_decide; [|done].
      rewrite lookup_insert_ne by congruence. done.
Qed.

(** The project memberships after the merge: none of [r]; [s] keeps the row it
    had, and takes over the one of [r] where it had none. *)
Lemma pm_after_spec r s d p u :
  integrity d → s ≠ r →
  pm_after r s d !! (p, u) =
    if decide (u = r) then None
    else if decide (u = s) then
      match t_project_memberships d !! (p, s) with
      | Some pm => Some pm
      | None => with_pm_user s <$> t_project_memberships d !! (p, r)
      end
    else t_project_memberships d !! (p, u).
Proof.
  intros HI Hne. unfold pm_after. rewrite (rekey_spec s r).
  2:{ intros k pm [[Hk _]%map_lookup_filter_Some Hu]%map_lookup_filter_Some.
      pose proof (pk_project_memberships _ HI _ _ Hk) as <-. unfold ProjectMembership_pk. simpl in Hu. by rewrite Hu. }
  unfold pm_kept. set (t := t_project_memberships d).
  assert (∀ q v x, t !! (q, v) = Some x → ProjectMembership_ProjectID x = q ∧ ProjectMembership_UserID x = v) as Hkey.
  { intros q v x Hx. pose proof (pk_project_memberships _ HI _ _ Hx) as [= <- <-]. done. }
  assert (∀ q v, v ≠ r → filter (λ kr, ProjectMembership_UserID kr.2 ≠ r)
    (filter (λ kr, ¬ (ProjectMembership_UserID kr.2 = r ∧ is_Some (t !! (ProjectMembership_ProjectID kr.2, s)))) t)
      !! (q, v) = t !! (q, v)) as Hkept.
  { intros q v Hv. rewrite !map_lookup_filter. destruct (t !! (q, v)) as [x|] eqn:Hx; simpl; [|done].
    apply Hkey in Hx as [_ Hxv]. rewrite option_guard_True by (simpl; intros [? _]; congruence).
    simpl. by rewrite option_guard_True by (simpl; congruence). }
  assert (filter (λ kr, ProjectMembership_UserID kr.2 = r)
    (filter (λ kr, ¬ (ProjectMembership_UserID kr.2 = r ∧ is_Some (t !! (ProjectMembership_ProjectID kr.2, s)))) t)
      !! (p, r) = if decide (is_Some (t !! (p, s))) then None else t !! (p, r)) as Hmoved.
  { rewrite !map_lookup_filter. destruct (t !! (p, r)) as [x|] eqn:Hx; simpl; [|by case_decide].
    apply Hkey in Hx as [Hxp Hxr].
    destruct (decide (is_Some (t !! (p, s)))) as [Hc|Hc].
    - by rewrite option_guard_False by (simpl; rewrite Hxp; tauto).
    - rewrite option_guard_True by (simpl; rewrite Hxp; tauto). simpl. by rewrite option_guard_True. }
  destruct (decide (u = r)) as [->|Hur].
  - rewrite decide_False by done. rewrite !map_lookup_filter. destruct (t !! (p, r)) as [x|] eqn:Hx; simpl; [|done].
    apply Hkey in Hx as [_ Hxr]. case_guard; simpl; [|done]. by rewrite option_guard_False by (simpl; auto).
  - rewrite Hkept, Hmoved by done. destruct (decide (u = s)) as [->|Hus]; [|done].
    destruct (t !! (p, s)) as [x|] eqn:Hx.
    + rewrite decide_True by done. done.
    + rewrite decide_False by (intros [? ?]; done). destruct (t !! (p, r)) as [y|]; reflexivity.
Qed.

(** The two statements of each [ReassignUser], together. *)
Lemma ccu_reassign_Ok r s d d1 d2 :
  ccu_reassign_delete r s d = inr d1 → ccu_reassign_update r s d1 = inr d2 →
  d2 = set_compute_cluster_users (cluster_users_after r s d) d.
Proof. intros H1 H2. stmt_inv H1. stmt_inv H2. reflexivity. Qed.

Lemma cam_reassign_Ok r s d d1 d2 :
  cam_reassign_delete r s d = inr d1 → cam_reassign_update r s d1 = inr d2 →
  d2 = set_memberships (memberships_after r s d)
         (set_overrides (cascade fk_camro_membership
            (removed_keys (t_memberships d) (memberships_kept r s d)) (t_overrides d)) d).
Proof. intros H1 H2. stmt_inv H1. stmt_inv H2. reflexivity. Qed.

Lemma pm_reassign_Ok r s d d1 d2 :
  pm_reassign_delete r s d = inr d1 → pm_reassign_update r s d1 = inr d2 →
  d2 = set_project_memberships (pm_after r s d) d.
Proof. intros H1 H2. stmt_inv H1. stmt_inv H2. reflexivity. Qed.

Section merge.
Context `{E : Env}.

Lemma mergeTx_Ok r s ru w x w' :
  t_users (w_tx w) !! r = Some ru → mergeTx r s w = (Ok x, w') →
  w_tx w' = merged r s ru (w_tx w).
Proof.
  intros Hr H.
  unfold mergeTx, pgComputeClusterUserStore_ReassignUser, pgComputeAllocationMembershipStore_ReassignUser,
    pgProjectMembershipStore_ReassignUser in H.
  run.
  match goal with H1 : ccu_reassign_delete _ _ _ = _, H2 : ccu_reassign_update _ _ _ = _ |- _ =>
    pose proof (ccu_reassign_Ok _ _ _ _ _ H1 H2); clear H1 H2 end.
  match goal with H1 : cam_reassign_delete _ _ _ = _, H2 : cam_reassign_update _ _ _ = _ |- _ =>
    pose proof (cam_reassign_Ok _ _ _ _ _ H1 H2); clear H1 H2 end.
  match goal with H1 : pm_reassign_delete _ _ _ = _, H2 : pm_reassign_update _ _ _ = _ |- _ =>
    pose proof (pm_reassign_Ok _ _ _ _ _ H1 H2); clear H1 H2 end.
  subst.
  repeat match goal with H : _ = inr _ |- _ => stmt_inv H end; simpl in *; try congruence.
  simplify_eq. reflexivity.
Qed.

Lemma MergeUsers_Ok s r w su w' :
  MergeUsers s r w = (Ok su, w') →
  mergeable (w_db w) s r su ∧
  ∃ ru, t_users (w_db w) !! r = Some ru ∧ w_db w' = merged r s ru (w_db w) ∧
    w_bus w' = w_bus w ++ [mkEvent UserUpdateEvent (PUser (with_user_status UserMerged ru));
                           mkEvent UserUpdateEvent (PUser su)].
Proof.
  intros H. unfold MergeUsers in H. run. unfold pgUserStore_FindByID in *.
  match goal with HM : mergeTx _ _ ?v = _ |- _ =>
    let HQ := fresh in assert (Quiet (mergeTx r s)) as HQ by (autounfold with ops; solve_quiet);
    specialize (HQ v); rewrite HM in HQ; injection HQ as Hdb Hbus _ _;
    eapply mergeTx_Ok in HM; [|eassumption] end.
  simpl in *. split.
  - split_and!; [tauto|tauto|done|done|by apply not_false_is_true|]. eexists. split; [eassumption|].
    by apply not_false_is_true.
  - eexists. split; [eassumption|]. split; [done|]. by rewrite Hbus, <- app_assoc.
Qed.

(** The lookups by pair find a row exactly when there is one. *)
Lemma ccu_FindByPair_is_Some c u d :
  is_Some (pgComputeClusterUserStore_FindByPair c u d) ↔
  ∃ k y, t_compute_cluster_users d !! k = Some y ∧ ComputeClusterUser_ComputeClusterID y = c ∧
    ComputeClusterUser_UserID y = u.
Proof.
  split.
  - intros [y [[? ?] [k ?]]%select_one_Some]. eauto.
  - intros (k & y & Hy & ? & ?). apply is_Some_not_None. intros Hn.
    unfold pgComputeClusterUserStore_FindByPair in Hn. rewrite select_one_None in Hn. by eapply Hn.
Qed.

Lemma cam_FindByPair_is_Some a u d :
  is_Some (pgComputeAllocationMembershipStore_FindByPair a u d) ↔
  ∃ k y, t_memberships d !! k = Some y ∧ Membership_ComputeAllocationID y = a ∧ Membership_UserID y = u.
Proof.
  split.
  - intros [y [[? ?] [k ?]]%select_one_Some]. eauto.
  - intros (k & y & Hy & ? & ?). apply is_Some_not_None. intros Hn.
    unfold pgComputeAllocationMembershipStore_FindByPair in Hn. rewrite select_one_None in Hn. by eapply Hn.
Qed.

Lemma merged_owns_nothing r s ru d : integrity d → s ≠ r → owns_nothing (merged r s ru d) r.
Proof.
  intros HI Hne. split_and!; simpl.
  - by apply (update_where_owner UserIdentity_UserID _ s).
  - by apply (update_where_owner ComputeClusterUser_UserID _ s).
  - by apply (update_where_owner Project_ProjectPIID _ s).
  - by apply (update_where_owner Membership_UserID _ s).
  - intros [p u] pm Hpm. rewrite pm_after_spec in Hpm by done.
    destruct (decide (u = r)) as [?|Hur]; [done|]. destruct (decide (u = s)) as [->|].
    + destruct (t_project_memberships d !! (p, s)) as [x|] eqn:Hx.
      * simplify_eq. pose proof (pk_project_memberships _ HI _ _ Hx) as [= _ ->]. done.
      * apply fmap_Some in Hpm as (y & _ & ->). done.
    + pose proof (pk_project_memberships _ HI _ _ Hpm) as [= _ ->]. done.
Qed.

Lemma merged_on_cluster r s ru d c :
  s ≠ r → on_cluster d r c ∨ on_cluster d s c → on_cluster (merged r s ru d) s c.
Proof.
  intros Hne Hc. unfold on_cluster at 1. simpl. unfold cluster_users_after.
  pose proof (reassign_covers ComputeClusterUser_UserID (with_cluster_user_user s) s r
    ComputeClusterUser_ComputeClusterID (t_compute_cluster_users d)
    (λ x, is_Some (pgComputeClusterUserStore_FindByPair (ComputeClusterUser_ComputeClusterID x) s d)) c) as HC.
  apply HC; [done..|intros x; apply ccu_FindByPair_is_Some|].
  destruct Hc as [(k & y & ? & ? & ?)|(k & y & ? & ? & ?)]; exists k, y; auto.
Qed.

Lemma merged_on_allocation r s ru d a :
  s ≠ r → on_allocation d r a ∨ on_allocation d s a → on_allocation (merged r s ru d) s a.
Proof.
  intros Hne Ha. unfold on_allocation at 1. simpl. unfold memberships_after, memberships_kept.
  pose proof (reassign_covers Membership_UserID (with_membership_user s) s r
    Membership_ComputeAllocationID (t_memberships d)
    (λ x, is_Some (pgComputeAllocationMembershipStore_FindByPair (Membership_ComputeAllocationID x) s d)) a) as HC.
  apply HC; [done..|intros x; apply cam_FindByPair_is_Some|].
  destruct Ha as [(k & y & ? & ? & ?)|(k & y & ? & ? & ?)]; exists k, y; auto.
Qed.

(** ** The statements of the merge go through *)

Lemma merge_stmt_ccu r s d :
  integrity d → s ≠ r → is_Some (t_users d !! s) →
  ∃ d1 d2, ccu_reassign_delete r s d = inr d1 ∧ ccu_reassign_update r s d1 = inr d2.
Proof.
  intros HI Hne Hs. do 2 eexists. split; [reflexivity|]. unfold ccu_reassign_update. cbv zeta.
  rewrite decide_True; [rewrite decide_True; [reflexivity|]|]; simpl.
  - apply (update_where_refs ComputeClusterUser_UserID _ s); [done| |done].
    eapply refs_subseteq; [apply map_filter_subseteq|]. by destruct HI.
  - pose proof (reassign_uniq ComputeClusterUser_UserID (with_cluster_user_user s) s r
      ComputeClusterUser_ComputeClusterID (t_compute_cluster_users d)
      (λ x, is_Some (pgComputeClusterUserStore_FindByPair (ComputeClusterUser_ComputeClusterID x) s d))) as HU.
    apply HU; [done|done|by destruct HI|]. intros x. apply ccu_FindByPair_is_Some.
Qed.

Lemma merge_stmt_cam r s d :
  integrity d → s ≠ r →
  ∃ d1 d2, cam_reassign_delete r s d = inr d1 ∧ cam_reassign_update r s d1 = inr d2.
Proof.
  intros HI Hne. do 2 eexists. split; [reflexivity|]. unfold cam_reassign_update. cbv zeta.
  rewrite decide_True; [reflexivity|]. simpl.
  pose proof (reassign_uniq Membership_UserID (with_membership_user s) s r Membership_ComputeAllocationID
    (t_memberships d)
    (λ x, is_Some (pgComputeAllocationMembershipStore_FindByPair (Membership_ComputeAllocationID x) s d))) as HU.
  apply HU; [done|done|by destruct HI|]. intros x. apply cam_FindByPair_is_Some.
Qed.

Lemma merge_stmt_pm r s d :
  integrity d → s ≠ r → is_Some (t_users d !! s) →
  ∃ d1 d2, pm_reassign_delete r s d = inr d1 ∧ pm_reassign_update r s d1 = inr d2.
Proof.
  intros HI Hne Hs. do 2 eexists. split; [reflexivity|]. unfold pm_reassign_update. cbv zeta.
  rewrite decide_True; [rewrite decide_True; [reflexivity|by right]|]. simpl.
  intros k pm [[Hk Hn]%map_lookup_filter_Some Hu]%map_lookup_filter_Some. simpl in *.
  apply map_lookup_filter_None. left. apply map_lookup_filter_None. left.
  apply eq_None_not_Some. tauto.
Qed.

Lemma merge_stmt_identities r s d :
  integrity d → is_Some (t_users d !! s) → ∃ d1, pgUserIdentityStore_ReassignUser r s d = inr d1.
Proof.
  intros HI Hs. eexists. unfold pgUserIdentityStore_ReassignUser. cbv zeta. rewrite decide_True; [reflexivity|].
  apply (update_where_refs UserIdentity_UserID _ s); [done|by destruct HI|done].
Qed.

Lemma merge_stmt_projects r s d :
  integrity d → is_Some (t_users d !! s) → ∃ d1, pgProjectStore_ReassignPI r s d = inr d1.
Proof.
  intros HI Hs. eexists. unfold pgProjectStore_ReassignPI. cbv zeta. rewrite decide_True; [reflexivity|].
  apply (update_where_refs Project_ProjectPIID _ s); [done|by destruct HI|done].
Qed.

(** Two statements in a row. *)
Lemma exec_exec_run `{!NoFaults} s1 s2 w d1 d2 :
  s1 (w_tx w) = inr d1 → s2 d1 = inr d2 →
  (_ ← exec s1; exec s2) w = (Ok tt, set_tx d2 (bump_stmt (set_tx d1 (bump_stmt w)))).
Proof.
  intros H1 H2. rewrite (bind_run _ _ _ _ _ (exec_run _ _ _ H1)). by apply exec_run.
Qed.

Lemma mergeTx_run `{!NoFaults} r s w :
  integrity (w_tx w) → s ≠ r → is_Some (t_users (w_tx w) !! s) → is_Some (t_users (w_tx w) !! r) →
  ∃ w', mergeTx r s w = (Ok tt, w').
Proof.
  intros HI Hne Hs [ru Hr].
  unfold mergeTx, pgComputeClusterUserStore_ReassignUser, pgComputeAllocationMembershipStore_ReassignUser,
    pgProjectMembershipStore_ReassignUser.
  destruct (merge_stmt_identities r s (w_tx w) HI Hs) as [d1 H1].
  rewrite (bind_run _ _ _ _ _ (wrap_run _ _ _ _ _ _ (exec_run _ _ _ H1))).
  pose proof (pgUserIdentityStore_ReassignUser_integrity r s _ _ H1 HI) as HI1.
  assert (t_users d1 = t_users (w_tx w)) as E1 by (clear -H1; by stmt_inv H1). rewrite <- E1 in Hs, Hr.
  destruct (merge_stmt_ccu r s d1 HI1 Hne Hs) as (d2 & d3 & H2 & H3).
  rewrite (bind_run _ _ _ _ _ (wrap_run _ _ _ _ _ _ (exec_exec_run _ _ (set_tx d1 _) _ _ H2 H3))).
  pose proof (ccu_reassign_update_integrity r s _ _ H3 (ccu_reassign_delete_integrity r s _ _ H2 HI1)) as HI3.
  assert (t_users d3 = t_users d1) as E3 by (clear -H2 H3; by rewrite (ccu_reassign_Ok _ _ _ _ _ H2 H3)).
  rewrite <- E3 in Hs, Hr. destruct (merge_stmt_projects r s d3 HI3 Hs) as [d4 H4].
  rewrite (bind_run _ _ _ _ _ (wrap_run _ _ _ _ _ _ (exec_run _ (set_tx d3 _) _ H4))).
  pose proof (pgProjectStore_ReassignPI_integrity r s _ _ H4 HI3) as HI4.
  assert (t_users d4 = t_users d3) as E4 by (clear -H4; by stmt_inv H4). rewrite <- E4 in Hs, Hr.
  destruct (merge_stmt_cam r s d4 HI4 Hne) as (d5 & d6 & H5 & H6).
  rewrite (bind_run _ _ _ _ _ (wrap_run _ _ _ _ _ _ (exec_exec_run _ _ (set_tx d4 _) _ _ H5 H6))).
  pose proof (cam_reassign_update_integrity r s _ _ H6 (cam_reassign_delete_integrity r s _ _ H5 HI4)) as HI6.
  assert (t_users d6 = t_users d4) as E6 by (clear -H5 H6; by rewrite (cam_reassign_Ok _ _ _ _ _ H5 H6)).
  rewrite <- E6 in Hs, Hr. destruct (merge_stmt_pm r s d6 HI6 Hne Hs) as (d7 & d8 & H7 & H8).
  rewrite (bind_run _ _ _ _ _ (wrap_run _ _ _ _ _ _ (exec_exec_run _ _ (set_tx d6 _) _ _ H7 H8))).
  assert (t_users d8 = t_users d6) as E8 by (clear -H7 H8; by rewrite (pm_reassign_Ok _ _ _ _ _ H7 H8)).
  rewrite <- E8 in Hr. eexists. apply exec_run. simpl. unfold pgUserStore_UpdateStatus. rewrite Hr.
  rewrite decide_True; [reflexivity|]. apply (bool_decide_unpack (fits _)). vm_compute. exact I.
Qed.

(** ** The theorems *)


(** C40: without infrastructure faults a merge of two distinct existing users
    whose status allows it always succeeds: no UNIQUE or FOREIGN KEY constraint
    can stop it, whatever clusters, allocations and projects they share. *)
Theorem merge_succeeds `{!NoFaults} s r w su :
  integrity (w_db w) → mergeable (w_db w) s r su → (MergeUsers s r w).1 = Ok su.
Proof.
  intros HI (Hs & Hr & Hne & Hsu & Hms & ru & Hru & Hmr). unfold MergeUsers.
  erewrite bind_run by (apply fail_if_run; tauto).
  rewrite (bind_run _ _ _ _ _ (fail_if_run _ _ _ Hne)).
  rewrite (bind_run _ _ _ _ _ (wrap_run _ _ _ _ _ _ (query_run _ _))).
  change (pgUserStore_FindByID s (w_db w)) with (t_users (w_db w) !! s). rewrite Hsu. erewrite bind_run by reflexivity. rewrite Hms.
  erewrite bind_run by (apply fail_if_run; discriminate).
  rewrite (bind_run _ _ _ _ _ (wrap_run _ _ _ _ _ _ (query_run _ _))).
  change (pgUserStore_FindByID r (w_db (bump_stmt w))) with (t_users (w_db w) !! r). rewrite Hru. erewrite bind_run by reflexivity.
  assert (User_Status ru ≠ UserMerged) as Hnm by (intros He; rewrite He in Hmr; discriminate Hmr).
  rewrite (bind_run _ _ _ _ _ (fail_if_run _ _ _ Hnm)). rewrite Hmr.
  erewrite bind_run by (apply fail_if_run; discriminate).
  destruct (mergeTx_run r s (tx_begin (bump_stmt (bump_stmt w)))) as [w' Hw']; [done|done|by eexists..|].
  erewrite bind_run; [|apply wrap_run; rewrite inTx_run, Hw'; reflexivity]. reflexivity.
Qed.
End merge.

(** ** Instances on concrete runs *)

(** alice, the PI of the project, retires in favour of bob, who is already a
    co-PI of it. *)
Definition w_copi : World :=
  run_requests env0 [ReqEnsureProjectMembership "proj" "alice" "PI";
                     ReqEnsureProjectMembership "proj" "bob" "CO_PI"] w_setup.

Lemma w_copi_integrity : integrity (w_db w_copi).
Proof. apply run_requests_integrity, w_setup_integrity. Qed.

#[local] Opaque w_copi.

Definition bob : User := mkUser "bob" "org" "Bob" "B" "" "bob@example.org" "ACTIVE" "CLUSTER_LOCAL".


Lemma merge_succeeds_witness : (@MergeUsers env0 "bob" "alice" w_copi).1 = Ok bob.
Proof.
  apply (@merge_succeeds env0 _ "bob" "alice" w_copi bob); [apply w_copi_integrity|].
  split_and!; [discriminate..|vm_compute; reflexivity|reflexivity|].
  eexists. split; vm_compute; reflexivity.
Defined.

(** The project names bob as its PI, and bob's row on it is still CO_PI: no
    membership of the project has the role PI. *)
Example merge_loses_pi_row :
  let d := w_db (@MergeUsers env0 "bob" "alice" w_copi).2 in
  (ProjectMembership_Role <$> t_project_memberships (w_db w_copi) !! ("proj", "alice")) = Some "PI" ∧
  (Project_ProjectPIID <$> t_projects d !! "proj") = Some "bob" ∧
  (ProjectMembership_Role <$> t_project_memberships d !! ("proj", "bob")) = Some "CO_PI" ∧
  pgProjectMembershipStore_FindPIByProject "proj" d = None.
Proof. repeat split; vm_compute; reflexivity. Qed.
