(* ===== verification/ProjectTheorems.v ===== *)
(** * Project governance

    [EnsureProjectMembership] (pkg/service/project_membership.go): what it
    leaves, that it never takes the PI role away, and that no sequence of
    requests gives a project two PIs. *)

From stdpp Require Import base gmap sets list strings.
From Stdlib Require Import ZArith.
From S2P Require Import Prelude GoError Models Schema Events IdentityCache Effects EffectsLogic.
From S2P Require Import StoreIdentity StoreProject StoreCluster StoreAuth StoreAllocation StoreMembership.
From S2P Require Import UserService AuthService ProjectService ServiceApi Scenario MergeTheorems.

(** At most one membership of a project has the role PI. *)
Definition one_pi (d : DB) : Prop :=
  ∀ p u1 u2 m1 m2,
    t_project_memberships d !! (p, u1) = Some m1 → ProjectMembership_Role m1 = ProjectRolePI →
    t_project_memberships d !! (p, u2) = Some m2 → ProjectMembership_Role m2 = ProjectRolePI → u1 = u2.

(** The role of a user on a project, if any. *)
Definition role_on (d : DB) (p u : string) : option string :=
  ProjectMembership_Role <$> t_project_memberships d !! (p, u).

(** The requests that write project_memberships. *)
Definition changes_governance (r : Request) : bool :=
  match r with
  | ReqEnsureProjectMembership _ _ _ | ReqMergeUsers _ _ | ReqDeleteProject _ | ReqDeleteUser _ => true
  | _ => false
  end.

(** What a role string asks for: [None] for an unknown one. *)
Definition requested (role : string) : option (option string) :=
  if decide (role = "MEMBER" ∨ role = "") then Some None
  else if decide (role ∈ GovernanceRoles) then Some (Some role) else None.

(** A subset of the rows keeps [one_pi]. *)
Lemma one_pi_subseteq d d' :
  t_project_memberships d' ⊆ t_project_memberships d → one_pi d → one_pi d'.
Proof.
  intros Ht Hd p u1 u2 m1 m2 H1 R1 H2 R2.
  eapply (Hd p u1 u2 m1 m2); [by eapply lookup_weaken|done|by eapply lookup_weaken|done].
Qed.

(** One row rewritten or added, not as a second PI. *)
Lemma one_pi_insert d p u m :
  one_pi d →
  (ProjectMembership_Role m = ProjectRolePI →
   ∀ v x, t_project_memberships d !! (p, v) = Some x → ProjectMembership_Role x = ProjectRolePI → v = u) →
  one_pi (set_project_memberships (<[(p, u) := m]> (t_project_memberships d)) d).
Proof.
  intros Hd Hm q u1 u2 m1 m2 H1 R1 H2 R2. simpl in *.
  apply lookup_insert_Some in H1 as [[Hk1 <-]|[Hn1 H1]];
    apply lookup_insert_Some in H2 as [[Hk2 <-]|[Hn2 H2]]; simplify_eq.
  - done.
  - symmetry. by eapply Hm.
  - subst. by eapply Hm.
  - by eapply Hd.
Qed.

Lemma normalizeProjectRole_Some raw pr :
  normalizeProjectRole raw = Some pr → pr = raw ∧ raw ∈ GovernanceRoles.
Proof.
  unfold normalizeProjectRole, GovernanceRoles. intros H. repeat case_decide; simplify_eq;
    rewrite !elem_of_cons; auto.
Qed.

Lemma normalizeProjectRole_None raw : normalizeProjectRole raw = None → raw ∉ GovernanceRoles.
Proof.
  unfold normalizeProjectRole, GovernanceRoles. intros H. repeat case_decide; simplify_eq.
  rewrite !elem_of_cons, elem_of_nil. tauto.
Qed.

Lemma FindPIByProject_Some d p m :
  integrity d → pgProjectMembershipStore_FindPIByProject p d = Some m →
  t_project_memberships d !! (p, ProjectMembership_UserID m) = Some m ∧ ProjectMembership_Role m = ProjectRolePI.
Proof.
  intros HI [[Hp Hr] [k Hk]]%select_one_Some. pose proof (pk_project_memberships _ HI _ _ Hk) as <-.
  unfold ProjectMembership_pk in Hk. by rewrite Hp in Hk.
Qed.

Lemma FindPIByProject_None d p u x :
  integrity d → pgProjectMembershipStore_FindPIByProject p d = None →
  t_project_memberships d !! (p, u) = Some x → ProjectMembership_Role x ≠ ProjectRolePI.
Proof.
  intros HI Hn Hx Hr. pose proof (pk_project_memberships _ HI _ _ Hx) as [= Hp _].
  unfold pgProjectMembershipStore_FindPIByProject in Hn. rewrite select_one_None in Hn. by eapply Hn.
Qed.

Section successes.
Context `{E : Env}.

(** The check for another PI. *)
Lemma pi_check_Ok p u pr w x w' :
  integrity (w_db w) →
  when (pr = ProjectRolePI) (
    currentPI ← wrap "lookup PI: %w" (query (pgProjectMembershipStore_FindPIByProject p));
    match currentPI with
    | Some cp => fail_if (ProjectMembership_UserID cp ≠ u)
                   (Errorf "%w: project %q already has PI %q" [p; ProjectMembership_UserID cp] ErrPIChange)
    | None => mret tt
    end) w = (Ok x, w') →
  w_db w' = w_db w ∧
  (one_pi (w_db w) → pr = ProjectRolePI → ∀ v y, t_project_memberships (w_db w) !! (p, v) = Some y →
     ProjectMembership_Role y = ProjectRolePI → v = u).
Proof.
  intros HI H. run; (split; [done|]); intros H1 Hpr v y Hy Hr; [..|done].
  - match goal with HF : pgProjectMembershipStore_FindPIByProject _ _ = Some ?cp |- _ =>
      destruct (FindPIByProject_Some _ _ _ HI HF) as [Hcp Hcr] end.
    match goal with HN : ¬ (_ ≠ u) |- _ => apply dec_stable in HN; rewrite HN in Hcp end. by eapply H1.
  - exfalso. by eapply FindPIByProject_None.
Qed.

(** The run of a call that succeeds: the row it leaves, and that a PI written
    by it is the only one. *)
Lemma EnsureProjectMembership_Ok p u role w w' :
  integrity (w_db w) → EnsureProjectMembership p u role w = (Ok tt, w') →
  ∃ ro, requested role = Some ro ∧
    (role_on (w_db w) p u = Some ProjectRolePI → ro = Some ProjectRolePI) ∧
    match ro with
    | None => w_db w' = set_project_memberships (delete (p, u) (t_project_memberships (w_db w))) (w_db w)
    | Some pr => ∃ m, ProjectMembership_Role m = pr ∧
        w_db w' = set_project_memberships (<[(p, u) := m]> (t_project_memberships (w_db w))) (w_db w) ∧
        (one_pi (w_db w) → pr = ProjectRolePI → ∀ v x, t_project_memberships (w_db w) !! (p, v) = Some x →
           ProjectMembership_Role x = ProjectRolePI → v = u)
    end.
Proof.
  intros HI H. unfold EnsureProjectMembership in H.
  apply bind_Ok in H as (? & ? & [Hp ->]%fail_if_Ok & H).
  apply bind_Ok in H as (? & ? & [Hu ->]%fail_if_Ok & H). unfold requested, role_on.
  destruct (decide (role = "MEMBER" ∨ role = "")) as [Hm|Hm].
  { exists None. split; [done|]. run; unfold pgProjectMembershipStore_FindByPair in *.
    - stmt_inv H. split; [|done]. match goal with HF : _ = Some _ |- _ => rewrite HF end. intros [= ?]. done.
    - match goal with HF : _ = None |- _ => rewrite HF end. split; [done|].
      rewrite delete_id by done. by destruct (w_db w). }
  apply bind_Ok in H as (pr & ? & [Hpr ->]%deref_Ok & H).
  apply bind_Ok in H as (existing & ? & [-> ->]%wrap_Ok%query_Ok & H).
  apply bind_Ok in H as ([] & w1 & [Hdb Hone]%pi_check_Ok & H); [|done].
  apply normalizeProjectRole_Some in Hpr as [-> Hg]. rewrite (decide_True (P := role ∈ GovernanceRoles)) by done.
  exists (Some role). split; [done|]. simpl in Hdb, Hone. unfold pgProjectMembershipStore_FindByPair in H.
  destruct (t_project_memberships (w_db w) !! (p, u)) as [pm|] eqn:He.
  - apply bind_Ok in H as (? & ? & [Hno ->]%fail_if_Ok & H). split.
    { intros [= Hpm]. destruct (decide (role = ProjectRolePI)) as [->|]; [done|]. by destruct Hno. }
    case_decide as Hsame.
    + run. exists pm. split; [done|]. split; [|done]. rewrite Hdb, insert_id by done. by destruct (w_db w).
    + run. stmt_inv H; simpl in *; rewrite Hdb in *; simplify_eq.
      exists (with_pm_role role pm). done.
  - run. stmt_inv H. simpl. rewrite Hdb in *. split; [done|].
    eexists. split; [|split; [reflexivity|done]]. done.
Qed.

Lemma serve_governance_frame r : changes_governance r = false → DbRel (same t_project_memberships) (serve r).
Proof.
  destruct r; intros [=]; unfold serve; autounfold with ops;
    repeat first [ apply DbRel_cacheGet; apply _ | apply TxRel_lastMetaHolderLoop; apply _
                 | apply TxRel_attachPrivilegesTx; [apply _|] | db_step | tx_step ]; stmt_frame.
Qed.

Lemma merged_one_pi r s ru d : integrity d → s ≠ r → one_pi d → one_pi (merged r s ru d).
Proof.
  intros HI Hne Hd p u1 u2 m1 m2 H1 R1 H2 R2. simpl in H1, H2.
  assert (∀ u m, pm_after r s d !! (p, u) = Some m → ProjectMembership_Role m = ProjectRolePI →
    ∃ v x, t_project_memberships d !! (p, v) = Some x ∧ ProjectMembership_Role x = ProjectRolePI ∧
      (v = u ∨ (v = r ∧ u = s ∧ t_project_memberships d !! (p, s) = None))) as Horig.
  { intros u m Hm Hr. rewrite pm_after_spec in Hm by done.
    destruct (decide (u = r)); [done|]. destruct (decide (u = s)) as [->|]; [|eauto 7].
    destruct (t_project_memberships d !! (p, s)) as [x|] eqn:Hx; [simplify_eq; eauto 7|].
    apply fmap_Some in Hm as (x & Hx' & ->). exists r, x. simpl in Hr. auto 7. }
  destruct (Horig _ _ H1 R1) as (v1 & x1 & Hv1 & Hx1 & O1), (Horig _ _ H2 R2) as (v2 & x2 & Hv2 & Hx2 & O2).
  pose proof (Hd _ _ _ _ _ Hv1 Hx1 Hv2 Hx2) as <-.
  destruct O1 as [->|(-> & -> & Hn)], O2 as [->|(? & -> & Hn')]; try done; subst; try congruence.
  - exfalso. rewrite pm_after_spec, decide_True in H1 by done. done.
  - exfalso. rewrite pm_after_spec, decide_True in H2 by done. done.
Qed.

(** A request that touches the memberships of projects and succeeds. *)
Lemma governance_one_pi r w w' :
  changes_governance r = true → integrity (w_db w) → one_pi (w_db w) → serve r w = (Ok tt, w') →
  one_pi (w_db w').
Proof.
  intros Hc HI H1 H. destruct r; try discriminate Hc; unfold serve, ignore in H.
  - unfold DeleteUser in H. run. match goal with HS : _ = inr _ |- _ => stmt_inv HS end.
    eapply one_pi_subseteq; [apply cascade_subseteq|done].
  - run. match goal with HM : MergeUsers _ _ _ = _ |- _ =>
      apply MergeUsers_Ok in HM as [(_ & _ & Hne & _) (ru & _ & -> & _)] end. by apply merged_one_pi.
  - unfold DeleteProject in H. run. match goal with HS : _ = inr _ |- _ => stmt_inv HS end.
    eapply one_pi_subseteq; [apply cascade_subseteq|done].
  - apply EnsureProjectMembership_Ok in H as ([pr|] & _ & _ & Hw); [..|done].
    + destruct Hw as (m & <- & -> & Hone). by apply one_pi_insert; [|apply Hone].
    + rewrite Hw. eapply one_pi_subseteq; [apply delete_subseteq|done].
Qed.

Lemma EnsureProjectMembership_keeps_pi p u role q v w w' :
  integrity (w_db w) → EnsureProjectMembership p u role w = (Ok tt, w') →
  role_on (w_db w) q v = Some ProjectRolePI → role_on (w_db w') q v = Some ProjectRolePI.
Proof.
  intros HI H Hv. apply EnsureProjectMembership_Ok in H as (ro & _ & Hkeep & Hw); [|done].
  destruct (decide ((q, v) = (p, u))) as [[= -> ->]|Hne].
  - rewrite (Hkeep Hv) in Hw. destruct Hw as (m & Hm & -> & _). unfold role_on. simpl.
    by rewrite lookup_insert_eq; simpl; rewrite Hm.
  - unfold role_on in *. destruct ro as [pr|].
    + destruct Hw as (m & _ & -> & _). simpl. by rewrite lookup_insert_ne.
    + rewrite Hw. simpl. by rewrite lookup_delete_ne.
Qed.
End successes.

Section governance.
Context `{E : Env}.

Lemma serve_one_pi r w : integrity (w_db w) → one_pi (w_db w) → one_pi (w_db (serve r w).2).
Proof.
  intros HI H1. destruct (changes_governance r) eqn:Hc.
  2:{ pose proof (serve_governance_frame r Hc w) as HF. eapply one_pi_subseteq; [by rewrite HF|done]. }
  destruct (serve r w) as [[[]|e] w'] eqn:H; simpl; [by eapply governance_one_pi|].
  eapply (serve_err_rel (pres one_pi) r); [by destruct r| |exact H|done].
  intros E' w'' H'' _. by eapply governance_one_pi.
Qed.

(** The guards, run forward. *)
Lemma second_pi_refused `{!NoFaults} p u pi w :
  integrity (w_db w) → one_pi (w_db w) → p ≠ "" → u ≠ "" → u ≠ pi → role_on (w_db w) p pi = Some ProjectRolePI →
  fails_with SPIChange (EnsureProjectMembership p u ProjectRolePI w).1.
Proof.
  intros HI H1 Hp Hu Hne Hpi. unfold role_on in Hpi. apply fmap_Some in Hpi as (m & Hm & Hr).
  unfold EnsureProjectMembership.
  rewrite (bind_run _ _ _ _ _ (fail_if_run _ _ _ Hp)), (bind_run _ _ _ _ _ (fail_if_run _ _ _ Hu)).
  rewrite decide_False by (intros [?|?]; discriminate). erewrite bind_run by reflexivity.
  rewrite (bind_run _ _ _ _ _ (wrap_run _ _ _ _ _ _ (query_run _ _))).
  destruct (pgProjectMembershipStore_FindPIByProject p (w_db w)) as [cp|] eqn:Hcp.
  2:{ by destruct (FindPIByProject_None _ _ _ _ HI Hcp Hm). }
  destruct (FindPIByProject_Some _ _ _ HI Hcp) as [Hk Hkr]. pose proof (H1 _ _ _ _ _ Hk Hkr Hm (eq_sym Hr)) as Hid.
  erewrite bind_run_Err; [|unfold when; rewrite decide_True by done;
    rewrite (bind_run _ _ _ _ _ (wrap_run _ _ _ _ _ _ (query_run _ _))); simpl; rewrite Hcp;
    apply fail_if_fail; congruence].
  by eexists.
Qed.

Lemma demotion_refused `{!NoFaults} p u role w :
  p ≠ "" → u ≠ "" → role ≠ ProjectRolePI → requested role ≠ None → role_on (w_db w) p u = Some ProjectRolePI →
  fails_with SPIChange (EnsureProjectMembership p u role w).1.
Proof.
  intros Hp Hu Hne Hreq Hpi. unfold role_on in Hpi. apply fmap_Some in Hpi as (m & Hm & Hr).
  unfold EnsureProjectMembership, requested in *.
  rewrite (bind_run _ _ _ _ _ (fail_if_run _ _ _ Hp)), (bind_run _ _ _ _ _ (fail_if_run _ _ _ Hu)).
  destruct (decide (role = "MEMBER" ∨ role = "")) as [Hmem|Hmem].
  - rewrite (bind_run _ _ _ _ _ (wrap_run _ _ _ _ _ _ (query_run _ _))).
    unfold pgProjectMembershipStore_FindByPair. rewrite Hm.
    rewrite (bind_run_Err _ _ _ _ _ (fail_if_fail _ _ _ (eq_sym Hr))). by eexists.
  - destruct (normalizeProjectRole role) as [pr|] eqn:Hn.
    2:{ apply normalizeProjectRole_None in Hn. by rewrite decide_False in Hreq. }
    apply normalizeProjectRole_Some in Hn as [-> _]. erewrite bind_run by reflexivity.
    rewrite (bind_run _ _ _ _ _ (wrap_run _ _ _ _ _ _ (query_run _ _))).
    unfold pgProjectMembershipStore_FindByPair, when. rewrite Hm, (decide_False (P := role = ProjectRolePI)) by done.
    erewrite bind_run by reflexivity. erewrite bind_run_Err; [|by apply fail_if_fail]. by eexists.
Qed.

(** ** The theorems *)

(** C9: no sequence of requests gives a project two memberships with the role
    PI, merges of users included. *)
Theorem reachable_one_pi w0 w :
  integrity (w_db w0) → one_pi (w_db w0) → reachable w0 w → one_pi (w_db w).
Proof.
  intros HI H1 Hr. cut (integrity (w_db w) ∧ one_pi (w_db w)); [tauto|].
  induction Hr as [|w r w' _ [IH1 IH2] Hs]; [done|]. destruct Hs as [r]. split.
  - by apply serve_integrity.
  - by apply serve_one_pi.
Qed.

(** [EnsureProjectMembership] that succeeds leaves the user with exactly the
    role asked for (MEMBER and the blank role mean no row), and every other
    membership as it was. *)
Theorem ensure_membership_result p u role w w' :
  integrity (w_db w) → EnsureProjectMembership p u role w = (Ok tt, w') →
  requested role = Some (role_on (w_db w') p u) ∧
  ∀ q v, (q, v) ≠ (p, u) → t_project_memberships (w_db w') !! (q, v) = t_project_memberships (w_db w) !! (q, v).
Proof.
  intros HI H. apply EnsureProjectMembership_Ok in H as (ro & -> & _ & Hw); [|done]. unfold role_on.
  destruct ro as [pr|].
  - destruct Hw as (m & <- & -> & _). simpl. rewrite lookup_insert_eq. split; [done|].
    intros q v Hne. by rewrite lookup_insert_ne.
  - rewrite Hw. simpl. rewrite lookup_delete_eq. split; [done|]. intros q v Hne. by rewrite lookup_delete_ne.
Qed.

(** [EnsureProjectMembership] never takes the PI role from anyone, whatever
    it is called with and whether it succeeds or fails. *)
Theorem pi_never_demoted p u role q v w :
  integrity (w_db w) → role_on (w_db w) q v = Some ProjectRolePI →
  role_on (w_db (EnsureProjectMembership p u role w).2) q v = Some ProjectRolePI.
Proof.
  intros HI Hv.
  destruct (EnsureProjectMembership p u role w) as [[[]|e] w'] eqn:H; simpl; [by eapply EnsureProjectMembership_keeps_pi|].
  pose proof (serve_err_db (ReqEnsureProjectMembership p u role) w e w' eq_refl H) as [->|(w'' & H'' & ->)]; [done|].
  by eapply (EnsureProjectMembership_keeps_pi (E := fault_free E)).
Qed.

(** Without infrastructure faults a second PI is refused with ErrPIChange,
    and so is any other role for the PI; nothing changes. *)
Theorem pi_change_refused `{!NoFaults} p u role pi w :
  integrity (w_db w) → one_pi (w_db w) → p ≠ "" → u ≠ "" → role_on (w_db w) p pi = Some ProjectRolePI →
  (role = ProjectRolePI ∧ u ≠ pi) ∨ (role ≠ ProjectRolePI ∧ u = pi ∧ requested role ≠ None) →
  fails_with SPIChange (EnsureProjectMembership p u role w).1 ∧
  obs (EnsureProjectMembership p u role w).2 = obs w.
Proof.
  intros HI H1 Hp Hu Hpi Hcase.
  assert (fails_with SPIChange (EnsureProjectMembership p u role w).1) as Hf.
  { destruct Hcase as [[-> Hne]|(Hne & -> & Hreq)]; [by eapply second_pi_refused|by apply demotion_refused]. }
  split; [done|]. destruct Hf as (e & He & _).
  apply (serve_err_obs (ReqEnsureProjectMembership p u role) w e); [done|].
  by apply (run_result (EnsureProjectMembership p u role)).
Qed.
End governance.

(** ** Instances on concrete runs *)

(** alice becomes PI of the project. *)
Definition w_pi : World := run_requests env0 [ReqEnsureProjectMembership "proj" "alice" "PI"] w_setup.

Lemma w_pi_integrity : integrity (w_db w_pi).
Proof. apply run_requests_integrity, w_setup_integrity. Qed.

Lemma w_setup_one_pi : one_pi (w_db w_setup).
Proof.
  assert (t_project_memberships (w_db w_setup) = ∅) as He by (vm_compute; reflexivity).
  intros p u1 u2 m1 m2 H1. rewrite He in H1. destruct (lookup_empty_Some _ _ H1).
Qed.

Lemma w_pi_one_pi : one_pi (w_db w_pi).
Proof. apply (@serve_one_pi env0), w_setup_one_pi. apply w_setup_integrity. Qed.

Lemma w_pi_alice : role_on (w_db w_pi) "proj" "alice" = Some ProjectRolePI.
Proof. vm_compute. reflexivity. Qed.

#[local] Opaque w_pi.

Lemma reachable_one_pi_witness :
  one_pi (w_db (@serve env0 (ReqEnsureProjectMembership "proj" "bob" "PI") w_pi).2).
Proof.
  apply (@reachable_one_pi env0 w_pi); [apply w_pi_integrity|apply w_pi_one_pi|].
  eapply reachable_step; [apply reachable_init|apply step_serve].
Defined.

Lemma ensure_membership_result_witness :
  requested "CO_PI" = Some (role_on (w_db (@EnsureProjectMembership env0 "proj" "bob" "CO_PI" w_pi).2) "proj" "bob").
Proof.
  refine (proj1 (@ensure_membership_result env0 "proj" "bob" "CO_PI" w_pi _ w_pi_integrity _)).
  apply run_result. vm_compute. reflexivity.
Defined.

Lemma pi_never_demoted_witness :
  role_on (w_db (@EnsureProjectMembership env0 "proj" "alice" "MEMBER" w_pi).2) "proj" "alice" = Some ProjectRolePI.
Proof. exact (@pi_never_demoted env0 "proj" "alice" "MEMBER" "proj" "alice" w_pi w_pi_integrity w_pi_alice). Defined.

Lemma pi_change_refused_witness :
  fails_with SPIChange (@EnsureProjectMembership env0 "proj" "bob" "PI" w_pi).1.
Proof.
  refine (proj1 (@pi_change_refused env0 _ "proj" "bob" "PI" "alice" w_pi w_pi_integrity w_pi_one_pi _ _ w_pi_alice _));
    [discriminate..|]. left. split; [reflexivity|discriminate].
Defined.
