(* ===== verification/AllocationTheorems.v ===== *)
(** * Allocations: change requests, rates and lists

    What approving a change request records, which rate is in effect at a time,
    and what a page of a list holds. *)

From stdpp Require Import base gmap sets list strings sorting.
From Stdlib Require Import ZArith Lia.
From S2P Require Import Prelude GoError Models Schema Events IdentityCache Effects EffectsLogic.
From S2P Require Import StoreIdentity StoreProject StoreAllocation StoreMembership UserService AuthService.
From S2P Require Import ProjectService AllocationService ServiceApi Scenario ServiceTheorems.

(** A rate of the resource whose period contains the time. *)
Definition rate_at (d : DB) (res : string) (t : Time) (r : ComputeAllocationResourceRate) : Prop :=
  (∃ k, t_resource_rates d !! k = Some r) ∧ Rate_ComputeAllocationResourceID r = res ∧
  (Rate_StartTime r <= t)%Z ∧ (t < Rate_EndTime r)%Z.

(** The request moves to APPROVED. *)
Definition approves (old new : ComputeAllocationChangeRequest) : Prop :=
  ChangeRequest_ChangeStatus new = "APPROVED" ∧ ChangeRequest_ChangeStatus old ≠ "APPROVED".

(** ** Sorted results *)

Section sorted.
Context {A : Type} (key : A → Z).

#[local] Instance key_ge_trans : Transitive (λ a b, (key a >= key b)%Z).
Proof. intros a b c. lia. Qed.
#[local] Instance key_ge_total : base.Total (λ a b, (key a >= key b)%Z).
Proof. intros a b. lia. Qed.

Lemma order_by_desc_sorted l : StronglySorted (λ a b, (key a >= key b)%Z) (order_by key Z.ge l).
Proof. apply (StronglySorted_merge_sort (λ a b, (key a >= key b)%Z)). Qed.

(** The first row of a descending order has the greatest key. *)
Lemma head_order_by_desc l x :
  head (order_by key Z.ge l) = Some x → x ∈ l ∧ ∀ y, y ∈ l → (key y <= key x)%Z.
Proof.
  intros Hh. pose proof (order_by_desc_sorted l) as Hs. split.
  - apply (elem_of_order_by key Z.ge). by apply head_Some_elem.
  - intros y Hy. apply (elem_of_order_by key Z.ge) in Hy.
    destruct (order_by key Z.ge l) as [|z l']; [done|]. injection Hh as ->.
    apply elem_of_cons in Hy as [->|Hy]; [lia|]. apply StronglySorted_cons in Hs as [Hall _].
    rewrite Forall_forall in Hall. specialize (Hall y Hy). simpl in Hall. lia.
Qed.

Lemma head_order_by_None l : head (order_by key Z.ge l) = None → l = [].
Proof. intros Hn%head_None_nil. apply Permutation_nil. rewrite <- Hn. apply order_by_Permutation. Qed.

Lemma StronglySorted_sublist (R : relation A) l l' : sublist l l' → StronglySorted R l' → StronglySorted R l.
Proof.
  intros Hs. induction Hs as [|x l l' Hs IH|x l l' Hs IH]; intros HS; [constructor|..];
    apply StronglySorted_cons in HS as [Hall HS].
  - apply StronglySorted_cons. split; [|by apply IH].
    rewrite Forall_forall in *. intros y Hy. apply Hall. eapply elem_of_submseteq; [exact Hy|by apply sublist_submseteq].
  - by apply IH.
Qed.

Lemma page_sublist limit offset (l : list A) : sublist (page limit offset l) l.
Proof. unfold page. etrans; [apply sublist_take|apply sublist_drop]. Qed.
End sorted.

Section allocation.
Context `{E : Env}.

Lemma CreateComputeAllocationDiff_Ok x w y w' :
  CreateComputeAllocationDiff (Some x) w = (Ok y, w') →
  t_diffs (w_db w) !! Diff_ID y = None ∧ Diff_ComputeAllocationID y = Diff_ComputeAllocationID x ∧
  Diff_NewSUAmount y = Diff_NewSUAmount x ∧ Diff_DiffType y = Diff_DiffType x ∧ Diff_Status y = Diff_Status x ∧
  w_db w' = set_diffs (<[Diff_ID y := y]> (t_diffs (w_db w))) (w_db w) ∧
  w_bus w' = w_bus w ++ [mkEvent ComputeAllocationDiffCreateEvent (PComputeAllocationDiff y)].
Proof.
  intros H. unfold CreateComputeAllocationDiff, or_newID, or_now in H. run; simplify_eq;
    match goal with HS : _ = inr _ |- _ => stmt_inv HS end; done.
Qed.

(** The two transactions of an update. *)
Lemma UpdateChangeRequest_Ok c w c' w' :
  UpdateComputeAllocationChangeRequest (Some c) w = (Ok c', w') →
  ∃ old eid ev d1,
    t_change_requests (w_db w) !! ChangeRequest_ID c = Some old ∧ c' = merge_change_request c old ∧
    t_change_request_events (w_db w) !! eid = None ∧
    ChangeEvent_ComputeAllocationChangeRequestID ev = ChangeRequest_ID c ∧
    (ChangeEvent_EventType ev, ChangeEvent_Description ev) =
      change_event (ChangeRequest_ChangeStatus old) (ChangeRequest_ChangeStatus c') ∧
    d1 = set_change_request_events (<[eid := ev]> (t_change_request_events (w_db w)))
        (set_change_requests (<[ChangeRequest_ID c := c']> (t_change_requests (w_db w))) (w_db w)) ∧
    ((approves old c' ∧ ∃ x, t_diffs (w_db w) !! Diff_ID x = None ∧
        Diff_ComputeAllocationID x = ChangeRequest_ComputeAllocationID c' ∧
        Diff_NewSUAmount x = ChangeRequest_RequestedSUAmount c' ∧
        Diff_DiffType x = "CHANGE_REQUEST_APPROVED" ∧
        Diff_Status x = or_blank (ChangeRequest_RequestedStatus c') ACTIVE ∧
        w_db w' = set_diffs (<[Diff_ID x := x]> (t_diffs (w_db w))) d1 ∧
        w_bus w' = w_bus w ++ [mkEvent ComputeAllocationDiffCreateEvent (PComputeAllocationDiff x)])
     ∨ (¬ approves old c' ∧ w_db w' = d1 ∧ w_bus w' = w_bus w)).
Proof.
  intros H. unfold UpdateComputeAllocationChangeRequest in H.
  apply bind_Ok in H as (c0 & ? & [[= <-] ->]%deref_Ok & H).
  apply bind_Ok in H as (? & ? & [Hid ->]%fail_if_Ok & H).
  apply bind_Ok in H as (? & ? & [-> ->]%wrap_Ok%query_Ok & H).
  apply bind_Ok in H as (old & ? & [Hold ->]%deref_Ok & H).
  destruct (change_event _ _) as [et ed] eqn:Hev.
  apply bind_Ok in H as (? & w1 & Htx%wrap_Ok & H). run_step Htx. run.
  all: repeat match goal with HS : _ = inr _ |- _ => stmt_inv HS end; simpl in *;
    unfold pgComputeAllocationChangeRequestStore_FindByID in Hold; simpl in Hold; simplify_eq.
  all: exists old, (uuid (w_ids w)), (mkComputeAllocationChangeRequestEvent (uuid (w_ids w)) (ChangeRequest_ID c)
         et ed (clock (w_clock w))); eexists.
  all: split; [exact Hold|]; split; [reflexivity|]; split; [eassumption|].
  all: split; [reflexivity|]; split; [by rewrite Hev|]; split; [reflexivity|].
  - left. match goal with HC : CreateComputeAllocationDiff _ _ = _ |- _ =>
      apply CreateComputeAllocationDiff_Ok in HC as (? & ? & ? & ? & ? & ? & ?) end.
    split; [done|]. eexists. by split_and!.
  - right. done.
Qed.

(** C7: an update of a change request that succeeds stores the merged request
    and exactly one event, that names the transition; when the request moves to
    APPROVED it records exactly one diff, with the requested amount and status
    (ACTIVE when blank) on the request's allocation, and publishes it; otherwise
    it records no diff and publishes nothing. *)
Theorem change_request_updated c w c' w' :
  UpdateComputeAllocationChangeRequest (Some c) w = (Ok c', w') →
  ∃ old eid ev,
    t_change_requests (w_db w) !! ChangeRequest_ID c = Some old ∧ c' = merge_change_request c old ∧
    t_change_requests (w_db w') = <[ChangeRequest_ID c := c']> (t_change_requests (w_db w)) ∧
    t_change_request_events (w_db w) !! eid = None ∧
    t_change_request_events (w_db w') = <[eid := ev]> (t_change_request_events (w_db w)) ∧
    (ChangeEvent_EventType ev, ChangeEvent_Description ev) =
      change_event (ChangeRequest_ChangeStatus old) (ChangeRequest_ChangeStatus c') ∧
    (approves old c' → ∃ x, t_diffs (w_db w) !! Diff_ID x = None ∧
       t_diffs (w_db w') = <[Diff_ID x := x]> (t_diffs (w_db w)) ∧
       Diff_ComputeAllocationID x = ChangeRequest_ComputeAllocationID c' ∧
       Diff_NewSUAmount x = ChangeRequest_RequestedSUAmount c' ∧
       Diff_Status x = or_blank (ChangeRequest_RequestedStatus c') ACTIVE ∧
       w_bus w' = w_bus w ++ [mkEvent ComputeAllocationDiffCreateEvent (PComputeAllocationDiff x)]) ∧
    (¬ approves old c' → t_diffs (w_db w') = t_diffs (w_db w) ∧ w_bus w' = w_bus w).
Proof.
  intros (old & eid & ev & d1 & Hold & Hc & He & _ & Hev & Hd & Hcase)%UpdateChangeRequest_Ok.
  exists old, eid, ev. split; [done|]. split; [done|].
  destruct Hcase as [(Ha & x & ? & ? & ? & ? & ? & -> & ?)|(Hn & -> & ?)]; rewrite Hd; simpl.
  - split_and!; try done. intros _. exists x. done.
  - split_and!; done.
Qed.

(** Without infrastructure faults [GetEffectiveRateForResource] returns a
    rate of the resource whose period contains the time, one that started last;
    it reports ErrNotFound exactly when there is no such rate. *)
Theorem effective_rate_correct `{!NoFaults} res t w :
  res ≠ "" → t ≠ 0%Z →
  match (GetEffectiveRateForResource res t w).1 with
  | Ok r => rate_at (w_db w) res t r ∧
            ∀ r', rate_at (w_db w) res t r' → (Rate_StartTime r' <= Rate_StartTime r)%Z
  | Err e => errors_Is e SNotFound = true ∧ ∀ r', ¬ rate_at (w_db w) res t r'
  end.
Proof.
  intros Hres Ht. unfold GetEffectiveRateForResource, or_now.
  rewrite (bind_run _ _ _ _ _ (fail_if_run _ _ _ Hres)), decide_False by done.
  erewrite bind_run by reflexivity. rewrite (bind_run _ _ _ _ _ (wrap_run _ _ _ _ _ _ (query_run _ _))).
  assert (∀ r, rate_at (w_db w) res t r ↔ r ∈ select_rows (λ r, Rate_ComputeAllocationResourceID r = res ∧
    (Rate_StartTime r <= t)%Z ∧ (Rate_EndTime r > t)%Z) (t_resource_rates (w_db w))) as Hat.
  { intros r. rewrite elem_of_select_rows. unfold rate_at. split.
    - intros (? & ? & ? & ?). split_and!; [done|done|lia|done].
    - intros [(? & ? & ?) ?]. split_and!; [done|done|done|lia]. }
  unfold pgComputeAllocationResourceRateStore_FindEffective.
  destruct (head _) as [r|] eqn:Hh; simpl.
  - apply head_order_by_desc in Hh as [Hin Hmax]. rewrite Hat. split; [done|].
    intros r' Hr'. apply Hmax. by apply Hat.
  - apply head_order_by_None in Hh. split; [done|]. intros r' Hr'%Hat. rewrite Hh in Hr'.
    by apply not_elem_of_nil in Hr'.
Qed.

(** A page of projects holds at most 200 projects, all of them matching the
    filter, newest first, and comes with the number of all matching projects. *)
Theorem project_page f w ps n w' :
  ListProjects f w = (Ok (ps, n), w') →
  length ps ≤ 200 ∧ length ps ≤ n ∧ StronglySorted (λ p q, (Project_CreatedTime p >= Project_CreatedTime q)%Z) ps ∧
  n = length (select_rows (project_matches f) (t_projects (w_db w))) ∧
  ∀ p, p ∈ ps → project_matches f p ∧ ∃ k, t_projects (w_db w) !! k = Some p.
Proof.
  intros [[= -> ->] ->]%wrap_Ok%query_Ok. set (rows := select_rows (project_matches f) (t_projects (w_db w))).
  pose proof (page_sublist (PLF_Limit f) (PLF_Offset f) (order_by Project_CreatedTime Z.ge rows)) as Hs.
  split_and!.
  - apply length_page.
  - rewrite <- (Permutation_length (order_by_Permutation Project_CreatedTime Z.ge rows)). by apply sublist_length.
  - eapply StronglySorted_sublist; [exact Hs|apply order_by_desc_sorted].
  - done.
  - intros p Hp. apply (elem_of_select_rows (project_matches f)).
    apply (elem_of_order_by Project_CreatedTime Z.ge).
    eapply elem_of_submseteq; [exact Hp|by apply sublist_submseteq].
Qed.
End allocation.

(** ** Instances on concrete runs *)

Definition approved : ComputeAllocationChangeRequest := merge_change_request approve_request pending_request.

Lemma change_request_updated_witness :
  ∃ old eid ev,
    t_change_requests (w_db w_pending) !! "cr" = Some old ∧
    t_change_request_events (w_db (@UpdateComputeAllocationChangeRequest env0 (Some approve_request) w_pending).2)
      = <[eid := ev]> (t_change_request_events (w_db w_pending)) ∧
    ChangeEvent_EventType ev = "APPROVED".
Proof.
  destruct (t_change_requests (w_db w_pending) !! "cr") as [old|] eqn:Ho; [|vm_compute in Ho; discriminate Ho].
  destruct (@change_request_updated env0 approve_request w_pending (merge_change_request approve_request old)
    (@UpdateComputeAllocationChangeRequest env0 (Some approve_request) w_pending).2)
    as (old' & eid & ev & Ho' & _ & _ & _ & He & Hev & _).
  - apply run_result. vm_compute in Ho. injection Ho as <-. vm_compute. reflexivity.
  - exists old, eid, ev. split; [reflexivity|]. split; [exact He|].
    change (ChangeRequest_ID approve_request) with "cr" in Ho'. rewrite Ho in Ho'. injection Ho' as <-.
    vm_compute in Ho. injection Ho as <-. apply (f_equal fst) in Hev. exact Hev.
Defined.

(** A resource with two overlapping rates. *)
Definition w_rates : World :=
  run_requests env0
    [ReqCreateComputeAllocationResource (Some (mkComputeAllocationResource "cpu" "CPU" "CPU" 1 "delta"));
     ReqCreateComputeAllocationResourceRate (Some (mkComputeAllocationResourceRate "r1" "cpu" SpecFloat.S754_nan 10 100));
     ReqCreateComputeAllocationResourceRate (Some (mkComputeAllocationResourceRate "r2" "cpu" SpecFloat.S754_nan 50 100))]
    w_setup.
#[local] Opaque w_rates.

Lemma effective_rate_correct_witness :
  ∃ r, rate_at (w_db w_rates) "cpu" 60 r ∧ Rate_ID r = "r2" ∧
    ∀ r', rate_at (w_db w_rates) "cpu" 60 r' → (Rate_StartTime r' <= Rate_StartTime r)%Z.
Proof.
  assert ((@GetEffectiveRateForResource env0 "cpu" 60 w_rates).1
    = Ok (mkComputeAllocationResourceRate "r2" "cpu" SpecFloat.S754_nan 50 100)) as Hr by (vm_compute; reflexivity).
  pose proof (@effective_rate_correct env0 _ "cpu" 60 w_rates ltac:(discriminate) ltac:(discriminate)) as H.
  rewrite Hr in H. destruct H as [H1 H2]. eexists. split; [exact H1|]. split; [reflexivity|exact H2].
Defined.

Lemma project_page_witness :
  ∃ ps n, (@ListProjects env0 (mkProjectListFilter "" "" "ti" 500 0) w_setup).1 = Ok (ps, n) ∧ length ps ≤ 200.
Proof.
  destruct (@ListProjects env0 (mkProjectListFilter "" "" "ti" 500 0) w_setup) as [r w'] eqn:H.
  assert (∃ ps n, r = Ok (ps, n)) as (ps & n & ->).
  { pose proof (f_equal fst H) as Hr. vm_compute in Hr. subst r. eauto. }
  exists ps, n. split; [reflexivity|].
  exact (proj1 (@project_page env0 (mkProjectListFilter "" "" "ti" 500 0) w_setup ps n w' H)).
Defined.

(** An approval that repeats only the id and the new status erases the amount
    that was asked for: the diff records 0 SU. *)
Example minimal_approval_records_zero :
  let req := ReqUpdateComputeAllocationChangeRequest
    (Some (mkComputeAllocationChangeRequest "cr" "" 0 "" "" "APPROVED" "" "bob" 0)) in
  (ChangeRequest_RequestedSUAmount <$> t_change_requests (w_db w_pending) !! "cr") = Some 500%Z ∧
  ((λ x, (Diff_NewSUAmount x, Diff_Status x)) <$> all_rows (t_diffs (w_db (@serve env0 req w_pending).2)))
    = [(0%Z, "ACTIVE")].
Proof. split; vm_compute; reflexivity. Qed.
