(* ===== verification/IdentityTheorems.v ===== *)
(** * Users, cluster accounts and role listings

    When a user can be created, how a taken username is reported, and what the
    listing of a user's roles groups together. *)

From stdpp Require Import base gmap sets list strings.
From Stdlib Require Import ZArith Lia.
From S2P Require Import Prelude GoError Models Schema Events IdentityCache Effects EffectsLogic.
From S2P Require Import StoreIdentity StoreCluster StoreAuth UserService AuthService ProjectService ServiceApi Scenario.

(** The record [CreateUser] stores for a user with an id. *)
Definition filled_user (u : User) : User :=
  mkUser (User_ID u) (User_OrganizationID u) (User_FirstName u) (User_LastName u) (User_MiddleName u)
    (User_Email u) (or_blank (User_Status u) UserPending) (or_blank (User_Type u) UserTypeClusterLocal).

(** Some user has the email, up to case. *)
Definition email_taken (d : DB) (email : string) : Prop :=
  ∃ k x, t_users d !! k = Some x ∧ lower (User_Email x) = lower email.

(** Everything a new user needs. *)
Definition creatable (d : DB) (u : User) : Prop :=
  User_Email u ≠ "" ∧ User_OrganizationID u ≠ "" ∧ is_Some (t_organizations d !! User_OrganizationID u) ∧
  ¬ email_taken d (User_Email u) ∧ t_users d !! User_ID u = None ∧ user_fits (filled_user u).

(** The roles of a user with what each carries, one entry per assignment. *)
Definition role_details (userID : string) (d : DB) : list UserRoleDetail :=
  ur ← order_by (λ ur, from_option Role_Name "" (t_roles d !! UserRole_RoleID ur)) String.le
         (select_rows (λ ur, UserRole_UserID ur = userID ∧ is_Some (t_roles d !! UserRole_RoleID ur))
            (t_user_roles d));
  match t_roles d !! UserRole_RoleID ur with
  | None => []
  | Some r => [mkUserRoleDetail r (pgRoleStore_ListPrivileges (Role_ID r) d) (UserRole_GrantedAt ur)]
  end.

(** The joined rows, and the entry, of one assignment. *)
Definition rows_of (d : DB) (ur : UserRole) : list role_detail_row :=
  match t_roles d !! UserRole_RoleID ur with
  | None => []
  | Some r =>
      match pgRoleStore_ListPrivileges (Role_ID r) d with
      | [] => [mkRoleDetailRow r (UserRole_GrantedAt ur) None]
      | ps => (λ p, mkRoleDetailRow r (UserRole_GrantedAt ur) (Some p)) <$> ps
      end
  end.

Definition detail_of (d : DB) (ur : UserRole) : list UserRoleDetail :=
  match t_roles d !! UserRole_RoleID ur with
  | None => []
  | Some r => [mkUserRoleDetail r (pgRoleStore_ListPrivileges (Role_ID r) d) (UserRole_GrantedAt ur)]
  end.

Section users.
Context `{E : Env}.

Lemma FindByEmail_taken email d : pgUserStore_FindByEmail email d ≠ None ↔ email_taken d email.
Proof.
  unfold pgUserStore_FindByEmail. split.
  - intros [x Hx]%not_eq_None_Some. apply select_one_Some in Hx as [? [k ?]]. by exists k, x.
  - intros (k & x & Hk & Hx) Hn. rewrite select_one_None in Hn. by eapply Hn.
Qed.

(** A user that can be created is, with the defaults filled in. *)
Lemma CreateUser_runs `{!NoFaults} u w :
  User_ID u ≠ "" → creatable (w_db w) u →
  ∃ w', CreateUser (Some u) w = (Ok (filled_user u), w') ∧
    w_db w' = set_users (<[User_ID u := filled_user u]> (t_users (w_db w))) (w_db w).
Proof.
  intros Hid (He & Ho & Horg & Hem & Hfree & Hfits). unfold CreateUser, or_newID.
  rewrite (bind_run _ _ _ u w) by done.
  rewrite (bind_run _ _ _ _ _ (fail_if_run _ _ _ He)), (bind_run _ _ _ _ _ (fail_if_run _ _ _ Ho)).
  rewrite (bind_run _ _ _ _ _ (wrap_run _ _ _ _ _ _ (query_run _ _))).
  rewrite (bind_run _ _ _ _ _ (fail_if_run _ _ _ (proj1 (is_Some_not_None _) Horg))).
  rewrite (bind_run _ _ _ _ _ (wrap_run _ _ _ _ _ _ (query_run _ _))).
  erewrite bind_run by (apply fail_if_run; rewrite FindByEmail_taken; exact Hem).
  rewrite decide_False by done. erewrite bind_run by reflexivity. cbv zeta.
  erewrite bind_run; [eexists; split; [reflexivity|]|]; [|apply wrap_run; rewrite inTx_run, exec_run
    with (d := set_users (<[User_ID u := filled_user u]> (t_users (w_db w))) (w_db w)); [reflexivity|]]; [reflexivity|].
  simpl. unfold pgUserStore_Create. simpl. rewrite !decide_True; try done.
  intros k x Hk Hne. right. simpl. intros [= Hx]. apply Hem. by exists k, x.
Qed.

(** Without infrastructure faults [CreateUser] of a user with an id
    succeeds exactly when the email and the organization are given, the
    organization exists, no user has the email up to case, the id is free and
    every field fits its column; it then returns the user with the defaults
    filled in, and adds exactly that row to the database. *)
Theorem create_user_iff `{!NoFaults} u w :
  User_ID u ≠ "" →
  (∀ v, (CreateUser (Some u) w).1 = Ok v ↔ creatable (w_db w) u ∧ v = filled_user u) ∧
  (creatable (w_db w) u →
   w_db (CreateUser (Some u) w).2 = set_users (<[User_ID u := filled_user u]> (t_users (w_db w))) (w_db w)).
Proof.
  intros Hid. split; [|by intros (w' & -> & ?)%CreateUser_runs]. intros v. split.
  - intros Hv. enough (creatable (w_db w) u) as Hc.
    { split; [done|]. destruct (CreateUser_runs u w Hid Hc) as (w' & Hr & _). rewrite Hr in Hv. by injection Hv. }
    apply run_result in Hv. unfold CreateUser, or_newID in Hv.
    run; simplify_eq. match goal with HS : _ = inr _ |- _ => unfold pgUserStore_Create in HS; simpl in HS end.
    repeat case_decide; simplify_eq.
    unfold pgOrganizationStore_FindByID in *.
    split_and!; try done. by rewrite <- FindByEmail_taken.
  - intros [Hc ->]. by destruct (CreateUser_runs u w Hid Hc) as (w' & -> & _).
Qed.

(** A second user with the same email, whatever its case, is refused with
    ErrAlreadyExists, and nothing changes. *)
Theorem duplicate_email_refused `{!NoFaults} u w :
  User_Email u ≠ "" → User_OrganizationID u ≠ "" → is_Some (t_organizations (w_db w) !! User_OrganizationID u) →
  email_taken (w_db w) (User_Email u) →
  fails_with SAlreadyExists (CreateUser (Some u) w).1 ∧ obs (CreateUser (Some u) w).2 = obs w.
Proof.
  intros He Ho Horg Hem. unfold CreateUser.
  rewrite (bind_run _ _ _ u w) by done.
  rewrite (bind_run _ _ _ _ _ (fail_if_run _ _ _ He)), (bind_run _ _ _ _ _ (fail_if_run _ _ _ Ho)).
  rewrite (bind_run _ _ _ _ _ (wrap_run _ _ _ _ _ _ (query_run _ _))).
  rewrite (bind_run _ _ _ _ _ (fail_if_run _ _ _ (proj1 (is_Some_not_None _) Horg))).
  rewrite (bind_run _ _ _ _ _ (wrap_run _ _ _ _ _ _ (query_run _ _))).
  erewrite bind_run_Err by (apply fail_if_fail; rewrite FindByEmail_taken; exact Hem).
  split; [by eexists|done].
Qed.
End users.

(** ** The listing of a user's roles *)

Lemma alter_last {A} (f : A → A) (l : list A) x : alter f (length l) (l ++ [x]) = l ++ [f x].
Proof. induction l as [|y l IH]; simpl; [done|]. by f_equal. Qed.

(** The rows of one role are added to its entry. *)
Lemma group_rows_one r g ps rest out index acc :
  index !! Role_ID r = Some (length out) →
  group_rows (((λ p, mkRoleDetailRow r g (Some p)) <$> ps) ++ rest) (out ++ [mkUserRoleDetail r acc g]) index
  = group_rows rest (out ++ [mkUserRoleDetail r (acc ++ ps) g]) index.
Proof.
  intros Hi. revert acc. induction ps as [|p ps IH]; intros acc; simpl.
  { by rewrite app_nil_r. }
  rewrite Hi, alter_last. simpl. rewrite IH. by rewrite <- app_assoc.
Qed.

(** One role that is not in the index yet gets an entry with all its keys. *)
Lemma group_rows_role d ur r rest out index :
  t_roles d !! UserRole_RoleID ur = Some r → index !! Role_ID r = None →
  group_rows (rows_of d ur ++ rest) out index
  = group_rows rest (out ++ [mkUserRoleDetail r (pgRoleStore_ListPrivileges (Role_ID r) d) (UserRole_GrantedAt ur)])
      (<[Role_ID r := length out]> index).
Proof.
  intros Hr Hi. unfold rows_of. rewrite Hr.
  destruct (pgRoleStore_ListPrivileges (Role_ID r) d) as [|p ps]; simpl; rewrite Hi; [done|].
  rewrite alter_last. simpl. rewrite group_rows_one; [done|]. by rewrite lookup_insert_eq.
Qed.

Lemma group_rows_all d urs out index :
  integrity d → Forall (λ ur, is_Some (t_roles d !! UserRole_RoleID ur)) urs → NoDup (UserRole_RoleID <$> urs) →
  Forall (λ ur, index !! UserRole_RoleID ur = None) urs →
  group_rows (urs ≫= rows_of d) out index = out ++ (urs ≫= detail_of d).
Proof.
  intros HI. revert out index. induction urs as [|ur urs IH]; intros out index Hr Hnd Hi; simpl.
  { by rewrite app_nil_r. }
  apply Forall_cons in Hr as [[r Hr] Hrs]. apply Forall_cons in Hi as [Hi His].
  rewrite fmap_cons in Hnd. apply NoDup_cons in Hnd as [Hn Hnd].
  pose proof (pk_roles _ HI _ _ Hr) as Hid. cbv beta in Hid.
  rewrite (group_rows_role d ur r) by (done || by rewrite Hid).
  rewrite IH; [|done|done|].
  - rewrite <- app_assoc. unfold detail_of at 2. by rewrite Hr.
  - rewrite Forall_forall in His |- *. intros ur' Hur'. rewrite lookup_insert_ne; [by apply His|].
    rewrite Hid. intros He. apply Hn. rewrite He. by apply list_elem_of_fmap_2.
Qed.

Lemma user_roles_NoDup d u (P : UserRole → Prop) `{!∀ x, Decision (P x)} :
  integrity d → (∀ ur, P ur → UserRole_UserID ur = u) →
  NoDup (UserRole_RoleID <$> select_rows P (t_user_roles d)).
Proof.
  intros HI HP. unfold select_rows. set (l := map_to_list (t_user_roles d)).
  assert (NoDup l.*1) as Hnd by apply NoDup_fst_map_to_list.
  assert (∀ kr, kr ∈ l → kr.1 = UserRole_pk kr.2) as Hpk.
  { intros [k r] Hkr%elem_of_map_to_list. symmetry. by apply (pk_user_roles _ HI). }
  clearbody l. induction l as [|[k r] l IH]; [constructor|].
  rewrite fmap_cons in *. simpl in Hnd. apply NoDup_cons in Hnd as [Hn Hnd].
  assert (NoDup (UserRole_RoleID <$> filter P l.*2)) as IH'.
  { apply IH; [done|]. intros kr Hkr. apply Hpk. by right. }
  rewrite filter_cons. simpl. case_decide as Hr; [|done]. rewrite fmap_cons. apply NoDup_cons. split; [|done].
  intros (r' & He & [Hr' Hin]%list_elem_of_filter)%list_elem_of_fmap. apply Hn.
  apply list_elem_of_fmap in Hin as ([k' r''] & -> & Hin). apply list_elem_of_fmap. exists (k', r''). split; [|done].
  pose proof (Hpk (k', r'') ltac:(by right)) as Hk'. pose proof (Hpk (k, r) ltac:(by left)) as Hk. simpl in *.
  rewrite Hk, Hk'. unfold UserRole_pk. rewrite He, (HP r Hr), (HP r'' Hr'). done.
Qed.

(** The one-pass grouping of the joined rows (an index from role id to
    position, keys appended to the entry) yields one entry per role of the
    user, in the order of the query, each with exactly the keys the role
    carries. *)
Theorem role_listing_correct u d :
  integrity d → pgUserRoleStore_ListDetailedByUser u d = role_details u d.
Proof.
  intros HI. unfold pgUserRoleStore_ListDetailedByUser, role_detail_rows, role_details.
  set (urs := order_by _ _ _).
  assert (urs ≡ₚ select_rows (λ ur, UserRole_UserID ur = u ∧ is_Some (t_roles d !! UserRole_RoleID ur)) (t_user_roles d))
    as Hperm by apply order_by_Permutation.
  apply (group_rows_all d urs [] ∅ HI).
  - rewrite Hperm. apply Forall_forall. intros ur [[_ ?] _]%elem_of_select_rows. done.
  - rewrite Hperm. by apply (user_roles_NoDup _ u); [|intros ? [? _]].
  - apply Forall_forall. intros. apply lookup_empty.
Qed.

Section cluster_users.
Context `{E : Env}.

(** Without infrastructure faults a local username that is taken on the
    cluster is reported as ErrAlreadyExists, from the name of the constraint the
    INSERT violates, and nothing is stored. *)
Theorem taken_username_refused `{!NoFaults} cu w k x :
  ComputeClusterUser_ID cu ≠ "" → ComputeClusterUser_ComputeClusterID cu ≠ "" → ComputeClusterUser_UserID cu ≠ "" →
  ComputeClusterUser_LocalUsername cu ≠ "" → cluster_user_fits cu →
  is_Some (t_compute_clusters (w_db w) !! ComputeClusterUser_ComputeClusterID cu) →
  is_Some (t_users (w_db w) !! ComputeClusterUser_UserID cu) →
  t_compute_cluster_users (w_db w) !! ComputeClusterUser_ID cu = None →
  t_compute_cluster_users (w_db w) !! k = Some x →
  ComputeClusterUser_ComputeClusterID x = ComputeClusterUser_ComputeClusterID cu →
  ComputeClusterUser_LocalUsername x = ComputeClusterUser_LocalUsername cu →
  fails_with SAlreadyExists (CreateComputeClusterUser (Some cu) w).1 ∧
  obs (CreateComputeClusterUser (Some cu) w).2 = obs w.
Proof.
  intros Hid Hc Hu Hl Hfits Hcl Hus Hfree Hk Hxc Hxl.
  assert (fails_with SAlreadyExists (CreateComputeClusterUser (Some cu) w).1) as Hf.
  2:{ split; [done|]. destruct Hf as (e & He & _).
      apply (serve_err_obs (ReqCreateComputeClusterUser (Some cu)) w e); [done|].
      unfold serve, ignore. apply run_result in He. by rewrite (bind_run_Err _ _ _ _ _ He). }
  unfold CreateComputeClusterUser, or_newID. rewrite (bind_run _ _ _ cu w) by done.
  rewrite (bind_run _ _ _ _ _ (fail_if_run _ _ _ Hc)), (bind_run _ _ _ _ _ (fail_if_run _ _ _ Hu)),
    (bind_run _ _ _ _ _ (fail_if_run _ _ _ Hl)), decide_False by done.
  erewrite bind_run by reflexivity.
  rewrite (bind_run _ _ _ _ _ (wrap_run _ _ _ _ _ _ (query_run _ _))).
  rewrite (bind_run _ _ _ _ _ (fail_if_run _ _ _ (proj1 (is_Some_not_None _) Hcl))).
  rewrite (bind_run _ _ _ _ _ (wrap_run _ _ _ _ _ _ (query_run _ _))).
  rewrite (bind_run _ _ _ _ _ (fail_if_run _ _ _ (proj1 (is_Some_not_None _) Hus))).
  rewrite (bind_run _ _ _ _ _ (wrap_run _ _ _ _ _ _ (query_run _ _))). simpl.
  destruct (decide (pgComputeClusterUserStore_FindByPair (ComputeClusterUser_ComputeClusterID cu)
    (ComputeClusterUser_UserID cu) (w_db w) ≠ None)) as [Hp|Hp].
  { rewrite (bind_run_Err _ _ _ _ _ (fail_if_fail _ _ _ Hp)). by eexists. }
  rewrite (bind_run _ _ _ _ _ (fail_if_run _ _ _ Hp)).
  set (w1 := bump_stmt (bump_stmt (bump_stmt w))).
  assert (pgComputeClusterUserStore_Create (with_cluster_user_id (ComputeClusterUser_ID cu) cu) (w_db w)
    = inl (UniqueViolation "uq_compute_cluster_users_local_username")) as Hins.
  { unfold pgComputeClusterUserStore_Create. simpl. rewrite decide_True by done. rewrite decide_True by done.
    rewrite decide_True; [rewrite decide_False; [done|]|].
    - intros Hfr. destruct (Hfr _ _ Hk) as [?|Hne]; [congruence|done|]. apply Hne.
      unfold uq_compute_cluster_users_local_username. simpl. congruence.
    - intros k' x' Hk' _. right. unfold uq_compute_cluster_users_pair. simpl. intros [= E1 E2].
      apply Hp. unfold pgComputeClusterUserStore_FindByPair. intros Hn. rewrite select_one_None in Hn. by eapply Hn. }
  assert (∃ w2, inTx (exec (pgComputeClusterUserStore_Create (with_cluster_user_id (ComputeClusterUser_ID cu) cu))) w1
    = (Err (DbError (UniqueViolation "uq_compute_cluster_users_local_username")), w2)) as [w2 Hw2].
  { eexists. rewrite inTx_run, exec_fail with (e := UniqueViolation "uq_compute_cluster_users_local_username");
      [reflexivity|exact Hins]. }
  erewrite bind_run_Err; [|unfold map_err; rewrite Hw2; reflexivity]. by eexists.
Qed.
End cluster_users.

(** ** Instances on concrete runs *)

Definition dave : User := mkUser "dave" "org" "Dave" "D" "" "dave@example.org" "" "".

Lemma create_user_iff_witness :
  creatable (w_db w_setup) dave ∧
  t_users (w_db (@CreateUser env0 (Some dave) w_setup).2) = <["dave" := filled_user dave]> (t_users (w_db w_setup)).
Proof.
  destruct (@create_user_iff env0 _ dave w_setup) as [Hiff Hdb]; [discriminate|].
  assert (creatable (w_db w_setup) dave) as Hc by (apply (Hiff (filled_user dave)); vm_compute; reflexivity).
  split; [exact Hc|]. exact (f_equal t_users (Hdb Hc)).
Defined.

Lemma duplicate_email_refused_witness :
  fails_with SAlreadyExists
    (@CreateUser env0 (Some (mkUser "" "org" "" "" "" "ALICE@example.org" "" "")) w_setup).1.
Proof.
  refine (proj1 (@duplicate_email_refused env0 _ (mkUser "" "org" "" "" "" "ALICE@example.org" "" "") w_setup _ _ _ _));
    [discriminate|discriminate|vm_compute; by eexists|].
  exists "alice". eexists. split; vm_compute; reflexivity.
Defined.

Lemma role_listing_correct_witness :
  pgUserRoleStore_ListDetailedByUser root_id (w_db w_setup) = role_details root_id (w_db w_setup).
Proof. exact (role_listing_correct root_id (w_db w_setup) w_setup_integrity). Defined.

(** alice has the username "al" on the cluster; bob asks for it. *)
Definition w_al : World :=
  run_requests env0 [ReqCreateComputeClusterUser (Some (mkComputeClusterUser "cu1" "delta" "alice" "al" None))] w_setup.
#[local] Opaque w_al.
Definition bob_al : ComputeClusterUser := mkComputeClusterUser "cu2" "delta" "bob" "al" None.

Lemma taken_username_refused_witness :
  fails_with SAlreadyExists (@CreateComputeClusterUser env0 (Some bob_al) w_al).1.
Proof.
  refine (proj1 (@taken_username_refused env0 _ bob_al w_al "cu1"
    (mkComputeClusterUser "cu1" "delta" "alice" "al" None) _ _ _ _ _ _ _ _ _ _ _)); try discriminate.
  - refine (bool_decide_unpack _ _). vm_compute. exact I.
  - vm_compute. by eexists.
  - vm_compute. by eexists.
  - vm_compute. reflexivity.
  - vm_compute. reflexivity.
  - reflexivity.
  - reflexivity.
Defined.
