(* ===== verification/EventBus.v ===== *)
(** * The event bus

    pkg/events: the topic-based bus, asynchronous and synchronous dispatch, and
    the typed subscriptions. A handler is a function from an event to what it
    does, a list of actions of an arbitrary type, and whether it panics in the
    end. [Publish] starts one goroutine per handler; a goroutine is the list of
    actions it has left, and the scheduler interleaves them freely. The payload
    is the value it had when it was published: the code passes a pointer, so
    that holds as long as nobody writes through it afterwards. Tracing spans
    and log lines are left out. *)

From stdpp Require Import base gmap list strings.
From S2P Require Import Prelude Models Schema Events Effects EffectsLogic.
From S2P Require Import ServiceApi Scenario ServiceTheorems.

(** A value of type [any] on the bus: a struct of pkg/models, a pointer to one,
    a nil pointer to one, or something else. *)
Inductive any :=
  | VStruct (p : Payload)
  | VPtr (p : Payload)
  | VNil
  | VOther.

(** [events.Event] as a handler receives it. *)
Record BusEvent := mkBusEvent { BusEvent_Type : EventType; BusEvent_Payload : any }.

Section bus.
Context {Act : Type}.

(** [EventSubscriberFunc]: the actions, and whether it panics after them. *)
Definition EventSubscriberFunc : Type := BusEvent → any → list Act * bool.

(** [Bus]: the handlers of each topic, in order of registration. *)
Definition Bus : Type := gmap string (list EventSubscriberFunc).

Definition New : Bus := ∅.

(** [b.subs[topic]]: nil for an unknown topic. *)
Definition handlers (b : Bus) (topic : EventType) : list EventSubscriberFunc :=
  default [] (b !! topic).

Definition Subscribe (topic : EventType) (handler : EventSubscriberFunc) (b : Bus) : Bus :=
  <[topic := handlers b topic ++ [handler]]> b.

(** A panic is recovered: the goroutine ends, nothing else notices. *)
Definition safeDispatch (h : EventSubscriberFunc) (event : BusEvent) (payload : any) : list Act :=
  (h event payload).1.

(** The goroutines [Publish] starts. *)
Definition Publish (topic : EventType) (payload : any) (b : Bus) : list (list Act) :=
  (λ h, safeDispatch h (mkBusEvent topic payload) payload) <$> handlers b topic.

(** The panic is raised again. *)
Definition dispatchSync (h : EventSubscriberFunc) (event : BusEvent) (payload : any) : list Act * bool :=
  h event payload.

(** The loop of [PublishSync]: it stops at the first panic. *)
Fixpoint publishSyncLoop (hs : list EventSubscriberFunc) (event : BusEvent) (payload : any) : list Act * bool :=
  match hs with
  | [] => ([], false)
  | h :: hs' =>
      let '(acts, panic) := dispatchSync h event payload in
      if panic then (acts, true)
      else let '(acts', panic') := publishSyncLoop hs' event payload in (acts ++ acts', panic')
  end.

Definition PublishSync (topic : EventType) (payload : any) (b : Bus) : list Act * bool :=
  publishSyncLoop (handlers b topic) (mkBusEvent topic payload) payload.

(** ** Typed subscriptions *)

(** [UserHandler] and the like: a handler of one type of payload. *)
Definition Handler (T : Type) : Type := T → list Act * bool.

(** The type switch of the typed subscriptions: [sel] recognises the struct;
    any other payload, and a nil pointer, is dropped. *)
Definition type_switch {T} (sel : Payload → option T) (handler : Handler T) :
    EventSubscriberFunc :=
  λ _ value,
    match value with
    | VStruct p | VPtr p => match sel p with Some x => handler x | None => ([], false) end
    | VNil | VOther => ([], false)
    end.

Definition asUser (p : Payload) :
    option User :=
  match p with PUser x => Some x | _ => None end.
Definition subscribeUser (topic : EventType)
    (handler : Handler User) : Bus → Bus :=
  Subscribe topic (type_switch asUser handler).
Definition SubscribeUserCreated
    (handler : Handler User) : Bus → Bus :=
  subscribeUser UserCreateEvent handler.
Definition SubscribeUserUpdated
    (handler : Handler User) : Bus → Bus :=
  subscribeUser UserUpdateEvent handler.
Definition SubscribeUserDeleted
    (handler : Handler User) : Bus → Bus :=
  subscribeUser UserDeleteEvent handler.

Definition asUserIdentity (p : Payload) :
    option UserIdentity :=
  match p with PUserIdentity x => Some x | _ => None end.
Definition subscribeUserIdentity (topic : EventType)
    (handler : Handler UserIdentity) : Bus → Bus :=
  Subscribe topic (type_switch asUserIdentity handler).
Definition SubscribeUserIdentityCreated
    (handler : Handler UserIdentity) : Bus → Bus :=
  subscribeUserIdentity UserIdentityCreateEvent handler.
Definition SubscribeUserIdentityUpdated
    (handler : Handler UserIdentity) : Bus → Bus :=
  subscribeUserIdentity UserIdentityUpdateEvent handler.
Definition SubscribeUserIdentityDeleted
    (handler : Handler UserIdentity) : Bus → Bus :=
  subscribeUserIdentity UserIdentityDeleteEvent handler.

Definition asOrganization (p : Payload) :
    option Organization :=
  match p with POrganization x => Some x | _ => None end.
Definition subscribeOrganization (topic : EventType)
    (handler : Handler Organization) : Bus → Bus :=
  Subscribe topic (type_switch asOrganization handler).
Definition SubscribeOrganizationCreated
    (handler : Handler Organization) : Bus → Bus :=
  subscribeOrganization OrganizationCreateEvent handler.
Definition SubscribeOrganizationUpdated
    (handler : Handler Organization) : Bus → Bus :=
  subscribeOrganization OrganizationUpdateEvent handler.
Definition SubscribeOrganizationDeleted
    (handler : Handler Organization) : Bus → Bus :=
  subscribeOrganization OrganizationDeleteEvent handler.

Definition asProject (p : Payload) :
    option Project :=
  match p with PProject x => Some x | _ => None end.
Definition subscribeProject (topic : EventType)
    (handler : Handler Project) : Bus → Bus :=
  Subscribe topic (type_switch asProject handler).
Definition SubscribeProjectCreated
    (handler : Handler Project) : Bus → Bus :=
  subscribeProject ProjectCreateEvent handler.
Definition SubscribeProjectUpdated
    (handler : Handler Project) : Bus → Bus :=
  subscribeProject ProjectUpdateEvent handler.
Definition SubscribeProjectDeleted
    (handler : Handler Project) : Bus → Bus :=
  subscribeProject ProjectDeleteEvent handler.

Definition asComputeClusterUser (p : Payload) :
    option ComputeClusterUser :=
  match p with PComputeClusterUser x => Some x | _ => None end.
Definition subscribeComputeClusterUser (topic : EventType)
    (handler : Handler ComputeClusterUser) : Bus → Bus :=
  Subscribe topic (type_switch asComputeClusterUser handler).
Definition SubscribeComputeClusterUserCreated
    (handler : Handler ComputeClusterUser) : Bus → Bus :=
  subscribeComputeClusterUser ComputeClusterUserCreateEvent handler.
Definition SubscribeComputeClusterUserUpdated
    (handler : Handler ComputeClusterUser) : Bus → Bus :=
  subscribeComputeClusterUser ComputeClusterUserUpdateEvent handler.
Definition SubscribeComputeClusterUserDeleted
    (handler : Handler ComputeClusterUser) : Bus → Bus :=
  subscribeComputeClusterUser ComputeClusterUserDeleteEvent handler.

Definition asComputeAllocation (p : Payload) :
    option ComputeAllocation :=
  match p with PComputeAllocation x => Some x | _ => None end.
Definition subscribeComputeAllocation (topic : EventType)
    (handler : Handler ComputeAllocation) : Bus → Bus :=
  Subscribe topic (type_switch asComputeAllocation handler).
Definition SubscribeComputeAllocationCreated
    (handler : Handler ComputeAllocation) : Bus → Bus :=
  subscribeComputeAllocation ComputeAllocationCreateEvent handler.
Definition SubscribeComputeAllocationUpdated
    (handler : Handler ComputeAllocation) : Bus → Bus :=
  subscribeComputeAllocation ComputeAllocationUpdateEvent handler.
Definition SubscribeComputeAllocationDeleted
    (handler : Handler ComputeAllocation) : Bus → Bus :=
  subscribeComputeAllocation ComputeAllocationDeleteEvent handler.

Definition asComputeAllocationDiff (p : Payload) :
    option ComputeAllocationDiff :=
  match p with PComputeAllocationDiff x => Some x | _ => None end.
Definition subscribeComputeAllocationDiff (topic : EventType)
    (handler : Handler ComputeAllocationDiff) : Bus → Bus :=
  Subscribe topic (type_switch asComputeAllocationDiff handler).
Definition SubscribeComputeAllocationDiffCreated
    (handler : Handler ComputeAllocationDiff) : Bus → Bus :=
  subscribeComputeAllocationDiff ComputeAllocationDiffCreateEvent handler.
Definition SubscribeComputeAllocationDiffUpdated
    (handler : Handler ComputeAllocationDiff) : Bus → Bus :=
  subscribeComputeAllocationDiff ComputeAllocationDiffUpdateEvent handler.
Definition SubscribeComputeAllocationDiffDeleted
    (handler : Handler ComputeAllocationDiff) : Bus → Bus :=
  subscribeComputeAllocationDiff ComputeAllocationDiffDeleteEvent handler.

Definition asComputeAllocationResource (p : Payload) :
    option ComputeAllocationResource :=
  match p with PComputeAllocationResource x => Some x | _ => None end.
Definition subscribeComputeAllocationResource (topic : EventType)
    (handler : Handler ComputeAllocationResource) : Bus → Bus :=
  Subscribe topic (type_switch asComputeAllocationResource handler).
Definition SubscribeComputeAllocationResourceCreated
    (handler : Handler ComputeAllocationResource) : Bus → Bus :=
  subscribeComputeAllocationResource ComputeAllocationResourceCreateEvent handler.
Definition SubscribeComputeAllocationResourceUpdated
    (handler : Handler ComputeAllocationResource) : Bus → Bus :=
  subscribeComputeAllocationResource ComputeAllocationResourceUpdateEvent handler.
Definition SubscribeComputeAllocationResourceDeleted
    (handler : Handler ComputeAllocationResource) : Bus → Bus :=
  subscribeComputeAllocationResource ComputeAllocationResourceDeleteEvent handler.

Definition asComputeAllocationResourceMapping (p : Payload) :
    option ComputeAllocationResourceMapping :=
  match p with PComputeAllocationResourceMapping x => Some x | _ => None end.
Definition subscribeComputeAllocationResourceMapping (topic : EventType)
    (handler : Handler ComputeAllocationResourceMapping) : Bus → Bus :=
  Subscribe topic (type_switch asComputeAllocationResourceMapping handler).
Definition SubscribeComputeAllocationResourceMappingCreated
    (handler : Handler ComputeAllocationResourceMapping) : Bus → Bus :=
  subscribeComputeAllocationResourceMapping ComputeAllocationResourceMappingCreateEvent handler.
Definition SubscribeComputeAllocationResourceMappingUpdated
    (handler : Handler ComputeAllocationResourceMapping) : Bus → Bus :=
  subscribeComputeAllocationResourceMapping ComputeAllocationResourceMappingUpdateEvent handler.
Definition SubscribeComputeAllocationResourceMappingDeleted
    (handler : Handler ComputeAllocationResourceMapping) : Bus → Bus :=
  subscribeComputeAllocationResourceMapping ComputeAllocationResourceMappingDeleteEvent handler.

Definition asComputeAllocationMembership (p : Payload) :
    option ComputeAllocationMembership :=
  match p with PComputeAllocationMembership x => Some x | _ => None end.
Definition subscribeComputeAllocationMembership (topic : EventType)
    (handler : Handler ComputeAllocationMembership) : Bus → Bus :=
  Subscribe topic (type_switch asComputeAllocationMembership handler).
Definition SubscribeComputeAllocationMembershipCreated
    (handler : Handler ComputeAllocationMembership) : Bus → Bus :=
  subscribeComputeAllocationMembership ComputeAllocationMembershipCreateEvent handler.
Definition SubscribeComputeAllocationMembershipUpdated
    (handler : Handler ComputeAllocationMembership) : Bus → Bus :=
  subscribeComputeAllocationMembership ComputeAllocationMembershipUpdateEvent handler.
Definition SubscribeComputeAllocationMembershipDeleted
    (handler : Handler ComputeAllocationMembership) : Bus → Bus :=
  subscribeComputeAllocationMembership ComputeAllocationMembershipDeleteEvent handler.

Definition asComputeAllocationMembershipResourceOverride (p : Payload) :
    option ComputeAllocationMembershipResourceOverride :=
  match p with PComputeAllocationMembershipResourceOverride x => Some x | _ => None end.
Definition subscribeMembershipResourceOverride (topic : EventType)
    (handler : Handler ComputeAllocationMembershipResourceOverride) : Bus → Bus :=
  Subscribe topic (type_switch asComputeAllocationMembershipResourceOverride handler).
Definition SubscribeComputeAllocationMembershipResourceOverrideCreated
    (handler : Handler ComputeAllocationMembershipResourceOverride) : Bus → Bus :=
  subscribeMembershipResourceOverride ComputeAllocationMembershipResourceOverrideCreateEvent handler.
Definition SubscribeComputeAllocationMembershipResourceOverrideUpdated
    (handler : Handler ComputeAllocationMembershipResourceOverride) : Bus → Bus :=
  subscribeMembershipResourceOverride ComputeAllocationMembershipResourceOverrideUpdateEvent handler.
Definition SubscribeComputeAllocationMembershipResourceOverrideDeleted
    (handler : Handler ComputeAllocationMembershipResourceOverride) : Bus → Bus :=
  subscribeMembershipResourceOverride ComputeAllocationMembershipResourceOverrideDeleteEvent handler.

(** A typed subscription: the type it expects, its topic, the cast it tries and
    the function that registers it. *)
Record TypedSub := mkTypedSub {
  ts_type : Type;
  ts_topic : EventType;
  ts_cast : Payload → option ts_type;
  ts_subscribe : Handler ts_type → Bus → Bus }.

(** Every typed subscription of pkg/events. *)
Definition typed_subs : list TypedSub := [
  mkTypedSub User UserCreateEvent
    asUser SubscribeUserCreated;
  mkTypedSub User UserUpdateEvent
    asUser SubscribeUserUpdated;
  mkTypedSub User UserDeleteEvent
    asUser SubscribeUserDeleted;
  mkTypedSub UserIdentity UserIdentityCreateEvent
    asUserIdentity SubscribeUserIdentityCreated;
  mkTypedSub UserIdentity UserIdentityUpdateEvent
    asUserIdentity SubscribeUserIdentityUpdated;
  mkTypedSub UserIdentity UserIdentityDeleteEvent
    asUserIdentity SubscribeUserIdentityDeleted;
  mkTypedSub Organization OrganizationCreateEvent
    asOrganization SubscribeOrganizationCreated;
  mkTypedSub Organization OrganizationUpdateEvent
    asOrganization SubscribeOrganizationUpdated;
  mkTypedSub Organization OrganizationDeleteEvent
    asOrganization SubscribeOrganizationDeleted;
  mkTypedSub Project ProjectCreateEvent
    asProject SubscribeProjectCreated;
  mkTypedSub Project ProjectUpdateEvent
    asProject SubscribeProjectUpdated;
  mkTypedSub Project ProjectDeleteEvent
    asProject SubscribeProjectDeleted;
  mkTypedSub ComputeClusterUser ComputeClusterUserCreateEvent
    asComputeClusterUser SubscribeComputeClusterUserCreated;
  mkTypedSub ComputeClusterUser ComputeClusterUserUpdateEvent
    asComputeClusterUser SubscribeComputeClusterUserUpdated;
  mkTypedSub ComputeClusterUser ComputeClusterUserDeleteEvent
    asComputeClusterUser SubscribeComputeClusterUserDeleted;
  mkTypedSub ComputeAllocation ComputeAllocationCreateEvent
    asComputeAllocation SubscribeComputeAllocationCreated;
  mkTypedSub ComputeAllocation ComputeAllocationUpdateEvent
    asComputeAllocation SubscribeComputeAllocationUpdated;
  mkTypedSub ComputeAllocation ComputeAllocationDeleteEvent
    asComputeAllocation SubscribeComputeAllocationDeleted;
  mkTypedSub ComputeAllocationDiff ComputeAllocationDiffCreateEvent
    asComputeAllocationDiff SubscribeComputeAllocationDiffCreated;
  mkTypedSub ComputeAllocationDiff ComputeAllocationDiffUpdateEvent
    asComputeAllocationDiff SubscribeComputeAllocationDiffUpdated;
  mkTypedSub ComputeAllocationDiff ComputeAllocationDiffDeleteEvent
    asComputeAllocationDiff SubscribeComputeAllocationDiffDeleted;
  mkTypedSub ComputeAllocationResource ComputeAllocationResourceCreateEvent
    asComputeAllocationResource SubscribeComputeAllocationResourceCreated;
  mkTypedSub ComputeAllocationResource ComputeAllocationResourceUpdateEvent
    asComputeAllocationResource SubscribeComputeAllocationResourceUpdated;
  mkTypedSub ComputeAllocationResource ComputeAllocationResourceDeleteEvent
    asComputeAllocationResource SubscribeComputeAllocationResourceDeleted;
  mkTypedSub ComputeAllocationResourceMapping ComputeAllocationResourceMappingCreateEvent
    asComputeAllocationResourceMapping SubscribeComputeAllocationResourceMappingCreated;
  mkTypedSub ComputeAllocationResourceMapping ComputeAllocationResourceMappingUpdateEvent
    asComputeAllocationResourceMapping SubscribeComputeAllocationResourceMappingUpdated;
  mkTypedSub ComputeAllocationResourceMapping ComputeAllocationResourceMappingDeleteEvent
    asComputeAllocationResourceMapping SubscribeComputeAllocationResourceMappingDeleted;
  mkTypedSub ComputeAllocationMembership ComputeAllocationMembershipCreateEvent
    asComputeAllocationMembership SubscribeComputeAllocationMembershipCreated;
  mkTypedSub ComputeAllocationMembership ComputeAllocationMembershipUpdateEvent
    asComputeAllocationMembership SubscribeComputeAllocationMembershipUpdated;
  mkTypedSub ComputeAllocationMembership ComputeAllocationMembershipDeleteEvent
    asComputeAllocationMembership SubscribeComputeAllocationMembershipDeleted;
  mkTypedSub ComputeAllocationMembershipResourceOverride ComputeAllocationMembershipResourceOverrideCreateEvent
    asComputeAllocationMembershipResourceOverride SubscribeComputeAllocationMembershipResourceOverrideCreated;
  mkTypedSub ComputeAllocationMembershipResourceOverride ComputeAllocationMembershipResourceOverrideUpdateEvent
    asComputeAllocationMembershipResourceOverride SubscribeComputeAllocationMembershipResourceOverrideUpdated;
  mkTypedSub ComputeAllocationMembershipResourceOverride ComputeAllocationMembershipResourceOverrideDeleteEvent
    asComputeAllocationMembershipResourceOverride SubscribeComputeAllocationMembershipResourceOverrideDeleted].

(** ** Runs of the bus *)

(** The bus, what every goroutine started so far has left to do, and what was
    done, each action with the goroutine that did it. *)
Record BusState := mkBusState {
  bs_bus : Bus;
  bs_running : list (list Act);
  bs_log : list (nat * Act) }.

(** What can happen next: a registration, a publication, one action of one
    goroutine. The lock of the bus makes the first two atomic. *)
Inductive label :=
  | LSubscribe (topic : EventType) (handler : EventSubscriberFunc)
  | LPublish (topic : EventType) (payload : any)
  | LRun (g : nat).

Inductive bus_step (s : BusState) : label → BusState → Prop :=
  | step_subscribe t h :
      bus_step s (LSubscribe t h) (mkBusState (Subscribe t h (bs_bus s)) (bs_running s) (bs_log s))
  | step_publish t p :
      bus_step s (LPublish t p)
        (mkBusState (bs_bus s) (bs_running s ++ Publish t p (bs_bus s)) (bs_log s))
  | step_run g a rest :
      bs_running s !! g = Some (a :: rest) →
      bus_step s (LRun g) (mkBusState (bs_bus s) (<[g := rest]> (bs_running s)) (bs_log s ++ [(g, a)])).

(** The runs from the empty bus, by their labels. *)
Inductive bus_run : list label → BusState → Prop :=
  | run_nil : bus_run [] (mkBusState New [] [])
  | run_snoc ls s l s' : bus_run ls s → bus_step s l s' → bus_run (ls ++ [l]) s'.

(** The same steps as a function. *)
Definition exec_label (s : BusState) (l : label) : option BusState :=
  match l with
  | LSubscribe t h => Some (mkBusState (Subscribe t h (bs_bus s)) (bs_running s) (bs_log s))
  | LPublish t p => Some (mkBusState (bs_bus s) (bs_running s ++ Publish t p (bs_bus s)) (bs_log s))
  | LRun g =>
      match bs_running s !! g with
      | Some (a :: rest) => Some (mkBusState (bs_bus s) (<[g := rest]> (bs_running s)) (bs_log s ++ [(g, a)]))
      | _ => None
      end
  end.
Definition bus_exec (ls : list label) : option BusState :=
  foldl (λ os l, s ← os; exec_label s l) (Some (mkBusState New [] [])) ls.

(** The specification: the handlers registered for a topic by a sequence of
    labels, and the goroutines the publications of a run owe, in order. *)
Definition subscribed (t : EventType) (ls : list label) : list EventSubscriberFunc :=
  omap (λ l, match l with
             | LSubscribe t' h => if decide (t' = t) then Some h else None
             | _ => None
             end) ls.

Definition owed_by (past : list label) (l : label) : list (list Act) :=
  match l with
  | LPublish t p => (λ h, (h (mkBusEvent t p) p).1) <$> subscribed t past
  | _ => []
  end.

Fixpoint owed (past rest : list label) : list (list Act) :=
  match rest with
  | [] => []
  | l :: rest' => owed_by past l ++ owed (past ++ [l]) rest'
  end.

(** What goroutine [g] did, in order. *)
Definition done_by (g : nat) (log : list (nat * Act)) : list Act :=
  snd <$> filter (λ ga, ga.1 = g) log.
End bus.
Arguments EventSubscriberFunc : clear implicits.
Arguments Bus : clear implicits.
Arguments Handler : clear implicits.
Arguments TypedSub : clear implicits.
Arguments BusState : clear implicits.
Arguments label : clear implicits.

(** The topics on which a payload of each type belongs. *)
Definition topics_of (p : Payload) : list EventType :=
  match p with
  | PUser _ =>
      [UserCreateEvent;
       UserUpdateEvent;
       UserDeleteEvent]
  | PUserIdentity _ =>
      [UserIdentityCreateEvent;
       UserIdentityUpdateEvent;
       UserIdentityDeleteEvent]
  | POrganization _ =>
      [OrganizationCreateEvent;
       OrganizationUpdateEvent;
       OrganizationDeleteEvent]
  | PProject _ =>
      [ProjectCreateEvent;
       ProjectUpdateEvent;
       ProjectDeleteEvent]
  | PComputeCluster _ =>
      [ComputeClusterCreateEvent;
       ComputeClusterUpdateEvent;
       ComputeClusterDeleteEvent]
  | PComputeClusterUser _ =>
      [ComputeClusterUserCreateEvent;
       ComputeClusterUserUpdateEvent;
       ComputeClusterUserDeleteEvent]
  | PComputeAllocation _ =>
      [ComputeAllocationCreateEvent;
       ComputeAllocationUpdateEvent;
       ComputeAllocationDeleteEvent]
  | PComputeAllocationDiff _ =>
      [ComputeAllocationDiffCreateEvent;
       ComputeAllocationDiffUpdateEvent;
       ComputeAllocationDiffDeleteEvent]
  | PComputeAllocationResource _ =>
      [ComputeAllocationResourceCreateEvent;
       ComputeAllocationResourceUpdateEvent;
       ComputeAllocationResourceDeleteEvent]
  | PComputeAllocationResourceMapping _ =>
      [ComputeAllocationResourceMappingCreateEvent;
       ComputeAllocationResourceMappingUpdateEvent;
       ComputeAllocationResourceMappingDeleteEvent]
  | PComputeAllocationMembership _ =>
      [ComputeAllocationMembershipCreateEvent;
       ComputeAllocationMembershipUpdateEvent;
       ComputeAllocationMembershipDeleteEvent]
  | PComputeAllocationMembershipResourceOverride _ =>
      [ComputeAllocationMembershipResourceOverrideCreateEvent;
       ComputeAllocationMembershipResourceOverrideUpdateEvent;
       ComputeAllocationMembershipResourceOverrideDeleteEvent]
  end.
Definition well_typed (e : Event) : Prop := Event_Type e ∈ topics_of (Event_Payload e).

(** Publishes only events that satisfy [P]. *)
Class Publishes (P : Event → Prop) {A} (m : M A) : Prop :=
  publishes w : ∃ es, w_bus (m w).2 = w_bus w ++ es ∧ Forall P es.

(** ** Registration and dispatch *)

Section bus_facts.
Context {Act : Type}.
Implicit Types (b : Bus Act) (s : BusState Act) (ls : list (label Act)).

Lemma handlers_Subscribe t t' h b :
  handlers (Subscribe t h b) t' = handlers b t' ++ (if decide (t = t') then [h] else []).
Proof.
  unfold handlers, Subscribe, Bus in *. case_decide; subst.
  - by rewrite lookup_insert_eq.
  - by rewrite lookup_insert_ne, app_nil_r.
Qed.

Lemma handlers_New t : handlers (New : Bus Act) t = [].
Proof. unfold handlers, New, Bus. by rewrite lookup_empty. Qed.

Lemma subscribed_snoc t ls l :
  subscribed t (ls ++ [l]) =
  subscribed t ls ++ match l with
                     | LSubscribe t' h => if decide (t' = t) then [h] else []
                     | _ => []
                     end.
Proof. unfold subscribed. rewrite omap_app. f_equal. by destruct l; simpl; try case_decide. Qed.

Lemma owed_snoc past ls l : owed past (ls ++ [l]) = owed past ls ++ owed_by (past ++ ls) l.
Proof.
  revert past. induction ls as [|x ls IH]; intros past; simpl.
  - by rewrite !app_nil_r.
  - by rewrite IH, <- !app_assoc.
Qed.

(** The bus of a run holds the registrations of the run, in order. *)
Lemma bus_run_handlers ls s t : bus_run ls s → handlers (bs_bus s) t = subscribed t ls.
Proof.
  induction 1 as [|ls s l s' _ IH Hst]; [done|].
  rewrite subscribed_snoc, <- IH. destruct Hst; simpl; rewrite ?app_nil_r; [|done..].
  apply handlers_Subscribe.
Qed.

Lemma bus_run_Publish ls s t p :
  bus_run ls s → Publish t p (bs_bus s) = owed_by ls (LPublish t p).
Proof. intros Hr. unfold Publish, safeDispatch. by rewrite (bus_run_handlers ls). Qed.

Lemma done_by_snoc g log g' a :
  done_by g (log ++ [(g', a)]) = done_by g log ++ (if decide (g' = g) then [a] else []) :> list Act.
Proof.
  unfold done_by. rewrite filter_app, fmap_app. f_equal.
  rewrite filter_cons. simpl. by case_decide.
Qed.

(** What every goroutine did and what it has left is what it owed. *)
Lemma bus_run_account ls s :
  bus_run ls s →
  length (bs_running s) = length (owed [] ls) ∧
  (∀ g, length (bs_running s) ≤ g → done_by g (bs_log s) = []) ∧
  ∀ g rest, bs_running s !! g = Some rest → owed [] ls !! g = Some (done_by g (bs_log s) ++ rest).
Proof.
  induction 1 as [|ls s l s' Hr (Hlen & Hout & Hin) Hst]; [by split_and!|].
  rewrite owed_snoc, app_nil_l.
  destruct Hst as [t h|t p|g a rest Hg]; cbn [bs_running bs_log]; [by rewrite app_nil_r| |rewrite app_nil_r].
  - rewrite <- (bus_run_Publish ls s t p Hr), !length_app, Hlen. split_and!; [done| |].
    + intros g Hg. apply Hout. lia.
    + intros g rest [Hg|[Hge Hg]]%lookup_app_Some; [by apply lookup_app_l_Some, Hin|].
      rewrite lookup_app_r, <- Hlen, Hg, Hout by lia. done.
  - rewrite length_insert. pose proof (lookup_lt_Some _ _ _ Hg) as Hlt. split_and!; [done| |].
    + intros g' Hg'. rewrite done_by_snoc, decide_False, app_nil_r by lia. auto.
    + intros g' rest'. destruct (decide (g = g')) as [<-|Hne].
      * rewrite list_lookup_insert_eq by done. intros [= <-].
        rewrite done_by_snoc, decide_True, <- app_assoc by done. by apply Hin.
      * rewrite list_lookup_insert_ne by done. rewrite done_by_snoc, decide_False, app_nil_r by done. apply Hin.
Qed.

Lemma owed_runs past ls gs : owed past (ls ++ (LRun <$> gs)) = owed past ls.
Proof.
  induction gs as [|g gs IH] using rev_ind; [by rewrite app_nil_r|].
  rewrite fmap_app, app_assoc. cbn [fmap list_fmap]. by rewrite owed_snoc, app_nil_r.
Qed.

(** The scheduler can always let every goroutine finish. *)
Lemma bus_run_drain ls s :
  bus_run ls s → ∃ gs s', bus_run (ls ++ (LRun <$> gs)) s' ∧ Forall (λ r, r = []) (bs_running s').
Proof.
  remember (length (concat (bs_running s))) as n eqn:Hn. revert ls s Hn.
  induction n as [|n IH]; intros ls s Hn Hr.
  - exists [], s. rewrite app_nil_r. split; [done|]. apply Forall_forall. intros r Hin.
    symmetry in Hn. apply length_zero_iff_nil in Hn. apply nil_length_inv.
    apply list_elem_of_lookup in Hin as [i Hi].
    apply list_elem_of_split_length in Hi as (l1 & l2 & Heq & _). rewrite Heq, concat_app in Hn.
    simpl in Hn. apply app_eq_nil in Hn as [_ [-> _]%app_eq_nil]. done.
  - assert (∃ g a rest, bs_running s !! g = Some (a :: rest)) as (g & a & rest & Hg).
    { clear -Hn. destruct s as [b running log]. simpl in *. clear -Hn.
      revert Hn. induction running as [|r rs IH]; simpl; [done|].
      destruct r as [|a r]; simpl; [intros (g & a & rest & ?)%IH; by exists (S g), a, rest|].
      intros _. by exists 0, a, r. }
    destruct (IH (ls ++ [LRun g]) (mkBusState (bs_bus s) (<[g := rest]> (bs_running s)) (bs_log s ++ [(g, a)])))
      as (gs & s' & Hr' & Hall); simpl.
    + apply list_elem_of_split_length in Hg as (l1 & l2 & Heq & ->). rewrite Heq in *.
      rewrite insert_app_r_alt, Nat.sub_diag by done. simpl.
      rewrite concat_app, length_app in *. simpl in *. lia.
    + eapply run_snoc; [done|]. by constructor.
    + exists (g :: gs), s'. split; [|done]. by rewrite fmap_cons, cons_middle, app_assoc.
Qed.
End bus_facts.

(** ** What the service publishes *)

Section publishes.
Context `{E : Env} {A B : Type} (P : Event → Prop).
Implicit Types (m : M A) (k : A → M B).

Lemma Silent_Publishes m : Silent m → Publishes P m.
Proof. intros Hm w. exists []. rewrite app_nil_r. by split. Qed.
Lemma Publishes_bind m k : Publishes P m → (∀ a, Publishes P (k a)) → Publishes P (m ≫= k).
Proof.
  intros Hm Hk w. destruct (Hm w) as (es & Hw & Hes). unfold mbind, M_bind.
  destruct (m w) as [[a|e] w1]; simpl in *; [|eauto].
  destruct (Hk a w1) as (es' & Hw' & Hes'). exists (es ++ es').
  rewrite Hw', Hw, app_assoc. split; [done|]. by apply Forall_app.
Qed.
Lemma Publishes_wrapf f args m : Publishes P m → Publishes P (wrapf f args m).
Proof. intros Hm w. specialize (Hm w). unfold wrapf. destruct (m w) as [[] ?]; exact Hm. Qed.
Lemma Publishes_map_err f m : Publishes P m → Publishes P (map_err f m).
Proof. intros Hm w. specialize (Hm w). unfold map_err. destruct (m w) as [[] ?]; exact Hm. Qed.
End publishes.

Lemma Publishes_publish (P : Event → Prop) t p : P (mkEvent t p) → Publishes P (publish t p).
Proof. intros HP w. exists [mkEvent t p]. by repeat constructor. Qed.

Ltac publishes_step :=
  lazymatch goal with
  | |- ∀ _, _ => intros ?
  | |- Publishes _ (publish _ _) =>
      apply Publishes_publish; refine (bool_decide_unpack _ _); vm_compute; exact I
  | |- Publishes _ (wrapf _ _ _) => apply Publishes_wrapf
  | |- Publishes _ (map_err _ _) => apply Publishes_map_err
  | |- Publishes _ (when _ _) => unfold when
  | |- Publishes _ (if _ then _ else _) => case_match
  | |- Publishes _ (match _ with _ => _ end) => case_match
  | |- Publishes _ (_ ≫= _) =>
      first [ apply Silent_Publishes; solve [repeat silent_step] | apply Publishes_bind ]
  | |- Publishes _ _ => apply Silent_Publishes; repeat silent_step
  end.

(** Every operation publishes payloads on topics of their type. *)
Lemma serve_well_typed `{E : Env} r : Publishes well_typed (serve r).
Proof.
  destruct r; unfold serve; autounfold with ops; repeat publishes_step.
Qed.

Lemma reachable_well_typed `{E : Env} w0 w :
  Forall well_typed (w_bus w0) → reachable w0 w → Forall well_typed (w_bus w).
Proof.
  intros H0. induction 1 as [|w r w' Hr IH Hst]; [done|]. destruct Hst.
  destruct (serve_well_typed r w) as (es & -> & Hes). by apply Forall_app.
Qed.

(** A typed subscription casts every payload of its topic. *)
Lemma typed_subs_cast {Act} (sub : TypedSub Act) p :
  sub ∈ typed_subs → ts_topic sub ∈ topics_of p → is_Some (ts_cast sub p).
Proof.
  intros Hs. revert p. pattern sub. revert sub Hs. apply Forall_forall.
  unfold typed_subs. repeat constructor; intros []; simpl; intros Ht;
    try (eexists; reflexivity); exfalso; revert Ht; refine (bool_decide_unpack (_ ∉ _) _); vm_compute; exact I.
Qed.

Lemma typed_subs_subscribe {Act} (sub : TypedSub Act) handler :
  sub ∈ typed_subs → ts_subscribe sub handler = Subscribe (ts_topic sub) (type_switch (ts_cast sub) handler).
Proof.
  intros Hs. revert handler. pattern sub. revert sub Hs. apply Forall_forall.
  unfold typed_subs. repeat constructor; reflexivity.
Qed.

(** Every run the executable semantics computes is a run. *)
Lemma bus_exec_run {Act} (ls : list (label Act)) s : bus_exec ls = Some s → bus_run ls s.
Proof.
  unfold bus_exec. revert s. induction ls as [|l ls IH] using rev_ind; intros s.
  - intros [= <-]. constructor.
  - rewrite foldl_snoc. destruct (foldl _ _ ls) as [s0|]; simpl; [|done]. intros Hs.
    eapply run_snoc; [by apply IH|]. destruct l as [t h|t p|g]; simpl in Hs; simplify_eq; [constructor..|].
    destruct (bs_running s0 !! g) as [[|a rest]|] eqn:Hg; simplify_eq. by constructor.
Qed.

(** ** The theorems *)

(** C10: an asynchronous publication reaches every handler registered before it
    on its topic, exactly once, whatever the scheduler and whichever handlers
    panic. In every state of every run, what a goroutine has done followed by
    what it has left is the body of the handler it was started for, no action
    comes from anywhere else, and the scheduler can always run the goroutines
    to the end, when every handler has done its whole body. *)
Theorem bus_delivers {Act} (ls : list (label Act)) s :
  bus_run ls s →
  (∀ g, owed [] ls !! g = (λ rest, done_by g (bs_log s) ++ rest) <$> bs_running s !! g) ∧
  (∀ g, bs_running s !! g = None → done_by g (bs_log s) = []) ∧
  ∃ gs s', bus_run (ls ++ (LRun <$> gs)) s' ∧
    ∀ g body, owed [] ls !! g = Some body → done_by g (bs_log s') = body.
Proof.
  intros Hr. destruct (bus_run_account _ _ Hr) as (Hlen & Hout & Hin). split_and!.
  - intros g. destruct (bs_running s !! g) as [rest|] eqn:Hg; [by apply Hin|].
    apply lookup_ge_None in Hg. apply lookup_ge_None. lia.
  - intros g Hg%lookup_ge_None. auto.
  - destruct (bus_run_drain _ _ Hr) as (gs & s' & Hr' & Hall). exists gs, s'. split; [done|].
    intros g body Hb. destruct (bus_run_account _ _ Hr') as (Hlen' & _ & Hin'). rewrite owed_runs in *.
    destruct (bs_running s' !! g) as [rest|] eqn:Hg.
    + pose proof (Forall_lookup_1 _ _ _ _ Hall Hg) as ->. apply Hin' in Hg.
      rewrite app_nil_r in Hg. congruence.
    + apply lookup_ge_None in Hg. apply lookup_lt_Some in Hb. lia.
Qed.

(** Two handlers on one topic, the first of which panics after one action; the
    second finishes first. *)
Definition two_handlers : list (label nat) :=
  [LSubscribe "t" (λ _ _, ([1], true)); LSubscribe "t" (λ _ _, ([2; 3], false)); LPublish "t" VNil;
   LRun 1; LRun 0; LRun 1].

Lemma bus_delivers_witness :
  ∃ s gs s', bus_run two_handlers s ∧ bs_log s = [(1, 2); (0, 1); (1, 3)] ∧
    bus_run (two_handlers ++ (LRun <$> gs)) s' ∧
    ∀ g body, owed [] two_handlers !! g = Some body → done_by g (bs_log s') = body.
Proof.
  destruct (bus_exec two_handlers) as [s|] eqn:He; [|exfalso; vm_compute in He; discriminate He].
  pose proof (bus_exec_run _ _ He) as Hr.
  destruct (proj2 (proj2 (bus_delivers _ _ Hr))) as (gs & s' & Hr' & Hd).
  exists s, gs, s'. split_and!; [done| |done..].
  vm_compute in He. injection He as <-. reflexivity.
Defined.

(** In any run, a synchronous publication calls the handlers registered on
    its topic in the order of their registration and stops at the first one
    that panics, passing the panic on; the handlers after it are not called. *)
Theorem PublishSync_in_order {Act} (ls : list (label Act)) s t p :
  bus_run ls s →
  let call h := h (mkBusEvent t p) p in
  (∃ before h after,
     subscribed t ls = before ++ h :: after ∧ Forall (λ h', (call h').2 = false) before ∧
     (call h).2 = true ∧
     PublishSync t p (bs_bus s) = (concat ((λ h', (call h').1) <$> before ++ [h]), true)) ∨
  (Forall (λ h', (call h').2 = false) (subscribed t ls) ∧
   PublishSync t p (bs_bus s) = (concat ((λ h', (call h').1) <$> subscribed t ls), false)).
Proof.
  intros Hr call. unfold PublishSync. rewrite (bus_run_handlers ls) by done.
  induction (subscribed t ls) as [|h hs IH]; simpl; [by right|]. unfold dispatchSync.
  fold (call h). destruct (call h) as [acts []] eqn:Hh.
  - left. exists [], h, hs. simpl. rewrite Hh, app_nil_r. by split_and!.
  - destruct IH as [(before & h' & after & -> & Hb & Hp & ->)|[Hall ->]].
    + left. exists (h :: before), h', after. rewrite !fmap_app, !concat_app, fmap_cons. simpl.
      rewrite Hh, app_assoc. split_and!; try done. by constructor; [rewrite Hh|].
    + right. split; [by constructor; [rewrite Hh|]|done].
Qed.

Lemma PublishSync_in_order_witness :
  ∃ s before h after, bus_run two_handlers s ∧ subscribed "t" two_handlers = before ++ h :: after ∧
    PublishSync "t" VNil (bs_bus s) = ([1], true) ∧ length after = 1.
Proof.
  destruct (bus_exec two_handlers) as [s|] eqn:He; [|exfalso; vm_compute in He; discriminate He].
  pose proof (bus_exec_run _ _ He) as Hr.
  destruct (PublishSync_in_order two_handlers s "t" VNil Hr) as [(before & h & after & Hs & Hb & Hp & HP)|[Hall HP]].
  - exists s, before, h, after. vm_compute in He. injection He as <-. split_and!; try done.
    destruct before as [|b0 [|b1 before]]; simpl in Hs; [by injection Hs as _ <-|..].
    + exfalso. injection Hs as <- <- <-. discriminate Hp.
    + exfalso. injection Hs as <- <- Hn. by destruct before.
  - exfalso. vm_compute in He. injection He as <-. discriminate HP.
Defined.

(** C11: no typed subscriber ever drops an event of the service. Whatever
    requests a service serves, starting with no event published, the payload
    of every event it publishes has the type the typed subscriptions of its
    topic expect, so a handler registered through any of them is called with
    it, as a value and as a pointer. *)
Theorem typed_events_delivered `{E : Env} {Act} d w e (sub : TypedSub Act) handler :
  reachable (init_world d) w → e ∈ w_bus w → sub ∈ typed_subs → ts_topic sub = Event_Type e →
  ∃ x, ts_cast sub (Event_Payload e) = Some x ∧
    let b := ts_subscribe sub handler New in
    Publish (Event_Type e) (VPtr (Event_Payload e)) b = [(handler x).1] ∧
    Publish (Event_Type e) (VStruct (Event_Payload e)) b = [(handler x).1].
Proof.
  intros Hr He Hs Ht. assert (Forall well_typed (w_bus w)) as Hall by (eapply reachable_well_typed; [|done]; done).
  assert (well_typed e) as Hw by (eapply Forall_forall; eauto). unfold well_typed in Hw. rewrite <- Ht in *.
  destruct (typed_subs_cast _ _ Hs Hw) as [x Hx]. exists x. split; [done|].
  rewrite (typed_subs_subscribe _ _ Hs). unfold Publish, safeDispatch. rewrite !handlers_Subscribe, !decide_True by done.
  rewrite handlers_New. simpl. by rewrite Hx.
Qed.

Lemma typed_events_delivered_witness :
  let org := mkOrganization "lab" "" "Lab" in
  let w := (@serve env0 (ReqCreateOrganization (Some org)) (init_world empty_db)).2 in
  let sub := mkTypedSub Organization OrganizationCreateEvent asOrganization SubscribeOrganizationCreated in
  ∃ x, Publish OrganizationCreateEvent (VPtr (POrganization org))
         (ts_subscribe sub (λ o, ([Organization_Name o], false)) New) = [[Organization_Name x]].
Proof.
  intros org w sub.
  destruct (@typed_events_delivered env0 string empty_db w (mkEvent OrganizationCreateEvent (POrganization org))
              sub (λ o, ([Organization_Name o], false))) as (x & _ & HP & _).
  - eapply reachable_step; [apply reachable_init|apply step_serve].
  - refine (proj2 (elem_of_cons [] _ (mkEvent OrganizationCreateEvent (POrganization org))) (or_introl eq_refl)).
  - do 6 right. left.
  - reflexivity.
  - exists x. exact HP.
Defined.
