(* ===== verification/Http.v ===== *)
(** * HTTP: identity middleware, router and multiplexer

    pkg/identity (identity.go, middleware.go, verifier.go), the response helpers
    of pkg/common/support.go, and what the server uses of net/http: the matching
    rules of [http.ServeMux] for patterns made of literal and single-segment
    wildcard parts. A request carries the raw (escaped) segments of its path; a
    handler runs in the monad of the service and returns the response it
    writes: the status and the Go value that is encoded. *)

From stdpp Require Import base gmap sets list strings.
From Stdlib Require Import ZArith Ascii.
From S2P Require Import Prelude GoError Models Schema Events IdentityCache Effects.
From S2P Require Import StoreProject StoreAuth StoreMembership StoreTrace AuthService Wire.

(** ** Strings *)

(** What follows the first space, if there is one. *)
Fixpoint after_space (s : string) : option string :=
  match s with
  | EmptyString => None
  | String c s' => if decide (c = " "%char) then Some s' else after_space s'
  end.

Definition hex_value (c : ascii) : option nat :=
  let n := nat_of_ascii c in
  if (48 <=? n)%nat && (n <=? 57)%nat then Some (n - 48)
  else if (65 <=? n)%nat && (n <=? 70)%nat then Some (n - 55)
  else if (97 <=? n)%nat && (n <=? 102)%nat then Some (n - 87)
  else None.

(** [url.PathUnescape]; a malformed escape is rejected before a handler runs. *)
Fixpoint unescape (s : string) : string :=
  match s with
  | EmptyString => EmptyString
  | String c s1 =>
      if decide (c = "%"%char) then
        match s1 with
        | String a (String b s2) =>
            match hex_value a, hex_value b with
            | Some x, Some y => String (ascii_of_nat (16 * x + y)) (unescape s2)
            | _, _ => String c (unescape s1)
            end
        | _ => String c (unescape s1)
        end
      else String c (unescape s1)
  end.

(** ** The context of a request *)

(** What the middleware puts on [req.Context()]. *)
Record Ctx := mkCtx {
  ctx_caller : option Caller;
  ctx_privileges : option (gset PrivilegeKey) }.

Definition WithCaller (ctx : Ctx) (caller : Caller) : Ctx := mkCtx (Some caller) (ctx_privileges ctx).
Definition CallerFromContext (ctx : Ctx) : option Caller := ctx_caller ctx.
Definition withPrivileges (ctx : Ctx) (keys : list PrivilegeKey) : Ctx :=
  mkCtx (ctx_caller ctx) (Some (list_to_set keys)).

(** [identity.HasPrivilege]: a context without a set answers false. *)
Definition ctx_HasPrivilege (ctx : Ctx) (privilege : PrivilegeKey) : bool :=
  match ctx_privileges ctx with
  | Some set => bool_decide (privilege ∈ set)
  | None => false
  end.

(** The order in which Go ranges over a map is left open: any order of the set. *)
Definition PrivilegesFromContext (ctx : Ctx) : list PrivilegeKey :=
  match ctx_privileges ctx with
  | Some set => elements set
  | None => []
  end.

(** ** Requests, responses, handlers *)

Record HttpRequest := mkHttpRequest {
  r_method : string;
  r_path : list string;                          (* raw segments: "/a/b" is ["a"; "b"] *)
  r_authorization : string;                      (* the Authorization header, "" if absent *)
  r_body : option JBody;                         (* the first JSON value, None if there is none *)
  r_query : list (string * string);              (* the parameters of the URL *)
  r_values : list (string * string);             (* path values, set by the mux *)
  r_ctx : Ctx }.

Definition with_ctx (ctx : Ctx) (r : HttpRequest) : HttpRequest :=
  mkHttpRequest (r_method r) (r_path r) (r_authorization r) (r_body r) (r_query r) (r_values r) ctx.
Definition with_values (vs : list (string * string)) (r : HttpRequest) : HttpRequest :=
  mkHttpRequest (r_method r) (r_path r) (r_authorization r) (r_body r) (r_query r) vs (r_ctx r).

(** [req.URL.Path]: unescaped. *)
Definition URL_Path (r : HttpRequest) : string := "/" +:+ String.concat "/" (unescape <$> r_path r).

(** [req.PathValue(name)]. *)
Definition PathValue (name : string) (r : HttpRequest) : string :=
  default "" (snd <$> head (filter (λ kv, kv.1 = name) (r_values r))).

(** internal/server/responses.go. *)

Record ProjectResponse := mkProjectResponse {
  ProjectResponse_Project : Project;
  ProjectPIDisplayName : string;
  ProjectPIEmail : string }.

Record ProjectMemberAllocationRef := mkAllocationRef {
  AllocationRef_ID : string;
  AllocationRef_Name : string;
  AllocationRef_Role : string }.

Record ProjectMemberResponse := mkProjectMemberResponse {
  ProjectMember_ID : string;
  ProjectMember_ProjectID : string;
  ProjectMember_UserID : string;
  ProjectMember_Email : string;
  ProjectMember_DisplayName : string;
  ProjectMember_Role : string;
  ProjectMember_Status : string;
  ProjectMember_AddedTime : Time;
  ProjectMember_Allocations : list ProjectMemberAllocationRef }.

Record AllocationMembershipResponse := mkAllocationMembershipResponse {
  AllocationMember_Membership : ComputeAllocationMembership;
  AllocationMember_Role : string;
  AllocationMember_DisplayName : string;
  AllocationMember_Email : string }.

Record UserAllocationSUTotalResponse := mkSUTotal {
  SUTotal_ComputeAllocationID : string;
  SUTotal_UserID : option string;      (* absent in AllocationSUTotalResponse *)
  SUTotal_TotalSUAmount : Z }.

(** A struct that is written. *)
Inductive Row :=
  | ROrganization (x : Organization)
  | RUser (x : User)
  | RUserIdentity (x : UserIdentity)
  | RProject (x : Project)
  | RProjectResponse (x : ProjectResponse)
  | RProjectMember (x : ProjectMemberResponse)
  | RComputeCluster (x : ComputeCluster)
  | RComputeClusterUser (x : ComputeClusterUser)
  | RComputeAllocation (x : ComputeAllocation)
  | RResource (x : ComputeAllocationResource)
  | RResourceSummary (x : ComputeAllocationResourceSummary)
  | RMapping (x : ComputeAllocationResourceMapping)
  | RRate (x : ComputeAllocationResourceRate)
  | RDiff (x : ComputeAllocationDiff)
  | RChangeRequest (x : ComputeAllocationChangeRequest)
  | RChangeEvent (x : ComputeAllocationChangeRequestEvent)
  | RMembership (x : ComputeAllocationMembership)
  | RAllocationMember (x : AllocationMembershipResponse)
  | ROverride (x : ComputeAllocationMembershipResourceOverride)
  | RUsage (x : ComputeAllocationUsage)
  | RSUTotal (x : UserAllocationSUTotalResponse)
  | RRole (x : Role)
  | RUserRole (x : UserRole)
  | RUserPrivilege (x : UserPrivilege).

(** What a handler writes as body. A nil slice is written as an empty one. *)
Inductive Json :=
  | JNone
  | JCode (code message : string)
  | JError (e : error)
  | JMessage (s : string)
  | JOne (x : Row)
  | JList (xs : list Row)
  | JPage (items : list Row) (total : nat)
  | JRoleWithKeys (r : Role) (ks : list PrivilegeKey)
  | JKeys (ks : list PrivilegeKey)
  | JProfile (u : User) (ks : list PrivilegeKey) (roles : list UserRoleDetail)
  | JTraces (traces : list TraceSummary) (total : nat) (limit offset : Z)
  | JTraceTree (traceID : string) (tree : TraceNode) (truncated : bool)
  | JEvents (events : list TraceEvent)
  | JSources (sources : list string)
  | JOther (s : string).

Record Response := mkResponse { resp_status : Z; resp_body : Json }.

Definition Handler : Type := HttpRequest → M Response.

(** [writeJSONError]. *)
Definition writeJSONError (status : Z) (code message : string) : Response :=
  mkResponse status (JCode code message).

Definition WriteJSON (status : Z) (body : Json) : Response := mkResponse status body.
Definition WriteError (status : Z) (body : Json) : Response := WriteJSON status body.

(** [WriteServiceError]: the status of a service error; what is not one of the
    three sentinels is not shown to the client. *)
Definition WriteServiceError (e : error) : Response :=
  if errors_Is e SNotFound then WriteError 404 (JError e)
  else if errors_Is e SAlreadyExists then WriteError 409 (JError e)
  else if errors_Is e SInvalidInput then WriteError 400 (JError e)
  else WriteError 500 (JMessage "internal server error").

(** [DecodeJSON]. *)
Definition DecodeJSON {A} (d : Dec A) (r : HttpRequest) : A * bool := decode d (r_body r).

(** ** The multiplexer *)

Inductive Seg := Lit (s : string) | Wild (name : string).
#[export] Instance Seg_eq_dec : EqDecision Seg.
Proof. solve_decision. Defined.

Fixpoint drop_last (s : string) : string :=
  match s with
  | EmptyString => EmptyString
  | String _ EmptyString => EmptyString
  | String c s' => String c (drop_last s')
  end.

Definition parse_seg (s : string) : Seg :=
  match s with
  | String c s' => if decide (c = "{"%char) then Wild (drop_last s') else Lit s
  | EmptyString => Lit s
  end.

(** "METHOD /a/{b}": the method, "" for any, and the segments. *)
Definition pattern_method (p : string) : string :=
  match after_space p with Some _ => default "" (head (split_on " " p)) | None => "" end.
Definition pattern_path (p : string) : string :=
  match after_space p with Some rest => TrimSpace rest | None => p end.
Definition pattern_segs (p : string) : list Seg :=
  parse_seg <$> tail (split_on "/" (pattern_path p)).

(** The search of the routing tree: a literal child before the wildcard, which
    takes any non-empty segment. *)
Definition lit_child {A} (s : string) (r : list Seg * A) : option (list Seg * A) :=
  match r.1 with
  | Lit l :: segs => if decide (l = s) then Some (segs, r.2) else None
  | _ => None
  end.
Definition wild_child {A} (r : list Seg * A) : option (list Seg * A) :=
  match r.1 with Wild _ :: segs => Some (segs, r.2) | _ => None end.
Definition leaf {A} (r : list Seg * A) : option A :=
  match r.1 with [] => Some r.2 | _ => None end.

Fixpoint mux_match {A} (rs : list (list Seg * A)) (path : list string) : option A :=
  match path with
  | [] => head (omap leaf rs)
  | s :: path' =>
      match mux_match (omap (lit_child s) rs) path' with
      | Some a => Some a
      | None => if decide (s = "") then None else mux_match (omap wild_child rs) path'
      end
  end.

(** The values of the wildcards. *)
Fixpoint path_values (segs : list Seg) (path : list string) : list (string * string) :=
  match segs, path with
  | Wild n :: segs', s :: path' => (n, s) :: path_values segs' path'
  | Lit _ :: segs', _ :: path' => path_values segs' path'
  | _, _ => []
  end.

(** A path that [cleanPath] leaves alone; any other is redirected. *)
Definition is_clean (path : list string) : bool :=
  bool_decide (Forall (λ s, s ≠ "." ∧ s ≠ "..") path) &&
  bool_decide (Forall (λ s, s ≠ "") (removelast path)).

Definition mux_find (rs : list (string * Handler)) (method : string) (path : list string) :
    option (string * Handler) :=
  mux_match ((λ r, (pattern_segs r.1, r)) <$> filter (λ r, pattern_method r.1 = method) rs) path.

Definition mux_route (rs : list (string * Handler)) (method : string) (path : list string) :
    option (string * Handler) :=
  match mux_find rs method path with
  | Some r => Some r
  | None =>
      match (if decide (method = "HEAD") then mux_find rs "GET" path else None) with
      | Some r => Some r
      | None => mux_find rs "" path
      end
  end.

(** [mux.ServeHTTP]. *)
Definition mux_ServeHTTP (rs : list (string * Handler)) : Handler := λ r,
  if is_clean (r_path r) then
    let path := unescape <$> r_path r in
    match mux_route rs (r_method r) path with
    | Some (pattern, h) => h (with_values (path_values (pattern_segs pattern) path) r)
    | None =>
        mret (if decide (Exists (λ rt, is_Some (mux_find rs (pattern_method rt.1) path)) rs)
              then mkResponse 405 (JMessage "Method Not Allowed")
              else mkResponse 404 (JMessage "404 page not found"))
    end
  else mret (mkResponse 301 JNone).

(** ** The router *)

Record Router := mkRouter {
  router_mux : list (string * Handler);
  publicPaths : list string }.

Definition NewRouter : Router := mkRouter [] [].

Definition methodPath (pattern : string) : string :=
  match after_space pattern with Some rest => TrimSpace rest | None => pattern end.

Definition HandleFunc (pattern : string) (h : Handler) (r : Router) : Router :=
  mkRouter (router_mux r ++ [(pattern, h)]) (publicPaths r).

(** The wrapper of [RequirePrivilege]. *)
Definition privilege_gate (privilege : PrivilegeKey) (handler : Handler) : Handler := λ req,
  if ctx_HasPrivilege (r_ctx req) privilege then handler req
  else mret (writeJSONError 403 "insufficient_privilege" "Caller lacks required privilege").

Definition RequirePrivilege (pattern : string) (privilege : PrivilegeKey) (handler : Handler) :
    Router → Router :=
  HandleFunc pattern (privilege_gate privilege handler).

Definition Public (pattern : string) (handler : Handler) (r : Router) : Router :=
  mkRouter (router_mux r ++ [(pattern, handler)]) (publicPaths r ++ [methodPath pattern]).

Definition RequireAuth (pattern : string) (handler : Handler) : Router → Router :=
  HandleFunc pattern handler.

(** A policy returns the response that denies, or nothing. *)
Definition Authorize : Type := HttpRequest → M (option Response).

(** The wrapper of [RequireScoped]. *)
Definition scope_gate (authorize : Authorize) (handler : Handler) : Handler := λ req,
  denied ← authorize req;
  match denied with Some resp => mret resp | None => handler req end.

Definition RequireScoped (pattern : string) (authorize : Authorize) (handler : Handler) :
    Router → Router :=
  HandleFunc pattern (scope_gate authorize handler).

(** ** The middleware *)

(** [identity.UserResolver]. *)
Class UserResolver := resolve_caller : option Claims → M (Caller * list PrivilegeKey).

Definition bearer (header : string) : option string :=
  if String.prefix "Bearer " header
  then Some (TrimSpace (String.substring 7 (String.length header - 7) header)) else None.

Section middleware.
Context `{UR : UserResolver} {Token : Type}.
(** go-oidc: the verification of a raw token, and the decoding of its claims. *)
Context (inner_Verify : string → option Token) (token_Claims : Token → option Claims).

Definition Verify (rawToken : string) : option Claims := inner_Verify rawToken ≫= token_Claims.

Definition Middleware (public : list string) (next : Handler) : Handler := λ req,
  if decide (URL_Path req ∈ public) then next req else
  match bearer (r_authorization req) with
  | None => mret (writeJSONError 401 "missing_bearer" "Missing bearer token")
  | Some rawToken =>
      match Verify rawToken with
      | None => mret (writeJSONError 401 "invalid_token" "Invalid or expired bearer token")
      | Some claims =>
          res ← catch (resolve_caller (Some claims));
          match res with
          | Err e =>
              mret (if errors_Is e SNotLinked
                    then writeJSONError 401 "identity_not_linked" "OIDC identity is not linked to a portal user"
                    else writeJSONError 503 "auth_lookup_failed" "Identity resolution failed")
          | Ok (caller, privileges) =>
              next (with_ctx (withPrivileges (WithCaller (r_ctx req) caller) privileges) req)
          end
      end
  end.
End middleware.

(** The service is the resolver of the middleware. *)
#[export] Instance service_resolver `{Env} : UserResolver := ResolveCaller.
