(* ===== verification/Server.v ===== *)
(** * The HTTP server

    internal/server/server.go: the routes with the policy of each, and those
    that the connectors register on the same router, behind the identity
    middleware. *)

From stdpp Require Import base gmap sets list strings.
From Stdlib Require Import ZArith Ascii.
From S2P Require Import Prelude GoError Models Schema Events IdentityCache Effects StoreProject StoreAuth.
From S2P Require Import StoreAllocation StoreMembership Wire StoreTrace UserService AuthService.
From S2P Require Import ProjectService AllocationService MembershipService Http.

(** * The handlers of the HTTP server

    internal/server: the scoped policies (route_policy.go) and every handler.
    A handler decodes the request, calls the service and writes the answer, or
    the error of the service with its status. *)

(** [if err != nil { common.WriteServiceError(w, err); return }]. *)
Definition call {A} (m : M A) (k : A → M Response) : M Response :=
  res ← catch m;
  match res with Ok a => k a | Err e => mret (WriteServiceError e) end.

(** The same in a policy, which denies. *)
Definition check {A} (m : M A) (k : A → M (option Response)) : M (option Response) :=
  res ← catch m;
  match res with Ok a => k a | Err e => mret (Some (WriteServiceError e)) end.

(** [if err != nil { common.WriteError(w, http.StatusInternalServerError, err); return }]. *)
Definition call500 {A} (m : M A) (k : A → M Response) : M Response :=
  res ← catch m;
  match res with Ok a => k a | Err e => mret (WriteError 500 (JError e)) end.

Definition missing_caller : Response := WriteError 401 (JMessage "missing authenticated caller").

(** [requireCaller], in a handler. *)
Definition requireCaller (r : HttpRequest) (k : Caller → M Response) : M Response :=
  match CallerFromContext (r_ctx r) with Some c => k c | None => mret missing_caller end.

(** [if cond { common.WriteError(w, http.StatusBadRequest, ...); return }]. *)
Definition bad_request (P : Prop) `{Decision P} (msg : string) (k : M Response) : M Response :=
  if decide P then mret (WriteError 400 (JMessage msg)) else k.

(** [if err := common.DecodeJSON(r, &x); err != nil { ... 400 ... }]: the text
    of the decoder's error is left open. *)
Definition decoded {A} (d : Dec A) (r : HttpRequest) (k : A → M Response) : M Response :=
  let '(x, ok) := DecodeJSON d r in
  if ok : bool then k x else mret (WriteError 400 (JOther "decode error")).

Definition no_content : M Response := mret (mkResponse 204 JNone).
Definition ok (x : Row) : M Response := mret (WriteJSON 200 (JOne x)).
Definition created (x : Row) : M Response := mret (WriteJSON 201 (JOne x)).
Definition ok_list {A} (row : A → Row) (xs : list A) : M Response := mret (WriteJSON 200 (JList (row <$> xs))).
Definition ok_page {A} (row : A → Row) (p : list A * nat) : M Response :=
  mret (WriteJSON 200 (JPage (row <$> p.1) p.2)).

(** [atoiOr(q.Get(name), def)]. *)
Definition query_int (name : string) (def : Z) (r : HttpRequest) : Z := atoiOr (query_get name (r_query r)) def.

(** ** The structs of the bodies *)

Section bodies.
Context `{TL : TextLib}.
#[local] Open Scope wire_scope.
#[local] Abbreviation time name := (field_of time_field name).

Definition Organization_json : Dec Organization :=
  struct mkOrganization ⊛ field "id" ⊛ field "originated_id" ⊛ field "name".

Definition User_json : Dec User :=
  struct mkUser ⊛ field "id" ⊛ field "organization_id" ⊛ field "first_name" ⊛ field "last_name"
    ⊛ field "middle_name" ⊛ field "email" ⊛ field "status" ⊛ field "type".

Definition UserIdentity_json : Dec UserIdentity :=
  struct mkUserIdentity ⊛ field "id" ⊛ field "user_id" ⊛ field "source" ⊛ field "external_id"
    ⊛ field "email" ⊛ field "oidc_sub" ⊛ field "metadata" ⊛ time "created_at".

Definition Project_json : Dec Project :=
  struct mkProject ⊛ field "id" ⊛ field "originated_id" ⊛ field "title" ⊛ field "origination"
    ⊛ field "project_pi_id" ⊛ field "status" ⊛ time "created_time".

Definition ComputeCluster_json : Dec ComputeCluster :=
  struct mkComputeCluster ⊛ field "id" ⊛ field "name".

Definition ComputeClusterUser_json : Dec ComputeClusterUser :=
  struct mkComputeClusterUser ⊛ field "id" ⊛ field "compute_cluster_id" ⊛ field "user_id"
    ⊛ field "local_username" ⊛ field_of time_ptr_field "provisioned_at".

Definition ComputeAllocation_json : Dec ComputeAllocation :=
  struct mkComputeAllocation ⊛ field "id" ⊛ field "project_id" ⊛ field "name" ⊛ field "status"
    ⊛ field "compute_cluster_id" ⊛ field "initial_su_amount" ⊛ time "start_time" ⊛ time "end_time".

Definition ComputeAllocationResource_json : Dec ComputeAllocationResource :=
  struct mkComputeAllocationResource ⊛ field "id" ⊛ field "name" ⊛ field "resource_type"
    ⊛ field "resource_amount" ⊛ field "compute_cluster_id".

Definition ComputeAllocationResourceRate_json : Dec ComputeAllocationResourceRate :=
  struct mkComputeAllocationResourceRate ⊛ field "id" ⊛ field "compute_allocation_resource_id"
    ⊛ field "rate" ⊛ time "start_time" ⊛ time "end_time".

Definition ComputeAllocationDiff_json : Dec ComputeAllocationDiff :=
  struct mkComputeAllocationDiff ⊛ field "id" ⊛ field "compute_allocation_id" ⊛ field "diff_type"
    ⊛ field "new_su_amount" ⊛ field "status" ⊛ time "timestamp" ⊛ field "description".

Definition ComputeAllocationChangeRequest_json : Dec ComputeAllocationChangeRequest :=
  struct mkComputeAllocationChangeRequest ⊛ field "id" ⊛ field "compute_allocation_id"
    ⊛ field "requested_su_amount" ⊛ field "requested_status" ⊛ field "reason" ⊛ field "change_status"
    ⊛ field "requester_id" ⊛ field "approver_id" ⊛ time "timestamp".

Definition ComputeAllocationChangeRequestEvent_json : Dec ComputeAllocationChangeRequestEvent :=
  struct mkComputeAllocationChangeRequestEvent ⊛ field "id" ⊛ field "compute_allocation_change_request_id"
    ⊛ field "event_type" ⊛ field "description" ⊛ time "timestamp".

Definition ComputeAllocationUsage_json : Dec ComputeAllocationUsage :=
  struct mkComputeAllocationUsage ⊛ field "id" ⊛ field "compute_allocation_id" ⊛ field "used_raw_amount"
    ⊛ field "used_su_amount" ⊛ time "last_updated" ⊛ field "user_id" ⊛ field "job_id"
    ⊛ field "compute_allocation_resource_id".

Definition ComputeAllocationMembershipResourceOverride_json : Dec ComputeAllocationMembershipResourceOverride :=
  struct mkComputeAllocationMembershipResourceOverride ⊛ field "id"
    ⊛ field "compute_allocation_membership_id" ⊛ field "compute_allocation_resource_id"
    ⊛ field "override_resource_amount" ⊛ field "override_resource_time".

Definition ComputeAllocationMembership_json : Dec ComputeAllocationMembership :=
  struct mkComputeAllocationMembership ⊛ field "id" ⊛ field "compute_allocation_id" ⊛ field "user_id"
    ⊛ time "start_time" ⊛ time "end_time" ⊛ field "membership_status".

(** The request structs of internal/server. *)

Definition statusUpdateRequest : Dec string := field "status".
Definition membershipStatusRequest : Dec string := field "membership_status".
Definition userNameUpdateRequest : Dec (string * string * string) :=
  struct (λ a b c, (a, b, c)) ⊛ field "first_name" ⊛ field "middle_name" ⊛ field "last_name".
Definition mergeUsersRequest : Dec (string * string) :=
  struct pair ⊛ field "surviving_user_id" ⊛ field "retiring_user_id".
Definition attachResourceRequest : Dec (string * Z * Z) :=
  struct (λ a b c, (a, b, c)) ⊛ field "compute_allocation_resource_id" ⊛ field "resource_amount"
    ⊛ field "resource_time".
Definition updateAllocationResourceMappingRequest : Dec (Z * Z) :=
  struct pair ⊛ field "resource_amount" ⊛ field "resource_time".
Definition createRoleRequest : Dec (string * string) := struct pair ⊛ field "name" ⊛ field "description".
Definition updateRoleRequest : Dec (string * string) := struct pair ⊛ field "name" ⊛ field "description".
Definition rolePrivilegeRequest : Dec PrivilegeKey := field "privilege".
Definition grantRoleRequest : Dec (string * string) := struct pair ⊛ field "role_id" ⊛ field "reason".
Definition revokeRoleRequest : Dec string := field "reason".
Definition grantPrivilegeRequest : Dec (PrivilegeKey * string) := struct pair ⊛ field "privilege" ⊛ field "reason".
Definition revokePrivilegeRequest : Dec string := field "reason".
End bodies.

Section handlers.
Context `{E : Env} `{TL : TextLib} (markers : Markers).

(** ** route_policy.go *)

Definition canReadAllocation : Authorize := λ r,
  match CallerFromContext (r_ctx r) with
  | None => mret (Some missing_caller)
  | Some caller =>
      if ctx_HasPrivilege (r_ctx r) AllocationsRead then mret None else
      check (GetComputeAllocation (PathValue "id" r)) (λ alloc,
      check (ProjectRoleForUser (ComputeAllocation_ProjectID alloc) (Caller_UserID caller)) (λ role,
      if IsGovernanceRole role then mret None else
      check (IsAllocationMember (ComputeAllocation_ID alloc) (Caller_UserID caller)) (λ member,
      mret (if member : bool then None else Some (WriteServiceError ErrNotFound)))))
  end.

Definition canReadProject : Authorize := λ r,
  match CallerFromContext (r_ctx r) with
  | None => mret (Some missing_caller)
  | Some caller =>
      if ctx_HasPrivilege (r_ctx r) ProjectsRead then mret None else
      check (IsProjectParticipant (PathValue "id" r) (Caller_UserID caller)) (λ participant,
      mret (if participant : bool then None else Some (WriteServiceError ErrNotFound)))
  end.

(** ** organization.go *)

Definition createOrganization : Handler := λ r,
  decoded Organization_json r (λ org, call (CreateOrganization (Some org)) (λ o, created (ROrganization o))).

Definition listOrganizations : Handler := λ r,
  call (ListOrganizations (query_int "limit" 50 r) (query_int "offset" 0 r)) (ok_page ROrganization).

Definition getOrganization : Handler := λ r,
  call (GetOrganization (PathValue "id" r)) (λ org, ok (ROrganization org)).

(** ** user.go *)

Definition createUser : Handler := λ r,
  decoded User_json r (λ u, call (CreateUser (Some u)) (λ u', created (RUser u'))).

Definition listUsers : Handler := λ r,
  call (ListUsers (query_int "limit" 50 r) (query_int "offset" 0 r)) (ok_page RUser).

Definition getUser : Handler := λ r, call (GetUser (PathValue "id" r)) (λ u, ok (RUser u)).

Definition updateUserStatus : Handler := λ r,
  decoded statusUpdateRequest r (λ status,
  call (UpdateUserStatus (PathValue "id" r) status) (λ u, ok (RUser u))).

Definition updateUser : Handler := λ r,
  decoded userNameUpdateRequest r (λ '(first, middle, last),
  let id := PathValue "id" r in
  call (UpdateUser (Some (mkUser id "" first last middle "" "" ""))) (λ _,
  call (GetUser id) (λ updated, ok (RUser updated)))).

Definition mergeUsers : Handler := λ r,
  decoded mergeUsersRequest r (λ '(surviving, retiring),
  call (MergeUsers surviving retiring) (λ survivor, ok (RUser survivor))).

(** ** user_identity.go *)

Definition createUserIdentity : Handler := λ r,
  decoded UserIdentity_json r (λ e, call (CreateUserIdentity (Some e)) (λ e', created (RUserIdentity e'))).

Definition getUserIdentity : Handler := λ r,
  call (GetUserIdentity (PathValue "id" r)) (λ e, ok (RUserIdentity e)).

Definition getUserIdentityBySourceAndExternalID : Handler := λ r,
  call (GetUserIdentityBySourceAndExternalID (PathValue "source" r) (PathValue "externalId" r))
    (λ e, ok (RUserIdentity e)).

Definition getUserIdentityByOIDCSub : Handler := λ r,
  call (GetUserIdentityByOIDCSub (PathValue "oidcSub" r)) (λ e, ok (RUserIdentity e)).

Definition listUserIdentitiesForUser : Handler := λ r,
  call (ListUserIdentitiesForUser (PathValue "id" r)) (ok_list RUserIdentity).

Definition updateUserIdentity : Handler := λ r,
  decoded UserIdentity_json r (λ e,
  call (UpdateUserIdentity (Some (with_identity_id (PathValue "id" r) e))) (λ e', ok (RUserIdentity e'))).

Definition deleteUserIdentity : Handler := λ r,
  call (DeleteUserIdentity (PathValue "id" r)) (λ _, no_content).

(** ** project.go *)

Definition createProject : Handler := λ r,
  decoded Project_json r (λ p, call (CreateProject (Some p)) (λ p', created (RProject p'))).

Definition projectResponseFrom (p : ProjectWithPI) : ProjectResponse :=
  let full := TrimSpace (PWP_PIFirstName p +:+ " " +:+ PWP_PILastName p) in
  mkProjectResponse (PWP_Project p)
    (if decide (full ≠ "") then full else if decide (PWP_PIEmail p ≠ "") then PWP_PIEmail p else "")
    (PWP_PIEmail p).

Definition getProject : Handler := λ r,
  call (GetProjectWithPI (PathValue "id" r)) (λ p, ok (RProjectResponse (projectResponseFrom p))).

Definition updateProjectStatus : Handler := λ r,
  decoded statusUpdateRequest r (λ status,
  call (UpdateProjectStatus (PathValue "id" r) status) (λ p, ok (RProject p))).

Definition listProjects : Handler := λ r,
  requireCaller r (λ caller,
  if negb (ctx_HasPrivilege (r_ctx r) ProjectsRead) then
    call (ListProjectsForParticipant (Caller_UserID caller)) (λ rows,
    ok_page (λ p, RProjectResponse (projectResponseFrom p)) (rows, length rows))
  else
    let f := mkProjectListFilter (query_get "pi_id" (r_query r)) (query_get "status" (r_query r))
               (query_get "q" (r_query r)) (query_int "limit" 50 r) (query_int "offset" 0 r) in
    call (ListProjectsWithPI f) (ok_page (λ p, RProjectResponse (projectResponseFrom p)))).

(** The aggregation of [listProjectMembers]: the map by user, whose order is
    that of the slice [order]. *)
Definition allocation_ref (m : MembershipWithUser) : ProjectMemberAllocationRef :=
  mkAllocationRef (Membership_ComputeAllocationID (MWU_Membership m)) (MWU_AllocationName m) (MWU_Role m).

Definition add_member (st : list string * gmap string (MembershipWithUser * list ProjectMemberAllocationRef))
    (m : MembershipWithUser) : list string * gmap string (MembershipWithUser * list ProjectMemberAllocationRef) :=
  let uid := Membership_UserID (MWU_Membership m) in
  match st.2 !! uid with
  | Some (base, allocs) => (st.1, <[uid := (base, allocs ++ [allocation_ref m])]> st.2)
  | None => (st.1 ++ [uid], <[uid := (m, [allocation_ref m])]> st.2)
  end.

Definition member_response (projectID : string) (agg : MembershipWithUser * list ProjectMemberAllocationRef) :
    ProjectMemberResponse :=
  let base := MWU_Membership agg.1 in
  mkProjectMemberResponse (Membership_ID base) projectID (Membership_UserID base) (MWU_Email agg.1)
    (MWU_DisplayName agg.1) (MWU_Role agg.1) (Membership_MembershipStatus base) (Membership_StartTime base)
    agg.2.

Definition aggregate_members (projectID : string) (rows : list MembershipWithUser) : list ProjectMemberResponse :=
  let '(order, byUser) := foldl add_member ([], ∅) rows in
  omap (λ uid, member_response projectID <$> byUser !! uid) order.

Definition listProjectMembers : Handler := λ r,
  let projectID := PathValue "id" r in
  call (ListMembersForProject projectID) (λ rows, ok_list RProjectMember (aggregate_members projectID rows)).

(** ** compute_cluster.go *)

Definition createComputeCluster : Handler := λ r,
  decoded ComputeCluster_json r (λ c, call (CreateComputeCluster (Some c)) (λ c', created (RComputeCluster c'))).

Definition getComputeCluster : Handler := λ r,
  call (GetComputeCluster (PathValue "id" r)) (λ c, ok (RComputeCluster c)).

Definition listComputeClusters : Handler := λ r, call ListComputeClusters (ok_list RComputeCluster).

Definition createComputeClusterUser : Handler := λ r,
  decoded ComputeClusterUser_json r (λ cu,
  call (CreateComputeClusterUser (Some cu)) (λ cu', created (RComputeClusterUser cu'))).

Definition getComputeClusterUser : Handler := λ r,
  call (GetComputeClusterUser (PathValue "id" r)) (λ cu, ok (RComputeClusterUser cu)).

Definition updateComputeClusterUser : Handler := λ r,
  decoded ComputeClusterUser_json r (λ cu,
  call (UpdateComputeClusterUser (Some (with_cluster_user_id (PathValue "id" r) cu)))
    (λ cu', ok (RComputeClusterUser cu'))).

Definition deleteComputeClusterUser : Handler := λ r,
  call (DeleteComputeClusterUser (PathValue "id" r)) (λ _, no_content).

Definition listComputeClusterUsersByCluster : Handler := λ r,
  call (ListComputeClusterUsersByCluster (PathValue "id" r)) (ok_list RComputeClusterUser).

Definition getComputeClusterUserByPair : Handler := λ r,
  call (GetComputeClusterUserByPair (PathValue "id" r) (PathValue "userId" r)) (λ cu, ok (RComputeClusterUser cu)).

Definition listComputeClusterUsersByUser : Handler := λ r,
  call (ListComputeClusterUsersByUser (PathValue "id" r)) (ok_list RComputeClusterUser).

(** ** allocation.go *)

Definition createComputeAllocation : Handler := λ r,
  decoded ComputeAllocation_json r (λ a,
  call (CreateComputeAllocation (Some a)) (λ a', created (RComputeAllocation a'))).

Definition getComputeAllocation : Handler := λ r,
  call (GetComputeAllocation (PathValue "id" r)) (λ a, ok (RComputeAllocation a)).

Definition createComputeAllocationDiff : Handler := λ r,
  decoded ComputeAllocationDiff_json r (λ diff,
  call (CreateComputeAllocationDiff (Some diff)) (λ d, created (RDiff d))).

Definition getComputeAllocationDiff : Handler := λ r,
  call (GetComputeAllocationDiff (PathValue "id" r)) (λ diff, ok (RDiff diff)).

Definition deleteComputeAllocationDiff : Handler := λ r,
  call (DeleteComputeAllocationDiff (PathValue "id" r)) (λ _, no_content).

Definition listDiffsForAllocation : Handler := λ r,
  call (ListDiffsForAllocation (PathValue "id" r)) (ok_list RDiff).

Definition getLatestDiffForAllocation : Handler := λ r,
  call (GetLatestDiffForAllocation (PathValue "id" r)) (λ diff, ok (RDiff diff)).

Definition listComputeAllocations : Handler := λ r,
  requireCaller r (λ caller,
  if negb (ctx_HasPrivilege (r_ctx r) AllocationsRead) then
    call (ListComputeAllocationsForParticipant (Caller_UserID caller)) (λ rows,
    ok_page RComputeAllocation (rows, length rows))
  else
    let f := mkAllocationListFilter (query_get "project_id" (r_query r)) (query_get "status" (r_query r))
               (query_get "q" (r_query r)) (query_int "limit" 50 r) (query_int "offset" 0 r) in
    call (ListComputeAllocations f) (ok_page RComputeAllocation)).

(** ** allocation_resource.go *)

Definition createComputeAllocationResource : Handler := λ r,
  decoded ComputeAllocationResource_json r (λ res,
  call (CreateComputeAllocationResource (Some res)) (λ res', created (RResource res'))).

Definition getComputeAllocationResource : Handler := λ r,
  call (GetComputeAllocationResource (PathValue "id" r)) (λ res, ok (RResource res)).

Definition listComputeAllocationResources : Handler := λ r,
  call ListComputeAllocationResources (ok_list RResource).

Definition listComputeAllocationResourceSummaries : Handler := λ r,
  call ListComputeAllocationResourceSummaries (ok_list RResourceSummary).

Definition attachResourceToAllocation : Handler := λ r,
  decoded attachResourceRequest r (λ '(resourceID, amount, time),
  call (AttachResourceToAllocation (PathValue "id" r) resourceID amount time) (λ m, created (RMapping m))).

Definition updateAllocationResourceMapping : Handler := λ r,
  decoded updateAllocationResourceMappingRequest r (λ '(amount, time),
  call (UpdateAllocationResourceMapping (PathValue "id" r) (PathValue "resourceId" r) amount time)
    (λ m, ok (RMapping m))).

Definition detachResourceFromAllocation : Handler := λ r,
  call (DetachResourceFromAllocation (PathValue "id" r) (PathValue "resourceId" r)) (λ _, no_content).

Definition listResourcesForAllocation : Handler := λ r,
  call (ListResourcesForAllocation (PathValue "id" r)) (ok_list RResource).

Definition listAllocationsForResource : Handler := λ r,
  call (ListAllocationsForResource (PathValue "id" r)) (ok_list RComputeAllocation).

Definition createComputeAllocationResourceRate : Handler := λ r,
  decoded ComputeAllocationResourceRate_json r (λ rate,
  call (CreateComputeAllocationResourceRate (Some rate)) (λ x, created (RRate x))).

Definition getComputeAllocationResourceRate : Handler := λ r,
  call (GetComputeAllocationResourceRate (PathValue "id" r)) (λ rate, ok (RRate rate)).

Definition listRatesForResource : Handler := λ r,
  call (ListRatesForResource (PathValue "id" r)) (ok_list RRate).

Definition getEffectiveRateForResource : Handler := λ r,
  let raw := query_get "at" (r_query r) in
  let effective at_time :=
    call (GetEffectiveRateForResource (PathValue "id" r) at_time) (λ rate, ok (RRate rate)) in
  if decide (raw = "") then effective zero_time else
  match time_Parse raw with
  | None => mret (WriteError 400 (JMessage "invalid 'at' query parameter; expected RFC 3339"))
  | Some parsed => effective parsed
  end.

(** ** allocation_change_request.go *)

Definition createComputeAllocationChangeRequest : Handler := λ r,
  decoded ComputeAllocationChangeRequest_json r (λ req,
  call (CreateComputeAllocationChangeRequest (Some req)) (λ c, created (RChangeRequest c))).

Definition getComputeAllocationChangeRequest : Handler := λ r,
  call (GetComputeAllocationChangeRequest (PathValue "id" r)) (λ c, ok (RChangeRequest c)).

Definition with_change_request_id (id : string) (c : ComputeAllocationChangeRequest) :
    ComputeAllocationChangeRequest :=
  mkComputeAllocationChangeRequest id (ChangeRequest_ComputeAllocationID c) (ChangeRequest_RequestedSUAmount c)
    (ChangeRequest_RequestedStatus c) (ChangeRequest_Reason c) (ChangeRequest_ChangeStatus c)
    (ChangeRequest_RequesterID c) (ChangeRequest_ApproverID c) (ChangeRequest_Timestamp c).

Definition updateComputeAllocationChangeRequest : Handler := λ r,
  decoded ComputeAllocationChangeRequest_json r (λ req,
  call (UpdateComputeAllocationChangeRequest (Some (with_change_request_id (PathValue "id" r) req)))
    (λ c, ok (RChangeRequest c))).

Definition deleteComputeAllocationChangeRequest : Handler := λ r,
  call (DeleteComputeAllocationChangeRequest (PathValue "id" r)) (λ _, no_content).

Definition listChangeRequestsForAllocation : Handler := λ r,
  call (ListChangeRequestsForAllocation (PathValue "id" r)) (ok_list RChangeRequest).

Definition listChangeRequestsByRequester : Handler := λ r,
  call (ListChangeRequestsByRequester (PathValue "id" r)) (ok_list RChangeRequest).

Definition createComputeAllocationChangeRequestEvent : Handler := λ r,
  decoded ComputeAllocationChangeRequestEvent_json r (λ evt,
  call (CreateComputeAllocationChangeRequestEvent (Some evt)) (λ e, created (RChangeEvent e))).

Definition getComputeAllocationChangeRequestEvent : Handler := λ r,
  call (GetComputeAllocationChangeRequestEvent (PathValue "id" r)) (λ evt, ok (RChangeEvent evt)).

Definition deleteComputeAllocationChangeRequestEvent : Handler := λ r,
  call (DeleteComputeAllocationChangeRequestEvent (PathValue "id" r)) (λ _, no_content).

Definition listEventsForChangeRequest : Handler := λ r,
  call (ListEventsForChangeRequest (PathValue "id" r)) (ok_list RChangeEvent).

Definition getLatestEventForChangeRequest : Handler := λ r,
  call (GetLatestEventForChangeRequest (PathValue "id" r)) (λ evt, ok (RChangeEvent evt)).

Definition listChangeRequests : Handler := λ r,
  let f := mkChangeRequestListFilter (query_get "status" (r_query r)) (query_int "limit" 50 r) in
  call (ListChangeRequests f) (ok_list RChangeRequest).

(** ** allocation_membership.go *)

Definition createComputeAllocationMembership : Handler := λ r,
  decoded ComputeAllocationMembership_json r (λ m,
  call (CreateComputeAllocationMembership (Some m)) (λ m', created (RMembership m'))).

Definition getComputeAllocationMembership : Handler := λ r,
  call (GetComputeAllocationMembership (PathValue "id" r)) (λ m, ok (RMembership m)).

Definition with_membership_id (id : string) (m : ComputeAllocationMembership) : ComputeAllocationMembership :=
  mkComputeAllocationMembership id (Membership_ComputeAllocationID m) (Membership_UserID m)
    (Membership_StartTime m) (Membership_EndTime m) (Membership_MembershipStatus m).

Definition updateComputeAllocationMembership : Handler := λ r,
  decoded ComputeAllocationMembership_json r (λ m,
  call (UpdateComputeAllocationMembership (Some (with_membership_id (PathValue "id" r) m)))
    (λ m', ok (RMembership m'))).

Definition updateMembershipStatus : Handler := λ r,
  decoded membershipStatusRequest r (λ status,
  call (UpdateMembershipStatus (PathValue "id" r) status) (λ m, ok (RMembership m))).

Definition deleteComputeAllocationMembership : Handler := λ r,
  call (DeleteComputeAllocationMembership (PathValue "id" r)) (λ _, no_content).

Definition allocation_member (m : MembershipWithUser) : AllocationMembershipResponse :=
  mkAllocationMembershipResponse (MWU_Membership m) (MWU_Role m) (MWU_DisplayName m) (MWU_Email m).

Definition listMembersForAllocation : Handler := λ r,
  call (ListMembersForAllocation (PathValue "id" r)) (ok_list (λ m, RAllocationMember (allocation_member m))).

Definition listAllocationsForUser : Handler := λ r,
  call (ListAllocationsForUser (PathValue "id" r)) (ok_list RMembership).

Definition createComputeAllocationMembershipResourceOverride : Handler := λ r,
  decoded ComputeAllocationMembershipResourceOverride_json r (λ o,
  call (CreateComputeAllocationMembershipResourceOverride (Some o)) (λ o', created (ROverride o'))).

Definition getComputeAllocationMembershipResourceOverride : Handler := λ r,
  call (GetComputeAllocationMembershipResourceOverride (PathValue "id" r)) (λ o, ok (ROverride o)).

Definition updateComputeAllocationMembershipResourceOverride : Handler := λ r,
  decoded ComputeAllocationMembershipResourceOverride_json r (λ o,
  call (UpdateComputeAllocationMembershipResourceOverride (Some (with_override_id (PathValue "id" r) o)))
    (λ o', ok (ROverride o'))).

Definition deleteComputeAllocationMembershipResourceOverride : Handler := λ r,
  call (DeleteComputeAllocationMembershipResourceOverride (PathValue "id" r)) (λ _, no_content).

Definition listOverridesForMembership : Handler := λ r,
  call (ListOverridesForMembership (PathValue "id" r)) (ok_list ROverride).

Definition listOverridesForResource : Handler := λ r,
  call (ListOverridesForResource (PathValue "id" r)) (ok_list ROverride).

(** ** allocation_usage.go *)

Definition createComputeAllocationUsage : Handler := λ r,
  decoded ComputeAllocationUsage_json r (λ u,
  call (CreateComputeAllocationUsage (Some u)) (λ u', created (RUsage u'))).

Definition getComputeAllocationUsage : Handler := λ r,
  call (GetComputeAllocationUsage (PathValue "id" r)) (λ u, ok (RUsage u)).

Definition deleteComputeAllocationUsage : Handler := λ r,
  call (DeleteComputeAllocationUsage (PathValue "id" r)) (λ _, no_content).

Definition listUsagesForAllocation : Handler := λ r,
  call (ListUsagesForAllocation (PathValue "id" r)) (ok_list RUsage).

Definition listUsagesByUser : Handler := λ r,
  call (ListUsagesByUser (PathValue "id" r)) (ok_list RUsage).

Definition getTotalSUUsageForAllocation : Handler := λ r,
  call (GetTotalSUUsageForAllocation (PathValue "id" r)) (λ total,
  ok (RSUTotal (mkSUTotal (PathValue "id" r) None total))).

Definition getTotalSUUsageForUserInAllocation : Handler := λ r,
  let allocationID := PathValue "id" r in
  let userID := PathValue "userId" r in
  call (GetTotalSUUsageForUserInAllocation allocationID userID) (λ total,
  ok (RSUTotal (mkSUTotal allocationID (Some userID) total))).

(** ** role.go *)

Definition listRoles : Handler := λ r, call ListRoles (λ rows, ok_list RRole rows).

Definition getRole : Handler := λ r,
  let roleID := PathValue "id" r in
  bad_request (roleID = "") "role id is required" (
  call (GetRole roleID) (λ role,
  call (ListRolePrivileges roleID) (λ keys, mret (WriteJSON 200 (JRoleWithKeys role keys))))).

Definition createRole : Handler := λ r,
  requireCaller r (λ caller,
  decoded createRoleRequest r (λ '(name, description),
  call (CreateRole name description (Caller_UserID caller)) (λ role,
  created (RRole role)))).

Definition updateRole : Handler := λ r,
  let roleID := PathValue "id" r in
  bad_request (roleID = "") "role id is required" (
  requireCaller r (λ caller,
  decoded updateRoleRequest r (λ '(name, description),
  call (UpdateRole roleID name description (Caller_UserID caller)) (λ role,
  _ ← InvalidateAllIdentities;
  ok (RRole role))))).

Definition deleteRole : Handler := λ r,
  let roleID := PathValue "id" r in
  bad_request (roleID = "") "role id is required" (
  requireCaller r (λ caller,
  call (DeleteRole roleID (Caller_UserID caller)) (λ _,
  _ ← InvalidateAllIdentities;
  no_content))).

Definition addRolePrivilege : Handler := λ r,
  let roleID := PathValue "id" r in
  bad_request (roleID = "") "role id is required" (
  requireCaller r (λ caller,
  decoded rolePrivilegeRequest r (λ privilege,
  call (AddPrivilegeToRole roleID privilege (Caller_UserID caller)) (λ _,
  _ ← InvalidateAllIdentities;
  no_content)))).

Definition removeRolePrivilege : Handler := λ r,
  let roleID := PathValue "id" r in
  let key := PathValue "key" r in
  bad_request (roleID = "" ∨ key = "") "role id and privilege key are required" (
  requireCaller r (λ caller,
  call (RemovePrivilegeFromRole roleID key (Caller_UserID caller)) (λ _,
  _ ← InvalidateAllIdentities;
  no_content))).

Definition listUserRoles : Handler := λ r,
  let userID := PathValue "id" r in
  bad_request (userID = "") "user id is required" (
  call (ListUserRoles userID) (λ rows, ok_list RUserRole rows)).

Definition listRoleHolders : Handler := λ r,
  let roleID := PathValue "id" r in
  bad_request (roleID = "") "role id is required" (
  call (ListRoleHolders roleID) (λ rows, ok_list RUserRole rows)).

Definition grantRoleToUser : Handler := λ r,
  let userID := PathValue "id" r in
  bad_request (userID = "") "user id is required" (
  requireCaller r (λ caller,
  decoded grantRoleRequest r (λ '(roleID, reason),
  call (GrantRoleToUser userID roleID (Caller_UserID caller) reason) (λ assignment,
  _ ← InvalidateAllIdentities;
  created (RUserRole assignment))))).

(** The error of the decoder is ignored. *)
Definition revokeRoleFromUser : Handler := λ r,
  let userID := PathValue "id" r in
  let roleID := PathValue "roleId" r in
  bad_request (userID = "" ∨ roleID = "") "user id and role id are required" (
  requireCaller r (λ caller,
  call (RevokeRoleFromUser userID roleID (Caller_UserID caller) (DecodeJSON revokeRoleRequest r).1) (λ _,
  _ ← InvalidateAllIdentities;
  no_content))).

(** ** privilege.go *)

Definition getCallerPrivileges : Handler := λ r,
  requireCaller r (λ _, mret (WriteJSON 200 (JKeys (PrivilegesFromContext (r_ctx r))))).

Definition getCallerProfile : Handler := λ r,
  requireCaller r (λ caller,
  call (GetUser (Caller_UserID caller)) (λ user,
  call (EffectivePrivileges (Caller_UserID caller)) (λ keys,
  call (ListUserRolesWithPrivileges (Caller_UserID caller)) (λ details,
  mret (WriteJSON 200 (JProfile user keys details)))))).

Definition getPrivilegeCatalog : Handler := λ r,
  keys ← PrivilegeCatalog; mret (WriteJSON 200 (JKeys keys)).

Definition listUserPrivileges : Handler := λ r,
  let userID := PathValue "id" r in
  bad_request (userID = "") "user id is required" (
  call (ListUserPrivileges userID) (λ rows, ok_list RUserPrivilege rows)).

Definition listPrivilegeHolders : Handler := λ r,
  let key := PathValue "key" r in
  known ← IsKnownPrivilege key;
  bad_request (known = false) "unknown privilege key" (
  call (ListPrivilegeHolders key) (λ rows, ok_list RUserPrivilege rows)).

Definition grantPrivilege : Handler := λ r,
  let userID := PathValue "id" r in
  bad_request (userID = "") "user id is required" (
  requireCaller r (λ caller,
  decoded grantPrivilegeRequest r (λ '(privilege, reason),
  call (GrantPrivilege userID privilege (Caller_UserID caller) reason) (λ grant,
  _ ← InvalidateAllIdentities;
  created (RUserPrivilege grant))))).

Definition revokePrivilege : Handler := λ r,
  let userID := PathValue "id" r in
  let key := PathValue "key" r in
  bad_request (userID = "" ∨ key = "") "user id and privilege key are required" (
  requireCaller r (λ caller,
  call (RevokePrivilege userID key (Caller_UserID caller) (DecodeJSON revokePrivilegeRequest r).1) (λ _,
  _ ← InvalidateAllIdentities;
  no_content))).

(** ** audit_handlers.go *)

Definition traceIDHexLen : nat := 32.
Definition spanIDHexLen : nat := 16.
Definition maxTraceListLimit : Z := 200.
Definition defaultTraceLimit : Z := 50.
Definition maxTraceOffset : Z := 1000000.
(** 365 days, in microseconds. *)
Definition maxAuditWindow : Z := 31536000000000.

Definition isValidStatus (raw : string) : bool :=
  bool_decide (raw ∈ ["ok"; "error"; "in_progress"]).

Definition is_lower_hex (c : ascii) : bool :=
  let n := nat_of_ascii c in
  ((48 <=? n)%nat && (n <=? 57)%nat) || ((97 <=? n)%nat && (n <=? 102)%nat).

Fixpoint string_forallb (f : ascii → bool) (s : string) : bool :=
  match s with EmptyString => true | String c s' => f c && string_forallb f s' end.

(** The text of the error names the lengths; it is left open. *)
Definition validateHexID (raw : string) (wantLen : nat) : string + string :=
  if decide (String.length raw ≠ wantLen) then inl "expected lowercase hex id"
  else if string_forallb is_lower_hex raw then inr raw else inl "invalid hex id".

(** A time parameter: absent, or readable. *)
Definition time_param (name msg : string) (r : HttpRequest) : string + Time :=
  let raw := query_get name (r_query r) in
  if decide (raw = "") then inr zero_time
  else match time_Parse raw with Some t => inr t | None => inl msg end.

(** A count parameter: absent, or a number that is not negative. *)
Definition count_param (name msg : string) (r : HttpRequest) : string + Z :=
  let raw := query_get name (r_query r) in
  if decide (raw = "") then inr 0%Z
  else match ParseInt raw with
       | Some n => if decide (n < 0)%Z then inl msg else inr n
       | None => inl msg
       end.

Definition parseTraceFilter (r : HttpRequest) : string + TraceFilter :=
  let statuses := splitMulti (query_all "status" (r_query r)) in
  match head (filter (λ s, isValidStatus s = false) statuses) with
  | Some raw => inl ("invalid status: " +:+ raw)
  | None =>
      match time_param "from" "invalid from: expected RFC3339" r with
      | inl e => inl e
      | inr from =>
          match time_param "to" "invalid to: expected RFC3339" r with
          | inl e => inl e
          | inr to =>
              if decide (¬ IsZero from ∧ ¬ IsZero to ∧ (to - from > maxAuditWindow)%Z)
              then inl "window exceeds maximum of 365d"
              else match count_param "limit" "invalid limit" r with
                   | inl e => inl e
                   | inr n =>
                       let limit := Z.min n maxTraceListLimit in
                       let limit := if decide (limit = 0)%Z then defaultTraceLimit else limit in
                       match count_param "offset" "invalid offset" r with
                       | inl e => inl e
                       | inr offset =>
                           if decide (offset > maxTraceOffset)%Z then inl "offset exceeds maximum"
                           else inr (mkTraceFilter (splitMulti (query_all "source" (r_query r))) statuses
                                       from to (TrimSpace (query_get "q" (r_query r))) limit offset)
                       end
                   end
          end
      end
  end.

(** The store is always configured in a server built by [service.New]. *)
Definition handleListTraces : Handler := λ r,
  match parseTraceFilter r with
  | inl msg => mret (WriteError 400 (JMessage msg))
  | inr f => call500 (ListTraces markers f) (λ '(rows, total),
             mret (WriteJSON 200 (JTraces rows total (TF_Limit f) (TF_Offset f))))
  end.

Definition handleGetTrace : Handler := λ r,
  match validateHexID (PathValue "trace_id" r) traceIDHexLen with
  | inl msg => mret (WriteError 400 (JMessage msg))
  | inr traceID =>
      call500 (GetTraceTree traceID) (λ res,
      mret (match res with
            | None => WriteError 404 (JMessage "trace not found")
            | Some (tree, truncated) => WriteJSON 200 (JTraceTree traceID tree truncated)
            end))
  end.

Definition handleListEvents : Handler := λ r,
  match validateHexID (query_get "trace_id" (r_query r)) traceIDHexLen with
  | inl msg => mret (WriteError 400 (JMessage msg))
  | inr traceID =>
      let raw := query_get "span_id" (r_query r) in
      match (if decide (raw = "") then inr "" else validateHexID raw spanIDHexLen) with
      | inl msg => mret (WriteError 400 (JMessage msg))
      | inr spanID => call500 (ListEvents traceID spanID) (λ events, mret (WriteJSON 200 (JEvents events)))
      end
  end.

Definition handleListSources : Handler := λ r,
  call500 ListSources (λ sources, mret (WriteJSON 200 (JSources sources))).

(** ** server.go *)

Definition healthz : Handler := λ _, mret (WriteJSON 200 (JMessage "ok")).

(** ** The temporary-account connector (connectors/TempAccount) *)

Definition not_virtual : string := "User type must be VIRTUAL".

Definition createTempAccount : Handler := λ r,
  decoded User_json r (λ u,
  bad_request (User_Type u ≠ UserTypeVirtual) not_virtual
  (call (CreateUser (Some u)) (λ u', created (RUser u')))).

(** [GetUser] answers with a user or an error, never with nil. *)
Definition removeTempAccount : Handler := λ r,
  let userID := PathValue "user_id" r in
  bad_request (userID = "") "user_id query parameter is required"
  (call (GetUser userID) (λ user,
   bad_request (User_Type user ≠ UserTypeVirtual) not_virtual
   (call (DeleteUser userID) (λ _, no_content)))).

Definition assignAllocationToTempAccount : Handler := λ r,
  decoded ComputeAllocationMembership_json r (λ m,
  bad_request (Membership_UserID m = "" ∨ Membership_ComputeAllocationID m = "")
    "UserID and ComputeAllocationID must be provided"
  (call (GetUser (Membership_UserID m)) (λ user,
   bad_request (User_Type user ≠ UserTypeVirtual) not_virtual
   (call (CreateComputeAllocationMembership (Some m)) (λ m', ok (RMembership m')))))).

Definition updateAllocationToTempAccount : Handler := λ r,
  decoded ComputeAllocationMembership_json r (λ m,
  bad_request (Membership_UserID m = "" ∨ Membership_ComputeAllocationID m = "")
    "UserID and ComputeAllocationID must be provided"
  (call (UpdateComputeAllocationMembership (Some m)) (λ m', ok (RMembership m')))).

(** The rows of a SELECT without any are a nil slice. *)
Definition getAllocationMembershipForTempUser : Handler := λ r,
  let userID := PathValue "user_id" r in
  bad_request (userID = "") "user_id query parameter is required"
  (call (GetUser userID) (λ user,
   bad_request (User_Type user ≠ UserTypeVirtual) not_virtual
   (call (ListAllocationsForUser userID) (λ memberships,
    if decide (memberships = []) then mret (WriteError 404 (JMessage "membership not found for user"))
    else ok_list RMembership memberships)))).

(** [writeNotImplemented] of the AMIE connector; the body is its code and its message. *)
Definition writeNotImplemented (op : string) : Handler := λ _,
  mret (WriteJSON 501 (JOther ("not_implemented: " +:+ op +:+ " not supported on this branch"))).
End handlers.

Inductive Scope := ScopeAllocation | ScopeProject.
Inductive Policy :=
  | PolPublic
  | PolPrivilege (k : PrivilegeKey)
  | PolAuth
  | PolScoped (s : Scope).
#[export] Instance Policy_eq_dec : EqDecision Policy.
Proof. intros x y. unfold Decision. decide equality; [apply String.eq_dec|decide equality]. Defined.

(** One line of [routes]. *)
Record Route := mkRoute {
  route_pattern : string;
  route_policy : Policy;
  route_handler : Handler }.

(** The connectors of internal/connectors/loader.go, and the privileges of their
    routes. *)
Inductive ConnectorType :=
  | slurm_association_mapper | amie_processor | comanage_identity_provisioner
  | slurm_usage_monitor | temp_account | analytics.

Definition AccountsRead : PrivilegeKey := "temp-account:accounts:read".
Definition AccountsWrite : PrivilegeKey := "temp-account:accounts:write".
Definition PacketsRead : PrivilegeKey := "amie:packets:read".
Definition PacketsWrite : PrivilegeKey := "amie:packets:write".
Definition RepliesRead : PrivilegeKey := "amie:replies:read".
Definition RepliesWrite : PrivilegeKey := "amie:replies:write".
Definition UnmappedRead : PrivilegeKey := "amie:unmapped:read".
Definition UnmappedWrite : PrivilegeKey := "amie:unmapped:write".

(** What is configured: the markers of the trace views, the connectors that are
    enabled, and the handlers of the connectors' reports (the GET routes of AMIE
    and analytics), by pattern, which are left open. *)
Record Deployment := mkDeployment {
  dep_markers : Markers;
  dep_connectors : list ConnectorType;
  dep_report : string → Handler }.

Section server.
Context `{E : Env} `{TL : TextLib}.

Definition scope_policy (s : Scope) : Authorize :=
  match s with ScopeAllocation => canReadAllocation | ScopeProject => canReadProject end.

(** [routes] (server.go), line by line. *)
Definition route_table (markers : Markers) : list Route := [
  mkRoute "GET /healthz" PolPublic healthz;
  mkRoute "POST /organizations" (PolPrivilege OrganizationsWrite) createOrganization;
  mkRoute "GET /organizations" (PolPrivilege OrganizationsRead) listOrganizations;
  mkRoute "GET /organizations/{id}" (PolPrivilege OrganizationsRead) getOrganization;
  mkRoute "POST /users" (PolPrivilege UsersWrite) createUser;
  mkRoute "GET /users" (PolPrivilege UsersRead) listUsers;
  mkRoute "GET /users/{id}" (PolPrivilege UsersRead) getUser;
  mkRoute "PUT /users/{id}" (PolPrivilege UsersWrite) updateUser;
  mkRoute "PUT /users/{id}/status" (PolPrivilege UsersWrite) updateUserStatus;
  mkRoute "POST /users/merge" (PolPrivilege UsersWrite) mergeUsers;
  mkRoute "GET /projects" PolAuth listProjects;
  mkRoute "POST /projects" (PolPrivilege ProjectsWrite) createProject;
  mkRoute "GET /projects/{id}" (PolScoped ScopeProject) getProject;
  mkRoute "PUT /projects/{id}/status" (PolPrivilege ProjectsWrite) updateProjectStatus;
  mkRoute "GET /projects/{id}/members" (PolPrivilege ProjectsRead) listProjectMembers;
  mkRoute "POST /compute-clusters" (PolPrivilege ClustersWrite) createComputeCluster;
  mkRoute "GET /compute-clusters" (PolPrivilege ClustersRead) listComputeClusters;
  mkRoute "GET /compute-clusters/{id}" (PolPrivilege ClustersRead) getComputeCluster;
  mkRoute "POST /compute-cluster-users" (PolPrivilege ClustersWrite) createComputeClusterUser;
  mkRoute "GET /compute-cluster-users/{id}" (PolPrivilege ClustersRead) getComputeClusterUser;
  mkRoute "PUT /compute-cluster-users/{id}" (PolPrivilege ClustersWrite) updateComputeClusterUser;
  mkRoute "DELETE /compute-cluster-users/{id}" (PolPrivilege ClustersWrite) deleteComputeClusterUser;
  mkRoute "GET /compute-clusters/{id}/users" (PolPrivilege ClustersRead) listComputeClusterUsersByCluster;
  mkRoute "GET /compute-clusters/{id}/users/{userId}" (PolPrivilege ClustersRead) getComputeClusterUserByPair;
  mkRoute "GET /users/{id}/compute-cluster-users" (PolPrivilege ClustersRead) listComputeClusterUsersByUser;
  mkRoute "GET /compute-allocations" PolAuth listComputeAllocations;
  mkRoute "POST /compute-allocations" (PolPrivilege AllocationsWrite) createComputeAllocation;
  mkRoute "GET /compute-allocations/{id}" (PolScoped ScopeAllocation) getComputeAllocation;
  mkRoute "POST /compute-allocation-resources" (PolPrivilege AllocationsWrite) createComputeAllocationResource;
  mkRoute "GET /compute-allocation-resources" (PolPrivilege AllocationsRead) listComputeAllocationResources;
  mkRoute "GET /compute-allocation-resources/summary" (PolPrivilege AllocationsRead) listComputeAllocationResourceSummaries;
  mkRoute "GET /compute-allocation-resources/{id}" (PolPrivilege AllocationsRead) getComputeAllocationResource;
  mkRoute "GET /compute-allocations/{id}/resources" (PolScoped ScopeAllocation) listResourcesForAllocation;
  mkRoute "POST /compute-allocations/{id}/resources" (PolPrivilege AllocationsWrite) attachResourceToAllocation;
  mkRoute "PUT /compute-allocations/{id}/resources/{resourceId}" (PolPrivilege AllocationsWrite) updateAllocationResourceMapping;
  mkRoute "DELETE /compute-allocations/{id}/resources/{resourceId}" (PolPrivilege AllocationsWrite) detachResourceFromAllocation;
  mkRoute "GET /compute-allocation-resources/{id}/allocations" (PolPrivilege AllocationsRead) listAllocationsForResource;
  mkRoute "POST /compute-allocation-resource-rates" (PolPrivilege AllocationsWrite) createComputeAllocationResourceRate;
  mkRoute "GET /compute-allocation-resource-rates/{id}" (PolPrivilege AllocationsRead) getComputeAllocationResourceRate;
  mkRoute "GET /compute-allocation-resources/{id}/rates" (PolPrivilege AllocationsRead) listRatesForResource;
  mkRoute "GET /compute-allocation-resources/{id}/rates/effective" (PolPrivilege AllocationsRead) getEffectiveRateForResource;
  mkRoute "POST /compute-allocation-diffs" (PolPrivilege AllocationsWrite) createComputeAllocationDiff;
  mkRoute "GET /compute-allocation-diffs/{id}" (PolPrivilege AllocationsRead) getComputeAllocationDiff;
  mkRoute "DELETE /compute-allocation-diffs/{id}" (PolPrivilege AllocationsWrite) deleteComputeAllocationDiff;
  mkRoute "GET /compute-allocations/{id}/diffs" (PolPrivilege AllocationsRead) listDiffsForAllocation;
  mkRoute "GET /compute-allocations/{id}/diffs/latest" (PolPrivilege AllocationsRead) getLatestDiffForAllocation;
  mkRoute "GET /compute-allocation-change-requests" (PolPrivilege AllocationsRead) listChangeRequests;
  mkRoute "POST /compute-allocation-change-requests" (PolPrivilege AllocationsWrite) createComputeAllocationChangeRequest;
  mkRoute "GET /compute-allocation-change-requests/{id}" (PolPrivilege AllocationsRead) getComputeAllocationChangeRequest;
  mkRoute "PUT /compute-allocation-change-requests/{id}" (PolPrivilege AllocationsWrite) updateComputeAllocationChangeRequest;
  mkRoute "DELETE /compute-allocation-change-requests/{id}" (PolPrivilege AllocationsWrite) deleteComputeAllocationChangeRequest;
  mkRoute "GET /compute-allocations/{id}/change-requests" (PolPrivilege AllocationsRead) listChangeRequestsForAllocation;
  mkRoute "GET /users/{id}/change-requests" (PolPrivilege AllocationsRead) listChangeRequestsByRequester;
  mkRoute "POST /compute-allocation-change-request-events" (PolPrivilege AllocationsWrite) createComputeAllocationChangeRequestEvent;
  mkRoute "GET /compute-allocation-change-request-events/{id}" (PolPrivilege AllocationsRead) getComputeAllocationChangeRequestEvent;
  mkRoute "DELETE /compute-allocation-change-request-events/{id}" (PolPrivilege AllocationsWrite) deleteComputeAllocationChangeRequestEvent;
  mkRoute "GET /compute-allocation-change-requests/{id}/events" (PolPrivilege AllocationsRead) listEventsForChangeRequest;
  mkRoute "GET /compute-allocation-change-requests/{id}/events/latest" (PolPrivilege AllocationsRead) getLatestEventForChangeRequest;
  mkRoute "POST /compute-allocation-memberships" (PolPrivilege AllocationsWrite) createComputeAllocationMembership;
  mkRoute "GET /compute-allocation-memberships/{id}" (PolPrivilege AllocationsRead) getComputeAllocationMembership;
  mkRoute "PUT /compute-allocation-memberships/{id}" (PolPrivilege AllocationsWrite) updateComputeAllocationMembership;
  mkRoute "PUT /compute-allocation-memberships/{id}/status" (PolPrivilege AllocationsWrite) updateMembershipStatus;
  mkRoute "DELETE /compute-allocation-memberships/{id}" (PolPrivilege AllocationsWrite) deleteComputeAllocationMembership;
  mkRoute "GET /compute-allocations/{id}/memberships" (PolScoped ScopeAllocation) listMembersForAllocation;
  mkRoute "GET /users/{id}/compute-allocation-memberships" (PolPrivilege AllocationsRead) listAllocationsForUser;
  mkRoute "GET /compute-allocation-memberships/{id}/resource-overrides" (PolPrivilege AllocationsRead) listOverridesForMembership;
  mkRoute "POST /compute-allocation-membership-resource-overrides" (PolPrivilege AllocationsWrite) createComputeAllocationMembershipResourceOverride;
  mkRoute "GET /compute-allocation-membership-resource-overrides/{id}" (PolPrivilege AllocationsRead) getComputeAllocationMembershipResourceOverride;
  mkRoute "PUT /compute-allocation-membership-resource-overrides/{id}" (PolPrivilege AllocationsWrite) updateComputeAllocationMembershipResourceOverride;
  mkRoute "DELETE /compute-allocation-membership-resource-overrides/{id}" (PolPrivilege AllocationsWrite) deleteComputeAllocationMembershipResourceOverride;
  mkRoute "GET /compute-allocation-resources/{id}/membership-overrides" (PolPrivilege AllocationsRead) listOverridesForResource;
  mkRoute "POST /compute-allocation-usages" (PolPrivilege AllocationsWrite) createComputeAllocationUsage;
  mkRoute "GET /compute-allocation-usages/{id}" (PolPrivilege AllocationsRead) getComputeAllocationUsage;
  mkRoute "DELETE /compute-allocation-usages/{id}" (PolPrivilege AllocationsWrite) deleteComputeAllocationUsage;
  mkRoute "GET /compute-allocations/{id}/usages" (PolScoped ScopeAllocation) listUsagesForAllocation;
  mkRoute "GET /compute-allocations/{id}/usages/total" (PolScoped ScopeAllocation) getTotalSUUsageForAllocation;
  mkRoute "GET /compute-allocations/{id}/users/{userId}/usages/total" (PolPrivilege AllocationsRead) getTotalSUUsageForUserInAllocation;
  mkRoute "GET /users/{id}/compute-allocation-usages" (PolPrivilege AllocationsRead) listUsagesByUser;
  mkRoute "POST /user-identities" (PolPrivilege UsersWrite) createUserIdentity;
  mkRoute "GET /user-identities/{id}" (PolPrivilege UsersRead) getUserIdentity;
  mkRoute "PUT /user-identities/{id}" (PolPrivilege UsersWrite) updateUserIdentity;
  mkRoute "DELETE /user-identities/{id}" (PolPrivilege UsersWrite) deleteUserIdentity;
  mkRoute "GET /user-identities/sources/{source}/external/{externalId}" (PolPrivilege UsersRead) getUserIdentityBySourceAndExternalID;
  mkRoute "GET /user-identities/oidc-subjects/{oidcSub}" (PolPrivilege UsersRead) getUserIdentityByOIDCSub;
  mkRoute "GET /users/{id}/user-identities" (PolPrivilege UsersRead) listUserIdentitiesForUser;
  mkRoute "GET /user/privileges" PolAuth getCallerPrivileges;
  mkRoute "GET /me" PolAuth getCallerProfile;
  mkRoute "GET /privileges/catalog" (PolPrivilege PrivilegesGrant) getPrivilegeCatalog;
  mkRoute "GET /users/{id}/privileges" (PolPrivilege PrivilegesGrant) listUserPrivileges;
  mkRoute "GET /privileges/{key}/holders" (PolPrivilege PrivilegesGrant) listPrivilegeHolders;
  mkRoute "POST /users/{id}/privileges" (PolPrivilege PrivilegesGrant) grantPrivilege;
  mkRoute "DELETE /users/{id}/privileges/{key}" (PolPrivilege PrivilegesGrant) revokePrivilege;
  mkRoute "GET /roles" (PolPrivilege RolesManage) listRoles;
  mkRoute "POST /roles" (PolPrivilege RolesManage) createRole;
  mkRoute "GET /roles/{id}" (PolPrivilege RolesManage) getRole;
  mkRoute "PUT /roles/{id}" (PolPrivilege RolesManage) updateRole;
  mkRoute "DELETE /roles/{id}" (PolPrivilege RolesManage) deleteRole;
  mkRoute "POST /roles/{id}/privileges" (PolPrivilege RolesManage) addRolePrivilege;
  mkRoute "DELETE /roles/{id}/privileges/{key}" (PolPrivilege RolesManage) removeRolePrivilege;
  mkRoute "GET /roles/{id}/holders" (PolPrivilege RolesManage) listRoleHolders;
  mkRoute "GET /users/{id}/roles" (PolPrivilege RolesManage) listUserRoles;
  mkRoute "POST /users/{id}/roles" (PolPrivilege RolesManage) grantRoleToUser;
  mkRoute "DELETE /users/{id}/roles/{roleId}" (PolPrivilege RolesManage) revokeRoleFromUser;
  mkRoute "GET /audit/traces" (PolPrivilege TracesRead) (handleListTraces markers);
  mkRoute "GET /audit/traces/{trace_id}" (PolPrivilege TracesRead) handleGetTrace;
  mkRoute "GET /audit/events" (PolPrivilege TracesRead) handleListEvents;
  mkRoute "GET /audit/sources" (PolPrivilege TracesRead) handleListSources].

Definition register (rt : Route) : Router → Router :=
  match route_policy rt with
  | PolPublic => Public (route_pattern rt) (route_handler rt)
  | PolPrivilege k => RequirePrivilege (route_pattern rt) k (route_handler rt)
  | PolAuth => RequireAuth (route_pattern rt) (route_handler rt)
  | PolScoped s => RequireScoped (route_pattern rt) (scope_policy s) (route_handler rt)
  end.

(** [RegisterRoutes] of the connectors. *)
Definition remove_pattern : string := "DELETE /connectors/temp-account/remove/{user_id}".
Definition temp_account_routes : list Route := [
  mkRoute "POST /connectors/temp-account/create" (PolPrivilege AccountsWrite) createTempAccount;
  mkRoute "POST /connectors/temp-account/assign-allocation" (PolPrivilege AccountsWrite) assignAllocationToTempAccount;
  mkRoute "POST /connectors/temp-account/update-allocation" (PolPrivilege AccountsWrite) updateAllocationToTempAccount;
  mkRoute remove_pattern (PolPrivilege AccountsWrite) removeTempAccount;
  mkRoute "GET /connectors/temp-account/membership/{user_id}" (PolPrivilege AccountsRead)
    getAllocationMembershipForTempUser].

Definition amie_routes (report : string → Handler) : list Route :=
  let get p k := mkRoute p (PolPrivilege k) (report p) in [
  get "GET /connectors/amie/packets" PacketsRead;
  get "GET /connectors/amie/packets/{id}" PacketsRead;
  get "GET /connectors/amie/packets/{id}/events" PacketsRead;
  get "GET /connectors/amie/packets/{packet_id}/audits" PacketsRead;
  get "GET /connectors/amie/stats" PacketsRead;
  get "GET /connectors/amie/replies" RepliesRead;
  get "GET /connectors/amie/unmapped" UnmappedRead;
  mkRoute "POST /connectors/amie/packets/{id}/retry" (PolPrivilege PacketsWrite) (writeNotImplemented "packet retry");
  mkRoute "POST /connectors/amie/packets/{id}/resolve" (PolPrivilege PacketsWrite) (writeNotImplemented "packet resolve");
  mkRoute "POST /connectors/amie/replies/{id}/retry" (PolPrivilege RepliesWrite) (writeNotImplemented "reply retry");
  mkRoute "POST /connectors/amie/unmapped/{id}/link" (PolPrivilege UnmappedWrite) (writeNotImplemented "unmapped link")].

Definition analytics_routes (report : string → Handler) : list Route :=
  let get p := mkRoute p PolAuth (report p) in [
  get "GET /connectors/analytics/contexts";
  get "GET /connectors/analytics/allocations/{id}/usage-summary";
  get "GET /connectors/analytics/allocations/{id}/jobs"].

Definition connector_routes (report : string → Handler) (c : ConnectorType) : list Route :=
  match c with
  | temp_account => temp_account_routes
  | amie_processor => amie_routes report
  | analytics => analytics_routes report
  | _ => []
  end.

(** Every route of a running server. *)
Definition server_routes (dep : Deployment) : list Route :=
  route_table (dep_markers dep) ++ (dep_connectors dep ≫= connector_routes (dep_report dep)).

Definition register_all (rts : list Route) (r : Router) : Router := foldl (λ r rt, register rt r) r rts.
Definition routes (markers : Markers) (r : Router) : Router := register_all (route_table markers) r.

(** [LoadConnectorsFromConfig]: the routes of each enabled connector. *)
Definition LoadConnectorsFromConfig (dep : Deployment) (r : Router) : Router :=
  foldl (λ r c, register_all (connector_routes (dep_report dep) c) r) r (dep_connectors dep).

(** [main]: the server's routes, then those of the connectors, behind the
    middleware. *)
Definition server_router (dep : Deployment) : Router :=
  LoadConnectorsFromConfig dep (routes (dep_markers dep) NewRouter).

Context {Token : Type} (inner_Verify : string → option Token) (token_Claims : Token → option Claims).
Definition serve_http `{UR : UserResolver} (dep : Deployment) : Handler :=
  Middleware inner_Verify token_Claims (publicPaths (server_router dep))
    (mux_ServeHTTP (router_mux (server_router dep))).
End server.
