(* ===== verification/ServerTheorems.v ===== *)
(** * Theorems about the HTTP server

    Which requests reach which handler (the route table behind the middleware),
    what the scoped policies admit, and that the identity cache agrees with the
    database as long as authorization is administered over HTTP. *)

From stdpp Require Import base gmap sets list strings.
From Stdlib Require Import ZArith.
From S2P Require Import Prelude GoError Models Schema Events IdentityCache Effects EffectsLogic.
From S2P Require Import StoreIdentity StoreProject StoreAuth StoreAllocation StoreMembership.
From S2P Require Import UserService AuthService ProjectService AllocationService MembershipService.
From S2P Require Import ServiceApi AuthFacts AuthTheorems Resolver ProjectTheorems Scenario.
From S2P Require Import Wire StoreTrace Http Server.

(** ** Specification of routing *)

(** The segments of a pattern match a path. *)
Fixpoint seg_match (segs : list Seg) (path : list string) : bool :=
  match segs, path with
  | [], [] => true
  | Lit l :: segs', s :: path' => bool_decide (l = s) && seg_match segs' path'
  | Wild _ :: segs', s :: path' => bool_decide (s ≠ "") && seg_match segs' path'
  | _, _ => false
  end.

(** The route is one for the method and the path of the request; HEAD is
    served by the routes for GET. *)
Definition matches (rt : Route) (req : HttpRequest) : Prop :=
  seg_match (pattern_segs (route_pattern rt)) (unescape <$> r_path req) = true ∧
  (pattern_method (route_pattern rt) = r_method req ∨
   (r_method req = "HEAD" ∧ pattern_method (route_pattern rt) = "GET")).

(** The request a route's handler sees. *)
Definition routed (rt : Route) (ctx : Ctx) (req : HttpRequest) : HttpRequest :=
  with_values (path_values (pattern_segs (route_pattern rt)) (unescape <$> r_path req)) (with_ctx ctx req).

Section access.
Context `{E : Env} `{UR : UserResolver} {Token : Type}.
Context (inner_Verify : string → option Token) (token_Claims : Token → option Claims).

(** The token of the request is valid, and resolves to the caller and the
    privileges, which takes the state to [w1]. *)
Definition authenticated (req : HttpRequest) (w : World) (caller : Caller) (privs : list PrivilegeKey)
    (w1 : World) : Prop :=
  ∃ raw claims, bearer (r_authorization req) = Some raw ∧
    Verify inner_Verify token_Claims raw = Some claims ∧
    resolve_caller (Some claims) w = (Ok (caller, privs), w1).

Definition caller_ctx (req : HttpRequest) (caller : Caller) (privs : list PrivilegeKey) : Ctx :=
  withPrivileges (WithCaller (r_ctx req) caller) privs.

(** The policy of the route admits the request: its handler runs with this
    context in this state. *)
Inductive admitted (rt : Route) (req : HttpRequest) (w : World) : Ctx → World → Prop :=
  | admit_public : route_policy rt = PolPublic → admitted rt req w (r_ctx req) w
  | admit_privilege k caller privs w1 :
      route_policy rt = PolPrivilege k → authenticated req w caller privs w1 → k ∈ privs →
      admitted rt req w (caller_ctx req caller privs) w1
  | admit_auth caller privs w1 :
      route_policy rt = PolAuth → authenticated req w caller privs w1 →
      admitted rt req w (caller_ctx req caller privs) w1
  | admit_scoped s caller privs w1 w2 :
      route_policy rt = PolScoped s → authenticated req w caller privs w1 →
      scope_policy s (routed rt (caller_ctx req caller privs) req) w1 = (Ok None, w2) →
      admitted rt req w (caller_ctx req caller privs) w2.

(** No handler ran: all that happened is that the caller was resolved and a
    policy looked at. *)
Definition refused (w : World) (resp : Response) (w' : World) : Prop :=
  (300 <= resp_status resp)%Z ∧
  (w' = w ∨ ∃ claims, w' = (resolve_caller (Some claims) w).2 ∨
     ∃ s req, w' = (scope_policy s req (resolve_caller (Some claims) w).2).2).
End access.

(** The privileges that let a caller change something. *)
Definition write_privileges : list PrivilegeKey :=
  [OrganizationsWrite; UsersWrite; ProjectsWrite; ClustersWrite; AllocationsWrite; PrivilegesGrant; RolesManage;
   AccountsWrite; PacketsWrite; RepliesWrite; UnmappedWrite].

(** ** Routing *)

Lemma mux_match_sound {A} (rs : list (list Seg * A)) path a :
  mux_match rs path = Some a → ∃ segs, (segs, a) ∈ rs ∧ seg_match segs path = true.
Proof.
  revert rs. induction path as [|s path IH]; intros rs; simpl.
  - intros ([segs a'] & Hin & Hl)%head_Some_elem%list_elem_of_omap. unfold leaf in Hl. simpl in Hl.
    destruct segs; simplify_eq. by exists [].
  - destruct (mux_match (omap (lit_child s) rs) path) as [a'|] eqn:Hm.
    + intros [= <-]. apply IH in Hm as (segs & ([segs0 a0] & Hin & Hl)%list_elem_of_omap & Hs).
      unfold lit_child in Hl. simpl in Hl. destruct segs0 as [|[l|n] segs0]; simplify_eq. case_decide; simplify_eq.
      exists (Lit s :: segs). split; [done|]. simpl. by rewrite bool_decide_true.
    + case_decide; [done|]. intros (segs & ([segs0 a0] & Hin & Hl)%list_elem_of_omap & Hs)%IH.
      unfold wild_child in Hl. simpl in Hl. destruct segs0 as [|[l|n] segs0]; simplify_eq.
      exists (Wild n :: segs). split; [done|]. simpl. by rewrite bool_decide_true.
Qed.

Lemma mux_find_sound rs m path p h :
  mux_find rs m path = Some (p, h) →
  (p, h) ∈ rs ∧ pattern_method p = m ∧ seg_match (pattern_segs p) path = true.
Proof.
  unfold mux_find. intros (segs & Hin & Hs)%mux_match_sound.
  apply list_elem_of_fmap in Hin as ([p' h'] & ? & [Hm Hin]%list_elem_of_filter). by simplify_eq/=.
Qed.

Lemma mux_route_elem rs m path p h :
  mux_route rs m path = Some (p, h) →
  (p, h) ∈ rs ∧ seg_match (pattern_segs p) path = true ∧
  (pattern_method p = m ∨ (m = "HEAD" ∧ pattern_method p = "GET") ∨ pattern_method p = "").
Proof.
  unfold mux_route. destruct (mux_find rs m path) as [[p' h']|] eqn:Hf.
  { intros [= -> ->]. apply mux_find_sound in Hf as (? & ? & ?). auto. }
  clear Hf. destruct (if decide (m = "HEAD") then mux_find rs "GET" path else None) as [[p' h']|] eqn:Hf.
  - intros [= -> ->]. case_decide; [|done]. apply mux_find_sound in Hf as (? & ? & ?). eauto 8.
  - intros (? & ? & ?)%mux_find_sound. auto.
Qed.

Section routing_facts.
Context `{E : Env} `{TL : TextLib} (dep : Deployment).

(** What [register] puts in the mux for a route. *)
Definition gated (rt : Route) : Handler :=
  let h := route_handler rt in
  match route_policy rt with
  | PolPublic | PolAuth => h
  | PolPrivilege k => privilege_gate k h
  | PolScoped s => scope_gate (scope_policy s) h
  end.

Lemma register_all_mux rts r :
  router_mux (register_all rts r) = router_mux r ++ ((λ rt, (route_pattern rt, gated rt)) <$> rts).
Proof.
  unfold register_all. revert r. induction rts as [|rt rts IH]; intros r; simpl; [by rewrite app_nil_r|]. rewrite IH.
  unfold register, gated. destruct (route_policy rt); simpl; by rewrite <- app_assoc.
Qed.

Lemma register_all_app rts rts' r : register_all (rts ++ rts') r = register_all rts' (register_all rts r).
Proof. apply foldl_app. Qed.

(** The connectors' routes are registered after the server's own. *)
Lemma server_router_routes : server_router dep = register_all (server_routes dep) NewRouter.
Proof.
  unfold server_router, LoadConnectorsFromConfig, routes, server_routes. rewrite register_all_app.
  generalize (register_all (route_table (dep_markers dep)) NewRouter).
  induction (dep_connectors dep) as [|c cs IH]; intros r; simpl; [done|]. by rewrite register_all_app, IH.
Qed.

Lemma server_mux :
  router_mux (server_router dep) = (λ rt, (route_pattern rt, gated rt)) <$> server_routes dep.
Proof. rewrite server_router_routes. apply (register_all_mux (server_routes dep) NewRouter). Qed.

(** What holds of every route of the server and of every route of a connector. *)
Lemma server_routes_Forall (P : Route → Prop) :
  Forall P (route_table (dep_markers dep)) → (∀ c, Forall P (connector_routes (dep_report dep) c)) →
  ∀ rt, rt ∈ server_routes dep → P rt.
Proof.
  intros Ht Hc. apply Forall_forall. unfold server_routes. apply Forall_app. split; [done|].
  induction (dep_connectors dep) as [|c cs IH]; simpl; [done|]. apply Forall_app. by split.
Qed.

Lemma connectors_not_public rt r :
  (∃ c, rt ∈ connector_routes (dep_report dep) c) → publicPaths (register rt r) = publicPaths r.
Proof.
  intros [c Hc]. assert (route_policy rt ≠ PolPublic) as Hp.
  { revert rt Hc. apply Forall_forall. destruct c; refine (bool_decide_unpack _ _); vm_compute; exact I. }
  unfold register. by destruct (route_policy rt).
Qed.

Lemma server_public : publicPaths (server_router dep) = ["/healthz"].
Proof.
  unfold server_router, LoadConnectorsFromConfig.
  change ["/healthz"] with (publicPaths (routes (dep_markers dep) NewRouter)).
  generalize (routes (dep_markers dep) NewRouter).
  induction (dep_connectors dep) as [|c cs IH]; intros r; simpl; [done|]. rewrite IH.
  assert (Forall (λ rt, ∃ c, rt ∈ connector_routes (dep_report dep) c) (connector_routes (dep_report dep) c)) as HF
    by (apply Forall_forall; eauto).
  revert r. unfold register_all. induction HF as [|rt rts Hrt _ IH']; intros r; simpl; [done|].
  by rewrite IH', connectors_not_public.
Qed.

(** No route is for every method. *)
Lemma route_methods rt : rt ∈ server_routes dep → pattern_method (route_pattern rt) ≠ "".
Proof.
  revert rt. apply server_routes_Forall; [|intros []]; refine (bool_decide_unpack _ _); vm_compute; exact I.
Qed.

Lemma mux_route_sound m path p h :
  mux_route (router_mux (server_router dep)) m path = Some (p, h) →
  ∃ rt, rt ∈ server_routes dep ∧ p = route_pattern rt ∧ h = gated rt ∧ seg_match (pattern_segs p) path = true ∧
    (pattern_method p = m ∨ (m = "HEAD" ∧ pattern_method p = "GET")).
Proof.
  rewrite server_mux. intros ((rt & ? & Hin)%list_elem_of_fmap & Hs & Hm)%mux_route_elem.
  simplify_eq. exists rt. split_and!; try done. destruct Hm as [?|[?|?]]; [eauto..|].
  by destruct (route_methods rt).
Qed.
End routing_facts.

(** ** Access control *)

Lemma app_eq_healthz a t : a +:+ "/" +:+ t ≠ "healthz".
Proof.
  intros H. do 7 (destruct a as [|? a]; [discriminate H|]; injection H as ? H). destruct a; discriminate H.
Qed.

Lemma concat_healthz l : String.concat "/" l = "healthz" → l = ["healthz"].
Proof.
  destruct l as [|a [|b l]]; simpl; [done|by intros ->|]. by intros H%app_eq_healthz.
Qed.

Section access_facts.
Context `{E : Env} `{TL : TextLib} `{UR : UserResolver} (dep : Deployment) {Token : Type}.
Context (iv : string → option Token) (tc : Token → option Claims).

(** The public route is the only one for its path. *)
Lemma public_route rt :
  rt ∈ server_routes dep →
  (route_policy rt = PolPublic → pattern_segs (route_pattern rt) = [Lit "healthz"]) ∧
  (seg_match (pattern_segs (route_pattern rt)) ["healthz"] = true → route_policy rt = PolPublic).
Proof.
  revert rt. apply (server_routes_Forall dep (λ rt, _ ∧ _)); [|intros []];
    refine (bool_decide_unpack _ _); vm_compute; exact I.
Qed.

Lemma scope_gate_inv s h req w resp w' :
  scope_gate (scope_policy s) h req w = (Ok resp, w') →
  (scope_policy s req w = (Ok (Some resp), w')) ∨
  ∃ w1, scope_policy s req w = (Ok None, w1) ∧ h req w1 = (Ok resp, w').
Proof.
  unfold scope_gate, mbind, M_bind. destruct (scope_policy s req w) as [[[r|]|e] w1] eqn:Hs; [|eauto|done].
  intros [= <- <-]. by left.
Qed.

Lemma WriteServiceError_status e : (300 <= resp_status (WriteServiceError e))%Z.
Proof. unfold WriteServiceError. repeat case_match; simpl; lia. Qed.

Lemma check_denies {A} (m : M A) k w resp w' :
  check m k w = (Ok (Some resp), w') →
  (300 <= resp_status resp)%Z ∨ ∃ a w1, k a w1 = (Ok (Some resp), w').
Proof.
  unfold check, catch, mbind, M_bind. destruct (m w) as [[a|e] w1]; [eauto|].
  intros [= <- <-]. left. apply WriteServiceError_status.
Qed.

Lemma scope_policy_status s req w resp w' :
  scope_policy s req w = (Ok (Some resp), w') → (300 <= resp_status resp)%Z.
Proof.
  destruct s; simpl; unfold canReadAllocation, canReadProject, mret, M_ret; repeat case_match;
    try (intros [= <- <-]; simpl; lia); try done; intros Hd;
    repeat match goal with
           | H : check _ _ _ = _ |- _ => apply check_denies in H as [?|(? & ? & H)]; [done|]
           | H : context [if ?b then _ else _] |- _ => destruct b
           end; simplify_eq; try done; apply WriteServiceError_status.
Qed.

Lemma mux_inv rs req w resp w' :
  mux_ServeHTTP rs req w = (Ok resp, w') →
  ((300 <= resp_status resp)%Z ∧ w' = w) ∨
  ∃ p h, mux_route rs (r_method req) (unescape <$> r_path req) = Some (p, h) ∧
    h (with_values (path_values (pattern_segs p) (unescape <$> r_path req)) req) w = (Ok resp, w').
Proof.
  unfold mux_ServeHTTP. destruct (is_clean _); [|intros [= <- <-]; left; simpl; split; [lia|done]].
  destruct (mux_route _ _ _) as [[p h]|]; [by eauto 10|].
  intros [= <- <-]. left. split; [|done]. case_match; simpl; lia.
Qed.

(** A route's handler ran, or the request was turned away at the gate. *)
Lemma gated_inv rt req w caller privs w1 resp w' :
  route_policy rt ≠ PolPublic → authenticated iv tc req w caller privs w1 →
  gated rt (routed rt (caller_ctx req caller privs) req) w1 = (Ok resp, w') →
  (∃ ctx w2, admitted iv tc rt req w ctx w2 ∧
     route_handler rt (routed rt ctx req) w2 = (Ok resp, w')) ∨
  refused w resp w'.
Proof.
  intros Hnp Ha. unfold gated. destruct (route_policy rt) as [|k| |s] eqn:Hp; [done| | |].
  - unfold privilege_gate. destruct (ctx_HasPrivilege _ k) eqn:Hk.
    + intros Hh. left. eexists _, w1. split; [|done]. eapply admit_privilege; [done..|].
      simpl in Hk. apply bool_decide_eq_true in Hk. by apply elem_of_list_to_set in Hk.
    + intros [= <- <-]. right. destruct Ha as (raw & claims & _ & _ & Hr). split; [simpl; lia|].
      right. exists claims. left. by rewrite Hr.
  - intros Hh. left. eexists _, w1. split; [|done]. by eapply admit_auth.
  - intros [Hd|(w2 & Hs & Hh)]%scope_gate_inv.
    + right. pose proof (scope_policy_status _ _ _ _ _ Hd). destruct Ha as (raw & claims & _ & _ & Hr).
      split; [done|]. right. exists claims. right. eexists s, _. rewrite Hr. simpl. by rewrite Hd.
    + left. eexists _, w2. split; [|done]. by eapply admit_scoped.
Qed.

Lemma serve_http_inv req w resp w' :
  serve_http iv tc dep req w = (Ok resp, w') →
  (∃ rt ctx w1, rt ∈ server_routes dep ∧ matches rt req ∧ admitted iv tc rt req w ctx w1 ∧
     route_handler rt (routed rt ctx req) w1 = (Ok resp, w')) ∨
  refused w resp w'.
Proof.
  unfold serve_http, Middleware. rewrite server_public. case_decide as Hpub.
  - apply list_elem_of_singleton in Hpub. injection Hpub as Hpub%concat_healthz.
    intros [[? ->]|(p & h & Hr & Hh)]%mux_inv; [right; split; [done|by left]|].
    apply mux_route_sound in Hr as (rt & Hin & -> & -> & Hs & Hm). left.
    assert (route_policy rt = PolPublic) as Hp by (apply public_route; [done|by rewrite <- Hpub]).
    exists rt, (r_ctx req), w. split_and!; [done|by split|by constructor|].
    unfold gated in Hh. rewrite Hp in Hh. by destruct req.
  - destruct (bearer _) as [raw|] eqn:Hb; [|intros [= <- <-]; right; split; [simpl; lia|by left]].
    destruct (Verify _ _ raw) as [claims|] eqn:Hv; [|intros [= <- <-]; right; split; [simpl; lia|by left]].
    unfold catch, mbind, M_bind.
    destruct (resolve_caller (Some claims) w) as [[[caller privs]|e] w1] eqn:Hres.
    2:{ intros [= <- <-]. right. split; [case_match; simpl; lia|]. right. exists claims. left. by rewrite Hres. }
    assert (authenticated iv tc req w caller privs w1) as Ha by (by exists raw, claims).
    intros [[? ->]|(p & h & Hr & Hh)]%mux_inv.
    { right. split; [done|]. right. exists claims. left. by rewrite Hres. }
    apply mux_route_sound in Hr as (rt & Hin & -> & -> & Hs & Hm). simpl in *.
    destruct (gated_inv rt req w caller privs w1 resp w') as [(ctx & w2 & Had & Hrun)|?]; [|done|done| |by right].
    + intros Hp. apply Hpub. rewrite (proj1 (public_route rt Hin) Hp) in Hs. unfold URL_Path.
      destruct (unescape <$> r_path req) as [|x [|y l]]; simpl in Hs; [done| |by rewrite andb_false_r in Hs].
      apply andb_true_iff in Hs as [<-%bool_decide_eq_true _]. by left.
    + left. exists rt, ctx, w2. by split_and!.
Qed.
End access_facts.

(** C12: no handler runs unless the policy of its route admits the request,
    whatever the handlers do and however callers are resolved. Every response
    of the server is either that of the handler of a route (the server's own or
    one of an enabled connector) that is for the method and the path, run after
    the route's policy admitted the
    request (without a token only for the public route; with a verified token
    and the caller's privileges otherwise), or a refusal, for which no handler
    ran. *)
Theorem http_access_control `{E : Env} `{TL : TextLib} `{UR : UserResolver} (dep : Deployment) {Token}
    (iv : string → option Token) (tc : Token → option Claims) req w resp w' :
  serve_http iv tc dep req w = (Ok resp, w') →
  (∃ rt ctx w1, rt ∈ server_routes dep ∧ matches rt req ∧ admitted iv tc rt req w ctx w1 ∧
     route_handler rt (routed rt ctx req) w1 = (Ok resp, w')) ∨
  refused w resp w'.
Proof. apply serve_http_inv. Qed.

(** ** What a scoped policy admits *)

Section scopes.
Context `{E : Env}.

Lemma check_run {A} (m : M A) k w a w' : m w = (Ok a, w') → check m k w = k a w'.
Proof. intros H. unfold check, catch, mbind, M_bind. by rewrite H. Qed.

Lemma check_run_Err {A} (m : M A) k w e w' :
  m w = (Err e, w') → check m k w = (Ok (Some (WriteServiceError e)), w').
Proof. intros H. unfold check, catch, mbind, M_bind. by rewrite H. Qed.

(** The user may read the allocation: a governance role on its project, or an
    active membership. *)
Definition reads_allocation (d : DB) (a : ComputeAllocation) (u : string) : Prop :=
  IsGovernanceRole (from_option ProjectMembership_Role ""
                      (pgProjectMembershipStore_FindByPair (ComputeAllocation_ProjectID a) u d)) = true ∨
  ∃ m, pgComputeAllocationMembershipStore_FindByPair (ComputeAllocation_ID a) u d = Some m ∧
       Membership_MembershipStatus m = ACTIVE.

Lemma canReadAllocation_run `{!NoFaults} req caller w :
  CallerFromContext (r_ctx req) = Some caller → ctx_HasPrivilege (r_ctx req) AllocationsRead = false →
  ∃ w', w_db w' = w_db w ∧
    (canReadAllocation req w = (Ok None, w') ∧
       (∃ a, t_compute_allocations (w_db w) !! PathValue "id" req = Some a ∧
             reads_allocation (w_db w) a (Caller_UserID caller)) ∨
     canReadAllocation req w = (Ok (Some (WriteServiceError ErrNotFound)), w') ∧
       (∀ a, t_compute_allocations (w_db w) !! PathValue "id" req = Some a →
             ¬ reads_allocation (w_db w) a (Caller_UserID caller))).
Proof.
  intros Hc Hp. unfold canReadAllocation. rewrite Hc, Hp.
  destruct (t_compute_allocations (w_db w) !! PathValue "id" req) as [a|] eqn:Ha.
  2:{ eexists. split; [|right; split; [|done]; apply check_run_Err].
      2:{ unfold GetComputeAllocation. erewrite bind_run by (apply wrap_run, query_run).
          unfold pgComputeAllocationStore_FindByID. by rewrite Ha. }
      done. }
  erewrite check_run.
  2:{ unfold GetComputeAllocation. erewrite bind_run by (apply wrap_run, query_run).
      unfold pgComputeAllocationStore_FindByID. by rewrite Ha. }
  erewrite check_run by (unfold ProjectRoleForUser; by erewrite bind_run by (apply wrap_run, query_run)).
  destruct (IsGovernanceRole _) eqn:Hg.
  { eexists. split; [|left; split; [reflexivity|]]; [done|]. exists a. split; [done|]. by left. }
  erewrite check_run by (unfold IsAllocationMember; by erewrite bind_run by (apply wrap_run, query_run)).
  simpl in *. eexists. split; [|destruct (pgComputeAllocationMembershipStore_FindByPair _ _ _) as [m|] eqn:Hm].
  2:{ case_bool_decide as Hs; [left|right]; (split; [reflexivity|]).
      - exists a. split; [done|]. right. by exists m.
      - intros a' [= <-] [?|(m' & Hm' & ?)]; [congruence|]. simpl in *. congruence. }
  2:{ right. split; [reflexivity|]. intros a' [= <-] [?|(m' & Hm' & ?)]; [congruence|]. simpl in *. congruence. }
  done.
Qed.
End scopes.

(** Without infrastructure faults the policy of the allocation routes
    admits a caller who lacks the read privilege exactly when the allocation
    exists and the caller has a governance role on its project or an active
    membership; it changes nothing, and a caller who is not admitted gets the
    same response whether the allocation exists or not, so ids cannot be
    probed. *)
Theorem allocation_scope `{E : Env} `{!NoFaults} req caller w :
  CallerFromContext (r_ctx req) = Some caller → ctx_HasPrivilege (r_ctx req) AllocationsRead = false →
  w_db (canReadAllocation req w).2 = w_db w ∧
  ((canReadAllocation req w).1 = Ok None ↔
   ∃ a, t_compute_allocations (w_db w) !! PathValue "id" req = Some a ∧
        reads_allocation (w_db w) a (Caller_UserID caller)) ∧
  ((canReadAllocation req w).1 ≠ Ok None →
   (canReadAllocation req w).1 = Ok (Some (mkResponse 404 (JError ErrNotFound)))).
Proof.
  intros Hc Hp. destruct (canReadAllocation_run req caller w Hc Hp) as (w' & Hw & [[-> Hd]|[-> Hd]]);
    (split; [done|]); simpl.
  - split; [done|]. by intros [].
  - split; [|done]. split; [done|]. intros (a & Ha & Hr). by destruct (Hd a).
Qed.
