(* ===== verification/ServerCoherence.v ===== *)
(** * The identity cache agrees with the database

    Every handler of the server keeps the entries of the identity cache equal
    to what the database says their users hold: those that change
    authorization invalidate the cache, the others leave authorization alone.
    Hence who may change something is decided by the database. *)

From stdpp Require Import base gmap sets list strings.
From Stdlib Require Import ZArith.
From S2P Require Import Prelude GoError Models Schema Events IdentityCache Effects EffectsLogic.
From S2P Require Import StoreIdentity StoreProject StoreAuth StoreAllocation StoreMembership.
From S2P Require Import UserService AuthService ProjectService AllocationService MembershipService.
From S2P Require Import ServiceApi AuthFacts Scenario ServiceTheorems AuthTheorems Resolver ProjectTheorems.
From S2P Require Import Wire StoreTrace Http Server ServerTheorems.

(** ** The cache agrees with the database *)

(** The database is sound, and every entry of the identity cache carries
    exactly the privileges its user holds. *)
Definition coherent (w : World) : Prop :=
  integrity (w_db w) ∧
  ∀ sub e, cache_entries (w_cache w) !! sub = Some e →
    ∀ p, p ∈ entry_privs e ↔ holds (w_db w) (Caller_UserID (entry_caller e)) p.

Class Keeps {A} (m : M A) : Prop := keeps w : coherent w → coherent (m w).2.
Class CacheKept {A} (m : M A) : Prop := cache_kept w : w_cache (m w).2 = w_cache w.

Section keeps.
Context `{E : Env} {A B : Type}.
Implicit Types (m : M A) (k : A → M B).

Lemma coherent_obs w w' : obs w' = obs w → coherent w → coherent w'.
Proof. unfold obs, coherent. by intros [= -> _ -> _]. Qed.
Lemma Keeps_Quiet m : Quiet m → Keeps m.
Proof. intros Hm w. apply coherent_obs, Hm. Qed.
Lemma Keeps_bind m k : Keeps m → (∀ a, Keeps (k a)) → Keeps (m ≫= k).
Proof.
  intros Hm Hk w Hw. specialize (Hm w Hw). unfold mbind, M_bind.
  destruct (m w) as [[a|e] w1]; [by apply Hk|done].
Qed.
Lemma Keeps_catch m : Keeps m → Keeps (catch m).
Proof. intros Hm w Hw. specialize (Hm w Hw). unfold catch. by destruct (m w). Qed.

Lemma CacheKept_Quiet m : Quiet m → CacheKept m.
Proof. intros Hm w. specialize (Hm w). by injection Hm. Qed.
Lemma CacheKept_bind m k : CacheKept m → (∀ a, CacheKept (k a)) → CacheKept (m ≫= k).
Proof.
  intros Hm Hk w. specialize (Hm w). unfold mbind, M_bind.
  destruct (m w) as [[a|e] w1]; [by rewrite Hk|done].
Qed.
Lemma CacheKept_inTx m : Quiet m → CacheKept (inTx m).
Proof.
  intros Hm w. unfold inTx. destruct (fault _); [done|].
  match goal with |- context [m ?x] => specialize (Hm x); destruct (m x) as [[a|e1] w1] end;
    simpl in *; injection Hm as _ _ Hb _; [destruct (fault _); [destruct (lost _)|]|];
    exact Hb.
Qed.

(** An operation that leaves authorization and the cache alone. *)
Lemma Keeps_frame m :
  DbRel (pres integrity) m → DbRel (same authz_tables) m → CacheKept m → Keeps m.
Proof.
  intros Hi Ha Hc w [HI He]. split; [by apply Hi|]. intros sub e Hs p. rewrite Hc in Hs.
  rewrite (He _ _ Hs p), !holds_az. apply az_holds_proper; [|done..].
  symmetry. apply authz_of_tables, Ha.
Qed.

(** What the service says of a request, said of the method behind it. *)
Definition stands_for (r : Request) (m : M A) : Prop := ∀ w, serve r w = ignore m w.

Lemma ignore_snd m w : (ignore m w).2 = (m w).2.
Proof. unfold ignore, mbind, M_bind. by destruct (m w) as [[a|e] w1]. Qed.
Lemma method_integrity r m : stands_for r m → DbRel (pres integrity) m.
Proof. intros Hr w. rewrite <- (ignore_snd m w), <- Hr. apply serve_integrity. Qed.
Lemma method_frame r m : stands_for r m → changes_authz r = false → DbRel (same authz_tables) m.
Proof. intros Hr Hc w. rewrite <- (ignore_snd m w), <- Hr. by apply serve_authz_frame. Qed.
Lemma method_err `{!NoLost} r m w e w' :
  stands_for r m → multi_tx r = false → m w = (Err e, w') → obs w' = obs w.
Proof.
  intros Hr Hm He. apply (serve_err_obs r w e w' Hm). rewrite Hr.
  unfold ignore, mbind, M_bind. by rewrite He.
Qed.

(** A handler that invalidates the cache once the service has succeeded. *)
Lemma Keeps_call_invalidate `{!NoLost} r m (k : A → M Response) :
  stands_for r m → multi_tx r = false → (∀ a, Quiet (k a)) →
  Keeps (call m (λ a, _ ← InvalidateAllIdentities; k a)).
Proof.
  intros Hr Ht Hk w Hw. unfold call, catch, mbind, M_bind.
  pose proof (method_integrity r m Hr w (proj1 Hw)) as HI.
  destruct (m w) as [[a|e] w1] eqn:Hm; simpl in *.
  - apply (coherent_obs (set_cache (cache_invalidateAll (w_cache w1)) w1)); [apply Hk|].
    split; [done|]. intros sub e Hs. simpl in Hs. by rewrite lookup_empty in Hs.
  - by apply (coherent_obs w); [eapply method_err|].
Qed.
End keeps.

Lemma ignore_unit (m : M unit) w : ignore m w = m w.
Proof. unfold ignore, mbind, M_bind. by destruct (m w) as [[[]|e] w1]. Qed.

Ltac stands := intros w; first [reflexivity | symmetry; apply ignore_unit].

Section keeps_handlers.
Context `{E : Env} {A : Type}.

Lemma Keeps_call (m : M A) (k : A → M Response) : Keeps m → (∀ a, Keeps (k a)) → Keeps (call m k).
Proof.
  intros Hm Hk. unfold call, check. apply Keeps_bind; [by apply Keeps_catch|].
  intros [a|e]; [done|]. by apply Keeps_Quiet.
Qed.
Lemma Keeps_check (m : M A) (k : A → M (option Response)) : Keeps m → (∀ a, Keeps (k a)) → Keeps (check m k).
Proof.
  intros Hm Hk. unfold call, check. apply Keeps_bind; [by apply Keeps_catch|].
  intros [a|e]; [done|]. by apply Keeps_Quiet.
Qed.
End keeps_handlers.

(** The operations on the cache itself. *)
Definition touches_cache (r : Request) : bool :=
  match r with
  | ReqResolveCaller _ | ReqSetIdentityCacheTTL _ | ReqInvalidateAllIdentities => true
  | _ => false
  end.

Lemma CacheKept_wrapf {A} format args (m : M A) : CacheKept m → CacheKept (wrapf format args m).
Proof. intros Hm w. specialize (Hm w). unfold wrapf. by destruct (m w) as [[]]. Qed.
Lemma CacheKept_map_err {A} f (m : M A) : CacheKept m → CacheKept (map_err f m).
Proof. intros Hm w. specialize (Hm w). unfold map_err. by destruct (m w) as [[]]. Qed.
Lemma CacheKept_publish t p : CacheKept (publish t p).
Proof. done. Qed.

Ltac cache_step :=
  lazymatch goal with
  | |- ∀ _, _ => intros ?
  | |- CacheKept (inTx _) => apply CacheKept_inTx; solve [solve_quiet]
  | |- CacheKept (publish _ _) => apply CacheKept_publish
  | |- CacheKept (wrapf _ _ _) => apply CacheKept_wrapf
  | |- CacheKept (map_err _ _) => apply CacheKept_map_err
  | |- CacheKept (when _ _) => unfold when
  | |- CacheKept (let _ := _ in _) => cbv zeta
  | |- CacheKept (_ ≫= _) => first [apply CacheKept_Quiet; solve [solve_quiet] | apply CacheKept_bind]
  | |- CacheKept (if ?b then _ else _) => destruct b
  | |- CacheKept (match ?x with _ => _ end) => destruct x
  | |- CacheKept (modify _) => intros ?; reflexivity
  | |- CacheKept _ => apply CacheKept_Quiet; solve_quiet
  end.

Lemma serve_cache_kept `{Env} r : touches_cache r = false → CacheKept (serve r).
Proof. destruct r; intros [=]; unfold serve; autounfold with ops; repeat cache_step. Qed.

Section resolver_keeps.
Context `{E : Env}.

Lemma Keeps_cacheGet sub now : Keeps (cacheGet sub now).
Proof.
  intros w [HI He]. split; unfold cacheGet, cache_get; repeat case_match; simpl in *; simplify_eq; try done.
  intros s e Hs. simpl in Hs. apply lookup_delete_Some in Hs as [_ Hs]. by eapply He.
Qed.

Lemma Keeps_linkBySub c : Keeps (linkBySub c).
Proof.
  apply Keeps_frame; [apply linkBySub_integrity| |].
  - autounfold with ops. repeat first [db_step | tx_step]; stmt_frame.
  - unfold linkBySub, linkTx, writeIdentityAuditTx. repeat cache_step.
Qed.

(** What is stored is what the user holds. *)
Lemma Keeps_store u sub now :
  Keeps (privs ← EffectivePrivileges u; _ ← cacheSet sub (mkCaller u) privs now; mret (mkCaller u, privs)).
Proof.
  intros w [HI He]. unfold mbind, M_bind.
  destruct (EffectivePrivileges u w) as [[ps|e] w1] eqn:Hp.
  - apply EffectivePrivileges_Ok in Hp as (_ & Hps & -> & _); [|done]. split; [done|]. simpl.
    intros s e. destruct (decide (s = sub)) as [->|Hne].
    + rewrite lookup_insert_eq. intros [= <-]. apply Hps.
    + rewrite lookup_insert_ne by done. apply He.
  - eapply coherent_obs; [|by split]. assert (Quiet (EffectivePrivileges u)) as Hq
      by (unfold EffectivePrivileges; solve_quiet). specialize (Hq w). by rewrite Hp in Hq.
Qed.

Lemma Keeps_ResolveCaller c : Keeps (ResolveCaller c).
Proof.
  unfold ResolveCaller. do 3 (apply Keeps_bind; [apply Keeps_Quiet; solve_quiet|intros ?]).
  apply Keeps_bind; [apply Keeps_cacheGet|intros [e|]]; [by apply Keeps_Quiet|].
  apply Keeps_bind; [apply Keeps_Quiet; solve_quiet|intros found].
  apply Keeps_bind; [|intros ?; apply Keeps_store].
  destruct found; [by apply Keeps_Quiet|apply Keeps_linkBySub].
Qed.
End resolver_keeps.

Section server_keeps.
Context `{E : Env}.

Lemma Keeps_requireCaller req k : (∀ c, Keeps (k c)) → Keeps (requireCaller req k).
Proof. intros Hk. unfold requireCaller. case_match; [done|by apply Keeps_Quiet]. Qed.
Lemma Keeps_bad_request P `{Decision P} msg k : Keeps k → Keeps (bad_request P msg k).
Proof. intros Hk. unfold bad_request. case_decide; [by apply Keeps_Quiet|done]. Qed.
Lemma Keeps_decoded {A} (d : Dec A) req k : (∀ x, Keeps (k x)) → Keeps (decoded d req k).
Proof. intros Hk. unfold decoded. destruct (DecodeJSON _ _) as [x []]; [done|by apply Keeps_Quiet]. Qed.

(** An operation that is a request of the service and changes neither
    authorization nor the cache. *)
Lemma Keeps_method {A} r (m : M A) :
  stands_for r m → changes_authz r = false → touches_cache r = false → Keeps m.
Proof.
  intros Hr Ha Hc. apply Keeps_frame; [by eapply method_integrity|by eapply method_frame|].
  intros w. rewrite <- (ignore_snd m w), <- Hr. by apply serve_cache_kept.
Qed.

Lemma Keeps_call500 {A} (m : M A) k : Keeps m → (∀ a, Keeps (k a)) → Keeps (call500 m k).
Proof.
  intros Hm Hk. unfold call500. apply Keeps_bind; [by apply Keeps_catch|].
  intros [a|e]; [done|]. by apply Keeps_Quiet.
Qed.
End server_keeps.

(** The request an operation of the service is. *)
Ltac request_of m :=
  lazymatch m with
  | CreateOrganization ?a => constr:(ReqCreateOrganization a)
  | CreateUser ?a => constr:(ReqCreateUser a)
  | UpdateUser ?a => constr:(ReqUpdateUser a)
  | UpdateUserStatus ?a ?b => constr:(ReqUpdateUserStatus a b)
  | MergeUsers ?a ?b => constr:(ReqMergeUsers a b)
  | CreateUserIdentity ?a => constr:(ReqCreateUserIdentity a)
  | UpdateUserIdentity ?a => constr:(ReqUpdateUserIdentity a)
  | DeleteUserIdentity ?a => constr:(ReqDeleteUserIdentity a)
  | CreateProject ?a => constr:(ReqCreateProject a)
  | UpdateProjectStatus ?a ?b => constr:(ReqUpdateProjectStatus a b)
  | CreateComputeCluster ?a => constr:(ReqCreateComputeCluster a)
  | CreateComputeClusterUser ?a => constr:(ReqCreateComputeClusterUser a)
  | UpdateComputeClusterUser ?a => constr:(ReqUpdateComputeClusterUser a)
  | DeleteComputeClusterUser ?a => constr:(ReqDeleteComputeClusterUser a)
  | CreateComputeAllocation ?a => constr:(ReqCreateComputeAllocation a)
  | CreateComputeAllocationResource ?a => constr:(ReqCreateComputeAllocationResource a)
  | AttachResourceToAllocation ?a ?b ?c ?d => constr:(ReqAttachResourceToAllocation a b c d)
  | UpdateAllocationResourceMapping ?a ?b ?c ?d => constr:(ReqUpdateAllocationResourceMapping a b c d)
  | DetachResourceFromAllocation ?a ?b => constr:(ReqDetachResourceFromAllocation a b)
  | CreateComputeAllocationResourceRate ?a => constr:(ReqCreateComputeAllocationResourceRate a)
  | CreateComputeAllocationDiff ?a => constr:(ReqCreateComputeAllocationDiff a)
  | DeleteComputeAllocationDiff ?a => constr:(ReqDeleteComputeAllocationDiff a)
  | CreateComputeAllocationChangeRequest ?a => constr:(ReqCreateComputeAllocationChangeRequest a)
  | UpdateComputeAllocationChangeRequest ?a => constr:(ReqUpdateComputeAllocationChangeRequest a)
  | DeleteComputeAllocationChangeRequest ?a => constr:(ReqDeleteComputeAllocationChangeRequest a)
  | CreateComputeAllocationChangeRequestEvent ?a => constr:(ReqCreateComputeAllocationChangeRequestEvent a)
  | DeleteComputeAllocationChangeRequestEvent ?a => constr:(ReqDeleteComputeAllocationChangeRequestEvent a)
  | CreateComputeAllocationMembership ?a => constr:(ReqCreateComputeAllocationMembership a)
  | UpdateComputeAllocationMembership ?a => constr:(ReqUpdateComputeAllocationMembership a)
  | UpdateMembershipStatus ?a ?b => constr:(ReqUpdateMembershipStatus a b)
  | DeleteComputeAllocationMembership ?a => constr:(ReqDeleteComputeAllocationMembership a)
  | CreateComputeAllocationMembershipResourceOverride ?a => constr:(ReqCreateComputeAllocationMembershipResourceOverride a)
  | UpdateComputeAllocationMembershipResourceOverride ?a => constr:(ReqUpdateComputeAllocationMembershipResourceOverride a)
  | DeleteComputeAllocationMembershipResourceOverride ?a => constr:(ReqDeleteComputeAllocationMembershipResourceOverride a)
  | CreateComputeAllocationUsage ?a => constr:(ReqCreateComputeAllocationUsage a)
  | DeleteComputeAllocationUsage ?a => constr:(ReqDeleteComputeAllocationUsage a)
  | CreateRole ?a ?b ?c => constr:(ReqCreateRole a b c)
  | UpdateRole ?a ?b ?c ?d => constr:(ReqUpdateRole a b c d)
  | DeleteRole ?a ?b => constr:(ReqDeleteRole a b)
  | AddPrivilegeToRole ?a ?b ?c => constr:(ReqAddPrivilegeToRole a b c)
  | RemovePrivilegeFromRole ?a ?b ?c => constr:(ReqRemovePrivilegeFromRole a b c)
  | GrantRoleToUser ?a ?b ?c ?d => constr:(ReqGrantRoleToUser a b c d)
  | RevokeRoleFromUser ?a ?b ?c ?d => constr:(ReqRevokeRoleFromUser a b c d)
  | GrantPrivilege ?a ?b ?c ?d => constr:(ReqGrantPrivilege a b c d)
  | RevokePrivilege ?a ?b ?c ?d => constr:(ReqRevokePrivilege a b c d)
  end.

Create HintDb reads.
#[local] Hint Unfold EffectivePrivileges GetComputeAllocation GetComputeAllocationChangeRequest
  GetComputeAllocationChangeRequestEvent GetComputeAllocationDiff GetComputeAllocationMembership
  GetComputeAllocationMembershipResourceOverride GetComputeAllocationResource
  GetComputeAllocationResourceRate GetComputeAllocationUsage GetComputeCluster GetComputeClusterUser
  GetComputeClusterUserByPair GetEffectiveRateForResource GetLatestDiffForAllocation
  GetLatestEventForChangeRequest GetOrganization GetProjectWithPI GetRole
  GetTotalSUUsageForAllocation GetTotalSUUsageForUserInAllocation GetTraceTree GetUser
  GetUserIdentity GetUserIdentityByOIDCSub GetUserIdentityBySourceAndExternalID IsAllocationMember
  IsProjectParticipant ListAllocationsForResource ListAllocationsForUser ListChangeRequests
  ListChangeRequestsByRequester ListChangeRequestsForAllocation
  ListComputeAllocationResourceSummaries ListComputeAllocationResources ListComputeAllocations
  ListComputeAllocationsForParticipant ListComputeClusterUsersByCluster
  ListComputeClusterUsersByUser ListComputeClusters ListDiffsForAllocation ListEvents
  ListEventsForChangeRequest ListMembersForAllocation ListMembersForProject ListOrganizations
  ListOverridesForMembership ListOverridesForResource ListPrivilegeHolders
  ListProjectsForParticipant ListProjectsWithPI ListRatesForResource ListResourcesForAllocation
  ListRoleHolders ListRolePrivileges ListRoles ListSources ListTraces ListUsagesByUser
  ListUsagesForAllocation ListUserIdentitiesForUser ListUserPrivileges ListUserRoles
  ListUserRolesWithPrivileges ListUsers ProjectRoleForUser KnownPrivileges IsKnownPrivilege
  summariseTrace query_checked no_content ok created ok_list ok_page PrivilegeCatalog : reads.

Lemma Quiet_summariseLoop `{Env} markers f raw : Quiet (summariseLoop markers f raw).
Proof. induction raw as [|r raw IH]; simpl; unfold summariseTrace; solve_quiet. Qed.
#[local] Hint Resolve Quiet_summariseLoop : quiet.

(** Handlers, step by step. *)
Ltac keeps_read := apply Keeps_Quiet; solve [autounfold with reads; solve_quiet].
Ltac keeps_step :=
  lazymatch goal with
  | |- ∀ _, _ => intros ?
  | |- Keeps (let _ := _ in _) => cbv zeta
  | |- Keeps (requireCaller _ _) => apply Keeps_requireCaller
  | |- Keeps (bad_request _ _ _) => apply Keeps_bad_request
  | |- Keeps (decoded _ _ _) => apply Keeps_decoded
  | |- Keeps (call ?m (λ a, _ ← InvalidateAllIdentities; _)) =>
      let r := request_of m in
      apply (Keeps_call_invalidate r); [stands|done|autounfold with reads; solve_quiet]
  | |- Keeps (call _ _) => apply Keeps_call
  | |- Keeps (call500 _ _) => apply Keeps_call500
  | |- Keeps (check _ _) => apply Keeps_check
  | |- Keeps (if ?b then _ else _) => destruct b
  | |- Keeps (match ?x with _ => _ end) => destruct x
  | |- Keeps ?m =>
      first [ let r := request_of m in apply (Keeps_method r); [stands|done|done]
            | keeps_read
            | apply Keeps_bind ]
  end.

Ltac unfold_head t := lazymatch t with ?f _ => unfold_head f | _ => unfold t end.

Section coherence.
Context `{E : Env} `{TL : TextLib} `{!NoLost} (dep : Deployment).
Hypothesis reports_read : ∀ p req, Quiet (dep_report dep p req).

Lemma Keeps_scope_policy s req : Keeps (scope_policy s req).
Proof. destruct s; simpl; unfold canReadAllocation, canReadProject; repeat keeps_step. Qed.

(** Every handler but the one that removes a temporary account. *)
Lemma Keeps_handlers rt req :
  rt ∈ server_routes dep → route_pattern rt ≠ remove_pattern → Keeps (route_handler rt req).
Proof.
  intros Hin. revert req. revert rt Hin.
  apply (server_routes_Forall dep (λ rt, ∀ req, route_pattern rt ≠ remove_pattern → Keeps (route_handler rt req))).
  - unfold route_table. repeat (apply Forall_cons; split; [intros req _; cbn [route_handler]|]); [..|by apply Forall_nil].
    all: match goal with |- Keeps ?h => unfold_head h end; repeat keeps_step.
  - intros c. destruct c; cbn [connector_routes]; try by apply Forall_nil.
    + unfold amie_routes. cbv zeta. repeat (apply Forall_cons; split; [intros req _; cbn [route_handler]|]);
        [..|by apply Forall_nil]; apply Keeps_Quiet; first [apply reports_read|done].
    + unfold temp_account_routes. repeat (apply Forall_cons; split; [intros req Hp; cbn [route_handler]|]); [..|by apply Forall_nil].
      4: by destruct Hp.
      all: clear Hp; match goal with |- Keeps ?h => unfold_head h end; repeat keeps_step.
    + unfold analytics_routes. cbv zeta. repeat (apply Forall_cons; split; [intros req _; cbn [route_handler]|]);
        [..|by apply Forall_nil]; apply Keeps_Quiet; apply reports_read.
Qed.
End coherence.

(** ** The server *)

(** A request for the route by which the temporary-account connector deletes a
    user. *)
Definition removes_account (req : HttpRequest) : Prop :=
  r_method req = "DELETE" ∧ seg_match (pattern_segs remove_pattern) (unescape <$> r_path req) = true.

Section server_coherent.
Context `{E : Env} `{TL : TextLib} `{!NoLost} (dep : Deployment) {Token : Type}.
Context (iv : string → option Token) (tc : Token → option Claims).
Hypothesis reports_read : ∀ p req, Quiet (dep_report dep p req).

Lemma Keeps_gated rt req :
  rt ∈ server_routes dep → route_pattern rt ≠ remove_pattern → Keeps (gated rt req).
Proof.
  intros Hin Hne. assert (∀ req, Keeps (route_handler rt req)) as Hh by (intros; by apply (Keeps_handlers dep)).
  unfold gated. destruct (route_policy rt) as [|k| |s]; [by apply Hh| |by apply Hh|].
  - unfold privilege_gate. destruct (ctx_HasPrivilege _ _); [by apply Hh|by apply Keeps_Quiet].
  - unfold scope_gate. apply Keeps_bind; [apply Keeps_scope_policy|].
    intros [resp|]; [by apply Keeps_Quiet|by apply Hh].
Qed.

Lemma Keeps_mux req :
  ¬ removes_account req → Keeps (mux_ServeHTTP (router_mux (server_router dep)) req).
Proof.
  intros Hn. unfold mux_ServeHTTP. destruct (is_clean _); [|by apply Keeps_Quiet].
  destruct (mux_route _ _ _) as [[p h]|] eqn:Hr; [|by apply Keeps_Quiet].
  apply mux_route_sound in Hr as (rt & Hin & -> & -> & Hs & Hm). apply Keeps_gated; [done|].
  intros Hp. apply Hn. rewrite Hp in Hs, Hm. split; [|done]. destruct Hm as [<-|[_ Hm]]; [by vm_compute|].
  vm_compute in Hm. discriminate Hm.
Qed.

Lemma Keeps_serve_http req : ¬ removes_account req → Keeps (serve_http iv tc dep req).
Proof.
  intros Hn. unfold serve_http, Middleware. case_decide; [by apply Keeps_mux|].
  destruct (bearer _) as [raw|]; [|by apply Keeps_Quiet].
  destruct (Verify _ _ raw) as [claims|]; [|by apply Keeps_Quiet].
  apply Keeps_bind; [apply Keeps_catch, Keeps_ResolveCaller|].
  intros [[caller privs]|e]; [by apply Keeps_mux|by apply Keeps_Quiet].
Qed.

(** Requests one after another. *)
Definition http_run (reqs : list HttpRequest) (w : World) : World :=
  foldl (λ w req, (serve_http iv tc dep req w).2) w reqs.

Lemma http_run_coherent reqs w :
  Forall (λ req, ¬ removes_account req) reqs → coherent w → coherent (http_run reqs w).
Proof.
  unfold http_run. intros Hreqs. revert w. induction Hreqs as [|req reqs Hr _ IH]; intros w Hw; simpl; [done|].
  by apply IH, Keeps_serve_http.
Qed.
End server_coherent.

(** C14: the identity cache never lets a privilege outlive its revocation, nor
    hides a new one, as long as authorization is administered through the
    server, no answer of a COMMIT is lost, and no account is removed through the
    temporary-account connector (which does not invalidate the cache). After any
    sequence of such requests, on a server with any connectors whose report
    handlers change nothing, the database is sound and every entry of the cache
    carries exactly the privileges its user holds in the database, whichever
    round trips fail. *)
Theorem http_cache_coherent `{E : Env} `{TL : TextLib} `{!NoLost} (dep : Deployment) {Token}
    (iv : string → option Token) (tc : Token → option Claims) reqs w :
  (∀ p req, Quiet (dep_report dep p req)) → Forall (λ req, ¬ removes_account req) reqs → coherent w →
  integrity (w_db (http_run dep iv tc reqs w)) ∧
  ∀ sub e, cache_entries (w_cache (http_run dep iv tc reqs w)) !! sub = Some e →
    ∀ p, p ∈ entry_privs e ↔ holds (w_db (http_run dep iv tc reqs w)) (Caller_UserID (entry_caller e)) p.
Proof. intros Hd Hreqs Hw. by apply http_run_coherent. Qed.

(** ** Who may change something *)

Section mutations.
Context `{E : Env} `{TL : TextLib} (dep : Deployment).

(** A caller that was resolved is in the cache with the privileges returned. *)
Lemma ResolveCaller_cached c w caller privs w' :
  integrity (w_db w) → ResolveCaller (Some c) w = (Ok (caller, privs), w') →
  ∃ t, cache_entries (w_cache w') !! Claims_Sub c = Some (mkEntry caller privs t).
Proof.
  intros HI H. destruct ((cache_get (Claims_Sub c) (clock (w_clock w)) (w_cache w)).1) as [e|] eqn:Hg.
  - apply ResolveCaller_hit_Ok in H as [(t & Ht & _) Ho]; [|by unfold cache_miss; rewrite Hg].
    exists t. unfold obs in Ho. by injection Ho as _ _ -> _.
  - apply ResolveCaller_miss_Ok in H as (_ & _ & _ & ?); [by eexists|done..].
Qed.

(** In a state where the cache agrees with the database, the privileges a
    caller gets are those the user holds. *)
Lemma ResolveCaller_holds c w caller privs w' :
  coherent w → ResolveCaller (Some c) w = (Ok (caller, privs), w') →
  ∀ p, p ∈ privs ↔ holds (w_db w') (Caller_UserID caller) p.
Proof.
  intros Hw H. pose proof (Keeps_ResolveCaller (Some c) w Hw) as Hw'. rewrite H in Hw'.
  apply ResolveCaller_cached in H as [t Ht]; [|by apply Hw]. exact (proj2 Hw' _ _ Ht).
Qed.

(** A route that is not for reading asks for a privilege to write. *)
Lemma write_route rt :
  rt ∈ server_routes dep → pattern_method (route_pattern rt) ≠ "GET" →
  match route_policy rt with PolPrivilege k => k ∈ write_privileges | _ => False end.
Proof.
  intros Hin. assert ((if decide (pattern_method (route_pattern rt) = "GET") then true else
    match route_policy rt with PolPrivilege k => bool_decide (k ∈ write_privileges) | _ => false end) = true) as Hb.
  { revert rt Hin. apply (server_routes_Forall dep (λ rt, _)); [|intros []];
      refine (bool_decide_unpack _ _); vm_compute; exact I. }
  revert Hb. generalize (route_policy rt) (pattern_method (route_pattern rt)).
  intros pol m Hb Hm. destruct (decide (m = "GET")); [done|]. destruct pol as [|k| |s]; try done.
  by apply bool_decide_eq_true in Hb.
Qed.
End mutations.


(** ** Instances on concrete runs *)

(** Two tokens: the administrator's and carol's. *)
Definition root_token : Claims := mkClaims "sub-root" "root@example.org" true.
Definition verify0 (raw : string) : option Claims :=
  if decide (raw = "t-root") then Some root_token
  else if decide (raw = "t-carol") then Some carol_token else None.
(** Times and numbers are not used by these requests. *)
Definition text0 : TextLib := {| time_Parse _ := None; time_Unmarshal _ := None; ParseFloat _ := None |}.
(** A server with every connector enabled. *)
Definition dep0 : Deployment :=
  mkDeployment ∅ [temp_account; amie_processor; analytics; slurm_association_mapper; slurm_usage_monitor;
                  comanage_identity_provisioner] (λ _ _, mret (mkResponse 200 JNone)).
Definition http_in (env : Env) (req : HttpRequest) : M Response :=
  @serve_http env text0 Claims verify0 Some (@service_resolver env) dep0 req.
Abbreviation http0 := (http_in env0).

(** [POST /roles] by the administrator. *)
Definition post_role : HttpRequest :=
  mkHttpRequest "POST" ["roles"] "Bearer t-root" (Some (BObj [("name", JStr "reader"); ("description", JStr "reads")]))
    [] [] (mkCtx None None).

Lemma w_setup_coherent : coherent w_setup.
Proof.
  split; [apply w_setup_integrity|]. intros sub e He.
  assert (cache_entries (w_cache w_setup) = ∅) as Hc by (vm_compute; reflexivity).
  rewrite Hc in He. destruct (lookup_empty_Some _ _ He).
Qed.


Definition role_resp : Response :=
  mkResponse 201 (JOne (RRole (mkRole "id6" "reader" (Some "reads") false 0))).

Lemma http_access_control_witness :
  let w' := (http0 post_role w_setup).2 in
  (∃ rt ctx w1, rt ∈ @server_routes env0 text0 dep0 ∧ matches rt post_role ∧
     @admitted env0 (@service_resolver env0) Claims verify0 Some rt post_role w_setup ctx w1 ∧
     route_handler rt (routed rt ctx post_role) w1 = (Ok role_resp, w')) ∨
  @refused env0 (@service_resolver env0) w_setup role_resp w'.
Proof.
  apply (@http_access_control env0 text0 (@service_resolver env0) dep0 Claims verify0 Some post_role w_setup).
  apply (run_result (http0 post_role)). vm_compute. reflexivity.
Defined.


(** bob, who has no part in the project, and alice, its PI, ask for the
    allocation. *)
Definition get_alloc (user : string) : HttpRequest :=
  mkHttpRequest "GET" ["compute-allocations"; "alloc"] "" None [] [("id", "alloc")]
    (mkCtx (Some (mkCaller user)) (Some ∅)).

Lemma allocation_scope_witness :
  (@canReadAllocation env0 (get_alloc "bob") w_pi).1 = Ok (Some (mkResponse 404 (JError ErrNotFound))) ∧
  ∃ a, t_compute_allocations (w_db w_pi) !! "alloc" = Some a ∧ reads_allocation (w_db w_pi) a "alice".
Proof.
  destruct (@allocation_scope env0 _ (get_alloc "bob") (mkCaller "bob") w_pi) as (_ & _ & Hb); [reflexivity..|].
  destruct (@allocation_scope env0 _ (get_alloc "alice") (mkCaller "alice") w_pi) as (_ & Ha & _); [reflexivity..|].
  split.
  - apply Hb. vm_compute. discriminate.
  - apply Ha. vm_compute. reflexivity.
Defined.

Lemma http_cache_coherent_witness :
  integrity (w_db (@http_run env0 text0 dep0 Claims verify0 Some [post_role; post_role] w_setup)).
Proof.
  apply (@http_cache_coherent env0 text0 _ dep0 Claims verify0 Some); [done| |apply w_setup_coherent].
  repeat constructor; intros [Hm _]; discriminate Hm.
Defined.

(** A merge leaves the cached caller of the retiring user in place: the token
    still resolves to the retired user until the entry expires. *)
Example merge_keeps_cached_caller :
  let w1 := (@ResolveCaller env0 (Some carol_token) w_setup).2 in
  let w2 := (@serve env0 (ReqMergeUsers "alice" "carol") w1).2 in
  (UserIdentity_UserID <$> all_rows (t_user_identities (w_db w2)),
   User_Status <$> t_users (w_db w2) !! "carol",
   (@ResolveCaller env0 (Some carol_token) w2).1) =
  (["alice"], Some UserMerged, Ok (mkCaller "carol", [])).
Proof. vm_compute. reflexivity. Qed.

(** ** Where the cache and the database part *)

(** A virtual user with a privilege, signed in; the administrator may manage
    temporary accounts. *)
Definition w_temp : World :=
  (@ResolveCaller env0 (Some (mkClaims "sub-temp" "temp@example.org" false))
    (run_requests env0
       [ReqRegister [AccountsWrite]; ReqGrantPrivilege root_id AccountsWrite root_id "";
        ReqCreateUser (Some (mkUser "temp" "org" "Temp" "T" "" "temp@example.org" "" UserTypeVirtual));
        ReqGrantPrivilege "temp" UsersRead root_id ""] w_setup)).2.
Definition delete_req (path : list string) : HttpRequest :=
  mkHttpRequest "DELETE" path "Bearer t-root" None [] [] (mkCtx None None).
Definition revoke_temp : HttpRequest := delete_req ["users"; "temp"; "privileges"; UsersRead].
Definition cached_privs (sub : string) (w : World) : option (list PrivilegeKey) :=
  entry_privs <$> cache_entries (w_cache w) !! sub.

(** Removing the account through the temporary-account connector deletes the
    user and leaves the cached privileges. *)
Example removed_account_stays_cached :
  let '(r, w') := http0 (delete_req ["connectors"; "temp-account"; "remove"; "temp"]) w_temp in
  (r, t_users (w_db w') !! "temp", cached_privs "sub-temp" w') = (Ok (mkResponse 204 JNone), None, Some [UsersRead]).
Proof. vm_compute. reflexivity. Qed.

(** The COMMIT of a revocation is carried out and its answer lost: the client
    sees a 500, the privilege is gone from the database, and the cache still
    grants it. *)
Example lost_revocation_stays_cached :
  let env := env_answer_lost [w_stmt (http0 revoke_temp w_temp).2 - 1] in
  let '(r, w') := http_in env revoke_temp w_temp in
  (r, bool_decide ("temp" ∈ privilege_holders UsersRead (w_db w')), cached_privs "sub-temp" w') =
  (Ok (mkResponse 500 (JMessage "internal server error")), false, Some [UsersRead]).
Proof. vm_compute. reflexivity. Qed.
