(* ===== verification/TraceTheorems.v ===== *)
(** * Theorems about audit traces and project members

    The span tree links every row under its parent, the status of a trace is
    decided by its events, the filter of a request stays within its bounds, and
    the members of a project are listed once each. *)

From stdpp Require Import base gmap sets list strings.
From Stdlib Require Import ZArith.
From S2P Require Import Prelude GoError Models Schema Events Effects EffectsLogic StoreAuth StoreMembership.
From S2P Require Import Wire StoreTrace AuthService ServiceApi Scenario Http Server.

(** ** Specifications *)

(** The row hangs below another one of the trace. *)
Definition has_parent_row (rows : list AuditEvent) (r : AuditEvent) : Prop :=
  AuditEvent_ParentSpanID r ≠ "" ∧ AuditEvent_ParentSpanID r ∈ AuditEvent_SpanID <$> rows.
#[export] Instance has_parent_row_dec rows r : Decision (has_parent_row rows r).
Proof. unfold has_parent_row. apply _. Defined.

(** No two rows share a span, and a parent comes before its children. *)
Definition well_nested (rows : list AuditEvent) : Prop :=
  NoDup (AuditEvent_SpanID <$> rows) ∧
  ∀ i r, rows !! i = Some r → has_parent_row rows r →
    ∃ j q, j < i ∧ rows !! j = Some q ∧ AuditEvent_SpanID q = AuditEvent_ParentSpanID r.

(** The memberships of a user among those of a project, and their allocations. *)
Definition member_of (m : MembershipWithUser) : string := Membership_UserID (MWU_Membership m).
Definition rows_of (uid : string) (rows : list MembershipWithUser) : list MembershipWithUser :=
  filter (λ m, member_of m = uid) rows.
Definition allocations_of (uid : string) (rows : list MembershipWithUser) : list ProjectMemberAllocationRef :=
  allocation_ref <$> rows_of uid rows.

(** ** The tree *)

Lemma index_spans_lookup rows (m : gmap string TraceEvent) s :
  foldl (λ m r, <[AuditEvent_SpanID r := toTraceEvent r]> m) m rows !! s =
  match last (filter (λ r, AuditEvent_SpanID r = s) rows) with
  | Some r => Some (toTraceEvent r)
  | None => m !! s
  end.
Proof.
  revert m. induction rows as [|r rows IH] using rev_ind; intros m; [done|].
  rewrite foldl_snoc, filter_app, filter_cons, filter_nil. case_decide as Hs.
  - by rewrite last_snoc, <- Hs, lookup_insert_eq.
  - by rewrite app_nil_r, lookup_insert_ne, IH.
Qed.

Lemma index_spans_is_Some rows s : is_Some (index_spans rows !! s) ↔ s ∈ AuditEvent_SpanID <$> rows.
Proof.
  unfold index_spans. rewrite index_spans_lookup, list_elem_of_fmap. split.
  - intros Hs. destruct (last _) as [r|] eqn:Hl; [|by destruct Hs].
    apply last_Some_elem_of, list_elem_of_filter in Hl as [<- Hin]. by exists r.
  - intros (r & -> & Hin). destruct (last _) as [q|] eqn:Hl; [done|]. apply last_None in Hl.
    assert (r ∈ filter (λ q, AuditEvent_SpanID q = AuditEvent_SpanID r) rows) as Hr by (by apply list_elem_of_filter).
    rewrite Hl in Hr. by apply not_elem_of_nil in Hr.
Qed.

Section links.
Context (m : gmap string TraceEvent).
Definition linked_row (r : AuditEvent) : Prop :=
  AuditEvent_ParentSpanID r ≠ "" ∧ is_Some (m !! AuditEvent_ParentSpanID r).
#[local] Instance linked_row_dec r : Decision (linked_row r).
Proof. unfold linked_row. apply _. Defined.

Lemma link_rows_children rows t p :
  children_of (foldl (link_row m) t rows) p =
  children_of t p ++ (AuditEvent_SpanID <$> filter (λ r, linked_row r ∧ AuditEvent_ParentSpanID r = p) rows).
Proof.
  revert t. induction rows as [|r rows IH]; intros t; simpl; [by rewrite app_nil_r|].
  rewrite IH, filter_cons. unfold link_row at 1. fold (linked_row r). unfold children_of.
  destruct (decide (linked_row r)) as [Hl|Hl]; simpl.
  - case_decide as Hp.
    + destruct Hp as [_ <-]. rewrite lookup_insert_eq. simpl. by rewrite <- app_assoc.
    + rewrite lookup_insert_ne; [done|]. intros <-. by destruct Hp.
  - rewrite decide_False; [done|]. by intros [? _].
Qed.

Lemma link_rows_root rows t :
  tree_root (foldl (link_row m) t rows) =
  tree_root t ++ (AuditEvent_SpanID <$> filter (λ r, ¬ linked_row r) rows).
Proof.
  revert t. induction rows as [|r rows IH]; intros t; simpl; [by rewrite app_nil_r|].
  rewrite IH, filter_cons. unfold link_row at 1. fold (linked_row r).
  destruct (decide (linked_row r)) as [Hl|Hl]; simpl.
  - rewrite decide_False; [done|]. tauto.
  - rewrite decide_True by done. by rewrite <- app_assoc.
Qed.

Lemma link_rows_events rows t : tree_events (foldl (link_row m) t rows) = tree_events t.
Proof.
  revert t. induction rows as [|r rows IH]; intros t; simpl; [done|].
  rewrite IH. unfold link_row. by case_decide.
Qed.
End links.

Lemma linked_has_parent rows r : linked_row (index_spans rows) r ↔ has_parent_row rows r.
Proof. unfold linked_row, has_parent_row. by rewrite index_spans_is_Some. Qed.

Lemma buildTree_children rows p :
  children_of (buildTree rows) p =
  AuditEvent_SpanID <$> filter (λ r, has_parent_row rows r ∧ AuditEvent_ParentSpanID r = p) rows.
Proof.
  unfold buildTree. rewrite link_rows_children. unfold children_of at 1. simpl. rewrite lookup_empty. simpl.
  f_equal. apply list_filter_iff. intros r. by rewrite linked_has_parent.
Qed.

Lemma buildTree_root rows :
  tree_root (buildTree rows) = AuditEvent_SpanID <$> filter (λ r, ¬ has_parent_row rows r) rows.
Proof.
  unfold buildTree. rewrite link_rows_root. simpl. f_equal. apply list_filter_iff. intros r.
  by rewrite linked_has_parent.
Qed.

(** Rows that are well nested unfold without running out of fuel. *)
Lemma unfold_tree_row rows n i r :
  well_nested rows → rows !! i = Some r → length rows - i ≤ n →
  is_Some (unfold_tree n (buildTree rows) (AuditEvent_SpanID r)).
Proof.
  intros [Hnd Hp]. revert i r. induction n as [|n IH]; intros i r Hr Hn.
  { apply lookup_lt_Some in Hr. lia. }
  simpl. assert (is_Some (tree_events (buildTree rows) !! AuditEvent_SpanID r)) as [e ->].
  { unfold buildTree. rewrite link_rows_events. simpl. apply index_spans_is_Some, list_elem_of_fmap.
    exists r. split; [done|]. by eapply list_elem_of_lookup_2. }
  simpl. rewrite buildTree_children.
  enough (is_Some (mapM (unfold_tree n (buildTree rows))
    (AuditEvent_SpanID <$> filter (λ q, has_parent_row rows q ∧ AuditEvent_ParentSpanID q = AuditEvent_SpanID r) rows)))
    as [cs ->] by (simpl; eauto).
  apply mapM_is_Some, Forall_fmap, Forall_forall. intros q [[Hq Hpar] Hin]%list_elem_of_filter. simpl.
  apply list_elem_of_lookup in Hin as [k Hk].
  destruct (Hp k q Hk Hq) as (j & q' & Hj & Hq' & Hspan). rewrite Hpar in Hspan.
  assert (j = i) as ->.
  { apply (NoDup_lookup (AuditEvent_SpanID <$> rows) _ _ (AuditEvent_SpanID r) Hnd);
      rewrite list_lookup_fmap; [rewrite Hq'|rewrite Hr]; simpl; congruence. }
  apply (IH k q Hk). lia.
Qed.

Lemma encode_tree_total rows :
  well_nested rows → is_Some (encode_tree (length rows) (buildTree rows)).
Proof.
  intros Hw. unfold encode_tree. rewrite buildTree_root. apply mapM_is_Some, Forall_fmap, Forall_forall.
  intros r [_ Hin]%list_elem_of_filter. simpl. apply list_elem_of_lookup in Hin as [i Hi].
  apply (unfold_tree_row rows _ i r Hw Hi). lia.
Qed.

(** The span tree of a trace. The children of a span are exactly the rows
    that name it as their parent, and the top level the rows without a parent
    in the trace, each in the order of time; so every row is linked once. A
    node carries the event of the last row with its span. If no two rows share
    a span and parents come before their children, following the pointers
    ends after at most one step per row. *)
Theorem trace_tree_links rows :
  (∀ p, children_of (buildTree rows) p =
     AuditEvent_SpanID <$> filter (λ r, has_parent_row rows r ∧ AuditEvent_ParentSpanID r = p) rows) ∧
  tree_root (buildTree rows) = AuditEvent_SpanID <$> filter (λ r, ¬ has_parent_row rows r) rows ∧
  (∀ s, tree_events (buildTree rows) !! s =
     toTraceEvent <$> last (filter (λ r, AuditEvent_SpanID r = s) rows)) ∧
  (well_nested rows → is_Some (encode_tree (length rows) (buildTree rows))).
Proof.
  split; [apply buildTree_children|]. split; [apply buildTree_root|]. split; [|apply encode_tree_total].
  intros s. unfold buildTree. rewrite link_rows_events. simpl. unfold index_spans.
  rewrite index_spans_lookup. by destruct (last _).
Qed.

(** ** The status of a trace *)

Lemma trace_flags_spec markers events st :
  foldl (trace_flags markers) st events =
  (st.1 || bool_decide (Exists (λ e, EventStatus (TES_EventType e) = StatusError) events),
   st.2 || bool_decide (Exists (λ e, TES_EventType e ∈ default [] (markers !! TES_Source e)) events)).
Proof.
  revert st. induction events as [|e events IH]; intros [a b]; cbn [foldl].
  - simpl. by rewrite !orb_false_r.
  - rewrite IH. unfold trace_flags. cbn [fst snd]. f_equal; rewrite <- orb_assoc; f_equal;
      rewrite <- bool_decide_or; apply bool_decide_ext; by rewrite Exists_cons.
Qed.

(** The status of a trace is error if one of its events is an error, and
    otherwise ok exactly when an event is a terminal marker registered for its
    source; it is in progress in every other case. *)
Theorem trace_status_correct markers events :
  TraceStatus markers events =
  if decide (Exists (λ e, EventStatus (TES_EventType e) = StatusError) events) then StatusError
  else if decide (Exists (λ e, TES_EventType e ∈ default [] (markers !! TES_Source e)) events) then StatusOk
  else StatusInProgress.
Proof.
  unfold TraceStatus. rewrite trace_flags_spec. cbn [fst snd orb].
  by repeat (case_bool_decide || case_decide).
Qed.

(** ** The filter of a request *)

Section filters.
Context `{TL : TextLib}.

Lemma count_param_nonneg r name msg n : count_param name msg r = inr n → (0 <= n)%Z.
Proof. unfold count_param. repeat (case_decide || case_match); intros [=]; lia. Qed.

Lemma no_bad_status l : head (filter (λ s, isValidStatus s = false) l) = None → Forall (λ s, isValidStatus s = true) l.
Proof.
  intros Hn%head_None_nil. apply Forall_forall. intros s Hs. destruct (isValidStatus s) eqn:Hv; [done|].
  assert (s ∈ filter (λ s, isValidStatus s = false) l) as Hin by (by apply list_elem_of_filter).
  rewrite Hn in Hin. by apply not_elem_of_nil in Hin.
Qed.
End filters.

(** A filter that is accepted is within its bounds: a page of 1 to 200
    traces at an offset of at most a million, statuses that exist, and a window
    of at most 365 days when both ends are given. *)
Theorem trace_filter_bounds `{TL : TextLib} r f :
  parseTraceFilter r = inr f →
  (1 <= TF_Limit f <= 200)%Z ∧ (0 <= TF_Offset f <= 1000000)%Z ∧
  Forall (λ s, s ∈ [StatusOk; StatusError; StatusInProgress]) (TF_Statuses f) ∧
  (¬ IsZero (TF_From f) → ¬ IsZero (TF_To f) → (TF_To f - TF_From f <= maxAuditWindow)%Z).
Proof.
  unfold parseTraceFilter. destruct (head _) eqn:Hs; [done|]. apply no_bad_status in Hs.
  destruct (time_param "from" _ r) as [|from]; [done|]. destruct (time_param "to" _ r) as [|to]; [done|].
  case_decide as Hw; [done|]. destruct (count_param "limit" _ r) as [|n] eqn:Hn; [done|].
  destruct (count_param "offset" _ r) as [|offset] eqn:Ho; [done|]. case_decide as Hoff; [done|].
  apply count_param_nonneg in Hn, Ho. intros [= <-]. simpl.
  unfold maxTraceListLimit, defaultTraceLimit, maxTraceOffset in *.
  split; [case_decide; lia|]. split; [lia|]. split.
  - eapply Forall_impl; [exact Hs|]. intros s Hv. by apply bool_decide_eq_true in Hv.
  - intros Hf Ht. destruct (Z.le_gt_cases (to - from) maxAuditWindow); [done|]. destruct Hw. split_and!; [done..|lia].
Qed.

(** ** The members of a project *)

Lemma rows_of_snoc uid rows m :
  rows_of uid (rows ++ [m]) = rows_of uid rows ++ (if decide (member_of m = uid) then [m] else []).
Proof. unfold rows_of. by rewrite filter_app, filter_cons, filter_nil. Qed.

Lemma elem_of_members uid rows : uid ∈ member_of <$> rows ↔ is_Some (head (rows_of uid rows)).
Proof.
  rewrite list_elem_of_fmap. split.
  - intros (m & -> & Hm). eapply head_is_Some, list_elem_of_filter. by split.
  - intros [m Hm]. apply head_Some_elem, list_elem_of_filter in Hm as [? ?]. by exists m.
Qed.

(** The state of the loop: the users in the order of their first row, and for
    each its first row and its allocations so far. *)
Definition aggregated (rows : list MembershipWithUser)
    (st : list string * gmap string (MembershipWithUser * list ProjectMemberAllocationRef)) : Prop :=
  NoDup st.1 ∧ (∀ uid, uid ∈ st.1 ↔ uid ∈ member_of <$> rows) ∧
  ∀ uid, st.2 !! uid = (λ m, (m, allocations_of uid rows)) <$> head (rows_of uid rows).

Lemma add_member_aggregated rows st m : aggregated rows st → aggregated (rows ++ [m]) (add_member st m).
Proof.
  destruct st as [order byUser]. intros (Hnd & Hin & Hby). unfold add_member, aggregated. simpl in *.
  change (Membership_UserID (MWU_Membership m)) with (member_of m).
  pose proof (Hby (member_of m)) as Hm. rewrite fmap_app.
  destruct (head (rows_of (member_of m) rows)) as [b|] eqn:Hh; simpl in Hm; rewrite Hm; simpl.
  - assert (member_of m ∈ order) as Hmo by (rewrite Hin, elem_of_members, Hh; eauto).
    split; [done|]. split.
    { intros uid. rewrite elem_of_app, list_elem_of_singleton, <- Hin. split; [by left|]. by intros [?| ->]. }
    intros uid. unfold allocations_of. rewrite rows_of_snoc. case_decide as Hu; [subst uid|].
    + rewrite lookup_insert_eq. destruct (rows_of (member_of m) rows); simplify_eq/=. by rewrite fmap_app.
    + by rewrite lookup_insert_ne, app_nil_r.
  - assert (member_of m ∉ order) as Hmo by (rewrite Hin, elem_of_members, Hh; by intros []).
    split.
    { apply NoDup_app. split; [done|]. split; [|apply NoDup_singleton].
      intros x Hx Hxm. apply list_elem_of_singleton in Hxm as ->. done. }
    split; [intros uid; by rewrite !elem_of_app, Hin|].
    intros uid. unfold allocations_of. rewrite rows_of_snoc. case_decide as Hu; [subst uid|].
    + rewrite lookup_insert_eq. apply head_None_nil in Hh. by rewrite Hh.
    + by rewrite lookup_insert_ne, app_nil_r.
Qed.

Lemma aggregate_spec rows : aggregated rows (foldl add_member ([], ∅) rows).
Proof.
  induction rows as [|m rows IH] using rev_ind; [|rewrite foldl_snoc; by apply add_member_aggregated].
  split; [constructor|]. split; [done|]. intros uid. apply lookup_empty.
Qed.

(** What is listed for a user: the first row, with all allocations. *)
Lemma aggregate_members_elem projectID rows o :
  o ∈ aggregate_members projectID rows ↔
  ∃ m, head (rows_of (member_of m) rows) = Some m ∧
       o = member_response projectID (m, allocations_of (member_of m) rows).
Proof.
  unfold aggregate_members. pose proof (aggregate_spec rows) as (_ & Hin & Hby).
  destruct (foldl _ _ rows) as [order byUser]. simpl in *. rewrite list_elem_of_omap. split.
  - intros (uid & Huid & Ho). rewrite Hby in Ho. destruct (head (rows_of uid rows)) as [m|] eqn:Hh; [|done].
    assert (member_of m = uid) as <- by (by apply head_Some_elem, list_elem_of_filter in Hh as [? _]).
    injection Ho as <-. by exists m.
  - intros (m & Hh & ->). exists (member_of m). rewrite Hin, elem_of_members, Hby, Hh. split; [by eexists|done].
Qed.

Lemma aggregate_members_NoDup projectID rows :
  NoDup (ProjectMember_UserID <$> aggregate_members projectID rows).
Proof.
  unfold aggregate_members. pose proof (aggregate_spec rows) as (Hnd & _ & Hby).
  destruct (foldl _ _ rows) as [order byUser]. simpl in *.
  assert (∀ uid agg, byUser !! uid = Some agg → member_of agg.1 = uid) as Hid.
  { intros uid agg. rewrite Hby. destruct (head (rows_of uid rows)) as [m|] eqn:Hh; [|done].
    intros [= <-]. by apply head_Some_elem, list_elem_of_filter in Hh as [? _]. }
  clear Hby. induction Hnd as [|uid order Hno Hnd IH]; simpl; [constructor|].
  destruct (byUser !! uid) as [agg|] eqn:Hu; simpl; [|done]. constructor; [|done].
  change (Membership_UserID (MWU_Membership agg.1)) with (member_of agg.1).
  rewrite (Hid _ _ Hu). intros (o & Ho & (uid' & Hin & Hu')%list_elem_of_omap)%list_elem_of_fmap.
  destruct (byUser !! uid') as [agg'|] eqn:Hb; [|done]. injection Hu' as <-. simpl in Ho.
  apply Hno. rewrite Ho. by rewrite (Hid _ _ Hb : Membership_UserID (MWU_Membership agg'.1) = uid').
Qed.

(** The members of a project are listed once per user: there is one entry
    for every user with a membership of the project, made from the first row of
    the user, and it carries all the allocations of that user, in order. *)
Theorem project_members_grouped projectID rows :
  NoDup (ProjectMember_UserID <$> aggregate_members projectID rows) ∧
  (∀ uid, uid ∈ ProjectMember_UserID <$> aggregate_members projectID rows ↔ uid ∈ member_of <$> rows) ∧
  ∀ o, o ∈ aggregate_members projectID rows →
    ∃ m, head (rows_of (ProjectMember_UserID o) rows) = Some m ∧
         o = member_response projectID (m, allocations_of (ProjectMember_UserID o) rows).
Proof.
  split; [apply aggregate_members_NoDup|]. split.
  - intros uid. rewrite elem_of_members, list_elem_of_fmap. split.
    + intros (o & -> & (m & Hh & ->)%aggregate_members_elem). eauto.
    + intros [m Hh]. assert (member_of m = uid) as <- by (by apply head_Some_elem, list_elem_of_filter in Hh as [? _]).
      eexists. rewrite aggregate_members_elem. split; [|by exists m]. done.
  - intros o (m & Hh & ->)%aggregate_members_elem. by exists m.
Qed.

(** ** Instances on concrete runs *)

Definition span_row (id span parent event : string) (t : Time) : AuditEvent :=
  audit_row (mkAuditEvent id event t "e" "user" "" "core" "4bf92f3577b34da6a3ce929d0e0e4736" span parent).

(** A request that starts two further spans. *)
Definition rows0 : list AuditEvent :=
  [span_row "1" "00f067aa0ba902b7" "" "ROLE_CREATED" 1;
   span_row "2" "00f067aa0ba902b8" "00f067aa0ba902b7" "ROLE_UPDATED" 2;
   span_row "3" "00f067aa0ba902b9" "00f067aa0ba902b8" "ROLE_DELETED" 3].

Lemma rows0_nested : well_nested rows0.
Proof.
  split; [refine (bool_decide_unpack _ _); vm_compute; exact I|].
  intros i r Hr [_ Hp]. destruct i as [|[|[|i]]]; [..|discriminate Hr]; injection Hr as <-.
  - exfalso. revert Hp. refine (bool_decide_unpack _ _). vm_compute. exact I.
  - exists 0. eexists. split; [lia|]. split; reflexivity.
  - exists 1. eexists. split; [lia|]. split; reflexivity.
Qed.

Lemma trace_tree_links_witness :
  tree_root (buildTree rows0) = ["00f067aa0ba902b7"] ∧
  children_of (buildTree rows0) "00f067aa0ba902b7" = ["00f067aa0ba902b8"] ∧
  is_Some (encode_tree 3 (buildTree rows0)).
Proof.
  destruct (trace_tree_links rows0) as (Hc & Hr & _ & He).
  split; [rewrite Hr; vm_compute; reflexivity|]. split; [rewrite Hc; vm_compute; reflexivity|].
  exact (He rows0_nested).
Defined.

(** Two rows written in the same span share one node: the second event is
    listed twice, and the first not at all. *)
Example shared_span_loses_event :
  let rows := [span_row "1" "00f067aa0ba902b7" "" "USER_ROLE_GRANTED" 1;
               span_row "2" "00f067aa0ba902b7" "" "USER_ROLE_REVOKED" 2] in
  (fmap (λ t, match t with Node e _ => TraceEvent_EventType e end) (default [] (encode_tree 2 (buildTree rows)))) =
  ["USER_ROLE_REVOKED"; "USER_ROLE_REVOKED"].
Proof. vm_compute. reflexivity. Qed.

(** A row without a parent comes back with a blank-padded parent, which is not
    empty: no row is recognised as the root of its trace. *)
Example stored_root_not_recognised : root_row rows0 = None.
Proof. vm_compute. reflexivity. Qed.

Definition text1 : TextLib :=
  {| time_Parse s := if decide (s = "2026-01-01T00:00:00Z") then Some 1767225600000000%Z else None;
     time_Unmarshal _ := None; ParseFloat _ := None |}.

Definition traces_request : HttpRequest :=
  mkHttpRequest "GET" ["audit"; "traces"] "" None
    [("status", "ok,error"); ("from", "2026-01-01T00:00:00Z"); ("limit", "1000"); ("offset", "20")]
    [] (mkCtx None None).

Lemma trace_filter_bounds_witness :
  ∃ f, @parseTraceFilter text1 traces_request = inr f ∧ TF_Limit f = 200%Z ∧ (0 <= TF_Offset f <= 1000000)%Z.
Proof.
  eexists. split; [vm_compute; reflexivity|]. split; [reflexivity|].
  eapply (@trace_filter_bounds text1 traces_request). vm_compute. reflexivity.
Defined.
