(* ===== verification/Posix.v ===== *)
(** * POSIX usernames

    pkg/posix/username.go: the login name of an account on a cluster is built
    from the name of the user, kept to the 32 characters POSIX allows, with
    room for a number when the name is taken. Case mapping outside ASCII is
    that of the characters whose image is an ASCII letter. *)

From stdpp Require Import base list strings pretty.
From Stdlib Require Import ZArith Ascii Lia.
From S2P Require Import Prelude GoError Models.

(** ** Text *)

(** [strings.ToLower]: U+0130 goes to i and the Kelvin sign to k. *)
Fixpoint ToLower (s : string) : string :=
  match s with
  | EmptyString => EmptyString
  | String a s1 =>
      match s1 with
      | String b s2 =>
          if decide (nat_of_ascii a = 196 ∧ nat_of_ascii b = 176) then String "i" (ToLower s2)
          else match s2 with
               | String c s3 =>
                   if decide (nat_of_ascii a = 226 ∧ nat_of_ascii b = 132 ∧ nat_of_ascii c = 170)
                   then String "k" (ToLower s3)
                   else String (ascii_lower a) (ToLower s1)
               | EmptyString => String (ascii_lower a) (ToLower s1)
               end
      | EmptyString => String (ascii_lower a) EmptyString
      end
  end.

Definition ascii_upper (c : ascii) : ascii :=
  let n := nat_of_ascii c in
  if (97 <=? n)%nat && (n <=? 122)%nat then ascii_of_nat (n - 32) else c.

(** [strings.ToUpper]: U+0131 goes to I and U+017F to S. *)
Fixpoint ToUpper (s : string) : string :=
  match s with
  | EmptyString => EmptyString
  | String a s1 =>
      match s1 with
      | String b s2 =>
          if decide (nat_of_ascii a = 196 ∧ nat_of_ascii b = 177) then String "I" (ToUpper s2)
          else if decide (nat_of_ascii a = 197 ∧ nat_of_ascii b = 191) then String "S" (ToUpper s2)
          else String (ascii_upper a) (ToUpper s1)
      | EmptyString => String (ascii_upper a) EmptyString
      end
  end.

Fixpoint string_filter (p : ascii → bool) (s : string) : string :=
  match s with
  | EmptyString => EmptyString
  | String c s' => if p c then String c (string_filter p s') else string_filter p s'
  end.

Fixpoint string_forall (p : ascii → bool) (s : string) : bool :=
  match s with
  | EmptyString => true
  | String c s' => p c && string_forall p s'
  end.

(** [s[:n]] for [0 <= n <= len(s)]. *)
Definition prefix_of (n : nat) (s : string) : string := String.substring 0 n s.

(** [strconv.Itoa] of a natural number. *)
Definition Itoa (n : nat) : string := pretty n.

(** ** pkg/posix/username.go *)

Definition MaxCollisionSuffix : nat := 999.

Definition alnum (c : ascii) : bool :=
  let n := nat_of_ascii c in
  ((97 <=? n)%nat && (n <=? 122)%nat) || ((48 <=? n)%nat && (n <=? 57)%nat).

Definition Normalize (s : string) : string := string_filter alnum (ToLower s).

(** The environment variable POSIX_USERNAME_PREFIX, or the default. *)
Definition Prefix (POSIX_USERNAME_PREFIX : string) : string :=
  if decide (POSIX_USERNAME_PREFIX ≠ "") then POSIX_USERNAME_PREFIX else "custos".

Definition first_byte (s : string) : string := prefix_of 1 s.

(** The name portion, before it is shortened. *)
Definition local_name (first last : string) : option string :=
  if decide (first ≠ "" ∧ last ≠ "") then Some (first_byte first +:+ last)
  else if decide (last ≠ "") then Some last
  else if decide (first ≠ "") then Some first
  else None.

(** [None] when slicing panics: the prefix leaves no room at all. *)
Definition BuildBase (u : User) (prefix : string) : option (Res (string * bool)) :=
  match local_name (Normalize (User_FirstName u)) (Normalize (User_LastName u)) with
  | None =>
      Some (Err (Errorf "%w: user %q (first=%q last=%q)"
                   [User_ID u; User_FirstName u; User_LastName u] ErrUnbuildableUsername))
  | Some local =>
      let maxLocal := (32 - Z.of_nat (String.length prefix) - 1 - 3)%Z in
      if decide (maxLocal < Z.of_nat (String.length local))%Z then
        if decide (maxLocal < 0)%Z then None
        else Some (Ok (prefix +:+ "-" +:+ prefix_of (Z.to_nat maxLocal) local, true))
      else Some (Ok (prefix +:+ "-" +:+ local, false))
  end.

(** The [n]-th name the allocator tries. *)
Definition candidate (base : string) (n : nat) : string :=
  if decide (0 < n) then base +:+ Itoa (n + 1) else base.

(** ** Lemmas *)

Lemma string_length_app s t : String.length (s +:+ t) = String.length s + String.length t.
Proof. induction s as [|c s IH]; simpl; [done|]. by rewrite IH. Qed.

Lemma string_app_nil s : s +:+ "" = s.
Proof. induction s as [|c s IH]; [done|]. change (String c (s +:+ "") = String c s). by rewrite IH. Qed.

Lemma prefix_of_length n s : String.length (prefix_of n s) = n `min` String.length s.
Proof.
  unfold prefix_of. revert s. induction n as [|n IH]; intros [|c s]; simpl; auto.
Qed.

Lemma string_forall_app p s t : string_forall p (s +:+ t) = string_forall p s && string_forall p t.
Proof. induction s as [|c s IH]; simpl; [done|]. by rewrite IH, andb_assoc. Qed.

Lemma string_forall_filter p s : string_forall p (string_filter p s) = true.
Proof. induction s as [|c s IH]; simpl; [done|]. destruct (p c) eqn:Hp; simpl; [by rewrite Hp|done]. Qed.

Lemma string_forall_prefix p n s : string_forall p s = true → string_forall p (prefix_of n s) = true.
Proof.
  unfold prefix_of. revert s. induction n as [|n IH]; intros [|c s]; simpl; auto.
  intros [Hc Hs]%andb_true_iff. by rewrite Hc, IH.
Qed.

Lemma Normalize_alnum s : string_forall alnum (Normalize s) = true.
Proof. apply string_forall_filter. Qed.

Lemma local_name_alnum u l :
  local_name (Normalize (User_FirstName u)) (Normalize (User_LastName u)) = Some l →
  string_forall alnum l = true ∧ l ≠ "".
Proof.
  pose proof (Normalize_alnum (User_FirstName u)) as Hf.
  pose proof (Normalize_alnum (User_LastName u)) as Hl.
  revert Hf Hl. generalize (Normalize (User_FirstName u)) (Normalize (User_LastName u)).
  intros f s Hf Hs. unfold local_name. split_cases; intros; simplify_eq.
  - split; [|destruct f; [tauto|done]]. unfold first_byte.
    by rewrite string_forall_app, string_forall_prefix.
  - done.
  - done.
Qed.

(** The suffixes have at most three digits. *)
Lemma Itoa_small n : n < 1000 → String.length (Itoa n) ≤ 3 ∧ string_forall alnum (Itoa n) = true.
Proof.
  intros Hn. assert (Forall (λ n, String.length (Itoa n) ≤ 3 ∧ string_forall alnum (Itoa n) = true)
    (seq 0 1000)) as Hall by (refine (bool_decide_unpack _ _); vm_compute; exact I).
  rewrite Forall_forall in Hall. apply Hall. apply elem_of_seq. lia.
Qed.

Lemma candidate_app base n : n < MaxCollisionSuffix →
  ∃ t, candidate base n = base +:+ t ∧ String.length t ≤ 3 ∧ string_forall alnum t = true.
Proof.
  unfold candidate, MaxCollisionSuffix. intros Hn. case_decide.
  - eexists. split; [done|]. apply Itoa_small. lia.
  - exists "". split; [|split; simpl; [lia|done]].
    symmetry. apply string_app_nil.
Qed.

(** What [BuildBase] returns: the prefix, a dash and a name in lower case. *)
Lemma BuildBase_shape u prefix base truncated :
  BuildBase u prefix = Some (Ok (base, truncated)) →
  ∃ local, base = prefix +:+ "-" +:+ local ∧ string_forall alnum local = true ∧
    String.length prefix + 1 + String.length local + 3 ≤ 32 ∧
    (String.length prefix < 28 → local ≠ "").
Proof.
  unfold BuildBase. destruct (local_name _ _) as [l|] eqn:El; [|done].
  apply local_name_alnum in El as [Hl Hne]. cbv zeta.
  assert (l ≠ "" → 0 < String.length l) as Hpos by (destruct l; simpl; [done|lia]).
  case_decide as H1; [case_decide as H2; [done|]|]; intros [= <- <-]; eexists;
    (split; [reflexivity|split; [by try apply string_forall_prefix|]]).
  - rewrite prefix_of_length. split; [lia|].
    intros Hp Hb. apply (f_equal String.length) in Hb. rewrite prefix_of_length in Hb.
    simpl in Hb. specialize (Hpos Hne). lia.
  - split; [|done]. lia.
Qed.

(** It does not panic when the prefix has at most 28 characters. *)
Lemma BuildBase_total u prefix : String.length prefix ≤ 28 → BuildBase u prefix ≠ None.
Proof.
  intros Hp. unfold BuildBase. destruct (local_name _ _); [|done]. cbv zeta.
  case_decide; [|done]. case_decide; [lia|done].
Qed.
