(* ===== verification/AmieStore.v ===== *)
(** * AMIE: packets, events and their tables

    connectors/ACCESS/AMIE-Processor/{model,store,db}: the tables of the
    connector (db/migrations), one map per table, with the constraints they
    declare, and every statement of its stores. A statement is a partial
    function on the tables, as in Schema. The store methods that read go
    through the connection pool and not through the transaction, so they see
    the committed tables. *)

From stdpp Require Import base gmap sets list strings.
From Stdlib Require Import ZArith Ascii SpecFloat.
From S2P Require Import Prelude GoError Models Schema Wire StoreAuth StoreTrace.

(** ** JSON values

    A decoded JSON value ([any]): numbers are float64. An object is the list of
    its members; of members with the same name the last one counts. *)
#[warnings="-register-all"]
Inductive Any :=
  | ANull
  | ABool (b : bool)
  | ANum (x : float64)
  | AStr (s : string)
  | AArr (vs : list Any)
  | AObj (ms : list (string * Any)).

Abbreviation Obj := (list (string * Any)) (only parsing).

(** [m[key]] of a [map[string]any]. *)
Definition obj_get (key : string) (m : Obj) : option Any :=
  snd <$> last (filter (λ kv, kv.1 = key) m).

(** ** model *)

Definition AuditPacketReceived : string := "PACKET_RECEIVED".
Definition AuditCreatePerson : string := "CREATE_PERSON".
Definition AuditUpdatePerson : string := "UPDATE_PERSON".
Definition AuditMergePersons : string := "MERGE_PERSONS".
Definition AuditCreateAccount : string := "CREATE_ACCOUNT".
Definition AuditCreateProject : string := "CREATE_PROJECT".
Definition AuditCreateAllocation : string := "CREATE_ALLOCATION".
Definition AuditAttachResource : string := "ATTACH_RESOURCE".
Definition AuditInactivateProject : string := "INACTIVATE_PROJECT".
Definition AuditReactivateProject : string := "REACTIVATE_PROJECT".
Definition AuditCreateMembership : string := "CREATE_MEMBERSHIP".
Definition AuditInactivateMembership : string := "INACTIVATE_MEMBERSHIP".
Definition AuditReactivateMembership : string := "REACTIVATE_MEMBERSHIP".
Definition AuditPersistDNs : string := "PERSIST_DNS".
Definition AuditReplySent : string := "REPLY_SENT".
Definition AuditTransactionComplete : string := "TRANSACTION_COMPLETE".

Definition ProcessingStatusNew : string := "NEW".
Definition ProcessingStatusRunning : string := "RUNNING".
Definition ProcessingStatusSucceeded : string := "SUCCEEDED".
Definition ProcessingStatusRetryScheduled : string := "RETRY_SCHEDULED".
Definition ProcessingStatusPermanentlyFailed : string := "PERMANENTLY_FAILED".

Definition EventTypeDecodePacket : string := "DECODE_PACKET".

Definition PacketStatusNew : string := "NEW".
Definition PacketStatusDecoded : string := "DECODED".
Definition PacketStatusFailed : string := "FAILED".

(** RawJSON is a JSON text; it is represented by the object it denotes, and by
    [None] when it denotes none. [json.Marshal] of a decoded object denotes
    that object. *)
Record Packet := mkPacket {
  Packet_ID : string;
  Packet_AmieID : Z;
  Packet_Type : string;
  Packet_Status : string;
  Packet_RawJSON : option Obj;
  Packet_ReceivedAt : Time;
  Packet_DecodedAt : option Time;
  Packet_ProcessedAt : option Time;
  Packet_Retries : Z;
  Packet_LastError : option string }.

Record ProcessingEvent := mkProcessingEvent {
  PEvent_ID : string;
  PEvent_PacketID : string;
  PEvent_Type : string;
  PEvent_Status : string;
  PEvent_Attempts : Z;
  PEvent_CreatedAt : Time;
  PEvent_StartedAt : option Time;
  PEvent_FinishedAt : option Time;
  PEvent_LastError : option string;
  PEvent_NextRetryAt : option Time }.

Record EventWithPacket := mkEventWithPacket {
  EWP_Event : ProcessingEvent;
  EWP_PacketAmieID : Z;
  EWP_PacketType : string;
  EWP_PacketRawJSON : option Obj }.

Record ProcessingError := mkProcessingError {
  PError_ID : Z;
  PError_PacketID : option string;
  PError_EventID : option string;
  PError_OccurredAt : Time;
  PError_Summary : string;
  PError_Detail : option string }.

Record AmieAuditExtras := mkAmieAuditExtras {
  Extras_AuditEventID : string;
  Extras_PacketID : string;
  Extras_EventID : option string }.

Record UserDN := mkUserDN {
  UserDN_ID : string;
  UserDN_UserID : string;
  UserDN_DN : string;
  UserDN_CreatedAt : Time }.

(** ** Tables *)

Record AmieDB := mkAmieDB {
  t_packets : gmap string Packet;
  t_events : gmap string ProcessingEvent;
  t_errors : gmap Z ProcessingError;
  t_extras : gmap string AmieAuditExtras;
  t_user_dns : gmap string UserDN }.

Definition empty_amie : AmieDB := mkAmieDB ∅ ∅ ∅ ∅ ∅.

Definition set_packets (t : gmap string Packet) (d : AmieDB) : AmieDB :=
  mkAmieDB t (t_events d) (t_errors d) (t_extras d) (t_user_dns d).
Definition set_events (t : gmap string ProcessingEvent) (d : AmieDB) : AmieDB :=
  mkAmieDB (t_packets d) t (t_errors d) (t_extras d) (t_user_dns d).
Definition set_errors (t : gmap Z ProcessingError) (d : AmieDB) : AmieDB :=
  mkAmieDB (t_packets d) (t_events d) t (t_extras d) (t_user_dns d).
Definition set_extras (t : gmap string AmieAuditExtras) (d : AmieDB) : AmieDB :=
  mkAmieDB (t_packets d) (t_events d) (t_errors d) t (t_user_dns d).
Definition set_user_dns (t : gmap string UserDN) (d : AmieDB) : AmieDB :=
  mkAmieDB (t_packets d) (t_events d) (t_errors d) (t_extras d) t.

(** A write on the tables of the connector. *)
Abbreviation astmt := (AmieDB → dberr + AmieDB).

(** *** Text columns: valid UTF-8, without NUL *)

Definition in_range (lo hi : nat) (c : ascii) : bool :=
  let n := nat_of_ascii c in (lo <=? n)%nat && (n <=? hi)%nat.
Definition cont (c : ascii) : bool := in_range 128 191 c.

(** The length of the sequence a first byte announces and the range of its
    second byte, which excludes overlong forms and surrogates. *)
Definition lead2 (c : ascii) : bool := in_range 194 223 c.
Definition lead3 (a b : ascii) : bool :=
  if in_range 224 224 a then in_range 160 191 b
  else if in_range 237 237 a then in_range 128 159 b
  else in_range 225 239 a && cont b.
Definition lead4 (a b : ascii) : bool :=
  if in_range 240 240 a then in_range 144 191 b
  else if in_range 244 244 a then in_range 128 143 b
  else in_range 241 243 a && cont b.

Fixpoint valid_text (s : string) : bool :=
  match s with
  | EmptyString => true
  | String a s1 =>
      if in_range 1 127 a then valid_text s1
      else match s1 with
           | String b s2 =>
               if lead2 a && cont b then valid_text s2
               else match s2 with
                    | String c s3 =>
                        if lead3 a b && cont c then valid_text s3
                        else match s3 with
                             | String d s4 => lead4 a b && cont c && cont d && valid_text s4
                             | EmptyString => false
                             end
                    | EmptyString => false
                    end
           | EmptyString => false
           end
  end.

Definition text_ok (o : option string) : Prop :=
  match o with Some s => valid_text s = true | None => True end.
#[export] Instance text_ok_dec o : Decision (text_ok o).
Proof. unfold text_ok. destruct o; apply _. Defined.

(** ** The declared constraints *)

Definition uq_amie_packets_amie_id (p : Packet) : option Z := Some (Packet_AmieID p).
Definition uq_amie_events_packet_type (e : ProcessingEvent) : option (string * string) :=
  Some (PEvent_PacketID e, PEvent_Type e).
Definition uq_amie_user_dns_dn (d : UserDN) : option string := Some (UserDN_DN d).

Definition fk_amie_events_packet (e : ProcessingEvent) : option string := Some (PEvent_PacketID e).
Definition fk_amie_errors_packet (e : ProcessingError) : option string := PError_PacketID e.
Definition fk_amie_errors_event (e : ProcessingError) : option string := PError_EventID e.
Definition fk_amie_audit_extras_event (x : AmieAuditExtras) : option string := Some (Extras_AuditEventID x).
Definition fk_amie_audit_extras_packet (x : AmieAuditExtras) : option string := Some (Extras_PacketID x).
Definition fk_amie_audit_extras_procev (x : AmieAuditExtras) : option string := Extras_EventID x.

(** The type of a packet fits its column. *)
Definition type_fits (p : Packet) : Prop :=
  char_length (Packet_Type p) ≤ 64 ∧ valid_text (Packet_Type p) = true.

(** Every constraint inside the tables of the connector holds. *)
Record amie_integrity (d : AmieDB) : Prop := {
  pk_packets : keyed Packet_ID (t_packets d);
  pk_events : keyed PEvent_ID (t_events d);
  pk_extras : keyed Extras_AuditEventID (t_extras d);
  pk_user_dns : keyed UserDN_ID (t_user_dns d);
  u_packets_amie_id : uniq uq_amie_packets_amie_id (t_packets d);
  u_events_packet_type : uniq uq_amie_events_packet_type (t_events d);
  u_user_dns_dn : uniq uq_amie_user_dns_dn (t_user_dns d);
  f_events_packet : refs fk_amie_events_packet (t_events d) (t_packets d);
  f_errors_packet : refs fk_amie_errors_packet (t_errors d) (t_packets d);
  f_errors_event : refs fk_amie_errors_event (t_errors d) (t_events d);
  f_extras_packet : refs fk_amie_audit_extras_packet (t_extras d) (t_packets d);
  f_extras_event : refs fk_amie_audit_extras_procev (t_extras d) (t_events d);
  c_packets_type : map_Forall (λ _ p, type_fits p) (t_packets d) }.

(** ** store/packet_store.go *)

Definition pgPacketStore_FindByAmieID (amieID : Z) (d : AmieDB) : option Packet :=
  select_one (λ p, Packet_AmieID p = amieID) (t_packets d).

Definition pgPacketStore_FindByID (id : string) (d : AmieDB) : option Packet := t_packets d !! id.

Definition pgPacketStore_Save (p : Packet) : astmt := λ d,
  ensure fits [(255, Packet_ID p); (64, Packet_Type p); (32, Packet_Status p)] orelse StringTooLong;
  ensure valid_text (Packet_Type p) = true ∧ text_ok (Packet_LastError p) orelse InvalidText;
  ensure t_packets d !! Packet_ID p = None orelse UniqueViolation "amie_packets_pkey";
  ensure free uq_amie_packets_amie_id (Packet_ID p) p (t_packets d)
    orelse UniqueViolation "uq_amie_packets_amie_id";
  inr (set_packets (<[Packet_ID p := p]> (t_packets d)) d).

(** The row an UPDATE leaves: amie_id and received_at are not assigned. *)
Definition updated_packet (p old : Packet) : Packet :=
  mkPacket (Packet_ID old) (Packet_AmieID old) (Packet_Type p) (Packet_Status p) (Packet_RawJSON p)
    (Packet_ReceivedAt old) (Packet_DecodedAt p) (Packet_ProcessedAt p) (Packet_Retries p)
    (Packet_LastError p).

Definition pgPacketStore_Update (p : Packet) : astmt := λ d,
  match t_packets d !! Packet_ID p with
  | None => inr d
  | Some old =>
      ensure fits [(64, Packet_Type p); (32, Packet_Status p)] orelse StringTooLong;
      ensure valid_text (Packet_Type p) = true ∧ text_ok (Packet_LastError p) orelse InvalidText;
      inr (set_packets (<[Packet_ID p := updated_packet p old]> (t_packets d)) d)
  end.

Definition pgPacketStore_ListPacketEvents (packetID : string) (d : AmieDB) : list ProcessingEvent :=
  order_by PEvent_CreatedAt Z.le (select_rows (λ e, PEvent_PacketID e = packetID) (t_events d)).

(** ** store/event_store.go *)

Definition pgEventStore_FindByID (id : string) (d : AmieDB) : option ProcessingEvent := t_events d !! id.

(** A row of the join of events and packets. *)
Definition with_packet (d : AmieDB) (e : ProcessingEvent) : option EventWithPacket :=
  p ← t_packets d !! PEvent_PacketID e;
  Some (mkEventWithPacket e (Packet_AmieID p) (Packet_Type p) (Packet_RawJSON p)).

Definition due (statuses : list string) (now : Time) (e : ProcessingEvent) : Prop :=
  PEvent_Status e ∈ statuses ∧
  match PEvent_NextRetryAt e with Some t => (t <= now)%Z | None => True end.
#[export] Instance due_dec statuses now e : Decision (due statuses now e).
Proof. unfold due. destruct (PEvent_NextRetryAt e); apply _. Defined.

Definition pgEventStore_FindTop50EventsToProcess (statuses : list string) (now : Time) (d : AmieDB) :
    list EventWithPacket :=
  take 50 (order_by (λ x, PEvent_CreatedAt (EWP_Event x)) Z.le
    (omap (with_packet d) (select_rows (due statuses now) (t_events d)))).

Definition pgEventStore_Save (e : ProcessingEvent) : astmt := λ d,
  ensure fits [(255, PEvent_ID e); (255, PEvent_PacketID e); (64, PEvent_Type e); (32, PEvent_Status e)]
    orelse StringTooLong;
  ensure text_ok (PEvent_LastError e) orelse InvalidText;
  ensure t_events d !! PEvent_ID e = None orelse UniqueViolation "amie_processing_events_pkey";
  ensure free uq_amie_events_packet_type (PEvent_ID e) e (t_events d)
    orelse UniqueViolation "uq_amie_events_packet_type";
  ensure has_parent (fk_amie_events_packet e) (t_packets d)
    orelse ForeignKeyViolation "fk_amie_events_packet";
  inr (set_events (<[PEvent_ID e := e]> (t_events d)) d).

(** The row an UPDATE leaves: packet_id, type and created_at are not assigned. *)
Definition updated_event (e old : ProcessingEvent) : ProcessingEvent :=
  mkProcessingEvent (PEvent_ID old) (PEvent_PacketID old) (PEvent_Type old) (PEvent_Status e)
    (PEvent_Attempts e) (PEvent_CreatedAt old) (PEvent_StartedAt e) (PEvent_FinishedAt e)
    (PEvent_LastError e) (PEvent_NextRetryAt e).

Definition pgEventStore_Update (e : ProcessingEvent) : astmt := λ d,
  match t_events d !! PEvent_ID e with
  | None => inr d
  | Some old =>
      ensure fits [(32, PEvent_Status e)] orelse StringTooLong;
      ensure text_ok (PEvent_LastError e) orelse InvalidText;
      inr (set_events (<[PEvent_ID e := updated_event e old]> (t_events d)) d)
  end.

(** ** store/error_store.go *)

(** [id] is the next value of the identity column. *)
Definition pgProcessingErrorStore_Save (id : Z) (e : ProcessingError) : astmt := λ d,
  let e := mkProcessingError id (PError_PacketID e) (PError_EventID e) (PError_OccurredAt e)
             (PError_Summary e) (PError_Detail e) in
  ensure valid_text (PError_Summary e) = true ∧ text_ok (PError_Detail e) orelse InvalidText;
  ensure t_errors d !! id = None orelse UniqueViolation "amie_processing_errors_pkey";
  ensure has_parent (fk_amie_errors_packet e) (t_packets d)
    orelse ForeignKeyViolation "fk_amie_errors_packet";
  ensure has_parent (fk_amie_errors_event e) (t_events d)
    orelse ForeignKeyViolation "fk_amie_errors_event";
  inr (set_errors (<[id := e]> (t_errors d)) d).

(** ** store/audit_store.go *)

(** [audits] are the audit_events rows the transaction sees. *)
Definition pgAuditExtrasStore_Save (audits : gmap string AuditEvent) (x : AmieAuditExtras) : astmt := λ d,
  ensure fits [(255, Extras_AuditEventID x); (255, Extras_PacketID x)] orelse StringTooLong;
  ensure t_extras d !! Extras_AuditEventID x = None orelse UniqueViolation "amie_audit_extras_pkey";
  ensure has_parent (fk_amie_audit_extras_event x) audits
    orelse ForeignKeyViolation "fk_amie_audit_extras_event";
  ensure has_parent (fk_amie_audit_extras_packet x) (t_packets d)
    orelse ForeignKeyViolation "fk_amie_audit_extras_packet";
  ensure has_parent (fk_amie_audit_extras_procev x) (t_events d)
    orelse ForeignKeyViolation "fk_amie_audit_extras_procev";
  inr (set_extras (<[Extras_AuditEventID x := x]> (t_extras d)) d).

(** ** store/user_dn_store.go *)

(** INSERT ... ON CONFLICT DO NOTHING; created_at has a default. *)
Definition pgUserDNStore_Add (x : UserDN) (now : Time) : astmt := λ d,
  ensure fits [(255, UserDN_ID x); (255, UserDN_UserID x); (512, UserDN_DN x)] orelse StringTooLong;
  ensure valid_text (UserDN_DN x) = true orelse InvalidText;
  if decide (t_user_dns d !! UserDN_ID x = None ∧ free uq_amie_user_dns_dn (UserDN_ID x) x (t_user_dns d))
  then inr (set_user_dns (<[UserDN_ID x := mkUserDN (UserDN_ID x) (UserDN_UserID x) (UserDN_DN x) now]>
                            (t_user_dns d)) d)
  else inr d.

Definition pgUserDNStore_ListByUser (userID : string) (d : AmieDB) : list UserDN :=
  order_by UserDN_CreatedAt Z.le (select_rows (λ x, UserDN_UserID x = userID) (t_user_dns d)).

Definition pgUserDNStore_DeleteByID (id : string) : astmt := λ d,
  inr (set_user_dns (delete id (t_user_dns d)) d).

(** The DNs a user holds. *)
Definition dns_of (userID : string) (d : AmieDB) : list string :=
  UserDN_DN <$> select_rows (λ x, UserDN_UserID x = userID) (t_user_dns d).

(** The two statements of [ReassignUser]. *)
Definition pgUserDNStore_DropDuplicates (fromUserID toUserID : string) : astmt := λ d,
  inr (set_user_dns
    (filter (λ kx, ¬ (UserDN_UserID kx.2 = fromUserID ∧ UserDN_DN kx.2 ∈ dns_of toUserID d)) (t_user_dns d)) d).
Definition with_dn_user (u : string) (x : UserDN) : UserDN :=
  mkUserDN (UserDN_ID x) u (UserDN_DN x) (UserDN_CreatedAt x).
Definition pgUserDNStore_MoveUser (fromUserID toUserID : string) : astmt := λ d,
  inr (set_user_dns (update_where (λ x, UserDN_UserID x = fromUserID) (with_dn_user toUserID) (t_user_dns d)) d).

(** ** store/packet_audit_store.go *)

(** The rows of [packetAuditSelect]. *)
Definition packet_audit_rows (packetID : string) (audits : gmap string AuditEvent) (d : AmieDB) :
    list AuditEvent :=
  order_by id event_le
    (omap (λ x, audits !! Extras_AuditEventID x)
       (select_rows (λ x, Extras_PacketID x = packetID) (t_extras d))).

Definition pgPacketAuditStore_ListAuditsForPacket (packetID : string) (audits : gmap string AuditEvent)
    (d : AmieDB) : list TraceEvent :=
  toTraceEvent <$> packet_audit_rows packetID audits d.

#[export] Hint Unfold
  pgPacketStore_Save pgPacketStore_Update pgEventStore_Save pgEventStore_Update
  pgProcessingErrorStore_Save pgAuditExtrasStore_Save pgUserDNStore_Add pgUserDNStore_DeleteByID
  pgUserDNStore_DropDuplicates pgUserDNStore_MoveUser : stmts.

(** ** Every statement preserves the constraints *)

(** What a statement does to the tables. *)
Definition astmt_pres (s : astmt) : Prop := ∀ d d', s d = inr d' → amie_integrity d → amie_integrity d'.

Create HintDb astmt discriminated.
#[export] Hint Constants Opaque : astmt.

Lemma fits_elem n s cols : fits cols → (n, s) ∈ cols → char_length s ≤ n.
Proof. unfold fits. rewrite Forall_forall. intros Hf Hin. exact (Hf _ Hin). Qed.

Lemma pgPacketStore_Save_pres p : astmt_pres (pgPacketStore_Save p).
Proof.
  unfold astmt_pres, pgPacketStore_Save. solve_integrity. split; [|tauto].
  eapply fits_elem; [eassumption|]. by right; left.
Qed.
Lemma pgPacketStore_Update_pres p : astmt_pres (pgPacketStore_Update p).
Proof.
  unfold astmt_pres, pgPacketStore_Update. solve_integrity. split; simpl; [|tauto].
  eapply fits_elem; [eassumption|]. by left.
Qed.
Lemma pgEventStore_Save_pres e : astmt_pres (pgEventStore_Save e).
Proof. unfold astmt_pres, pgEventStore_Save. solve_integrity. Qed.
Lemma pgEventStore_Update_pres e : astmt_pres (pgEventStore_Update e).
Proof. unfold astmt_pres, pgEventStore_Update. solve_integrity. Qed.
Lemma pgProcessingErrorStore_Save_pres i e : astmt_pres (pgProcessingErrorStore_Save i e).
Proof. unfold astmt_pres, pgProcessingErrorStore_Save. solve_integrity. Qed.
Lemma pgAuditExtrasStore_Save_pres a x : astmt_pres (pgAuditExtrasStore_Save a x).
Proof. unfold astmt_pres, pgAuditExtrasStore_Save. solve_integrity. Qed.
Lemma pgUserDNStore_Add_pres x now : astmt_pres (pgUserDNStore_Add x now).
Proof.
  intros d d' HS HI. stmt_inv HS; [|done]. destruct HI; split; cbn; try assumption; destruct_and!;
    repeat table_step.
Qed.
Lemma pgUserDNStore_DeleteByID_pres i : astmt_pres (pgUserDNStore_DeleteByID i).
Proof. unfold astmt_pres, pgUserDNStore_DeleteByID. solve_integrity. Qed.
Lemma pgUserDNStore_DropDuplicates_pres f t : astmt_pres (pgUserDNStore_DropDuplicates f t).
Proof. unfold astmt_pres, pgUserDNStore_DropDuplicates. solve_integrity. Qed.
Lemma pgUserDNStore_MoveUser_pres f t : astmt_pres (pgUserDNStore_MoveUser f t).
Proof. unfold astmt_pres, pgUserDNStore_MoveUser. solve_integrity. Qed.

#[export] Hint Resolve
  pgPacketStore_Save_pres pgPacketStore_Update_pres pgEventStore_Save_pres pgEventStore_Update_pres
  pgProcessingErrorStore_Save_pres pgAuditExtrasStore_Save_pres pgUserDNStore_Add_pres
  pgUserDNStore_DeleteByID_pres pgUserDNStore_DropDuplicates_pres pgUserDNStore_MoveUser_pres : astmt.

Lemma empty_amie_integrity : amie_integrity empty_amie.
Proof. split; repeat intros ?; simplify_map_eq. Qed.
