(* ===== verification/AmieEffects.v ===== *)
(** * Effects of the AMIE connector

    The connector runs inside the server process and uses the core service, so
    its state is that of the service ([a_core]) with the connector's tables, the
    transaction the processor has open on them, and the AMIE endpoint. The two
    kinds of transaction are separate: a handler writes audit rows, DNs and the
    state of the event through the processor's transaction, but each call of the
    service begins and commits its own ([svc]). Statements of the connector are
    round trips like those of the service and fail with the same [fault]; a COMMIT
    that fails can have been carried out ([lost]), and a request to AMIE that gets
    no answer can have been taken ([http_taken]). *)

From stdpp Require Import base gmap sets list strings.
From Stdlib Require Import ZArith.
From S2P Require Import Prelude GoError Models Schema Events IdentityCache Effects EffectsLogic.
From S2P Require Import StoreAuth AuthService ServiceApi Posix AmieStore.

(** A response of the AMIE API: its status, its body as text and, when the text
    is JSON, the value. *)
Record HttpResponse := mkHttpResponse {
  hr_status : Z;
  hr_text : string;
  hr_json : option Any }.

(** What the connector does not control: the ids OpenTelemetry gives to the
    [n]-th span (empty without a recording provider), the outcome of the [n]-th
    HTTP request ([None] when no response came), whether AMIE took the [n]-th
    request although the client saw no success, the order in which the keys of
    a Go map are visited, the configured prefix of login names, and the value of
    a conversion of a float64 outside the range of int64. *)
Class AmieEnv := {
  otel_trace : nat → string;
  otel_span : nat → string;
  http : nat → option HttpResponse;
  http_taken : nat → bool;
  range_keys : gset string → list string;
  range_keys_perm s : range_keys s ≡ₚ elements s;
  POSIX_USERNAME_PREFIX : string;
  int64_overflow : float64 → Z }.

Record AWorld := mkAWorld {
  a_core : World;
  a_db : AmieDB;                          (* committed *)
  a_tx : AmieDB;                          (* working copy of the open transaction *)
  a_txaudit : gmap string AuditEvent;     (* audit_events rows it has inserted *)
  a_txnow : Time;                         (* its CURRENT_TIMESTAMP *)
  a_seq : Z;                              (* next id of amie_processing_errors *)
  a_spans : nat;                          (* spans started *)
  a_http : nat;                           (* HTTP requests sent *)
  a_replies : list (Z * Any) }.           (* replies AMIE took, oldest first *)

Definition set_core (c : World) (w : AWorld) : AWorld :=
  mkAWorld c (a_db w) (a_tx w) (a_txaudit w) (a_txnow w) (a_seq w) (a_spans w) (a_http w) (a_replies w).
Definition set_adb (d : AmieDB) (w : AWorld) : AWorld :=
  mkAWorld (a_core w) d (a_tx w) (a_txaudit w) (a_txnow w) (a_seq w) (a_spans w) (a_http w) (a_replies w).
Definition set_atx (d : AmieDB) (w : AWorld) : AWorld :=
  mkAWorld (a_core w) (a_db w) d (a_txaudit w) (a_txnow w) (a_seq w) (a_spans w) (a_http w) (a_replies w).
Definition set_txaudit (t : gmap string AuditEvent) (w : AWorld) : AWorld :=
  mkAWorld (a_core w) (a_db w) (a_tx w) t (a_txnow w) (a_seq w) (a_spans w) (a_http w) (a_replies w).
Definition set_atxnow (t : Time) (w : AWorld) : AWorld :=
  mkAWorld (a_core w) (a_db w) (a_tx w) (a_txaudit w) t (a_seq w) (a_spans w) (a_http w) (a_replies w).
Definition bump_seq (w : AWorld) : AWorld :=
  mkAWorld (a_core w) (a_db w) (a_tx w) (a_txaudit w) (a_txnow w) (a_seq w + 1) (a_spans w) (a_http w)
    (a_replies w).
Definition bump_spans (w : AWorld) : AWorld :=
  mkAWorld (a_core w) (a_db w) (a_tx w) (a_txaudit w) (a_txnow w) (a_seq w) (S (a_spans w)) (a_http w)
    (a_replies w).
Definition bump_http (w : AWorld) : AWorld :=
  mkAWorld (a_core w) (a_db w) (a_tx w) (a_txaudit w) (a_txnow w) (a_seq w) (a_spans w) (S (a_http w))
    (a_replies w).
Definition add_reply (r : Z * Any) (w : AWorld) : AWorld :=
  mkAWorld (a_core w) (a_db w) (a_tx w) (a_txaudit w) (a_txnow w) (a_seq w) (a_spans w) (a_http w)
    (a_replies w ++ [r]).

(** A freshly migrated connector beside a service. *)
Definition init_amie (c : World) : AWorld := mkAWorld c empty_amie empty_amie ∅ 0 1 0 0 [].

(** The committed rows of the core database. *)
Definition core_db (w : AWorld) : DB := w_db (a_core w).

(** ** The monad *)

Definition AM (A : Type) : Type := AWorld → Res A * AWorld.

#[export] Instance AM_ret : MRet AM := λ A a w, (Ok a, w).
#[export] Instance AM_bind : MBind AM := λ A B k m w,
  match m w with
  | (Ok a, w') => k a w'
  | (Err e, w') => (Err e, w')
  end.

Definition athrow {A} (e : error) : AM A := λ w, (Err e, w).

(** A call without effects. *)
Definition pure {A} (r : Res A) : AM A := λ w, (r, w).

Definition awrapf {A} (format : string) (args : list string) (m : AM A) : AM A := λ w,
  match m w with
  | (Ok a, w') => (Ok a, w')
  | (Err e, w') => (Err (Errorf format args e), w')
  end.
Abbreviation awrap format m := (awrapf format [] m).

(** A call whose error the caller inspects. *)
Definition acatch {A} (m : AM A) : AM (Res A) := λ w, let '(r, w') := m w in (Ok r, w').

Definition agets {A} (f : AWorld → A) : AM A := λ w, (Ok (f w), w).
Definition amodify (f : AWorld → AWorld) : AM unit := λ w, (Ok tt, f w).

(** [for _, x := range xs { m }], stopping at the first error. *)
Fixpoint aeach {A} (f : A → AM unit) (xs : list A) : AM unit :=
  match xs with
  | [] => mret tt
  | x :: xs' => _ ← f x; aeach f xs'
  end.

(** A loop that counts. *)
Fixpoint acount {A} (f : A → AM bool) (xs : list A) : AM nat :=
  match xs with
  | [] => mret 0
  | x :: xs' => b ← f x; n ← acount f xs'; mret (if (b : bool) then S n else n)
  end.

(** A loop that collects. *)
Fixpoint agather {A B} (f : A → AM (list B)) (xs : list A) : AM (list B) :=
  match xs with
  | [] => mret []
  | x :: xs' => ys ← f x; zs ← agather f xs'; mret (ys ++ zs)
  end.

Section primitives.
Context `{E : Env} `{AE : AmieEnv}.

(** A call of the core service, or of one of its primitives. *)
Definition svc {A} (m : M A) : AM A := λ w, let '(r, c) := m (a_core w) in (r, set_core c w).

(** A SELECT of a store: it sees the committed tables. *)
Definition aquery {A} (f : AmieDB → A) : AM A := _ ← svc round_trip; agets (λ w, f (a_db w)).

Definition apply_astmt (s : astmt) : AM unit := λ w,
  match s (a_tx w) with
  | inl e => (Err (DbError e), w)
  | inr d => (Ok tt, set_atx d w)
  end.

(** A write through the processor's transaction. *)
Definition aexec (s : astmt) : AM unit := _ ← svc round_trip; apply_astmt s.

(** The audit_events rows the transaction sees: its own and the committed ones. *)
Definition audits_seen (w : AWorld) : gmap string AuditEvent :=
  a_txaudit w ∪ t_audit_events (core_db w).

(** A row inserted in audit_events through the processor's transaction. *)
Definition apply_audit (e : AuditEvent) : AM unit := λ w,
  match pgAuditEventStore_Create e (set_audit_events (audits_seen w) (core_db w)) with
  | inl err => (Err (DbError err), w)
  | inr d => (Ok tt, set_txaudit (t_audit_events d ∖ t_audit_events (core_db w)) w)
  end.
Definition aexec_audit (e : AuditEvent) : AM unit := _ ← svc round_trip; apply_audit e.

(** The state in which the body of a transaction starts, and what a commit
    makes visible. *)
Definition atx_begin (w : AWorld) : AWorld :=
  set_atxnow (db_clock (w_stmt (a_core w)))
    (set_txaudit ∅ (set_atx (a_db w) (set_core (bump_stmt (a_core w)) w))).
Definition atx_commit (w : AWorld) : AWorld :=
  set_core (set_db (set_audit_events (audits_seen w) (core_db w)) (bump_stmt (a_core w)))
    (set_adb (a_tx w) w).

(** [custosdb.TxFn] (db/tx.go). As in the core, a COMMIT that fails may have been
    carried out. *)
Definition TxFn {A} (fn : AM A) : AM A := λ w,
  if fault (w_stmt (a_core w)) then
    (Err (Errorf "begin transaction: %w" [] (DbError IOFault)), set_core (bump_stmt (a_core w)) w)
  else
    match fn (atx_begin w) with
    | (Err e, w1) =>
        (Err (if fault (w_stmt (a_core w1))
              then Errorf "rollback failed: %v (original error: %w)" ["connection failure"] e
              else e), set_core (bump_stmt (a_core w1)) w1)
    | (Ok a, w1) =>
        if fault (w_stmt (a_core w1)) then
          (Err (Errorf "commit transaction: %w" [] (DbError IOFault)),
           if lost (w_stmt (a_core w1)) then atx_commit w1 else set_core (bump_stmt (a_core w1)) w1)
        else (Ok a, atx_commit w1)
    end.

(** [tracing.Start] (internal/tracing/tracing.go): a span under that of [ctx],
    or a new trace. *)
Definition Start (ctx : AuditCtx) : AM AuditCtx :=
  n ← agets a_spans;
  _ ← amodify bump_spans;
  let traceID := if decide (ctx_traceID ctx = "") then otel_trace n else ctx_traceID ctx in
  mret (if decide (traceID = "" ∨ otel_span n = "")
        then mkAuditCtx "" "" (ctx_spanID ctx) (ctx_source ctx)
        else mkAuditCtx traceID (otel_span n) (ctx_spanID ctx) (ctx_source ctx)).

(** One HTTP request to the AMIE API. *)
Definition http_do : AM (option HttpResponse) :=
  n ← agets a_http; _ ← amodify bump_http; mret (http n).
End primitives.

(** [context.Background()]. *)
Definition Background : AuditCtx := mkAuditCtx "" "" "" "".

(** The answer of some COMMIT is lost. *)
Definition some_lost `{Env} : Prop := ∃ n, fault n = true ∧ lost n = true.
Lemma no_some_lost `{Env} `{!NoLost} : ¬ some_lost.
Proof. intros (n & Hf & Hl). by rewrite (no_lost n Hf) in Hl. Qed.

(** ** Structural rules

    A run of [m] moves the state along [R]. *)

Class ARel {A} (R : relation AWorld) (m : AM A) : Prop := a_rel w : R w (m w).2.

Section rules.
Context `{E : Env} `{AE : AmieEnv} (R : relation AWorld) `{!PreOrder R} {A B : Type}.
Implicit Types (m : AM A) (k : A → AM B).

Lemma ARel_ret (a : A) : ARel R (mret a : AM A).
Proof. intros w. simpl. reflexivity. Qed.
Lemma ARel_throw e : ARel R (athrow e : AM A).
Proof. intros w. simpl. reflexivity. Qed.
Lemma ARel_pure (r : Res A) : ARel R (pure r).
Proof. intros w. simpl. reflexivity. Qed.
Lemma ARel_gets (f : AWorld → A) : ARel R (agets f).
Proof. intros w. simpl. reflexivity. Qed.
Lemma ARel_bind m k : ARel R m → (∀ a, ARel R (k a)) → ARel R (m ≫= k).
Proof.
  intros Hm Hk w. specialize (Hm w). unfold mbind, AM_bind.
  destruct (m w) as [[a|e] w1]; simpl in *; [|done]. etrans; [exact Hm|apply Hk].
Qed.
Lemma ARel_wrapf f args m : ARel R m → ARel R (awrapf f args m).
Proof. intros Hm w. specialize (Hm w). unfold awrapf. destruct (m w) as [[] ?]; exact Hm. Qed.
Lemma ARel_catch m : ARel R m → ARel R (acatch m).
Proof. intros Hm w. specialize (Hm w). unfold acatch. destruct (m w); exact Hm. Qed.
Lemma ARel_each (f : A → AM unit) xs : (∀ x, ARel R (f x)) → ARel R (aeach f xs).
Proof.
  intros Hf. induction xs as [|x xs IH]; simpl; [intros w; simpl; reflexivity|]. intros w.
  specialize (Hf x w). unfold mbind, AM_bind. destruct (f x w) as [[?|?] w1]; simpl in *; [|done].
  etrans; [exact Hf|apply IH].
Qed.
Lemma ARel_count (f : A → AM bool) xs : (∀ x, ARel R (f x)) → ARel R (acount f xs).
Proof.
  intros Hf. induction xs as [|x xs IH]; simpl; [intros w; simpl; reflexivity|]. intros w.
  specialize (Hf x w). unfold mbind, AM_bind. destruct (f x w) as [[?|?] w1]; simpl in *; [|done].
  specialize (IH w1). destruct (acount f xs w1) as [[?|?] ?]; simpl in *; by etrans.
Qed.
Lemma ARel_gather (f : A → AM (list B)) xs : (∀ x, ARel R (f x)) → ARel R (agather f xs).
Proof.
  intros Hf. induction xs as [|x xs IH]; simpl; [intros w; simpl; reflexivity|]. intros w.
  specialize (Hf x w). unfold mbind, AM_bind. destruct (f x w) as [[?|?] w1]; simpl in *; [|done].
  specialize (IH w1). destruct (agather f xs w1) as [[?|?] ?]; simpl in *; by etrans.
Qed.
Lemma ARel_mono (R' : relation AWorld) m : (∀ w w', R w w' → R' w w') → ARel R m → ARel R' m.
Proof. intros HR Hm w. apply HR, Hm. Qed.
End rules.

(** ** Running a method *)

Section run.
Context `{E : Env} `{AE : AmieEnv} {A B : Type}.
Implicit Types (m : AM A) (k : A → AM B) (w : AWorld).

Lemma abind_Ok m k w b w' :
  (m ≫= k) w = (Ok b, w') → ∃ a w1, m w = (Ok a, w1) ∧ k a w1 = (Ok b, w').
Proof. unfold mbind, AM_bind. destruct (m w) as [[a|e] w1]; [eauto|done]. Qed.
Lemma abind_run m k w a w1 : m w = (Ok a, w1) → (m ≫= k) w = k a w1.
Proof. unfold mbind, AM_bind. by intros ->. Qed.
Lemma abind_run_Err m k w e w1 : m w = (Err e, w1) → (m ≫= k) w = (Err e, w1).
Proof. unfold mbind, AM_bind. by intros ->. Qed.
Lemma abind_assoc {C} m k (k' : B → AM C) w :
  ((m ≫= k) ≫= k') w = (m ≫= λ a, k a ≫= k') w.
Proof. unfold mbind, AM_bind. by destruct (m w) as [[a|e] w1]. Qed.
Lemma aret_Ok (a b : A) w w' : (mret a : AM A) w = (Ok b, w') → a = b ∧ w' = w.
Proof. by intros [= -> ->]. Qed.
Lemma athrow_Ok e (a : A) w w' : (athrow e : AM A) w = (Ok a, w') → False.
Proof. done. Qed.
Lemma pure_Ok (r : Res A) a w w' : pure r w = (Ok a, w') → r = Ok a ∧ w' = w.
Proof. by intros [= -> ->]. Qed.
Lemma awrap_Ok f args m w a w' : awrapf f args m w = (Ok a, w') → m w = (Ok a, w').
Proof. unfold awrapf. destruct (m w) as [[] ?]; [|done]. by intros [= -> ->]. Qed.
Lemma awrap_run f args m w a w' : m w = (Ok a, w') → awrapf f args m w = (Ok a, w').
Proof. unfold awrapf. by intros ->. Qed.
Lemma awrap_run_Err f args m w e w' :
  m w = (Err e, w') → awrapf f args m w = (Err (Errorf f args e), w').
Proof. unfold awrapf. by intros ->. Qed.
Lemma acatch_Ok m w r w' : acatch m w = (Ok r, w') → m w = (r, w').
Proof. unfold acatch. destruct (m w). by intros [= -> ->]. Qed.
Lemma acatch_run m w r w' : m w = (r, w') → acatch m w = (Ok r, w').
Proof. unfold acatch. by intros ->. Qed.
Lemma agets_Ok (f : AWorld → A) w a w' : agets f w = (Ok a, w') → a = f w ∧ w' = w.
Proof. by intros [= -> ->]. Qed.
Lemma amodify_Ok f w x w' : amodify f w = (Ok x, w') → w' = f w.
Proof. by intros [= _ ->]. Qed.
Lemma svc_Ok (m : M A) w a w' :
  svc m w = (Ok a, w') → ∃ c, m (a_core w) = (Ok a, c) ∧ w' = set_core c w.
Proof. unfold svc. destruct (m _) as [r c]. intros [= -> <-]. eauto. Qed.
Lemma svc_run (m : M A) w r c : m (a_core w) = (r, c) → svc m w = (r, set_core c w).
Proof. unfold svc. by intros ->. Qed.
Lemma aquery_Ok (f : AmieDB → A) w a w' :
  aquery f w = (Ok a, w') → a = f (a_db w) ∧ w' = set_core (bump_stmt (a_core w)) w.
Proof.
  unfold aquery, mbind, AM_bind, svc, round_trip. destruct (fault _); [done|]. by intros [= -> ->].
Qed.
Lemma aexec_Ok s w x w' :
  aexec s w = (Ok x, w') →
  ∃ d, s (a_tx w) = inr d ∧ w' = set_atx d (set_core (bump_stmt (a_core w)) w).
Proof.
  unfold aexec, mbind, AM_bind, svc, round_trip, apply_astmt. destruct (fault _); [done|]. simpl.
  destruct (s _); [done|]. intros [= _ <-]. eauto.
Qed.
Lemma TxFn_Ok m w a w' :
  TxFn m w = (Ok a, w') → ∃ w1, m (atx_begin w) = (Ok a, w1) ∧ w' = atx_commit w1.
Proof.
  unfold TxFn. destruct (fault _); [done|]. destruct (m _) as [[a'|e] w1]; [|done].
  destruct (fault _); [done|]. intros [= <- <-]. eauto.
Qed.
(** A transaction that fails: its body ran or not, and nothing is committed; or
    it is committed and the answer was lost. *)
Lemma TxFn_Err m w e w' :
  TxFn m w = (Err e, w') →
  w' = set_core (bump_stmt (a_core w)) w ∨
  (∃ r w1, m (atx_begin w) = (r, w1) ∧ w' = set_core (bump_stmt (a_core w1)) w1) ∨
  some_lost ∧ ∃ a w1, m (atx_begin w) = (Ok a, w1) ∧ w' = atx_commit w1.
Proof.
  unfold TxFn. destruct (fault _); [intros [= _ <-]; auto|]. destruct (m _) as [[a'|e'] w1].
  - destruct (fault _) eqn:Hf; [|done]. destruct (lost _) eqn:Hl; intros [= _ <-]; [|right; left; eauto].
    right. right. split; [by eexists|eauto].
  - intros [= _ <-]. right. left. eauto.
Qed.
End run.

Section run_no_faults.
Context `{E : Env} `{AE : AmieEnv} `{!NoFaults} {A : Type}.
Implicit Types (w : AWorld).

Lemma aquery_run (f : AmieDB → A) w :
  aquery f w = (Ok (f (a_db w)), set_core (bump_stmt (a_core w)) w).
Proof. unfold aquery, mbind, AM_bind, svc, round_trip. by rewrite no_faults. Qed.
Lemma aexec_run s w d :
  s (a_tx w) = inr d → aexec s w = (Ok tt, set_atx d (set_core (bump_stmt (a_core w)) w)).
Proof.
  intros Hs. unfold aexec, mbind, AM_bind, svc, round_trip, apply_astmt. rewrite no_faults. simpl.
  by rewrite Hs.
Qed.
Lemma TxFn_run (m : AM A) w a w1 :
  m (atx_begin w) = (Ok a, w1) → TxFn m w = (Ok a, atx_commit w1).
Proof. intros Hm. unfold TxFn. by rewrite no_faults, Hm, no_faults. Qed.
End run_no_faults.

(** [H : m w = (Ok a, w')] into what each step of [m] did. *)
Ltac arun_step H :=
  cbv beta zeta in H;
  lazymatch type of H with
  | (_ ≫= _) _ = (Ok _, _) =>
      let a := fresh "a" in let w := fresh "w" in let H1 := fresh "R" in
      apply abind_Ok in H as (a & w & H1 & H)
  | mret _ _ = (Ok _, _) => apply aret_Ok in H as [? ->]; try subst
  | athrow _ _ = (Ok _, _) => by apply athrow_Ok in H
  | pure _ _ = (Ok _, _) => apply pure_Ok in H as [H ->]
  | awrapf _ _ _ _ = (Ok _, _) => apply awrap_Ok in H
  | acatch _ _ = (Ok _, _) => apply acatch_Ok in H
  | agets _ _ = (Ok _, _) => apply agets_Ok in H as [H ->]
  | amodify _ _ = (Ok _, _) => apply amodify_Ok in H as ->
  | svc _ _ = (Ok _, _) => let c := fresh "c" in apply svc_Ok in H as (c & H & ->)
  | aquery _ _ = (Ok _, _) => apply aquery_Ok in H as [H ->]
  | aexec _ _ = (Ok _, _) => let d := fresh "d" in apply aexec_Ok in H as (d & H & ->)
  | TxFn _ _ = (Ok _, _) => let w := fresh "w" in apply TxFn_Ok in H as (w & H & ->)
  | (if ?b then _ else _) _ = (Ok _, _) => destruct b eqn:?
  | (match ?x with _ => _ end) _ = (Ok _, _) => destruct x eqn:?
  end.
