(* ===== verification/AmieHandlers.v ===== *)
(** * AMIE: packet handlers

    connectors/ACCESS/AMIE-Processor/{handler,service,amieclient}: what each
    type of packet does to the core records, the audit rows it leaves, the
    reply it sends, and the router that picks the handler. A handler gets the
    context of the span that called it, the decoded packet, its row and the id
    of the event; log lines and metrics are left out. The texts of errors of the
    standard library are abbreviated. *)

From stdpp Require Import base gmap sets list strings pretty.
From Stdlib Require Import ZArith Ascii SpecFloat.
From S2P Require Import Prelude GoError Models Schema Events IdentityCache Effects Wire.
From S2P Require Import StoreMembership StoreTrace UserService AuthService ProjectService.
From S2P Require Import AllocationService MembershipService Posix AmieStore AmieEffects.

(** ** handler.go: reading a packet *)

Definition amieIdentitySource : string := "access".

Definition requireText (val fieldName : string) : Res unit :=
  if decide (TrimSpace val = "") then Err (NewError "'%s' must not be empty" [fieldName]) else Ok tt.

Definition getString (m : Obj) (key : string) : string :=
  match obj_get key m with Some (AStr s) => s | _ => "" end.

Definition getBody (packetJSON : Obj) : Res Obj :=
  match obj_get "body" packetJSON with
  | None => Err (NewError "packet missing 'body'" [])
  | Some (AObj body) => Ok body
  | Some _ => Err (NewError "packet 'body' is not an object" [])
  end.

(** [strings.NewReplacer(" ", "", "-", "", "_", "")]. *)
Definition roleNormalizer (s : string) : string :=
  string_filter (λ c, negb (bool_decide (c ∈ [" "%char; "-"%char; "_"%char]))) s.

Definition normalizeRole (raw : string) : string :=
  let r := ToUpper (roleNormalizer raw) in
  if decide (r = "PI") then "PI"
  else if decide (r = "COPI") then "CO_PI"
  else if decide (r = "ALLOCATIONMANAGER") then "ALLOCATION_MANAGER"
  else "USER".

(** The strings of an array; anything else in it is skipped. A nil slice and an
    empty one are not told apart by the callers. *)
Definition strings_at (key : string) (body : Obj) : list string :=
  match obj_get key body with
  | Some (AArr vs) => omap (λ v, match v with AStr s => Some s | _ => None end) vs
  | _ => []
  end.
Definition getResourceList (body : Obj) : list string := strings_at "ResourceList" body.
Definition getDNList (body : Obj) : list string := strings_at "DnList" body.

Definition getInt64 (body : Obj) (key : string) : Res Z :=
  let raw := getString body key in
  if decide (raw = "") then Err (NewError "'%s' is empty" [key])
  else match ParseInt raw with
       | Some n => Ok n
       | None => Err (Errorf "'%s' is not an integer: %w" [key] (NewError "parsing %q" [raw]))
       end.

(** *** [time.Parse("2006-01-02", s)] *)

Definition leap (y : Z) : bool :=
  ((y mod 4 =? 0) && (negb (y mod 100 =? 0) || (y mod 400 =? 0)))%Z.
Definition month_days (y : Z) : list Z :=
  [31; if leap y then 29 else 28; 31; 30; 31; 30; 31; 31; 30; 31; 30; 31]%Z.
(** Days from 1 January of year 1. *)
Definition day_number (y m d : Z) : Z :=
  let p := (y - 1)%Z in
  (365 * p + p / 4 - p / 100 + p / 400 + foldr Z.add 0 (take (Z.to_nat (m - 1)) (month_days y)) + (d - 1))%Z.

Definition parse_date (s : string) : option Time :=
  match s with
  | String y1 (String y2 (String y3 (String y4 (String s1 (String m1 (String m2 (String s2
      (String d1 (String d2 EmptyString))))))))) =>
      y ← unsigned (String y1 (String y2 (String y3 (String y4 ""))));
      m ← unsigned (String m1 (String m2 ""));
      d ← unsigned (String d1 (String d2 ""));
      if decide (s1 = "-"%char ∧ s2 = "-"%char ∧ (1 <= m <= 12)%Z ∧ (1 <= d)%Z ∧
                 (d <= nth (Z.to_nat (m - 1)) (month_days y) 0)%Z)
      then Some (day_number y m d * 86400 * 1000000)%Z
      else None
  | _ => None
  end.

Definition getDate (body : Obj) (key : string) : Res Time :=
  let raw := getString body key in
  if decide (raw = "") then Err (NewError "'%s' is empty" [key])
  else match parse_date raw with
       | Some t => Ok t
       | None => Err (Errorf "'%s' is not a YYYY-MM-DD date: %w" [key] (NewError "parsing time %q" [raw]))
       end.

(** ** Replies *)

Definition float_one : float64 := S754_finite false 4503599627370496 (-52).

(** A [[]string]: a nil slice is written as null. *)
Definition strings_json (l : list string) : Any :=
  match l with [] => ANull | _ => AArr (AStr <$> l) end.

Definition reply_json (type : string) (body : Obj) : Any :=
  AObj [("type", AStr type); ("body", AObj body)].

Definition transaction_complete (message : string) : Any :=
  reply_json "inform_transaction_complete"
    [("StatusCode", AStr "Success"); ("DetailCode", ANum float_one); ("Message", AStr message)].

Section handlers.
Context `{E : Env} `{AE : AmieEnv}.

(** amieclient/client.go. AMIE may have taken a reply whose response does not say
    so. *)
Definition ReplyToPacket (packetRecID : Z) (reply : Any) : AM unit :=
  n ← agets a_http;
  resp ← http_do;
  let failed err :=
    _ ← (if http_taken n then amodify (add_reply (packetRecID, reply)) else mret tt); athrow err in
  match resp with
  | None => failed (Errorf "send reply request: %w" [] (NewError "no response" []))
  | Some r =>
      if decide (hr_status r < 200 ∨ 300 <= hr_status r)%Z
      then failed (NewError "AMIE reply failed with status %d: %s" [pretty (hr_status r); hr_text r])
      else amodify (add_reply (packetRecID, reply))
  end.

(** ** service/audit_service.go *)

Definition auditSource : string := "amie".

Definition ptrOrNil (s : string) : option string := if decide (s = "") then None else Some s.

Definition Log (ctx : AuditCtx) (packetID eventID action entityType entityID summary : string) : AM unit :=
  if decide (packetID = "") then athrow (NewError "audit_service: packet_id is required" [])
  else
    auditEventID ← svc newID;
    now ← svc nowUTC;
    let '(traceID, spanID, parentSpanID) := PopulateAuditIDs ctx "" "" "" in
    _ ← awrapf "audit_service: saving audit_events row for packet %s: %w" [packetID]
          (aexec_audit (mkAuditEvent auditEventID action now entityID entityType summary auditSource
                          traceID spanID parentSpanID));
    audits ← agets audits_seen;
    awrapf "audit_service: saving amie_audit_extras for packet %s: %w" [packetID]
      (aexec (pgAuditExtrasStore_Save audits (mkAmieAuditExtras auditEventID packetID (ptrOrNil eventID)))).

(** The end of every handler: the reply, then its audit row. *)
Definition send_reply (name : string) (ctx : AuditCtx) (packet : Packet) (eventID : string) (reply : Any) :
    AM unit :=
  _ ← awrap (name +:+ ": sending reply: %w") (ReplyToPacket (Packet_AmieID packet) reply);
  awrap (name +:+ ": audit REPLY_SENT: %w")
    (Log ctx (Packet_ID packet) eventID AuditReplySent "reply" "" "").

(** ** handler.go: lookups in the core *)

(** [if x, err := m; err == nil {...} else if !errors.Is(err, ErrNotFound) { return err }]. *)
Definition find {A} (m : M A) : AM (option A) :=
  r ← acatch (svc m);
  match r with
  | Ok a => mret (Some a)
  | Err e => if errors_Is e SNotFound then mret None else athrow e
  end.

Definition ensureUserIdentity (userID globalID : string) : AM unit :=
  existing ← find (GetUserIdentityBySourceAndExternalID amieIdentitySource globalID);
  match existing with
  | Some i =>
      if decide (UserIdentity_UserID i = userID) then mret tt
      else athrow (NewError "user identity for %s=%s is bound to user %s (not %s)"
                     [amieIdentitySource; globalID; UserIdentity_UserID i; userID])
  | None =>
      _ ← awrap "create user identity: %w"
            (svc (CreateUserIdentity (Some (mkUserIdentity "" userID amieIdentitySource globalID "" "" "" zero_time))));
      mret tt
  end.

Definition flipUserMemberships (projectID userID status : string) : AM (list ComputeAllocationMembership) :=
  project ← awrap "lookup project: %w" (find (GetProject projectID));
  match project with
  | None => mret []
  | Some p =>
      allocations ← awrap "list allocations: %w" (svc (ListComputeAllocationsByProject (Project_ID p)));
      agather (λ a,
        members ← awrapf "list memberships for allocation %s: %w" [ComputeAllocation_ID a]
                    (svc (ListMembersForAllocation (ComputeAllocation_ID a)));
        agather (λ m,
          if decide (Membership_UserID (MWU_Membership m) ≠ userID) then mret []
          else
            flipped ← awrapf "update membership %s: %w" [Membership_ID (MWU_Membership m)]
                        (svc (UpdateMembershipStatus (Membership_ID (MWU_Membership m)) status));
            mret [flipped]) members) allocations
  end.

Definition ensureOrganization (code name : string) : AM Organization :=
  if decide (code = "") then athrow (NewError "organization code is empty" [])
  else
    org ← find (GetOrganizationByOriginatedID code);
    match org with
    | Some o => mret o
    | None => svc (CreateOrganization (Some (mkOrganization "" code (or_blank name code))))
    end.

(** ** posix_alloc.go *)

(** [_, _ = svc.CreateAuditEvent(...)]: its result is dropped. *)
Definition posix_audit (ctx : AuditCtx) (eventType userID details : string) : AM unit :=
  _ ← acatch (svc (CreateAuditEvent ctx
        (Some (mkAuditEvent "" eventType zero_time userID "user" details "" "" "" ""))));
  mret tt.

(** The loop over the candidates; [None] when all are taken. *)
Fixpoint tryCandidates (clusterID userID base : string) (ns : list nat) : AM (option ComputeClusterUser) :=
  match ns with
  | [] => mret None
  | n :: ns' =>
      r ← acatch (svc (CreateComputeClusterUser
            (Some (mkComputeClusterUser "" clusterID userID (candidate base n) None))));
      match r with
      | Ok ccu => mret (Some ccu)
      | Err e => if errors_Is e SAlreadyExists then tryCandidates clusterID userID base ns' else athrow e
      end
  end.

Definition allocateAndCreateClusterUser (ctx : AuditCtx) (clusterID userID : string) : AM ComputeClusterUser :=
  user ← awrapf "lookup user %q: %w" [userID] (svc (GetUser userID));
  match BuildBase user (Prefix POSIX_USERNAME_PREFIX) with
  | None => athrow (NewError "panic: slice bounds out of range" [])
  | Some (Err e) => _ ← posix_audit ctx "PosixUsernameUnbuildable" userID (Error e); athrow e
  | Some (Ok (base, truncated)) =>
      _ ← (if truncated : bool then posix_audit ctx "PosixUsernameTruncated" userID base else mret tt);
      r ← tryCandidates clusterID userID base (seq 0 MaxCollisionSuffix);
      match r with
      | Some ccu => mret ccu
      | None =>
          _ ← posix_audit ctx "PosixUsernameAllocatorExhausted" userID base;
          athrow (NewError "posix username allocator exhausted for base %q" [base])
      end
  end.

(** [ensurePIClusterUser] and [ensureComputeClusterUser]. *)
Definition ensureComputeClusterUser (ctx : AuditCtx) (clusterID userID : string) : AM ComputeClusterUser :=
  existing ← awrap "list compute cluster users: %w" (svc (ListComputeClusterUsersByUser userID));
  match list_find (λ a, ComputeClusterUser_ComputeClusterID a = clusterID) existing with
  | Some (_, a) => mret a
  | None => allocateAndCreateClusterUser ctx clusterID userID
  end.

(** [ensurePIUser] and [ensureUser]; [pre] is "Pi" or "User", [who] is " PI" or
    " user", as the field names and the messages have it. *)
Definition ensureUser (pre orgMsg userMsg identMsg : string) (body : Obj) (globalID : string) : AM User :=
  found ← find (GetUserByUserIdentity amieIdentitySource globalID);
  match found with
  | Some u => mret u
  | None =>
      org ← awrap orgMsg (ensureOrganization (getString body (pre +:+ "OrgCode"))
                                             (getString body (pre +:+ "Organization")));
      let email := getString body (pre +:+ "Email") in
      user ← awrap userMsg (svc (CreateUser (Some (mkUser "" (Organization_ID org)
               (getString body (pre +:+ "FirstName")) (getString body (pre +:+ "LastName")) "" email
               UserPending ""))));
      _ ← awrap identMsg (svc (CreateUserIdentity (Some (mkUserIdentity "" (User_ID user)
               amieIdentitySource globalID email "" "" zero_time))));
      mret user
  end.

(** ** request_project_create.go *)

Definition ensurePIUser : Obj → string → AM User :=
  ensureUser "Pi" "ensure PI organization: %w" "create PI user: %w" "create PI user identity: %w".

Definition ensureProject (originatedID grantNumber piID : string) : AM Project :=
  p ← find (GetProjectByOriginatedID originatedID);
  match p with
  | Some p => mret p
  | None => svc (CreateProject (Some (mkProject "" originatedID grantNumber amieIdentitySource piID "" zero_time)))
  end.

Definition recordAllocationDiff (body : Obj) (existing : ComputeAllocation) : AM ComputeAllocation :=
  su ← pure (getInt64 body "ServiceUnitsAllocated");
  let diffType := or_blank (ToUpper (TrimSpace (getString body "AllocationType"))) "GRANT" in
  _ ← awrap "record allocation diff: %w"
        (svc (CreateComputeAllocationDiff (Some (mkComputeAllocationDiff "" (ComputeAllocation_ID existing)
           diffType su ACTIVE zero_time (Sprintf "AMIE %s of %d SUs" [diffType; pretty su] "")))));
  mret existing.

Definition ensureAllocation (clusterID : string) (body : Obj) (projectID grantNumber : string) :
    AM ComputeAllocation :=
  existing ← awrap "list allocations: %w" (svc (ListComputeAllocationsByProject projectID));
  match existing with
  | a :: _ => recordAllocationDiff body a
  | [] =>
      su ← pure (getInt64 body "ServiceUnitsAllocated");
      start ← pure (getDate body "StartDate");
      finish ← pure (getDate body "EndDate");
      svc (CreateComputeAllocation
        (Some (mkComputeAllocation "" projectID grantNumber "" clusterID su start finish)))
  end.

Definition ensureResourceMappings (clusterID : string) (ctx : AuditCtx) (body : Obj)
    (allocation : ComputeAllocation) (packet : Packet) (eventID : string) : AM unit :=
  aeach (λ name,
    resource ← awrapf "lookup resource %q: %w" [name]
                 (find (GetComputeAllocationResourceByNameAndCluster name clusterID));
    match resource with
    | None => mret tt
    | Some r =>
        m ← acatch (svc (AttachResourceToAllocation (ComputeAllocation_ID allocation) (Resource_ID r) 0 0));
        match m with
        | Ok mapping =>
            awrap "audit ATTACH_RESOURCE: %w"
              (Log ctx (Packet_ID packet) eventID AuditAttachResource "compute_allocation_resource_mapping"
                 (Mapping_ID mapping) name)
        | Err e => if errors_Is e SAlreadyExists then mret tt
                   else athrow (Errorf "attach resource %q: %w" [name] e)
        end
    end) (getResourceList body).

(** The membership of a user among those of an allocation. *)
Definition member_of (userID : string) (l : list MembershipWithUser) : option ComputeAllocationMembership :=
  (λ x, MWU_Membership x.2) <$> list_find (λ m, Membership_UserID (MWU_Membership m) = userID) l.

Definition ensurePIMembership (allocation : ComputeAllocation) (piID : string) :
    AM (ComputeAllocationMembership * bool) :=
  existing ← awrap "list memberships: %w" (svc (ListMembersForAllocation (ComputeAllocation_ID allocation)));
  match member_of piID existing with
  | Some m => mret (m, false)
  | None =>
      created ← svc (CreateComputeAllocationMembership (Some (mkComputeAllocationMembership ""
                  (ComputeAllocation_ID allocation) piID (ComputeAllocation_StartTime allocation)
                  (ComputeAllocation_EndTime allocation) ACTIVE)));
      mret (created, true)
  end.

Definition RequestProjectCreateHandler_Handle (clusterID : string) (ctx : AuditCtx) (packetJSON : Obj)
    (packet : Packet) (eventID : string) : AM unit :=
  ctx ← Start ctx;
  body ← pure (getBody packetJSON);
  let grantNumber := getString body "GrantNumber" in
  _ ← pure (requireText grantNumber "GrantNumber");
  let piGlobalID := getString body "PiGlobalID" in
  _ ← pure (requireText piGlobalID "PiGlobalID");
  if decide (clusterID = "") then athrow (NewError "AMIE_CLUSTER_ID not configured" [])
  else
    let audit := Log ctx (Packet_ID packet) eventID in
    pi ← awrap "request_project_create: ensure PI: %w" (ensurePIUser body piGlobalID);
    _ ← awrap "request_project_create: audit CREATE_PERSON: %w"
          (audit AuditCreatePerson "user" (User_ID pi) "PI");
    piClusterUser ← awrap "request_project_create: ensure PI cluster user: %w"
                      (ensureComputeClusterUser ctx clusterID (User_ID pi));
    _ ← awrap "request_project_create: audit CREATE_ACCOUNT (PI): %w"
          (audit AuditCreateAccount "compute_cluster_user" (ComputeClusterUser_ID piClusterUser)
             (ComputeClusterUser_LocalUsername piClusterUser));
    project ← awrap "request_project_create: ensure project: %w"
                (ensureProject grantNumber grantNumber (User_ID pi));
    _ ← awrap "request_project_create: audit CREATE_PROJECT: %w"
          (audit AuditCreateProject "project" (Project_ID project) "");
    allocation ← awrap "request_project_create: ensure allocation: %w"
                   (ensureAllocation clusterID body (Project_ID project) grantNumber);
    _ ← awrap "request_project_create: audit CREATE_ALLOCATION: %w"
          (audit AuditCreateAllocation "compute_allocation" (ComputeAllocation_ID allocation) "");
    _ ← awrap "request_project_create: ensure resource mappings: %w"
          (ensureResourceMappings clusterID ctx body allocation packet eventID);
    mc ← awrap "request_project_create: ensure PI membership: %w"
           (ensurePIMembership allocation (User_ID pi));
    let '(piMembership, created) := (mc : ComputeAllocationMembership * bool) in
    _ ← awrap "request_project_create: ensure PI project membership: %w"
          (svc (EnsureProjectMembership (Project_ID project) (User_ID pi) "PI"));
    _ ← (if created : bool then
           awrap "request_project_create: audit CREATE_MEMBERSHIP (PI): %w"
             (audit AuditCreateMembership "compute_allocation_membership" (Membership_ID piMembership) "PI")
         else mret tt);
    send_reply "request_project_create" ctx packet eventID
      (reply_json "notify_project_create"
         [("ProjectID", AStr (Project_ID project)); ("GrantNumber", AStr grantNumber);
          ("PiPersonID", AStr (User_ID pi));
          ("PiRemoteSiteLogin", AStr (ComputeClusterUser_LocalUsername piClusterUser));
          ("ResourceList", strings_json (getResourceList body))]).

(** ** request_account_create.go *)

Definition ensureAccountUser : Obj → string → AM User :=
  ensureUser "User" "ensure user organization: %w" "create user: %w" "create user identity: %w".

Definition ensureMembership (allocationID userID : string) : AM ComputeAllocationMembership :=
  existing ← awrap "list memberships: %w" (svc (ListMembersForAllocation allocationID));
  match member_of userID existing with
  | Some m => mret m
  | None => svc (CreateComputeAllocationMembership (Some (mkComputeAllocationMembership "" allocationID userID
                   zero_time zero_time "")))
  end.

Definition normalizeAMIERole (amieRole : string) : string :=
  if decide (amieRole ∈ ["PI"; "CO_PI"; "ALLOCATION_MANAGER"; "MEMBER"]) then amieRole else "MEMBER".

Definition RequestAccountCreateHandler_Handle (clusterID : string) (ctx : AuditCtx) (packetJSON : Obj)
    (packet : Packet) (eventID : string) : AM unit :=
  ctx ← Start ctx;
  body ← pure (getBody packetJSON);
  let projectID := getString body "ProjectID" in
  _ ← pure (requireText projectID "ProjectID");
  _ ← pure (requireText (getString body "GrantNumber") "GrantNumber");
  let userGlobalID := getString body "UserGlobalID" in
  _ ← pure (requireText userGlobalID "UserGlobalID");
  if decide (clusterID = "") then athrow (NewError "AMIE_CLUSTER_ID not configured" [])
  else
    let audit := Log ctx (Packet_ID packet) eventID in
    user ← awrap "request_account_create: ensure user: %w" (ensureAccountUser body userGlobalID);
    _ ← awrap "request_account_create: audit CREATE_PERSON: %w"
          (audit AuditCreatePerson "user" (User_ID user) "");
    project ← awrapf "request_account_create: project %q not found (request_project_create must precede this packet): %w"
                [projectID] (svc (GetProject projectID));
    allocations ← awrap "request_account_create: list allocations: %w"
                    (svc (ListComputeAllocationsByProject (Project_ID project)));
    match allocations with
    | [] => athrow (NewError "request_account_create: project %q has no ComputeAllocation; request_project_create did not provision one" [projectID])
    | allocation :: _ =>
        account ← awrap "request_account_create: ensure compute cluster user: %w"
                    (ensureComputeClusterUser ctx clusterID (User_ID user));
        _ ← awrap "request_account_create: audit CREATE_ACCOUNT: %w"
              (audit AuditCreateAccount "compute_cluster_user" (ComputeClusterUser_ID account)
                 (ComputeClusterUser_LocalUsername account));
        let role := normalizeAMIERole (normalizeRole (getString body "UserRole")) in
        membership ← awrap "request_account_create: ensure membership: %w"
                       (ensureMembership (ComputeAllocation_ID allocation) (User_ID user));
        _ ← awrap "request_account_create: ensure project membership: %w"
              (svc (EnsureProjectMembership (Project_ID project) (User_ID user) role));
        _ ← awrap "request_account_create: audit CREATE_MEMBERSHIP: %w"
              (audit AuditCreateMembership "compute_allocation_membership" (Membership_ID membership)
                 (Sprintf "allocation=%s user=%s role=%s"
                    [ComputeAllocation_ID allocation; User_ID user; role] ""));
        let orgCode := getString body "UserOrgCode" in
        send_reply "request_account_create" ctx packet eventID
          (reply_json "notify_account_create"
             ([("ProjectID", AStr projectID); ("GrantNumber", AStr (getString body "GrantNumber"));
               ("UserPersonID", AStr (User_ID user));
               ("UserRemoteSiteLogin", AStr (ComputeClusterUser_LocalUsername account));
               ("ResourceList", strings_json (getResourceList body))] ++
              (if decide (orgCode = "") then [] else [("UserOrgCode", AStr orgCode)])))
    end.

(** ** request_project_inactivate.go, request_project_reactivate.go *)

Definition describeStatusChange (primary comment : string) : string :=
  if decide (comment = "") then primary else primary +:+ " (" +:+ comment +:+ ")".

Definition with_allocation_status (s : string) (a : ComputeAllocation) : ComputeAllocation :=
  mkComputeAllocation (ComputeAllocation_ID a) (ComputeAllocation_ProjectID a) (ComputeAllocation_Name a) s
    (ComputeAllocation_ComputeClusterID a) (ComputeAllocation_InitialSUAmount a)
    (ComputeAllocation_StartTime a) (ComputeAllocation_EndTime a).

(** What both loops do to an allocation before its members. *)
Definition setAllocationStatus (verb noun status description : string) (a : ComputeAllocation) : AM unit :=
  _ ← awrapf (verb +:+ " allocation %s: %w") [ComputeAllocation_ID a]
        (svc (UpdateComputeAllocation (Some (with_allocation_status status a))));
  _ ← awrapf ("record " +:+ noun +:+ " diff for %s: %w") [ComputeAllocation_ID a]
        (svc (CreateComputeAllocationDiff (Some (mkComputeAllocationDiff "" (ComputeAllocation_ID a)
           "ALLOCATION_STATUS_CHANGE" 0 status zero_time description))));
  mret tt.

Definition deactivateAllocations (ctx : AuditCtx) (packet : Packet) (eventID projectID comment : string) : AM unit :=
  allocations ← awrap "list allocations: %w" (svc (ListComputeAllocationsByProject projectID));
  aeach (λ a,
    _ ← setAllocationStatus "inactivate" "inactivate" INACTIVE
          (describeStatusChange "Inactivated by AMIE request_project_inactivate" comment) a;
    members ← awrapf "list memberships for allocation %s: %w" [ComputeAllocation_ID a]
                (svc (ListMembersForAllocation (ComputeAllocation_ID a)));
    aeach (λ m,
      let m := MWU_Membership m in
      _ ← awrapf "inactivate membership %s: %w" [Membership_ID m]
            (svc (UpdateMembershipStatus (Membership_ID m) INACTIVE));
      awrapf "audit INACTIVATE_MEMBERSHIP for %s: %w" [Membership_ID m]
        (Log ctx (Packet_ID packet) eventID AuditInactivateMembership "compute_allocation_membership"
           (Membership_ID m)
           (Sprintf "user=%s allocation=%s" [Membership_UserID m; ComputeAllocation_ID a] ""))) members)
    allocations.

Definition reactivateAllocationsAndPI (ctx : AuditCtx) (packet : Packet) (eventID : string) (project : Project) :
    AM unit :=
  allocations ← awrap "list allocations: %w" (svc (ListComputeAllocationsByProject (Project_ID project)));
  aeach (λ a,
    _ ← setAllocationStatus "reactivate" "reactivate" ACTIVE "Reactivated by AMIE request_project_reactivate" a;
    if decide (Project_ProjectPIID project = "") then mret tt
    else
      members ← awrapf "list memberships for allocation %s: %w" [ComputeAllocation_ID a]
                  (svc (ListMembersForAllocation (ComputeAllocation_ID a)));
      aeach (λ m,
        let m := MWU_Membership m in
        if decide (Membership_UserID m ≠ Project_ProjectPIID project) then mret tt
        else
          _ ← awrapf "reactivate PI membership %s: %w" [Membership_ID m]
                (svc (UpdateMembershipStatus (Membership_ID m) ACTIVE));
          awrapf "audit REACTIVATE_MEMBERSHIP for %s: %w" [Membership_ID m]
            (Log ctx (Packet_ID packet) eventID AuditReactivateMembership "compute_allocation_membership"
               (Membership_ID m)
               (Sprintf "PI user=%s allocation=%s" [Membership_UserID m; ComputeAllocation_ID a] ""))) members)
    allocations.

Definition RequestProjectInactivateHandler_Handle (ctx : AuditCtx) (packetJSON : Obj) (packet : Packet)
    (eventID : string) : AM unit :=
  ctx ← Start ctx;
  body ← pure (getBody packetJSON);
  let projectID := getString body "ProjectID" in
  _ ← pure (requireText projectID "ProjectID");
  let reply := send_reply "request_project_inactivate" ctx packet eventID
                 (reply_json "notify_project_inactivate" [("ProjectID", AStr projectID)]) in
  project ← awrap "request_project_inactivate: lookup project: %w" (find (GetProject projectID));
  match project with
  | None => reply
  | Some p =>
      _ ← awrap "request_project_inactivate: update project status: %w"
            (svc (UpdateProjectStatus (Project_ID p) ProjectInactive));
      _ ← awrap "request_project_inactivate: audit INACTIVATE_PROJECT: %w"
            (Log ctx (Packet_ID packet) eventID AuditInactivateProject "project" (Project_ID p) "");
      _ ← deactivateAllocations ctx packet eventID (Project_ID p) (getString body "Comment");
      reply
  end.

Definition RequestProjectReactivateHandler_Handle (ctx : AuditCtx) (packetJSON : Obj) (packet : Packet)
    (eventID : string) : AM unit :=
  ctx ← Start ctx;
  body ← pure (getBody packetJSON);
  let projectID := getString body "ProjectID" in
  _ ← pure (requireText projectID "ProjectID");
  let reply := send_reply "request_project_reactivate" ctx packet eventID
                 (reply_json "notify_project_reactivate" [("ProjectID", AStr projectID)]) in
  project ← awrap "request_project_reactivate: lookup project: %w" (find (GetProject projectID));
  match project with
  | None => reply
  | Some p =>
      _ ← awrap "request_project_reactivate: update project status: %w"
            (svc (UpdateProjectStatus (Project_ID p) ProjectActive));
      _ ← awrap "request_project_reactivate: audit REACTIVATE_PROJECT: %w"
            (Log ctx (Packet_ID packet) eventID AuditReactivateProject "project" (Project_ID p) "");
      _ ← reactivateAllocationsAndPI ctx packet eventID p;
      reply
  end.
End handlers.
