(* ===== verification/AmieDispatch.v ===== *)
(** * AMIE: packet handlers, continued, and the router

    connectors/ACCESS/AMIE-Processor/handler: the account, person and data
    packets, the transaction notice, the handler of unknown types, and
    router.go. *)

From stdpp Require Import base gmap sets list strings pretty.
From Stdlib Require Import ZArith.
From S2P Require Import Prelude GoError Models Schema Events IdentityCache Effects Wire.
From S2P Require Import StoreMembership UserService AuthService ProjectService AllocationService.
From S2P Require Import MembershipService Posix AmieStore AmieEffects AmieHandlers.

Section dispatch.
Context `{E : Env} `{AE : AmieEnv}.

(** ** request_account_inactivate.go, request_account_reactivate.go *)

(** The two handlers differ in the status, the names and the audit action. *)
Definition account_status_handler (name notify status action auditMsg : string) (ctx : AuditCtx)
    (packetJSON : Obj) (packet : Packet) (eventID : string) : AM unit :=
  ctx ← Start ctx;
  body ← pure (getBody packetJSON);
  let projectID := getString body "ProjectID" in
  _ ← pure (requireText projectID "ProjectID");
  let personID := getString body "PersonID" in
  _ ← pure (requireText personID "PersonID");
  flipped ← awrap (name +:+ ": flip memberships: %w") (flipUserMemberships projectID personID status);
  _ ← aeach (λ m,
        awrap (name +:+ auditMsg)
          (Log ctx (Packet_ID packet) eventID action "compute_allocation_membership" (Membership_ID m)
             (Sprintf "user=%s allocation=%s" [Membership_UserID m; Membership_ComputeAllocationID m] "")))
        flipped;
  send_reply name ctx packet eventID
    (reply_json notify [("ProjectID", AStr projectID); ("PersonID", AStr personID)]).

Definition RequestAccountInactivateHandler_Handle : AuditCtx → Obj → Packet → string → AM unit :=
  account_status_handler "request_account_inactivate" "notify_account_inactivate" INACTIVE
    AuditInactivateMembership ": audit INACTIVATE_MEMBERSHIP: %w".

Definition RequestAccountReactivateHandler_Handle : AuditCtx → Obj → Packet → string → AM unit :=
  account_status_handler "request_account_reactivate" "notify_account_reactivate" ACTIVE
    AuditReactivateMembership ": audit REACTIVATE_MEMBERSHIP: %w".

(** ** request_person_merge.go *)

(** [userDNStore.ReassignUser]. *)
Definition pgUserDNStore_ReassignUser (fromUserID toUserID : string) : AM unit :=
  _ ← aexec (pgUserDNStore_DropDuplicates fromUserID toUserID);
  aexec (pgUserDNStore_MoveUser fromUserID toUserID).

(** [err == nil && retiring.Status == models.UserMerged]. *)
Definition already_merged (r : Res User) : bool :=
  match r with Ok u => bool_decide (User_Status u = UserMerged) | Err _ => false end.

Definition RequestPersonMergeHandler_Handle (ctx : AuditCtx) (packetJSON : Obj) (packet : Packet)
    (eventID : string) : AM unit :=
  ctx ← Start ctx;
  body ← pure (getBody packetJSON);
  let keepGlobalID := getString body "KeepGlobalID" in
  _ ← pure (requireText keepGlobalID "KeepGlobalID");
  let deleteGlobalID := getString body "DeleteGlobalID" in
  _ ← pure (requireText deleteGlobalID "DeleteGlobalID");
  let deletePersonID := getString body "DeletePersonID" in
  _ ← pure (requireText deletePersonID "DeletePersonID");
  let replyAndAudit := send_reply "request_person_merge" ctx packet eventID
                         (transaction_complete "Person merge completed.") in
  if decide (keepGlobalID = deleteGlobalID)
  then athrow (NewError "request_person_merge: keep and delete global IDs are identical" [])
  else
    r ← acatch (svc (GetUser deletePersonID));
    if already_merged r then replyAndAudit
    else
      survivor ← awrap "request_person_merge: resolve surviving user: %w"
                   (svc (GetUserByUserIdentity amieIdentitySource keepGlobalID));
      retiring ← awrap "request_person_merge: resolve retiring user: %w"
                   (svc (GetUserByUserIdentity amieIdentitySource deleteGlobalID));
      _ ← awrap "request_person_merge: list memberships: %w" (svc (ListAllocationsForUser (User_ID retiring)));
      _ ← awrap "request_person_merge: merge: %w" (svc (MergeUsers (User_ID survivor) (User_ID retiring)));
      _ ← awrap "request_person_merge: reassign DNs: %w"
            (pgUserDNStore_ReassignUser (User_ID retiring) (User_ID survivor));
      let reason := or_blank (getString body "MergeReason")
                      (Sprintf "AMIE request_person_merge packet %d" [pretty (Packet_AmieID packet)] "") in
      _ ← awrap "request_person_merge: audit MERGE_PERSONS: %w"
            (Log ctx (Packet_ID packet) eventID AuditMergePersons "user" (User_ID survivor)
               (Sprintf "merged %s into %s: %s" [User_ID retiring; User_ID survivor; reason] ""));
      replyAndAudit.

(** ** request_user_modify.go *)

(** [userDNStore.Add] for a DN without an id. *)
Definition addDN (userID dn : string) : AM unit :=
  id ← svc newID;
  now ← agets a_txnow;
  aexec (pgUserDNStore_Add (mkUserDN id userID dn zero_time) now).

Definition updateUserIdentity (body : Obj) (userID userGlobalID : string) : AM unit :=
  found ← find (GetUserIdentityBySourceAndExternalID amieIdentitySource userGlobalID);
  match found with
  | None => mret tt
  | Some ident =>
      let field tag key := let v := getString body key in if decide (v = "") then [] else [(tag, v)] in
      let metadata := field "organization" "UserOrganization" ++ field "org_code" "UserOrgCode"
                        ++ field "nsf_status_code" "NsfStatusCode" in
      let email := getString body "UserEmail" in
      let emailChanged := bool_decide (email ≠ "" ∧ email ≠ UserIdentity_Email ident) in
      if decide (metadata = [] ∧ emailChanged = false) then mret tt
      else
        _ ← svc (UpdateUserIdentity (Some (mkUserIdentity (UserIdentity_ID ident) userID
              (UserIdentity_Source ident) (UserIdentity_ExternalID ident)
              (if emailChanged : bool then email else UserIdentity_Email ident)
              (UserIdentity_OIDCSub ident)
              (if decide (metadata = []) then UserIdentity_Metadata ident else json_marshal metadata)
              (UserIdentity_CreatedAt ident))));
        mret tt
  end.

(** Deletes the DNs of [existing] that satisfy [P] and counts them. *)
Definition removeDNs (P : string → Prop) `{!∀ dn, Decision (P dn)} (existing : list UserDN) : AM nat :=
  acount (λ x,
    if decide (P (UserDN_DN x)) then
      _ ← awrapf "remove DN %s: %w" [UserDN_DN x] (aexec (pgUserDNStore_DeleteByID (UserDN_ID x)));
      mret true
    else mret false) existing.

Definition deleteDNs (ctx : AuditCtx) (packet : Packet) (eventID : string) (body : Obj) (userID : string) :
    AM unit :=
  let dns := getDNList body in
  if decide (dns = []) then mret tt
  else
    existing ← awrap "list user DNs: %w" (aquery (pgUserDNStore_ListByUser userID));
    removed ← removeDNs (λ dn, dn ∈ dns) existing;
    if decide (0 < removed) then
      awrap "audit PERSIST_DNS: %w"
        (Log ctx (Packet_ID packet) eventID AuditPersistDNs "user" userID
           (Sprintf "DN delete: -%d" [pretty removed] ""))
    else mret tt.

Definition syncDNs (ctx : AuditCtx) (packet : Packet) (eventID : string) (body : Obj) (userID : string) :
    AM unit :=
  let incoming := getDNList body in
  if decide (incoming = []) then mret tt
  else
    let desired : gset string := list_to_set incoming in
    existing ← awrap "list user DNs: %w" (aquery (pgUserDNStore_ListByUser userID));
    removed ← removeDNs (λ dn, dn ∉ desired) existing;
    added ← acount (λ dn,
              if decide (dn ∈ (UserDN_DN <$> existing)) then mret false
              else _ ← awrapf "add DN %s: %w" [dn] (addDN userID dn); mret true) (range_keys desired);
    if decide (0 < added ∨ 0 < removed) then
      awrap "audit PERSIST_DNS: %w"
        (Log ctx (Packet_ID packet) eventID AuditPersistDNs "user" userID
           (Sprintf "DN sync: +%d -%d" [pretty added; pretty removed] ""))
    else mret tt.

Definition applyReplace (ctx : AuditCtx) (packet : Packet) (eventID : string) (body : Obj) (user : User)
    (userGlobalID : string) : AM unit :=
  let user := mkUser (User_ID user) (User_OrganizationID user)
                (or_blank (getString body "UserFirstName") (User_FirstName user))
                (or_blank (getString body "UserLastName") (User_LastName user)) (User_MiddleName user)
                (or_blank (getString body "UserEmail") (User_Email user)) (User_Status user) (User_Type user) in
  _ ← awrap "update user: %w" (svc (UpdateUser (Some user)));
  _ ← awrap "audit UPDATE_PERSON: %w"
        (Log ctx (Packet_ID packet) eventID AuditUpdatePerson "user" (User_ID user) "");
  _ ← awrap "update user identity: %w" (updateUserIdentity body (User_ID user) userGlobalID);
  awrap "sync user DNs: %w" (syncDNs ctx packet eventID body (User_ID user)).

(** [strings.EqualFold] against a lower-case ASCII word without k or s. *)
Definition EqualFold (s word : string) : Prop := lower s = word.
#[export] Instance EqualFold_dec s word : Decision (EqualFold s word).
Proof. unfold EqualFold. apply _. Defined.

Definition RequestUserModifyHandler_Handle (ctx : AuditCtx) (packetJSON : Obj) (packet : Packet)
    (eventID : string) : AM unit :=
  ctx ← Start ctx;
  body ← pure (getBody packetJSON);
  let actionType := getString body "ActionType" in
  _ ← pure (requireText actionType "ActionType");
  let userGlobalID := getString body "UserGlobalID" in
  _ ← pure (requireText userGlobalID "UserGlobalID");
  user ← awrap "request_user_modify: resolve user: %w"
           (find (GetUserByUserIdentity amieIdentitySource userGlobalID));
  _ ← (if decide (EqualFold actionType "replace") then
         match user with
         | Some u => applyReplace ctx packet eventID body u userGlobalID
         | None => mret tt
         end
       else if decide (EqualFold actionType "delete") then
         match user with
         | Some u => deleteDNs ctx packet eventID body (User_ID u)
         | None => mret tt
         end
       else athrow (NewError "unsupported ActionType: %s" [actionType]));
  send_reply "request_user_modify" ctx packet eventID
    (transaction_complete "Transaction completed successfully").

(** ** data_project_create.go, data_account_create.go *)

(** The two handlers differ in their names and messages. *)
Definition data_handler (name resolveMsg summary : string) (ctx : AuditCtx) (packetJSON : Obj)
    (packet : Packet) (eventID : string) : AM unit :=
  ctx ← Start ctx;
  body ← pure (getBody packetJSON);
  _ ← pure (requireText (getString body "ProjectID") "ProjectID");
  let globalID := getString body "GlobalID" in
  _ ← pure (requireText globalID "GlobalID");
  user ← awrap (name +:+ resolveMsg) (find (GetUserByUserIdentity amieIdentitySource globalID));
  _ ← match user with
      | None => mret tt
      | Some u =>
          _ ← awrap (name +:+ ": ensure user identity: %w") (ensureUserIdentity (User_ID u) globalID);
          let dns := getDNList body in
          if decide (dns = []) then mret tt
          else
            _ ← aeach (λ dn, awrapf (name +:+ ": add DN %q: %w") [dn] (addDN (User_ID u) dn)) dns;
            awrap (name +:+ ": audit PERSIST_DNS: %w")
              (Log ctx (Packet_ID packet) eventID AuditPersistDNs "user" (User_ID u)
                 (Sprintf summary [pretty (length dns)] ""))
      end;
  send_reply name ctx packet eventID
    (transaction_complete "Transaction completed successfully by handler.").

Definition DataProjectCreateHandler_Handle : AuditCtx → Obj → Packet → string → AM unit :=
  data_handler "data_project_create" ": resolve PI user: %w" "Persisted %d PI DNs".

Definition DataAccountCreateHandler_Handle : AuditCtx → Obj → Packet → string → AM unit :=
  data_handler "data_account_create" ": resolve user: %w" "Persisted %d DNs".

(** ** inform_transaction_complete.go, noop.go *)

Definition InformTransactionCompleteHandler_Handle (ctx : AuditCtx) (packetJSON : Obj) (packet : Packet)
    (eventID : string) : AM unit :=
  ctx ← Start ctx;
  body ← pure (getBody packetJSON);
  let statusCode := or_blank (getString body "StatusCode") "Unknown" in
  let message := getString body "Message" in
  awrap "inform_transaction_complete: audit TRANSACTION_COMPLETE: %w"
    (Log ctx (Packet_ID packet) eventID AuditTransactionComplete "transaction" ""
       (Sprintf "Transaction complete: statusCode=%s, message=%s" [statusCode; message] "")).

Definition NoOpHandler_Handle (ctx : AuditCtx) (packetJSON : Obj) (packet : Packet) (eventID : string) :
    AM unit :=
  _ ← Start ctx; mret tt.

(** ** router.go *)

Record PacketHandler := mkPacketHandler {
  SupportsType : string;
  Handle : AuditCtx → Obj → Packet → string → AM unit }.

Record Router := mkRouter {
  r_handlers : gmap string PacketHandler;
  r_noop : option PacketHandler }.

(** The body of the loop of [NewRouter]. *)
Definition add_handler (r : Router) (h : PacketHandler) : Router :=
  let t := ToLower (SupportsType h) in
  if decide (t = "*") then mkRouter (r_handlers r) (Some h)
  else mkRouter (<[t := h]> (r_handlers r)) (r_noop r).

Definition NewRouter (handlers : list PacketHandler) : Router :=
  foldl add_handler (mkRouter ∅ None) handlers.

Definition Route (r : Router) (ctx : AuditCtx) (packetJSON : Obj) (packet : Packet) (eventID : string) :
    AM unit :=
  match r_handlers r !! ToLower (Packet_Type packet) with
  | Some h => Handle h ctx packetJSON packet eventID
  | None =>
      match r_noop r with
      | Some h => Handle h ctx packetJSON packet eventID
      | None => athrow (NewError "no handler for packet type: %s" [Packet_Type packet])
      end
  end.

(** The handlers [LoadConnector] (pkg/amie/loader.go) registers. *)
Definition handlers (clusterID : string) : list PacketHandler :=
  [mkPacketHandler "request_project_create" (RequestProjectCreateHandler_Handle clusterID);
   mkPacketHandler "request_account_create" (RequestAccountCreateHandler_Handle clusterID);
   mkPacketHandler "request_project_inactivate" RequestProjectInactivateHandler_Handle;
   mkPacketHandler "request_project_reactivate" RequestProjectReactivateHandler_Handle;
   mkPacketHandler "request_account_inactivate" RequestAccountInactivateHandler_Handle;
   mkPacketHandler "request_account_reactivate" RequestAccountReactivateHandler_Handle;
   mkPacketHandler "request_person_merge" RequestPersonMergeHandler_Handle;
   mkPacketHandler "request_user_modify" RequestUserModifyHandler_Handle;
   mkPacketHandler "data_project_create" DataProjectCreateHandler_Handle;
   mkPacketHandler "data_account_create" DataAccountCreateHandler_Handle;
   mkPacketHandler "inform_transaction_complete" InformTransactionCompleteHandler_Handle;
   mkPacketHandler "*" NoOpHandler_Handle].

Definition dispatcher (clusterID : string) : Router := NewRouter (handlers clusterID).
End dispatch.
