(* ===== verification/AmieWorker.v ===== *)
(** * AMIE: the poller and the processor

    connectors/ACCESS/AMIE-Processor/{amieclient/client.go,worker}: the poller
    stores each packet AMIE lists, once, with an event to process; the processor
    runs the events that are due, each in a transaction, and records a failure
    in another one. [amie_step] is one tick of either loop, or a request to the
    core service between ticks. *)

From stdpp Require Import base gmap sets list strings.
From Stdlib Require Import ZArith SpecFloat.
From S2P Require Import Prelude GoError Models Schema Events IdentityCache Effects Wire.
From S2P Require Import UserService AuthService ServiceApi Posix AmieStore AmieEffects AmieHandlers AmieDispatch.

(** ** amieclient/client.go *)

(** An element of a [[]map[string]any]: null is the nil map. *)
Definition as_map (v : Any) : option Obj :=
  match v with AObj m => Some m | ANull => Some [] | _ => None end.
Definition as_object (v : Any) : option Obj := match v with AObj m => Some m | _ => None end.

(** [body] is [None] when it is not JSON. *)
Definition parsePacketsFromResponse (body : option Any) : list Obj :=
  match body with
  | Some ANull => []
  | Some (AArr vs) => default [] (mapM as_map vs)
  | Some (AObj obj) =>
      match obj_get "result" obj with
      | None => [obj]
      | Some (AArr vs) => omap as_object vs
      | Some (AObj m) => [m]
      | Some _ => [obj]
      end
  | _ => []
  end.

(** ** Machine integers *)

Definition wrap64 (z : Z) : Z := ((z + 2 ^ 63) mod 2 ^ 64 - 2 ^ 63)%Z.

(** [1 << n] on an [int]. *)
Definition shl1 (n : Z) : Z := if decide (n < 64)%Z then wrap64 (Z.shiftl 1 n) else 0%Z.

(** The integral part of a finite float64. *)
Definition float_trunc (s : bool) (m : positive) (e : Z) : Z :=
  let a := if decide (0 <= e)%Z then Z.shiftl (Z.pos m) e else Z.shiftr (Z.pos m) (- e) in
  if s then (- a)%Z else a.

Section worker.
Context `{E : Env} `{AE : AmieEnv}.

(** [int64(x)]. *)
Definition int64_of_float (x : float64) : Z :=
  match x with
  | S754_zero _ => 0%Z
  | S754_finite s m e => let z := float_trunc s m e in if in_int64 z then z else int64_overflow x
  | _ => int64_overflow x
  end.

Definition FetchInProgressPackets : AM (list Obj) :=
  resp ← http_do;
  mret match resp with
       | None => []
       | Some r =>
           if decide (hr_status r < 200 ∨ 300 <= hr_status r)%Z then []
           else parsePacketsFromResponse (hr_json r)
       end.

(** ** worker/poller.go *)

Definition packet_rec_id (packetNode : Obj) : Z :=
  match obj_get "header" packetNode with
  | Some (AObj header) =>
      match obj_get "packet_rec_id" header with
      | Some (ANum x) => int64_of_float x
      | _ => (-1)%Z
      end
  | _ => (-1)%Z
  end.

(** The body of the transaction: the packet and its event. *)
Definition persistPacket (amieID : Z) (packetType : string) (packetNode : Obj) : AM unit :=
  now ← svc nowUTC;
  packetID ← svc newID;
  _ ← awrap "save packet: %w"
        (aexec (pgPacketStore_Save (mkPacket packetID amieID packetType PacketStatusNew (Some packetNode) now
                  None None 0 None)));
  eventID ← svc newID;
  awrap "save processing event: %w"
    (aexec (pgEventStore_Save (mkProcessingEvent eventID packetID EventTypeDecodePacket ProcessingStatusNew 0 now
              None None None None))).

Definition processIndividualPacket (packetNode : Obj) : AM unit :=
  let amieID := packet_rec_id packetNode in
  let packetType := getString packetNode "type" in
  if decide (amieID < 0 ∨ packetType = "")%Z then mret tt
  else
    existing ← acatch (aquery (pgPacketStore_FindByAmieID amieID));
    match existing with
    | Ok None => _ ← acatch (TxFn (persistPacket amieID packetType packetNode)); mret tt
    | _ => mret tt
    end.

Definition pollForPackets : AM unit :=
  packets ← FetchInProgressPackets;
  aeach processIndividualPacket packets.

(** ** worker/processor.go *)

Definition MaxAttempts : Z := 3.
Definition BaseBackoffSeconds : Z := 30.
Definition MaxBackoffSeconds : Z := 600.

Definition backoff_seconds (attempt : Z) : Z :=
  let exp := Z.max 0 (attempt - 1) in
  let delaySec := wrap64 (BaseBackoffSeconds * shl1 exp) in
  if decide (delaySec > MaxBackoffSeconds)%Z then MaxBackoffSeconds else delaySec.

Definition ComputeNextRetryAt (attempt : Z) : AM Time :=
  now ← svc nowUTC;
  mret (now + backoff_seconds attempt * 1000000)%Z.

(** The assignments [executeInTransaction] makes to its copy of the event. *)
Definition running_event (now : Time) (e : ProcessingEvent) : ProcessingEvent :=
  mkProcessingEvent (PEvent_ID e) (PEvent_PacketID e) (PEvent_Type e) ProcessingStatusRunning
    (PEvent_Attempts e + 1) (PEvent_CreatedAt e) (Some now) (PEvent_FinishedAt e) (PEvent_LastError e)
    (PEvent_NextRetryAt e).
Definition succeeded_event (finishedAt : Time) (e : ProcessingEvent) : ProcessingEvent :=
  mkProcessingEvent (PEvent_ID e) (PEvent_PacketID e) (PEvent_Type e) ProcessingStatusSucceeded
    (PEvent_Attempts e) (PEvent_CreatedAt e) (PEvent_StartedAt e) (Some finishedAt) (PEvent_LastError e) None.
Definition decoded_packet (decodedAt : Time) (p : Packet) : Packet :=
  mkPacket (Packet_ID p) (Packet_AmieID p) (Packet_Type p) PacketStatusDecoded (Packet_RawJSON p)
    (Packet_ReceivedAt p) (Some decodedAt) (Packet_ProcessedAt p) (Packet_Retries p) (Packet_LastError p).

(** A nil pointer would be dereferenced; the foreign key of the event excludes
    it. *)
Definition nil_packet {A} : AM A := athrow (NewError "panic: nil packet" []).

Definition processEvent (router : Router) (ctx : AuditCtx) (ewp : EventWithPacket) : AM unit :=
  let e := EWP_Event ewp in
  _ ← awrap "audit PACKET_RECEIVED: %w"
        (Log ctx (PEvent_PacketID e) (PEvent_ID e) AuditPacketReceived "packet" (PEvent_PacketID e) (PEvent_Type e));
  now ← svc nowUTC;
  let e := running_event now e in
  _ ← awrap "update event to RUNNING: %w" (aexec (pgEventStore_Update e));
  match EWP_PacketRawJSON ewp with
  | None => athrow (Errorf "unmarshal packet raw JSON: %w" [] (NewError "invalid JSON" []))
  | Some packetJSON =>
      found ← awrapf "load packet %s: %w" [PEvent_PacketID e] (aquery (pgPacketStore_FindByID (PEvent_PacketID e)));
      match found with
      | None => nil_packet
      | Some packet =>
          _ ← awrap "route packet: %w" (Route router ctx packetJSON packet (PEvent_ID e));
          finishedAt ← svc nowUTC;
          _ ← awrap "update event to SUCCEEDED: %w" (aexec (pgEventStore_Update (succeeded_event finishedAt e)));
          decodedAt ← svc nowUTC;
          awrap "update packet to DECODED: %w" (aexec (pgPacketStore_Update (decoded_packet decodedAt packet)))
      end
  end.

Definition executeInTransaction (router : Router) (ewp : EventWithPacket) : AM unit :=
  ctx ← Start Background;
  TxFn (processEvent router ctx ewp).

(** The assignments [recordFailureInNewTransaction] makes. *)
Definition failed_event (attempts : Z) (status msg : string) (now : Time) (next : option Time)
    (e : ProcessingEvent) : ProcessingEvent :=
  mkProcessingEvent (PEvent_ID e) (PEvent_PacketID e) (PEvent_Type e) status attempts (PEvent_CreatedAt e)
    (PEvent_StartedAt e) (Some now) (Some msg) next.
Definition failed_packet (retries : Z) (status msg : string) (p : Packet) : Packet :=
  mkPacket (Packet_ID p) (Packet_AmieID p) (Packet_Type p) status (Packet_RawJSON p) (Packet_ReceivedAt p)
    (Packet_DecodedAt p) (Packet_ProcessedAt p) retries (Some msg).

Definition error_detail (msg : string) : string :=
  if decide (8000 < Z.of_nat (String.length msg))%Z then prefix_of (Z.to_nat 8000) msg else msg.

(** [errorStore.Save]; the identity column takes the next value of its sequence. *)
Definition saveError (e : ProcessingError) : AM unit :=
  id ← agets a_seq;
  _ ← amodify bump_seq;
  aexec (pgProcessingErrorStore_Save id e).

Definition recordFailure (eventID : string) (cause : error) : AM unit :=
  found ← awrap "find event for failure recording: %w" (aquery (pgEventStore_FindByID eventID));
  match found with
  | None => mret tt
  | Some event =>
      foundPacket ← awrap "find packet for failure recording: %w"
                      (aquery (pgPacketStore_FindByID (PEvent_PacketID event)));
      let effectiveAttempts := (PEvent_Attempts event + 1)%Z in
      let errMsg := Error cause in
      now ← svc nowUTC;
      match foundPacket with
      | None => nil_packet
      | Some packet =>
          event' ← (if decide (effectiveAttempts < MaxAttempts)%Z then
              nextRetry ← ComputeNextRetryAt effectiveAttempts;
              _ ← awrap "update packet retries: %w"
                    (aexec (pgPacketStore_Update
                       (failed_packet effectiveAttempts (Packet_Status packet) errMsg packet)));
              mret (failed_event effectiveAttempts ProcessingStatusRetryScheduled errMsg now (Some nextRetry) event)
            else
              _ ← awrap "update packet status: %w"
                    (aexec (pgPacketStore_Update
                       (failed_packet effectiveAttempts PacketStatusFailed errMsg packet)));
              mret (failed_event effectiveAttempts ProcessingStatusPermanentlyFailed errMsg now None event));
          _ ← awrap "update event: %w" (aexec (pgEventStore_Update event'));
          saveError (mkProcessingError 0 (Some (PEvent_PacketID event)) (Some (PEvent_ID event)) now errMsg
                       (Some (error_detail errMsg)))
      end
  end.

Definition recordFailureInNewTransaction (eventID : string) (cause : error) : AM unit :=
  TxFn (recordFailure eventID cause).

(** The body of the loop of [processPendingEvents]. *)
Definition handle_due_event (router : Router) (ewp : EventWithPacket) : AM unit :=
  r ← acatch (executeInTransaction router ewp);
  match r with
  | Ok _ => mret tt
  | Err e => _ ← acatch (recordFailureInNewTransaction (PEvent_ID (EWP_Event ewp)) e); mret tt
  end.

Definition processPendingEvents (router : Router) : AM unit :=
  now ← svc nowUTC;
  r ← acatch (aquery (pgEventStore_FindTop50EventsToProcess
        [ProcessingStatusNew; ProcessingStatusRetryScheduled] now));
  match r with
  | Err _ => mret tt
  | Ok events => aeach (handle_due_event router) events
  end.

(** ** The connector in operation *)

(** ON DELETE CASCADE from audit_events, whose rows the core can delete. *)
Definition cascade_extras (w : AWorld) : AWorld :=
  set_adb (set_extras (filter (λ kx, is_Some (t_audit_events (core_db w) !! kx.1)) (t_extras (a_db w)))
             (a_db w)) w.

Inductive amie_step (clusterID : string) (w : AWorld) : AWorld → Prop :=
  | step_poll : amie_step clusterID w (pollForPackets w).2
  | step_process : amie_step clusterID w (processPendingEvents (dispatcher clusterID) w).2
  | step_core r : amie_step clusterID w (cascade_extras (svc (serve r) w).2).

Inductive amie_reachable (clusterID : string) (w0 : AWorld) : AWorld → Prop :=
  | amie_init : amie_reachable clusterID w0 w0
  | amie_next w w' : amie_reachable clusterID w0 w → amie_step clusterID w w' → amie_reachable clusterID w0 w'.
End worker.
