(* ===== verification/AmieFacts.v ===== *)
(** * What a handler can do

    [hrel]: the relation every handler moves the state along, whatever it is
    given and wherever it fails. The committed tables of the connector stay as
    they are until the processor commits; of the working copy only DNs and audit
    extras change; the core database moves by calls of its service and by
    nothing else; AMIE only ever gets further replies. *)

From stdpp Require Import base gmap sets list strings.
From Stdlib Require Import ZArith.
From S2P Require Import Prelude GoError Models Schema Events IdentityCache Effects EffectsLogic Wire.
From S2P Require Import StoreAuth UserService AuthService ProjectService AllocationService MembershipService.
From S2P Require Import ServiceApi Posix AmieStore AmieEffects AmieHandlers AmieDispatch AmieWorker.

(** ** The core moves by its own operations *)

Definition core_step `{Env} (d d' : DB) : Prop := ∃ w r, w_db w = d ∧ w_db (serve r w).2 = d'.
Definition core_evolves `{Env} : relation DB := rtc core_step.
#[export] Instance core_evolves_preorder `{Env} : PreOrder core_evolves.
Proof. unfold core_evolves. apply _. Qed.

(** What every operation of the service preserves is preserved by any number of
    them. *)
Lemma core_evolves_pres `{Env} (P : DB → Prop) :
  (∀ r, DbRel (pres P) (serve r)) → ∀ d d', core_evolves d d' → P d → P d'.
Proof.
  intros HP d d' Hr. induction Hr as [|d1 d2 d3 (w & r & <- & <-) _ IH]; [done|].
  intros H1. apply IH. by apply (HP r).
Qed.

Section evolves.
Context `{E : Env}.

Lemma serve_evolves r : DbRel core_evolves (serve r).
Proof. intros w. apply rtc_once. by exists w, r. Qed.
Lemma ignore_db {A} (m : M A) w : w_db (ignore m w).2 = w_db (m w).2.
Proof. unfold ignore, mbind, M_bind. by destruct (m w) as [[] ?]. Qed.
Lemma op_evolves {A} (m : M A) r : serve r = ignore m → DbRel core_evolves m.
Proof. intros Hr w. rewrite <- ignore_db, <- Hr. apply serve_evolves. Qed.

Lemma evolves_CreateOrganization o : DbRel core_evolves (CreateOrganization o).
Proof. by apply (op_evolves _ (ReqCreateOrganization o)). Qed.
Lemma evolves_CreateUser u : DbRel core_evolves (CreateUser u).
Proof. by apply (op_evolves _ (ReqCreateUser u)). Qed.
Lemma evolves_UpdateUser u : DbRel core_evolves (UpdateUser u).
Proof. apply (serve_evolves (ReqUpdateUser u)). Qed.
Lemma evolves_MergeUsers s r : DbRel core_evolves (MergeUsers s r).
Proof. by apply (op_evolves _ (ReqMergeUsers s r)). Qed.
Lemma evolves_CreateUserIdentity e : DbRel core_evolves (CreateUserIdentity e).
Proof. by apply (op_evolves _ (ReqCreateUserIdentity e)). Qed.
Lemma evolves_UpdateUserIdentity e : DbRel core_evolves (UpdateUserIdentity e).
Proof. by apply (op_evolves _ (ReqUpdateUserIdentity e)). Qed.
Lemma evolves_CreateProject p : DbRel core_evolves (CreateProject p).
Proof. by apply (op_evolves _ (ReqCreateProject p)). Qed.
Lemma evolves_UpdateProjectStatus i s : DbRel core_evolves (UpdateProjectStatus i s).
Proof. by apply (op_evolves _ (ReqUpdateProjectStatus i s)). Qed.
Lemma evolves_EnsureProjectMembership p u r : DbRel core_evolves (EnsureProjectMembership p u r).
Proof. apply (serve_evolves (ReqEnsureProjectMembership p u r)). Qed.
Lemma evolves_CreateComputeClusterUser c : DbRel core_evolves (CreateComputeClusterUser c).
Proof. by apply (op_evolves _ (ReqCreateComputeClusterUser c)). Qed.
Lemma evolves_CreateComputeAllocation a : DbRel core_evolves (CreateComputeAllocation a).
Proof. by apply (op_evolves _ (ReqCreateComputeAllocation a)). Qed.
Lemma evolves_UpdateComputeAllocation a : DbRel core_evolves (UpdateComputeAllocation a).
Proof. apply (serve_evolves (ReqUpdateComputeAllocation a)). Qed.
Lemma evolves_CreateComputeAllocationDiff x : DbRel core_evolves (CreateComputeAllocationDiff x).
Proof. by apply (op_evolves _ (ReqCreateComputeAllocationDiff x)). Qed.
Lemma evolves_AttachResourceToAllocation a r n t : DbRel core_evolves (AttachResourceToAllocation a r n t).
Proof. by apply (op_evolves _ (ReqAttachResourceToAllocation a r n t)). Qed.
Lemma evolves_CreateComputeAllocationMembership m : DbRel core_evolves (CreateComputeAllocationMembership m).
Proof. by apply (op_evolves _ (ReqCreateComputeAllocationMembership m)). Qed.
Lemma evolves_UpdateMembershipStatus i s : DbRel core_evolves (UpdateMembershipStatus i s).
Proof. by apply (op_evolves _ (ReqUpdateMembershipStatus i s)). Qed.
Lemma evolves_CreateAuditEvent c e : DbRel core_evolves (CreateAuditEvent c e).
Proof. by apply (op_evolves _ (ReqCreateAuditEvent c e)). Qed.
End evolves.

Create HintDb evolves discriminated.
#[export] Hint Constants Opaque : evolves.
#[export] Hint Resolve
  evolves_CreateOrganization evolves_CreateUser evolves_UpdateUser evolves_MergeUsers
  evolves_CreateUserIdentity evolves_UpdateUserIdentity evolves_CreateProject
  evolves_UpdateProjectStatus evolves_EnsureProjectMembership evolves_CreateComputeClusterUser
  evolves_CreateComputeAllocation evolves_UpdateComputeAllocation evolves_CreateComputeAllocationDiff
  evolves_AttachResourceToAllocation evolves_CreateComputeAllocationMembership
  evolves_UpdateMembershipStatus evolves_CreateAuditEvent : evolves.

(** The reads of the service the handlers make. *)
Create HintDb reads.
#[export] Hint Unfold
  GetUserIdentityBySourceAndExternalID GetProject ListComputeAllocationsByProject
  ListMembersForAllocation GetOrganizationByOriginatedID GetUser ListComputeClusterUsersByUser
  GetUserByUserIdentity GetProjectByOriginatedID GetComputeAllocationResourceByNameAndCluster
  ListAllocationsForUser : reads.

(** ** [hrel] *)

Record hrel `{Env} (w w' : AWorld) : Prop := {
  h_db : a_db w' = a_db w;
  h_packets : t_packets (a_tx w') = t_packets (a_tx w);
  h_events : t_events (a_tx w') = t_events (a_tx w);
  h_errors : t_errors (a_tx w') = t_errors (a_tx w);
  h_seq : a_seq w' = a_seq w;
  h_integrity : amie_integrity (a_tx w) → amie_integrity (a_tx w');
  h_audit : keyed AuditEvent_ID (a_txaudit w) → keyed AuditEvent_ID (a_txaudit w');
  h_core : core_evolves (core_db w) (core_db w');
  h_replies : ∃ l, a_replies w' = a_replies w ++ l }.

#[export] Instance hrel_preorder `{Env} : PreOrder hrel.
Proof.
  split.
  - intros w. split; try done. exists []. by rewrite app_nil_r.
  - intros w1 w2 w3 [] [h9 h10 h11 h12 h13 h14 h15 h16 [l2 h17]].
    destruct h_replies0 as [l1 h8]. split; try congruence; eauto.
    + by etrans.
    + exists (l1 ++ l2). by rewrite h17, h8, app_assoc.
Qed.

(** A statement a handler may run. *)
Definition hstmt (s : astmt) : Prop := ∀ d d', s d = inr d' →
  t_packets d' = t_packets d ∧ t_events d' = t_events d ∧ t_errors d' = t_errors d.

Section hrel_rules.
Context `{E : Env} `{AE : AmieEnv}.

Lemma hrel_svc {A} (m : M A) : DbRel core_evolves m → ARel hrel (svc m).
Proof.
  intros Hm w. specialize (Hm (a_core w)). unfold svc. destruct (m (a_core w)) as [r c].
  split; try done. exists []. by rewrite app_nil_r.
Qed.

Lemma hrel_aquery {A} (f : AmieDB → A) : ARel hrel (aquery f).
Proof.
  unfold aquery. apply ARel_bind; [apply _| |intros _; apply ARel_gets, _].
  apply hrel_svc. apply Quiet_DbRel; [apply _|]. apply Quiet_round_trip.
Qed.

Lemma hrel_aexec s : hstmt s → astmt_pres s → ARel hrel (aexec s).
Proof.
  intros Hs Hp. unfold aexec. apply ARel_bind; [apply _| |intros _].
  { apply hrel_svc. apply Quiet_DbRel; [apply _|]. apply Quiet_round_trip. }
  intros w. unfold apply_astmt. destruct (s (a_tx w)) as [e|d] eqn:Es; simpl; [reflexivity|].
  destruct (Hs _ _ Es) as (H1 & H2 & H3). split; simpl; try done.
  - by apply (Hp _ _ Es).
  - exists []. by rewrite app_nil_r.
Qed.

Lemma hrel_aexec_audit e : ARel hrel (aexec_audit e).
Proof.
  unfold aexec_audit. apply ARel_bind; [apply _| |intros _].
  { apply hrel_svc. apply Quiet_DbRel; [apply _|]. apply Quiet_round_trip. }
  intros w. unfold apply_audit. destruct (pgAuditEventStore_Create _ _) as [err|d] eqn:Es; simpl; [reflexivity|].
  split; simpl; try done; [|exists []; by rewrite app_nil_r].
  intros Hk k r [Hr Hn]%lookup_difference_Some. stmt_inv Es. simpl in Hr.
  apply lookup_insert_Some in Hr as [[<- <-]|[_ Hr]]; [done|].
  unfold audits_seen in Hr. apply lookup_union_Some_raw in Hr as [Hr|[_ Hr]]; [by apply Hk|congruence].
Qed.

Lemma hrel_modify f :
  (∀ w, a_db (f w) = a_db w ∧ a_tx (f w) = a_tx w ∧ a_seq (f w) = a_seq w ∧
        a_txaudit (f w) = a_txaudit w ∧ a_core (f w) = a_core w ∧ ∃ l, a_replies (f w) = a_replies w ++ l) →
  ARel hrel (amodify f).
Proof.
  intros Hf w. destruct (Hf w) as (H1 & H2 & H3 & H4 & H5 & H6). unfold amodify, core_db.
  split; simpl; unfold core_db; rewrite ?H1, ?H2, ?H3, ?H4, ?H5; done.
Qed.

Lemma hrel_Start ctx : ARel hrel (Start ctx).
Proof.
  unfold Start. repeat (apply ARel_bind; [apply _| |intros ?]); [apply ARel_gets, _| |apply ARel_ret, _].
  apply hrel_modify. intros w. repeat split; try done. exists []. by rewrite app_nil_r.
Qed.

Lemma hrel_http_do : ARel hrel http_do.
Proof.
  unfold http_do. repeat (apply ARel_bind; [apply _| |intros ?]); [apply ARel_gets, _| |apply ARel_ret, _].
  apply hrel_modify. intros w. repeat split; try done. exists []. by rewrite app_nil_r.
Qed.
End hrel_rules.

(** ** The handlers *)

(** [hrel] holds the [ARel hrel] lemmas of helpers and handlers. *)
Create HintDb hrel discriminated.
#[export] Hint Constants Opaque : hrel.

Ltac hstmt_tac := intros ?d ?d' ?H; stmt_inv H; auto.

Ltac hrel_step :=
  lazymatch goal with
  | |- ∀ _, _ => intros ?
  | |- ARel _ (mret _) => apply ARel_ret, _
  | |- ARel _ (athrow _) => apply ARel_throw, _
  | |- ARel _ (pure _) => apply ARel_pure, _
  | |- ARel _ (agets _) => apply ARel_gets, _
  | |- ARel _ (awrapf _ _ _) => apply ARel_wrapf
  | |- ARel _ (acatch _) => apply ARel_catch
  | |- ARel _ (aeach _ _) => apply ARel_each; [apply _|]
  | |- ARel _ (acount _ _) => apply ARel_count; [apply _|]
  | |- ARel _ (agather _ _) => apply ARel_gather; [apply _|]
  | |- ARel _ (svc _) =>
      apply hrel_svc;
      first [ solve [auto 1 with evolves nocore]
            | apply Quiet_DbRel; [apply _|]; autounfold with reads; solve [solve_quiet] ]
  | |- ARel _ (aquery _) => apply hrel_aquery
  | |- ARel _ (aexec_audit _) => apply hrel_aexec_audit
  | |- ARel _ (aexec _) => apply hrel_aexec; [solve [hstmt_tac]|solve [auto 1 with astmt nocore]]
  | |- ARel _ (amodify _) =>
      apply hrel_modify; intros ?; repeat split; try done;
      first [exists []; by rewrite app_nil_r | by eexists]
  | |- ARel _ (Start _) => apply hrel_Start
  | |- ARel _ http_do => apply hrel_http_do
  | |- ARel _ (_ ≫= _) => apply ARel_bind; [apply _| |]
  | |- ARel _ (if ?b then _ else _) => destruct b
  | |- ARel _ (match ?x with _ => _ end) => destruct x
  | |- ARel _ (let _ := _ in _) => cbv zeta
  | |- ARel _ _ => first [assumption | solve [auto 1 with hrel nocore]]
  end.
Ltac solve_hrel := repeat hrel_step.

Section handlers.
Context `{E : Env} `{AE : AmieEnv}.

Lemma hrel_Log c p e a t i s : ARel hrel (Log c p e a t i s).
Proof. unfold Log. solve_hrel. Qed.
#[local] Hint Resolve hrel_Log : hrel.
Lemma hrel_ReplyToPacket i r : ARel hrel (ReplyToPacket i r).
Proof. unfold ReplyToPacket. solve_hrel. Qed.
#[local] Hint Resolve hrel_ReplyToPacket : hrel.
Lemma hrel_send_reply n c p e r : ARel hrel (send_reply n c p e r).
Proof. unfold send_reply. solve_hrel. Qed.
#[local] Hint Resolve hrel_send_reply : hrel.
Lemma hrel_find {A} (m : M A) : Quiet m → ARel hrel (find m).
Proof.
  intros Hm. unfold find. apply ARel_bind; [apply _| |solve_hrel].
  apply ARel_catch, hrel_svc, Quiet_DbRel; [apply _|done].
Qed.

Lemma hrel_posix_audit c t u d : ARel hrel (posix_audit c t u d).
Proof. unfold posix_audit. solve_hrel. Qed.
Lemma hrel_tryCandidates c u b ns : ARel hrel (tryCandidates c u b ns).
Proof. induction ns as [|n ns IH]; simpl; solve_hrel. Qed.
#[local] Hint Resolve hrel_posix_audit hrel_tryCandidates : hrel.
Lemma hrel_allocate x c u : ARel hrel (allocateAndCreateClusterUser x c u).
Proof. unfold allocateAndCreateClusterUser. solve_hrel. Qed.
#[local] Hint Resolve hrel_allocate : hrel.
Lemma hrel_ensureComputeClusterUser x c u : ARel hrel (ensureComputeClusterUser x c u).
Proof. unfold ensureComputeClusterUser. solve_hrel. Qed.
#[local] Hint Resolve hrel_ensureComputeClusterUser : hrel.

Ltac solve_find := apply hrel_find; autounfold with reads; solve [solve_quiet].
Ltac solve_h := repeat (hrel_step || lazymatch goal with |- ARel _ (find _) => solve_find end).

Lemma hrel_ensureUserIdentity u g : ARel hrel (ensureUserIdentity u g).
Proof. unfold ensureUserIdentity. solve_h. Qed.
Lemma hrel_flipUserMemberships p u s : ARel hrel (flipUserMemberships p u s).
Proof. unfold flipUserMemberships. solve_h. Qed.
Lemma hrel_ensureOrganization c n : ARel hrel (ensureOrganization c n).
Proof. unfold ensureOrganization. solve_h. Qed.
#[local] Hint Resolve hrel_ensureUserIdentity hrel_flipUserMemberships hrel_ensureOrganization : hrel.
Lemma hrel_ensureUser a b c d e f : ARel hrel (ensureUser a b c d e f).
Proof. unfold ensureUser. solve_h. Qed.
Lemma hrel_ensureProject o g p : ARel hrel (ensureProject o g p).
Proof. unfold ensureProject. solve_h. Qed.
Lemma hrel_ensureAllocation c b p g : ARel hrel (ensureAllocation c b p g).
Proof. unfold ensureAllocation, recordAllocationDiff. solve_h. Qed.
Lemma hrel_ensureResourceMappings c x b a p e : ARel hrel (ensureResourceMappings c x b a p e).
Proof. unfold ensureResourceMappings. solve_h. Qed.
Lemma hrel_ensurePIMembership a p : ARel hrel (ensurePIMembership a p).
Proof. unfold ensurePIMembership. solve_h. Qed.
Lemma hrel_ensureMembership a u : ARel hrel (ensureMembership a u).
Proof. unfold ensureMembership. solve_h. Qed.
#[local] Hint Resolve hrel_ensureUser hrel_ensureProject hrel_ensureAllocation
  hrel_ensureResourceMappings hrel_ensurePIMembership hrel_ensureMembership : hrel.

Lemma hrel_project_create cl c j p e : ARel hrel (RequestProjectCreateHandler_Handle cl c j p e).
Proof. unfold RequestProjectCreateHandler_Handle, ensurePIUser. solve_h. Qed.
Lemma hrel_account_create cl c j p e : ARel hrel (RequestAccountCreateHandler_Handle cl c j p e).
Proof. unfold RequestAccountCreateHandler_Handle, ensureAccountUser. solve_h. Qed.
Lemma hrel_project_inactivate c j p e : ARel hrel (RequestProjectInactivateHandler_Handle c j p e).
Proof. unfold RequestProjectInactivateHandler_Handle, deactivateAllocations, setAllocationStatus. solve_h. Qed.
Lemma hrel_project_reactivate c j p e : ARel hrel (RequestProjectReactivateHandler_Handle c j p e).
Proof. unfold RequestProjectReactivateHandler_Handle, reactivateAllocationsAndPI, setAllocationStatus. solve_h. Qed.
Lemma hrel_account_status n f s a m c j p e : ARel hrel (account_status_handler n f s a m c j p e).
Proof. unfold account_status_handler. solve_h. Qed.
Lemma hrel_person_merge c j p e : ARel hrel (RequestPersonMergeHandler_Handle c j p e).
Proof. unfold RequestPersonMergeHandler_Handle, pgUserDNStore_ReassignUser. solve_h. Qed.
Lemma hrel_addDN u d : ARel hrel (addDN u d).
Proof. unfold addDN. solve_h. Qed.
#[local] Hint Resolve hrel_addDN : hrel.
Lemma hrel_user_modify c j p e : ARel hrel (RequestUserModifyHandler_Handle c j p e).
Proof.
  unfold RequestUserModifyHandler_Handle, applyReplace, updateUserIdentity, deleteDNs, syncDNs, removeDNs.
  solve_h.
Qed.
Lemma hrel_data n r s c j p e : ARel hrel (data_handler n r s c j p e).
Proof. unfold data_handler. solve_h. Qed.
Lemma hrel_inform c j p e : ARel hrel (InformTransactionCompleteHandler_Handle c j p e).
Proof. unfold InformTransactionCompleteHandler_Handle. solve_h. Qed.
Lemma hrel_noop c j p e : ARel hrel (NoOpHandler_Handle c j p e).
Proof. unfold NoOpHandler_Handle. solve_h. Qed.

(** A router all of whose handlers keep to [hrel]. *)
Definition router_ok (r : Router) : Prop :=
  map_Forall (λ _ h, ∀ c j p e, ARel hrel (Handle h c j p e)) (r_handlers r) ∧
  (∀ h, r_noop r = Some h → ∀ c j p e, ARel hrel (Handle h c j p e)).

Lemma NewRouter_ok hs : Forall (λ h, ∀ c j p e, ARel hrel (Handle h c j p e)) hs → router_ok (NewRouter hs).
Proof.
  unfold NewRouter. assert (router_ok (mkRouter ∅ None)) as H0 by (split; [apply map_Forall_empty|done]).
  revert H0. generalize (mkRouter ∅ None). induction hs as [|h hs IH]; intros r [H1 H2] Hf; simpl; [done|].
  inversion_clear Hf. apply IH; [|done]. unfold add_handler. case_decide; split; simpl; try done.
  - by intros h' [= <-].
  - by apply map_Forall_insert_2.
Qed.

Lemma dispatcher_ok cl : router_ok (dispatcher cl).
Proof.
  apply NewRouter_ok. unfold handlers. repeat apply Forall_cons_2; [..|by apply Forall_nil_2];
    intros c j p e; cbn [Handle].
  - exact (hrel_project_create cl c j p e).
  - exact (hrel_account_create cl c j p e).
  - exact (hrel_project_inactivate c j p e).
  - exact (hrel_project_reactivate c j p e).
  - exact (hrel_account_status _ _ _ _ _ c j p e).
  - exact (hrel_account_status _ _ _ _ _ c j p e).
  - exact (hrel_person_merge c j p e).
  - exact (hrel_user_modify c j p e).
  - exact (hrel_data _ _ _ c j p e).
  - exact (hrel_data _ _ _ c j p e).
  - exact (hrel_inform c j p e).
  - exact (hrel_noop c j p e).
Qed.

Lemma hrel_Route r c j p e : router_ok r → ARel hrel (Route r c j p e).
Proof.
  intros [H1 H2]. unfold Route. destruct (r_handlers r !! _) eqn:Hr; [by eapply H1|].
  destruct (r_noop r) eqn:Hn; [by apply H2|apply ARel_throw, _].
Qed.
End handlers.

#[export] Hint Resolve hrel_Log hrel_send_reply hrel_addDN : hrel.
