(* ===== verification/AmieMachine.v ===== *)
(** * AMIE: the life of a packet

    The abstract specification of the worker is a machine with three kinds of
    state ([Phase]): an event waits after some failed attempts, is done, or is
    abandoned; when the answer of a COMMIT was lost, what is done can wait again.
    The poller and the processor refine it: what they commit to the
    tables are the moves of this machine and nothing else. *)

From stdpp Require Import base gmap sets list strings.
From Stdlib Require Import ZArith Lia.
From S2P Require Import Prelude GoError Models Schema Events IdentityCache Effects EffectsLogic Wire.
From S2P Require Import StoreAuth UserService AuthService ServiceApi.
From S2P Require Import Posix AmieStore AmieEffects AmieHandlers AmieDispatch AmieWorker AmieFacts.

(** ** The specification *)

Inductive Phase :=
  | Waiting (failures : Z)
  | Done (attempts : Z)
  | Abandoned.

(** One attempt. *)
Inductive attempt : Phase → Phase → Prop :=
  | attempt_succeeds n : attempt (Waiting n) (Done (n + 1))
  | attempt_fails n : (n + 1 < MaxAttempts)%Z → attempt (Waiting n) (Waiting (n + 1))
  | attempt_last n : (MaxAttempts <= n + 1)%Z → attempt (Waiting n) Abandoned.

(** An attempt whose COMMIT was carried out and its answer lost, recorded as a
    failure of the event that it had finished: it counts twice. *)
Inductive relapse : Phase → Phase → Prop :=
  | relapse_again n : (n + 2 < MaxAttempts)%Z → relapse (Waiting n) (Waiting (n + 2))
  | relapse_last n : (MaxAttempts <= n + 2)%Z → relapse (Waiting n) Abandoned.

(** What the processor may do to an event. *)
Definition move `{Env} (ph ph' : Phase) : Prop := attempt ph ph' ∨ some_lost ∧ relapse ph ph'.

(** The rows of an event and of its packet represent a phase. After a relapse an
    event may wait although its packet is DECODED, and an abandoned one may count
    an attempt too many. *)
Inductive in_phase `{Env} (e : ProcessingEvent) (p : Packet) : Phase → Prop :=
  | in_new : PEvent_Status e = ProcessingStatusNew → PEvent_Attempts e = 0%Z → PEvent_NextRetryAt e = None →
      Packet_Status p = PacketStatusNew → in_phase e p (Waiting 0)
  | in_retry n t : PEvent_Status e = ProcessingStatusRetryScheduled → PEvent_Attempts e = n →
      (0 < n < MaxAttempts)%Z → PEvent_NextRetryAt e = Some t → Packet_Status p = PacketStatusNew →
      in_phase e p (Waiting n)
  | in_reopened t : some_lost → PEvent_Status e = ProcessingStatusRetryScheduled →
      PEvent_Attempts e = (MaxAttempts - 1)%Z → PEvent_NextRetryAt e = Some t →
      Packet_Status p = PacketStatusDecoded → in_phase e p (Waiting (MaxAttempts - 1))
  | in_done n : PEvent_Status e = ProcessingStatusSucceeded → PEvent_Attempts e = n →
      (1 <= n <= MaxAttempts)%Z → PEvent_NextRetryAt e = None → Packet_Status p = PacketStatusDecoded →
      in_phase e p (Done n)
  | in_abandoned : PEvent_Status e = ProcessingStatusPermanentlyFailed →
      PEvent_Attempts e = MaxAttempts ∨ some_lost ∧ PEvent_Attempts e = (MaxAttempts + 1)%Z →
      PEvent_NextRetryAt e = None → Packet_Status p = PacketStatusFailed → in_phase e p Abandoned.

(** The event [eid] of the tables is in phase [ph]. *)
Definition has_phase `{Env} (d : AmieDB) (eid : string) (ph : Phase) : Prop :=
  ∃ e p, t_events d !! eid = Some e ∧ t_packets d !! PEvent_PacketID e = Some p ∧ in_phase e p ph.

(** The invariant of the tables. *)
Record amie_inv `{Env} (d : AmieDB) : Prop := {
  i_integrity : amie_integrity d;
  i_phase eid e : t_events d !! eid = Some e →
    PEvent_Type e = EventTypeDecodePacket ∧ ∃ ph, has_phase d eid ph;
  i_packet pid p : t_packets d !! pid = Some p →
    ∃ eid e, t_events d !! eid = Some e ∧ PEvent_PacketID e = pid }.

(** What one event's processing leaves: the two tables as they were, or the
    event and its packet moved by one attempt, or by one that relapsed. *)
Inductive progress `{Env} (eid : string) (d d' : AmieDB) : Prop :=
  | progress_none : t_events d' = t_events d → t_packets d' = t_packets d → progress eid d d'
  | progress_move e e' p p' ph ph' :
      t_events d !! eid = Some e → t_packets d !! PEvent_PacketID e = Some p →
      t_events d' = <[eid := e']> (t_events d) → t_packets d' = <[PEvent_PacketID e := p']> (t_packets d) →
      PEvent_PacketID e' = PEvent_PacketID e → PEvent_Type e' = PEvent_Type e →
      Packet_Type p' = Packet_Type p → Packet_AmieID p' = Packet_AmieID p → Packet_RawJSON p' = Packet_RawJSON p →
      in_phase e p ph → in_phase e' p' ph' → move ph ph' → progress eid d d'.

(** The phase of the rows is unique. *)
Lemma in_phase_unique `{Env} e p ph ph' : in_phase e p ph → in_phase e p ph' → ph = ph'.
Proof.
  destruct 1; destruct 1; subst; try congruence;
    repeat match goal with H1 : PEvent_Status e = _, H2 : PEvent_Status e = _ |- _ =>
      rewrite H1 in H2; discriminate H2 end.
Qed.

Lemma has_phase_unique `{Env} d eid ph ph' : has_phase d eid ph → has_phase d eid ph' → ph = ph'.
Proof. intros (e & p & ? & ? & ?) (e' & p' & ? & ? & ?). simplify_eq. by eapply in_phase_unique. Qed.

(** Two events of the tables are about different packets. *)
Lemma events_packets_ne `{Env} d i j ei ej :
  amie_inv d → t_events d !! i = Some ei → t_events d !! j = Some ej → i ≠ j →
  PEvent_PacketID ei ≠ PEvent_PacketID ej.
Proof.
  intros [HI Hp _] Hi Hj Hne Heq. apply Hne. destruct (Hp _ _ Hi) as [Ti _]. destruct (Hp _ _ Hj) as [Tj _].
  eapply (u_events_packet_type _ HI); [done..| |]; unfold uq_amie_events_packet_type; [done|].
  by rewrite Heq, Ti, Tj.
Qed.

(** ** One event *)

Lemma progress_phase `{Env} eid d d' j ph :
  amie_inv d → progress eid d d' → has_phase d j ph →
  ∃ ph', has_phase d' j ph' ∧ (ph' = ph ∨ (j = eid ∧ move ph ph')).
Proof.
  intros HI Hpr (e0 & p0 & He0 & Hp0 & Hph).
  destruct Hpr as [Hev Hpk|e e' p p' ph1 ph2 He Hp Hev Hpk Hid Hty _ _ _ Hin Hin' Hat].
  - exists ph. split; [|by left]. exists e0, p0. by rewrite Hev, Hpk.
  - destruct (decide (j = eid)) as [->|Hj].
    + simplify_eq. exists ph2. assert (ph1 = ph) as <- by by eapply in_phase_unique.
      split; [|by right]. exists e', p'. rewrite Hev, Hpk, Hid, !lookup_insert_eq. done.
    + exists ph. split; [|by left]. exists e0, p0. rewrite Hev, Hpk, lookup_insert_ne by done.
      rewrite lookup_insert_ne; [done|]. by eapply events_packets_ne.
Qed.

Lemma progress_inv `{Env} eid d d' :
  amie_inv d → amie_integrity d' → progress eid d d' → amie_inv d'.
Proof.
  intros HI HI' Hpr. split; [done| |].
  - intros j e0 He0. assert (∃ e1, t_events d !! j = Some e1 ∧ PEvent_Type e1 = PEvent_Type e0) as (e1 & He1 & Ht).
    { destruct Hpr as [Hev _|e e' p p' ph1 ph2 He Hp Hev _ _ Hty]; rewrite Hev in He0; [eauto|].
      apply lookup_insert_Some in He0 as [[<- <-]|[_ ?]]; eauto. }
    destruct (i_phase _ HI _ _ He1) as [Hty [ph Hph]]. split; [congruence|].
    destruct (progress_phase _ _ _ _ _ HI Hpr Hph) as (ph' & ? & _). eauto.
  - intros pid p0 Hp0. destruct Hpr as [Hev Hpk|e e' p p' ph1 ph2 He Hp Hev Hpk Hid _ _ _ _ _ _ _].
    + rewrite Hpk in Hp0. destruct (i_packet _ HI _ _ Hp0) as (j & e0 & ? & ?). exists j, e0. by rewrite Hev.
    + rewrite Hpk in Hp0. apply lookup_insert_Some in Hp0 as [[<- <-]|[Hne Hp0]].
      * exists eid, e'. by rewrite Hev, lookup_insert_eq.
      * destruct (i_packet _ HI _ _ Hp0) as (j & e0 & Hj & Hpid). exists j, e0. split; [|done].
        rewrite Hev, lookup_insert_ne; [done|]. intros <-. simplify_eq.
Qed.

(** A pending event is in a waiting phase. *)
Definition pending (e : ProcessingEvent) : Prop :=
  PEvent_Status e = ProcessingStatusNew ∨ PEvent_Status e = ProcessingStatusRetryScheduled.
Lemma pending_waiting `{Env} e p ph : in_phase e p ph → pending e → ph = Waiting (PEvent_Attempts e).
Proof.
  intros Hin [Hp|Hp]; destruct Hin as [Hs|n t Hs|t _ Hs|n Hs|Hs]; first [congruence | by rewrite Hs in Hp].
Qed.
Lemma waiting_bounds `{Env} e p n : in_phase e p (Waiting n) → (0 <= n < MaxAttempts)%Z.
Proof. inversion 1; unfold MaxAttempts in *; lia. Qed.

(** The row read by the processor, still in the tables. *)
Definition current (d : AmieDB) (x : EventWithPacket) : Prop :=
  t_events d !! PEvent_ID (EWP_Event x) = Some (EWP_Event x) ∧
  with_packet d (EWP_Event x) = Some x ∧ pending (EWP_Event x).

(** ** What the statements leave *)

Lemma pgEventStore_Update_inv e old d d' :
  pgEventStore_Update e d = inr d' → t_events d !! PEvent_ID e = Some old →
  t_events d' = <[PEvent_ID e := updated_event e old]> (t_events d) ∧ t_packets d' = t_packets d ∧
  t_errors d' = t_errors d.
Proof. intros H Ho. unfold pgEventStore_Update in H. rewrite Ho in H. by split_cases. Qed.

Lemma pgPacketStore_Update_inv p old d d' :
  pgPacketStore_Update p d = inr d' → t_packets d !! Packet_ID p = Some old →
  t_packets d' = <[Packet_ID p := updated_packet p old]> (t_packets d) ∧ t_events d' = t_events d ∧
  t_errors d' = t_errors d.
Proof. intros H Ho. unfold pgPacketStore_Update in H. rewrite Ho in H. by split_cases. Qed.

(** A row updated from itself keeps the columns the statement does not assign. *)
Lemma updated_event_self e old :
  PEvent_ID e = PEvent_ID old → PEvent_PacketID e = PEvent_PacketID old → PEvent_Type e = PEvent_Type old →
  PEvent_CreatedAt e = PEvent_CreatedAt old → updated_event e old = e.
Proof. destruct e, old; simpl. by intros -> -> -> ->. Qed.
Lemma updated_packet_self p old :
  Packet_ID p = Packet_ID old → Packet_AmieID p = Packet_AmieID old →
  Packet_ReceivedAt p = Packet_ReceivedAt old → updated_packet p old = p.
Proof. destruct p, old; simpl. by intros -> -> ->. Qed.

Ltac arun := repeat match goal with H : _ _ = (Ok _, _) |- _ => arun_step H end.

Section event.
Context `{E : Env} `{AE : AmieEnv} (router : Router) (Hrouter : router_ok router).

Ltac use_hrel :=
  repeat match goal with
  | H : Log ?c ?p ?e ?a ?t ?i ?s ?w = (_, ?w') |- _ =>
      let Hh := fresh "Hh" in
      pose proof (hrel_Log c p e a t i s w) as Hh; rewrite H in Hh; simpl in Hh; clear H
  | H : Route router ?c ?j ?p ?e ?w = (_, ?w') |- _ =>
      let Hh := fresh "Hh" in
      pose proof (hrel_Route router c j p e Hrouter w) as Hh; rewrite H in Hh; simpl in Hh; clear H
  end.

(** The two tables at the end of a successful transaction. *)
Lemma processEvent_tx ctx x w w' :
  a_tx w = a_db w → keyed Packet_ID (t_packets (a_db w)) → current (a_db w) x →
  processEvent router ctx x w = (Ok tt, w') →
  ∃ p t1 t2 t3, t_packets (a_db w) !! PEvent_PacketID (EWP_Event x) = Some p ∧
    let e := EWP_Event x in
    t_events (a_tx w') = <[PEvent_ID e := succeeded_event t2 (running_event t1 e)]> (t_events (a_db w)) ∧
    t_packets (a_tx w') = <[PEvent_PacketID e := decoded_packet t3 p]> (t_packets (a_db w)).
Proof.
  intros Htx Hk (He & Hwp & _) H. unfold processEvent in H. arun; use_hrel; simpl in *;
    [|by apply athrow_Ok in H].
  match goal with H : Some ?p = _ |- _ => rename p into pk; symmetry in H; rename H into Hpk end.
  unfold pgPacketStore_FindByID in Hpk. simpl in Hpk.
  destruct Hh as [Hd1 Hp1 He1 _ _ _ _ _ _]. destruct Hh0 as [_ Hp2 He2 _ _ _ _ _ _]. simpl in *.
  rewrite Hd1 in Hpk. rewrite Htx in Hp1, He1. exists pk, a0, a4, a6. split; [done|].
  apply pgEventStore_Update_inv with (old := EWP_Event x) in R1 as (Q1 & Q2 & _); [|by rewrite He1].
  simpl in Q1. rewrite He1 in Q1.
  eapply pgEventStore_Update_inv in R5 as (Q3 & Q4 & _); [|simpl; rewrite He2, Q1; apply lookup_insert_eq].
  simpl in Q3. rewrite He2, Q1, insert_insert_eq in Q3.
  pose proof (Hk _ _ Hpk) as Hpid. apply pgPacketStore_Update_inv with (old := pk) in H as (Q5 & Q6 & _).
  2:{ simpl. by rewrite Q4, Hp2, Q2, Hp1, Hpid. }
  simpl in Q5. rewrite Q4, Hp2, Q2, Hp1, Hpid in Q5. rewrite Q5, Q6, Q3. split; [|done].
  by rewrite !updated_event_self.
Qed.

(** The tables at the end of the transaction that records a failure. *)
Lemma recordFailure_tx eid cause e w w' :
  a_tx w = a_db w → amie_integrity (a_db w) → t_events (a_db w) !! eid = Some e →
  recordFailure eid cause w = (Ok tt, w') →
  ∃ p t, t_packets (a_db w) !! PEvent_PacketID e = Some p ∧
    let n := (PEvent_Attempts e + 1)%Z in
    let next := (clock (S (w_clock (a_core w))) + backoff_seconds n * 1000000)%Z in
    (t_events (a_tx w'), t_packets (a_tx w')) =
      if decide (n < MaxAttempts)%Z then
        (<[eid := failed_event n ProcessingStatusRetryScheduled (Error cause) t (Some next) e]> (t_events (a_db w)),
         <[PEvent_PacketID e := failed_packet n (Packet_Status p) (Error cause) p]> (t_packets (a_db w)))
      else
        (<[eid := failed_event n ProcessingStatusPermanentlyFailed (Error cause) t None e]> (t_events (a_db w)),
         <[PEvent_PacketID e := failed_packet n PacketStatusFailed (Error cause) p]> (t_packets (a_db w))).
Proof.
  intros Htx HI He H. unfold recordFailure in H. pose proof (pk_events _ HI _ _ He) as Hid.
  apply abind_Ok in H as (o & w1 & R & H). arun_step R. apply aquery_Ok in R as [-> ->].
  unfold pgEventStore_FindByID in H. rewrite He in H. simpl in H.
  apply abind_Ok in H as (o & w2 & R & H). arun_step R. apply aquery_Ok in R as [-> ->]. simpl in H.
  apply abind_Ok in H as (t & w3 & R & H). arun_step R. unfold pgPacketStore_FindByID in H.
  destruct (t_packets (a_db w) !! PEvent_PacketID e) as [p|] eqn:Hp; [|by apply athrow_Ok in H].
  pose proof (pk_packets _ HI _ _ Hp) as Hpid.
  unfold ComputeNextRetryAt, saveError in H. case_decide; arun; simpl in *; rewrite Htx in *;
    match goal with
    | Q1 : pgPacketStore_Update _ _ = inr _, Q2 : pgEventStore_Update _ _ = inr _,
      Q3 : pgProcessingErrorStore_Save _ _ _ = inr _ |- _ =>
        stmt_inv Q3; apply pgPacketStore_Update_inv with (old := p) in Q1 as (Q11 & Q12 & _);
          [|simpl; by rewrite Hpid];
        apply pgEventStore_Update_inv with (old := e) in Q2 as (Q21 & Q22 & _);
          [|simpl; by rewrite Q12, Hid]
    end; simpl in *; rewrite Hid, Hpid in *.
  - apply nowUTC_Ok in R as [_ ->]. apply nowUTC_Ok in R0 as [-> ->]. exists p, t. split; [done|]. rewrite decide_True by done.
    by rewrite Q21, Q22, Q11, Q12, updated_event_self, updated_packet_self.
  - exists p, t. split; [done|]. rewrite decide_False by done.
    by rewrite Q21, Q22, Q11, Q12, updated_event_self, updated_packet_self.
Qed.

(** ** Committing *)

(** The ids of the error rows are those the sequence has given out. *)
Definition errors_below (seq : Z) (d : AmieDB) : Prop := map_Forall (λ i _, (i < seq)%Z) (t_errors d).
Lemma errors_below_mono n m d : (n <= m)%Z → errors_below n d → errors_below m d.
Proof. intros Hn Hd i e Hi. specialize (Hd i e Hi). simpl in *. lia. Qed.

(** What the bodies of the transactions keep to. *)
Record prel (w w' : AWorld) : Prop := {
  p_db : a_db w' = a_db w;
  p_errors : errors_below (a_seq w) (a_tx w) → errors_below (a_seq w') (a_tx w');
  p_seq : (a_seq w <= a_seq w')%Z;
  p_integrity : amie_integrity (a_tx w) → amie_integrity (a_tx w');
  p_audit : keyed AuditEvent_ID (a_txaudit w) → keyed AuditEvent_ID (a_txaudit w');
  p_core : core_evolves (core_db w) (core_db w');
  p_replies : ∃ l, a_replies w' = a_replies w ++ l }.

#[local] Instance prel_preorder : PreOrder prel.
Proof.
  split.
  - intros w. split; try done. exists []. by rewrite app_nil_r.
  - intros w1 w2 w3 [] [q1 q1' q1'' q2 q3 q4 [l2 q5]]. destruct p_replies0 as [l1 q6].
    split; try congruence; eauto; [by etrans..|]. exists (l1 ++ l2). by rewrite q5, q6, app_assoc.
Qed.

Lemma hrel_prel {A} (m : AM A) : ARel hrel m → ARel prel m.
Proof.
  apply ARel_mono. intros w w' []. split; try done; [|lia]. intros Hb i e Hi. rewrite h_errors in Hi.
  rewrite h_seq. by eapply Hb.
Qed.

(** A statement that leaves the errors alone. *)
Definition keeps_errors (s : astmt) : Prop := ∀ d d', s d = inr d' → t_errors d' = t_errors d.

Lemma prel_aexec s : keeps_errors s → astmt_pres s → ARel prel (aexec s).
Proof.
  intros Hs Hp. unfold aexec. apply ARel_bind; [apply _| |intros _].
  { apply hrel_prel, hrel_svc, Quiet_DbRel, Quiet_round_trip. apply _. }
  intros w. unfold apply_astmt. destruct (s (a_tx w)) as [e|d] eqn:Es; simpl; [reflexivity|].
  split; simpl; try done; [|by apply (Hp _ _ Es)|exists []; by rewrite app_nil_r].
  intros Hb i e Hi. rewrite (Hs _ _ Es) in Hi. by eapply Hb.
Qed.

Lemma prel_saveError x : ARel prel (saveError x).
Proof.
  intros w. unfold saveError, mbind, AM_bind, agets, amodify, aexec, svc, round_trip, mbind, AM_bind, apply_astmt.
  simpl. destruct (fault _); simpl.
  { split; simpl; try done; [|lia|exists []; by rewrite app_nil_r]. apply errors_below_mono. lia. }
  destruct (pgProcessingErrorStore_Save _ _ _) as [e|d] eqn:Es; simpl.
  - split; simpl; try done; [|lia|exists []; by rewrite app_nil_r]. apply errors_below_mono. lia.
  - split; simpl; try done; [|lia| |exists []; by rewrite app_nil_r].
    + intros Hb i y Hi. stmt_inv Es. simpl in Hi. apply lookup_insert_Some in Hi as [[<- _]|[_ Hi]]; [lia|].
      specialize (Hb _ _ Hi). simpl in Hb. lia.
    + by apply (pgProcessingErrorStore_Save_pres _ _ _ _ Es).
Qed.

Ltac prel_step :=
  lazymatch goal with
  | |- ∀ _, _ => intros ?
  | |- ARel _ (aexec _) =>
      apply prel_aexec; [intros ?d ?d' ?H; stmt_inv H; reflexivity|solve [auto 1 with astmt nocore]]
  | |- ARel _ (saveError _) => apply prel_saveError
  | |- ARel _ (awrapf _ _ _) => apply ARel_wrapf
  | |- ARel _ (_ ≫= _) => apply ARel_bind; [apply _| |]
  | |- ARel _ (if ?b then _ else _) => destruct b
  | |- ARel _ (match ?x with _ => _ end) => destruct x
  | |- ARel _ (let _ := _ in _) => cbv zeta
  | |- ARel _ (Route _ _ _ _ _) => by apply hrel_prel, hrel_Route
  | |- ARel _ _ => apply hrel_prel; solve [solve_hrel]
  end.

Lemma prel_processEvent ctx x : ARel prel (processEvent router ctx x).
Proof using Hrouter. unfold processEvent, nil_packet. repeat prel_step. Qed.
Lemma prel_recordFailure eid cause : ARel prel (recordFailure eid cause).
Proof. unfold recordFailure, nil_packet, ComputeNextRetryAt. repeat prel_step. Qed.
Lemma prel_persistPacket i t n : ARel prel (persistPacket i t n).
Proof. unfold persistPacket. repeat prel_step. Qed.
End event.

(** ** One tick *)

(** Audit rows added to the core by a commit of the connector. *)
Definition audit_add (d d' : DB) : Prop :=
  ∃ t, keyed AuditEvent_ID t ∧ d' = set_audit_events (t ∪ t_audit_events d) d.

(** The core moves by calls of its service and by audit rows added. *)
Definition core_moves `{Env} : relation DB := rtc (λ d d', core_step d d' ∨ audit_add d d').
#[export] Instance core_moves_preorder `{Env} : PreOrder core_moves.
Proof. unfold core_moves. apply _. Qed.

Lemma core_evolves_moves `{Env} d d' : core_evolves d d' → core_moves d d'.
Proof. intros Hr. induction Hr; [done|]. eapply rtc_l; [by left|done]. Qed.

(** What a transaction of the connector does to the rest of the system. *)
Record outer `{Env} (w w' : AWorld) : Prop := {
  o_core : core_moves (core_db w) (core_db w');
  o_replies : ∃ l, a_replies w' = a_replies w ++ l;
  o_errors : errors_below (a_seq w) (a_db w) → errors_below (a_seq w') (a_db w');
  o_integrity : amie_integrity (a_db w) → amie_integrity (a_db w') }.
#[export] Instance outer_preorder `{Env} : PreOrder outer.
Proof.
  split.
  - intros w. split; try done. exists []. by rewrite app_nil_r.
  - intros w1 w2 w3 [q1 [l1 q2] q3 q3'] [q4 [l2 q5] q6 q6']. split; [by etrans| |eauto..].
    exists (l1 ++ l2). by rewrite q5, q2, app_assoc.
Qed.

Section tick.
Context `{E : Env} `{AE : AmieEnv} (router : Router) (Hrouter : router_ok router).

Lemma outer_commit w w1 : prel (atx_begin w) w1 → outer w (atx_commit w1).
Proof.
  intros [H1 H6 H7 H2 H3 H4 H5]. simpl in *. split; [|done|done|by intros ?%H2].
  simpl. etrans; [by apply core_evolves_moves|]. apply rtc_once. right.
  exists (a_txaudit w1). split; [|done]. apply H3. apply map_Forall_empty.
Qed.

Lemma outer_TxFn {A} (m : AM A) : ARel prel m → ARel outer (TxFn m).
Proof.
  intros Hm w. specialize (Hm (atx_begin w)).
  destruct (TxFn m w) as [[a|e] w'] eqn:H; simpl.
  - apply TxFn_Ok in H as (w1 & H & ->). rewrite H in Hm. by apply outer_commit.
  - apply TxFn_Err in H as [->|[(r & w1 & H & ->)|(_ & a & w1 & H & ->)]].
    + split; [reflexivity| |done|done]. exists []. by rewrite app_nil_r.
    + rewrite H in Hm. destruct Hm as [H1 H6 H7 H2 H3 H4 H5]. simpl in *.
      split; simpl; [by apply core_evolves_moves|done|rewrite H1; by apply errors_below_mono|by rewrite H1].
    + rewrite H in Hm. by apply outer_commit.
Qed.

(** A transaction leaves the connector's tables as they were, or commits what its
    body did; a failed one commits only when the answer was lost. *)
Lemma TxFn_db {A} (m : AM A) w r w' :
  ARel prel m → TxFn m w = (r, w') →
  (∃ e, r = Err e) ∧ a_db w' = a_db w ∨
  ((∃ a, r = Ok a) ∨ some_lost) ∧ ∃ a w1, m (atx_begin w) = (Ok a, w1) ∧ w' = atx_commit w1.
Proof.
  intros Hm H. destruct r as [a|e].
  - apply TxFn_Ok in H as (w1 & H & ->). right. eauto 7.
  - apply TxFn_Err in H as [->|[(r & w1 & H & ->)|(Hl & a & w1 & H & ->)]]; [left; eauto| |right; eauto 7].
    left. split; [eauto|]. specialize (Hm (atx_begin w)). rewrite H in Hm. by destruct Hm as [H1 _ _ _ _ _ _].
Qed.

Lemma Start_db ctx w c w' : Start ctx w = (c, w') → a_db w' = a_db w.
Proof. intros H. pose proof (hrel_Start ctx w) as Hh. rewrite H in Hh. by destruct Hh. Qed.

Lemma outer_hrel {A} (m : AM A) : ARel hrel m → ARel outer m.
Proof.
  apply ARel_mono. intros w w' Hh. split; [by apply core_evolves_moves, Hh|apply Hh|..];
    by rewrite (h_db _ _ Hh), ?(h_seq _ _ Hh).
Qed.

Lemma outer_execute x : ARel outer (executeInTransaction router x).
Proof using Hrouter.
  unfold executeInTransaction. apply ARel_bind; [apply _| |intros c].
  - apply outer_hrel, hrel_Start.
  - by apply outer_TxFn, prel_processEvent.
Qed.

Lemma outer_handle_due x : ARel outer (handle_due_event router x).
Proof using Hrouter.
  unfold handle_due_event. apply ARel_bind; [apply _| |].
  - apply ARel_catch, outer_execute.
  - intros [?|e]; [apply ARel_ret, _|]. apply ARel_bind; [apply _| |intros ?; apply ARel_ret, _].
    apply ARel_catch, outer_TxFn, prel_recordFailure.
Qed.

(** An attempt that is committed. *)
Lemma attempt_committed ctx x w w' :
  amie_inv (a_db w) → current (a_db w) x → processEvent router ctx x (atx_begin w) = (Ok tt, w') →
  progress (PEvent_ID (EWP_Event x)) (a_db w) (a_tx w') ∧
  has_phase (a_tx w') (PEvent_ID (EWP_Event x)) (Done (PEvent_Attempts (EWP_Event x) + 1)).
Proof using Hrouter.
  intros HI Hc H. destruct Hc as (He & Hwp & Hpend). pose proof (i_integrity _ HI) as HI'.
  apply processEvent_tx in H as (p & t1 & t2 & t3 & Hp & Hev & Hpk); simpl in *;
    [|done..|apply HI'|done].
  destruct (i_phase _ HI _ _ He) as [Hty [ph (e0 & p0 & He0 & Hp0 & Hin)]]. simplify_eq.
  pose proof (pending_waiting _ _ _ Hin Hpend) as ->. pose proof (waiting_bounds _ _ _ Hin) as Hb.
  assert (in_phase (succeeded_event t2 (running_event t1 (EWP_Event x))) (decoded_packet t3 p)
    (Done (PEvent_Attempts (EWP_Event x) + 1))) as Hin'.
  { apply in_done; simpl; try done. lia. }
  split.
  - eapply progress_move; try done. left. apply attempt_succeeds.
  - exists (succeeded_event t2 (running_event t1 (EWP_Event x))), (decoded_packet t3 p).
    rewrite Hev, Hpk. simpl. by rewrite !lookup_insert_eq.
Qed.

(** An attempt is rolled back when it fails, unless the answer was lost. *)
Lemma execute_db x w r w' :
  amie_inv (a_db w) → current (a_db w) x → executeInTransaction router x w = (r, w') →
  (∃ e, r = Err e) ∧ a_db w' = a_db w ∨
  ((∃ a, r = Ok a) ∨ some_lost) ∧ progress (PEvent_ID (EWP_Event x)) (a_db w) (a_db w') ∧
  has_phase (a_db w') (PEvent_ID (EWP_Event x)) (Done (PEvent_Attempts (EWP_Event x) + 1)).
Proof using Hrouter.
  intros HI Hc H. unfold executeInTransaction, mbind, AM_bind in H.
  destruct (Start Background w) as [[c|?] w1] eqn:Hs; pose proof (Start_db _ _ _ _ Hs) as Hd.
  2:{ injection H as <- <-. left. eauto. }
  apply TxFn_db in H as [[? Hdb]|(Hr & [] & w2 & H & ->)]; [|right|by apply prel_processEvent].
  - left. split; [done|]. congruence.
  - rewrite <- Hd in Hc, HI |- *. split; [done|]. by eapply attempt_committed.
Qed.

(** A failure that is committed: the event waits again or is abandoned, according
    to the attempts its row counted. *)
Lemma record_committed eid cause e p ph w w' :
  amie_integrity (a_db w) → t_events (a_db w) !! eid = Some e → t_packets (a_db w) !! PEvent_PacketID e = Some p →
  in_phase e p ph → ph = Waiting (PEvent_Attempts e) ∨ some_lost ∧ ph = Done (PEvent_Attempts e) →
  recordFailure eid cause (atx_begin w) = (Ok tt, w') →
  ∃ e' p', t_events (a_tx w') = <[eid := e']> (t_events (a_db w)) ∧
    t_packets (a_tx w') = <[PEvent_PacketID e := p']> (t_packets (a_db w)) ∧
    PEvent_PacketID e' = PEvent_PacketID e ∧ PEvent_Type e' = PEvent_Type e ∧
    Packet_Type p' = Packet_Type p ∧ Packet_AmieID p' = Packet_AmieID p ∧ Packet_RawJSON p' = Packet_RawJSON p ∧
    in_phase e' p' (if decide (PEvent_Attempts e + 1 < MaxAttempts)%Z
                    then Waiting (PEvent_Attempts e + 1) else Abandoned).
Proof.
  intros HI He Hp Hin Hph H.
  apply recordFailure_tx with (e := e) in H as (p0 & t & Hp0 & Heq); [|done..]. simpl in *. simplify_eq.
  case_decide as Hlt; injection Heq as Hev Hpk; eexists _, _; split_and!; try done.
  - inversion Hin as [Hs Ha ? Hq|n t' Hs Ha ? ? Hq|t' Hl Hs Ha ? Hq|n Hs Ha Hb ? Hq|Hs]; subst;
      destruct Hph as [Hw|[Hl' Hw]]; try discriminate Hw; try (eapply in_retry; simpl; try done; lia).
    assert (PEvent_Attempts e + 1 = MaxAttempts - 1)%Z as Hm by (unfold MaxAttempts in *; lia).
    rewrite Hm. by eapply in_reopened.
  - apply in_abandoned; simpl; try done.
    inversion Hin as [Hs Ha ? Hq|n t' Hs Ha Hb ? Hq|t' Hl Hs Ha ? Hq|n Hs Ha Hb ? Hq|Hs]; subst;
      destruct Hph as [Hw|[Hl' Hw]]; try discriminate Hw; unfold MaxAttempts in *; try lia.
    destruct (decide (PEvent_Attempts e = 2)%Z) as [Heq|]; [left; lia|right; split; [done|lia]].
Qed.

Lemma record_db eid cause e p ph w r w' :
  amie_inv (a_db w) → t_events (a_db w) !! eid = Some e → t_packets (a_db w) !! PEvent_PacketID e = Some p →
  in_phase e p ph → ph = Waiting (PEvent_Attempts e) ∨ some_lost ∧ ph = Done (PEvent_Attempts e) →
  recordFailureInNewTransaction eid cause w = (r, w') →
  (∃ x, r = Err x) ∧ a_db w' = a_db w ∨
  ∃ e' p', t_events (a_db w') = <[eid := e']> (t_events (a_db w)) ∧
    t_packets (a_db w') = <[PEvent_PacketID e := p']> (t_packets (a_db w)) ∧
    PEvent_PacketID e' = PEvent_PacketID e ∧ PEvent_Type e' = PEvent_Type e ∧
    Packet_Type p' = Packet_Type p ∧ Packet_AmieID p' = Packet_AmieID p ∧ Packet_RawJSON p' = Packet_RawJSON p ∧
    in_phase e' p' (if decide (PEvent_Attempts e + 1 < MaxAttempts)%Z
                    then Waiting (PEvent_Attempts e + 1) else Abandoned).
Proof.
  intros HI He Hp Hin Hph H. unfold recordFailureInNewTransaction in H.
  apply TxFn_db in H as [?|(_ & [] & w2 & H & ->)]; [by left|right|apply prel_recordFailure].
  by eapply record_committed; [apply HI|..].
Qed.

(** A failure of a waiting event that is recorded. *)
Lemma record_Ok eid cause e w w' :
  amie_inv (a_db w) → t_events (a_db w) !! eid = Some e → pending e →
  recordFailureInNewTransaction eid cause w = (Ok tt, w') →
  ∃ ph, has_phase (a_db w') eid ph ∧
    ph = (if decide (PEvent_Attempts e + 1 < MaxAttempts)%Z then Waiting (PEvent_Attempts e + 1) else Abandoned).
Proof.
  intros HI He Hpend H. destruct (i_phase _ HI _ _ He) as [_ [ph (e0 & p & He0 & Hp & Hin)]]. simplify_eq.
  pose proof (pending_waiting _ _ _ Hin Hpend) as Hw.
  eapply record_db in H as [[[x ?] _]|(e' & p' & Hev & Hpk & Hid & _ & _ & _ & _ & Hin')]; [done| |done..|by left].
  eexists. split; [|reflexivity]. exists e', p'. rewrite Hev, Hpk, lookup_insert_eq. split; [done|].
  by rewrite Hid, lookup_insert_eq.
Qed.

(** Recording the failure of an attempt that was rolled back, and of one that was
    committed. *)
Lemma record_progress eid cause e w w' r :
  amie_inv (a_db w) → t_events (a_db w) !! eid = Some e → pending e →
  recordFailureInNewTransaction eid cause w = (r, w') → progress eid (a_db w) (a_db w').
Proof.
  intros HI He Hpend H. destruct (i_phase _ HI _ _ He) as [_ [ph (e0 & p & He0 & Hp & Hin)]]. simplify_eq.
  pose proof (pending_waiting _ _ _ Hin Hpend) as ->.
  eapply record_db in H as [[_ ->]|(e' & p' & Hev & Hpk & ? & ? & ? & ? & ? & Hin')]; [by apply progress_none| |done..|by left].
  eapply progress_move; try done. left. case_decide; [by apply attempt_fails|apply attempt_last; lia].
Qed.

Lemma relapse_progress eid cause n d w w' r :
  some_lost → amie_inv d → amie_inv (a_db w) → has_phase d eid (Waiting n) →
  progress eid d (a_db w) → has_phase (a_db w) eid (Done (n + 1)) →
  recordFailureInNewTransaction eid cause w = (r, w') → progress eid d (a_db w').
Proof.
  intros Hl Hd HI (e0 & p0 & He0 & Hp0 & Hin0) Hpr (e & p & He & Hp & Hin) H.
  assert (PEvent_Attempts e = (n + 1)%Z) as Ha by by inversion Hin.
  eapply record_db in H as [[_ ->]|(e' & p' & Hev & Hpk & Hid & Hty & Hpt & Hpa & Hpr' & Hin')];
    [done| |done..|right; split; [done|by rewrite Ha]].
  destruct Hpr as [Hev0 Hpk0|e1 e2 p1 p2 ph1 ph2 He1 Hp1 Hev0 Hpk0 Hid0 Hty0 Hpt0 Hpa0 Hpr0 _ _ _].
  { rewrite Hev0 in He. rewrite Hpk0 in Hp. simplify_eq.
    pose proof (in_phase_unique _ _ _ _ Hin0 Hin) as [=]. }
  rewrite Hev0, lookup_insert_eq in He. simplify_eq. rewrite Hid0, Hpk0, lookup_insert_eq in Hp. simplify_eq.
  rewrite Hev0, insert_insert_eq in Hev. rewrite Hpk0, Hid0, insert_insert_eq in Hpk.
  rewrite Ha in Hin'. replace (n + 1 + 1)%Z with (n + 2)%Z in Hin' by lia.
  eapply (progress_move _ _ _ e0 e' p0 p' (Waiting n)); try done; try congruence.
  right. split; [done|].
  destruct (decide (n + 2 < MaxAttempts)%Z); [by apply relapse_again|apply relapse_last; lia].
Qed.

Lemma handle_due_progress x w :
  amie_inv (a_db w) → current (a_db w) x →
  progress (PEvent_ID (EWP_Event x)) (a_db w) (a_db (handle_due_event router x w).2).
Proof using Hrouter.
  intros HI Hc. unfold handle_due_event, mbind, AM_bind, acatch.
  pose proof (o_integrity _ _ (outer_execute x w) (i_integrity _ HI)) as HI1.
  destruct (executeInTransaction router x w) as [res w1] eqn:Hx; simpl in HI1.
  apply execute_db in Hx as [[[e ->] Hd]|(Hr & Hpr & Hdone)]; [| |done..].
  - destruct (recordFailureInNewTransaction _ e w1) as [r w2] eqn:Hr; simpl.
    destruct Hc as (He & _ & Hp). rewrite <- Hd in HI, He |- *. by eapply record_progress.
  - destruct res as [[]|e]; simpl; [done|]. destruct Hr as [[a ?]|Hl]; [done|].
    destruct (recordFailureInNewTransaction _ e w1) as [r w2] eqn:Hr; simpl.
    pose proof (progress_inv _ _ _ HI HI1 Hpr) as HIv1. destruct Hc as (He & _ & Hp).
    destruct (i_phase _ HI _ _ He) as [_ [ph (e0 & p & He0 & Hpk & Hin)]]. simplify_eq.
    pose proof (pending_waiting _ _ _ Hin Hp) as ->. eapply relapse_progress; try done. by eexists _, _.
Qed.
End tick.
