(* ===== verification/AmieTheorems.v ===== *)
(** * AMIE: the connector in operation

    Over any interleaving of polls, processing passes and requests to the core,
    with any faults of the database and of the AMIE API: every packet is stored
    once and has one event, the events follow the machine of AmieMachine, what
    is finished stays as it is unless the answer of a COMMIT was lost, and the
    core database keeps its constraints. *)

From stdpp Require Import base gmap sets list strings.
From Stdlib Require Import ZArith Lia.
From S2P Require Import Prelude GoError Models Schema Events IdentityCache Effects EffectsLogic Wire StoreAuth.
From S2P Require Import UserService AuthService ServiceApi ProjectTheorems Posix AmieStore AmieEffects.
From S2P Require Import AmieHandlers AmieDispatch AmieWorker AmieFacts AmieMachine.

(** The events of a table stay, each moved at most once; what is new waits for
    its first attempt. *)
Record phases_step `{Env} (d d' : AmieDB) : Prop := {
  ps_old j ph : has_phase d j ph → ∃ ph', has_phase d' j ph' ∧ (ph' = ph ∨ move ph ph');
  ps_new j ph' : has_phase d' j ph' → t_events d !! j = None → ph' = Waiting 0 }.

(** ** The events a pass reads *)

Lemma select_rows_NoDup_pk {R} (pk : R → string) P `{!∀ r, Decision (P r)} (t : gmap string R) :
  keyed pk t → NoDup (pk <$> select_rows P t).
Proof.
  intros Hk. unfold select_rows.
  assert (pk <$> (map_to_list t).*2 = (map_to_list t).*1) as Heq.
  { rewrite <- list_fmap_compose. apply list_fmap_ext. intros i [k r] Hi. simpl.
    apply Hk, elem_of_map_to_list. by eapply list_elem_of_lookup_2. }
  eapply sublist_NoDup; [|apply fmap_sublist, sublist_filter].
  rewrite Heq. apply NoDup_fst_map_to_list.
Qed.

Lemma omap_with_packet_ids d l :
  (λ x, PEvent_ID (EWP_Event x)) <$> omap (with_packet d) l `sublist_of` PEvent_ID <$> l.
Proof.
  induction l as [|e l IH]; simpl; [done|]. destruct (with_packet d e) as [x|] eqn:Hx; simpl.
  - unfold with_packet in Hx. destruct (t_packets d !! _); simplify_eq/=. by apply sublist_skip.
  - by apply sublist_cons.
Qed.

Lemma with_packet_event d e x : with_packet d e = Some x → EWP_Event x = e.
Proof. unfold with_packet. destruct (t_packets d !! _); intros; by simplify_eq/=. Qed.

(** What a pass reads is a row that is due, with its packet. *)
Lemma top50_inv sts now d x :
  x ∈ pgEventStore_FindTop50EventsToProcess sts now d →
  with_packet d (EWP_Event x) = Some x ∧ due sts now (EWP_Event x) ∧ ∃ k, t_events d !! k = Some (EWP_Event x).
Proof.
  intros Hx. unfold pgEventStore_FindTop50EventsToProcess in Hx.
  eapply elem_of_take in Hx as (i & Hi & _). apply list_elem_of_lookup_2 in Hi.
  rewrite elem_of_order_by, list_elem_of_omap in Hi. destruct Hi as (e & He & Hwp).
  apply elem_of_select_rows in He as [Hdue [k Hk]]. pose proof (with_packet_event _ _ _ Hwp) as <-. eauto.
Qed.

Lemma top50_current now d x :
  amie_integrity d →
  x ∈ pgEventStore_FindTop50EventsToProcess [ProcessingStatusNew; ProcessingStatusRetryScheduled] now d →
  current d x.
Proof.
  intros HI (Hwp & [Hst _] & k & Hk)%top50_inv. pose proof (pk_events _ HI _ _ Hk) as <-.
  split; [done|]. split; [done|]. rewrite elem_of_cons, list_elem_of_singleton in Hst. done.
Qed.

Lemma top50_NoDup sts now d :
  amie_integrity d →
  NoDup ((λ x, PEvent_ID (EWP_Event x)) <$> pgEventStore_FindTop50EventsToProcess sts now d).
Proof.
  intros HI. unfold pgEventStore_FindTop50EventsToProcess.
  eapply sublist_NoDup; [|apply fmap_sublist, sublist_take].
  rewrite order_by_Permutation. eapply sublist_NoDup; [|apply omap_with_packet_ids].
  apply select_rows_NoDup_pk, HI.
Qed.

(** ** A pass of the processor *)

(** The rows of the other events are left alone. *)
Lemma progress_current `{Env} eid d d' x :
  amie_inv d → progress eid d d' → PEvent_ID (EWP_Event x) ≠ eid → current d x → current d' x.
Proof.
  intros HI Hpr Hne (He & Hwp & Hp).
  destruct Hpr as [Hev Hpk|e e' p p' ph1 ph2 Hee Hpp Hev Hpk Hid Hty Hpt Hpa Hpr].
  - split; [by rewrite Hev|]. split; [|done]. unfold with_packet in *. by rewrite Hpk.
  - split; [by rewrite Hev, lookup_insert_ne|]. split; [|done]. unfold with_packet in *.
    rewrite Hpk, lookup_insert_ne; [done|]. by eapply events_packets_ne.
Qed.

Section pass.
Context `{E : Env} `{AE : AmieEnv} (router : Router) (Hrouter : router_ok router).

(** The events processed move by at most one attempt, the others not at all. *)
Lemma each_due_phases xs w :
  amie_inv (a_db w) → (∀ x, x ∈ xs → current (a_db w) x) →
  NoDup ((λ x, PEvent_ID (EWP_Event x)) <$> xs) →
  let w' := (aeach (handle_due_event router) xs w).2 in
  amie_inv (a_db w') ∧ dom (t_events (a_db w')) = dom (t_events (a_db w)) ∧
  (∀ j ph, has_phase (a_db w) j ph → ∃ ph', has_phase (a_db w') j ph' ∧
     (ph' = ph ∨ (j ∈ (λ x, PEvent_ID (EWP_Event x)) <$> xs) ∧ move ph ph')).
Proof using Hrouter.
  revert w. induction xs as [|x xs IH]; intros w HI Hc Hnd; simpl.
  { split; [done|]. split; [done|]. eauto. }
  apply NoDup_cons in Hnd as [Hx Hnd].
  pose proof (handle_due_progress router Hrouter x w HI (Hc x ltac:(by left))) as Hpr.
  pose proof (o_integrity _ _ (outer_handle_due router Hrouter x w) (i_integrity _ HI)) as HI1.
  assert (∃ w1, handle_due_event router x w = (Ok tt, w1)) as [w1 Hw1].
  { unfold handle_due_event, mbind, AM_bind, acatch. destruct (executeInTransaction _ _ _) as [[]]; [by eexists|].
    destruct (recordFailureInNewTransaction _ _ _). by eexists. }
  unfold mbind, AM_bind. rewrite Hw1 in *. simpl in *.
  pose proof (progress_inv _ _ _ HI HI1 Hpr) as HIv1.
  destruct (IH w1) as (HI2 & Hdom & Hph); [done| |done|].
  { intros y Hy. eapply progress_current; [exact HI|exact Hpr| |apply Hc; by right].
    intros Heq. apply Hx. rewrite <- Heq. apply list_elem_of_fmap. eauto. }
  split; [done|]. split.
  - rewrite Hdom. destruct Hpr as [->|e e' p p' ph1 ph2 He _ Hev]; [done|]. rewrite Hev, dom_insert_L.
    apply subseteq_union_1_L, singleton_subseteq_l. by eapply elem_of_dom_2.
  - intros j ph Hj. destruct (progress_phase _ _ _ _ _ HI Hpr Hj) as (ph1 & Hj1 & [->|[-> Ha]]).
    + destruct (Hph _ _ Hj1) as (ph2 & Hj2 & Hor). exists ph2. split; [done|].
      destruct Hor as [?|[? ?]]; [by left|right]. split; [by right|done].
    + destruct (Hph _ _ Hj1) as (ph2 & Hj2 & [->|[? ?]]); [|by destruct Hx].
      exists ph1. split; [done|]. right. split; [by left|done].
Qed.

Lemma pass_phases w :
  amie_inv (a_db w) →
  let w' := (processPendingEvents router w).2 in
  amie_inv (a_db w') ∧ phases_step (a_db w) (a_db w').
Proof using Hrouter.
  intros HI. assert (amie_inv (a_db w) ∧ phases_step (a_db w) (a_db w)) as Hid.
  { split; [done|]. split; [eauto|]. intros j ph' (e & p & He & _) Hn. congruence. }
  unfold processPendingEvents, mbind, AM_bind, acatch, svc, nowUTC. simpl.
  destruct (aquery _ _) as [[xs|e] w1] eqn:Hq; simpl; [|].
  - apply aquery_Ok in Hq as [-> ->]. simpl.
    match goal with |- context [aeach _ ?xs ?w1] =>
      destruct (each_due_phases xs w1) as (HI' & Hdom & Hph); simpl; [done| | |] end.
    + intros x. apply top50_current, HI.
    + apply top50_NoDup, HI.
    + split; [done|]. split.
      * intros j ph Hj. destruct (Hph j ph Hj) as (ph' & ? & [->|[_ ?]]); eauto.
      * intros j ph' (e & p & He & _) Hn. apply elem_of_dom_2 in He. rewrite Hdom in He.
        by apply not_elem_of_dom in Hn.
  - pose proof (hrel_aquery (pgEventStore_FindTop50EventsToProcess
      [ProcessingStatusNew; ProcessingStatusRetryScheduled] (clock (w_clock (a_core w))))
      (set_core (bump_clock (a_core w)) w)) as Hh.
    rewrite Hq in Hh. apply h_db in Hh. simpl in Hh. by rewrite Hh.
Qed.

Lemma outer_pass : ARel outer (processPendingEvents router).
Proof using Hrouter.
  unfold processPendingEvents. apply ARel_bind; [apply _|apply outer_hrel; solve_hrel|]. intros now.
  apply ARel_bind; [apply _|apply outer_hrel; solve_hrel|]. intros [xs|?]; [|apply ARel_ret, _].
  apply ARel_each; [apply _|]. by apply outer_handle_due.
Qed.
End pass.

(** ** A poll *)

(** Every event keeps its phase; what is new waits for its first attempt. *)
Record phases_kept `{Env} (d d' : AmieDB) : Prop := {
  pk_old j ph : has_phase d j ph → has_phase d' j ph;
  pk_new j ph' : has_phase d' j ph' → t_events d !! j = None → ph' = Waiting 0 }.

Lemma phases_kept_step `{Env} d d' : phases_kept d d' → phases_step d d'.
Proof. intros [H1 H2]. split; [|done]. intros j ph Hj. exists ph. split; [by apply H1|by left]. Qed.

Lemma phases_kept_refl `{Env} d d' :
  t_events d' = t_events d → t_packets d' = t_packets d → phases_kept d d'.
Proof.
  intros He Hp. split.
  - intros j ph (e & p & ?). exists e, p. by rewrite He, Hp.
  - intros j ph (e & p & Hj & _) Hn. rewrite He in Hj. congruence.
Qed.

Lemma phases_kept_trans `{Env} d1 d2 d3 :
  amie_inv d2 → phases_kept d1 d2 → phases_kept d2 d3 → phases_kept d1 d3.
Proof.
  intros HI [H1 H2] [H3 H4]. split; [eauto|]. intros j ph' Hj Hn.
  destruct (t_events d2 !! j) as [e|] eqn:He; [|by eapply H4].
  destruct (i_phase _ HI _ _ He) as [_ [ph Hph]]. pose proof (H2 _ _ Hph Hn) as ->.
  by eapply has_phase_unique; [|apply H3].
Qed.

(** A packet and its event added. *)
Lemma add_packet_inv `{Env} d d' pid eid p e :
  amie_inv d → amie_integrity d' → t_packets d !! pid = None → t_events d !! eid = None →
  t_packets d' = <[pid := p]> (t_packets d) → t_events d' = <[eid := e]> (t_events d) →
  PEvent_PacketID e = pid → PEvent_Type e = EventTypeDecodePacket → in_phase e p (Waiting 0) →
  amie_inv d' ∧ phases_kept d d'.
Proof.
  intros HI HI' Hnp Hne Hpk Hev Hpid Hty Hin.
  assert (∀ j ph, has_phase d j ph → has_phase d' j ph) as Hold.
  { intros j ph (e0 & p0 & He0 & Hp0 & Hin0). exists e0, p0. rewrite Hev, Hpk.
    rewrite lookup_insert_ne by congruence. by rewrite lookup_insert_ne by congruence. }
  assert (has_phase d' eid (Waiting 0)) as Hnew.
  { exists e, p. rewrite Hev, Hpk, Hpid, !lookup_insert_eq. done. }
  split; [split; [done| |]|split; [done|]].
  - intros j e0 He0. rewrite Hev in He0. apply lookup_insert_Some in He0 as [[<- <-]|[_ He0]]; [eauto|].
    destruct (i_phase _ HI _ _ He0) as [? [ph ?]]. eauto.
  - intros q p0 Hp0. rewrite Hpk in Hp0. apply lookup_insert_Some in Hp0 as [[<- <-]|[_ Hp0]].
    + exists eid, e. by rewrite Hev, lookup_insert_eq.
    + destruct (i_packet _ HI _ _ Hp0) as (j & e0 & Hj & Hq). exists j, e0. split; [|done].
      rewrite Hev, lookup_insert_ne; [done|]. congruence.
  - intros j ph' Hj Hn. assert (j = eid) as ->; [|by eapply has_phase_unique].
    destruct Hj as (e0 & p0 & He0 & _). rewrite Hev in He0.
    apply lookup_insert_Some in He0 as [[<- _]|[_ ?]]; [done|congruence].
Qed.

Section poll.
Context `{E : Env} `{AE : AmieEnv}.

Lemma hrel_Fetch : ARel hrel FetchInProgressPackets.
Proof. unfold FetchInProgressPackets. solve_hrel. Qed.

Lemma poll_one_inv node w :
  amie_inv (a_db w) →
  let w' := (processIndividualPacket node w).2 in
  amie_inv (a_db w') ∧ phases_kept (a_db w) (a_db w').
Proof.
  intros HI. assert (∀ w', a_db w' = a_db w → amie_inv (a_db w') ∧ phases_kept (a_db w) (a_db w')) as Hsame.
  { intros w' ->. split; [done|]. by apply phases_kept_refl. }
  unfold processIndividualPacket. case_decide; [by apply Hsame|]. unfold mbind, AM_bind, acatch. simpl.
  destruct (aquery _ w) as [[o|e] w1] eqn:Hq; simpl.
  2:{ pose proof (hrel_aquery (pgPacketStore_FindByAmieID (packet_rec_id node)) w) as Hh. rewrite Hq in Hh.
      apply Hsame, Hh. }
  apply aquery_Ok in Hq as [-> ->]. destruct (pgPacketStore_FindByAmieID _ _); [by apply Hsame|].
  match goal with |- context [TxFn ?m ?w1] =>
    pose proof (o_integrity _ _ (outer_TxFn m (prel_persistPacket _ _ _) w1)) as HI2;
    destruct (TxFn m w1) as [r w2] eqn:Ht; simpl in * end.
  specialize (HI2 (i_integrity _ HI)).
  apply TxFn_db in Ht as [[_ Ht]|(_ & [] & w3 & Ht & ->)]; [by apply Hsame| |apply prel_persistPacket].
  unfold persistPacket in Ht. arun. simpl in *.
  match goal with Q1 : pgPacketStore_Save _ _ = inr _, Q2 : pgEventStore_Save _ _ = inr _ |- _ =>
    stmt_inv Q1; stmt_inv Q2 end. simpl in *.
  eapply add_packet_inv; [done..|]. by apply in_new.
Qed.

Lemma poll_inv w :
  amie_inv (a_db w) →
  let w' := (pollForPackets w).2 in
  amie_inv (a_db w') ∧ phases_kept (a_db w) (a_db w').
Proof.
  intros HI. assert (∀ ns w, amie_inv (a_db w) →
    amie_inv (a_db (aeach processIndividualPacket ns w).2) ∧
    phases_kept (a_db w) (a_db (aeach processIndividualPacket ns w).2)) as Heach.
  { clear w HI. induction ns as [|n ns IH]; intros w HI; simpl; [split; [done|by apply phases_kept_refl]|].
    destruct (poll_one_inv n w HI) as [HI1 Hk1]. unfold mbind, AM_bind.
    destruct (processIndividualPacket n w) as [[[]|e] w1]; simpl in *; [|done].
    destruct (IH w1 HI1) as [HI2 Hk2]. split; [done|]. by apply (phases_kept_trans _ _ _ HI1). }
  cbv zeta. unfold pollForPackets, mbind, AM_bind.
  destruct (FetchInProgressPackets w) as [r w1] eqn:Hf.
  assert (a_db w1 = a_db w) as Hd.
  { pose proof (hrel_Fetch w) as Hh. rewrite Hf in Hh. by destruct Hh. }
  destruct r as [ns|e]; simpl; rewrite <- Hd in HI |- *; [by apply Heach|].
  split; [done|by apply phases_kept_refl].
Qed.

Lemma outer_poll : ARel outer pollForPackets.
Proof.
  unfold pollForPackets. apply ARel_bind; [apply _| |].
  { apply outer_hrel, hrel_Fetch. }
  intros ns. apply ARel_each; [apply _|]. intros n. unfold processIndividualPacket.
  case_decide; [apply ARel_ret, _|]. apply ARel_bind; [apply _|apply outer_hrel; solve_hrel|].
  intros [[?|]|?]; [apply ARel_ret, _| |apply ARel_ret, _].
  apply ARel_bind; [apply _| |intros ?; apply ARel_ret, _].
  apply ARel_catch, outer_TxFn, prel_persistPacket.
Qed.
End poll.

(** ** The system *)

(** A step of the system other than a pass keeps the phases; a pass moves each
    event by at most one attempt. *)
Lemma step_inv `{Env} `{AmieEnv} cl w w' :
  amie_inv (a_db w) → amie_step cl w w' → amie_inv (a_db w') ∧ phases_step (a_db w) (a_db w').
Proof.
  intros HI Hs. destruct Hs as [| |r].
  - destruct (poll_inv w HI). split; [done|by apply phases_kept_step].
  - apply pass_phases; [apply dispatcher_ok|done].
  - assert (t_events (a_db (cascade_extras (svc (serve r) w).2)) = t_events (a_db w) ∧
            t_packets (a_db (cascade_extras (svc (serve r) w).2)) = t_packets (a_db w)) as [He Hp].
    { unfold svc. by destruct (serve r (a_core w)). }
    split; [|by apply phases_kept_step, phases_kept_refl]. split.
    + destruct HI as [HI _ _]. unfold svc. destruct (serve r (a_core w)) as [? c]. simpl.
      destruct HI. split; cbn; try assumption; repeat table_step.
    + intros j e Hj. rewrite He in Hj. destruct (i_phase _ HI _ _ Hj) as [? [ph (e0 & p0 & ? & ? & ?)]].
      split; [done|]. exists ph, e0, p0. by rewrite He, Hp.
    + intros q p Hq. rewrite Hp in Hq. rewrite He. exact (i_packet _ HI _ _ Hq).
Qed.

Lemma reachable_inv `{Env} `{AmieEnv} cl w0 w :
  amie_inv (a_db w0) → amie_reachable cl w0 w → amie_inv (a_db w).
Proof.
  intros HI Hr. induction Hr as [|w w' _ IH Hs]; [done|]. by destruct (step_inv _ _ _ IH Hs).
Qed.

Lemma init_inv `{Env} c : amie_inv (a_db (init_amie c)).
Proof. split; [apply empty_amie_integrity|..]; intros; by simplify_map_eq. Qed.

(** No move leaves a finished phase. *)
Definition finished (ph : Phase) : Prop := match ph with Waiting _ => False | _ => True end.
Lemma phases_finished `{Env} d d' j ph :
  phases_step d d' → finished ph → has_phase d j ph → has_phase d' j ph.
Proof.
  intros Hs Hf Hj. destruct (ps_old _ _ Hs j ph Hj) as (ph' & Hj' & [->|Ha]); [done|].
  by destruct Ha as [Ha|[_ Ha]]; destruct Ha.
Qed.

(** The core keeps what its operations keep and audit rows do not touch. *)
Lemma core_moves_pres `{Env} (P : DB → Prop) :
  (∀ r w, P (w_db w) → P (w_db (serve r w).2)) → (∀ d d', audit_add d d' → P d → P d') →
  ∀ d d', core_moves d d' → P d → P d'.
Proof.
  intros HP HA d d' Hr. induction Hr as [|d1 d2 d3 [(w & r & <- & <-)|Ha] _ IH]; eauto.
Qed.

Lemma audit_add_integrity d d' : audit_add d d' → integrity d → integrity d'.
Proof.
  intros (t & Ht & ->) HI. destruct HI. split; cbn; try assumption.
  intros k e [Hk|[_ Hk]]%lookup_union_Some_raw; [by apply Ht|by apply pk_audit_events].
Qed.

(** The constraints and the single PI, together. *)
Definition core_ok (d : DB) : Prop := integrity d ∧ one_pi d.

Lemma core_moves_ok `{Env} d d' : core_moves d d' → core_ok d → core_ok d'.
Proof.
  apply core_moves_pres.
  - intros r w [HI H1]. split; [by apply serve_integrity|by apply serve_one_pi].
  - intros d1 d2 Ha [HI H1]. split; [by eapply audit_add_integrity|]. by destruct Ha as (t & _ & ->).
Qed.

Lemma step_core_moves `{Env} `{AmieEnv} cl w w' :
  amie_step cl w w' → core_moves (core_db w) (core_db w').
Proof.
  destruct 1 as [| |r].
  - apply (outer_poll w).
  - apply (outer_pass _ (dispatcher_ok cl) w).
  - unfold svc. destruct (serve r (a_core w)) as [? c] eqn:Hr. simpl. unfold core_db; simpl.
    apply rtc_once. left. exists (a_core w), r. by rewrite Hr.
Qed.

Section theorems.
Context `{E : Env} `{AE : AmieEnv}.

(** C29: whatever AMIE lists and in whatever order polls, passes and requests to
    the core come, whichever round trips fail, each AMIE packet is stored once, it
    has exactly one event, and the rows of the two agree on a phase of the
    packet's life: waiting after 0, 1 or 2 counted failures, with the packet NEW;
    done after at most three attempts, with the packet DECODED; or abandoned after
    three, with the packet FAILED. When the answer of some COMMIT is lost, and only
    then, there are two more combinations: an event scheduled again although its
    packet is DECODED, and an abandoned one that counts four attempts. In
    particular RUNNING is never committed. *)
Theorem packets_stored_once cl c w i p :
  amie_reachable cl (init_amie c) w → t_packets (a_db w) !! i = Some p →
  (∀ j q, t_packets (a_db w) !! j = Some q → Packet_AmieID q = Packet_AmieID p → j = i) ∧
  ∃ eid e ph, t_events (a_db w) !! eid = Some e ∧ PEvent_PacketID e = i ∧ in_phase e p ph ∧
    ∀ eid' e', t_events (a_db w) !! eid' = Some e' → PEvent_PacketID e' = i → eid' = eid.
Proof.
  intros Hr Hp. pose proof (reachable_inv _ _ _ (init_inv c) Hr) as HI. pose proof (i_integrity _ HI) as HC.
  split.
  - intros j q Hq Heq. eapply (u_packets_amie_id _ HC); [done..| |]; unfold uq_amie_packets_amie_id; by f_equal.
  - destruct (i_packet _ HI _ _ Hp) as (eid & e & He & Hpid).
    destruct (i_phase _ HI _ _ He) as [_ [ph (e0 & p0 & He0 & Hp0 & Hin)]]. simplify_eq.
    exists eid, e, ph. repeat split; try done. intros eid' e' He' Hpid'.
    destruct (decide (eid' = eid)); [done|]. by destruct (events_packets_ne _ _ _ _ _ HI He' He).
Qed.

(** C28: the poller and the processor refine the machine of attempts: in one step of
    the system every event keeps its phase or makes one attempt, no event
    disappears, and a new one waits for its first attempt. One more move exists,
    only when the answer of some COMMIT is lost: the attempt was committed, its
    failure is recorded all the same, and so the event that was done waits again
    with two attempts counted, or is abandoned. *)
Theorem events_follow_machine cl w w' :
  amie_inv (a_db w) → amie_step cl w w' →
  (∀ j ph, has_phase (a_db w) j ph →
     ∃ ph', has_phase (a_db w') j ph' ∧ (ph' = ph ∨ attempt ph ph' ∨ some_lost ∧ relapse ph ph')) ∧
  (∀ j ph', has_phase (a_db w') j ph' → t_events (a_db w) !! j = None → ph' = Waiting 0).
Proof. intros HI Hs. destruct (step_inv _ _ _ HI Hs) as [_ [H1 H2]]. done. Qed.

(** An event that a pass left done or abandoned is never attempted again: it is in
    the same phase in every later state. *)
Theorem finished_events_stay cl w w' j ph :
  amie_inv (a_db w) → has_phase (a_db w) j ph → finished ph → amie_reachable cl w w' →
  has_phase (a_db w') j ph.
Proof.
  intros HI Hj Hf Hr. induction Hr as [|w1 w2 Hr IH Hs]; [done|].
  pose proof (reachable_inv _ _ _ HI Hr) as HI1. destruct (step_inv _ _ _ HI1 Hs) as [_ Hst].
  by eapply phases_finished.
Qed.

(** The connector changes the core only through the operations of the service
    and by adding audit rows, so whatever packets arrive the constraints of the
    core database hold and a project has at most one PI, in every reachable
    state. *)
Theorem amie_keeps_core_ok cl w0 w :
  integrity (core_db w0) → one_pi (core_db w0) → amie_reachable cl w0 w →
  integrity (core_db w) ∧ one_pi (core_db w).
Proof.
  intros HI H1 Hr. induction Hr as [|w w' _ IH Hs]; [done|].
  by apply (core_moves_ok (core_db w)); [eapply step_core_moves|].
Qed.

(** An attempt that fails, wherever it fails, leaves the tables of the connector
    as they were, and the core only as the operations it had already called left
    it: the audit rows of the attempt are gone. The answers of COMMITs must not be
    lost. *)
Theorem failed_attempt_rolled_back `{!NoLost} cl x w e w' :
  executeInTransaction (dispatcher cl) x w = (Err e, w') →
  a_db w' = a_db w ∧ core_evolves (core_db w) (core_db w').
Proof.
  intros He. unfold executeInTransaction, mbind, AM_bind in He. pose proof (hrel_Start Background w) as Hs.
  destruct (Start Background w) as [[ctx|?] w1] eqn:HS; simpl in *; [|injection He as _ <-; split; apply Hs].
  pose proof (prel_processEvent _ (dispatcher_ok cl) ctx x (atx_begin w1)) as Hp.
  apply TxFn_Err in He as [->|[(r & w2 & He & ->)|[[]%no_some_lost _]]]; [split; apply Hs|].
  rewrite He in Hp. split; [exact (eq_trans (p_db _ _ Hp) (h_db _ _ Hs))|]. simpl in Hp.
  etrans; [apply Hs|]. apply Hp.
Qed.
End theorems.

(** * AMIE: retries make progress

    Without database faults an event that is due always makes an attempt: it is
    done, or the failure is recorded and counted. With the bound on attempts
    this ends every event after three passes that select it. Between attempts it
    waits at least the backoff. *)

(** The text of a failure can be stored, whole and cut at 8000 bytes. *)
Definition storable (cause : error) : Prop :=
  valid_text (Error cause) = true ∧ valid_text (error_detail (Error cause)) = true.

Lemma backoff_table :
  Forall (λ n, backoff_seconds n = Z.min 600 (30 * 2 ^ Z.max 0 (n - 1)))%Z (seqZ 0 60).
Proof. refine (bool_decide_unpack _ _). vm_compute. exact I. Qed.

(** The delay doubles from 30 seconds up to 600, without wrapping around. *)
Lemma backoff_exact n : (0 <= n < 60)%Z → backoff_seconds n = Z.min 600 (30 * 2 ^ Z.max 0 (n - 1)).
Proof.
  intros Hn. pose proof backoff_table as Ht. rewrite Forall_forall in Ht. apply Ht.
  apply elem_of_seqZ. lia.
Qed.

(** ** Recording without faults *)

Lemma update_packet_runs p old d :
  t_packets d !! Packet_ID p = Some old → type_fits p → char_length (Packet_Status p) ≤ 32 →
  text_ok (Packet_LastError p) →
  pgPacketStore_Update p d = inr (set_packets (<[Packet_ID p := updated_packet p old]> (t_packets d)) d).
Proof.
  intros Ho [Ht Hv] Hs Hl. unfold pgPacketStore_Update. rewrite Ho.
  rewrite decide_True by (repeat apply Forall_cons_2; try done; by apply Forall_nil_2).
  by rewrite decide_True.
Qed.

Lemma update_event_runs e old d :
  t_events d !! PEvent_ID e = Some old → char_length (PEvent_Status e) ≤ 32 → text_ok (PEvent_LastError e) →
  pgEventStore_Update e d = inr (set_events (<[PEvent_ID e := updated_event e old]> (t_events d)) d).
Proof.
  intros Ho Hs Hl. unfold pgEventStore_Update. rewrite Ho.
  rewrite decide_True by (repeat apply Forall_cons_2; try done; by apply Forall_nil_2).
  by rewrite decide_True.
Qed.

Lemma save_error_runs i e d :
  t_errors d !! i = None → valid_text (PError_Summary e) = true → text_ok (PError_Detail e) →
  has_parent (PError_PacketID e) (t_packets d) → has_parent (PError_EventID e) (t_events d) →
  ∃ d', pgProcessingErrorStore_Save i e d = inr d'.
Proof.
  intros Hi Hs Hd Hp He. unfold pgProcessingErrorStore_Save. cbv zeta.
  rewrite decide_True by done. rewrite decide_True by done. rewrite decide_True by done.
  rewrite decide_True by done. by eexists.
Qed.

Section progress.
Context `{E : Env} `{AE : AmieEnv} `{!NoFaults}.

(** The three writes that record a failure. *)
Lemma write_failure_runs msg p' oldp ev' olde x w :
  t_packets (a_tx w) !! Packet_ID p' = Some oldp → type_fits p' → char_length (Packet_Status p') ≤ 32 →
  text_ok (Packet_LastError p') → t_events (a_tx w) !! PEvent_ID ev' = Some olde →
  char_length (PEvent_Status ev') ≤ 32 → text_ok (PEvent_LastError ev') →
  t_errors (a_tx w) !! a_seq w = None → valid_text (PError_Summary x) = true → text_ok (PError_Detail x) →
  PError_PacketID x = Some (Packet_ID p') → PError_EventID x = Some (PEvent_ID ev') →
  ∃ w', ((awrap msg (aexec (pgPacketStore_Update p')) ≫= λ _, mret ev') ≫= λ ev,
           awrap "update event: %w" (aexec (pgEventStore_Update ev)) ≫= λ _, saveError x) w = (Ok tt, w').
Proof.
  intros Hp Ht Hs Hl He Hes Hel Hf Hx1 Hx2 Hx3 Hx4. rewrite abind_assoc.
  erewrite abind_run by (apply awrap_run, aexec_run; by eapply update_packet_runs).
  erewrite abind_run by reflexivity.
  erewrite abind_run by (apply awrap_run, aexec_run; by eapply update_event_runs).
  unfold saveError. erewrite abind_run by reflexivity. erewrite abind_run by reflexivity. simpl.
  edestruct (save_error_runs (a_seq w) x) as [d' Hd']; cycle 5.
  - eexists. apply aexec_run. simpl. exact Hd'.
  - done.
  - done.
  - done.
  - rewrite Hx3. simpl. by rewrite lookup_insert_eq.
  - rewrite Hx4. simpl. by rewrite lookup_insert_eq.
Qed.

Lemma record_runs eid cause e w :
  amie_inv (a_db w) → errors_below (a_seq w) (a_db w) → t_events (a_db w) !! eid = Some e → pending e →
  storable cause → ∃ w', recordFailureInNewTransaction eid cause w = (Ok tt, w').
Proof.
  intros HI Hb He Hpend [Hv1 Hv2]. pose proof (i_integrity _ HI) as HC.
  destruct (i_phase _ HI _ _ He) as [_ [ph (e0 & p & He0 & Hp & Hin)]]. simplify_eq.
  pose proof (pending_waiting _ _ _ Hin Hpend) as ->.
  assert (char_length (Packet_Status p) ≤ 32) as Hps.
  { inversion Hin; match goal with Hs : Packet_Status p = _ |- _ => rewrite Hs end; vm_compute; lia. }
  pose proof (pk_packets _ HC _ _ Hp) as Hpid. pose proof (pk_events _ HC _ _ He) as Hid.
  pose proof (c_packets_type _ HC _ _ Hp) as Hty. simpl in Hpid, Hid, Hty.
  assert (t_errors (a_db w) !! a_seq w = None) as Hfresh.
  { destruct (t_errors (a_db w) !! a_seq w) eqn:Hs; [|done]. specialize (Hb _ _ Hs). simpl in Hb. lia. }
  unfold recordFailureInNewTransaction.
  assert (∃ w1, recordFailure eid cause (atx_begin w) = (Ok tt, w1)) as [w1 H1];
    [|eexists; by apply TxFn_run].
  unfold recordFailure. erewrite abind_run by apply awrap_run, aquery_run. cbn -[aexec saveError].
  unfold pgEventStore_FindByID. rewrite He.
  erewrite abind_run by apply awrap_run, aquery_run. cbn -[aexec saveError].
  erewrite abind_run by reflexivity. unfold pgPacketStore_FindByID. rewrite Hp.
  case_decide.
  - rewrite abind_assoc. erewrite abind_run by reflexivity.
    eapply write_failure_runs; simpl; rewrite ?Hpid, ?Hid; try done; vm_compute; lia.
  - eapply write_failure_runs; simpl; rewrite ?Hpid, ?Hid; try done; vm_compute; lia.
Qed.

End progress.

(** ** The backoff *)

Section backoff.
Context `{E : Env} `{AE : AmieEnv}.

(** After the first and the second failure an event is not selected again until
    30, respectively 60, seconds have passed since the clock was read to record
    the failure. *)
Theorem retry_waits eid cause e w w' :
  amie_inv (a_db w) → t_events (a_db w) !! eid = Some e → pending e →
  recordFailureInNewTransaction eid cause w = (Ok tt, w') → (PEvent_Attempts e + 1 < MaxAttempts)%Z →
  ∀ now x, x ∈ pgEventStore_FindTop50EventsToProcess
                 [ProcessingStatusNew; ProcessingStatusRetryScheduled] now (a_db w') →
    PEvent_ID (EWP_Event x) = eid → (clock (S (w_clock (a_core w))) + 30 * 2 ^ PEvent_Attempts e * 1000000 <= now)%Z.
Proof.
  intros HI He Hpend H Hlt. pose proof (i_integrity _ HI) as HC.
  pose proof (o_integrity _ _ (outer_TxFn _ (prel_recordFailure eid cause) w) HC) as HC'.
  unfold recordFailureInNewTransaction in H. rewrite H in HC'. simpl in HC'.
  destruct (i_phase _ HI _ _ He) as [_ [ph (e0 & p & He0 & Hp & Hin)]]. simplify_eq.
  pose proof (pending_waiting _ _ _ Hin Hpend) as ->. pose proof (waiting_bounds _ _ _ Hin) as Hb.
  apply TxFn_Ok in H as (w2 & H & ->). apply recordFailure_tx with (e := e) in H as (p0 & t & _ & Heq); [|done..].
  simpl in Heq. rewrite decide_True in Heq by done. injection Heq as Hev _.
  assert (backoff_seconds (PEvent_Attempts e + 1) = 30 * 2 ^ PEvent_Attempts e)%Z as Hbo.
  { unfold MaxAttempts in *. assert (PEvent_Attempts e = 0 ∨ PEvent_Attempts e = 1)%Z as [->| ->] by lia; done. }
  intros now x (_ & [_ Hdue] & j & Hj)%top50_inv Hid.
  pose proof (pk_events _ HC' _ _ Hj) as Hk. simpl in Hj, Hk. rewrite Hev in Hj.
  rewrite <- Hk, Hid, lookup_insert_eq in Hj. injection Hj as Hj. rewrite <- Hj in Hdue. simpl in Hdue.
  by rewrite Hbo in Hdue.
Qed.
End backoff.
