(* ===== verification/AmieDNs.v ===== *)
(** * AMIE: who holds which DN

    The registry of DNs through the packets that change it: the synchronisation
    of request_user_modify and the reassignment of request_person_merge. *)

From stdpp Require Import base gmap sets list strings.
From Stdlib Require Import ZArith Lia.
From S2P Require Import Prelude GoError Models Schema Events IdentityCache Effects EffectsLogic Wire.
From S2P Require Import StoreAuth UserService AuthService.
From S2P Require Import Posix AmieStore AmieEffects AmieHandlers AmieDispatch AmieWorker AmieFacts AmieMachine.

(** User [u] holds [dn]. *)
Definition holds (d : AmieDB) (u dn : string) : Prop :=
  ∃ k x, t_user_dns d !! k = Some x ∧ UserDN_DN x = dn ∧ UserDN_UserID x = u.

(** The identifiers still to be drawn are not used as ids of DNs. *)
Definition fresh_dn_ids `{Env} (w : AWorld) : Prop :=
  ∀ n, w_ids (a_core w) ≤ n → t_user_dns (a_tx w) !! uuid n = None.

Lemma holds_unique d u v dn : amie_integrity d → holds d u dn → holds d v dn → u = v.
Proof.
  intros HI (k & x & Hk & Hx & <-) (k' & x' & Hk' & Hx' & <-).
  assert (k = k') as <-; [|by simplify_eq].
  eapply (u_user_dns_dn _ HI); [done..|]. unfold uq_amie_user_dns_dn. by rewrite Hx, Hx'.
Qed.

Lemma ListByUser_holds d u x :
  amie_integrity d → x ∈ pgUserDNStore_ListByUser u d →
  t_user_dns d !! UserDN_ID x = Some x ∧ UserDN_UserID x = u.
Proof.
  intros HI. unfold pgUserDNStore_ListByUser. rewrite elem_of_order_by, elem_of_select_rows.
  intros [Hu [k Hk]]. pose proof (pk_user_dns _ HI _ _ Hk) as <-. done.
Qed.
Lemma holds_ListByUser d u dn : holds d u dn ↔ dn ∈ UserDN_DN <$> pgUserDNStore_ListByUser u d.
Proof.
  unfold pgUserDNStore_ListByUser. rewrite list_elem_of_fmap. split.
  - intros (k & x & Hk & <- & Hu). exists x. rewrite elem_of_order_by, elem_of_select_rows. eauto.
  - intros (x & -> & Hx). rewrite elem_of_order_by, elem_of_select_rows in Hx.
    destruct Hx as [Hu [k Hk]]. exists k, x. done.
Qed.

Section dns.
Context `{E : Env} `{AE : AmieEnv}.

(** ** Statements *)

(** A row is added when nobody holds the DN. *)
Lemma Add_holds i u dn now d d' :
  pgUserDNStore_Add (mkUserDN i u dn zero_time) now d = inr d' → t_user_dns d !! i = None →
  (∀ k, k ≠ i → t_user_dns d' !! k = t_user_dns d !! k) ∧
  ∀ v dn', holds d' v dn' ↔ holds d v dn' ∨ (dn' = dn ∧ v = u ∧ ∀ v', ¬ holds d v' dn).
Proof.
  intros H Hi. unfold pgUserDNStore_Add in H. case_decide; [|done]. case_decide; [|done].
  simpl in H. case_decide as Hc; simplify_eq; simpl.
  - destruct Hc as [_ Hf]. split; [intros; by apply lookup_insert_ne|]. intros v dn'. split.
    + intros (k & x & Hk & <- & <-). simpl in Hk. apply lookup_insert_Some in Hk as [[<- <-]|[? Hk]].
      * right. repeat split; try done. intros v' (k' & x' & Hk' & Hx' & _).
        destruct (decide (k' = i)) as [->|Hne]; [congruence|]. destruct (Hf k' x' Hk' Hne) as [?|Hn]; [done|].
        apply Hn. unfold uq_amie_user_dns_dn. simpl. by f_equal.
      * left. by exists k, x.
    + intros [(k & x & Hk & Hx)|(-> & -> & _)].
      * exists k, x. simpl. rewrite lookup_insert_ne by congruence. done.
      * eexists i, _. simpl. rewrite lookup_insert_eq. done.
  - split; [done|]. intros v dn'. split; [by left|]. intros [?|(-> & -> & Hn)]; [done|]. exfalso.
    apply Hc. split; [done|]. intros k x Hk Hne. right. intros Heq. injection Heq as Heq.
    apply (Hn (UserDN_UserID x)). exists k, x. done.
Qed.

(** ** Loops *)

(** The rows [removeDNs] deletes. *)
Lemma removeDNs_tx P `{HPd : !∀ dn, Decision (P dn)} xs w n w' :
  removeDNs P xs w = (Ok n, w') →
  w_ids (a_core w') = w_ids (a_core w) ∧
  ∀ k x, t_user_dns (a_tx w') !! k = Some x ↔
    t_user_dns (a_tx w) !! k = Some x ∧ ∀ y, y ∈ xs → P (UserDN_DN y) → UserDN_ID y ≠ k.
Proof.
  unfold removeDNs. revert w n w'. induction xs as [|y xs IH]; intros w n w' H; cbn [acount] in H.
  { apply aret_Ok in H as [_ ->]. split; [done|]. intros k x. split; [|tauto].
    intros ?. split; [done|]. intros y Hy. by apply not_elem_of_nil in Hy. }
  apply abind_Ok in H as (b & w1 & H1 & H). apply abind_Ok in H as (m & w2 & H2 & H).
  apply aret_Ok in H as [_ ->]. destruct (IH _ _ _ H2) as [Hid Hk]. case_decide as HP.
  - arun. unfold pgUserDNStore_DeleteByID in *. simplify_eq. simpl in *. split; [done|]. intros k x.
    rewrite Hk, lookup_delete_Some. setoid_rewrite elem_of_cons. naive_solver.
  - arun. split; [done|]. intros k x. rewrite Hk. setoid_rewrite elem_of_cons. naive_solver.
Qed.

(** The DNs the second loop of [syncDNs] adds. *)
Lemma addDNs_tx u have ks w n w' :
  Inj (=) (=) uuid → fresh_dn_ids w →
  acount (λ dn, if decide (dn ∈ (have : list string)) then mret false
                else (_ ← awrapf "add DN %s: %w" [dn] (addDN u dn); mret true)) ks w = (Ok n, w') →
  ∀ v dn, holds (a_tx w') v dn ↔
    holds (a_tx w) v dn ∨ (dn ∈ ks ∧ ¬ (dn ∈ have) ∧ v = u ∧ (∀ v', ¬ holds (a_tx w) v' dn)).
Proof.
  intros Hinj. revert w n w'. induction ks as [|dn ks IH]; intros w n w' Hf H; cbn [acount] in H.
  { apply aret_Ok in H as [_ ->]. intros v dn. split; [tauto|]. intros [?|[Hn _]]; [done|].
    by apply not_elem_of_nil in Hn. }
  apply abind_Ok in H as (b & w1 & H1 & H). apply abind_Ok in H as (m & w2 & H2 & H).
  apply aret_Ok in H as [_ ->]. case_decide as Hd.
  - arun. intros v dn'. rewrite (IH _ _ _ Hf H2), elem_of_cons. naive_solver.
  - unfold addDN in H1. arun.
    match goal with R : newID _ = _ |- _ => apply newID_Ok in R as [-> ->] end. simpl in *.
    match goal with R : pgUserDNStore_Add _ _ _ = inr _ |- _ =>
      apply Add_holds in R as [Hk Hh]; [|by apply Hf] end.
    assert (fresh_dn_ids (set_atx d (set_core (bump_stmt (bump_ids (a_core w)))
              (set_core (bump_ids (a_core w)) w)))) as Hf1.
    { intros i Hi. simpl in *. rewrite Hk; [apply Hf; lia|]. intros Heq%(inj uuid). lia. }
    intros v dn'. rewrite (IH _ _ _ Hf1 H2). simpl. setoid_rewrite Hh. rewrite elem_of_cons.
    destruct (decide (dn' = dn)) as [->|]; naive_solver.
Qed.

(** ** Audit rows leave the DNs alone *)

Lemma aexec_audit_tx e w x w' : aexec_audit e w = (Ok x, w') → a_tx w' = a_tx w.
Proof.
  unfold aexec_audit. intros H. apply abind_Ok in H as (? & w1 & H1 & H). apply svc_Ok in H1 as (c & _ & ->).
  unfold apply_audit in H. destruct (pgAuditEventStore_Create _ _); [done|]. by injection H as _ <-.
Qed.

Lemma Log_dns c p e a t i s w x w' :
  Log c p e a t i s w = (Ok x, w') → t_user_dns (a_tx w') = t_user_dns (a_tx w).
Proof.
  unfold Log. intros HL. case_decide; [by arun|]. arun.
  match goal with R : aexec_audit _ _ = _ |- _ => apply aexec_audit_tx in R as Htx end.
  match goal with R : pgAuditExtrasStore_Save _ _ _ = inr _ |- _ => stmt_inv R end. simpl. by rewrite Htx.
Qed.

(** ** The theorems *)

(** When request_user_modify replaces the DNs of a user by a list, the user ends
    up with exactly the DNs of the list that no other user holds, and the DNs of
    the other users stay as they were. A DN held by somebody else is skipped
    without an error. *)
Theorem sync_dns_result ctx packet eid body u w w' :
  Inj (=) (=) uuid → fresh_dn_ids w → a_tx w = a_db w → amie_integrity (a_db w) →
  getDNList body ≠ [] → syncDNs ctx packet eid body u w = (Ok tt, w') →
  (∀ dn, holds (a_tx w') u dn ↔ dn ∈ getDNList body ∧ ∀ v, v ≠ u → ¬ holds (a_db w) v dn) ∧
  (∀ v dn, v ≠ u → holds (a_tx w') v dn ↔ holds (a_db w) v dn).
Proof.
  intros Hinj Hf Htx HI Hne H. unfold syncDNs in H. cbv zeta in H. rewrite decide_False in H by done.
  apply abind_Ok in H as (ex & w1 & H1 & H). apply awrap_Ok, aquery_Ok in H1 as [-> ->].
  apply abind_Ok in H as (removed & w2 & H2 & H). apply abind_Ok in H as (added & w3 & H3 & H).
  assert (t_user_dns (a_tx w') = t_user_dns (a_tx w3)) as Hlast.
  { case_decide; [|by arun]. apply awrap_Ok in H. by eapply Log_dns. }
  clear H. apply removeDNs_tx in H2 as [Hids Hrm]. simpl in Hids, Hrm. rewrite Htx in Hrm.
  assert (fresh_dn_ids w2) as Hf2.
  { intros n Hn. rewrite Hids in Hn. destruct (t_user_dns (a_tx w2) !! uuid n) as [x|] eqn:Hx; [|done].
    apply Hrm in Hx as [Hx _]. rewrite <- Htx, Hf in Hx; done. }
  assert (∀ v dn, holds (a_tx w2) v dn ↔ holds (a_db w) v dn ∧ (v = u → dn ∈ getDNList body)) as Hh2.
  { intros v dn. unfold holds. setoid_rewrite Hrm. split.
    - intros (k & x & (Hk & Hx) & <- & <-). split; [by exists k, x|]. intros <-.
      destruct (decide (UserDN_DN x ∈ getDNList body)) as [?|Hn]; [done|]. exfalso.
      apply (Hx x); [|by rewrite elem_of_list_to_set|by apply (pk_user_dns _ HI)].
      unfold pgUserDNStore_ListByUser. rewrite elem_of_order_by, elem_of_select_rows. eauto.
    - intros [(k & x & Hk & <- & <-) Hd]. exists k, x. repeat split; try done. intros y Hy Hny Hid.
      apply ListByUser_holds in Hy as [Hy Hu]; [|done]. rewrite Hid, Hk in Hy. simplify_eq.
      rewrite elem_of_list_to_set in Hny. by apply Hny, Hd. }
  pose proof (addDNs_tx _ _ _ _ _ _ Hinj Hf2 H3) as Hh3. setoid_rewrite Hh2 in Hh3.
  assert (∀ v dn, holds (a_tx w') v dn ↔ holds (a_tx w3) v dn) as Hw' by (intros; unfold holds; by rewrite Hlast).
  setoid_rewrite Hw'. setoid_rewrite Hh3. setoid_rewrite <- holds_ListByUser.
  split.
  - intros dn. rewrite (range_keys_perm _), elem_of_elements, elem_of_list_to_set. split.
    + intros [[Hu Hd]|(Hd & _ & _ & Hn)]; (split; [by auto|]); intros v Hv Hvd.
      * apply Hv. by eapply holds_unique.
      * apply (Hn v). split; [done|]. by intros ->.
    + intros [Hd Hn]. destruct (decide (dn ∈ UserDN_DN <$> pgUserDNStore_ListByUser u (a_db w))) as [Hu|Hu];
        rewrite <- holds_ListByUser in Hu; [by left|]. right. repeat split; try done.
      intros v [Hvd _]. destruct (decide (v = u)) as [->|]; [done|]. by eapply Hn.
  - intros v dn Hv. split; [intros [[? _]|(_ & _ & ? & _)]; done|]. intros Hd. left. done.
Qed.

(** Merging two persons moves every DN of the retiring user to the survivor and
    changes nothing else: no DN is dropped, since none can be held twice. *)
Theorem merge_moves_dns from to w w' :
  amie_integrity (a_tx w) → from ≠ to → pgUserDNStore_ReassignUser from to w = (Ok tt, w') →
  ∀ v dn, holds (a_tx w') v dn ↔ (v ≠ from ∧ holds (a_tx w) v dn) ∨ (v = to ∧ holds (a_tx w) from dn).
Proof.
  intros HI Hne H. unfold pgUserDNStore_ReassignUser in H. arun.
  unfold pgUserDNStore_DropDuplicates, pgUserDNStore_MoveUser in *. simplify_eq. simpl.
  assert (∀ k x, filter (λ kx, ¬ (UserDN_UserID kx.2 = from ∧ UserDN_DN kx.2 ∈ dns_of to (a_tx w)))
            (t_user_dns (a_tx w)) !! k = Some x ↔ t_user_dns (a_tx w) !! k = Some x) as Hfil.
  { intros k x. rewrite map_lookup_filter_Some. simpl. split; [tauto|]. intros Hk. split; [done|].
    intros [<- Hin]. unfold dns_of in Hin. apply list_elem_of_fmap in Hin as (y & Hxy & Hy).
    apply elem_of_select_rows in Hy as [Hu [k' Hk']]. apply Hne.
    eapply holds_unique; [exact HI|by exists k, x|by exists k', y]. }
  intros v dn. unfold holds. simpl. unfold update_where. split.
  - intros (k & x & Hk & <- & <-). apply lookup_fmap_Some in Hk as (y & <- & Hy%Hfil).
    case_decide as Hu; simpl; [right|left]; (split; [done|]); by exists k, y.
  - intros [[Hv (k & x & Hk & <- & <-)]|[-> (k & x & Hk & <- & <-)]].
    + eexists k, _. rewrite lookup_fmap, (proj2 (Hfil k x) Hk). simpl. rewrite decide_False by done. done.
    + eexists k, _. rewrite lookup_fmap, (proj2 (Hfil k x) Hk). simpl. rewrite decide_True by done. done.
Qed.
End dns.
