(* ===== verification/AmieAccounts.v ===== *)
(** * Accounts and persons the packets create

    The login name an account gets, and what happens to a packet about a person
    that is delivered more than once, or again after an attempt that stopped
    half way: users, identities and accounts are committed one by one, so the
    next attempt meets what the last one left. *)

From stdpp Require Import base gmap sets list strings.
From Stdlib Require Import ZArith Lia.
From S2P Require Import Prelude GoError Models Schema Events IdentityCache Effects EffectsLogic.
From S2P Require Import StoreIdentity StoreCluster StoreAuth UserService AuthService ProjectService.
From S2P Require Import ServiceApi ServiceTheorems IdentityTheorems Posix AmieStore AmieEffects AmieHandlers.
From S2P Require Import AmieDispatch AmieWorker AmieFacts AmieMachine.

(** A login name somebody has on the cluster; a user that has an account there. *)
Definition name_taken (d : DB) (clusterID name : string) : Prop :=
  ∃ k x, t_compute_cluster_users d !! k = Some x ∧
    ComputeClusterUser_ComputeClusterID x = clusterID ∧ ComputeClusterUser_LocalUsername x = name.
Definition has_account (d : DB) (clusterID userID : string) : Prop :=
  ∃ k x, t_compute_cluster_users d !! k = Some x ∧
    ComputeClusterUser_ComputeClusterID x = clusterID ∧ ComputeClusterUser_UserID x = userID.

(** The user the AMIE identity [g] belongs to. *)
Definition access_user (d : DB) (g : string) : option User :=
  pgUserIdentityStore_FindBySourceAndExternalID amieIdentitySource g d ≫=
    λ i, pgUserStore_FindByID (UserIdentity_UserID i) d.

(** The tables of persons. *)
Definition persons (d : DB) : gmap string User * gmap string UserIdentity := (t_users d, t_user_identities d).

(** Somebody has the email, and nobody the AMIE identity: what an attempt leaves
    that created the user and not its identity. *)
Definition half_created (email g : string) (d : DB) : Prop :=
  email_taken d email ∧ pgUserIdentityStore_FindBySourceAndExternalID amieIdentitySource g d = None.

Section creations.
Context `{E : Env}.

(** ** One attempt at an account *)

Lemma not_free {R U} `{EqDecision U} (f : R → option U) k r (t : gmap string R) :
  ¬ free f k r t → ∃ k' r', t !! k' = Some r' ∧ f r' = f r.
Proof.
  intros Hf. apply map_not_Forall in Hf as (k' & r' & Hk & Hr); [|apply _]. exists k', r'. split; [done|].
  destruct (decide (f r' = f r)); [done|]. exfalso. apply Hr. auto.
Qed.

Lemma FindByPair_has_account c u d : pgComputeClusterUserStore_FindByPair c u d ≠ None ↔ has_account d c u.
Proof.
  unfold pgComputeClusterUserStore_FindByPair. split.
  - intros [x Hx]%not_eq_None_Some. apply select_one_Some in Hx as [[? ?] [k ?]]. by exists k, x.
  - intros (k & x & Hk & Hx) Hn. rewrite select_one_None in Hn. by eapply Hn.
Qed.

Lemma CreateComputeClusterUser_Ok c u name w a w' :
  CreateComputeClusterUser (Some (mkComputeClusterUser "" c u name None)) w = (Ok a, w') →
  a = mkComputeClusterUser (ComputeClusterUser_ID a) c u name None ∧
  ¬ has_account (w_db w) c u ∧ ¬ name_taken (w_db w) c name ∧
  w_db w' = set_compute_cluster_users (<[ComputeClusterUser_ID a := a]> (t_compute_cluster_users (w_db w))) (w_db w).
Proof.
  unfold CreateComputeClusterUser, or_newID. intros HC. run; simplify_eq; try done. simpl.
  match goal with HS : _ = inr _ |- _ => unfold pgComputeClusterUserStore_Create in HS; simpl in HS end.
  repeat case_decide; simplify_eq. simpl.
  split_and!; [done|by rewrite <- FindByPair_has_account| |done].
  intros (k & x & Hk & Hc & Hn).
  match goal with HF : free uq_compute_cluster_users_local_username _ _ _ |- _ => destruct (HF _ _ Hk) as [?|Hx] end.
  - by intros ->; congruence.
  - done.
  - apply Hx. unfold uq_compute_cluster_users_local_username. simpl. congruence.
Qed.

Lemma CreateUser_Ok x w u w' :
  User_ID x = "" → CreateUser (Some x) w = (Ok u, w') →
  ¬ email_taken (w_db w) (User_Email x) ∧ t_users (w_db w) !! User_ID u = None ∧
  w_db w' = set_users (<[User_ID u := u]> (t_users (w_db w))) (w_db w).
Proof.
  intros Hid. unfold CreateUser, or_newID. intros HC. run; simplify_eq; try done.
  match goal with HS : _ = inr _ |- _ => unfold pgUserStore_Create in HS; simpl in HS end.
  repeat case_decide; simplify_eq. split_and!; try done. by rewrite <- FindByEmail_taken.
Qed.

End creations.

Section accounts.
Context `{E : Env} `{AE : AmieEnv}.

(** A refusal as a duplicate leaves the database alone and has one of the two
    causes. *)
Lemma CreateComputeClusterUser_taken c u name w e w' :
  CreateComputeClusterUser (Some (mkComputeClusterUser "" c u name None)) w = (Err e, w') →
  errors_Is e SAlreadyExists = true →
  w_db w' = w_db w ∧ (has_account (w_db w) c u ∨ name_taken (w_db w) c name).
Proof.
  intros HC Hdup. enough (has_account (w_db w) c u ∨ name_taken (w_db w) c name) as Ht.
  { split; [|done]. destruct (serve_err_db
      (ReqCreateComputeClusterUser (Some (mkComputeClusterUser "" c u name None))) w e w') as [?|(w'' & H'' & _)];
      [done| |done|].
    - unfold serve, ignore. by rewrite (bind_run_Err _ _ _ _ _ HC).
    - unfold serve, ignore in H''. apply bind_Ok in H'' as (a & w1 & H'' & _).
      apply (CreateComputeClusterUser_Ok (E := fault_free E)) in H'' as (_ & ? & ? & _). tauto. }
  unfold CreateComputeClusterUser, or_newID in HC. simpl in HC.
  repeat (apply bind_Err in HC as [HC|(? & ? & ? & HC)]; [
    first [ apply wrap_Err in HC as (? & ->%query_Err & ->); discriminate Hdup
          | apply fail_if_Err in HC as [Hp ->]; first [discriminate Hdup | idtac]
          | apply map_err_Err in HC as (? & HC & ->) | discriminate HC] | run]); try discriminate HC.
  - left. by apply FindByPair_has_account.
  - apply inTx_exec_Err in HC as (d & [Hd|Hd] & He);
      [|subst d; destruct He as [->|[->|[->| ->]]]; discriminate Hdup].
    unfold pgComputeClusterUserStore_Create in Hd. simpl in Hd.
    repeat case_decide; simplify_eq; try (destruct He as [->|[->|[->| ->]]]; discriminate Hdup).
    all: match goal with Hf : ¬ free _ _ _ _ |- _ => apply not_free in Hf as (k & r & Hk & [= <- <-]) end;
      first [left; by exists k, r | right; by exists k, r].
Qed.

(** ** The allocator *)

(** The candidate that is taken is the first free one. *)
Lemma tryCandidates_Ok c u base ns w a w' :
  tryCandidates c u base ns w = (Ok (Some a), w') →
  ∃ l n r, ns = l ++ n :: r ∧ a = mkComputeClusterUser (ComputeClusterUser_ID a) c u (candidate base n) None ∧
    (∀ m, m ∈ l → name_taken (core_db w) c (candidate base m)) ∧ ¬ has_account (core_db w) c u ∧
    ¬ name_taken (core_db w) c (candidate base n) ∧
    t_compute_cluster_users (core_db w') = <[ComputeClusterUser_ID a := a]> (t_compute_cluster_users (core_db w)).
Proof.
  revert w. induction ns as [|n ns IH]; intros w HT; cbn [tryCandidates] in HT; [by arun|].
  apply abind_Ok in HT as (r & w1 & H1 & HT). apply acatch_Ok in H1. unfold svc in H1.
  destruct (CreateComputeClusterUser _ _) as [[b|e] c1] eqn:HC; simplify_eq.
  - apply aret_Ok in HT as [[= <-] ->]. apply CreateComputeClusterUser_Ok in HC as (Ha & Hp & Hn & Hdb).
    exists [], n, ns. split_and!; try done.
    + intros m Hm. by apply not_elem_of_nil in Hm.
    + unfold core_db. simpl. by rewrite Hdb.
  - destruct (errors_Is e SAlreadyExists) eqn:Hdup; [|done].
    apply CreateComputeClusterUser_taken in HC as [Hdb Htaken]; [|done].
    assert (core_db (set_core c1 w) = core_db w) as Hsame by done.
    apply IH in HT as (l & n' & r & -> & Ha & Hl & Hp & Hn & Ht). rewrite Hsame in *.
    exists (n :: l), n', r. split_and!; try done. intros m [->|Hm]%elem_of_cons; [|by apply Hl].
    by destruct Htaken.
Qed.

Lemma posix_audit_users c t i s w x w' :
  posix_audit c t i s w = (x, w') → t_compute_cluster_users (core_db w') = t_compute_cluster_users (core_db w).
Proof.
  intros HA. enough (DbRel (same t_compute_cluster_users) (CreateAuditEvent c
        (Some (mkAuditEvent "" t zero_time i "user" s "" "" "" "")))) as Hd.
  { specialize (Hd (a_core w)). unfold posix_audit, mbind, AM_bind, acatch, svc in HA.
    destruct (CreateAuditEvent _ _ _) as [r c1]. injection HA as _ <-. exact Hd. }
  unfold CreateAuditEvent. solve_db.
  intros d d' HS. stmt_inv HS. done.
Qed.

Lemma GetUser_Ok i w u w' : GetUser i w = (Ok u, w') → t_users (w_db w) !! i = Some u ∧ w' = bump_stmt w.
Proof. unfold GetUser. intros HG. by run. Qed.

Lemma allocate_Ok ctx c u w a w' :
  allocateAndCreateClusterUser ctx c u w = (Ok a, w') →
  ∃ user base cut n, t_users (core_db w) !! u = Some user ∧
    BuildBase user (Prefix POSIX_USERNAME_PREFIX) = Some (Ok (base, cut)) ∧ n < MaxCollisionSuffix ∧
    a = mkComputeClusterUser (ComputeClusterUser_ID a) c u (candidate base n) None ∧
    (∀ m, m < n → name_taken (core_db w) c (candidate base m)) ∧ ¬ has_account (core_db w) c u ∧
    ¬ name_taken (core_db w) c (candidate base n) ∧
    t_compute_cluster_users (core_db w') = <[ComputeClusterUser_ID a := a]> (t_compute_cluster_users (core_db w)).
Proof.
  unfold allocateAndCreateClusterUser. intros HA.
  apply abind_Ok in HA as (user & w1 & H1 & HA). apply awrap_Ok, svc_Ok in H1 as (c1 & H1 & ->).
  apply GetUser_Ok in H1 as [Hu ->].
  destruct (BuildBase _ _) as [[[base cut]|e]|] eqn:HB; [|by arun|by arun].
  apply abind_Ok in HA as (x & w2 & H2 & HA). apply abind_Ok in HA as (r & w3 & H3 & HA).
  assert (t_compute_cluster_users (core_db w2) = t_compute_cluster_users (core_db w)) as Ht.
  { destruct cut; [by apply posix_audit_users in H2|by apply aret_Ok in H2 as [_ ->]]. }
  destruct r as [b|]; [|by arun]. apply aret_Ok in HA as [-> ->].
  apply tryCandidates_Ok in H3 as (l & n & r & Hseq & Ha & Hl & Hp & Hn & Hrow).
  unfold name_taken, has_account in *. rewrite Ht in *.
  assert (n = length l ∧ n < MaxCollisionSuffix) as [-> Hlt].
  { assert (seq 0 MaxCollisionSuffix !! length l = Some n) as Hi by (rewrite Hseq, list_lookup_middle; done).
    apply lookup_seq in Hi as [Hi ?]. split; [done|lia]. }
  exists user, base, cut, (length l). split_and!; try done. intros m Hm. apply Hl.
  assert (seq 0 MaxCollisionSuffix !! m = Some m) as Hi by (apply lookup_seq; lia).
  rewrite Hseq, lookup_app_l in Hi by done. by eapply list_elem_of_lookup_2.
Qed.

(** C32: an account on a cluster gets the first name of the user's sequence
    (base, base2, ..., base999) that nobody has there; it has at most 32
    characters: the configured prefix, a dash and lower-case letters and digits.
    There is at least one of these when the prefix has at most 27 characters (with
    28 the base is the prefix and the dash alone). The account is stored, and no
    other account changes. *)
Theorem account_allocated ctx c u w a w' :
  allocateAndCreateClusterUser ctx c u w = (Ok a, w') →
  ∃ user base cut n name, t_users (core_db w) !! u = Some user ∧
    BuildBase user (Prefix POSIX_USERNAME_PREFIX) = Some (Ok (base, cut)) ∧ n < MaxCollisionSuffix ∧
    ComputeClusterUser_LocalUsername a = candidate base n ∧
    (∀ m, m < n → name_taken (core_db w) c (candidate base m)) ∧ ¬ name_taken (core_db w) c (candidate base n) ∧
    candidate base n = Prefix POSIX_USERNAME_PREFIX +:+ "-" +:+ name ∧
    (String.length (Prefix POSIX_USERNAME_PREFIX) ≤ 27 → name ≠ "") ∧
    string_forall alnum name = true ∧ String.length (candidate base n) ≤ 32 ∧
    ComputeClusterUser_ComputeClusterID a = c ∧ ComputeClusterUser_UserID a = u ∧
    t_compute_cluster_users (core_db w') = <[ComputeClusterUser_ID a := a]> (t_compute_cluster_users (core_db w)).
Proof.
  intros (user & base & cut & n & Hu & HB & Hn & Ha & Hm & _ & Hfree & Hrow)%allocate_Ok.
  destruct (BuildBase_shape _ _ _ _ HB) as (local & Hb & Hal & Hlen & Hne).
  destruct (candidate_app base n Hn) as (t & Hc & Htl & Hta).
  exists user, base, cut, n, (local +:+ t). rewrite Ha. simpl. split_and!; try done.
  - rewrite Hc, Hb. by rewrite !string_app_assoc.
  - intros Hpre. specialize (Hne ltac:(lia)). by destruct local.
  - by rewrite string_forall_app, Hal, Hta.
  - rewrite Hc, Hb, !string_length_app. simpl. lia.
  - by rewrite <- Ha.
Qed.

(** With a prefix of 28 characters every user gets the same base, without a
    letter of their name. *)
Example base_without_name :
  let prefix := "abcdefghijklmnopqrstuvwxyzab" in
  BuildBase (mkUser "alice" "org" "Alice" "A" "" "alice@example.org" "" "") prefix
  = Some (Ok (prefix +:+ "-", true)).
Proof. vm_compute. reflexivity. Qed.

Lemma ListByUser_Ok u w l w' :
  ListComputeClusterUsersByUser u w = (Ok l, w') →
  u ≠ "" ∧ l = pgComputeClusterUserStore_FindByUser u (w_db w) ∧ w' = bump_stmt w.
Proof. unfold ListComputeClusterUsersByUser. intros HL. by run. Qed.

Lemma ensure_found `{!NoFaults} ctx c u w i a :
  u ≠ "" →
  list_find (λ a, ComputeClusterUser_ComputeClusterID a = c) (pgComputeClusterUserStore_FindByUser u (core_db w))
    = Some (i, a) →
  ensureComputeClusterUser ctx c u w = (Ok a, set_core (bump_stmt (a_core w)) w).
Proof.
  intros Hne Hf. unfold ensureComputeClusterUser. erewrite abind_run.
  2:{ apply awrap_run, svc_run. unfold ListComputeClusterUsersByUser.
      rewrite (bind_run _ _ _ _ _ (fail_if_run _ _ _ Hne)). apply wrap_run, query_run. }
  cbv beta. unfold core_db in Hf. by rewrite Hf.
Qed.

(** Asking twice for the account of a user on a cluster gives the same account,
    and the second time the core database stays as it is, whether or not the
    first call created the account. *)
Theorem account_ensured_once `{!NoFaults} ctx ctx' c u w a w' :
  ensureComputeClusterUser ctx c u w = (Ok a, w') →
  (ensureComputeClusterUser ctx' c u w').1 = Ok a ∧
  core_db (ensureComputeClusterUser ctx' c u w').2 = core_db w'.
Proof.
  intros HE. unfold ensureComputeClusterUser in HE.
  apply abind_Ok in HE as (l & w1 & H1 & HE). apply awrap_Ok, svc_Ok in H1 as (c1 & H1 & ->).
  apply ListByUser_Ok in H1 as (Hne & -> & ->).
  destruct (list_find _ _) as [[i x]|] eqn:Hf.
  - apply aret_Ok in HE as [-> ->]. by rewrite (ensure_found ctx' c u _ i a).
  - apply allocate_Ok in HE as (user & base & cut & n & _ & _ & _ & Ha & _ & Hacc & _ & Hrow).
    assert (∃ i, list_find (λ a, ComputeClusterUser_ComputeClusterID a = c)
      (pgComputeClusterUserStore_FindByUser u (core_db w')) = Some (i, a)) as [i Hi].
    { assert (a ∈ pgComputeClusterUserStore_FindByUser u (core_db w')) as Hin.
      { apply elem_of_order_by, elem_of_select_rows. split; [by rewrite Ha|].
        exists (ComputeClusterUser_ID a). by rewrite Hrow, lookup_insert_eq. }
      destruct (list_find_elem_of (λ a, ComputeClusterUser_ComputeClusterID a = c) _ a Hin) as [[i x] Hx];
        [by rewrite Ha|].
      exists i. rewrite Hx. apply list_find_Some in Hx as (Hix & Hc & _). apply list_elem_of_lookup_2 in Hix.
      apply elem_of_order_by, elem_of_select_rows in Hix as [Hxu [k Hk]]. rewrite Hrow in Hk.
      apply lookup_insert_Some in Hk as [[_ <-]|[_ Hk]]; [done|]. exfalso. apply Hacc. by exists k, x. }
    by rewrite (ensure_found ctx' c u _ i a).
Qed.
End accounts.

(** ** Persons *)

Section persons.
Context `{E : Env} `{AE : AmieEnv}.

Lemma CreateUserIdentity_Ok x w i w' :
  UserIdentity_ID x = "" → CreateUserIdentity (Some x) w = (Ok i, w') →
  ∃ row, UserIdentity_Source row = UserIdentity_Source x ∧ UserIdentity_ExternalID row = UserIdentity_ExternalID x ∧
    UserIdentity_UserID row = UserIdentity_UserID x ∧
    pgUserIdentityStore_FindBySourceAndExternalID (UserIdentity_Source x) (UserIdentity_ExternalID x) (w_db w) = None ∧
    w_db w' = set_user_identities (<[UserIdentity_ID row := row]> (t_user_identities (w_db w))) (w_db w).
Proof.
  intros Hid. unfold CreateUserIdentity, or_newID. intros HC. run; simplify_eq; try done.
  match goal with HS : _ = inr _ |- _ => unfold pgUserIdentityStore_Create in HS; simpl in HS end.
  repeat case_decide; simplify_eq.
  match goal with |- context [with_identity_created ?t ?y] => exists (with_identity_created t y) end.
  split_and!; try done. by apply dec_stable.
Qed.

Lemma GetUserByUserIdentity_run `{!NoFaults} g w :
  g ≠ "" → ∃ w', GetUserByUserIdentity amieIdentitySource g w =
    (match access_user (w_db w) g with Some u => Ok u | None => Err ErrNotFound end, w') ∧ w_db w' = w_db w.
Proof.
  intros Hg. unfold GetUserByUserIdentity, access_user.
  rewrite (bind_run _ _ _ tt w) by done. rewrite (bind_run _ _ _ _ _ (fail_if_run _ _ _ Hg)).
  rewrite (bind_run _ _ _ _ _ (wrap_run _ _ _ _ _ _ (query_run _ _))). unfold mbind at 2, option_bind.
  destruct (pgUserIdentityStore_FindBySourceAndExternalID _ _ _) as [i|]; [|by eexists].
  erewrite bind_run by reflexivity. unfold GetUser.
  rewrite (bind_run _ _ _ _ _ (wrap_run _ _ _ _ _ _ (query_run _ _))). simpl.
  destruct (pgUserStore_FindByID _ _); by eexists.
Qed.

(** A look up that fails as not found found nothing. *)
Lemma GetUserByUserIdentity_NotFound g w e w' :
  GetUserByUserIdentity amieIdentitySource g w = (Err e, w') → errors_Is e SNotFound = true →
  g ≠ "" ∧ access_user (w_db w) g = None.
Proof.
  unfold GetUserByUserIdentity. intros HG Hnf.
  apply bind_Err in HG as [HG|(? & ? & H1 & HG)]; [discriminate HG|].
  apply fail_if_Ok in H1 as [_ ->].
  apply bind_Err in HG as [[_ ->]%fail_if_Err|(? & ? & H1 & HG)]; [discriminate Hnf|].
  apply fail_if_Ok in H1 as [Hg ->]. split; [done|].
  apply bind_Err in HG as [(? & ->%query_Err & ->)%wrap_Err|(o & ? & H1 & HG)]; [discriminate Hnf|].
  apply wrap_Ok, query_Ok in H1 as [-> ->]. unfold access_user.
  destruct (pgUserIdentityStore_FindBySourceAndExternalID _ _ _) as [i|]; [|done].
  apply bind_Err in HG as [HG|(? & ? & [[= <-] ->]%deref_Ok & HG)]; [discriminate HG|]. unfold GetUser in HG.
  apply bind_Err in HG as [(? & ->%query_Err & ->)%wrap_Err|(o & ? & H1 & HG)]; [discriminate Hnf|].
  apply wrap_Ok, query_Ok in H1 as [-> ->]. simpl in *. by destruct (pgUserStore_FindByID _ _).
Qed.

Lemma find_user_Ok g w o w' :
  find (GetUserByUserIdentity amieIdentitySource g) w = (Ok o, w') →
  g ≠ "" ∧ core_db w' = core_db w ∧ o = access_user (core_db w) g.
Proof.
  unfold find. intros HF. apply abind_Ok in HF as (r & w1 & H1 & HF). apply acatch_Ok in H1. unfold svc in H1.
  destruct (GetUserByUserIdentity _ _ _) as [r1 c1] eqn:HG. injection H1 as -> <-.
  assert (core_db (set_core c1 w) = core_db w) as Hdb.
  { assert (Quiet (GetUserByUserIdentity amieIdentitySource g)) as Hq
      by (unfold GetUserByUserIdentity, GetUser; solve_quiet).
    specialize (Hq (a_core w)). rewrite HG in Hq. by injection Hq. }
  destruct r as [u|e].
  - apply aret_Ok in HF as [<- ->]. split; [|split; [done|]].
    all: unfold GetUserByUserIdentity, GetUser in HG; unfold access_user, core_db; run; try done.
    by rewrite R2.
  - destruct (errors_Is e SNotFound) eqn:Hnf; [|done]. apply aret_Ok in HF as [<- ->].
    destruct (GetUserByUserIdentity_NotFound _ _ _ _ HG Hnf). done.
Qed.

(** ** What leaves the persons alone *)

Definition keeps_persons : relation AWorld := λ w w', persons (core_db w') = persons (core_db w).
#[local] Instance keeps_persons_preorder : PreOrder keeps_persons.
Proof. split; unfold keeps_persons; [intros ?; done|]. intros ??? H1 H2. by rewrite H2, H1. Qed.

Lemma keeps_svc {A} (m : M A) : DbRel (same persons) m → ARel keeps_persons (svc m).
Proof. intros Hm w. specialize (Hm (a_core w)). unfold svc. destruct (m _). exact Hm. Qed.

Lemma keeps_find {A} (m : M A) : Quiet m → ARel keeps_persons (find m).
Proof.
  intros Hm. unfold find. apply ARel_bind; [apply _|apply ARel_catch, keeps_svc, Quiet_DbRel; [apply _|done]|].
  intros [a|e]; [apply ARel_ret, _|]. destruct (errors_Is _ _); [apply ARel_ret, _|apply ARel_throw, _].
Qed.

Lemma keeps_ensureOrganization code name : ARel keeps_persons (ensureOrganization code name).
Proof.
  unfold ensureOrganization. case_decide; [apply ARel_throw, _|]. apply ARel_bind; [apply _| |].
  - apply keeps_find. unfold GetOrganizationByOriginatedID. solve_quiet.
  - intros [o|]; [apply ARel_ret, _|]. apply keeps_svc. unfold CreateOrganization. solve_db.
    intros d d' HS. stmt_inv HS. done.
Qed.

(** ** Persons are created once *)

Lemma ensureUser_found `{!NoFaults} pre m1 m2 m3 body g w u :
  g ≠ "" → access_user (core_db w) g = Some u →
  ∃ w', ensureUser pre m1 m2 m3 body g w = (Ok u, w') ∧ core_db w' = core_db w.
Proof.
  intros Hg Hu. destruct (GetUserByUserIdentity_run g (a_core w) Hg) as (c & HG & Hc).
  unfold core_db in Hu. rewrite Hu in HG. exists (set_core c w). split; [|exact Hc].
  unfold ensureUser. rewrite (abind_run _ _ w (Some u) (set_core c w)); [done|]. unfold find.
  rewrite (abind_run _ _ w (Ok u) (set_core c w)); [done|]. apply acatch_run, svc_run. exact HG.
Qed.

Lemma ensureUser_Ok pre m1 m2 m3 body g w u w' :
  ensureUser pre m1 m2 m3 body g w = (Ok u, w') →
  g ≠ "" ∧ access_user (core_db w') g = Some u ∧
  (access_user (core_db w) g = Some u ∧ core_db w' = core_db w ∨
   access_user (core_db w) g = None ∧ t_users (core_db w) !! User_ID u = None ∧
   t_users (core_db w') = <[User_ID u := u]> (t_users (core_db w))).
Proof.
  unfold ensureUser. intros HE. apply abind_Ok in HE as (o & w1 & H1 & HE).
  apply find_user_Ok in H1 as (Hg & Hdb & Ho). split; [done|]. destruct o as [x|].
  { apply aret_Ok in HE as [-> ->]. rewrite Hdb. auto. }
  apply abind_Ok in HE as (org & w2 & H2 & HE). apply awrap_Ok in H2.
  pose proof (keeps_ensureOrganization (getString body (pre +:+ "OrgCode")) (getString body (pre +:+ "Organization")) w1) as Hk.
  rewrite H2 in Hk. unfold keeps_persons, persons in Hk. simpl in Hk. rewrite Hdb in Hk. injection Hk as Hus Hids.
  cbv zeta in HE. apply abind_Ok in HE as (x & w3 & H3 & HE). apply awrap_Ok, svc_Ok in H3 as (c3 & H3 & ->).
  apply CreateUser_Ok in H3 as (_ & Hfree & H3); [|done].
  apply abind_Ok in HE as (i & w4 & H4 & HE). apply awrap_Ok, svc_Ok in H4 as (c4 & H4 & ->).
  apply CreateUserIdentity_Ok in H4 as (row & Hs & Hx & Huid & Hnone & H4); [|done].
  apply aret_Ok in HE as [-> ->]. simpl in *. unfold core_db in *. simpl.
  rewrite H4, H3. simpl. split; [|right; split_and!; [done|congruence|by rewrite Hus]].
  unfold access_user, pgUserIdentityStore_FindBySourceAndExternalID, pgUserStore_FindByID. simpl.
  rewrite (select_one_unique _ _ (UserIdentity_ID row) row).
  - simpl. by rewrite Huid, lookup_insert_eq.
  - by rewrite lookup_insert_eq.
  - by rewrite Hs, Hx.
  - intros k r Hk [Hr1 Hr2]. apply lookup_insert_Some in Hk as [[_ <-]|[_ Hk]]; [done|].
    unfold pgUserIdentityStore_FindBySourceAndExternalID in Hnone. rewrite H3, select_one_None in Hnone.
    exfalso. by eapply (Hnone k r).
Qed.

(** While the identity belongs to a user, asking for it changes nothing and gives
    that user, or an error. *)
Lemma ensureUser_again pre m1 m2 m3 body g w u :
  access_user (core_db w) g = Some u →
  core_db (ensureUser pre m1 m2 m3 body g w).2 = core_db w ∧
  ∀ u', (ensureUser pre m1 m2 m3 body g w).1 = Ok u' → u' = u.
Proof.
  intros Hu. unfold ensureUser.
  destruct (find (GetUserByUserIdentity amieIdentitySource g) w) as [[o|e] w1] eqn:HF.
  - rewrite (abind_run _ _ _ _ _ HF).
    apply find_user_Ok in HF as (_ & Hdb & Ho). rewrite Hu in Ho. subst o. split; [done|]. by intros u' [= ->].
  - rewrite (abind_run_Err _ _ _ _ _ HF). split; [|done]. unfold find, mbind, AM_bind, acatch, svc in HF.
    assert (Quiet (GetUserByUserIdentity amieIdentitySource g)) as Hq
      by (unfold GetUserByUserIdentity, GetUser; solve_quiet).
    specialize (Hq (a_core w)). destruct (GetUserByUserIdentity _ _ _) as [[x|e'] c1]; [done|].
    injection Hq as Hq _ _ _. simpl in HF. destruct (errors_Is _ _); [done|]. injection HF as _ <-. exact Hq.
Qed.

(** C33: an [ensureUser] that succeeds, in whatever state and whichever round trips
    of it fail, leaves the person with one user: the AMIE identity names it, and
    either no user was added or exactly this one. From then on, in every state in
    which the identity still belongs to that user, [ensureUser] with the same
    identity, whatever else the packet carries, leaves the core database as it is
    and gives the same user or an error; without database faults it gives the
    user. *)
Theorem person_ensured_once pre m1 m2 m3 body g w u w' :
  ensureUser pre m1 m2 m3 body g w = (Ok u, w') →
  access_user (core_db w') g = Some u ∧
  (t_users (core_db w') = t_users (core_db w) ∨
   t_users (core_db w) !! User_ID u = None ∧ t_users (core_db w') = <[User_ID u := u]> (t_users (core_db w))) ∧
  ∀ pre' n1 n2 n3 body' w1, access_user (core_db w1) g = Some u →
    core_db (ensureUser pre' n1 n2 n3 body' g w1).2 = core_db w1 ∧
    (∀ u', (ensureUser pre' n1 n2 n3 body' g w1).1 = Ok u' → u' = u) ∧
    (NoFaults → (ensureUser pre' n1 n2 n3 body' g w1).1 = Ok u).
Proof.
  intros (Hg & Hu & Hcase)%ensureUser_Ok. split; [done|]. split.
  { destruct Hcase as [[_ ->]|(_ & ? & ?)]; auto. }
  intros pre' n1 n2 n3 body' w1 H1. destruct (ensureUser_again pre' n1 n2 n3 body' g w1 u H1) as [Hdb Hsame].
  split_and!; [done|done|]. intros HN. by destruct (ensureUser_found pre' n1 n2 n3 body' g w1 u Hg H1) as (w2 & -> & _).
Qed.

(** ** A person created half way *)

Lemma half_created_persons email g d d' :
  persons d' = persons d → half_created email g d → half_created email g d'.
Proof.
  unfold persons, half_created, email_taken, pgUserIdentityStore_FindBySourceAndExternalID.
  by intros [= -> ->].
Qed.

(** In such a state [m] fails, and leaves the state such. *)
Definition Stuck {A} (email g : string) (m : AM A) : Prop :=
  ∀ w, half_created email g (core_db w) → ∃ e w', m w = (Err e, w') ∧ keeps_persons w w'.

Lemma Stuck_bind {A B} email g (m : AM A) (k : A → AM B) : Stuck email g m → Stuck email g (m ≫= k).
Proof. intros Hm w (e & w' & HE & Hk)%Hm. exists e, w'. by rewrite (abind_run_Err _ _ _ _ _ HE). Qed.
Lemma Stuck_wrapf {A} email g f args (m : AM A) : Stuck email g m → Stuck email g (awrapf f args m).
Proof. intros Hm w (e & w' & HE & Hk)%Hm. eexists _, w'. by rewrite (awrap_run_Err _ _ _ _ _ _ HE). Qed.
Lemma Stuck_throw {A} email g e : Stuck email g (athrow e : AM A).
Proof. intros w _. by exists e, w. Qed.
Lemma Stuck_after {A B} email g (m : AM A) (k : A → AM B) :
  ARel keeps_persons m → (∀ w a w', half_created email g (core_db w) → m w = (Ok a, w') → Stuck email g (k a)) →
  Stuck email g (m ≫= k).
Proof.
  intros Hm Hk w Hh. specialize (Hm w). unfold mbind, AM_bind. destruct (m w) as [[a|e] w1] eqn:HE; simpl in Hm.
  - destruct (Hk w a w1 Hh HE w1) as (e & w2 & HE2 & Hk2); [by eapply half_created_persons|].
    exists e, w2. split; [done|]. unfold keeps_persons in *. by rewrite Hk2.
  - by exists e, w1.
Qed.
Lemma Stuck_pure {A B} email g (r : Res A) (k : A → AM B) :
  (∀ a, r = Ok a → Stuck email g (k a)) → Stuck email g (pure r ≫= k).
Proof. intros Hk. apply Stuck_after; [apply ARel_pure, _|]. intros w a w' _ [HE _]%pure_Ok. auto. Qed.

Lemma Stuck_CreateUser email g x :
  User_ID x = "" → User_Email x = email → Stuck email g (svc (CreateUser (Some x))).
Proof.
  intros Hid He w [Ht _]. unfold svc. destruct (CreateUser (Some x) (a_core w)) as [[u|e] c] eqn:HC.
  - apply CreateUser_Ok in HC as [Hn _]; [|done]. exfalso. apply Hn. by rewrite He.
  - exists e, (set_core c w). split; [done|].
    destruct (serve_err_db (ReqCreateUser (Some x)) (a_core w) e c) as [Hdb|(w'' & H'' & _)]; [done| |..].
    { unfold serve, ignore. by rewrite (bind_run_Err _ _ _ _ _ HC). }
    { unfold keeps_persons, core_db. simpl. by rewrite Hdb. }
    unfold serve, ignore in H''. apply bind_Ok in H'' as (u & w1 & H'' & _).
    apply (CreateUser_Ok (E := fault_free E)) in H'' as [Hn _]; [|done]. exfalso. apply Hn. by rewrite He.
Qed.

Lemma keeps_Start ctx : ARel keeps_persons (Start ctx).
Proof. intros w. done. Qed.

Lemma Stuck_ensureUser pre m1 m2 m3 body g :
  Stuck (getString body (pre +:+ "Email")) g (ensureUser pre m1 m2 m3 body g).
Proof.
  unfold ensureUser. apply Stuck_after.
  { apply keeps_find. unfold GetUserByUserIdentity, GetUser. solve_quiet. }
  intros w o w' [_ Hnone] (_ & _ & Ho)%find_user_Ok. unfold access_user in Ho. rewrite Hnone in Ho.
  simpl in Ho. rewrite Ho. apply Stuck_after; [apply ARel_wrapf, keeps_ensureOrganization|].
  intros w1 org w2 _ _. cbv zeta. apply Stuck_bind, Stuck_wrapf. by apply Stuck_CreateUser.
Qed.

Lemma Stuck_account_create cl ctx j p eid body :
  getBody j = Ok body →
  Stuck (getString body "UserEmail") (getString body "UserGlobalID")
    (RequestAccountCreateHandler_Handle cl ctx j p eid).
Proof.
  intros Hb. unfold RequestAccountCreateHandler_Handle. apply Stuck_after; [apply keeps_Start|].
  intros w ctx1 w1 _ _. rewrite Hb. apply Stuck_pure. intros b [= <-]. cbv zeta.
  do 3 (apply Stuck_pure; intros _ _). case_decide; [apply Stuck_throw|].
  apply Stuck_bind, Stuck_wrapf. exact (Stuck_ensureUser "User" _ _ _ body _).
Qed.

Lemma Stuck_project_create cl ctx j p eid body :
  getBody j = Ok body →
  Stuck (getString body "PiEmail") (getString body "PiGlobalID")
    (RequestProjectCreateHandler_Handle cl ctx j p eid).
Proof.
  intros Hb. unfold RequestProjectCreateHandler_Handle. apply Stuck_after; [apply keeps_Start|].
  intros w ctx1 w1 _ _. rewrite Hb. apply Stuck_pure. intros b [= <-]. cbv zeta.
  do 2 (apply Stuck_pure; intros _ _). case_decide; [apply Stuck_throw|].
  apply Stuck_bind, Stuck_wrapf. exact (Stuck_ensureUser "Pi" _ _ _ body _).
Qed.

(** C34: a packet about a person whose email a user already has, while no user has
    its AMIE identity, fails at every attempt: it fails, and the users and
    identities are after it what they were before. An attempt that stopped
    between creating the user and creating its identity leaves such a state, so
    its retries cannot succeed. *)
Theorem half_created_person_stuck cl ctx j p eid body email g w :
  getBody j = Ok body → half_created email g (core_db w) →
  (email = getString body "UserEmail" → g = getString body "UserGlobalID" →
   ∃ e w', RequestAccountCreateHandler_Handle cl ctx j p eid w = (Err e, w') ∧
     persons (core_db w') = persons (core_db w) ∧ half_created email g (core_db w')) ∧
  (email = getString body "PiEmail" → g = getString body "PiGlobalID" →
   ∃ e w', RequestProjectCreateHandler_Handle cl ctx j p eid w = (Err e, w') ∧
     persons (core_db w') = persons (core_db w) ∧ half_created email g (core_db w')).
Proof.
  intros Hb Hh. split; intros -> ->.
  - destruct (Stuck_account_create cl ctx j p eid body Hb w Hh) as (e & w' & HE & Hk).
    exists e, w'. split_and!; [done|done|by eapply half_created_persons].
  - destruct (Stuck_project_create cl ctx j p eid body Hb w Hh) as (e & w' & HE & Hk).
    exists e, w'. split_and!; [done|done|by eapply half_created_persons].
Qed.
End persons.
