(* ===== verification/AmieReplies.v ===== *)
(** * Replies to AMIE

    Every type of packet that asks for something is answered by one reply of the
    type the protocol pairs it with, sent as the last thing before its audit
    row; the other types are not answered. *)

From stdpp Require Import base gmap sets list strings.
From Stdlib Require Import ZArith.
From S2P Require Import Prelude GoError Models Schema Events IdentityCache Effects EffectsLogic Wire.
From S2P Require Import StoreAuth UserService AuthService ProjectService AllocationService MembershipService.
From S2P Require Import ServiceApi Posix AmieStore AmieEffects AmieHandlers AmieDispatch.

(** The reply that goes with each type of packet. *)
Definition answer_table : list (string * string) :=
  [("request_project_create", "notify_project_create");
   ("request_account_create", "notify_account_create");
   ("request_project_inactivate", "notify_project_inactivate");
   ("request_project_reactivate", "notify_project_reactivate");
   ("request_account_inactivate", "notify_account_inactivate");
   ("request_account_reactivate", "notify_account_reactivate");
   ("request_person_merge", "inform_transaction_complete");
   ("request_user_modify", "inform_transaction_complete");
   ("data_project_create", "inform_transaction_complete");
   ("data_account_create", "inform_transaction_complete")].
Definition answer_type (t : string) : option string :=
  snd ∘ snd <$> list_find (λ x, x.1 = t) answer_table.

(** What a run may add to the replies: with [Some t] exactly one of type [t] when
    it succeeds and at most one when it fails, with [None] nothing. *)
Definition answered (a : option string) (p : Z) (failed : bool) (w w' : AWorld) : Prop :=
  match a with
  | None => a_replies w' = a_replies w
  | Some t => (∃ b, a_replies w' = a_replies w ++ [(p, reply_json t b)]) ∨
              failed = true ∧ a_replies w' = a_replies w
  end.

Definition is_failure {A} (r : Res A) : bool := match r with Ok _ => false | Err _ => true end.

Section replies.
Context `{E : Env} `{AE : AmieEnv}.

(** ** Code that sends nothing *)

Definition no_reply : relation AWorld := λ w w', a_replies w' = a_replies w.
#[local] Instance no_reply_preorder : PreOrder no_reply.
Proof. split; unfold no_reply; [intros ?; done|]. intros ??? H1 H2. by rewrite H2, H1. Qed.

Lemma no_reply_svc {A} (m : M A) : ARel no_reply (svc m).
Proof. intros w. unfold svc. by destruct (m _). Qed.
Lemma no_reply_aquery {A} (f : AmieDB → A) : ARel no_reply (aquery f).
Proof. unfold aquery. apply ARel_bind; [apply _|apply no_reply_svc|intros _; apply ARel_gets, _]. Qed.
Lemma no_reply_aexec s : ARel no_reply (aexec s).
Proof.
  unfold aexec. apply ARel_bind; [apply _|apply no_reply_svc|intros _ w]. unfold apply_astmt. by destruct (s _).
Qed.
Lemma no_reply_aexec_audit e : ARel no_reply (aexec_audit e).
Proof.
  unfold aexec_audit. apply ARel_bind; [apply _|apply no_reply_svc|intros _ w]. unfold apply_audit.
  by destruct (pgAuditEventStore_Create _ _).
Qed.

Create HintDb noreply discriminated.
#[local] Hint Constants Opaque : noreply.

Ltac noreply_step :=
  lazymatch goal with
  | |- ∀ _, _ => intros ?
  | |- ARel _ (mret _) => apply ARel_ret, _
  | |- ARel _ (athrow _) => apply ARel_throw, _
  | |- ARel _ (pure _) => apply ARel_pure, _
  | |- ARel _ (agets _) => apply ARel_gets, _
  | |- ARel _ (awrapf _ _ _) => apply ARel_wrapf
  | |- ARel _ (acatch _) => apply ARel_catch
  | |- ARel _ (aeach _ _) => apply ARel_each; [apply _|]
  | |- ARel _ (acount _ _) => apply ARel_count; [apply _|]
  | |- ARel _ (agather _ _) => apply ARel_gather; [apply _|]
  | |- ARel _ (svc _) => apply no_reply_svc
  | |- ARel _ (aquery _) => apply no_reply_aquery
  | |- ARel _ (aexec_audit _) => apply no_reply_aexec_audit
  | |- ARel _ (aexec _) => apply no_reply_aexec
  | |- ARel _ (Start _) => intros ?; reflexivity
  | |- ARel _ (find _) => unfold find
  | |- ARel _ (_ ≫= _) => apply ARel_bind; [apply _| |]
  | |- ARel _ (if ?b then _ else _) => destruct b
  | |- ARel _ (match ?x with _ => _ end) => destruct x
  | |- ARel _ (let _ := _ in _) => cbv zeta
  | |- ARel _ _ => first [assumption | solve [auto 1 with noreply nocore]]
  end.
Ltac solve_noreply := repeat noreply_step.

Lemma no_reply_Log c p e a t i s : ARel no_reply (Log c p e a t i s).
Proof. unfold Log. solve_noreply. Qed.
Lemma no_reply_tryCandidates c u b ns : ARel no_reply (tryCandidates c u b ns).
Proof. induction ns as [|n ns IH]; simpl; solve_noreply. Qed.
#[local] Hint Resolve no_reply_Log no_reply_tryCandidates : noreply.
Lemma no_reply_ensureComputeClusterUser x c u : ARel no_reply (ensureComputeClusterUser x c u).
Proof. unfold ensureComputeClusterUser, allocateAndCreateClusterUser, posix_audit. solve_noreply. Qed.
Lemma no_reply_ensureUser a b c d e f : ARel no_reply (ensureUser a b c d e f).
Proof. unfold ensureUser, ensureOrganization. solve_noreply. Qed.
Lemma no_reply_ensureProject o g p : ARel no_reply (ensureProject o g p).
Proof. unfold ensureProject. solve_noreply. Qed.
Lemma no_reply_ensureAllocation c b p g : ARel no_reply (ensureAllocation c b p g).
Proof. unfold ensureAllocation, recordAllocationDiff. solve_noreply. Qed.
Lemma no_reply_ensureResourceMappings c x b a p e : ARel no_reply (ensureResourceMappings c x b a p e).
Proof. unfold ensureResourceMappings. solve_noreply. Qed.
Lemma no_reply_ensurePIMembership a p : ARel no_reply (ensurePIMembership a p).
Proof. unfold ensurePIMembership. solve_noreply. Qed.
Lemma no_reply_ensureMembership a u : ARel no_reply (ensureMembership a u).
Proof. unfold ensureMembership. solve_noreply. Qed.
#[local] Hint Resolve no_reply_ensureComputeClusterUser no_reply_ensureUser no_reply_ensureProject
  no_reply_ensureAllocation no_reply_ensureResourceMappings no_reply_ensurePIMembership
  no_reply_ensureMembership : noreply.
Lemma no_reply_deactivate c p e i m : ARel no_reply (deactivateAllocations c p e i m).
Proof. unfold deactivateAllocations, setAllocationStatus. solve_noreply. Qed.
Lemma no_reply_reactivate c p e i : ARel no_reply (reactivateAllocationsAndPI c p e i).
Proof. unfold reactivateAllocationsAndPI, setAllocationStatus. solve_noreply. Qed.
Lemma no_reply_flip p u s : ARel no_reply (flipUserMemberships p u s).
Proof. unfold flipUserMemberships. solve_noreply. Qed.
Lemma no_reply_ReassignUser f t : ARel no_reply (pgUserDNStore_ReassignUser f t).
Proof. unfold pgUserDNStore_ReassignUser. solve_noreply. Qed.
Lemma no_reply_applyReplace c p e b u g : ARel no_reply (applyReplace c p e b u g).
Proof. unfold applyReplace, updateUserIdentity, syncDNs, removeDNs, addDN. solve_noreply. Qed.
Lemma no_reply_deleteDNs c p e b u : ARel no_reply (deleteDNs c p e b u).
Proof. unfold deleteDNs, removeDNs. solve_noreply. Qed.
Lemma no_reply_addDN u d : ARel no_reply (addDN u d).
Proof. unfold addDN. solve_noreply. Qed.
Lemma no_reply_ensureUserIdentity u g : ARel no_reply (ensureUserIdentity u g).
Proof. unfold ensureUserIdentity. solve_noreply. Qed.
#[local] Hint Resolve no_reply_deactivate no_reply_reactivate no_reply_flip no_reply_ReassignUser
  no_reply_applyReplace no_reply_deleteDNs no_reply_addDN no_reply_ensureUserIdentity : noreply.

(** ** Code that answers *)

Definition Answers {A} (a : option string) (p : Z) (m : AM A) : Prop :=
  ∀ w, answered a p (is_failure (m w).1) w (m w).2.

Lemma Answers_none {A} p (m : AM A) : ARel no_reply m → Answers None p m.
Proof. intros Hm w. exact (Hm w). Qed.
Lemma Answers_throw {A} a p e : Answers a p (athrow e : AM A).
Proof. intros w. destruct a; simpl; auto. Qed.
Lemma Answers_bind {A B} a p (m : AM A) (k : A → AM B) :
  ARel no_reply m → (∀ x, Answers a p (k x)) → Answers a p (m ≫= k).
Proof.
  intros Hm Hk w. specialize (Hm w). unfold mbind, AM_bind. destruct (m w) as [[x|e] w1]; unfold no_reply in Hm; simpl in *.
  - specialize (Hk x w1). unfold answered in *. by rewrite Hm in Hk.
  - destruct a; simpl; auto.
Qed.

Lemma Answers_send_reply n c p e t b :
  Answers (Some t) (Packet_AmieID p) (send_reply n c p e (reply_json t b)).
Proof.
  intros w. unfold send_reply, ReplyToPacket, awrapf, http_do, mbind, AM_bind. simpl.
  destruct (http (a_http w)) as [r|]; [case_decide|]; simpl;
    try (destruct (http_taken _); simpl; [left; by exists b|by right]).
  match goal with |- context [Log ?c ?p ?e ?a ?t ?i ?s ?w] =>
    pose proof (no_reply_Log c p e a t i s w) as Hl; destruct (Log c p e a t i s w) as [[[]|err] w1] end;
    unfold no_reply in Hl; simpl in *; rewrite Hl; left; by exists b.
Qed.

Ltac answers_step :=
  lazymatch goal with
  | |- ∀ _, _ => intros ?
  | |- Answers _ _ (athrow _) => apply Answers_throw
  | |- Answers _ _ (send_reply _ _ _ _ _) => apply Answers_send_reply
  | |- Answers _ _ (_ ≫= _) => apply Answers_bind; [solve [solve_noreply]|]
  | |- Answers _ _ (if ?b then _ else _) => destruct b
  | |- Answers _ _ (match ?x with _ => _ end) => destruct x
  | |- Answers _ _ (let _ := _ in _) => cbv zeta
  end.
Ltac solve_answers := repeat answers_step.

Lemma answers_project_create cl c j p e :
  Answers (Some "notify_project_create") (Packet_AmieID p) (RequestProjectCreateHandler_Handle cl c j p e).
Proof. unfold RequestProjectCreateHandler_Handle, ensurePIUser. solve_answers. Qed.
Lemma answers_account_create cl c j p e :
  Answers (Some "notify_account_create") (Packet_AmieID p) (RequestAccountCreateHandler_Handle cl c j p e).
Proof. unfold RequestAccountCreateHandler_Handle, ensureAccountUser. solve_answers. Qed.
Lemma answers_project_inactivate c j p e :
  Answers (Some "notify_project_inactivate") (Packet_AmieID p) (RequestProjectInactivateHandler_Handle c j p e).
Proof. unfold RequestProjectInactivateHandler_Handle. solve_answers. Qed.
Lemma answers_project_reactivate c j p e :
  Answers (Some "notify_project_reactivate") (Packet_AmieID p) (RequestProjectReactivateHandler_Handle c j p e).
Proof. unfold RequestProjectReactivateHandler_Handle. solve_answers. Qed.
Lemma answers_account_status n f s a m c j p e :
  Answers (Some f) (Packet_AmieID p) (account_status_handler n f s a m c j p e).
Proof. unfold account_status_handler. solve_answers. Qed.
Lemma answers_person_merge c j p e :
  Answers (Some "inform_transaction_complete") (Packet_AmieID p) (RequestPersonMergeHandler_Handle c j p e).
Proof. unfold RequestPersonMergeHandler_Handle, transaction_complete. solve_answers. Qed.
Lemma answers_user_modify c j p e :
  Answers (Some "inform_transaction_complete") (Packet_AmieID p) (RequestUserModifyHandler_Handle c j p e).
Proof. unfold RequestUserModifyHandler_Handle, transaction_complete. solve_answers. Qed.
Lemma answers_data n r s c j p e :
  Answers (Some "inform_transaction_complete") (Packet_AmieID p) (data_handler n r s c j p e).
Proof. unfold data_handler, transaction_complete. solve_answers. Qed.
Lemma answers_inform c j p e : Answers None (Packet_AmieID p) (InformTransactionCompleteHandler_Handle c j p e).
Proof. apply Answers_none. unfold InformTransactionCompleteHandler_Handle. solve_noreply. Qed.
Lemma answers_noop c j p e : Answers None (Packet_AmieID p) (NoOpHandler_Handle c j p e).
Proof. apply Answers_none. unfold NoOpHandler_Handle. solve_noreply. Qed.

(** ** The router *)

(** A handler answers as its type asks for. *)
Definition handler_answers (h : PacketHandler) : Prop :=
  ∀ c j p e, Answers (answer_type (ToLower (SupportsType h))) (Packet_AmieID p) (Handle h c j p e).

Lemma handlers_answer cl : Forall handler_answers (handlers cl).
Proof.
  unfold handlers. repeat apply Forall_cons_2; [..|by apply Forall_nil_2]; intros c j p e; cbn [Handle SupportsType].
  - exact (answers_project_create cl c j p e).
  - exact (answers_account_create cl c j p e).
  - exact (answers_project_inactivate c j p e).
  - exact (answers_project_reactivate c j p e).
  - exact (answers_account_status _ _ _ _ _ c j p e).
  - exact (answers_account_status _ _ _ _ _ c j p e).
  - exact (answers_person_merge c j p e).
  - exact (answers_user_modify c j p e).
  - exact (answers_data _ _ _ c j p e).
  - exact (answers_data _ _ _ c j p e).
  - exact (answers_inform c j p e).
  - exact (answers_noop c j p e).
Qed.

(** A router holds each handler under its own type, and the last of type "*"
    apart. *)
Lemma NewRouter_lookup hs t h :
  r_handlers (NewRouter hs) !! t = Some h → h ∈ hs ∧ ToLower (SupportsType h) = t.
Proof.
  unfold NewRouter. assert (∀ r : Router, r_handlers (foldl add_handler r hs) !! t = Some h →
    r_handlers r !! t = Some h ∨ h ∈ hs ∧ ToLower (SupportsType h) = t) as Hgen; [|].
  2:{ intros [HF|HF]%Hgen; [|done]. simpl in HF. by rewrite lookup_empty in HF. }
  induction hs as [|h' hs IH]; intros r HF; simpl in HF; [by left|].
  apply IH in HF as [HF|[? ?]]; [|right; split; [by apply list_elem_of_further|done]].
  unfold add_handler in HF. case_decide; simpl in HF; [by left|]. apply lookup_insert_Some in HF as [[<- <-]|[_ ?]]; [|by left].
  right. split; [apply list_elem_of_here|done].
Qed.

Lemma NewRouter_noop hs h : r_noop (NewRouter hs) = Some h → h ∈ hs ∧ ToLower (SupportsType h) = "*".
Proof.
  unfold NewRouter. assert (∀ r : Router, r_noop (foldl add_handler r hs) = Some h →
    r_noop r = Some h ∨ h ∈ hs ∧ ToLower (SupportsType h) = "*") as Hgen; [|].
  2:{ by intros [HF|HF]%Hgen. }
  induction hs as [|h' hs IH]; intros r HF; simpl in HF; [by left|].
  apply IH in HF as [HF|[? ?]]; [|right; split; [by apply list_elem_of_further|done]].
  unfold add_handler in HF. case_decide; simpl in HF; [|by left]. simplify_eq. right. split; [apply list_elem_of_here|done].
Qed.

Lemma NewRouter_dom hs h : h ∈ hs → ToLower (SupportsType h) ≠ "*" →
  is_Some (r_handlers (NewRouter hs) !! ToLower (SupportsType h)).
Proof.
  intros Hin Hn. apply list_elem_of_split in Hin as (l & r & ->). unfold NewRouter. rewrite foldl_app. simpl.
  generalize (foldl add_handler (mkRouter ∅ None) l). intros r1.
  assert (is_Some (r_handlers (add_handler r1 h) !! ToLower (SupportsType h))) as Hs.
  { unfold add_handler. rewrite decide_False by done. simpl. by rewrite lookup_insert_eq. }
  revert Hs. generalize (add_handler r1 h). induction r as [|h' r IH]; intros r2 Hs; simpl; [done|].
  apply IH. unfold add_handler. case_decide; simpl; [done|].
  destruct (decide (ToLower (SupportsType h') = ToLower (SupportsType h))) as [->|].
  - by rewrite lookup_insert_eq.
  - by rewrite lookup_insert_ne.
Qed.

(** Every type that is answered has a handler. *)
Lemma answer_registered cl t a :
  answer_type t = Some a → is_Some (r_handlers (dispatcher cl) !! t).
Proof.
  unfold answer_type. intros ([i [t' a']] & Hf & _)%fmap_Some. apply list_find_Some in Hf as (Hi & Ht & _).
  simpl in Ht. subst t'. apply list_elem_of_lookup_2, (list_elem_of_fmap_2 fst) in Hi. change ((t, a').1) with t in Hi.
  assert (answer_table.*1 = take 10 ((ToLower ∘ SupportsType) <$> handlers cl)) as Heq by reflexivity.
  assert (t ≠ "*") as Hne by (intros ->; revert Hi; apply (bool_decide_unpack _); vm_compute; exact I).
  rewrite Heq in Hi. apply elem_of_take in Hi as (k & Hk & _).
  rewrite list_lookup_fmap in Hk. apply fmap_Some in Hk as (h & Hh & ->).
  apply NewRouter_dom; [by eapply list_elem_of_lookup_2|done].
Qed.

(** C31: one attempt at a packet ([Route]) answers it as its type asks for, whatever
    the case of the type: when it succeeds, AMIE has taken exactly one reply more,
    of the paired type and under the packet's AMIE id; when it fails, at most one
    (a reply counts as taken also when AMIE took it and the response was lost);
    packets of the other types are never answered. A packet attempted again, after
    a failure that came later than its reply, is answered again. *)
Theorem packet_answered cl ctx j p eid w :
  answered (answer_type (ToLower (Packet_Type p))) (Packet_AmieID p)
    (is_failure (Route (dispatcher cl) ctx j p eid w).1) w (Route (dispatcher cl) ctx j p eid w).2.
Proof.
  pose proof (proj1 (Forall_forall _ _) (handlers_answer cl)) as Hall. unfold Route, dispatcher.
  destruct (r_handlers _ !! _) as [h|] eqn:Hr.
  { apply NewRouter_lookup in Hr as [Hin <-]. exact (Hall h Hin ctx j p eid w). }
  destruct (answer_type _) as [t|] eqn:Ha.
  { apply (answer_registered cl) in Ha as [h Hh]. unfold dispatcher in Hh. congruence. }
  destruct (r_noop _) as [h|] eqn:Hn; [|done].
  apply NewRouter_noop in Hn as [Hin Ht]. specialize (Hall h Hin ctx j p eid w). by rewrite Ht in Hall.
Qed.
End replies.
