(* ===== verification/AmieScenario.v ===== *)
(** * AMIE: concrete runs

    A packet that creates a project, taken from the list of AMIE to its end, and
    runs that fail on the way: the theorems on the connector are instantiated on
    them, and the behaviours reported as findings are exhibited. *)

From stdpp Require Import base gmap sets list strings pretty.
From Stdlib Require Import ZArith Ascii SpecFloat Lia.
From S2P Require Import Prelude GoError Models Schema Events IdentityCache Effects EffectsLogic Wire.
From S2P Require Import StoreIdentity StoreCluster StoreAuth UserService AuthService ProjectService ServiceApi ServiceTheorems.
From S2P Require Import Scenario ProjectTheorems IdentityTheorems Posix AmieStore AmieEffects AmieHandlers.
From S2P Require Import AmieDispatch AmieWorker AmieFacts AmieMachine AmieTheorems AmieDNs.
From S2P Require Import AmieAccounts AmieReplies.

Definition number (n : positive) : Any := ANum (S754_finite false n 0).

(** AMIE asks for a project with 1000 service units. *)
Definition project_packet : Obj :=
  [("type", AStr "request_project_create");
   ("header", AObj [("packet_rec_id", number 77)]);
   ("body", AObj
     [("GrantNumber", AStr "TG-42"); ("PiGlobalID", AStr "g1"); ("PiOrgCode", AStr "X");
      ("PiOrganization", AStr "XOrg"); ("PiEmail", AStr "pi@x.org"); ("PiFirstName", AStr "Ada");
      ("PiLastName", AStr "Lovelace"); ("ServiceUnitsAllocated", AStr "1000");
      ("StartDate", AStr "2026-01-01"); ("EndDate", AStr "2027-01-01");
      ("ResourceList", AArr [AStr "cpu"])])].

(** An endpoint that lists the packets [ps] at the first request, refuses the
    requests of [l] with [text], and accepts the others. *)
Program Definition amie_env (ps : list Obj) (text : string) (l : list nat) : AmieEnv := {|
  otel_trace n := "trace" +:+ pretty n;
  otel_span n := "span" +:+ pretty n;
  http n := if decide (n = 0) then Some (mkHttpResponse 200 "" (Some (AObj [("result", AArr (AObj <$> ps))])))
            else if decide (n ∈ l) then Some (mkHttpResponse 500 text None)
            else Some (mkHttpResponse 200 "" None);
  http_taken _ := false;
  range_keys s := elements s;
  POSIX_USERNAME_PREFIX := "";
  int64_overflow _ := (-9223372036854775808)%Z |}.
Next Obligation. done. Qed.

(** Everything is accepted, the first reply is refused, or all are. *)
Definition up : AmieEnv := amie_env [project_packet] "" [].
Definition down_once : AmieEnv := amie_env [project_packet] "down" [1].
Definition down : AmieEnv := amie_env [project_packet] "down" [1; 2; 3].

Definition polled (AE : AmieEnv) (w : AWorld) : AWorld := (@pollForPackets env0 AE w).2.
Definition passed (AE : AmieEnv) (w : AWorld) : AWorld :=
  (@processPendingEvents env0 AE (@dispatcher env0 AE "delta") w).2.
(** A hundred ticks later. *)
Definition late (w : AWorld) : AWorld := set_core (Nat.iter 100 bump_clock (a_core w)) w.

Definition w_amie : AWorld := init_amie w_setup.
Definition w_polled : AWorld := polled up w_amie.
Definition w_done : AWorld := passed up w_polled.
Definition w_polled1 : AWorld := polled down_once w_amie.
Definition w_failed : AWorld := passed down_once w_polled1.

(** The rows of the packet. *)
Definition packet_id : string := "id4".
Definition event_id : string := "id5".

Lemma polled_step AE w : @amie_step env0 AE "delta" w (polled AE w).
Proof. exact (@step_poll env0 AE "delta" w). Qed.
Lemma passed_step AE w : @amie_step env0 AE "delta" w (passed AE w).
Proof. exact (@step_process env0 AE "delta" w). Qed.
#[local] Opaque polled passed.
Lemma polled_reachable : @amie_reachable env0 up "delta" w_amie w_polled.
Proof. exact (amie_next _ _ _ _ (amie_init _ _) (polled_step up w_amie)). Qed.
Lemma done_reachable : @amie_reachable env0 up "delta" w_amie w_done.
Proof. exact (amie_next _ _ _ _ polled_reachable (passed_step up w_polled)). Qed.
Lemma polled1_reachable : @amie_reachable env0 down_once "delta" w_amie w_polled1.
Proof. exact (amie_next _ _ _ _ (amie_init _ _) (polled_step down_once w_amie)). Qed.
Lemma failed_reachable : @amie_reachable env0 down_once "delta" w_amie w_failed.
Proof. exact (amie_next _ _ _ _ polled1_reachable (passed_step down_once w_polled1)). Qed.
#[local] Opaque w_amie w_polled w_done w_polled1 w_failed.

Lemma amie_inv_polled : @amie_inv env0 (a_db w_polled).
Proof. apply (reachable_inv _ _ _ (init_inv w_setup) polled_reachable). Qed.
Lemma amie_inv_polled1 : @amie_inv env0 (a_db w_polled1).
Proof. apply (reachable_inv _ _ _ (init_inv w_setup) polled1_reachable). Qed.
Lemma amie_inv_done : @amie_inv env0 (a_db w_done).
Proof. apply (reachable_inv _ _ _ (init_inv w_setup) done_reachable). Qed.

(** The rows of the packet, read from a state. *)
Definition event_of (w : AWorld) : ProcessingEvent :=
  default (mkProcessingEvent "" "" "" "" 0 0 None None None None) (t_events (a_db w) !! event_id).
Definition packet_of (w : AWorld) : Packet :=
  default (mkPacket "" 0 "" "" None 0 None None 0 None) (t_packets (a_db w) !! packet_id).

Lemma polled_phase : @has_phase env0 (a_db w_polled) event_id (Waiting 0).
Proof.
  exists (event_of w_polled), (packet_of w_polled). split; [vm_compute; reflexivity|].
  split; [vm_compute; reflexivity|]. apply in_new; vm_compute; reflexivity.
Qed.
Lemma done_phase : @has_phase env0 (a_db w_done) event_id (Done 1).
Proof.
  exists (event_of w_done), (packet_of w_done). split; [vm_compute; reflexivity|].
  split; [vm_compute; reflexivity|]. apply in_done; try (vm_compute; reflexivity). split; vm_compute; discriminate.
Qed.

(** ** The life of the packet *)

Lemma packets_stored_once_witness :
  ∃ eid e ph, t_events (a_db w_done) !! eid = Some e ∧ PEvent_PacketID e = packet_id ∧
    @in_phase env0 e (packet_of w_done) ph.
Proof.
  destruct (@packets_stored_once env0 up "delta" w_setup w_done packet_id (packet_of w_done))
    as [_ (eid & e & ph & He & Hp & Hph & _)].
  - exact done_reachable.
  - vm_compute. reflexivity.
  - exact (ex_intro _ eid (ex_intro _ e (ex_intro _ ph (conj He (conj Hp Hph))))).
Defined.

Lemma events_follow_machine_witness :
  ∃ ph, @has_phase env0 (a_db w_done) event_id ph ∧
    (ph = Waiting 0 ∨ attempt (Waiting 0) ph ∨ @some_lost env0 ∧ relapse (Waiting 0) ph).
Proof.
  apply (proj1 (@events_follow_machine env0 up "delta" w_polled w_done amie_inv_polled (passed_step up w_polled))
           event_id (Waiting 0)). exact polled_phase.
Defined.

Lemma finished_events_stay_witness : @has_phase env0 (a_db (passed up w_done)) event_id (Done 1).
Proof.
  exact (@finished_events_stay env0 up "delta" w_done (passed up w_done) event_id (Done 1) amie_inv_done done_phase I
    (amie_next _ _ _ _ (amie_init _ _) (passed_step up w_done))).
Defined.

Lemma amie_keeps_core_ok_witness : integrity (core_db w_done) ∧ one_pi (core_db w_done).
Proof.
  exact (@amie_keeps_core_ok env0 up "delta" w_amie w_done w_setup_integrity w_setup_one_pi done_reachable).
Defined.

(** ** A refused reply *)

(** The event as a pass selects it, and an attempt at it. *)
Definition due (w : AWorld) : EventWithPacket :=
  default (mkEventWithPacket (event_of w) 0 "" None) (with_packet (a_db w) (event_of w)).
Definition attempted : Res unit * AWorld :=
  @executeInTransaction env0 down_once (@dispatcher env0 down_once "delta") (due w_polled1) w_polled1.
Definition refusal : error :=
  match attempted.1 with Err e => e | Ok _ => NewError "" [] end.
Lemma attempted_Err :
  @executeInTransaction env0 down_once (@dispatcher env0 down_once "delta") (due w_polled1) w_polled1
  = (Err refusal, attempted.2).
Proof.
  fold attempted. assert (attempted.1 = Err refusal) as Hr by (vm_compute; reflexivity).
  destruct attempted. simpl in Hr. by rewrite Hr.
Qed.
#[local] Opaque attempted refusal event_of packet_of due.

Lemma failed_attempt_rolled_back_witness :
  a_db attempted.2 = a_db w_polled1 ∧ @core_evolves env0 (core_db w_polled1) (core_db attempted.2).
Proof. exact (@failed_attempt_rolled_back env0 down_once _ "delta" _ w_polled1 refusal attempted.2 attempted_Err). Defined.

Lemma due_current : current (a_db w_polled1) (due w_polled1).
Proof. split; [vm_compute; reflexivity|]. split; [vm_compute; reflexivity|]. left. vm_compute. reflexivity. Qed.
Lemma refusal_storable : storable refusal.
Proof. split; vm_compute; reflexivity. Qed.


(** The failure is recorded, and the event is selected again a hundred seconds
    later. *)
Definition recorded : Res unit * AWorld :=
  @recordFailureInNewTransaction env0 event_id refusal w_polled1.
Lemma recorded_Ok : @recordFailureInNewTransaction env0 event_id refusal w_polled1 = (Ok tt, recorded.2).
Proof.
  fold recorded. assert (recorded.1 = Ok tt) as Hr by (vm_compute; reflexivity).
  destruct recorded. simpl in Hr. by rewrite Hr.
Qed.
#[local] Opaque recorded.

Lemma retry_waits_witness :
  (@clock env0 (S (w_clock (a_core w_polled1))) + 30 * 2 ^ PEvent_Attempts (event_of w_polled1) * 1000000
   <= 100000000)%Z.
Proof.
  apply (@retry_waits env0 event_id refusal (event_of w_polled1) w_polled1 recorded.2 amie_inv_polled1) with
    (x := due recorded.2).
  - vm_compute. reflexivity.
  - left. vm_compute. reflexivity.
  - exact recorded_Ok.
  - vm_compute. reflexivity.
  - apply list_elem_of_lookup_2 with 0. vm_compute. reflexivity.
  - vm_compute. reflexivity.
Defined.

(** The packet fails because its reply was refused, and is retried: the
    allocation exists by then, so the 1000 service units of the grant are
    recorded a second time, as a diff on top of the allocation. *)
Definition w_retried : AWorld := passed down_once (late w_failed).
#[local] Opaque w_retried.

Example retry_doubles_grant :
  let d := core_db w_retried in
  (PEvent_Status (event_of w_retried), PEvent_Attempts (event_of w_retried), length (a_replies w_retried),
   (λ x, (x.1, ComputeAllocation_InitialSUAmount x.2)) <$> filter (λ x, ComputeAllocation_Name x.2 = "TG-42")
      (map_to_list (t_compute_allocations d)),
   (λ x, (Diff_ComputeAllocationID x.2, Diff_DiffType x.2, Diff_NewSUAmount x.2)) <$> map_to_list (t_diffs d))
  = ("SUCCEEDED", 2%Z, 1, [("id15", 1000%Z)], [("id15", "GRANT", 1000%Z)]).
Proof. vm_compute. reflexivity. Qed.

(** ** DNs *)

(** alice and bob hold one DN each. *)
Definition dn_rows : dberr + AmieDB :=
  match pgUserDNStore_Add (mkUserDN "dn1" "alice" "/CN=a" 0) 0 (a_db w_polled) with
  | inl e => inl e
  | inr d => pgUserDNStore_Add (mkUserDN "dn2" "bob" "/CN=b" 0) 0 d
  end.
Definition dn_db : AmieDB := match dn_rows with inr d => d | inl _ => a_db w_polled end.
Definition w_dns : AWorld := set_atx dn_db (set_adb dn_db w_polled).

Lemma dn_db_integrity : amie_integrity dn_db.
Proof.
  assert (dn_rows = inr dn_db) as Hd by (vm_compute; reflexivity). unfold dn_rows in Hd.
  destruct (pgUserDNStore_Add (mkUserDN "dn1" "alice" "/CN=a" 0) 0 (a_db w_polled)) as [e|d] eqn:H1; [done|].
  apply (pgUserDNStore_Add_pres _ _ _ _ Hd). apply (pgUserDNStore_Add_pres _ _ _ _ H1), (@i_integrity env0), amie_inv_polled.
Qed.

Lemma uuid_inj : Inj (=) (=) (@uuid env0).
Proof. 
  intros n m Hnm. change (String "i"%char (String "d"%char (pretty n)) = String "i"%char (String "d"%char (pretty m))) in Hnm.
  injection Hnm as Hnm. exact (inj pretty n m Hnm).
Qed.

Lemma dn_ids_fresh : @fresh_dn_ids env0 w_dns.
Proof.
  intros n _. change (t_user_dns dn_db !! @uuid env0 n = None).
  assert (t_user_dns dn_db = {["dn1" := mkUserDN "dn1" "alice" "/CN=a" 0; "dn2" := mkUserDN "dn2" "bob" "/CN=b" 0]})
    as -> by (vm_compute; reflexivity).
  rewrite lookup_insert_ne by discriminate. by rewrite lookup_singleton_ne by discriminate.
Qed.

(** alice's list becomes a DN of her own, a new one and one bob holds. *)
Definition dn_body : Obj := [("DnList", AArr [AStr "/CN=b"; AStr "/CN=c"; AStr "/CN=a"])].
Definition dn_packet : Packet := mkPacket packet_id 78 "request_user_modify" "NEW" None 0 None None 0 None.
Definition synced : Res unit * AWorld := @syncDNs env0 up Background dn_packet event_id dn_body "alice" w_dns.
Lemma synced_Ok : @syncDNs env0 up Background dn_packet event_id dn_body "alice" w_dns = (Ok tt, synced.2).
Proof.
  fold synced. assert (synced.1 = Ok tt) as Hr by (vm_compute; reflexivity).
  destruct synced. simpl in Hr. by rewrite Hr.
Qed.
#[local] Opaque synced dn_db.

Lemma sync_dns_result_witness :
  (holds (a_tx synced.2) "alice" "/CN=b" ↔
     "/CN=b" ∈ getDNList dn_body ∧ ∀ v, v ≠ "alice" → ¬ holds (a_db w_dns) v "/CN=b") ∧
  (holds (a_tx synced.2) "bob" "/CN=b" ↔ holds (a_db w_dns) "bob" "/CN=b").
Proof.
  destruct (@sync_dns_result env0 up Background dn_packet event_id dn_body "alice" w_dns synced.2 uuid_inj dn_ids_fresh
              eq_refl dn_db_integrity) as [H1 H2].
  - vm_compute. discriminate.
  - exact synced_Ok.
  - split; [exact (H1 "/CN=b")|]. apply H2. discriminate.
Defined.

(** The audit row counts the DN bob holds as added: the list went from one DN to
    two. *)
Example sync_counts_skipped_dns :
  (AuditEvent_Details <$> (map_to_list (a_txaudit synced.2)).*2,
   length (pgUserDNStore_ListByUser "alice" (a_db w_dns)), length (pgUserDNStore_ListByUser "alice" (a_tx synced.2)))
  = (["DN sync: +2 -0"], 1, 2).
Proof. vm_compute. reflexivity. Qed.

Definition moved : Res unit * AWorld := @pgUserDNStore_ReassignUser env0 "alice" "bob" w_dns.
Lemma moved_Ok : @pgUserDNStore_ReassignUser env0 "alice" "bob" w_dns = (Ok tt, moved.2).
Proof.
  fold moved. assert (moved.1 = Ok tt) as Hr by (vm_compute; reflexivity).
  destruct moved. simpl in Hr. by rewrite Hr.
Qed.
#[local] Opaque moved.

Lemma merge_moves_dns_witness :
  holds (a_tx moved.2) "bob" "/CN=a" ↔
    ("bob" ≠ "alice" ∧ holds (a_tx w_dns) "bob" "/CN=a") ∨ ("bob" = "bob" ∧ holds (a_tx w_dns) "alice" "/CN=a").
Proof.
  apply (@merge_moves_dns env0 "alice" "bob" w_dns moved.2 dn_db_integrity); [discriminate|exact moved_Ok].
Defined.

(** ** Accounts and persons *)

Definition account : Res ComputeClusterUser * AWorld :=
  @allocateAndCreateClusterUser env0 up Background "delta" "carol" w_amie.
Definition carol_account : ComputeClusterUser := mkComputeClusterUser "id4" "delta" "carol" "custos-cc" None.
Lemma account_Ok :
  @allocateAndCreateClusterUser env0 up Background "delta" "carol" w_amie = (Ok carol_account, account.2).
Proof.
  fold account. assert (account.1 = Ok carol_account) as Hr by (vm_compute; reflexivity).
  destruct account. simpl in Hr. by rewrite Hr.
Qed.
#[local] Opaque account.

Lemma account_allocated_witness :
  ∃ user base cut n name, t_users (core_db w_amie) !! "carol" = Some user ∧
    BuildBase user (Prefix (@POSIX_USERNAME_PREFIX up)) = Some (Ok (base, cut)) ∧ n < MaxCollisionSuffix ∧
    "custos-cc" = candidate base n ∧
    (∀ m, m < n → name_taken (core_db w_amie) "delta" (candidate base m)) ∧
    ¬ name_taken (core_db w_amie) "delta" (candidate base n) ∧
    candidate base n = Prefix (@POSIX_USERNAME_PREFIX up) +:+ "-" +:+ name ∧
    (String.length (Prefix (@POSIX_USERNAME_PREFIX up)) ≤ 27 → name ≠ "") ∧
    string_forall alnum name = true ∧ String.length (candidate base n) ≤ 32 ∧
    "delta" = "delta" ∧ "carol" = "carol" ∧
    t_compute_cluster_users (core_db account.2) = <["id4" := carol_account]> (t_compute_cluster_users (core_db w_amie)).
Proof. exact (@account_allocated env0 up Background "delta" "carol" w_amie carol_account account.2 account_Ok). Defined.

Definition ensured : Res ComputeClusterUser * AWorld :=
  @ensureComputeClusterUser env0 up Background "delta" "carol" w_amie.
Lemma ensured_Ok :
  @ensureComputeClusterUser env0 up Background "delta" "carol" w_amie = (Ok carol_account, ensured.2).
Proof.
  fold ensured. assert (ensured.1 = Ok carol_account) as Hr by (vm_compute; reflexivity).
  destruct ensured. simpl in Hr. by rewrite Hr.
Qed.
#[local] Opaque ensured.

Lemma account_ensured_once_witness :
  (@ensureComputeClusterUser env0 up Background "delta" "carol" ensured.2).1 = Ok carol_account ∧
  core_db (@ensureComputeClusterUser env0 up Background "delta" "carol" ensured.2).2 = core_db ensured.2.
Proof.
  exact (@account_ensured_once env0 up _ Background Background "delta" "carol" w_amie carol_account ensured.2 ensured_Ok).
Defined.

(** The PI of the packet. *)
Definition packet_body : Obj := match getBody project_packet with Ok b => b | Err _ => [] end.
Definition pi_user : Res User * AWorld := @ensurePIUser env0 packet_body "g1" w_amie.
Definition ada : User := mkUser "id5" "id4" "Ada" "Lovelace" "" "pi@x.org" "PENDING" "CLUSTER_LOCAL".
Lemma pi_user_Ok : @ensurePIUser env0 packet_body "g1" w_amie = (Ok ada, pi_user.2).
Proof.
  fold pi_user. assert (pi_user.1 = Ok ada) as Hr by (vm_compute; reflexivity).
  destruct pi_user. simpl in Hr. by rewrite Hr.
Qed.
#[local] Opaque pi_user.

Lemma person_ensured_once_witness :
  access_user (core_db pi_user.2) "g1" = Some ada ∧
  (t_users (core_db pi_user.2) = t_users (core_db w_amie) ∨
   t_users (core_db w_amie) !! "id5" = None ∧
   t_users (core_db pi_user.2) = <["id5" := ada]> (t_users (core_db w_amie))) ∧
  (@ensureAccountUser env0 [] "g1" pi_user.2).1 = Ok ada ∧
  core_db (@ensureAccountUser env0 [] "g1" pi_user.2).2 = core_db pi_user.2.
Proof.
  destruct (@person_ensured_once env0 "Pi" "ensure PI organization: %w" "create PI user: %w"
    "create PI user identity: %w" packet_body "g1" w_amie ada pi_user.2 pi_user_Ok) as (Hu & Husers & Hlater).
  split; [exact Hu|]. split; [exact Husers|].
  destruct (Hlater "User" "ensure user organization: %w" "create user: %w" "create user identity: %w" []
    pi_user.2 Hu) as (Hdb & _ & Hok).
  split; [exact (Hok _)|exact Hdb].
Defined.

(** A packet about a person who is known as alice, but not to AMIE. *)
Definition alice_packet : Obj :=
  [("body", AObj [("ProjectID", AStr "proj"); ("GrantNumber", AStr "TG-1"); ("UserGlobalID", AStr "g9");
                  ("UserOrgCode", AStr "X"); ("UserEmail", AStr "alice@example.org")])].
Definition alice_body : Obj := match getBody alice_packet with Ok b => b | Err _ => [] end.

Lemma alice_half_created : half_created "alice@example.org" "g9" (core_db w_amie).
Proof.
  split; [|vm_compute; reflexivity]. exists "alice". eexists. split; vm_compute; reflexivity.
Qed.

Lemma half_created_person_stuck_witness :
  ∃ e w', @RequestAccountCreateHandler_Handle env0 up "delta" Background alice_packet dn_packet event_id w_amie
    = (Err e, w') ∧ persons (core_db w') = persons (core_db w_amie) ∧
    half_created "alice@example.org" "g9" (core_db w').
Proof.
  apply (proj1 (@half_created_person_stuck env0 up "delta" Background alice_packet dn_packet event_id alice_body
    "alice@example.org" "g9" w_amie eq_refl alice_half_created)); reflexivity.
Defined.

(** The connection is lost just after the user of the packet was created: what is
    left is such a state, and the retry of the packet fails for good. *)
Definition env_lost : Env := env_fault [84].
Definition w_lost : AWorld := (@ensurePIUser env_lost packet_body "g1" w_amie).2.
#[local] Opaque w_lost.
Example lost_connection_half_creates :
  (bool_decide ("pi@x.org" ∈ (User_Email <$> (map_to_list (t_users (core_db w_lost))).*2)),
   pgUserIdentityStore_FindBySourceAndExternalID "access" "g1" (core_db w_lost)) = (true, None).
Proof. vm_compute. reflexivity. Qed.

(** ** A failure that cannot be recorded *)

(** AMIE refuses the reply with a long text in which the 8000th byte of the error
    falls inside a character: the cut text is not UTF-8, PostgreSQL refuses the
    row of amie_processing_errors, and with it everything the failure records.
    The event is as it was, no attempt is counted and there is no delay. *)
Fixpoint repeat_char (n : nat) (c : ascii) (s : string) : string :=
  match n with 0 => s | S n' => String c (repeat_char n' c s) end.
Definition long_text : string := repeat_char (Z.to_nat 7911) "a" "é".
Definition long_refusal : AmieEnv := amie_env [project_packet] long_text [1; 2; 3; 4; 5].
Definition w_unrecorded : AWorld := passed long_refusal (polled long_refusal w_amie).
#[local] Opaque w_unrecorded.

Example failure_not_recorded :
  (PEvent_Status (event_of w_unrecorded), PEvent_Attempts (event_of w_unrecorded),
   PEvent_NextRetryAt (event_of w_unrecorded), a_http w_unrecorded, size (t_errors (a_db w_unrecorded)))
  = ("NEW", 0%Z, None, 2, 0).
Proof. vm_compute. reflexivity. Qed.

(** ** A success recorded as a failure *)

(** The COMMIT of the attempt is carried out and its answer lost: the packet is
    processed and answered, and its event is scheduled again with two attempts
    counted; the next pass processes and answers it a second time. *)
Definition env_lost_commit : Env := env_answer_lost [w_stmt (a_core w_done) - 1].
Definition w_reopened : AWorld :=
  (@processPendingEvents env_lost_commit up (@dispatcher env_lost_commit up "delta") w_polled).2.
Definition w_twice : AWorld :=
  (@processPendingEvents env_lost_commit up (@dispatcher env_lost_commit up "delta") (late w_reopened)).2.
#[local] Opaque w_reopened w_twice.

Example success_recorded_as_failure :
  let row w := (PEvent_Status (event_of w), PEvent_Attempts (event_of w), Packet_Status (packet_of w), length (a_replies w)) in
  row w_done = ("SUCCEEDED", 1%Z, "DECODED", 1) ∧
  row w_reopened = ("RETRY_SCHEDULED", 2%Z, "DECODED", 1) ∧
  row w_twice = ("SUCCEEDED", 3%Z, "DECODED", 2).
Proof. repeat split; vm_compute; reflexivity. Qed.
