(* ===== verification/SignerText.v ===== *)
(** * Text of the certificate signer

    What extensions/SSH-Certificate-Signer uses of strconv, encoding/base64,
    strings, regexp and net: decimal numbers, base64, case folding, the pattern
    of principals, IP addresses and CIDR blocks. An IP is the list of its bytes
    (4 or 16). *)

From stdpp Require Import base gmap list strings pretty.
From Stdlib Require Import ZArith Ascii Lia.
From S2P Require Import Prelude Wire.

(** ** strings *)

(** [strings.EqualFold] where one side is ASCII: ASCII letters and the two
    characters outside ASCII that fold to one. *)
Definition EqualFold (s t : string) : bool := bool_decide (fold_key s = fold_key t).

(** The part before the first [c] and the part after it. *)
Fixpoint cut (c : ascii) (s : string) : option (string * string) :=
  match s with
  | EmptyString => None
  | String a s' =>
      if decide (a = c) then Some (EmptyString, s')
      else match cut c s' with Some (x, y) => Some (String a x, y) | None => None end
  end.

(** The part before the last [c]. *)
Fixpoint cut_last (c : ascii) (s : string) : option string :=
  match s with
  | EmptyString => None
  | String a s' =>
      match cut_last c s' with
      | Some x => Some (String a x)
      | None => if decide (a = c) then Some EmptyString else None
      end
  end.

(** [strings.TrimRight(s, c)] for one byte. *)
Fixpoint trim_right_byte (c : ascii) (s : string) : string :=
  match s with
  | EmptyString => EmptyString
  | String a s' =>
      match trim_right_byte c s' with
      | EmptyString => if decide (a = c) then EmptyString else String a EmptyString
      | t => String a t
      end
  end.

(** [strings.HasPrefix] and [strings.TrimPrefix]. *)
Definition TrimPrefix (s p : string) : string :=
  if String.prefix p s then String.substring (String.length p) (String.length s - String.length p) s else s.

(** ** The pattern of principals: ^[a-z_][a-z0-9_-]{0,31}$ *)

Definition byte_in (lo hi : nat) (c : ascii) : bool :=
  (lo <=? nat_of_ascii c)%nat && (nat_of_ascii c <=? hi)%nat.
Definition principal_first (c : ascii) : bool := byte_in 97 122 c || byte_in 95 95 c.
Definition principal_rest (c : ascii) : bool :=
  byte_in 97 122 c || byte_in 48 57 c || byte_in 95 95 c || byte_in 45 45 c.

Fixpoint all_bytes (p : ascii → bool) (s : string) : bool :=
  match s with EmptyString => true | String c s' => p c && all_bytes p s' end.

Definition principalRegex (s : string) : bool :=
  match s with
  | EmptyString => false
  | String c s' => principal_first c && all_bytes principal_rest s' && (String.length s' <=? 31)%nat
  end.

(** ** strconv *)

(** [strconv.FormatInt(z, 10)] and [strconv.Itoa]. *)
Definition FormatInt (z : Z) : string := pretty z.

(** ** encoding/base64 *)

Definition std_alphabet : string := "ABCDEFGHIJKLMNOPQRSTUVWXYZabcdefghijklmnopqrstuvwxyz0123456789+/".
Definition url_alphabet : string := "ABCDEFGHIJKLMNOPQRSTUVWXYZabcdefghijklmnopqrstuvwxyz0123456789-_".

Definition symbol (alphabet : string) (z : Z) : ascii :=
  default "="%char (String.get (Z.to_nat z) alphabet).
Definition byte_of (c : ascii) : Z := Z.of_nat (nat_of_ascii c).

(** [EncodeToString]: three bytes make four symbols; the rest makes two or three,
    followed by the padding. *)
Fixpoint base64 (alphabet : string) (pad : bool) (s : string) : string :=
  match s with
  | EmptyString => EmptyString
  | String a EmptyString =>
      let v := Z.shiftl (byte_of a) 16 in
      String (symbol alphabet (Z.land (Z.shiftr v 18) 63))
        (String (symbol alphabet (Z.land (Z.shiftr v 12) 63)) (if pad then "==" else ""))
  | String a (String b EmptyString) =>
      let v := Z.lor (Z.shiftl (byte_of a) 16) (Z.shiftl (byte_of b) 8) in
      String (symbol alphabet (Z.land (Z.shiftr v 18) 63))
        (String (symbol alphabet (Z.land (Z.shiftr v 12) 63))
          (String (symbol alphabet (Z.land (Z.shiftr v 6) 63)) (if pad then "=" else "")))
  | String a (String b (String c s')) =>
      let v := Z.lor (Z.lor (Z.shiftl (byte_of a) 16) (Z.shiftl (byte_of b) 8)) (byte_of c) in
      String (symbol alphabet (Z.land (Z.shiftr v 18) 63))
        (String (symbol alphabet (Z.land (Z.shiftr v 12) 63))
          (String (symbol alphabet (Z.land (Z.shiftr v 6) 63))
            (String (symbol alphabet (Z.land v 63)) (base64 alphabet pad s'))))
  end.

Definition StdEncoding (s : string) : string := base64 std_alphabet true s.
Definition RawURLEncoding (s : string) : string := base64 url_alphabet false s.

(** ** net *)

Abbreviation IP := (list Z) (only parsing).

Fixpoint sequence {A} (l : list (option A)) : option (list A) :=
  match l with
  | [] => Some []
  | o :: l' => x ← o; xs ← sequence l'; Some (x :: xs)
  end.

(** One decimal field of an IPv4 address: no leading zero, at most 255. *)
Definition octet (s : string) : option Z :=
  match s with
  | EmptyString => None
  | String c s' =>
      if decide (c = "0"%char ∧ s' ≠ "") then None
      else if (3 <? String.length s)%nat then None
      else z ← unsigned s; if (z <=? 255)%Z then Some z else None
  end.

Definition parseIPv4 (s : string) : option IP :=
  bs ← sequence (octet <$> split_on "." s);
  if decide (length bs = 4) then Some bs else None.

Definition hex_digit_value (c : ascii) : option Z :=
  let n := nat_of_ascii c in
  if byte_in 48 57 c then Some (Z.of_nat (n - 48))
  else if byte_in 97 102 c then Some (Z.of_nat (n - 87))
  else if byte_in 65 70 c then Some (Z.of_nat (n - 55))
  else None.

(** The leading hexadecimal digits of a group: how many, their value and what follows. *)
Fixpoint hex_group (acc : Z) (s : string) : nat * Z * string :=
  match s with
  | EmptyString => (0, acc, s)
  | String c s' =>
      match hex_digit_value c with
      | Some d => let '(n, v, rest) := hex_group (16 * acc + d) s' in (S n, v, rest)
      | None => (0, acc, s)
      end
  end.

(** The loop of [netip.parseIPv6]: [left] groups can still be read, [ip] holds the
    bytes read so far, [ellipsis] the place of "::". *)
Fixpoint ipv6_groups (left : nat) (s : string) (ip : list Z) (ellipsis : option nat) :
    option (list Z * option nat * string) :=
  match left with
  | O => Some (ip, ellipsis, s)
  | S left' =>
      let '(n, acc, rest) := hex_group 0 s in
      if decide (n = 0 ∨ 4 < n) then None else
      match rest with
      | String c tl =>
          if decide (c = "."%char) then
            if decide ((ellipsis = None ∧ length ip ≠ 12) ∨ 12 < length ip) then None
            else v4 ← parseIPv4 s; Some (ip ++ v4, ellipsis, "")
          else if decide (c ≠ ":"%char) then None
          else
            let ip' := ip ++ [Z.shiftr acc 8; Z.land acc 255] in
            match tl with
            | EmptyString => None
            | String d tl' =>
                if decide (d = ":"%char) then
                  if decide (is_Some ellipsis) then None
                  else if decide (tl' = "") then Some (ip', Some (length ip'), "")
                  else ipv6_groups left' tl' ip' (Some (length ip'))
                else ipv6_groups left' tl ip' ellipsis
            end
      | EmptyString => Some (ip ++ [Z.shiftr acc 8; Z.land acc 255], ellipsis, "")
      end
  end.

Definition parseIPv6 (s : string) : option IP :=
  let start := if String.prefix "::" s then Some (TrimPrefix s "::") else None in
  match start with
  | Some EmptyString => Some (replicate 16 0%Z)
  | _ =>
      r ← ipv6_groups 8 (default s start) [] (match start with Some _ => Some 0 | None => None end);
      let '(ip, ellipsis, rest) := r in
      if decide (rest ≠ "") then None
      else if decide (length ip < 16) then
        e ← (ellipsis : option nat); Some (take e ip ++ replicate (16 - length ip) 0%Z ++ drop e ip)
      else if decide (is_Some ellipsis) then None else Some ip
  end.

(** The first of '.', ':' and '%' says which form an address has. *)
Fixpoint address_form (s : string) : option ascii :=
  match s with
  | EmptyString => None
  | String c s' => if decide (c = "."%char ∨ c = ":"%char ∨ c = "%"%char) then Some c else address_form s'
  end.

(** [netip.ParseAddr] for addresses without a zone: 4 or 16 bytes. *)
Definition ParseAddr (s : string) : option IP :=
  match address_form s with
  | Some c =>
      if decide (c = "."%char) then parseIPv4 s
      else if decide (c = ":"%char) then parseIPv6 s else None
  | None => None
  end.

Definition v4InV6Prefix : list Z := replicate 10 0%Z ++ [255; 255]%Z.
Definition As16 (ip : IP) : IP := if decide (length ip = 4) then v4InV6Prefix ++ ip else ip.

(** [IP.To4]. *)
Definition To4 (ip : IP) : option IP :=
  if decide (length ip = 4) then Some ip
  else if decide (length ip = 16 ∧ take 12 ip = v4InV6Prefix) then Some (drop 12 ip) else None.

(** [net.ParseIP]. *)
Definition ParseIP (s : string) : option IP := As16 <$> ParseAddr s.

Record IPNet := mkIPNet { net_IP : IP; net_Mask : list Z }.

(** [net.CIDRMask(ones, 8*size)]. *)
Fixpoint CIDRMask (ones : Z) (size : nat) : list Z :=
  match size with
  | O => []
  | S size' =>
      (if (8 <=? ones)%Z then 255 else Z.land (Z.lnot (Z.shiftr 255 (Z.max 0 ones))) 255)%Z ::
      CIDRMask (ones - 8) size'
  end.

(** [IP.Mask], for an address of 16 bytes. *)
Definition Mask (mask : list Z) (ip : IP) : IP :=
  let ip := if decide (length mask = 4 ∧ length ip = 16 ∧ take 12 ip = v4InV6Prefix) then drop 12 ip else ip in
  zip_with Z.land ip mask.

(** [net.ParseCIDR]. *)
Definition ParseCIDR (s : string) : option IPNet :=
  '(addr, mask) ← cut "/" s;
  ip ← ParseAddr addr;
  n ← unsigned mask;
  if (n <=? 8 * Z.of_nat (length ip))%Z then
    let m := CIDRMask n (length ip) in Some (mkIPNet (Mask m (As16 ip)) m)
  else None.

(** [IPNet.Contains]. *)
Definition Contains (n : IPNet) (ip : IP) : bool :=
  let nn := default (net_IP n) (To4 (net_IP n)) in
  let m := if decide (length (net_Mask n) = 16 ∧ length nn = 4) then drop 12 (net_Mask n) else net_Mask n in
  let ip := default ip (To4 ip) in
  bool_decide (length ip = length nn) && bool_decide (length m = length nn) &&
  bool_decide (zip_with Z.land nn m = zip_with Z.land ip m).

(** * Facts on the text of the signer

    Decimal numbers and base64 are read back; splitting at a byte; a CIDR block
    holds the addresses that share its leading bits. *)

Local Open Scope Z_scope.

(** ** Decimal numbers *)

Lemma digits_pretty_go x s :
  digits 0 (pretty_N_go x s) = digits (Z.of_N x) s.
Proof.
  revert s. induction (N.lt_wf_0 x) as [x _ IH]; intros s.
  assert (x = 0 ∨ 0 < x)%N as [->|Hx] by lia; [by rewrite pretty_N_go_0|].
  rewrite pretty_N_go_step by done. rewrite IH by (by apply N.div_lt).
  assert (digit (pretty_N_char (x `mod` 10)) = Some (Z.of_N (x `mod` 10))) as Hd.
  { assert (x `mod` 10 < 10)%N as Hm by (by apply N.mod_lt).
    generalize dependent (x `mod` 10)%N. intros m Hm.
    assert (m = 0 ∨ m = 1 ∨ m = 2 ∨ m = 3 ∨ m = 4 ∨ m = 5 ∨ m = 6 ∨ m = 7 ∨ m = 8 ∨ m = 9)%N
      as Hc by lia.
    by destruct Hc as [->|[->|[->|[->|[->|[->|[->|[->|[->| ->]]]]]]]]]. }
  cbn [digits]. rewrite Hd. cbn [mbind option_bind]. f_equal.
  pose proof (N.div_mod x 10). lia.
Qed.

Lemma unsigned_pretty (x : N) : unsigned (pretty x) = Some (Z.of_N x).
Proof.
  unfold pretty, pretty_N. case_decide as Hx; [by subst|].
  assert (pretty_N_go x "" ≠ "") as Hne.
  { intros He. pose proof (pretty_N_go_step x "" ltac:(lia)) as Hs. rewrite He in Hs.
    assert (∀ y s, String.length s ≤ String.length (pretty_N_go y s))%nat as Hlen.
    { intros y. induction (N.lt_wf_0 y) as [y _ IH]; intros s.
      assert (y = 0 ∨ 0 < y)%N as [->|Hy] by lia; [by rewrite pretty_N_go_0|].
      rewrite pretty_N_go_step by done.
      specialize (IH (y `div` 10)%N (N.div_lt y 10 Hy eq_refl) (String (pretty_N_char (y `mod` 10)) s)).
      simpl in IH. lia. }
    specialize (Hlen (x `div` 10)%N (String (pretty_N_char (x `mod` 10)) "")). rewrite <- Hs in Hlen.
    simpl in Hlen. lia. }
  unfold unsigned. destruct (pretty_N_go x "") eqn:E; [done|]. rewrite <- E. apply (digits_pretty_go x "").
Qed.

(** A number printed in decimal is read back. *)
Lemma ParseInt_FormatInt z : in_int64 z = true → ParseInt (FormatInt z) = Some z.
Proof.
  intros Hz. unfold FormatInt, ParseInt. destruct z as [|p|p].
  - reflexivity.
  - change (pretty (Z.pos p)) with (pretty (N.pos p)). pose proof (unsigned_pretty (N.pos p)) as Hu.
    destruct (pretty (N.pos p)) as [|c s] eqn:E; [done|].
    assert (c ≠ "-"%char) as Hc.
    { intros ->. unfold pretty, pretty_N in E. case_decide; [done|].
      by apply (pretty_N_go_ne_dash (N.pos p) "" s). }
    assert (c ≠ "+"%char) by (by intros ->).
    rewrite !decide_False by done. rewrite Hu. cbn [mbind option_bind].
    change (Z.of_N (N.pos p)) with (Z.pos p). by rewrite Hz.
  - change (pretty (Z.neg p)) with (String "-" (pretty (N.pos p))).
    cbv beta iota. rewrite decide_True by done.
    rewrite unsigned_pretty. cbn [fmap option_fmap option_map mbind option_bind].
    change (- Z.of_N (N.pos p)) with (Z.neg p). by rewrite Hz.
Qed.

(** ** Splitting *)

Lemma cut_app c (x y : string) :
  (∀ i, String.get i x ≠ Some c) → cut c (x +:+ String c y) = Some (x, y).
Proof.
  induction x as [|a x IH]; intros Hx.
  - change ("" +:+ String c y) with (String c y). simpl. by rewrite decide_True.
  - change (String a x +:+ String c y) with (String a (x +:+ String c y)). simpl.
    rewrite decide_False by (intros ->; by apply (Hx 0%nat)).
    rewrite IH; [done|]. intros i. apply (Hx (S i)).
Qed.

Lemma cut_Some c s x y :
  cut c s = Some (x, y) → s = x +:+ String c y ∧ ∀ i, String.get i x ≠ Some c.
Proof.
  revert x y. induction s as [|a s IH]; intros x y; simpl; [done|]. case_decide as Ha.
  - intros [= <- <-]. subst. split; [done|]. by intros [].
  - destruct (cut c s) as [[x' y']|] eqn:E; [|done]. intros [= <- <-].
    destruct (IH x' y' eq_refl) as [-> Hx]. split; [done|]. intros [|i]; simpl; [congruence|apply Hx].
Qed.

(** ** base64 *)

(** The value of a symbol, and the decoder of unpadded text. *)
Definition symbol_value (alphabet : string) (c : ascii) : option Z :=
  Z.of_nat <$> String.index 0 (String c "") alphabet.

Definition byte_ascii (z : Z) : ascii := ascii_of_nat (Z.to_nat z).

Fixpoint unbase64 (alphabet : string) (s : string) : option string :=
  match s with
  | EmptyString => Some EmptyString
  | String _ EmptyString => None
  | String a (String b EmptyString) =>
      x ← symbol_value alphabet a; y ← symbol_value alphabet b;
      Some (String (byte_ascii ((x * 64 + y) / 16)) "")
  | String a (String b (String c EmptyString)) =>
      x ← symbol_value alphabet a; y ← symbol_value alphabet b; z ← symbol_value alphabet c;
      let v := (x * 4096 + y * 64 + z) / 4 in
      Some (String (byte_ascii (v / 256)) (String (byte_ascii (v mod 256)) ""))
  | String a (String b (String c (String d s'))) =>
      x ← symbol_value alphabet a; y ← symbol_value alphabet b;
      z ← symbol_value alphabet c; u ← symbol_value alphabet d;
      rest ← unbase64 alphabet s';
      let v := x * 262144 + y * 4096 + z * 64 + u in
      Some (String (byte_ascii (v / 65536)) (String (byte_ascii (v / 256 mod 256))
             (String (byte_ascii (v mod 256)) rest)))
  end.

(** An alphabet of 64 distinct symbols. *)
Definition alphabet_ok (alphabet : string) : Prop :=
  ∀ z, 0 ≤ z < 64 → symbol_value alphabet (symbol alphabet z) = Some z.

Lemma check_alphabet alphabet :
  forallb (λ n, bool_decide (symbol_value alphabet (symbol alphabet (Z.of_nat n)) = Some (Z.of_nat n)))
    (seq 0 64) = true → alphabet_ok alphabet.
Proof.
  intros Hall z Hz. rewrite forallb_forall in Hall. specialize (Hall (Z.to_nat z)).
  rewrite in_seq, bool_decide_eq_true, Z2Nat.id in Hall by lia. apply Hall. lia.
Qed.

Lemma url_alphabet_ok : alphabet_ok url_alphabet.
Proof. apply check_alphabet. vm_compute. reflexivity. Qed.
Lemma std_alphabet_ok : alphabet_ok std_alphabet.
Proof. apply check_alphabet. vm_compute. reflexivity. Qed.

Lemma byte_of_bounds c : 0 ≤ byte_of c < 256.
Proof. unfold byte_of. pose proof (nat_ascii_bounded c). lia. Qed.
Lemma byte_ascii_of c : byte_ascii (byte_of c) = c.
Proof. unfold byte_ascii, byte_of. by rewrite Nat2Z.id, ascii_nat_embedding. Qed.

(** Disjoint bits: [lor] is addition. *)
Lemma lor_shift a b n : 0 ≤ n → 0 ≤ b < 2 ^ n → Z.lor (Z.shiftl a n) b = a * 2 ^ n + b.
Proof.
  intros Hn Hb. rewrite <- Z.shiftl_mul_pow2 by done. symmetry. apply Z.add_nocarry_lor.
  apply Z.bits_inj'. intros i Hi. rewrite Z.land_spec, Z.bits_0, Z.shiftl_spec by done.
  destruct (decide (i < n)) as [|Hin]; [by rewrite Z.testbit_neg_r by lia|].
  destruct (decide (b = 0)) as [->|]; [by rewrite Z.bits_0, andb_false_r|].
  rewrite (Z.bits_above_log2 b i), andb_false_r; [done|lia|]. apply Z.log2_lt_pow2; [lia|].
  apply Z.lt_le_trans with (2 ^ n); [lia|]. apply Z.pow_le_mono_r; lia.
Qed.

Lemma six_bits v k : 0 ≤ k → Z.land (Z.shiftr v k) 63 = v / 2 ^ k mod 64.
Proof.
  intros Hk. rewrite Z.shiftr_div_pow2 by done. change 63 with (Z.ones 6). by rewrite Z.land_ones by lia.
Qed.
Lemma low_six_bits v : Z.land v 63 = v mod 64.
Proof. change 63 with (Z.ones 6). by rewrite Z.land_ones by lia. Qed.

Lemma three_bytes a b c : 0 ≤ b < 256 → 0 ≤ c < 256 →
  Z.lor (Z.lor (Z.shiftl a 16) (Z.shiftl b 8)) c = a * 65536 + b * 256 + c.
Proof.
  intros Hb Hc. rewrite (lor_shift a (Z.shiftl b 8) 16) by (rewrite ?Z.shiftl_mul_pow2 by lia; lia).
  rewrite Z.shiftl_mul_pow2 by lia. replace (a * 2 ^ 16 + b * 2 ^ 8) with ((a * 256 + b) * 2 ^ 8) by lia.
  rewrite <- Z.shiftl_mul_pow2 by lia. rewrite lor_shift by lia. lia.
Qed.
Lemma two_bytes a b : 0 ≤ b < 256 → Z.lor (Z.shiftl a 16) (Z.shiftl b 8) = a * 65536 + b * 256.
Proof. intros Hb. rewrite lor_shift by (rewrite ?Z.shiftl_mul_pow2 by lia; lia). rewrite Z.shiftl_mul_pow2; lia. Qed.

Ltac solve_bits :=
  change (2 ^ 18) with 262144; change (2 ^ 16) with 65536; change (2 ^ 12) with 4096; change (2 ^ 6) with 64;
  Z.to_euclidean_division_equations; lia.

(** Decoding what was encoded. *)
Lemma unbase64_base64 alphabet (s : string) :
  alphabet_ok alphabet → unbase64 alphabet (base64 alphabet false s) = Some s.
Proof.
  intros Hok. remember (String.length s) as n eqn:Hn. revert s Hn.
  induction (Nat.lt_wf_0 n) as [n _ IH]. intros s ->.
  assert (∀ v, symbol_value alphabet (symbol alphabet (v mod 64)) = Some (v mod 64)) as Hs.
  { intros v. apply Hok. apply Z.mod_pos_bound. lia. }
  destruct s as [|a [|b [|c s]]]; [done|..]; cbn [base64].
  - pose proof (byte_of_bounds a). rewrite !six_bits by lia. cbn [unbase64]. rewrite !Hs.
    cbn [mbind option_bind]. rewrite Z.shiftl_mul_pow2 by lia.
    match goal with |- Some (String (byte_ascii ?v) "") = _ => replace v with (byte_of a) by solve_bits end.
    by rewrite byte_ascii_of.
  - pose proof (byte_of_bounds a). pose proof (byte_of_bounds b). rewrite two_bytes by done.
    rewrite !six_bits by lia. cbn [unbase64]. rewrite !Hs. cbn [mbind option_bind]. cbv zeta.
    match goal with |- Some (String (byte_ascii (?v / 256)) _) = _ =>
      replace v with (byte_of a * 256 + byte_of b) by solve_bits end.
    replace ((byte_of a * 256 + byte_of b) / 256) with (byte_of a) by solve_bits.
    replace ((byte_of a * 256 + byte_of b) mod 256) with (byte_of b) by solve_bits.
    by rewrite !byte_ascii_of.
  - pose proof (byte_of_bounds a). pose proof (byte_of_bounds b). pose proof (byte_of_bounds c).
    rewrite three_bytes by done. rewrite !six_bits, low_six_bits by lia. cbn [unbase64]. rewrite !Hs.
    cbn [mbind option_bind]. rewrite (IH (String.length s)) by (simpl; lia || done).
    cbn [mbind option_bind]. cbv zeta. set (v := byte_of a * 65536 + byte_of b * 256 + byte_of c).
    assert (v / 2 ^ 18 mod 64 * 262144 + v / 2 ^ 12 mod 64 * 4096 + v / 2 ^ 6 mod 64 * 64 + v mod 64 = v) as ->.
    { subst v. solve_bits. }
    replace (v / 65536) with (byte_of a) by (subst v; solve_bits).
    replace (v / 256 mod 256) with (byte_of b) by (subst v; solve_bits).
    replace (v mod 256) with (byte_of c) by (subst v; solve_bits).
    by rewrite !byte_ascii_of.
Qed.

#[export] Instance RawURLEncoding_inj : Inj (=) (=) RawURLEncoding.
Proof.
  intros s t Hst. apply (f_equal (unbase64 url_alphabet)) in Hst. unfold RawURLEncoding in Hst.
  rewrite !unbase64_base64 in Hst by apply url_alphabet_ok. by injection Hst.
Qed.

(** ** CIDR blocks *)

(** An address as a number. *)
Fixpoint ip_value (ip : list Z) : Z :=
  match ip with
  | [] => 0
  | b :: ip' => b * 2 ^ (8 * Z.of_nat (length ip')) + ip_value ip'
  end.

Definition bytes_ok (ip : list Z) : Prop := Forall (λ b, 0 ≤ b < 256) ip.

Lemma ip_value_bounds ip : bytes_ok ip → 0 ≤ ip_value ip < 2 ^ (8 * Z.of_nat (length ip)).
Proof.
  induction 1 as [|b ip Hb _ IH]; [simpl; lia|]. cbn [ip_value length].
  rewrite Nat2Z.inj_succ. replace (8 * Z.succ (Z.of_nat (length ip))) with (8 + 8 * Z.of_nat (length ip)) by lia.
  rewrite Z.pow_add_r by lia. change (2 ^ 8) with 256. nia.
Qed.

(** The byte of a mask that keeps the first [k] of its bits. *)
Lemma mask_byte (k : nat) b : (k < 8)%nat → 0 ≤ b < 256 →
  Z.land b (Z.land (Z.lnot (Z.shiftr 255 (Z.of_nat k))) 255) = b / 2 ^ (8 - Z.of_nat k) * 2 ^ (8 - Z.of_nat k).
Proof.
  intros Hk Hb. rewrite <- (Z2Nat.id b) by lia.
  assert (Z.to_nat b < 256)%nat as Hn by lia. clear Hb. generalize dependent (Z.to_nat b).
  assert (forallb (λ k, forallb (λ n, Z.land (Z.of_nat n) (Z.land (Z.lnot (Z.shiftr 255 (Z.of_nat k))) 255) =?
            Z.of_nat n / 2 ^ (8 - Z.of_nat k) * 2 ^ (8 - Z.of_nat k)) (seq 0 256)) (seq 0 8) = true) as Hall
    by (vm_compute; reflexivity).
  rewrite forallb_forall in Hall. specialize (Hall k). rewrite in_seq, forallb_forall in Hall.
  intros n Hn. apply Z.eqb_eq, Hall; [lia|]. apply in_seq. lia.
Qed.

Lemma mask_zero (x : list Z) ones n : length x = n → ones ≤ 0 → zip_with Z.land x (CIDRMask ones n) = replicate n 0.
Proof.
  revert x ones. induction n as [|n IH]; intros [|b x] ones Hl Ho; simpl in *; try done.
  replace (8 <=? ones) with false by (symmetry; apply Z.leb_gt; lia).
  rewrite (Z.max_l 0 ones) by lia. rewrite IH by lia. f_equal.
  change (Z.land (Z.lnot (Z.shiftr 255 0)) 255) with 0. apply Z.land_0_r.
Qed.

Lemma split_high (a b v w p q : Z) : 0 ≤ v < p * q → 0 ≤ w < p * q → 0 < p → 0 < q →
  (a * (p * q) + v) / q = (b * (p * q) + w) / q ↔ a = b ∧ v / q = w / q.
Proof.
  intros Hv Hw Hp Hq. replace (a * (p * q)) with (a * p * q) by lia. replace (b * (p * q)) with (b * p * q) by lia.
  rewrite !Z.div_add_l by lia. rewrite (Z.mul_comm p q) in Hv, Hw.
  assert (0 ≤ v / q < p) by (split; [apply Z.div_pos|apply Z.div_lt_upper_bound]; lia).
  assert (0 ≤ w / q < p) by (split; [apply Z.div_pos|apply Z.div_lt_upper_bound]; lia).
  split; [|by intros [-> ->]]. intros He. apply (Z.div_mod_unique p); lia.
Qed.

(** Two addresses agree under the mask of [ones] bits when their first [ones]
    bits are the same. *)
Lemma masked_eq (n : nat) ones x y :
  length x = n → length y = n → bytes_ok x → bytes_ok y → 0 ≤ ones ≤ 8 * Z.of_nat n →
  zip_with Z.land x (CIDRMask ones n) = zip_with Z.land y (CIDRMask ones n) ↔
  ip_value x / 2 ^ (8 * Z.of_nat n - ones) = ip_value y / 2 ^ (8 * Z.of_nat n - ones).
Proof.
  revert ones x y. induction n as [|n IH]; intros ones [|a x] [|b y] Hx Hy Bx By Ho; try done.
  simpl in Hx, Hy. injection Hx as Hx. injection Hy as Hy.
  apply Forall_cons in Bx as [Ba Bx]. apply Forall_cons in By as [Bb By].
  cbn [CIDRMask zip_with ip_value]. rewrite Hx, Hy.
  pose proof (ip_value_bounds x Bx) as Vx. pose proof (ip_value_bounds y By) as Vy. rewrite Hx in Vx. rewrite Hy in Vy.
  destruct (8 <=? ones) eqn:E; [apply Z.leb_le in E|apply Z.leb_gt in E].
  - assert (∀ c, 0 ≤ c < 256 → Z.land c 255 = c) as Hid.
    { intros c Hc. change 255 with (Z.ones 8). rewrite Z.land_ones by lia. apply Z.mod_small. lia. }
    rewrite !Hid by done. set (k := 8 * Z.of_nat n - (ones - 8)).
    replace (8 * Z.of_nat (S n) - ones) with k by lia.
    assert (2 ^ (8 * Z.of_nat n) = 2 ^ (ones - 8) * 2 ^ k) as Hp.
    { rewrite <- Z.pow_add_r by lia. f_equal. lia. }
    rewrite Hp in *. rewrite split_high by (try apply Z.pow_pos_nonneg; lia).
    pose proof (IH (ones - 8) x y Hx Hy Bx By ltac:(lia)) as IHk. fold k in IHk.
    rewrite <- IHk. split; [by intros [= -> ->]|by intros [-> ->]].
  - rewrite !(mask_zero _ (ones - 8)) by (done || lia). rewrite Z.max_r by lia.
    rewrite <- (Z2Nat.id ones) by lia. rewrite !mask_byte by lia. rewrite Z2Nat.id by lia.
    set (q := 2 ^ (8 * Z.of_nat n)) in *. set (p := 2 ^ (8 - ones)).
    assert (0 < q) by (apply Z.pow_pos_nonneg; lia). assert (0 < p) by (apply Z.pow_pos_nonneg; lia).
    replace (2 ^ (8 * Z.of_nat (S n) - ones)) with (q * p)
      by (unfold q, p; rewrite <- Z.pow_add_r by lia; f_equal; lia).
    rewrite <- !Z.div_div by lia. rewrite !Z.div_add_l, (Z.div_small (ip_value x)), (Z.div_small (ip_value y)) by lia.
    rewrite !Z.add_0_r. split; [intros [= He]|by intros ->].
    apply (Z.mul_reg_r _ _ p); lia.
Qed.

Lemma sequence_Some {A} (l : list (option A)) xs : sequence l = Some xs → l = Some <$> xs.
Proof.
  revert xs. induction l as [|[x|] l IH]; intros xs; simpl; [by intros [= <-]| |done].
  destruct (sequence l) as [ys|]; simpl; [|done]. intros [= <-]. simpl. f_equal. by apply IH.
Qed.

Lemma unsigned_nonneg s z : unsigned s = Some z → 0 ≤ z.
Proof.
  assert (∀ s acc z, 0 ≤ acc → digits acc s = Some z → 0 ≤ z) as Hd.
  { clear. intros s. induction s as [|c s IH]; intros acc z Ha; cbn [digits]; [by intros [= <-]|].
    destruct (digit c) as [d|] eqn:E; [|done]. cbn [mbind option_bind]. apply IH.
    unfold digit in E. case_match; [|done]. injection E as <-. lia. }
  destruct s as [|c s]; [done|]. by apply Hd.
Qed.

Lemma octet_byte s z : octet s = Some z → 0 ≤ z < 256.
Proof.
  unfold octet. destruct s as [|c s]; [done|]. case_decide; [done|]. destruct (_ <? _)%nat; [done|].
  destruct (unsigned _) as [v|] eqn:E; cbn [mbind option_bind]; [|done]. destruct (v <=? 255) eqn:E2; [|done].
  intros [= <-]. apply Z.leb_le in E2. apply unsigned_nonneg in E. lia.
Qed.

Lemma parseIPv4_bytes s ip : parseIPv4 s = Some ip → length ip = 4%nat ∧ bytes_ok ip.
Proof.
  unfold parseIPv4. destruct (sequence _) as [bs|] eqn:E; cbn [mbind option_bind]; [|done]. case_decide; [|done].
  intros [= <-]. split; [done|]. apply sequence_Some in E. apply Forall_forall. intros b Hb.
  assert (Some b ∈ octet <$> split_on "." s) as Hin by (rewrite E; by apply list_elem_of_fmap_2).
  apply list_elem_of_fmap in Hin as (t & Ht & _). by eapply octet_byte.
Qed.

(** A block of IPv4 addresses holds the IPv4 addresses with the same leading bits. *)
Lemma Contains_v4 (s addr mask : string) (a ip : list Z) (k : Z) :
  cut "/" s = Some (addr, mask) → ParseAddr addr = Some a → length a = 4%nat → bytes_ok a →
  unsigned mask = Some k → k ≤ 32 → bytes_ok ip → length ip = 4%nat ∨ length ip = 16%nat →
  ∃ n, ParseCIDR s = Some n ∧
    (Contains n ip = true ↔ ∃ b, To4 ip = Some b ∧ ip_value b / 2 ^ (32 - k) = ip_value a / 2 ^ (32 - k)).
Proof.
  intros Hs Ha Hla Ba Hm Hk Bip Hlip. pose proof (unsigned_nonneg _ _ Hm) as Hk0. unfold ParseCIDR. rewrite Hs. cbn [mbind option_bind].
  rewrite Ha. cbn [mbind option_bind]. rewrite Hm. cbn [mbind option_bind]. rewrite Hla.
  replace (k <=? _) with true by (symmetry; apply Z.leb_le; lia). eexists. split; [done|].
  assert (∀ m : list Z, length m = 4%nat → Mask m (As16 a) = zip_with Z.land a m) as HMask.
  { intros m Hlm. unfold Mask, As16. rewrite (decide_True (P := length a = 4%nat)) by done.
    by rewrite decide_True by (rewrite length_app; split; [done|]; split; [simpl; lia|done]). }
  assert (∀ o n, length (CIDRMask o n) = n) as Hlen.
  { intros o n. revert o. induction n as [|n IH]; intros o; simpl; [done|]. by rewrite IH. }
  rewrite HMask by apply Hlen. set (m := CIDRMask k 4).
  assert (length m = 4%nat) as Hlm by apply Hlen.
  assert (length (zip_with Z.land a m) = 4%nat) as Hln by (rewrite length_zip_with; lia).
  assert (zip_with Z.land (zip_with Z.land a m) m = zip_with Z.land a m) as Hidem.
  { clear -a m. generalize m. induction a as [|x a IH]; intros [|y m']; simpl; [done..|].
    rewrite IH. f_equal. rewrite <- Z.land_assoc. by rewrite Z.land_diag. }
  assert (To4 (zip_with Z.land a m) = Some (zip_with Z.land a m)) as Hto4
    by (unfold To4; by rewrite decide_True).
  unfold Contains. cbn [net_IP net_Mask]. rewrite Hto4. cbn [from_option]. unfold id.
  rewrite (decide_False (P := length m = 16%nat ∧ length (zip_with Z.land a m) = 4%nat)) by lia.
  rewrite !andb_true_iff, !bool_decide_eq_true. rewrite Hln, Hlm, Hidem. split.
  - intros [[Hl _] He]. destruct (To4 ip) as [b|] eqn:E; simpl in *.
    + exists b. split; [done|]. symmetry. change 32 with (8 * Z.of_nat 4). apply masked_eq; try done; try lia.
      unfold To4 in E. repeat case_decide; simplify_eq; [done|]. by apply Forall_drop.
    + unfold To4 in E. by rewrite Hl in E.
  - intros (b & E & Hb). rewrite E. simpl.
    assert (length b = 4%nat ∧ bytes_ok b) as [Hlb Bb].
    { unfold To4 in E. repeat case_decide; simplify_eq; [done|]. rewrite length_drop. split; [lia|by apply Forall_drop]. }
    split; [done|]. symmetry in Hb. change 32 with (8 * Z.of_nat 4) in Hb. by apply masked_eq in Hb; try lia.
Qed.
