(* ===== verification/Rfc3339.v ===== *)
(** * time.RFC3339

    [time.Format] and [time.Parse] with the layout RFC3339, on UTC instants. An
    instant is a number of nanoseconds since 1970, dates are those of the proleptic
    Gregorian calendar. *)

From stdpp Require Import base list strings.
From Stdlib Require Import ZArith Ascii Lia.
From S2P Require Import Prelude Wire SignerText.

Local Open Scope Z_scope.

Definition second : Z := 1000000000.
Definition hour : Z := 3600 * second.

(** [t.Unix()]. *)
Definition Unix (t : Z) : Z := t / second.

(** ** The calendar *)

Definition days_from_civil (y m d : Z) : Z :=
  let y' := if m <=? 2 then y - 1 else y in
  let yoe := y' mod 400 in
  let doy := (153 * ((m + 9) mod 12) + 2) / 5 + d - 1 in
  y' / 400 * 146097 + (yoe * 365 + yoe / 4 - yoe / 100 + doy) - 719468.

(** Within an era of 400 years that starts on the first of March: the year, the
    day of the year, the month counted from March. *)
Definition year_of_era (doe : Z) : Z := (doe - doe / 1460 + doe / 36524 - doe / 146096) / 365.
Definition day_of_year (doe : Z) : Z :=
  let yoe := year_of_era doe in doe - (365 * yoe + yoe / 4 - yoe / 100).
Definition month_from_march (doe : Z) : Z := (5 * day_of_year doe + 2) / 153.

Definition civil_from_days (days : Z) : Z * Z * Z :=
  let z := days + 719468 in
  let era := z / 146097 in
  let doe := z mod 146097 in
  let mp := month_from_march doe in
  let m := if mp <? 10 then mp + 3 else mp - 9 in
  (year_of_era doe + era * 400 + (if m <=? 2 then 1 else 0), m, day_of_year doe - (153 * mp + 2) / 5 + 1).

Definition leap (y : Z) : bool := (y mod 4 =? 0) && (negb (y mod 100 =? 0) || (y mod 400 =? 0)).
Definition daysIn (m y : Z) : Z :=
  if m =? 2 then (if leap y then 29 else 28)
  else if (m =? 4) || (m =? 6) || (m =? 9) || (m =? 11) then 30 else 31.

(** ** Format *)

Definition digit_char (z : Z) : ascii := ascii_of_nat (48 + Z.to_nat z).
Definition two (z : Z) : string := String (digit_char (z / 10)) (String (digit_char (z mod 10)) "").

(** A year, with at least four digits. *)
Definition four (y : Z) : string :=
  if (0 <=? y) && (y <? 10000) then two (y / 100) +:+ two (y mod 100)
  else if y <? 0 then "-" +:+ (if -10000 <? y then two (- y / 100) +:+ two (- y mod 100) else FormatInt (- y))
  else FormatInt y.

(** [t.UTC().Format(time.RFC3339)]. *)
Definition Format (t : Z) : string :=
  let s := Unix t in
  let '(y, m, d) := civil_from_days (s / 86400) in
  let sod := s mod 86400 in
  four y +:+ "-" +:+ two m +:+ "-" +:+ two d +:+ "T" +:+
  two (sod / 3600) +:+ ":" +:+ two (sod / 60 mod 60) +:+ ":" +:+ two (sod mod 60) +:+ "Z".

(** ** Parse *)

(** Exactly two digits. *)
Definition take_two (s : string) : option (Z * string) :=
  match s with
  | String a (String b s') => x ← digit a; y ← digit b; Some (10 * x + y, s')
  | _ => None
  end.
Definition take_four (s : string) : option (Z * string) :=
  '(h, s1) ← take_two s; '(l, s2) ← take_two s1; Some (100 * h + l, s2).
(** One or two digits. *)
Definition take_hour (s : string) : option (Z * string) :=
  match take_two s with
  | Some r => Some r
  | None => match s with String a s' => x ← digit a; Some (x, s') | EmptyString => None end
  end.
Definition take_byte (c : ascii) (s : string) : option string :=
  match s with String a s' => if decide (a = c) then Some s' else None | EmptyString => None end.

(** The digits of a fraction: the value of the first nine, as nanoseconds. *)
Fixpoint fraction (scale : Z) (s : string) : Z * string :=
  match s with
  | EmptyString => (0, s)
  | String c s' =>
      match digit c with
      | Some d => let '(v, rest) := fraction (scale / 10) s' in (d * scale + v, rest)
      | None => (0, s)
      end
  end.
Definition starts_with_digit (s : string) : bool :=
  match s with String d _ => bool_decide (is_Some (digit d)) | EmptyString => false end.
Definition take_fraction (s : string) : Z * string :=
  match s with
  | String c s' =>
      if decide ((c = "."%char ∨ c = ","%char) ∧ starts_with_digit s' = true)
      then fraction 100000000 s' else (0, s)
  | EmptyString => (0, s)
  end.

(** The offset of the zone, in seconds: "Z" or a sign and hh:mm. *)
Definition take_zone (s : string) : option (Z * string) :=
  match s with
  | String c s' =>
      if decide (c = "Z"%char) then Some (0, s')
      else if decide (c = "+"%char ∨ c = "-"%char) then
        '(hh, s1) ← take_two s'; s2 ← take_byte ":" s1; '(mm, s3) ← take_two s2;
        if (hh <=? 24) && (mm <=? 60)
        then Some ((if decide (c = "-"%char) then -1 else 1) * (hh * 3600 + mm * 60), s3) else None
      else None
  | EmptyString => None
  end.

(** [time.Parse(time.RFC3339, s)]. *)
Definition Parse (s : string) : option Z :=
  '(y, s) ← take_four s; s ← take_byte "-" s;
  '(m, s) ← take_two s; s ← take_byte "-" s;
  '(d, s) ← take_two s; s ← take_byte "T" s;
  '(hh, s) ← take_hour s; s ← take_byte ":" s;
  '(mm, s) ← take_two s; s ← take_byte ":" s;
  '(ss, s) ← take_two s;
  let '(ns, s) := take_fraction s in
  '(zone, s) ← take_zone s;
  if decide (s = "" ∧ 1 ≤ m ≤ 12 ∧ 1 ≤ d ≤ daysIn m y ∧ hh < 24 ∧ mm < 60 ∧ ss < 60)
  then Some ((days_from_civil y m d * 86400 + hh * 3600 + mm * 60 + ss - zone) * second + ns)
  else None.

(** ** Facts *)

(** Within an era: the year, the day of the year, and the leap day. *)
Lemma year_of_era_bounds doe : 0 ≤ doe < 146097 → 0 ≤ year_of_era doe < 400.
Proof. unfold year_of_era. intros. Z.to_euclidean_division_equations. lia. Qed.

Lemma day_of_year_bounds doe : 0 ≤ doe < 146097 → 0 ≤ day_of_year doe ≤ 365.
Proof. unfold day_of_year, year_of_era. intros. Z.to_euclidean_division_equations. lia. Qed.

Lemma leap_day doe :
  0 ≤ doe < 146097 → day_of_year doe = 365 → leap (year_of_era doe + 1) = true.
Proof.
  intros Hdoe Hd. unfold leap. rewrite andb_true_iff, orb_true_iff, negb_true_iff, !Z.eqb_eq, Z.eqb_neq.
  unfold day_of_year in Hd. set (yoe := year_of_era doe) in *.
  assert (yoe = (doe - doe / 1460 + doe / 36524 - doe / 146096) / 365) as Hy by done. clearbody yoe. split.
  - Z.to_euclidean_division_equations. lia.
  - destruct (Z.eq_dec ((yoe + 1) mod 400) 0); [auto|left]. intros Hc.
    Z.to_euclidean_division_equations. lia.
Qed.

(** The months of a year that starts in March. *)
Lemma month_day doe (mp := month_from_march doe) (m := if mp <? 10 then mp + 3 else mp - 9)
    (d := day_of_year doe - (153 * mp + 2) / 5 + 1) :
  0 ≤ doe < 146097 →
  0 ≤ mp < 12 ∧ 1 ≤ d ≤ daysIn m (year_of_era doe + (if m <=? 2 then 1 else 0)).
Proof.
  intros Hdoe. pose proof (day_of_year_bounds doe Hdoe) as Hb. pose proof (leap_day doe Hdoe) as Hl.
  assert (0 ≤ mp < 12) as Hmp
    by (subst mp; unfold month_from_march; split; [apply Z.div_pos|apply Z.div_lt_upper_bound]; lia).
  split; [done|]. assert (153 * mp ≤ 5 * day_of_year doe + 2 < 153 * (mp + 1)) as Hmd.
  { subst mp. unfold month_from_march. pose proof (Z.div_mod (5 * day_of_year doe + 2) 153).
    pose proof (Z.mod_pos_bound (5 * day_of_year doe + 2) 153). lia. }
  clearbody mp. subst m d. revert Hb Hl Hmd. generalize (day_of_year doe), (year_of_era doe). clear -Hmp.
  intros doy y Hb Hl Hmd.
  assert (mp = 0 ∨ mp = 1 ∨ mp = 2 ∨ mp = 3 ∨ mp = 4 ∨ mp = 5 ∨ mp = 6 ∨ mp = 7 ∨ mp = 8 ∨ mp = 9 ∨
          mp = 10 ∨ mp = 11) as Hcases by lia.
  destruct Hcases as [->|[->|[->|[->|[->|[->|[->|[->|[->|[->|[->| ->]]]]]]]]]]];
    match goal with |- context [(153 * ?k + 2) / 5] =>
      let v := eval vm_compute in ((153 * k + 2) / 5) in change ((153 * k + 2) / 5) with v
    end;
    match goal with |- context [daysIn ?m _] => let v := eval vm_compute in m in change m with v end;
    unfold daysIn; cbn [Z.eqb Z.leb Z.compare Pos.compare Pos.compare_cont Pos.eqb orb]; try lia.
  destruct (leap (y + 1)) eqn:E; [lia|].
  assert (doy ≠ 365) by (intros ->; specialize (Hl eq_refl); congruence). lia.
Qed.

Lemma daysIn_era m y era : daysIn m (y + era * 400) = daysIn m y.
Proof.
  unfold daysIn, leap. replace ((y + era * 400) mod 4) with (y mod 4)
    by (replace (era * 400) with (era * 100 * 4) by lia; by rewrite Z.mod_add).
  replace ((y + era * 400) mod 100) with (y mod 100)
    by (replace (era * 400) with (era * 4 * 100) by lia; by rewrite Z.mod_add).
  by rewrite Z.mod_add.
Qed.

(** The date of a day, and back. *)
Lemma civil_days days y m d :
  civil_from_days days = (y, m, d) →
  1 ≤ m ≤ 12 ∧ 1 ≤ d ≤ daysIn m y ∧ days_from_civil y m d = days.
Proof.
  unfold civil_from_days. intros [= <- <- <-].
  set (z := days + 719468). set (era := z / 146097). set (doe := z mod 146097).
  assert (0 ≤ doe < 146097) as Hdoe by (apply Z.mod_pos_bound; lia).
  assert (z = era * 146097 + doe) as Hz by (pose proof (Z.div_mod z 146097); lia).
  pose proof (year_of_era_bounds doe Hdoe) as [Hy0 Hy1].
  pose proof (month_day doe Hdoe) as [[Hm0 Hm1] [Hd0 Hd1]].
  set (yoe := year_of_era doe) in *. set (mp := month_from_march doe) in *.
  split; [destruct (mp <? 10) eqn:E; [apply Z.ltb_lt in E|apply Z.ltb_ge in E]; lia|].
  split.
  { split; [done|]. rewrite <- (daysIn_era _ _ era) in Hd1.
    by replace (yoe + era * 400 + _) with (yoe + (if (if mp <? 10 then mp + 3 else mp - 9) <=? 2 then 1 else 0) + era * 400) by lia. }
  unfold days_from_civil.
  assert (∀ b : Z, yoe + era * 400 + b - b = yoe + era * 400) as Hb by lia.
  assert ((if (if mp <? 10 then mp + 3 else mp - 9) <=? 2
           then yoe + era * 400 + (if (if mp <? 10 then mp + 3 else mp - 9) <=? 2 then 1 else 0) - 1
           else yoe + era * 400 + (if (if mp <? 10 then mp + 3 else mp - 9) <=? 2 then 1 else 0))
          = yoe + era * 400) as -> by (destruct (_ <=? 2); lia).
  rewrite Z.mod_add, Z.div_add by lia. rewrite (Z.mod_small yoe), (Z.div_small yoe) by lia.
  replace (((if mp <? 10 then mp + 3 else mp - 9) + 9) mod 12) with mp.
  2:{ destruct (mp <? 10) eqn:E; [apply Z.ltb_lt in E|apply Z.ltb_ge in E].
      - replace (mp + 3 + 9) with (mp + 1 * 12) by lia. by rewrite Z.mod_add, Z.mod_small by lia.
      - replace (mp - 9 + 9) with mp by lia. by rewrite Z.mod_small by lia. }
  assert (day_of_year doe = doe - (365 * yoe + yoe / 4 - yoe / 100)) as Hdoy by done.
  lia.
Qed.

Lemma digit_digit_char z : 0 ≤ z < 10 → digit (digit_char z) = Some z.
Proof.
  intros Hz. rewrite <- (Z2Nat.id z) by lia. assert (Z.to_nat z < 10)%nat as Hn by lia.
  generalize dependent (Z.to_nat z). clear. intros n Hn.
  do 10 (destruct n as [|n]; [reflexivity|]). lia.
Qed.

Lemma take_two_two z s : 0 ≤ z < 100 → take_two (two z +:+ s) = Some (z, s).
Proof.
  intros Hz. unfold two. change (String ?a (String ?b "") +:+ s) with (String a (String b s)).
  unfold take_two. pose proof (Z.div_mod z 10). pose proof (Z.mod_pos_bound z 10).
  rewrite !digit_digit_char by lia. simpl. f_equal. f_equal. lia.
Qed.

Lemma take_byte_app c s : take_byte c (String c "" +:+ s) = Some s.
Proof. change (String c "" +:+ s) with (String c s). simpl. by rewrite decide_True. Qed.

Lemma take_hour_two z s : 0 ≤ z < 100 → take_hour (two z +:+ s) = Some (z, s).
Proof. intros Hz. unfold take_hour. by rewrite take_two_two. Qed.

Lemma take_four_four y s : 0 ≤ y < 10000 → take_four (four y +:+ s) = Some (y, s).
Proof.
  intros Hy. unfold four. replace ((0 <=? y) && (y <? 10000)) with true
    by (symmetry; rewrite andb_true_iff, Z.leb_le, Z.ltb_lt; lia).
  rewrite string_app_assoc. unfold take_four.
  pose proof (Z.div_mod y 100). pose proof (Z.mod_pos_bound y 100).
  rewrite take_two_two by lia. cbn [mbind option_bind]. rewrite take_two_two by lia. cbn [mbind option_bind].
  f_equal. f_equal. lia.
Qed.

(** A year of four digits: the instants from 0000-01-01 to 9999-12-31. *)
Definition printable (t : Z) : Prop :=
  let '(y, _, _) := civil_from_days (Unix t / 86400) in 0 ≤ y < 10000.

(** Reading back a time that was printed: the nanoseconds are lost. *)
Lemma Parse_Format t : printable t → Parse (Format t) = Some (Unix t * second).
Proof.
  unfold printable, Format, Parse. destruct (civil_from_days _) as [[y m] d] eqn:Hc. intros Hy.
  apply civil_days in Hc as (Hm & Hd & Hdays).
  set (s := Unix t) in *. set (sod := s mod 86400).
  assert (0 ≤ sod < 86400) as Hsod by (apply Z.mod_pos_bound; lia).
  assert (s = s / 86400 * 86400 + sod) as Hs by (pose proof (Z.div_mod s 86400); lia).
  assert (daysIn m y ≤ 31) by (unfold daysIn; repeat case_match; lia).
  assert (0 ≤ sod / 3600 < 24) by (split; [apply Z.div_pos|apply Z.div_lt_upper_bound]; lia).
  pose proof (Z.mod_pos_bound (sod / 60) 60). pose proof (Z.mod_pos_bound sod 60).
  rewrite take_four_four by done. cbn [mbind option_bind]. rewrite take_byte_app. cbn [mbind option_bind].
  rewrite take_two_two by lia. cbn [mbind option_bind]. rewrite take_byte_app. cbn [mbind option_bind].
  rewrite take_two_two by lia. cbn [mbind option_bind]. rewrite take_byte_app. cbn [mbind option_bind].
  rewrite take_hour_two by lia. cbn [mbind option_bind]. rewrite take_byte_app. cbn [mbind option_bind].
  rewrite take_two_two by lia. cbn [mbind option_bind]. rewrite take_byte_app. cbn [mbind option_bind].
  rewrite take_two_two by lia. cbn [mbind option_bind].
  change (take_fraction "Z") with (0, "Z"). cbn beta iota zeta.
  change (take_zone "Z") with (Some (0, "")). cbn [mbind option_bind].
  rewrite decide_True by (repeat split; lia). f_equal. rewrite Hdays.
  assert (sod = sod / 3600 * 3600 + sod / 60 mod 60 * 60 + sod mod 60) as Hhms.
  { pose proof (Z.div_mod sod 60). pose proof (Z.div_mod (sod / 60) 60).
    rewrite Z.div_div in * by lia. change (60 * 60) with 3600 in *. lia. }
  lia.
Qed.
