(* ===== verification/SignerStore.v ===== *)
(** * The tables of the certificate signer

    extensions/SSH-Certificate-Signer/migrations and internal/store: the clients
    allowed to ask for certificates, the log of issued certificates and the
    revocations. Every statement commits by itself. A statement that writes gets
    CURRENT_TIMESTAMP and fails with the constraint it violates. JSONB columns hold
    the JSON value. *)

From stdpp Require Import base gmap sets list strings.
From Stdlib Require Import ZArith Ascii Lia.
From S2P Require Import Prelude GoError Models Schema Wire AmieStore.

(** ** Rows *)

(** client_ssh_configs. *)
Record ClientRow := mkClientRow {
  cr_tenant_id : string;
  cr_client_id : string;
  cr_client_secret : string;
  cr_target_host : string;
  cr_target_port : Z;
  cr_max_ttl_seconds : Z;
  cr_allowed_key_types : JVal;
  cr_source_address_restriction : option string;
  cr_denied_extensions : option JVal;
  cr_principal_source : string;
  cr_enabled : bool }.

(** certificate_issuance_logs. *)
Record IssuanceRow := mkIssuanceRow {
  ir_id : Z;
  ir_tenant_id : string;
  ir_client_id : string;
  ir_serial_number : Z;
  ir_key_id : string;
  ir_principal : string;
  ir_user_email : option string;
  ir_public_key_fingerprint : string;
  ir_ca_fingerprint : string;
  ir_valid_after : Time;
  ir_valid_before : Time;
  ir_issued_at : Time;
  ir_source_ip : option string;
  ir_granted_extensions : JVal;
  ir_force_command : option string;
  ir_user_access_token_hash : option string }.

(** revocation_events. *)
Record RevocationRow := mkRevocationRow {
  rr_id : Z;
  rr_tenant_id : string;
  rr_client_id : string;
  rr_serial_number : option Z;
  rr_key_id : option string;
  rr_ca_fingerprint : option string;
  rr_revoked_at : Time;
  rr_reason : string;
  rr_revoked_by : string }.

(** The database, with the sequences of the two identity columns. *)
Record SignerDB := mkSignerDB {
  t_clients : gmap (string * string) ClientRow;
  t_issuance : gmap Z IssuanceRow;
  t_revocations : gmap Z RevocationRow;
  seq_issuance : Z;
  seq_revocations : Z }.

Definition set_issuance (t : gmap Z IssuanceRow) (n : Z) (d : SignerDB) : SignerDB :=
  mkSignerDB (t_clients d) t (t_revocations d) n (seq_revocations d).
Definition set_revocations (t : gmap Z RevocationRow) (n : Z) (d : SignerDB) : SignerDB :=
  mkSignerDB (t_clients d) (t_issuance d) t (seq_issuance d) n.

(** The constraint uq_issuance_serial, and the primary keys. *)
Definition uq_issuance_serial (d : SignerDB) : Prop :=
  ∀ i j r s, t_issuance d !! i = Some r → t_issuance d !! j = Some s →
    ir_serial_number r = ir_serial_number s → i = j.
Definition signer_keys (d : SignerDB) : Prop :=
  (∀ k r, t_clients d !! k = Some r → k = (cr_tenant_id r, cr_client_id r)) ∧
  (∀ i r, t_issuance d !! i = Some r → ir_id r = i ∧ (i < seq_issuance d)%Z) ∧
  (∀ i r, t_revocations d !! i = Some r → rr_id r = i ∧ (i < seq_revocations d)%Z).
Definition signer_db_ok (d : SignerDB) : Prop := signer_keys d ∧ uq_issuance_serial d.

(** ** internal/store/client_config.go *)

Record ClientConfig := mkClientConfig {
  TenantID : string;
  ClientID : string;
  ClientSecret : string;
  TargetHost : string;
  TargetPort : Z;
  MaxTTLSeconds : Z;
  AllowedKeyTypes : list string;
  SourceAddressRestriction : option string;
  DeniedExtensions : list string;
  PrincipalSource : string;
  Enabled : bool }.

(** Element [i] of an array decoded into a slice of strings: null leaves the zero
    value, anything but a string is an error. *)
Definition unmarshal_string (v : JVal) : option string :=
  match v with JStr s => Some s | JNull => Some "" | _ => None end.

(** [json.Unmarshal(raw, &list)] for a nil [list] of strings. *)
Definition unmarshal_strings (v : JVal) : option (list string) :=
  match v with
  | JArr vs => mapM unmarshal_string vs
  | JNull => Some []
  | _ => None
  end.

(** [json.Marshal] of a list of strings. *)
Definition marshal_strings (l : list string) : JVal := JArr (JStr <$> l).

(** [GetClientConfig] on the row that is found: the columns of JSON are decoded. *)
Definition scan_client (r : ClientRow) : Res ClientConfig :=
  match unmarshal_strings (cr_allowed_key_types r) with
  | None => Err (NewError "unmarshaling allowed_key_types: %w" ["json: cannot unmarshal"])
  | Some allowed =>
      match (match cr_denied_extensions r with Some v => unmarshal_strings v | None => Some [] end) with
      | None => Err (NewError "unmarshaling denied_extensions: %w" ["json: cannot unmarshal"])
      | Some denied =>
          Ok (mkClientConfig (cr_tenant_id r) (cr_client_id r) (cr_client_secret r) (cr_target_host r)
                (cr_target_port r) (cr_max_ttl_seconds r) allowed (cr_source_address_restriction r)
                denied (cr_principal_source r) (cr_enabled r))
      end
  end.

(** The query of [GetClientConfig]: WHERE tenant_id = $1 AND client_id = $2. *)
Definition select_client (tenantID clientID : string) (d : SignerDB) : option ClientRow :=
  t_clients d !! (tenantID, clientID).

(** ** internal/store/issuance_log.go *)

Record IssuanceLog := mkIssuanceLog {
  il_TenantID : string;
  il_ClientID : string;
  il_SerialNumber : Z;
  il_KeyID : string;
  il_Principal : string;
  il_UserEmail : string;
  il_PublicKeyFingerprint : string;
  il_CAFingerprint : string;
  il_ValidAfter : Time;
  il_ValidBefore : Time;
  il_SourceIP : string;
  il_GrantedExtensions : list string;
  il_ForceCommand : option string;
  il_UserAccessTokenHash : string }.

Abbreviation sstmt := (Time → SignerDB → dberr + SignerDB) (only parsing).

Definition issuance_row (id : Z) (now : Time) (l : IssuanceLog) : IssuanceRow :=
  mkIssuanceRow id (il_TenantID l) (il_ClientID l) (il_SerialNumber l) (il_KeyID l) (il_Principal l)
    (Some (il_UserEmail l)) (il_PublicKeyFingerprint l) (il_CAFingerprint l) (il_ValidAfter l)
    (il_ValidBefore l) now (Some (il_SourceIP l)) (marshal_strings (il_GrantedExtensions l))
    (il_ForceCommand l) (Some (il_UserAccessTokenHash l)).

(** The range of TIMESTAMPTZ, in nanoseconds: from 4713 BC to 294276 AD. *)
Definition pg_time_ok (t : Time) : bool :=
  (-210866803200000000000 <=? t)%Z && (t <? 9224318016000000000000)%Z.

(** The statement of [InsertIssuanceLog]. *)
Definition insert_issuance (l : IssuanceLog) : sstmt := λ now d,
  ensure (valid_text (il_KeyID l) && valid_text (il_UserEmail l) && valid_text (il_SourceIP l) &&
          valid_text (default "" (il_ForceCommand l)) && valid_text (il_TenantID l) && valid_text (il_ClientID l)
          && valid_text (il_Principal l) = true) orelse InvalidText;
  ensure fits [(255, il_TenantID l); (255, il_ClientID l); (255, il_KeyID l); (255, il_Principal l);
               (255, il_UserEmail l); (255, il_PublicKeyFingerprint l); (255, il_CAFingerprint l);
               (45, il_SourceIP l); (255, il_UserAccessTokenHash l)] orelse StringTooLong;
  ensure (pg_time_ok (il_ValidAfter l) && pg_time_ok (il_ValidBefore l) = true) orelse NumberOutOfRange;
  ensure map_Forall (λ _ r, ir_serial_number r ≠ il_SerialNumber l) (t_issuance d)
    orelse UniqueViolation "uq_issuance_serial";
  inr (set_issuance (<[seq_issuance d := issuance_row (seq_issuance d) now l]> (t_issuance d))
         (seq_issuance d + 1)%Z d).

(** ** internal/store/revocation.go *)

Record RevocationEvent := mkRevocationEvent {
  re_TenantID : string;
  re_ClientID : string;
  re_SerialNumber : option Z;
  re_KeyID : option string;
  re_CAFingerprint : option string;
  re_Reason : string;
  re_RevokedBy : string }.

Definition revocation_row (id : Z) (now : Time) (e : RevocationEvent) : RevocationRow :=
  mkRevocationRow id (re_TenantID e) (re_ClientID e) (re_SerialNumber e) (re_KeyID e) (re_CAFingerprint e)
    now (re_Reason e) (re_RevokedBy e).

(** The statement of [InsertRevocationEvent]. *)
Definition insert_revocation (e : RevocationEvent) : sstmt := λ now d,
  ensure (valid_text (default "" (re_KeyID e)) && valid_text (default "" (re_CAFingerprint e)) &&
          valid_text (re_Reason e) && valid_text (re_TenantID e) && valid_text (re_ClientID e) &&
          valid_text (re_RevokedBy e) = true) orelse InvalidText;
  ensure fits [(255, re_TenantID e); (255, re_ClientID e); (255, default "" (re_KeyID e));
               (255, default "" (re_CAFingerprint e)); (255, re_Reason e); (255, re_RevokedBy e)] orelse StringTooLong;
  inr (set_revocations (<[seq_revocations d := revocation_row (seq_revocations d) now e]> (t_revocations d))
         (seq_revocations d + 1)%Z d).

(** ** internal/store/certificate_query.go *)

Record CertificateWithStatus := mkCertificateWithStatus {
  c_ID : Z;
  c_TenantID : string;
  c_ClientID : string;
  c_SerialNumber : Z;
  c_KeyID : string;
  c_Principal : string;
  c_UserEmail : string;
  c_PublicKeyFingerprint : string;
  c_CAFingerprint : string;
  c_ValidAfter : Time;
  c_ValidBefore : Time;
  c_IssuedAt : Time;
  c_SourceIP : string;
  c_GrantedExtensions : list string;
  c_ForceCommand : option string;
  c_Revoked : bool;
  c_RevokedAt : option Time;
  c_RevocationReason : string }.

Record CertificateListResult := mkCertificateListResult {
  lr_Certificates : list CertificateWithStatus;
  lr_Total : nat }.

(** FROM certificate_issuance_logs c LEFT JOIN revocation_events r ON
    r.serial_number = c.serial_number: one row per matching revocation, or one
    without. *)
Definition matching_revocations (c : IssuanceRow) (d : SignerDB) : list RevocationRow :=
  select_rows (λ r, rr_serial_number r = Some (ir_serial_number c)) (t_revocations d).
Definition join_revocations (d : SignerDB) (c : IssuanceRow) : list (IssuanceRow * option RevocationRow) :=
  match matching_revocations c d with
  | [] => [(c, None)]
  | rs => (λ r, (c, Some r)) <$> rs
  end.

(** A row of the join, scanned; granted_extensions is decoded. *)
Definition scan_certificate (cr : IssuanceRow * option RevocationRow) : Res CertificateWithStatus :=
  let '(c, r) := cr in
  match unmarshal_strings (ir_granted_extensions c) with
  | None => Err (NewError "unmarshaling granted_extensions: %w" ["json: cannot unmarshal"])
  | Some exts =>
      Ok (mkCertificateWithStatus (ir_id c) (ir_tenant_id c) (ir_client_id c) (ir_serial_number c)
            (ir_key_id c) (ir_principal c) (default "" (ir_user_email c)) (ir_public_key_fingerprint c)
            (ir_ca_fingerprint c) (ir_valid_after c) (ir_valid_before c) (ir_issued_at c)
            (default "" (ir_source_ip c)) exts (ir_force_command c)
            (bool_decide (is_Some r)) (rr_revoked_at <$> r) (default "" (rr_reason <$> r)))
  end.

Fixpoint scan_all (l : list (IssuanceRow * option RevocationRow)) : Res (list CertificateWithStatus) :=
  match l with
  | [] => Ok []
  | cr :: l' =>
      match scan_certificate cr with
      | Err e => Err e
      | Ok c => match scan_all l' with Err e => Err e | Ok cs => Ok (c :: cs) end
      end
  end.

(** The two clamps of [ListCertificatesByEmail]. *)
Definition clamp_limit (limit : Z) : Z :=
  let limit := if (limit <=? 0)%Z then 20%Z else limit in if (100 <? limit)%Z then 100%Z else limit.
Definition clamp_offset (offset : Z) : Z := if (offset <? 0)%Z then 0%Z else offset.

Definition count_certificates (email : string) (d : SignerDB) : nat :=
  length (select_rows (λ c, ir_user_email c = Some email) (t_issuance d)).

(** WHERE user_email = $1 ORDER BY issued_at DESC LIMIT $2 OFFSET $3, of the join. *)
Definition select_certificates (email : string) (limit offset : Z) (d : SignerDB) :
    list (IssuanceRow * option RevocationRow) :=
  take (Z.to_nat limit) (drop (Z.to_nat offset)
    (order_by (λ cr, ir_issued_at cr.1) Z.ge
       (select_rows (λ c, ir_user_email c = Some email) (t_issuance d) ≫= join_revocations d))).

(** WHERE serial_number = $1, the first row of the join. *)
Definition select_certificate (serial : Z) (d : SignerDB) : option (IssuanceRow * option RevocationRow) :=
  head (select_rows (λ c, ir_serial_number c = serial) (t_issuance d) ≫= join_revocations d).
