(* ===== verification/SignerEffects.v ===== *)
(** * Effects of the certificate signer

    The signer serves requests concurrently, so what a handler does is a process
    ([Proc]): a sequence of operations on things it shares with the other requests
    (the database, the secrets engine, the caches in memory, the network, the clock
    and the random source), each of which is one step, and what follows depends on
    the answer. [run] runs a process alone; [pool_step] interleaves any number of
    them. An operation on a server can fail, and a write that fails may still have
    been carried out. *)

From stdpp Require Import base gmap sets list strings.
From Stdlib Require Import ZArith Lia SpecFloat.
From S2P Require Import Prelude GoError Models Schema Wire AmieStore SignerStore.

(** ** The secrets engine

    The KV version 2 engine of OpenBao, as its documentation describes it: a path
    has versions, counted from 1; a read returns the last one and its number; a
    write adds one; a write with a check-and-set parameter is refused unless it is
    the number of the last version (0 when there is none). Values of a secret are
    JSON values, numbers read by the client as [json.Number]. *)

Inductive SVal :=
  | SNull
  | SBool (b : bool)
  | SStr (s : string)
  | SNumber (literal : string)
  | SFloat (x : float64)
  | SOther.

Abbreviation SecretData := (gmap string SVal) (only parsing).

Class SecretsEngine := {
  kv : Type;
  kv_read : string → kv → option (SecretData * nat);
  kv_write : string → option nat → SecretData → kv → option kv }.

(** The number of the last version. *)
Definition kv_version `{SecretsEngine} (path : string) (s : kv) : nat := default 0 (snd <$> kv_read path s).

Class KVLaws `{SecretsEngine} : Prop := {
  kv_read_positive path s d v : kv_read path s = Some (d, v) → 0 < v;
  kv_write_plain path d s : is_Some (kv_write path None d s);
  kv_write_cas path c d s : is_Some (kv_write path (Some c) d s) ↔ c = kv_version path s;
  kv_read_written path c d s s' : kv_write path c d s = Some s' →
    kv_read path s' = Some (d, S (kv_version path s));
  kv_read_other path path' c d s s' : kv_write path c d s = Some s' → path' ≠ path →
    kv_read path' s' = kv_read path' s }.

(** ** golang.org/x/crypto, crypto and encoding/pem *)

Inductive PrivateKey :=
  | PrivEd25519 (k : string)
  | PrivECDSA (k : string)
  | PrivRSA (k : string)
  | PrivECDH (k : string).          (* not a [crypto.Signer] *)

Inductive PublicKey :=
  | PubEd25519 (key : string)
  | PubECDSA (BitSize : Z) (X Y : string)     (* coordinates as big-endian bytes *)
  | PubRSA (N : string) (E : Z)
  | PubOther (k : string).

(** [ssh.Certificate], before it is signed. *)
Record Certificate := mkCertificate {
  Cert_Nonce : string;
  Cert_Key : string;                          (* the public key, in wire format *)
  Cert_Serial : Z;
  Cert_KeyId : string;
  Cert_ValidPrincipals : list string;
  Cert_ValidAfter : Z;
  Cert_ValidBefore : Z;
  Cert_CriticalOptions : gmap string string;
  Cert_Extensions : gmap string string }.

(** [ssh.Signer]: the key, and whether it signs with rsa-sha2-256. *)
Record SSHSigner := mkSSHSigner { signer_key : PrivateKey; signer_rsa_sha256 : bool }.

Class Crypto := {
  ed25519_GenerateKey : string → string * string;           (* from random bytes: public, private *)
  MarshalPKCS8PrivateKey : PrivateKey → Res string;
  MarshalPKIXPublicKey : PublicKey → Res string;
  ParsePKCS8PrivateKey : string → Res PrivateKey;
  ParseECPrivateKey : string → Res string;
  ParsePKCS1PrivateKey : string → Res string;
  ParsePKIXPublicKey : string → Res PublicKey;
  pem_Encode : string → string → string;                    (* type, bytes *)
  pem_Decode : string → option (string * string);
  ssh_NewSignerFromKey : PrivateKey → Res SSHSigner;
  ssh_PublicKeyOf : SSHSigner → string;
  ssh_NewPublicKey : PublicKey → Res string;
  ssh_ParseAuthorizedKey : string → Res string;
  ssh_KeyType : string → string;
  ssh_MarshalAuthorizedKey : string → string;
  ssh_FingerprintSHA256 : string → string;
  ssh_SignCert : string → SSHSigner → Certificate → Res string;  (* the marshalled certificate *)
  sha256_Sum256 : string → string;
  bcrypt_CompareHashAndPassword : string → string → bool }.

(** ** github.com/lestrrat-go/jwx *)

(** [jwt.Token]: issuer, subject and the other claims. *)
Record Token := mkToken {
  Issuer : string;
  Subject : string;
  claims : gmap string JVal }.

Class JwtLib := {
  KeySet : Type;
  jwt_ParseInsecure : string → Res Token;
  jwt_Parse : KeySet → Time → string → Res Token }.

(** ** State kept in memory *)

(** [vault.ValidationCredentials]. *)
Record ValidationCredentials := mkValidationCredentials {
  vc_Type : string;
  vc_LDAPUrl : string;
  vc_BindDN : string;
  vc_BindPassword : string;
  vc_BaseDN : string;
  vc_SearchFilter : string;
  vc_UsernameAttribute : string;
  vc_VerifySSL : option bool;
  vc_RegistryURL : string;
  vc_APIUser : string;
  vc_APIKey : string;
  vc_APIPath : string }.

Record cachedCreds := mkCachedCreds {
  cc_creds : option ValidationCredentials;
  cc_err : option error;
  cc_fetchedAt : Time }.

Record LDAPConfig := mkLDAPConfig {
  LDAP_URL : string;
  LDAP_BindDN : string;
  LDAP_BindPassword : string;
  LDAP_BaseDN : string;
  LDAP_SearchFilter : string;
  LDAP_UsernameAttribute : string;
  LDAP_VerifySSL : bool }.

(** [conn] numbers the open connection. *)
Record LDAPValidator := mkLDAPValidator { lv_config : LDAPConfig; lv_conn : option nat }.

(** An entry of a search result: the first value of each attribute. *)
Abbreviation LDAPEntry := (gmap string string) (only parsing).

Record jwksEntry {S : Type} := mkJwksEntry { je_set : S; je_fetchedAt : Time }.
Arguments jwksEntry S : clear implicits.

(** The fields of [OIDCValidator] and [ValidatorDispatcher] that change, and the
    numbers of directory calls and connections so far. *)
Record Memory {S : Type} := mkMemory {
  m_jwks : gmap string (jwksEntry S);
  m_creds : gmap string cachedCreds;
  m_validators : gmap string LDAPValidator;
  m_ldap : nat }.
Arguments Memory S : clear implicits.
Arguments mkMemory {S} _ _ _ _.

Section memory.
Context {S : Type}.
Definition set_jwks (c : gmap string (jwksEntry S)) (m : Memory S) : Memory S :=
  mkMemory c (m_creds m) (m_validators m) (m_ldap m).
Definition set_creds (c : gmap string cachedCreds) (m : Memory S) : Memory S :=
  mkMemory (m_jwks m) c (m_validators m) (m_ldap m).
Definition set_validators (c : gmap string LDAPValidator) (m : Memory S) : Memory S :=
  mkMemory (m_jwks m) (m_creds m) c (m_ldap m).
Definition bump_ldap (m : Memory S) : Memory S :=
  mkMemory (m_jwks m) (m_creds m) (m_validators m) (Datatypes.S (m_ldap m)).
Definition empty_memory : Memory S := mkMemory ∅ ∅ ∅ 0.
End memory.

(** ** What the process does not control *)

(** A round trip succeeds, fails, or succeeds without the answer arriving. *)
Inductive Outcome := Answered | Failed | Unanswered.

(** The answers of a directory, call by call: whether a connection is made, whether
    the bind is accepted, the entries found. *)
Class SignerEnv `{JwtLib} := {
  now_at : nat → Time;                                    (* time.Now, nanoseconds *)
  server_now : nat → Time;                                (* CURRENT_TIMESTAMP *)
  random : nat → option string;                           (* crypto/rand *)
  outcome : nat → Outcome;
  http_Get : nat → string → option (Z * option JBody);    (* status and body of a GET *)
  jwk_Fetch : nat → string → Res KeySet;
  ldap_Connect : nat → string → bool → bool;              (* URL, verify *)
  ldap_Bind : nat → string → string → bool;               (* DN, password *)
  ldap_Search : nat → string → string → string → option (list LDAPEntry);  (* base, filter, attribute *)
  ldap_EscapeFilter : string → string;
  range_cache : gset string → list string;                (* the order of a range over a map *)
  range_cache_perm s : range_cache s ≡ₚ elements s }.

Section effects.
Context `{SE : SecretsEngine} `{JL : JwtLib} `{EV : !SignerEnv}.

Record SWorld := mkSWorld {
  s_db : SignerDB;
  s_vault : kv;
  s_mem : Memory KeySet;
  s_clock : nat;                 (* clock readings *)
  s_random : nat;                (* random values drawn *)
  s_io : nat }.                  (* round trips made *)

Definition set_sdb (d : SignerDB) (w : SWorld) : SWorld :=
  mkSWorld d (s_vault w) (s_mem w) (s_clock w) (s_random w) (s_io w).
Definition set_vault (v : kv) (w : SWorld) : SWorld :=
  mkSWorld (s_db w) v (s_mem w) (s_clock w) (s_random w) (s_io w).
Definition set_mem (m : Memory KeySet) (w : SWorld) : SWorld :=
  mkSWorld (s_db w) (s_vault w) m (s_clock w) (s_random w) (s_io w).
Definition tick (w : SWorld) : SWorld :=
  mkSWorld (s_db w) (s_vault w) (s_mem w) (S (s_clock w)) (s_random w) (s_io w).
Definition draw (w : SWorld) : SWorld :=
  mkSWorld (s_db w) (s_vault w) (s_mem w) (s_clock w) (S (s_random w)) (s_io w).
Definition bump_io (w : SWorld) : SWorld :=
  mkSWorld (s_db w) (s_vault w) (s_mem w) (s_clock w) (s_random w) (S (s_io w)).

(** ** Operations *)

Inductive Op : Type → Type :=
  | ONow : Op Time
  | ORandom : Op (Res string)
  | OQuery {X : Type} (params : list string) (f : SignerDB → X) : Op (Res X)
  | OExec (s : Time → SignerDB → dberr + SignerDB) : Op (Res unit)
  | OKvRead (path : string) : Op (Res (option (SecretData * nat)))
  | OKvWrite (path : string) (cas : option nat) (data : SecretData) : Op (Res unit)
  | OPing : Op (Res unit)
  | OHttpGet (url : string) : Op (option (Z * option JBody))
  | OJwkFetch (url : string) : Op (Res KeySet)
  | OMem {X : Type} (f : Memory KeySet → X * Memory KeySet) : Op X.

Definition connection_error : error := NewError "connection failure" [].
Definition cas_error : error := NewError "check-and-set parameter did not match the current version" [].

(** What an operation answers and does. A text parameter that is not valid is
    refused by the database. *)
Definition do_op {X} (op : Op X) (w : SWorld) : X * SWorld :=
  match op in Op X return X * SWorld with
  | ONow => (now_at (s_clock w), tick w)
  | ORandom =>
      (match random (s_random w) with Some r => Ok r | None => Err (NewError "random source failed" []) end, draw w)
  | OQuery params f =>
      (match outcome (s_io w) with
       | Answered =>
           if forallb valid_text params then Ok (f (s_db w)) else Err (DbError InvalidText)
       | _ => Err (DbError IOFault)
       end, bump_io w)
  | OExec s =>
      match outcome (s_io w) with
      | Failed => (Err (DbError IOFault), bump_io w)
      | o =>
          match s (server_now (s_io w)) (s_db w) with
          | inl e => (Err (DbError (match o with Unanswered => IOFault | _ => e end)), bump_io w)
          | inr d => (match o with Unanswered => Err (DbError IOFault) | _ => Ok tt end, set_sdb d (bump_io w))
          end
      end
  | OKvRead path =>
      (match outcome (s_io w) with
       | Answered => Ok (kv_read path (s_vault w))
       | _ => Err connection_error
       end, bump_io w)
  | OKvWrite path cas data =>
      match outcome (s_io w) with
      | Failed => (Err connection_error, bump_io w)
      | o =>
          match kv_write path cas data (s_vault w) with
          | None => (Err (match o with Unanswered => connection_error | _ => cas_error end), bump_io w)
          | Some v => (match o with Unanswered => Err connection_error | _ => Ok tt end, set_vault v (bump_io w))
          end
      end
  | OPing =>
      (match outcome (s_io w) with Answered => Ok tt | _ => Err connection_error end, bump_io w)
  | OHttpGet url => (http_Get (s_io w) url, bump_io w)
  | OJwkFetch url => (jwk_Fetch (s_io w) url, bump_io w)
  | OMem f => let '(x, m) := f (s_mem w) in (x, set_mem m w)
  end.

(** ** Processes *)

Inductive Proc (A : Type) : Type :=
  | Ret (a : A)
  | Vis {X : Type} (op : Op X) (k : X → Proc A).
Arguments Ret {A} a.
Arguments Vis {A X} op k.

#[export] Instance Proc_ret : MRet Proc := λ A a, Ret a.
#[export] Instance Proc_bind : MBind Proc := λ A B k,
  fix bind (p : Proc A) : Proc B :=
    match p with
    | Ret a => k a
    | Vis op k' => Vis op (λ x, bind (k' x))
    end.

Definition trigger {X} (op : Op X) : Proc X := Vis op Ret.

(** A call that returns a value and an error: on error the caller returns it, after
    [f]. *)
Definition try_map {A B} (f : error → error) (p : Proc (Res A)) (k : A → Proc (Res B)) : Proc (Res B) :=
  r ← p; match r with Ok a => k a | Err e => mret (Err (f e)) end.

(** A process run alone. *)
Fixpoint run {A} (p : Proc A) (w : SWorld) : A * SWorld :=
  match p with
  | Ret a => (a, w)
  | Vis op k => let '(x, w') := do_op op w in run (k x) w'
  end.

(** One step of a process that has not returned. *)
Definition proc_step {A} (p : Proc A) (w : SWorld) : option (Proc A * SWorld) :=
  match p with
  | Ret _ => None
  | Vis op k => let '(x, w') := do_op op w in Some (k x, w')
  end.

(** Concurrent processes: any one of them makes a step, or a new one starts. *)
Inductive pool_step {A} (may_start : Proc A → Prop) : list (Proc A) * SWorld → list (Proc A) * SWorld → Prop :=
  | PoolStep ps i p p' w w' :
      ps !! i = Some p → proc_step p w = Some (p', w') →
      pool_step may_start (ps, w) (<[i := p']> ps, w')
  | PoolStart ps p w :
      may_start p → pool_step may_start (ps, w) (ps ++ [p], w).
End effects.

Arguments Ret {_ A} a.
Arguments Vis {_ A X} op k.

Abbreviation try p k := (try_map (λ e, e) p k).
Abbreviation try_wrap format p k := (try_map (Errorf format []) p k).

Notation "x ←? p ; k" := (try p (λ x, k))
  (at level 20, p at level 100, k at level 200, format "x  ←?  p ; '/' k").
Notation "x ←[ fmt ] p ; k" := (try_wrap fmt p (λ x, k))
  (at level 20, fmt at level 200, p at level 100, k at level 200, format "x  ←[ fmt ]  p ; '/' k").
