(* ===== verification/SignerPolicy.v ===== *)
(** * Policy of the certificate signer

    internal/policy/enforcer.go and the pure part of internal/cert: key types,
    extensions, the conversion of a CA key to a JWK. *)

From stdpp Require Import base gmap sets list strings pretty.
From Stdlib Require Import ZArith Ascii Lia.
From S2P Require Import Prelude GoError Models Wire SignerText SignerStore SignerEffects.

(** ** internal/cert/ssh_key.go *)

Definition NormalizeKeyType (sshKeyType : string) : string :=
  if decide (sshKeyType = "ssh-ed25519") then "ed25519"
  else if decide (sshKeyType = "ssh-rsa") then "rsa"
  else if decide (sshKeyType ∈ ["ecdsa-sha2-nistp256"; "ecdsa-sha2-nistp384"; "ecdsa-sha2-nistp521"]) then "ecdsa"
  else sshKeyType.

(** ** internal/policy/enforcer.go *)

Record Enforcer := mkEnforcer { defaultMaxTTL : Z; defaultAllowedTypes : list string }.
Definition NewEnforcer (defaultMaxTTL : Z) (defaultAllowedTypes : list string) : Enforcer :=
  mkEnforcer defaultMaxTTL defaultAllowedTypes.

(** The text of [%v] on a list of strings. *)
Definition show_list (l : list string) : string := "[" +:+ String.concat " " l +:+ "]".

Definition effective_max_ttl (e : Enforcer) (cfg : ClientConfig) : Z :=
  if decide (MaxTTLSeconds cfg = 0%Z) then defaultMaxTTL e else MaxTTLSeconds cfg.
Definition effective_key_types (e : Enforcer) (cfg : ClientConfig) : list string :=
  if decide (AllowedKeyTypes cfg = []) then defaultAllowedTypes e else AllowedKeyTypes cfg.

(** The message of the [PolicyError], if the request violates the policy. *)
Definition Enforce (e : Enforcer) (ttlSeconds : Z) (sshKeyType sourceIP : string) (cfg : ClientConfig) :
    option string :=
  let maxTTL := effective_max_ttl e cfg in
  if (ttlSeconds <=? 0)%Z then
    Some (Sprintf "TTL must be greater than 0, got %d" [FormatInt ttlSeconds] "")
  else if (maxTTL <? ttlSeconds)%Z then
    Some (Sprintf "Requested TTL %d seconds exceeds maximum allowed TTL %d seconds"
            [FormatInt ttlSeconds; FormatInt maxTTL] "")
  else
    let normalizedType := NormalizeKeyType sshKeyType in
    let allowedTypes := effective_key_types e cfg in
    if negb (existsb (λ at_, EqualFold at_ normalizedType) allowedTypes) then
      Some (Sprintf "Key type %q is not allowed. Allowed types: %v" [normalizedType; show_list allowedTypes] "")
    else
      match SourceAddressRestriction cfg with
      | None => None
      | Some restriction =>
          if decide (restriction = "") then None else
          match ParseCIDR restriction with
          | None => Some (Sprintf "Invalid source address restriction CIDR: %s" [restriction] "")
          | Some cidr =>
              match ParseIP sourceIP with
              | None => Some (Sprintf "Could not parse source IP: %s" [sourceIP] "")
              | Some ip =>
                  if Contains cidr ip then None
                  else Some (Sprintf "Source IP %s is not within allowed CIDR %s" [sourceIP; restriction] "")
              end
          end
      end.

(** A nil map has no entries either. *)
Definition BuildCriticalOptions (sourceAddr : option string) (forceCommand : string) : gmap string string :=
  let opts :=
    match sourceAddr with
    | Some a => if decide (a = "") then ∅ else <["source-address" := a]> ∅
    | None => ∅
    end in
  if decide (forceCommand = "") then opts else <["force-command" := forceCommand]> opts.

(** ** internal/cert/extensions.go *)

Definition ExtPermitPTY : string := "permit-pty".
Definition ExtPermitPortForwarding : string := "permit-port-forwarding".
Definition ExtPermitUserRC : string := "permit-user-rc".
Definition ExtPermitAgentForwarding : string := "permit-agent-forwarding".
Definition ExtPermitX11Forwarding : string := "permit-X11-forwarding".
Definition ExtNoTouchRequired : string := "no-touch-required".

Definition validExtensions : list string :=
  [ExtPermitPTY; ExtPermitPortForwarding; ExtPermitUserRC; ExtPermitAgentForwarding;
   ExtPermitX11Forwarding; ExtNoTouchRequired].

Definition AllStandardExtensions : list string :=
  [ExtPermitPTY; ExtPermitPortForwarding; ExtPermitUserRC; ExtPermitAgentForwarding; ExtPermitX11Forwarding].

(** [SSHExtension.Validate]. *)
Definition SSHExtension_Validate (e : string) : Res unit :=
  if decide (e ∈ validExtensions) then Ok tt else Err (NewError "unknown SSH extension: %q" [e]).

Fixpoint ValidateExtensionList (names : list string) : Res (list string) :=
  match names with
  | [] => Ok []
  | name :: names' =>
      match SSHExtension_Validate name with
      | Err e => Err e
      | Ok _ => match ValidateExtensionList names' with Err e => Err e | Ok r => Ok (name :: r) end
      end
  end.

Definition ResolveExtensions (denied excluded : list string) : Res (list string) :=
  match ValidateExtensionList denied with
  | Err e => Err (Errorf "invalid denied extension: %w" [] e)
  | Ok _ =>
      match ValidateExtensionList excluded with
      | Err e => Err (Errorf "invalid excluded extension: %w" [] e)
      | Ok _ => Ok (filter (λ ext, ext ∉ (list_to_set (denied ++ excluded) : gset string)) AllStandardExtensions)
      end
  end.

Definition ExtensionsToMap (exts : list string) : gmap string string := list_to_map ((λ e, (e, "")) <$> exts).
Definition ExtensionNames (exts : list string) : list string := exts.

(** ** [PublicKeyToJWK] *)

(** [for e > 0 { eBytes = append([]byte{byte(e & 0xff)}, eBytes...); e >>= 8 }] on a
    64-bit integer, with the number of iterations allowed. *)
Fixpoint exponent_loop (fuel : nat) (e : Z) (eBytes : string) : Z * string :=
  match fuel with
  | O => (e, eBytes)
  | S fuel' =>
      if (0 <? e)%Z
      then exponent_loop fuel' (Z.shiftr e 8) (String (ascii_of_nat (Z.to_nat (Z.land e 255))) eBytes)
      else (e, eBytes)
  end.
(** Eight bytes are all an [int] has. *)
Definition exponent_bytes (e : Z) : string := (exponent_loop 8 e "").2.

Fixpoint zero_bytes (n : nat) : string :=
  match n with O => EmptyString | S n' => String (ascii_of_nat 0) (zero_bytes n') end.

(** [copy(padded[byteLen-len(b):], b)] into a zeroed slice of [byteLen] bytes; a
    negative index panics. *)
Definition pad_left (byteLen : nat) (b : string) : option string :=
  if decide (String.length b ≤ byteLen) then Some (zero_bytes (byteLen - String.length b) +:+ b) else None.

(** The members of a JWK. *)
Abbreviation JWK := (gmap string string) (only parsing).

Section keys.
Context `{CR : Crypto}.

Definition ParseSSHPublicKey (keyStr : string) : Res string :=
  let keyStr := TrimSpace keyStr in
  if decide (keyStr = "") then Err (NewError "empty public key" [])
  else match ssh_ParseAuthorizedKey keyStr with
       | Ok k => Ok k
       | Err e => Err (Errorf "parsing SSH public key: %w" [] e)
       end.

Definition SSHPublicKeyFingerprint (key : string) : string := ssh_FingerprintSHA256 key.

(** The [switch] on the type of the PEM block. *)
Definition parse_private_block (block_Type block_Bytes : string) : Res PrivateKey :=
  if decide (block_Type = "PRIVATE KEY") then
    match ParsePKCS8PrivateKey block_Bytes with
    | Err e => Err (Errorf "parsing PKCS8 private key: %w" [] e)
    | Ok (PrivECDH _) => Err (NewError "private key does not implement crypto.Signer" [])
    | Ok k => Ok k
    end
  else if decide (block_Type = "EC PRIVATE KEY") then
    match ParseECPrivateKey block_Bytes with
    | Err e => Err (Errorf "parsing EC private key: %w" [] e)
    | Ok k => Ok (PrivECDSA k)
    end
  else if decide (block_Type = "RSA PRIVATE KEY") then
    match ParsePKCS1PrivateKey block_Bytes with
    | Err e => Err (Errorf "parsing RSA private key: %w" [] e)
    | Ok k => Ok (PrivRSA k)
    end
  else Err (NewError "unsupported PEM block type: %s" [block_Type]).

(** The signer of [ParseCAPrivateKey]; one with an RSA key signs with SHA-256. *)
Definition ParseCAPrivateKey (pemData : string) : Res SSHSigner :=
  match pem_Decode pemData with
  | None => Err (NewError "failed to decode PEM block" [])
  | Some (block_Type, block_Bytes) =>
      match parse_private_block block_Type block_Bytes with
      | Err e => Err e
      | Ok key =>
          match ssh_NewSignerFromKey key with
          | Err e => Err (Errorf "creating SSH signer: %w" [] e)
          | Ok s => Ok (match key with PrivRSA _ => mkSSHSigner (signer_key s) true | _ => s end)
          end
      end
  end.

(** The first steps of [ParseCAPublicKey] and [PublicKeyToJWK]. *)
Definition parse_public_pem (pemData : string) : Res (PublicKey * string) :=
  match pem_Decode pemData with
  | None => Err (NewError "failed to decode PEM block" [])
  | Some (_, block_Bytes) =>
      match ParsePKIXPublicKey block_Bytes with
      | Err e => Err (Errorf "parsing public key: %w" [] e)
      | Ok pubKey =>
          match ssh_NewPublicKey pubKey with
          | Err e => Err (Errorf "converting to SSH public key: %w" [] e)
          | Ok sshPub => Ok (pubKey, sshPub)
          end
      end
  end.

Definition ParseCAPublicKey (pemData : string) : Res string :=
  match parse_public_pem pemData with Ok (_, sshPub) => Ok sshPub | Err e => Err e end.

Definition PEMToOpenSSH (publicKeyPEM : string) : Res string :=
  match ParseCAPublicKey publicKeyPEM with
  | Ok sshPub => Ok (TrimSpace (ssh_MarshalAuthorizedKey sshPub))
  | Err e => Err e
  end.

Definition CAFingerprint (publicKeyPEM : string) : Res string :=
  match ParseCAPublicKey publicKeyPEM with
  | Ok sshPub => Ok (ssh_FingerprintSHA256 sshPub)
  | Err e => Err e
  end.

(** The name of the curve; a curve of another size has none. *)
Definition curve_name (bitSize : Z) (m : JWK) : JWK :=
  if decide (bitSize = 256%Z) then <["crv" := "P-256"]> m
  else if decide (bitSize = 384%Z) then <["crv" := "P-384"]> m
  else if decide (bitSize = 521%Z) then <["crv" := "P-521"]> m else m.

(** [PublicKeyToJWK]; nothing when it panics. *)
Definition PublicKeyToJWK (publicKeyPEM : string) : option (Res JWK) :=
  match parse_public_pem publicKeyPEM with
  | Err e => Some (Err e)
  | Ok (pubKey, sshPub) =>
      let jwkMap : JWK := <["kid" := ssh_FingerprintSHA256 sshPub]> ∅ in
      match pubKey with
      | PubEd25519 key =>
          Some (Ok (<["x" := RawURLEncoding key]> (<["crv" := "Ed25519"]> (<["kty" := "OKP"]> jwkMap))))
      | PubECDSA bitSize X Y =>
          let byteLen := Z.to_nat ((bitSize + 7) / 8) in
          match pad_left byteLen X, pad_left byteLen Y with
          | Some x, Some y =>
              Some (Ok (<["y" := RawURLEncoding y]> (<["x" := RawURLEncoding x]>
                     (curve_name bitSize (<["kty" := "EC"]> jwkMap)))))
          | _, _ => None
          end
      | PubRSA N E =>
          Some (Ok (<["e" := RawURLEncoding (exponent_bytes E)]> (<["n" := RawURLEncoding N]>
                 (<["kty" := "RSA"]> jwkMap))))
      | PubOther _ => Some (Err (NewError "unsupported public key type" []))
      end
  end.

Definition HashToken (token : string) : string := StdEncoding (sha256_Sum256 token).
End keys.
