(* ===== verification/SignerVault.v ===== *)
(** * CA keys and serial numbers in the secrets engine

    internal/vault/client.go. Each client of a tenant has a current and a next CA
    key, the metadata with its serial counter, and the credentials for the
    validation of principals, each under a path of its own. *)

From stdpp Require Import base gmap sets list strings.
From Stdlib Require Import ZArith Ascii Lia SpecFloat.
From S2P Require Import Prelude GoError Models Wire SignerText Rfc3339 SignerStore SignerEffects.

(** ** Numbers *)

(** Arithmetic of int64. *)
Definition wrap64 (z : Z) : Z := ((z + 2 ^ 63) mod 2 ^ 64 - 2 ^ 63)%Z.

(** The value [strconv.ParseInt(s, 10, 64)] returns beside an error that is
    ignored: 0 on a syntax error, the nearest bound when out of range. *)
Definition ParseInt_value (s : string) : Z :=
  match s with
  | EmptyString => 0
  | String c s' =>
      match (if decide (c = "-"%char) then Z.opp <$> unsigned s'
             else if decide (c = "+"%char) then unsigned s' else unsigned s) with
      | None => 0
      | Some z => Z.max min_int64 (Z.min max_int64 z)
      end
  end%Z.

(** [int64(x)]: truncation; out of range the hardware decides, the least int64 here. *)
Definition float_to_int64 (x : float64) : Z :=
  match x with
  | S754_zero _ => 0
  | S754_finite sign m e =>
      let n := (if 0 <=? e then Z.pos m * 2 ^ e else Z.pos m / 2 ^ (- e))%Z in
      let z := (if sign then - n else n)%Z in
      if in_int64 z then z else min_int64
  | _ => min_int64
  end%Z.

(** ** Data *)

Record CAKeyPair := mkCAKeyPair {
  kp_PrivateKey : string;
  kp_PublicKey : string;
  kp_Algorithm : string;
  kp_CreatedAt : string }.

Record CAMetadata := mkCAMetadata {
  SerialCounter : Z;
  LastRotationAt : string;
  NextRotationAt : string;
  RotationPeriodH : Z;
  OverlapHours : Z }.

Record RotationConfig := mkRotationConfig { rot_PeriodHours : Z; rot_OverlapHours : Z }.
Record Client := mkClient { mountPath : string; rotationCfg : RotationConfig }.

(** [data[key].(string)], the zero value when it is not one. *)
Definition str_at (key : string) (data : gmap string SVal) : string :=
  match data !! key with Some (SStr s) => s | _ => "" end.

(** A number stored as a string or as a float. *)
Definition num_at (key : string) (data : gmap string SVal) : Z :=
  match data !! key with
  | Some (SStr s) => ParseInt_value s
  | Some (SFloat x) => float_to_int64 x
  | _ => 0%Z
  end.

(** The secret that [writeMetadata] and [writeMetadataCAS] store. *)
Definition metadata_data (meta : CAMetadata) : gmap string SVal :=
  <["serial_counter" := SStr (FormatInt (SerialCounter meta))]>
  (<["last_rotation_at" := SStr (LastRotationAt meta)]>
  (<["next_rotation_at" := SStr (NextRotationAt meta)]>
  (<["rotation_period_hours" := SStr (FormatInt (RotationPeriodH meta))]>
  (<["overlap_hours" := SStr (FormatInt (OverlapHours meta))]> ∅)))).

(** The metadata that [readMetadataWithVersion] reads from a secret. *)
Definition metadata_of (data : gmap string SVal) : CAMetadata :=
  mkCAMetadata (num_at "serial_counter" data) (str_at "last_rotation_at" data)
    (str_at "next_rotation_at" data) (num_at "rotation_period_hours" data) (num_at "overlap_hours" data).

Definition key_data (kp : CAKeyPair) : gmap string SVal :=
  <["private_key" := SStr (kp_PrivateKey kp)]> (<["public_key" := SStr (kp_PublicKey kp)]>
  (<["algorithm" := SStr (kp_Algorithm kp)]> (<["created_at" := SStr (kp_CreatedAt kp)]> ∅))).

Definition key_of (data : gmap string SVal) : CAKeyPair :=
  mkCAKeyPair (str_at "private_key" data) (str_at "public_key" data) (str_at "algorithm" data)
    (str_at "created_at" data).

(** ** [GetValidationCredentials]: the secret through JSON into a struct *)

#[export] Instance bool_ptr_field : JField (option bool) := {|
  jzero := None;
  jset v old := match v with JBool b => (Some b, true) | JNull => (None, true) | _ => (old, false) end |}.

Definition sval_json (v : SVal) : JVal :=
  match v with
  | SNull => JNull
  | SBool b => JBool b
  | SStr s => JStr s
  | SNumber lit => JNum lit
  | SFloat _ => JNum "0"
  | SOther => JNested
  end.

Definition bytes_le (x y : string) : Prop := String.leb x y = true.
#[export] Instance bytes_le_dec x y : Decision (bytes_le x y).
Proof. unfold bytes_le. apply _. Defined.

(** The members in the order [json.Marshal] writes them. *)
Definition secret_members (data : gmap string SVal) : list (string * JVal) :=
  order_by fst bytes_le (prod_map id sval_json <$> map_to_list data).

Definition dec_ValidationCredentials : Dec ValidationCredentials :=
  (struct mkValidationCredentials
   ⊛ field "type" ⊛ field "ldap_url" ⊛ field "bind_dn" ⊛ field "bind_password" ⊛ field "base_dn"
   ⊛ field "search_filter" ⊛ field "username_attribute" ⊛ field "verify_ssl" ⊛ field "registry_url"
   ⊛ field "api_user" ⊛ field "api_key" ⊛ field "api_path")%wire.

(** ** Operations *)

Section client.
Context `{CR : Crypto} `{JL : JwtLib}.
Context (c : Client).

Definition kvPath (parts : list string) : string :=
  foldl (λ path p, path +:+ "/" +:+ p) (mountPath c +:+ "/data") parts.

Definition nowUTC_s : Proc Time := trigger ONow.

Definition readCAKey (tenantID clientID slot : string) : Proc (Res (option CAKeyPair)) :=
  let path := kvPath [tenantID; clientID; slot] in
  secret ←[Sprintf "reading vault path %s: %w" [path] "%w"] trigger (OKvRead path);
  mret (Ok (match secret with
            | None => None
            | Some (data, _) =>
                let kp := key_of data in
                if decide (kp_PrivateKey kp = "") then None else Some kp
            end)).

Definition writeCAKey (tenantID clientID slot : string) (kp : CAKeyPair) : Proc (Res unit) :=
  let path := kvPath [tenantID; clientID; slot] in
  _ ←[Sprintf "writing vault path %s: %w" [path] "%w"] trigger (OKvWrite path None (key_data kp));
  mret (Ok tt).

Definition metadata_path (tenantID clientID : string) : string := kvPath [tenantID; clientID; "metadata"].

Definition readMetadataWithVersion (tenantID clientID : string) : Proc (Res (option CAMetadata * nat)) :=
  secret ←["reading vault metadata: %w"] trigger (OKvRead (metadata_path tenantID clientID));
  mret (Ok (match secret with
            | None => (None, 0)
            | Some (data, version) => (Some (metadata_of data), version)
            end)).

Definition readMetadata (tenantID clientID : string) : Proc (Res (option CAMetadata)) :=
  m ←? readMetadataWithVersion tenantID clientID; mret (Ok m.1).

Definition GetMetadata (tenantID clientID : string) : Proc (Res (option CAMetadata)) :=
  readMetadata tenantID clientID.

Definition writeMetadata (tenantID clientID : string) (meta : CAMetadata) : Proc (Res unit) :=
  _ ←["writing vault metadata: %w"]
    trigger (OKvWrite (metadata_path tenantID clientID) None (metadata_data meta));
  mret (Ok tt).

Definition writeMetadataCAS (tenantID clientID : string) (meta : CAMetadata) (cas : nat) : Proc (Res unit) :=
  _ ←[Sprintf "writing vault metadata (CAS=%d): %w" [FormatInt (Z.of_nat cas)] "%w"]
    trigger (OKvWrite (metadata_path tenantID clientID) (Some cas) (metadata_data meta));
  mret (Ok tt).

(** [now.Add(time.Duration(PeriodHours) * time.Hour)]. *)
Definition next_rotation (now : Time) : Time := (now + wrap64 (rot_PeriodHours (rotationCfg c) * hour))%Z.

Definition initMetadata (tenantID clientID : string) : Proc (Res unit) :=
  now ← nowUTC_s;
  writeMetadata tenantID clientID
    (mkCAMetadata 0 (Format now) (Format (next_rotation now)) (rot_PeriodHours (rotationCfg c))
       (rot_OverlapHours (rotationCfg c))).

Definition generateEd25519CAKey : Proc (Res CAKeyPair) :=
  entropy ←["generating ed25519 key: %w"] trigger ORandom;
  let '(pub, priv) := ed25519_GenerateKey entropy in
  match MarshalPKCS8PrivateKey (PrivEd25519 priv), MarshalPKIXPublicKey (PubEd25519 pub) with
  | Err e, _ => mret (Err (Errorf "marshaling private key: %w" [] e))
  | Ok _, Err e => mret (Err (Errorf "marshaling public key: %w" [] e))
  | Ok privBytes, Ok pubBytes =>
      now ← nowUTC_s;
      mret (Ok (mkCAKeyPair (pem_Encode "PRIVATE KEY" privBytes) (pem_Encode "PUBLIC KEY" pubBytes)
                  "ed25519" (Format now)))
  end.

(** Returns the current CA key, creating one if there is none. *)
Definition GetCurrentCAKey (tenantID clientID : string) : Proc (Res CAKeyPair) :=
  kp ←? readCAKey tenantID clientID "current";
  match kp with
  | Some kp => mret (Ok kp)
  | None =>
      kp ←? generateEd25519CAKey;
      _ ←? writeCAKey tenantID clientID "current" kp;
      _ ←? initMetadata tenantID clientID;
      mret (Ok kp)
  end.

Definition GetNextCAKey (tenantID clientID : string) : Proc (Res (option CAKeyPair)) :=
  readCAKey tenantID clientID "next".

Definition with_serial (n : Z) (meta : CAMetadata) : CAMetadata :=
  mkCAMetadata n (LastRotationAt meta) (NextRotationAt meta) (RotationPeriodH meta) (OverlapHours meta).

Definition IncrementSerialCounter (tenantID clientID : string) : Proc (Res Z) :=
  r ←? readMetadataWithVersion tenantID clientID;
  let '(meta, version) := r in
  match meta with
  | None => _ ←? initMetadata tenantID clientID; mret (Ok 1%Z)
  | Some meta =>
      let newSerial := wrap64 (SerialCounter meta + 1) in
      _ ←? writeMetadataCAS tenantID clientID (with_serial newSerial meta) version;
      mret (Ok newSerial)
  end.

(** Promotes next to current and generates a new next key; nothing when the key read
    back is nil, which panics. *)
Definition RotateCA (tenantID clientID : string) : Proc (option (Res (string * string))) :=
  let fail e := mret (Some (Err e)) in
  r ← readCAKey tenantID clientID "next";
  match r with
  | Err e => fail e
  | Ok nextKey =>
      r ← (match nextKey with
           | Some kp => writeCAKey tenantID clientID "current" kp
           | None => newCurrent ←? generateEd25519CAKey; writeCAKey tenantID clientID "current" newCurrent
           end);
      match r with
      | Err e => fail e
      | Ok _ =>
          r ← (newNext ←? generateEd25519CAKey;
               _ ←? writeCAKey tenantID clientID "next" newNext; mret (Ok newNext));
          match r with
          | Err e => fail e
          | Ok newNext =>
              now ← nowUTC_s;
              r ← (m ←? readMetadata tenantID clientID;
                   let serial := match m with Some meta => SerialCounter meta | None => 0%Z end in
                   writeMetadata tenantID clientID
                     (mkCAMetadata serial (Format now) (Format (next_rotation now))
                        (rot_PeriodHours (rotationCfg c)) (rot_OverlapHours (rotationCfg c))));
              match r with
              | Err e => fail e
              | Ok _ =>
                  r ← readCAKey tenantID clientID "current";
                  mret (match r with
                        | Err e => Some (Err e)
                        | Ok None => None
                        | Ok (Some currentKey) => Some (Ok (kp_PublicKey currentKey, kp_PublicKey newNext))
                        end)
              end
          end
      end
  end.

Definition GetValidationCredentials (tenantID clientID : string) : Proc (Res (option ValidationCredentials)) :=
  let path := kvPath [tenantID; clientID; "validation"] in
  secret ←[Sprintf "reading validation credentials at %s: %w" [path] "%w"] trigger (OKvRead path);
  mret (match secret with
        | None => Ok None
        | Some (data, _) =>
            let '(creds, ok) := dec_run dec_ValidationCredentials (secret_members data) in
            if ok : bool then Ok (if decide (vc_Type creds = "") then None else Some creds)
            else Err (NewError "unmarshaling validation credentials: %w" ["json: cannot unmarshal"])
        end).

Definition Healthy : Proc (Res unit) :=
  _ ←["vault health check: %w"] trigger OPing; mret (Ok tt).
End client.
