(* ===== verification/SignerAuth.v ===== *)
(** * Authentication of the certificate signer

    internal/auth: clients by the bcrypt hash of their secret, users by OIDC tokens
    that are checked with the key set of their issuer, kept in a cache. *)

From stdpp Require Import base gmap sets list strings.
From Stdlib Require Import ZArith Ascii Lia.
From S2P Require Import Prelude GoError Models Wire SignerText Rfc3339 SignerStore SignerEffects SignerVault.

(** An [*AuthError], or another error. *)
Inductive auth_failure :=
  | AuthError (code message : string) (status : Z)
  | OtherError (e : error).

(** ** internal/auth/client_auth.go *)

(** The header is {tenant_id}:{client_id}, split on the first colon. *)
Definition ParseClientID (header : string) : Res (string * string) :=
  if decide (header = "") then Err (NewError "empty client ID header" [])
  else match cut ":" header with
       | None => Err (NewError "invalid client ID format: no colon separator" [])
       | Some (tenantID, clientID) =>
           if decide (tenantID = "" ∨ clientID = "")
           then Err (NewError "invalid client ID format: empty tenant or client" [])
           else Ok (tenantID, clientID)
       end.

Section auth.
Context `{CR : Crypto} `{JL : JwtLib}.

(** [DB.GetClientConfig] (internal/store/client_config.go). *)
Definition GetClientConfig (tenantID clientID : string) : Proc (Res (option ClientConfig)) :=
  row ←["querying client config: %w"] trigger (OQuery [tenantID; clientID] (select_client tenantID clientID));
  mret (match row with
        | None => Ok None
        | Some r => match scan_client r with Ok cc => Ok (Some cc) | Err e => Err e end
        end).

(** [ClientAuthenticator.Authenticate]. *)
Definition Authenticate (clientIDHeader secretHeader : string) : Proc (auth_failure + ClientConfig) :=
  if decide (clientIDHeader = "") then mret (inl (AuthError "unauthorized" "Missing X-Client-Id header" 401))
  else if decide (secretHeader = "") then mret (inl (AuthError "unauthorized" "Missing X-Client-Secret header" 401))
  else
    match ParseClientID clientIDHeader with
    | Err e => mret (inl (AuthError "unauthorized" (Error e) 401))
    | Ok (tenantID, clientID) =>
        r ← GetClientConfig tenantID clientID;
        mret (match r with
              | Err e => inl (OtherError (Errorf "looking up client config: %w" [] e))
              | Ok None => inl (AuthError "unauthorized" "Unknown client" 401)
              | Ok (Some cfg) =>
                  if negb (bcrypt_CompareHashAndPassword (ClientSecret cfg) secretHeader)
                  then inl (AuthError "unauthorized" "Invalid client secret" 401)
                  else if negb (Enabled cfg)
                  then inl (AuthError "client_disabled" "Client is disabled" 403)
                  else inr cfg
              end)
    end.
End auth.

(** ** internal/auth/oidc_validator.go *)

Record UserIdentity := mkUserIdentity {
  id_Issuer : string;
  id_Subject : string;
  id_Email : string;
  id_Principal : string }.

(** The fields of [OIDCValidator] that do not change. *)
Record OIDCValidator := mkOIDCValidator {
  ov_enabled : bool;
  ov_defaultEmail : string;
  ov_defaultSubject : string;
  ov_allowedIssuers : list string;
  ov_cacheTTL : Z;
  ov_maxProviders : Z }.

Record DevModeConfig := mkDevModeConfig {
  dev_Enabled : bool;
  dev_DefaultEmail : string;
  dev_DefaultSubject : string }.

Record AuthConfig := mkAuthConfig {
  auth_AllowedIssuers : list string;
  auth_JWKSCacheTTLSeconds : Z;
  auth_JWKSMaxProviders : Z }.

Definition or_default (s def : string) : string := if decide (s = "") then def else s.

Definition NewOIDCValidator (cfg : AuthConfig) (devMode : DevModeConfig) : OIDCValidator :=
  let cacheTTL := wrap64 (auth_JWKSCacheTTLSeconds cfg * second) in
  mkOIDCValidator (negb (dev_Enabled devMode))
    (or_default (dev_DefaultEmail devMode) "dev@localhost")
    (or_default (dev_DefaultSubject devMode) "dev-user")
    (auth_AllowedIssuers cfg)
    (if decide (cacheTTL = 0%Z) then 300 * second else cacheTTL)%Z
    (if decide (auth_JWKSMaxProviders cfg = 0%Z) then 10%Z else auth_JWKSMaxProviders cfg).

Definition containsAny (s : string) (substrs : list string) : bool := existsb (λ sub, str_contains sub s) substrs.

(** [token.Get(name)] as a string, empty when it is not one. *)
Definition claim (name : string) (token : Token) : string :=
  match claims token !! name with Some (JStr s) => s | _ => "" end.

(** Priority: sub, preferred_username, email, username. *)
Definition extractPrincipal (token : Token) : string :=
  or_default (Subject token)
    (or_default (claim "preferred_username" token)
       (or_default (claim "email" token) (claim "username" token))).

(** The oldest entry of a range over the cache: the key kept, and its time. *)
Definition older {S} (cache : gmap string (jwksEntry S)) (acc : string * Time) (k : string) : string * Time :=
  match cache !! k with
  | Some e => if decide (acc.1 = "" ∨ (je_fetchedAt e < acc.2)%Z) then (k, je_fetchedAt e) else acc
  | None => acc
  end.

Section oidc.
Context `{JL : JwtLib} `{EV : !SignerEnv}.
Context (v : OIDCValidator).

(** The insertion of a fetched set: at capacity the oldest entry goes first. *)
Definition jwks_evict (cache : gmap string (jwksEntry KeySet)) : gmap string (jwksEntry KeySet) :=
  if (ov_maxProviders v <=? Z.of_nat (size cache))%Z
  then delete (foldl (older cache) ("", zero_time) (range_cache (dom cache))).1 cache
  else cache.
Definition jwks_insert (issuer : string) (keySet : KeySet) (now : Time)
    (cache : gmap string (jwksEntry KeySet)) : gmap string (jwksEntry KeySet) :=
  <[issuer := mkJwksEntry _ keySet now]> (jwks_evict cache).

(** [entry, ok := v.cache[issuer]; ok && time.Since(entry.fetchedAt) < v.cacheTTL]. *)
Definition jwks_cached (issuer : string) : Proc (option KeySet) :=
  entry ← trigger (OMem (λ m, (m_jwks m !! issuer, m)));
  match entry with
  | None => mret None
  | Some e =>
      now ← trigger ONow;
      mret (if (now - je_fetchedAt e <? ov_cacheTTL v)%Z then Some (je_set e) else None)
  end.

(** The discovery document, when it is found and names a key set. *)
Definition discovered_uri (resp : option (Z * option JBody)) : option string :=
  match resp with
  | Some (status, Some (BObj ms)) =>
      let '(uri, ok) := dec_run (field "jwks_uri" : Dec string) ms in
      if decide (status = 200%Z ∧ ok = true ∧ uri ≠ "") then Some uri else None
  | _ => None
  end.

Definition fetchJWKSFromIssuer (issuer : string) : Proc (Res KeySet) :=
  resp ← trigger (OHttpGet (issuer +:+ "/.well-known/openid-configuration"));
  discovered ← (match discovered_uri resp with
                | Some uri => r ← trigger (OJwkFetch uri); mret (Some r)
                | None => mret None
                end);
  match discovered with
  | Some (Ok keySet) => mret (Ok keySet)
  | _ =>
      r ← trigger (OJwkFetch (issuer +:+ "/.well-known/jwks.json"));
      match r with
      | Ok keySet => mret (Ok keySet)
      | Err _ =>
          r ← trigger (OJwkFetch (issuer +:+ "/certs"));
          mret (match r with
                | Ok keySet => Ok keySet
                | Err e => Err (Errorf (Sprintf "fetching JWKS from %s: %w" [issuer] "%w") [] e)
                end)
      end
  end.

(** [getJWKS]. The call that singleflight shares between overlapping requests is made
    by each of them here; one that waits would find the entry just inserted. *)
Definition getJWKS (issuer : string) : Proc (Res KeySet) :=
  hit ← jwks_cached issuer;
  match hit with
  | Some keySet => mret (Ok keySet)
  | None =>
      hit2 ← jwks_cached issuer;
      match hit2 with
      | Some keySet => mret (Ok keySet)
      | None =>
          keySet ←? fetchJWKSFromIssuer issuer;
          now ← trigger ONow;
          _ ← trigger (OMem (λ m, (tt, set_jwks (jwks_insert issuer keySet now (m_jwks m)) m)));
          mret (Ok keySet)
      end
  end.

Definition invalid_token (message : string) : auth_failure := AuthError "invalid_token" message 401.

Definition ValidateAccessToken (tokenString : string) : Proc (auth_failure + UserIdentity) :=
  if negb (ov_enabled v) then
    mret (inr (mkUserIdentity "dev-mode" (ov_defaultSubject v) (ov_defaultEmail v) (ov_defaultSubject v)))
  else if decide (tokenString = "") then mret (inl (invalid_token "Missing access token"))
  else
    match jwt_ParseInsecure tokenString with
    | Err e => mret (inl (invalid_token (Sprintf "Failed to parse token: %v" [Error e] "")))
    | Ok insecureToken =>
        let issuer := Issuer insecureToken in
        if decide (issuer = "") then mret (inl (invalid_token "Token missing issuer claim"))
        else if decide (ov_allowedIssuers v ≠ [] ∧ issuer ∉ ov_allowedIssuers v)
        then mret (inl (invalid_token "Issuer not allowed"))
        else
          r ← getJWKS issuer;
          match r with
          | Err e => mret (inl (invalid_token (Sprintf "Failed to fetch JWKS: %v" [Error e] "")))
          | Ok keySet =>
              now ← trigger ONow;
              mret (match jwt_Parse keySet now tokenString with
                    | Err e =>
                        let errMsg := Error e in
                        inl (invalid_token
                          (if containsAny errMsg ["exp"; "expired"] then "Token has expired"
                           else if containsAny errMsg ["nbf"; "not yet valid"] then "Token is not yet valid"
                           else Sprintf "Token validation failed: %v" [errMsg] ""))
                    | Ok token =>
                        let principal := extractPrincipal token in
                        if decide (principal = "")
                        then inl (invalid_token "No valid principal found in token claims")
                        else inr (mkUserIdentity issuer (Subject token) (claim "email" token) principal)
                    end)
          end
    end.
End oidc.

(** * Validation of principals

    internal/validation: the source of truth a client uses (none, LDAP, or COmanage,
    which is not implemented), the cache of its credentials, and the LDAP lookup
    with its persistent connection. *)

Record ValidationResult := mkValidationResult {
  Allowed : bool;
  ValidatedPrincipal : string;
  ReasonCode : string }.

(** [*ValidationError]. *)
Record ValidationError := mkValidationError { ve_Message : string; ve_ReasonCode : string }.

(** ** internal/validation/noop.go and comanage.go *)

Definition NoOpValidator_Validate (tenantID clientID principal identitySubject : string) :
    ValidationError + ValidationResult := inr (mkValidationResult true principal "").

Definition COmanageValidator_Validate (tenantID clientID principal identitySubject : string) :
    ValidationError + ValidationResult :=
  inl (mkValidationError "Requested principal is not allowed" "COMANAGE_NOT_IMPLEMENTED").

(** ** internal/validation/ldap.go *)

Definition NewLDAPValidator (config : LDAPConfig) : LDAPValidator :=
  let usernameAttr :=
    if decide (LDAP_UsernameAttribute config = "") then "uid" else LDAP_UsernameAttribute config in
  mkLDAPValidator
    (mkLDAPConfig (LDAP_URL config) (LDAP_BindDN config) (LDAP_BindPassword config) (LDAP_BaseDN config)
       (LDAP_SearchFilter config) usernameAttr (LDAP_VerifySSL config)) None.

(** What a search found. *)
Definition search_outcome : Type := error + list (gmap string string).

Section ldap.
Context `{JL : JwtLib} `{EV : !SignerEnv}.

(** The connection of a validator, the number of directory calls so far. *)
Definition ensureConn (config : LDAPConfig) (conn : option nat) (n : nat) : (error + nat) * option nat * nat :=
  match conn with
  | Some i => (inr i, conn, n)
  | None =>
      if negb (ldap_Connect n (LDAP_URL config) (LDAP_VerifySSL config))
      then (inl (NewError "LDAP connection failed" []), None, S n)
      else if negb (ldap_Bind (S n) (LDAP_BindDN config) (LDAP_BindPassword config))
      then (inl (NewError "LDAP bind failed" []), None, S (S n))
      else (inr n, Some n, S (S n))
  end.

(** [fmt.Sprintf(SearchFilter, escaped)], for a filter whose only verb is [%s] and for
    one without a verb, which gets the argument appended. *)
Definition ldap_filter (SearchFilter escaped : string) : string :=
  if str_contains "%" SearchFilter then Sprintf SearchFilter [escaped] ""
  else SearchFilter +:+ "%!(EXTRA string=" +:+ escaped +:+ ")".

(** One lookup of the subject. *)
Definition searchLDAP (config : LDAPConfig) (identitySubject : string) (conn : option nat) (n : nat) :
    search_outcome * option nat * nat :=
  match ensureConn config conn n with
  | (inl e, conn', n') => (inl e, conn', n')
  | (inr _, conn', n') =>
      let filter := ldap_filter (LDAP_SearchFilter config) (ldap_EscapeFilter identitySubject) in
      (match ldap_Search n' (LDAP_BaseDN config) filter (LDAP_UsernameAttribute config) with
       | Some entries => inr entries
       | None => inl (NewError "LDAP search failed" [])
       end, conn', S n')
  end.

(** What [Validate] makes of a result. *)
Definition judge_entries (config : LDAPConfig) (principal : string) (entries : list (gmap string string)) :
    ValidationError + ValidationResult :=
  match entries with
  | [] => inl (mkValidationError "No POSIX account found for identity subject in directory" "LDAP_IDENTITY_NOT_FOUND")
  | entry :: _ =>
      let resolvedUsername := default "" (entry !! LDAP_UsernameAttribute config) in
      if decide (resolvedUsername = "") then
        inl (mkValidationError
               (Sprintf "Directory entry missing %s attribute" [LDAP_UsernameAttribute config] "")
               "LDAP_USERNAME_MISSING")
      else if decide (resolvedUsername ≠ principal) then
        inl (mkValidationError
               (Sprintf "Requested principal %q does not match directory account %q" [principal; resolvedUsername] "")
               "LDAP_PRINCIPAL_MISMATCH")
      else inr (mkValidationResult true resolvedUsername "")
  end.

(** [LDAPValidator.Validate]: the lookup, and once more on a new connection if it fails.
    The mutex of the validator is held, so it is one step. *)
Definition LDAPValidator_Validate (principal identitySubject : string) (lv : LDAPValidator) (n : nat) :
    (ValidationError + ValidationResult) * LDAPValidator * nat :=
  let config := lv_config lv in
  match searchLDAP config identitySubject (lv_conn lv) n with
  | (inr entries, conn, n1) => (judge_entries config principal entries, mkLDAPValidator config conn, n1)
  | (inl _, _, n1) =>
      match searchLDAP config identitySubject None n1 with
      | (inr entries, conn, n2) => (judge_entries config principal entries, mkLDAPValidator config conn, n2)
      | (inl e, _, n2) =>
          (inl (mkValidationError ("Principal validation unavailable: " +:+ Error e) "LDAP_UNAVAILABLE"),
           mkLDAPValidator config None, n2)
      end
  end.
End ldap.

(** ** internal/validation/dispatcher.go *)

Record ValidatorDispatcher := mkValidatorDispatcher {
  vd_fallbackSource : string;
  vd_cacheTTL : Z;
  vd_negativeTTL : Z }.

Definition NewValidatorDispatcher (fallbackSource : string) (cacheTTL : Z) : ValidatorDispatcher :=
  mkValidatorDispatcher fallbackSource (if (cacheTTL <=? 0)%Z then 300 * second else cacheTTL)%Z (30 * second)%Z.

Definition client_key (tenantID clientID : string) : string := tenantID +:+ ":" +:+ clientID.

Definition ldap_config (creds : ValidationCredentials) : LDAPConfig :=
  mkLDAPConfig (vc_LDAPUrl creds) (vc_BindDN creds) (vc_BindPassword creds) (vc_BaseDN creds)
    (vc_SearchFilter creds) (vc_UsernameAttribute creds) (default true (vc_VerifySSL creds)).

Section dispatcher.
Context `{CR : Crypto} `{JL : JwtLib} `{EV : !SignerEnv}.
Context (vault : Client) (d : ValidatorDispatcher).

Definition fetchCredentials (tenantID clientID : string) : Proc (Res (option ValidationCredentials)) :=
  let key := client_key tenantID clientID in
  entry ← trigger (OMem (λ m, (m_creds m !! key, m)));
  cached ← (match entry with
            | None => mret None
            | Some e =>
                now ← trigger ONow;
                let ttl := match cc_err e with Some _ => vd_negativeTTL d | None => vd_cacheTTL d end in
                mret (if (now - cc_fetchedAt e <? ttl)%Z
                      then Some (match cc_err e with Some err => Err err | None => Ok (cc_creds e) end) else None)
            end);
  match cached with
  | Some r => mret r
  | None =>
      r ← GetValidationCredentials vault tenantID clientID;
      now ← trigger ONow;
      let entry := match r with
                   | Ok creds => mkCachedCreds creds None now
                   | Err e => mkCachedCreds None (Some e) now
                   end in
      _ ← trigger (OMem (λ m, (tt, set_creds (<[key := entry]> (m_creds m)) m)));
      mret r
  end.

(** The validator made for a client stays for the life of the process. *)
Definition getOrCreateValidator (tenantID clientID : string) (creds : ValidationCredentials) : Proc string :=
  let key := client_key tenantID clientID in
  known ← trigger (OMem (λ m, (bool_decide (is_Some (m_validators m !! key)), m)));
  if known : bool then mret key
  else
    let validator := NewLDAPValidator (ldap_config creds) in
    _ ← trigger (OMem (λ m, (tt, match m_validators m !! key with
                                 | Some _ => m
                                 | None => set_validators (<[key := validator]> (m_validators m)) m
                                 end)));
    mret key.

(** [validator.Validate] on the validator under a key. *)
Definition validator_Validate (key principal identitySubject : string) : Proc (ValidationError + ValidationResult) :=
  trigger (OMem (λ m,
    match m_validators m !! key with
    | Some lv =>
        let '(r, lv', n) := LDAPValidator_Validate principal identitySubject lv (m_ldap m) in
        (r, mkMemory (m_jwks m) (m_creds m) (<[key := lv']> (m_validators m)) n)
    | None => (inl (mkValidationError "" ""), m)
    end)).

Definition validateLDAP (tenantID clientID principal identitySubject : string) :
    Proc (ValidationError + ValidationResult) :=
  r ← fetchCredentials tenantID clientID;
  match r with
  | Err _ => mret (inl (mkValidationError "Principal validation unavailable: credential fetch failed" "LDAP_UNAVAILABLE"))
  | Ok None => mret (inl (mkValidationError "LDAP validation not configured for this client" "VALIDATION_NOT_CONFIGURED"))
  | Ok (Some creds) =>
      key ← getOrCreateValidator tenantID clientID creds;
      validator_Validate key principal identitySubject
  end.

Definition ValidateForClient (tenantID clientID principal identitySubject principalSource : string) :
    Proc (ValidationError + ValidationResult) :=
  let source := if decide (principalSource = "") then vd_fallbackSource d else principalSource in
  if decide (source = "noop" ∨ source = "") then mret (inr (mkValidationResult true principal ""))
  else if decide (source = "ldap") then validateLDAP tenantID clientID principal identitySubject
  else if decide (source = "comanage") then
    mret (inl (mkValidationError "COmanage principal validation is not yet implemented" "COMANAGE_NOT_IMPLEMENTED"))
  else mret (inl (mkValidationError ("Unknown principal source: " +:+ source) "UNKNOWN_PRINCIPAL_SOURCE")).
End dispatcher.
