(* ===== verification/SignerHandlers.v ===== *)
(** * Handlers of the certificate signer

    internal/cert/signer.go, internal/audit/logger.go, internal/handler and
    internal/httputil. A request carries what the middleware put on its context;
    a handler is a process that ends with the response it wrote. Log lines and
    metrics are left out. *)

From stdpp Require Import base gmap sets list strings.
From Stdlib Require Import ZArith Ascii Lia.
From S2P Require Import Prelude GoError Models Wire SignerText Rfc3339 SignerStore SignerEffects.
From S2P Require Import SignerPolicy SignerVault SignerAuth.

(** Arithmetic of uint64. *)
Definition wrapu64 (z : Z) : Z := (z mod 2 ^ 64)%Z.

(** ** Requests and responses *)

Record SRequest := mkSRequest {
  q_method : string;
  q_path : string;                              (* r.URL.Path *)
  q_headers : list (string * string);           (* canonical names *)
  q_remote : string;                            (* r.RemoteAddr *)
  q_length : Z;                                 (* r.ContentLength, -1 when unknown *)
  q_body : option (JBody * Z);                  (* the first JSON value, and where it ends *)
  q_query : list (string * string);
  q_client : option ClientConfig;               (* values of the context *)
  q_identity : option UserIdentity;
  q_sourceIP : string }.

(** [r.Header.Get(name)]. *)
Definition header (name : string) (r : SRequest) : string :=
  default "" (snd <$> head (filter (λ kv, kv.1 = name) (q_headers r))).

(** internal/httputil/context.go. *)
Definition WithClientConfig (cfg : ClientConfig) (r : SRequest) : SRequest :=
  mkSRequest (q_method r) (q_path r) (q_headers r) (q_remote r) (q_length r) (q_body r) (q_query r)
    (Some cfg) (q_identity r) (q_sourceIP r).
Definition WithUserIdentity (id : UserIdentity) (r : SRequest) : SRequest :=
  mkSRequest (q_method r) (q_path r) (q_headers r) (q_remote r) (q_length r) (q_body r) (q_query r)
    (q_client r) (Some id) (q_sourceIP r).
Definition WithSourceIP (ip : string) (r : SRequest) : SRequest :=
  mkSRequest (q_method r) (q_path r) (q_headers r) (q_remote r) (q_length r) (q_body r) (q_query r)
    (q_client r) (q_identity r) ip.
Definition with_body (b : option (JBody * Z)) (r : SRequest) : SRequest :=
  mkSRequest (q_method r) (q_path r) (q_headers r) (q_remote r) (q_length r) b (q_query r)
    (q_client r) (q_identity r) (q_sourceIP r).
Definition ClientConfigFromContext (r : SRequest) : option ClientConfig := q_client r.
Definition UserIdentityFromContext (r : SRequest) : option UserIdentity := q_identity r.
Definition SourceIPFromContext (r : SRequest) : string := q_sourceIP r.

Record SignResponse := mkSignResponse {
  sr_Certificate : string;
  sr_SerialNumber : Z;
  sr_ValidAfter : Z;
  sr_ValidBefore : Z;
  sr_CAFingerprint : string;
  sr_TargetHost : string;
  sr_TargetPort : Z;
  sr_TargetUsername : string;
  sr_ForceCommand : string;
  sr_GrantedExtensions : list string }.

Record RevokeResponse := mkRevokeResponse { rv_Success : bool; rv_Message : string; rv_RevokedCount : Z }.

Record CertificateResponse := mkCertificateResponse {
  ct_SerialNumber : Z;
  ct_KeyID : string;
  ct_Principal : string;
  ct_PublicKeyFingerprint : string;
  ct_CAFingerprint : string;
  ct_ValidAfter : Z;
  ct_ValidBefore : Z;
  ct_IssuedAt : Z;
  ct_SourceIP : string;
  ct_GrantedExtensions : list string;
  ct_ForceCommand : option string;
  ct_Revoked : bool;
  ct_RevokedAt : option Z;
  ct_RevocationReason : string }.

Record CertificateListResponse := mkCertificateListResponse {
  cl_Certificates : list CertificateResponse;
  cl_Total : nat;
  cl_Limit : Z;
  cl_Offset : Z }.

Record RotateCAResponse := mkRotateCAResponse {
  ro_Success : bool;
  ro_CurrentCAFingerprint : string;
  ro_NextCAFingerprint : string;
  ro_RotationTimestamp : Z }.

Record JWKSResponse := mkJWKSResponse {
  jw_CurrentKey : gmap string string;
  jw_NextKey : option (gmap string string);       (* the empty string when there is none *)
  jw_CurrentFingerprint : string;
  jw_NextFingerprint : string;
  jw_RotationScheduledAt : Z }.

Record CAPublicKeyJSONResponse := mkCAPublicKeyJSONResponse {
  ck_PublicKey : string;
  ck_Fingerprint : string;
  ck_Algorithm : string }.

Record HealthCheckResult := mkHealthCheckResult { hc_Status : string; hc_LatencyMs : Z; hc_Error : string }.

(** The body of an answer: the JSON value of a handler, and two kinds of plain text, the key
    that [CAPublicKeyHandler] writes as one line and every other text. *)
Inductive SBody :=
  | BNothing
  | BError (code message : string) (extra : list (string * string))
  | BSign (x : SignResponse)
  | BRevoke (x : RevokeResponse)
  | BCertificates (x : CertificateListResponse)
  | BCertificate (x : CertificateResponse)
  | BRotate (x : RotateCAResponse)
  | BUserInfo (x : UserIdentity)
  | BJWKS (x : JWKSResponse)
  | BCAPublicKey (x : CAPublicKeyJSONResponse)
  | BAuthorizedKey (line : string)
  | BText (s : string)
  | BHealth (status : string) (database vault : HealthCheckResult).

(** Status 0 stands for a handler that panicked: the connection is closed. *)
Record SResponse := mkSResponse {
  p_status : Z;
  p_headers : gmap string string;
  p_body : SBody }.

Definition json_header : gmap string string := {["Content-Type" := "application/json"]}.
Definition aborted : SResponse := mkSResponse 0 ∅ BNothing.
Definition ok_json (b : SBody) : SResponse := mkSResponse 200 json_header b.

Definition WriteJSONErrorWithExtra (status : Z) (code message : string) (extra : list (string * string)) : SResponse :=
  mkSResponse status json_header (BError code message extra).
Definition WriteJSONError (status : Z) (code message : string) : SResponse :=
  mkSResponse status json_header (BError code message []).
Definition writeError (status : Z) (code message : string) : SResponse := WriteJSONError status code message.

(** ** Bodies *)

(** Element [i] of an array over element [i] of the slice it is decoded into. *)
Fixpoint set_elements (vs : list JVal) (old : list string) : list string * bool :=
  match vs with
  | [] => ([], true)
  | v :: vs' =>
      let '(s, ok) := jset v (default "" (head old)) in
      let '(rest, ok') := set_elements vs' (tail old) in (s :: rest, ok && ok')
  end.
#[export] Instance strings_field : JField (list string) := {|
  jzero := [];
  jset v old := match v with JArr vs => set_elements vs old | JNull => ([], true) | _ => (old, false) end |}.
#[export] Instance int64_ptr_field : JField (option Z) := {|
  jzero := None;
  jset v old := match v with
                | JNum lit => match ParseInt lit with Some z => (Some z, true) | None => (old, false) end
                | JNull => (None, true)
                | _ => (old, false)
                end |}.
#[export] Instance string_ptr_field : JField (option string) := {|
  jzero := None;
  jset v old := match v with JStr s => (Some s, true) | JNull => (None, true) | _ => (old, false) end |}.

(** [json.NewDecoder(r.Body).Decode(&req)]; keys that no field has are ignored. *)
Definition decode_body {A} (d : Dec A) (r : SRequest) : option A :=
  match q_body r with
  | Some (BObj ms, _) => let '(a, ok) := dec_run d ms in if ok : bool then Some a else None
  | Some (BVal JNull, _) => Some (dec_run d []).1
  | _ => None
  end.

(** [SignRequest] of handler/sign.go. *)
Record SignBody := mkSignBody {
  sb_Principal : string;
  sb_TTLSeconds : Z;
  sb_PublicKey : string;
  sb_UserAccessToken : string;
  sb_ForceCommand : string;
  sb_ExcludeExtensions : list string }.
Definition dec_SignRequest : Dec SignBody :=
  (struct mkSignBody ⊛ field "principal" ⊛ field "ttl_seconds" ⊛ field "public_key" ⊛ field "user_access_token"
   ⊛ field "force_command" ⊛ field "exclude_extensions")%wire.

Record RevokeRequest := mkRevokeRequest {
  rq_SerialNumber : option Z;
  rq_KeyID : option string;
  rq_CAFingerprint : option string;
  rq_Reason : string }.
Definition dec_RevokeRequest : Dec RevokeRequest :=
  (struct mkRevokeRequest ⊛ field "serial_number" ⊛ field "key_id" ⊛ field "ca_fingerprint" ⊛ field "reason")%wire.

(** ** internal/cert/signer.go *)

Record CertRequest := mkCertRequest {
  PublicKey_ : string;
  CAPrivateKeyPEM : string;
  Serial_ : Z;
  Principal_ : string;
  ClientID_ : string;
  TTLSeconds_ : Z;
  Extensions_ : gmap string string;
  CriticalOptions_ : gmap string string }.

Record SignResult := mkSignResult {
  CertBytes : string;
  res_Serial : Z;
  res_ValidAfter : Z;
  res_ValidBefore : Z;
  res_CAFingerprint : string;
  res_KeyID : string }.

Section handlers.
Context `{CR : Crypto} `{JL : JwtLib} `{EV : !SignerEnv}.

(** The certificate [SignCertificate] builds at time [now]. *)
Definition certificate_of (req : CertRequest) (nonce : string) (now : Time) : Certificate :=
  let validAfter := wrapu64 (Unix now) in
  mkCertificate nonce (PublicKey_ req) (Serial_ req)
    (Sprintf "%s@%s-%d" [Principal_ req; ClientID_ req; FormatInt (Unix now)] "")
    [Principal_ req] validAfter (wrapu64 (validAfter + TTLSeconds_ req))
    (CriticalOptions_ req) (Extensions_ req).

Definition SignCertificate (req : CertRequest) : Proc (Res SignResult) :=
  match ParseCAPrivateKey (CAPrivateKeyPEM req) with
  | Err e => mret (Err (Errorf "parsing CA key: %w" [] e))
  | Ok sshSigner =>
      nonce ←["generating nonce: %w"] trigger ORandom;
      now ← trigger ONow;
      let cert := certificate_of req nonce now in
      entropy ←["signing certificate: %w"] trigger ORandom;
      mret (match ssh_SignCert entropy sshSigner cert with
            | Err e => Err (Errorf "signing certificate: %w" [] e)
            | Ok bytes =>
                Ok (mkSignResult bytes (Serial_ req) (Cert_ValidAfter cert) (Cert_ValidBefore cert)
                      (ssh_FingerprintSHA256 (ssh_PublicKeyOf sshSigner)) (Cert_KeyId cert))
            end)
  end.

(** ** internal/store and internal/audit *)

Definition InsertIssuanceLog (l : IssuanceLog) : Proc (Res unit) :=
  _ ←["inserting issuance log: %w"] trigger (OExec (insert_issuance l)); mret (Ok tt).

(** An [IssuanceEntry] has the fields of an [IssuanceLog] and a correlation id that is
    only logged. *)
Definition LogIssuance (entry : IssuanceLog) : Proc (Res unit) :=
  _ ←? InsertIssuanceLog entry; mret (Ok tt).

Definition InsertRevocationEvent (e : RevocationEvent) : Proc (Res unit) :=
  _ ←["inserting revocation event: %w"] trigger (OExec (insert_revocation e)); mret (Ok tt).
Definition LogRevocation (entry : RevocationEvent) : Proc (Res unit) :=
  _ ←? InsertRevocationEvent entry; mret (Ok tt).

Definition ListCertificatesByEmail (email : string) (limit offset : Z) : Proc (Res CertificateListResult) :=
  let limit := clamp_limit limit in
  let offset := clamp_offset offset in
  total ←["counting certificates: %w"] trigger (OQuery [email] (count_certificates email));
  rows ←["querying certificates: %w"] trigger (OQuery [email] (select_certificates email limit offset));
  mret (match scan_all rows with
        | Ok certs => Ok (mkCertificateListResult certs total)
        | Err e => Err e
        end).

Definition ErrNoRows : error := NewError "sql: no rows in result set" [].

Definition GetCertificateBySerial (serial : Z) : Proc (Res CertificateWithStatus) :=
  row ←["querying certificate: %w"] trigger (OQuery [] (select_certificate serial));
  mret (match row with
        | None => Err (Errorf "querying certificate: %w" [] ErrNoRows)
        | Some cr => scan_certificate cr
        end).

(** ** internal/handler/sign.go *)

(** SQLSTATE 23505 somewhere in the chain. *)
Fixpoint isDuplicateKeyError (e : error) : bool :=
  match e with
  | DbError (UniqueViolation _) => true
  | Errorf _ _ inner => isDuplicateKeyError inner
  | _ => false
  end.

Definition stringPtrIfNonEmpty (s : string) : option string := if decide (s = "") then None else Some s.

Record SignHandler := mkSignHandler {
  oidcValidator : OIDCValidator;
  policyEnforcer : Enforcer;
  principalValidator : ValidatorDispatcher;
  vaultClient : Client }.

(** A call whose error ends the handler with a response. *)
Definition or_reply {E A} (f : E → SResponse) (p : Proc (E + A)) (k : A → Proc SResponse) : Proc SResponse :=
  r ← p; match r with inl e => mret (f e) | inr a => k a end.
Definition or_reply_res {A} (resp : SResponse) (p : Proc (Res A)) (k : A → Proc SResponse) : Proc SResponse :=
  r ← p; match r with Err _ => mret resp | Ok a => k a end.

Definition reply_auth (other : SResponse) (e : auth_failure) : SResponse :=
  match e with AuthError code message status => writeError status code message | OtherError _ => other end.

(** [auditEntry] for a signed certificate. *)
Definition audit_entry (cfg : ClientConfig) (req : SignBody) (principal email pubKeyFP sourceIP : string)
    (exts : list string) (serial : Z) (res : SignResult) : IssuanceLog :=
  mkIssuanceLog (TenantID cfg) (ClientID cfg) serial (res_KeyID res) principal email pubKeyFP
    (res_CAFingerprint res) (wrap64 (res_ValidAfter res) * second)%Z (wrap64 (res_ValidBefore res) * second)%Z
    sourceIP exts (stringPtrIfNonEmpty (sb_ForceCommand req)) (HashToken (sb_UserAccessToken req)).

Definition sign_response (cfg : ClientConfig) (req : SignBody) (principal : string) (exts : list string)
    (serial : Z) (res : SignResult) : SResponse :=
  ok_json (BSign (mkSignResponse (StdEncoding (CertBytes res)) serial (wrap64 (res_ValidAfter res))
    (wrap64 (res_ValidBefore res)) (res_CAFingerprint res) (TargetHost cfg) (TargetPort cfg) principal
    (sb_ForceCommand req) exts)).

Definition internal_error (message : string) : SResponse := writeError 500 "internal_error" message.
Definition invalid_request (message : string) : SResponse := writeError 400 "invalid_request" message.

Section sign.
Context (h : SignHandler).

(** From the signed request to the response: the certificate is recorded before it is
    returned, and signed again with a fresh serial when the first is taken. *)
Definition issue (cfg : ClientConfig) (req : SignBody) (principal email pubKeyFP sourceIP : string)
    (exts : list string) (signReq : Z → CertRequest) : Proc SResponse :=
  let entry := audit_entry cfg req principal email pubKeyFP sourceIP exts in
  let next_serial k :=
    or_reply_res (internal_error "Failed to allocate serial number")
      (IncrementSerialCounter (vaultClient h) (TenantID cfg) (ClientID cfg)) k in
  let sign serial k :=
    or_reply_res (internal_error "Failed to sign certificate") (SignCertificate (signReq serial)) k in
  next_serial (λ serial,
  sign serial (λ signResult,
  r ← LogIssuance (entry serial signResult);
  match r with
  | Ok _ => mret (sign_response cfg req principal exts serial signResult)
  | Err e =>
      if negb (isDuplicateKeyError e) then mret (internal_error "Failed to record issuance")
      else
        next_serial (λ retrySerial,
        sign retrySerial (λ retryResult,
        or_reply_res (internal_error "Failed to record issuance") (LogIssuance (entry retrySerial retryResult)) (λ _,
        mret (sign_response cfg req principal exts retrySerial retryResult))))
  end)).

Definition SignHandler_Handle (r : SRequest) : Proc SResponse :=
  match ClientConfigFromContext r with
  | None => mret (internal_error "Missing client config")
  | Some cfg =>
      match decode_body dec_SignRequest r with
      | None => mret (invalid_request "Invalid request body")
      | Some req =>
          if decide (sb_Principal req = "") then mret (invalid_request "Missing required field: principal")
          else if negb (principalRegex (sb_Principal req)) then
            mret (invalid_request "Invalid principal format: must match ^[a-z_][a-z0-9_-]{0,31}$")
          else if decide (sb_PublicKey req = "") then mret (invalid_request "Missing required field: public_key")
          else if decide (sb_UserAccessToken req = "") then
            mret (invalid_request "Missing required field: user_access_token")
          else
            match ParseSSHPublicKey (sb_PublicKey req) with
            | Err _ => mret (invalid_request "Invalid SSH public key format")
            | Ok sshPubKey =>
                or_reply (reply_auth (internal_error "Token validation error"))
                  (ValidateAccessToken (oidcValidator h) (sb_UserAccessToken req)) (λ identity,
                let sourceIP := SourceIPFromContext r in
                match Enforce (policyEnforcer h) (sb_TTLSeconds req) (ssh_KeyType sshPubKey) sourceIP cfg with
                | Some message => mret (writeError 400 "policy_violation" message)
                | None =>
                    match ResolveExtensions (DeniedExtensions cfg) (sb_ExcludeExtensions req) with
                    | Err e => mret (invalid_request (Error e))
                    | Ok grantedExts =>
                        or_reply (λ e, WriteJSONErrorWithExtra 403 "principal_denied" (ve_Message e)
                                         [("reason_code", ve_ReasonCode e)])
                          (ValidateForClient (vaultClient h) (principalValidator h) (TenantID cfg) (ClientID cfg)
                             (sb_Principal req) (id_Subject identity) (PrincipalSource cfg)) (λ valResult,
                        let validatedPrincipal := ValidatedPrincipal valResult in
                        or_reply_res (writeError 503 "internal_error" "CA key storage unavailable")
                          (GetCurrentCAKey (vaultClient h) (TenantID cfg) (ClientID cfg)) (λ caKeyPair,
                        issue cfg req validatedPrincipal (id_Email identity) (SSHPublicKeyFingerprint sshPubKey)
                          sourceIP (ExtensionNames grantedExts) (λ serial,
                          mkCertRequest sshPubKey (kp_PrivateKey caKeyPair) (wrapu64 serial) validatedPrincipal
                            (ClientID cfg) (wrapu64 (sb_TTLSeconds req)) (ExtensionsToMap grantedExts)
                            (BuildCriticalOptions (SourceAddressRestriction cfg) (sb_ForceCommand req)))))
                    end
                end)
            end
      end
  end.
End sign.

(** ** internal/handler/revoke.go *)

Definition RevokeHandler_Handle (r : SRequest) : Proc SResponse :=
  match ClientConfigFromContext r with
  | None => mret (internal_error "Missing client config")
  | Some cfg =>
      match decode_body dec_RevokeRequest r with
      | None => mret (invalid_request "Invalid request body")
      | Some req =>
          if decide (rq_SerialNumber req = None ∧ rq_KeyID req = None ∧ rq_CAFingerprint req = None) then
            mret (invalid_request "At least one of serial_number, key_id, or ca_fingerprint is required")
          else if decide (rq_Reason req = "") then mret (invalid_request "Missing required field: reason")
          else
            or_reply_res (internal_error "Failed to record revocation")
              (LogRevocation (mkRevocationEvent (TenantID cfg) (ClientID cfg) (rq_SerialNumber req) (rq_KeyID req)
                 (rq_CAFingerprint req) (rq_Reason req) (client_key (TenantID cfg) (ClientID cfg)))) (λ _,
            mret (ok_json (BRevoke (mkRevokeResponse true "Certificate(s) revoked successfully" 1))))
      end
  end.

(** ** internal/handler/certificates.go *)

Definition toCertificateResponse (c : CertificateWithStatus) : CertificateResponse :=
  mkCertificateResponse (c_SerialNumber c) (c_KeyID c) (c_Principal c) (c_PublicKeyFingerprint c)
    (c_CAFingerprint c) (Unix (c_ValidAfter c)) (Unix (c_ValidBefore c)) (Unix (c_IssuedAt c)) (c_SourceIP c)
    (c_GrantedExtensions c) (c_ForceCommand c) (c_Revoked c) (Unix <$> c_RevokedAt c) (c_RevocationReason c).

Definition HandleList (r : SRequest) : Proc SResponse :=
  match UserIdentityFromContext r with
  | None => mret (writeError 401 "unauthorized" "Missing user identity")
  | Some identity =>
      let limit := ParseInt_value (query_get "limit" (q_query r)) in
      let offset := ParseInt_value (query_get "offset" (q_query r)) in
      let limit := if (limit <=? 0)%Z then 20%Z else limit in
      or_reply_res (internal_error "Failed to list certificates")
        (ListCertificatesByEmail (id_Email identity) limit offset) (λ result,
      mret (ok_json (BCertificates (mkCertificateListResponse (toCertificateResponse <$> lr_Certificates result)
              (lr_Total result) limit offset))))
  end.

(** The last segment of a path. *)
Definition last_segment (path : string) : string :=
  default "" (last (split_on "/" (trim_right_byte "/" path))).

Definition HandleGet (r : SRequest) : Proc SResponse :=
  match UserIdentityFromContext r with
  | None => mret (writeError 401 "unauthorized" "Missing user identity")
  | Some identity =>
      match ParseInt (last_segment (q_path r)) with
      | None => mret (invalid_request "Invalid serial number")
      | Some serial =>
          res ← GetCertificateBySerial serial;
          mret (match res with
                | Err e =>
                    if str_contains "no rows" (Error e) then writeError 404 "not_found" "Certificate not found"
                    else internal_error "Failed to get certificate"
                | Ok cert =>
                    if decide (c_UserEmail cert ≠ id_Email identity) then
                      writeError 403 "forbidden" "You can only view your own certificates"
                    else ok_json (BCertificate (toCertificateResponse cert))
                end)
      end
  end.

(** ** internal/handler/admin.go, userinfo.go, jwks.go, ca_public_key.go *)

(** A value whose error is dropped. *)
Definition or_empty (r : Res string) : string := match r with Ok s => s | Err _ => "" end.

Section keys.
Context (c : Client).

Definition AdminHandler_Handle (r : SRequest) : Proc SResponse :=
  match ClientConfigFromContext r with
  | None => mret (internal_error "Missing client config")
  | Some cfg =>
      rotated ← RotateCA c (TenantID cfg) (ClientID cfg);
      match rotated with
      | None => mret aborted
      | Some (Err _) => mret (internal_error "Failed to rotate CA keys")
      | Some (Ok _) =>
          or_reply_res (internal_error "Failed to read rotated keys")
            (GetCurrentCAKey c (TenantID cfg) (ClientID cfg)) (λ currentKey,
          next ← GetNextCAKey c (TenantID cfg) (ClientID cfg);
          now ← trigger ONow;
          mret (ok_json (BRotate (mkRotateCAResponse true (or_empty (CAFingerprint (kp_PublicKey currentKey)))
                  (match next with Ok (Some k) => or_empty (CAFingerprint (kp_PublicKey k)) | _ => "" end)
                  (Unix now)))))
      end
  end.

Definition UserInfoHandler_Handle (r : SRequest) : Proc SResponse :=
  mret (match UserIdentityFromContext r with
        | None => writeError 401 "unauthorized" "Missing user identity"
        | Some identity => ok_json (BUserInfo identity)
        end).

Definition JWKSHandler_Handle (r : SRequest) : Proc SResponse :=
  match ClientConfigFromContext r with
  | None => mret (internal_error "Missing client config")
  | Some cfg =>
      or_reply_res (internal_error "Failed to retrieve CA keys")
        (GetCurrentCAKey c (TenantID cfg) (ClientID cfg)) (λ currentKey,
      match PublicKeyToJWK (kp_PublicKey currentKey) with
      | None => mret aborted
      | Some (Err _) => mret (internal_error "Failed to convert CA key to JWK")
      | Some (Ok currentJWK) =>
          next ← GetNextCAKey c (TenantID cfg) (ClientID cfg);
          match (match next with
                 | Ok (Some k) =>
                     match PublicKeyToJWK (kp_PublicKey k) with
                     | None => None
                     | Some (Ok jwk) => Some (Some jwk, or_empty (CAFingerprint (kp_PublicKey k)))
                     | Some (Err _) => Some (None, "")
                     end
                 | _ => Some (None, "")
                 end) with
          | None => mret aborted
          | Some (nextJWK, nextFP) =>
              meta ← GetMetadata c (TenantID cfg) (ClientID cfg);
              mret (ok_json (BJWKS (mkJWKSResponse currentJWK nextJWK
                      (or_empty (CAFingerprint (kp_PublicKey currentKey))) nextFP
                      (match meta with
                       | Ok (Some m) => default 0%Z (Unix <$> Parse (NextRotationAt m))
                       | _ => 0%Z
                       end))))
          end
      end)
  end.

Definition CAPublicKeyHandler_Handle (r : SRequest) : Proc SResponse :=
  match ClientConfigFromContext r with
  | None => mret (internal_error "Missing client config")
  | Some cfg =>
      or_reply_res (internal_error "Failed to retrieve CA key")
        (GetCurrentCAKey c (TenantID cfg) (ClientID cfg)) (λ currentKey,
      mret (match PEMToOpenSSH (kp_PublicKey currentKey) with
            | Err _ => internal_error "Failed to convert CA key"
            | Ok opensshKey =>
                if str_contains "application/json" (header "Accept" r) then
                  ok_json (BCAPublicKey (mkCAPublicKeyJSONResponse opensshKey
                    (or_empty (CAFingerprint (kp_PublicKey currentKey)))
                    (NormalizeKeyType (default "" (head (split_on " " opensshKey))))))
                else mkSResponse 200 {["Content-Type" := "text/plain; charset=utf-8"]}
                       (BAuthorizedKey (opensshKey +:+ String (ascii_of_nat 10) ""))
            end))
  end.

(** ** internal/handler/health.go *)

Definition check (name : string) (ping : Proc (Res unit)) : Proc HealthCheckResult :=
  start ← trigger ONow;
  err ← ping;
  stop ← trigger ONow;
  let latency := ((stop - start) / 1000000)%Z in
  mret (match err with
        | Err _ => mkHealthCheckResult "down" latency (name +:+ " connection failed")
        | Ok _ => mkHealthCheckResult "up" latency ""
        end).
Definition checkDatabase : Proc HealthCheckResult := check "database" (trigger OPing).
Definition checkVault : Proc HealthCheckResult := check "vault" Healthy.

Definition HealthHandler_Handle (r : SRequest) : Proc SResponse :=
  dbResult ← checkDatabase;
  vaultResult ← checkVault;
  let healthy := bool_decide (hc_Status dbResult = "up" ∧ hc_Status vaultResult = "up") in
  mret (mkSResponse (if healthy then 200 else 503) json_header
          (BHealth (if healthy then "healthy" else "unhealthy") dbResult vaultResult)).
End keys.
End handlers.
