(* ===== verification/SignerServer.v ===== *)
(** * Server of the certificate signer

    internal/server: middleware.go, cors.go and routes.go, and the configuration they
    use. The choice of a route among those registered is made by chi. *)

From stdpp Require Import base gmap sets list strings.
From Stdlib Require Import ZArith Ascii Lia.
From S2P Require Import Prelude GoError Models Wire SignerText Rfc3339 SignerStore SignerEffects.
From S2P Require Import SignerPolicy SignerVault SignerAuth SignerHandlers.

(** ** github.com/go-chi/chi

    A pattern is a path whose segments are literal or a name in braces, which takes
    one non-empty segment. *)

Fixpoint segs_match (pattern path : list string) : bool :=
  match pattern, path with
  | [], [] => true
  | p :: pattern', s :: path' =>
      (if String.prefix "{" p then negb (String.eqb s "") else String.eqb p s) && segs_match pattern' path'
  | _, _ => false
  end.
Definition pattern_matches (pattern path : string) : bool := segs_match (split_on "/" pattern) (split_on "/" path).

Inductive Routing := Routed (n : nat) | NotFound | MethodNotAllowed.

(** A route is a method ("" for any) and a pattern; [chi_route] is the index chosen. *)
Class ChiMux := { chi_route : list (string * string) → string → string → Routing }.

Class ChiLaws `{ChiMux} : Prop := {
  chi_sound routes method path n : chi_route routes method path = Routed n →
    ∃ m p, routes !! n = Some (m, p) ∧ (m = method ∨ m = "") ∧ pattern_matches p path = true;
  chi_complete routes method path n m p : routes !! n = Some (m, p) → (m = method ∨ m = "") →
    pattern_matches p path = true → ∃ n', chi_route routes method path = Routed n' }.

(** ** internal/config/config.go, as far as the server reads it *)

Record CORSConfig := mkCORSConfig { cors_Enabled : bool; cors_AllowedOrigins : list string }.
Record PolicyDefaults := mkPolicyDefaults { pol_MaxTTLSeconds : Z; pol_AllowedKeyTypes : list string }.
Record ValidationConfig := mkValidationConfig { val_PrincipalValidator : string; val_CacheTTLSeconds : Z }.
Record Config := mkConfig {
  cfg_MountPath : string;
  cfg_Rotation : RotationConfig;
  cfg_Policy : PolicyDefaults;
  cfg_Auth : AuthConfig;
  cfg_Validation : ValidationConfig;
  cfg_DevMode : DevModeConfig;
  cfg_Metrics : option string;         (* the path, when enabled *)
  cfg_CORS : CORSConfig }.

Definition DefaultConfig : Config :=
  mkConfig "ssh-ca" (mkRotationConfig 2160 2) (mkPolicyDefaults 86400 ["ed25519"; "rsa"; "ecdsa"])
    (mkAuthConfig [] 300 10) (mkValidationConfig "noop" 300) (mkDevModeConfig false "" "")
    (Some "/metrics") (mkCORSConfig false []).

(** The overrides of [applyEnvOverrides] that concern these fields; [Getenv] is empty
    for a variable that is not set. *)
Definition applyEnvOverrides (Getenv : string → string) (cfg : Config) : Config :=
  let dev := cfg_DevMode cfg in
  let dev := if decide (Getenv "DEV_MODE" = "") then dev
             else mkDevModeConfig (EqualFold (Getenv "DEV_MODE") "true") (dev_DefaultEmail dev) (dev_DefaultSubject dev) in
  let dev := if decide (Getenv "DEV_DEFAULT_EMAIL" = "") then dev
             else mkDevModeConfig (dev_Enabled dev) (Getenv "DEV_DEFAULT_EMAIL") (dev_DefaultSubject dev) in
  let auth := cfg_Auth cfg in
  let auth := if decide (Getenv "ALLOWED_ISSUERS" = "") then auth
              else mkAuthConfig (filter (λ s, s ≠ "") (TrimSpace <$> split_on "," (Getenv "ALLOWED_ISSUERS")))
                     (auth_JWKSCacheTTLSeconds auth) (auth_JWKSMaxProviders auth) in
  mkConfig (cfg_MountPath cfg) (cfg_Rotation cfg) (cfg_Policy cfg) auth (cfg_Validation cfg) dev
    (cfg_Metrics cfg) (cfg_CORS cfg).

(** ** internal/server/middleware.go *)

Definition extractSourceIP (r : SRequest) : string :=
  let xff := header "X-Forwarded-For" r in
  let ip := TrimSpace (default "" (head (split_on "," xff))) in
  if decide (ip ≠ "") then ip
  else
    let addr := q_remote r in
    match cut_last ":" addr with
    | None => addr
    | Some host =>
        match addr with
        | String c rest =>
            if decide (c = "["%char) then
              match cut "]" rest with Some (inside, _) => inside | None => host end
            else host
        | EmptyString => host
        end
    end.

Section server.
Context `{CR : Crypto} `{JL : JwtLib} `{EV : !SignerEnv}.

Abbreviation SHandler := (SRequest → Proc SResponse) (only parsing).
Abbreviation SMiddleware := (SHandler → SHandler) (only parsing).

Definition BearerAuthMiddleware (v : OIDCValidator) : SMiddleware := λ next r,
  let authHeader := header "Authorization" r in
  if decide (authHeader = "") then mret (WriteJSONError 401 "unauthorized" "Missing Authorization header")
  else if negb (String.prefix "Bearer " authHeader) then
    mret (WriteJSONError 401 "unauthorized" "Authorization header must use Bearer scheme")
  else
    let token := TrimPrefix authHeader "Bearer " in
    if decide (token = "") then mret (WriteJSONError 401 "unauthorized" "Empty Bearer token")
    else
      or_reply (reply_auth (WriteJSONError 401 "unauthorized" "Token validation failed"))
        (ValidateAccessToken v token) (λ identity, next (WithUserIdentity identity r)).

Definition ClientAuthMiddleware : SMiddleware := λ next r,
  or_reply (reply_auth (WriteJSONError 500 "internal_error" "Authentication error"))
    (Authenticate (header "X-Client-Id" r) (header "X-Client-Secret" r)) (λ cfg, next (WithClientConfig cfg r)).

Definition SourceIPMiddleware : SMiddleware := λ next r, next (WithSourceIP (extractSourceIP r) r).

(** A body longer than the limit cannot be read past it. *)
Definition BodyLimitMiddleware (maxBytes : Z) : SMiddleware := λ next r,
  if (maxBytes <? q_length r)%Z then
    mret (WriteJSONError 413 "invalid_request" "Request body too large")
  else
    next (with_body (match q_body r with
                     | Some (v, stop) => if (stop <=? maxBytes)%Z then Some (v, stop) else None
                     | None => None
                     end) r).

(** Headers set before the handler runs; it may overwrite them. *)
Definition add_headers (hs : gmap string string) (p : Proc SResponse) : Proc SResponse :=
  resp ← p; mret (mkSResponse (p_status resp) (p_headers resp ∪ hs) (p_body resp)).

Definition security_headers : gmap string string :=
  <["X-Content-Type-Options" := "nosniff"]> (<["X-Frame-Options" := "DENY"]> (<["X-XSS-Protection" := "0"]>
  (<["Referrer-Policy" := "strict-origin-when-cross-origin"]> ∅))).
Definition SecurityHeadersMiddleware : SMiddleware := λ next r, add_headers security_headers (next r).

(** ** internal/server/cors.go *)

Definition cors_headers (origin : string) : gmap string string :=
  <["Access-Control-Allow-Origin" := origin]> (<["Access-Control-Allow-Methods" := "GET, POST, OPTIONS"]>
  (<["Access-Control-Allow-Headers" := "Authorization, Content-Type, X-Client-Id, X-Client-Secret"]>
  (<["Access-Control-Max-Age" := "3600"]> (<["Vary" := "Origin"]> ∅)))).

Definition CORSMiddleware (cfg : CORSConfig) : SMiddleware := λ next r,
  let origin := header "Origin" r in
  let hs := if decide (origin ≠ "" ∧ origin ∈ cors_AllowedOrigins cfg) then cors_headers origin else ∅ in
  if decide (q_method r = "OPTIONS") then mret (mkSResponse 204 hs BNothing)
  else add_headers hs (next r).

(** ** internal/server/routes.go *)

Record Handlers := mkHandlers {
  h_Sign : SHandler;
  h_Revoke : SHandler;
  h_JWKS : SHandler;
  h_CAPublicKey : SHandler;
  h_Health : SHandler;
  h_Admin : SHandler;
  h_Certificates : SHandler;
  h_CertificateDetail : SHandler;
  h_UserInfo : SHandler }.

Context `{CM : ChiMux}.
(** The handler of the metrics library. *)
Context (promhttp_Handler : SHandler).

(** The routes in the order of [NewRouter], with the middleware of their group. *)
Definition route_entries (cfg : Config) (v : OIDCValidator) (hs : Handlers) : list (string * string * SHandler) :=
  [("GET", "/api/v1/health", h_Health hs)] ++
  (match cfg_Metrics cfg with Some path => [("", path, promhttp_Handler)] | None => [] end) ++
  [("POST", "/api/v1/sign", ClientAuthMiddleware (h_Sign hs));
   ("POST", "/api/v1/revoke", ClientAuthMiddleware (h_Revoke hs));
   ("GET", "/api/v1/jwks", ClientAuthMiddleware (h_JWKS hs));
   ("GET", "/api/v1/ca-public-key", ClientAuthMiddleware (h_CAPublicKey hs));
   ("POST", "/api/v1/admin/rotate-ca", ClientAuthMiddleware (h_Admin hs));
   ("GET", "/api/v1/certificates", BearerAuthMiddleware v (h_Certificates hs));
   ("GET", "/api/v1/certificates/{serial}", BearerAuthMiddleware v (h_CertificateDetail hs));
   ("GET", "/api/v1/userinfo", BearerAuthMiddleware v (h_UserInfo hs))].

Definition dispatch (routes : list (string * string * SHandler)) : SHandler := λ r,
  match chi_route routes.*1 (q_method r) (q_path r) with
  | Routed n => match routes !! n with
                | Some (_, h) => h r
                | None => mret (mkSResponse 404 ∅ (BText "404 page not found"))
                end
  | NotFound => mret (mkSResponse 404 ∅ (BText "404 page not found"))
  | MethodNotAllowed => mret (mkSResponse 405 ∅ BNothing)
  end.

Definition NewRouter (cfg : Config) (v : OIDCValidator) (hs : Handlers) : SHandler :=
  let inner := SecurityHeadersMiddleware (SourceIPMiddleware (BodyLimitMiddleware 1048576
                 (dispatch (route_entries cfg v hs)))) in
  if cors_Enabled (cfg_CORS cfg) then CORSMiddleware (cfg_CORS cfg) inner else inner.

(** ** main.go: [runServer] wires the components *)

Definition signer_client (cfg : Config) : Client := mkClient (cfg_MountPath cfg) (cfg_Rotation cfg).
Definition sign_handler (cfg : Config) : SignHandler :=
  let cacheTTL := wrap64 (val_CacheTTLSeconds (cfg_Validation cfg) * second) in
  mkSignHandler (NewOIDCValidator (cfg_Auth cfg) (cfg_DevMode cfg))
    (NewEnforcer (pol_MaxTTLSeconds (cfg_Policy cfg)) (pol_AllowedKeyTypes (cfg_Policy cfg)))
    (NewValidatorDispatcher (val_PrincipalValidator (cfg_Validation cfg))
       (if (cacheTTL <=? 0)%Z then 300 * second else cacheTTL)%Z)
    (signer_client cfg).
Definition signer_handlers (cfg : Config) : Handlers :=
  let c := signer_client cfg in
  mkHandlers (SignHandler_Handle (sign_handler cfg)) RevokeHandler_Handle (JWKSHandler_Handle c)
    (CAPublicKeyHandler_Handle c) HealthHandler_Handle (AdminHandler_Handle c) HandleList HandleGet
    UserInfoHandler_Handle.
Definition runServer (cfg : Config) : SHandler :=
  NewRouter cfg (NewOIDCValidator (cfg_Auth cfg) (cfg_DevMode cfg)) (signer_handlers cfg).
End server.
