(* ===== verification/SignerLogic.v ===== *)
(** * Reasoning about concurrent requests

    A rely-guarantee logic for the processes of the signer. [wp Q p w] says that from
    state [w] every step of [p] changes the state within [R], and that [p] can only
    return with [Q], when the other requests change the state within [R] between any two
    steps. [wp_pool] is its soundness for every interleaving. [calm] is the part of a
    process that writes no row. [safe I J P p] says that every step of [p] preserves the
    invariant [I] and that [p] can only return a value with [P], when every state of the run
    satisfies [J]; [safe_pool] is its soundness.
    [rg] holds the hints that decompose a process. *)

From stdpp Require Import base gmap sets list strings.
From Stdlib Require Import ZArith Lia Ascii.
From S2P Require Import Prelude GoError Models Wire SignerStore SignerEffects SignerText Rfc3339 SignerPolicy.
From S2P Require Import SignerVault SignerAuth SignerHandlers SignerServer.

Create HintDb rg discriminated.
#[export] Hint Constants Opaque : rg.

Section logic.
Context `{SE : SecretsEngine} `{JL : JwtLib} `{EV : !SignerEnv}.
Implicit Types w : SWorld.

(** The state after an operation, and its answer. *)
Abbreviation after op w := ((do_op op w).2).
Abbreviation answer op w := ((do_op op w).1).

Section wp.
Context (R : relation SWorld) `{!PreOrder R}.

Fixpoint wp {A} (Q : A → SWorld → Prop) (p : Proc A) (w : SWorld) : Prop :=
  match p with
  | Ret a => ∀ w', R w w' → Q a w'
  | Vis op k => ∀ w', R w w' → R w' (after op w') ∧ wp Q (k (answer op w')) (after op w')
  end.

Lemma wp_stable {A} (Q : A → SWorld → Prop) p w w' : wp Q p w → R w w' → wp Q p w'.
Proof. destruct p; simpl; intros Hp HR w'' HR'; apply Hp; by etrans. Qed.

Lemma wp_mono {A} (Q Q' : A → SWorld → Prop) p w :
  (∀ a w', R w w' → Q a w' → Q' a w') → wp Q p w → wp Q' p w.
Proof.
  revert w. induction p as [a|X op k IH]; simpl; intros w HQ Hp w' HR; [auto|].
  destruct (Hp w' HR) as [Hs Hk]. split; [done|]. apply IH; [|done].
  intros a w'' HR'. apply HQ. etrans; [exact HR|]. by etrans.
Qed.

Lemma wp_ret {A} (Q : A → SWorld → Prop) a w : (∀ w', R w w' → Q a w') → wp Q (mret a) w.
Proof. done. Qed.

Lemma wp_bind {A B} (Q : B → SWorld → Prop) (p : Proc A) (k : A → Proc B) w :
  wp (λ a w', wp Q (k a) w') p w → wp Q (p ≫= k) w.
Proof.
  revert w. induction p as [a|X op k' IH]; simpl; intros w Hp.
  - apply (Hp w). reflexivity.
  - intros w' HR. destruct (Hp w' HR) as [Hs Hk]. split; [done|]. by apply IH.
Qed.

(** What holds of one request when it is run alone. *)
Lemma wp_run {A} (Q : A → SWorld → Prop) p w : wp Q p w → R w (run p w).2 ∧ Q (run p w).1 (run p w).2.
Proof.
  revert w. induction p as [a|X op k IH]; simpl; intros w Hp.
  - split; [reflexivity|]. apply Hp. reflexivity.
  - destruct (Hp w) as [Hs Hk]; [reflexivity|]. destruct (do_op op w) as [x w1]. simpl in *.
    destruct (IH x w1 Hk) as [Hr HQ]. split; [by etrans|done].
Qed.

(** Every process of a pool keeps its specification whatever the others do, from a state
    with an invariant [I] that the steps preserve. *)
Section pool.
Context {A : Type} (start : Proc A → Prop) (I : SWorld → Prop) (Q : A → SWorld → Prop).
Hypothesis I_stable : ∀ w w', R w w' → I w → I w'.
Hypothesis start_wp : ∀ p w, start p → I w → wp Q p w.

Lemma wp_pool_step ps w ps' w' :
  pool_step start (ps, w) (ps', w') → I w → Forall (λ p, wp Q p w) ps →
  R w w' ∧ Forall (λ p, wp Q p w') ps'.
Proof using All.
  intros Hstep HI Hps. inversion Hstep as [? i p p' ? ? Hi Hp|? p ? Hp]; subst.
  - destruct p as [a|X op k]; simpl in Hp; [done|]. destruct (do_op op w) as [x w1] eqn:Hop.
    injection Hp as <- <-. pose proof (proj1 (Forall_lookup _ _) Hps i _ Hi) as Hw.
    destruct (Hw w) as [HR Hk]; [reflexivity|]. rewrite Hop in HR, Hk. simpl in *. split; [done|].
    apply Forall_lookup. intros j q Hj. apply list_lookup_insert_Some in Hj as [(_ & <- & _)|[_ Hj]]; [done|].
    eapply wp_stable; [|exact HR]. by eapply (proj1 (Forall_lookup _ _) Hps).
  - split; [reflexivity|]. apply Forall_app. split; [done|]. apply Forall_singleton. by apply start_wp.
Qed.

Lemma wp_pool s s' :
  rtc (pool_step start) s s' → I s.2 → Forall (λ p, wp Q p s.2) s.1 →
  R s.2 s'.2 ∧ Forall (λ p, wp Q p s'.2) s'.1.
Proof using All.
  induction 1 as [s|s1 s2 s3 Hstep _ IH]; intros HI Hps; [split; [reflexivity|done]|].
  destruct s1 as [ps1 w1], s2 as [ps2 w2].
  destruct (wp_pool_step ps1 w1 ps2 w2 Hstep HI Hps) as [HR Hps2].
  destruct (IH (I_stable _ _ HR HI) Hps2) as [HR' Hps3]. split; [by etrans|done].
Qed.
End pool.
End wp.

(** ** Processes that write no row *)

Definition is_exec {X} (op : Op X) : bool := match op with OExec _ => true | _ => false end.

(** Whatever is answered, [p] writes no row and returns a value with [P]. *)
Fixpoint calm {A} (P : A → Prop) (p : Proc A) : Prop :=
  match p with
  | Ret a => P a
  | Vis op k => is_exec op = false ∧ ∀ w, calm P (k (answer op w))
  end.

Lemma calm_ret {A} (P : A → Prop) a : P a → calm P (mret a).
Proof. done. Qed.
Lemma calm_mono {A} (P P' : A → Prop) p : (∀ a, P a → P' a) → calm P p → calm P' p.
Proof. intros HP. induction p as [a|X op k IH]; simpl; [auto|]. intros [He Hk]. split; [done|]. auto. Qed.
Lemma calm_bind {A B} (P : A → Prop) (P' : B → Prop) (p : Proc A) (k : A → Proc B) :
  calm P p → (∀ a, P a → calm P' (k a)) → calm P' (p ≫= k).
Proof.
  intros Hp Hk. induction p as [a|X op k' IH]; simpl in *; [auto|]. destruct Hp as [He Hp]. split; [done|].
  intros w. apply (IH _ (Hp w)).
Qed.
Lemma calm_trigger {X} (P : X → Prop) (op : Op X) :
  is_exec op = false → (∀ w, P (answer op w)) → calm P (trigger op).
Proof. done. Qed.
Lemma calm_try {A B} (P : A → Prop) (P' : Res B → Prop) f (p : Proc (Res A)) (k : A → Proc (Res B)) :
  calm (λ r, ∀ a, r = Ok a → P a) p → (∀ a, P a → calm P' (k a)) → (∀ e, P' (Err e)) →
  calm P' (try_map f p k).
Proof.
  intros Hp Hk He. unfold try_map. eapply calm_bind; [exact Hp|]. intros [a|e] Ha; simpl; auto.
Qed.

Lemma calm_try_silent {A B} (P' : Res B → Prop) f (p : Proc (Res A)) (k : A → Proc (Res B)) :
  calm (λ _, True) p → (∀ a, calm P' (k a)) → (∀ e, P' (Err e)) → calm P' (try_map f p k).
Proof.
  intros Hp Hk He. eapply calm_try with (P := λ _, True); [|auto..].
  eapply calm_mono; [|exact Hp]. done.
Qed.

Lemma quiet_step {X} (op : Op X) w : is_exec op = false → s_db (after op w) = s_db w.
Proof.
  destruct op; simpl; try done; try (by intros _; destruct (outcome _)).
  - intros _. destruct (outcome _); [..|done|]; destruct (kv_write _ _ _ _); done.
  - intros _. by destruct (f _).
Qed.

Lemma calm_wp {A} (R : relation SWorld) `{!PreOrder R} (P : A → Prop) (Q : A → SWorld → Prop) p w :
  (∀ w w', s_db w' = s_db w → R w w') →
  calm P p → (∀ a w', R w w' → P a → Q a w') → wp R Q p w.
Proof.
  intros HR. revert w. induction p as [a|X op k IH]; simpl; intros w Hp HQ w' Hw; [auto|].
  destruct Hp as [He Hp]. assert (R w' (after op w')) as Hs by (apply HR; by apply quiet_step).
  split; [done|]. apply IH; [apply Hp|]. intros a w'' Hr HP. apply HQ; [|done]. etrans; [exact Hw|]. by etrans.
Qed.

(** A process that leaves the shared state alone, and returns a value with [P]. *)
Fixpoint bystander {A} (P : A → Prop) (p : Proc A) : Prop :=
  match p with
  | Ret a => P a
  | Vis op k => is_exec op = false ∧ ∀ w, s_mem (after op w) = s_mem w ∧ bystander P (k (answer op w))
  end.

Lemma bystander_calm {A} (P : A → Prop) p : bystander P p → calm P p.
Proof. induction p as [a|X op k IH]; simpl; [done|]. intros [He Hk]. split; [done|]. intros w. by apply IH, Hk. Qed.

(** ** Processes that preserve an invariant *)

Section safe.
Context (I J : SWorld → Prop).

Fixpoint safe {A} (P : A → Prop) (p : Proc A) : Prop :=
  match p with
  | Ret a => P a
  | Vis op k => ∀ w, I w → J w → I (after op w) ∧ safe P (k (answer op w))
  end.

Lemma safe_ret {A} (P : A → Prop) a : P a → safe P (mret a).
Proof. done. Qed.
Lemma safe_mono {A} (P P' : A → Prop) p : (∀ a, P a → P' a) → safe P p → safe P' p.
Proof.
  intros HP. induction p as [a|X op k IH]; simpl; [auto|]. intros Hk w Hw HJ. destruct (Hk w Hw HJ). auto.
Qed.
Lemma safe_bind {A B} (P : A → Prop) (P' : B → Prop) (p : Proc A) (k : A → Proc B) :
  safe P p → (∀ a, P a → safe P' (k a)) → safe P' (p ≫= k).
Proof.
  intros Hp Hk. induction p as [a|X op k' IH]; simpl in *; [auto|]. intros w Hw HJ.
  destruct (Hp w Hw HJ) as [Hi Hp']. split; [done|]. by apply IH.
Qed.
Lemma safe_trigger {X} (P : X → Prop) (op : Op X) :
  (∀ w, I w → J w → I (after op w) ∧ P (answer op w)) → safe P (trigger op).
Proof. done. Qed.
Lemma safe_try {A B} (P : A → Prop) (P' : Res B → Prop) f (p : Proc (Res A)) (k : A → Proc (Res B)) :
  safe (λ r, match r with Ok a => P a | Err _ => True end) p → (∀ a, P a → safe P' (k a)) →
  (∀ e, P' (Err e)) → safe P' (try_map f p k).
Proof.
  intros Hp Hk He. unfold try_map. eapply safe_bind; [exact Hp|]. intros [a|e] Ha; simpl; auto.
Qed.
Lemma safe_try_silent {A B} (P' : Res B → Prop) f (p : Proc (Res A)) (k : A → Proc (Res B)) :
  safe (λ _, True) p → (∀ a, safe P' (k a)) → (∀ e, P' (Err e)) → safe P' (try_map f p k).
Proof.
  intros Hp Hk He. eapply (safe_try (λ _, True)); [|auto..].
  eapply safe_mono; [|exact Hp]. by intros [].
Qed.

Lemma bystander_safe {A} (P : A → Prop) p :
  (∀ w w', s_db w' = s_db w → s_mem w' = s_mem w → I w → I w') → bystander P p → safe P p.
Proof.
  intros HI. induction p as [a|X op k IH]; simpl; [done|]. intros [He Hk] w Hw _. destruct (Hk w) as [Hm Hp].
  split; [|by apply IH]. apply (HI w); [by apply quiet_step|done|done].
Qed.

(** In every interleaving with processes that preserve the invariant. *)
Lemma safe_pool {A} (start : Proc A → Prop) (P : A → Prop) i p s s' :
  (∀ p, start p → safe (λ _, True) p) →
  rtc (pool_step start) s s' → (∀ t, rtc (pool_step start) s t → rtc (pool_step start) t s' → J t.2) →
  I s.2 → Forall (safe (λ _, True)) s.1 →
  I s'.2 ∧ Forall (safe (λ _, True)) s'.1 ∧
  (s.1 !! i = Some p → safe P p → ∃ p', s'.1 !! i = Some p' ∧ safe P p').
Proof.
  intros Hstart Hrun. revert p. induction Hrun as [s|s1 s2 s3 Hstep Hrest IH]; intros p HJ HI Hps; [by eauto|].
  assert (J s1.2) as HJ1 by (apply HJ; [done|]; by eapply rtc_l).
  assert (I s2.2 ∧ Forall (safe (λ _, True)) s2.1 ∧
          (s1.1 !! i = Some p → safe P p → ∃ p', s2.1 !! i = Some p' ∧ safe P p')) as (HI2 & Hps2 & Hi2).
  { destruct Hstep as [ps j q q' w w' Hj Hq|ps q w Hq]; cbn [fst snd] in *.
    - destruct q as [a|X op k]; simpl in Hq; [done|]. destruct (do_op op w) as [x w1] eqn:Hop. injection Hq as <- <-.
      pose proof (proj1 (Forall_lookup _ _) Hps j _ Hj w HI HJ1) as [HI' Hk]. rewrite Hop in HI', Hk. simpl in *.
      split; [done|]. split.
      + apply Forall_lookup. intros l r Hl. apply list_lookup_insert_Some in Hl as [(_ & <- & _)|[_ Hl]]; [done|].
        by eapply (proj1 (Forall_lookup _ _) Hps).
      + intros Hi Hp. destruct (decide (i = j)) as [->|Hne].
        * rewrite Hj in Hi. injection Hi as <-. exists (k x). rewrite list_lookup_insert_eq by (by eapply lookup_lt_Some).
          split; [done|]. destruct (Hp w HI HJ1) as [_ Hp']. by rewrite Hop in Hp'.
        * exists p. by rewrite list_lookup_insert_ne by done.
    - split; [done|]. split; [apply Forall_app; split; [done|]; apply Forall_singleton; auto|].
      intros Hi Hp. exists p. split; [|done]. by apply lookup_app_l_Some. }
  assert (∀ t, rtc (pool_step start) s2 t → rtc (pool_step start) t s3 → J t.2) as HJ2
    by (intros t Ht; apply HJ; by eapply rtc_l).
  destruct (IH p HJ2 HI2 Hps2) as (HI3 & Hps3 & _). split; [done|]. split; [done|].
  intros Hi Hp. destruct (Hi2 Hi Hp) as (p2 & Hp2 & Hs2). by eapply IH.
Qed.
End safe.
End logic.

(** The part of a process that only computes answers. *)
Ltac calm_step :=
  lazymatch goal with
  | |- calm _ (mret _) => apply calm_ret
  | |- calm _ (trigger _) => apply calm_trigger; [reflexivity|]
  | |- calm _ (try_map _ _ _) => eapply calm_try_silent
  | |- calm _ (_ ≫= _) => eapply (calm_bind (λ _, True))
  | |- calm _ (match ?x with _ => _ end) => destruct x eqn:?
  | |- calm _ (if ?b then _ else _) => destruct b eqn:?
  end.

Ltac calm_auto :=
  repeat first
    [ progress intros
    | assumption
    | solve [eauto with rg]
    | calm_step
    | exact I
    | done ].

(** The same for an invariant; [safe_op] is the hint for an operation that keeps it. *)
Ltac safe_step :=
  lazymatch goal with
  | |- safe _ _ _ (mret _) => apply safe_ret
  | |- safe _ _ _ (try_map _ _ _) => eapply safe_try_silent
  | |- safe _ _ _ (_ ≫= _) => eapply (safe_bind _ _ (λ _, True))
  | |- safe _ _ _ (match ?x with _ => _ end) => destruct x eqn:?
  | |- safe _ _ _ (if ?b then _ else _) => destruct b eqn:?
  end.

Ltac safe_auto :=
  repeat first
    [ progress intros
    | assumption
    | solve [eauto with rg]
    | safe_step
    | exact I
    | done ].

(** * Facts on the operations of the signer

    Which operations write no row, and what they return whatever the other requests
    and the servers do. *)

(** ** The policy *)

(** A request satisfies the policy exactly when its lifetime is positive and at most the
    maximum, its key type is allowed, and its address is in the block of the client. *)
Lemma Enforce_None e ttl keyType sourceIP cfg :
  Enforce e ttl keyType sourceIP cfg = None ↔
  (0 < ttl ≤ effective_max_ttl e cfg)%Z ∧
  (∃ at_, at_ ∈ effective_key_types e cfg ∧ EqualFold at_ (NormalizeKeyType keyType) = true) ∧
  (∀ restriction, SourceAddressRestriction cfg = Some restriction → restriction ≠ "" →
    ∃ net ip, ParseCIDR restriction = Some net ∧ ParseIP sourceIP = Some ip ∧ Contains net ip = true).
Proof.
  unfold Enforce. cbv zeta. destruct (ttl <=? 0)%Z eqn:E1; [apply Z.leb_le in E1; split; [done|lia]|apply Z.leb_gt in E1].
  destruct (effective_max_ttl e cfg <? ttl)%Z eqn:E2; [apply Z.ltb_lt in E2; split; [done|lia]|apply Z.ltb_ge in E2].
  assert ((∃ at_, at_ ∈ effective_key_types e cfg ∧ EqualFold at_ (NormalizeKeyType keyType) = true) ↔
    existsb (λ at_, EqualFold at_ (NormalizeKeyType keyType)) (effective_key_types e cfg) = true) as Ht.
  { rewrite existsb_exists. by setoid_rewrite list_elem_of_In. }
  rewrite Ht. destruct (existsb _ _); simpl; [|split; [done|by intros (_ & ? & _)]].
  destruct (SourceAddressRestriction cfg) as [restriction|]; [|split; [intros _; split; [lia|]; by split|done]].
  case_decide as Hr; [subst; split; [intros _; split; [lia|]; split; [done|]; by intros ? [= <-]|done]|].
  destruct (ParseCIDR restriction) as [net|] eqn:Ec.
  2:{ split; [done|]. intros (_ & _ & Hs). by destruct (Hs restriction eq_refl Hr) as (? & ? & ? & _); congruence. }
  destruct (ParseIP sourceIP) as [ip|] eqn:Ei.
  2:{ split; [done|]. intros (_ & _ & Hs). by destruct (Hs restriction eq_refl Hr) as (? & ? & ? & ? & _); congruence. }
  destruct (Contains net ip) eqn:Eb.
  - split; [|done]. intros _. split; [lia|]. split; [done|]. intros ? [= <-] _. eauto.
  - split; [done|]. intros (_ & _ & Hs). destruct (Hs restriction eq_refl Hr) as (? & ? & ? & ? & ?). congruence.
Qed.

Lemma ValidateExtensionList_Ok names l :
  ValidateExtensionList names = Ok l ↔ l = names ∧ Forall (λ x, x ∈ validExtensions) names.
Proof.
  revert l. induction names as [|x names IH]; intros l; simpl; [split; [by intros [= <-]|by intros [-> _]]|].
  unfold SSHExtension_Validate. rewrite Forall_cons. case_decide as Hx; [|split; [done|by intros (_ & ? & _)]].
  destruct (ValidateExtensionList names) as [l'|e].
  - destruct (IH l') as [Hl' _]. destruct (Hl' eq_refl) as [-> Hf]. split; [by intros [= <-]|by intros [-> _]].
  - split; [done|]. intros (_ & _ & Hf). destruct (IH names) as [_ Hn]. by specialize (Hn (conj eq_refl Hf)).
Qed.

(** The extensions granted: the standard ones that neither the client nor the request
    removes; unknown names are refused. *)
Lemma ResolveExtensions_Ok denied excluded exts :
  ResolveExtensions denied excluded = Ok exts ↔
  Forall (λ x, x ∈ validExtensions) denied ∧ Forall (λ x, x ∈ validExtensions) excluded ∧
  exts = filter (λ x, x ∉ (list_to_set (denied ++ excluded) : gset string)) AllStandardExtensions.
Proof.
  unfold ResolveExtensions. destruct (ValidateExtensionList denied) as [d|e] eqn:Ed.
  2:{ split; [done|]. intros (Hd & _). by rewrite (proj2 (ValidateExtensionList_Ok denied denied)) in Ed. }
  apply ValidateExtensionList_Ok in Ed as [-> Hd]. destruct (ValidateExtensionList excluded) as [x|e] eqn:Ex.
  2:{ split; [done|]. intros (_ & Hx & _). by rewrite (proj2 (ValidateExtensionList_Ok excluded excluded)) in Ex. }
  apply ValidateExtensionList_Ok in Ex as [-> Hx]. split; [by intros [= <-]|by intros (_ & _ & ->)].
Qed.

Lemma ResolveExtensions_subset denied excluded exts x :
  ResolveExtensions denied excluded = Ok exts → x ∈ exts → x ∈ AllStandardExtensions ∧ x ∉ denied ∧ x ∉ excluded.
Proof.
  intros (_ & _ & ->)%ResolveExtensions_Ok Hx. apply list_elem_of_filter in Hx as [Hn Hs]. split; [done|].
  rewrite elem_of_list_to_set, elem_of_app in Hn. tauto.
Qed.

Section facts.
Context `{SE : SecretsEngine} `{CR : Crypto} `{JL : JwtLib} `{EV : !SignerEnv}.

(** ** The secrets engine *)

Section vault.
Context (c : Client).
Implicit Types t cl s : string.

Lemma readCAKey_silent t cl s : calm (λ _, True) (readCAKey c t cl s).
Proof. unfold readCAKey. calm_auto. Qed.
Lemma writeCAKey_silent t cl s kp : calm (λ _, True) (writeCAKey c t cl s kp).
Proof. unfold writeCAKey. calm_auto. Qed.
Lemma readMetadataWithVersion_silent t cl : calm (λ _, True) (readMetadataWithVersion c t cl).
Proof. unfold readMetadataWithVersion. calm_auto. Qed.
#[local] Hint Resolve readCAKey_silent writeCAKey_silent readMetadataWithVersion_silent : rg.
Lemma readMetadata_silent t cl : calm (λ _, True) (readMetadata c t cl).
Proof. unfold readMetadata. calm_auto. Qed.
Lemma writeMetadata_silent t cl m : calm (λ _, True) (writeMetadata c t cl m).
Proof. unfold writeMetadata. calm_auto. Qed.
Lemma writeMetadataCAS_silent t cl m v : calm (λ _, True) (writeMetadataCAS c t cl m v).
Proof. unfold writeMetadataCAS. calm_auto. Qed.
#[local] Hint Resolve readMetadata_silent writeMetadata_silent writeMetadataCAS_silent : rg.
Lemma initMetadata_silent t cl : calm (λ _, True) (initMetadata c t cl).
Proof. unfold initMetadata, nowUTC_s. calm_auto. Qed.
Lemma generateEd25519CAKey_silent : calm (λ _, True) generateEd25519CAKey.
Proof. unfold generateEd25519CAKey, nowUTC_s. calm_auto. Qed.
#[local] Hint Resolve initMetadata_silent generateEd25519CAKey_silent : rg.
Lemma GetCurrentCAKey_silent t cl : calm (λ _, True) (GetCurrentCAKey c t cl).
Proof. unfold GetCurrentCAKey. calm_auto. Qed.
Lemma IncrementSerialCounter_silent t cl : calm (λ _, True) (IncrementSerialCounter c t cl).
Proof. unfold IncrementSerialCounter. calm_auto. Qed.
Lemma RotateCA_silent t cl : calm (λ _, True) (RotateCA c t cl).
Proof. unfold RotateCA, nowUTC_s. calm_auto. Qed.
Lemma GetValidationCredentials_silent t cl : calm (λ _, True) (GetValidationCredentials c t cl).
Proof. unfold GetValidationCredentials. calm_auto. Qed.
Lemma Healthy_silent : calm (λ _, True) Healthy.
Proof. unfold Healthy. calm_auto. Qed.
Lemma GetNextCAKey_silent t cl : calm (λ _, True) (GetNextCAKey c t cl).
Proof. apply readCAKey_silent. Qed.
Lemma GetMetadata_silent t cl : calm (λ _, True) (GetMetadata c t cl).
Proof. apply readMetadata_silent. Qed.
End vault.
#[local] Hint Resolve GetCurrentCAKey_silent IncrementSerialCounter_silent RotateCA_silent
  GetValidationCredentials_silent Healthy_silent GetNextCAKey_silent GetMetadata_silent : rg.

(** ** Tokens *)

Lemma jwks_cached_silent v issuer : calm (λ _, True) (jwks_cached v issuer).
Proof. unfold jwks_cached. calm_auto. Qed.
Lemma fetchJWKSFromIssuer_silent issuer : calm (λ _, True) (fetchJWKSFromIssuer issuer).
Proof. unfold fetchJWKSFromIssuer. calm_auto. Qed.
#[local] Hint Resolve jwks_cached_silent fetchJWKSFromIssuer_silent : rg.
Lemma getJWKS_silent v issuer : calm (λ _, True) (getJWKS v issuer).
Proof. unfold getJWKS. calm_auto. Qed.
#[local] Hint Resolve getJWKS_silent : rg.
Lemma ValidateAccessToken_silent v token : calm (λ _, True) (ValidateAccessToken v token).
Proof. unfold ValidateAccessToken. calm_auto. Qed.

(** ** Principals *)

Section validation.
Context (vault : Client) (d : ValidatorDispatcher).

Lemma fetchCredentials_silent t cl : calm (λ _, True) (fetchCredentials vault d t cl).
Proof. unfold fetchCredentials. calm_auto. Qed.
Lemma getOrCreateValidator_silent t cl creds : calm (λ _, True) (getOrCreateValidator t cl creds).
Proof. unfold getOrCreateValidator. calm_auto. Qed.
#[local] Hint Resolve fetchCredentials_silent getOrCreateValidator_silent : rg.

(** A validation that succeeds returns the principal that was asked for. *)
Definition grants_only (principal : string) (r : ValidationError + ValidationResult) : Prop :=
  match r with inr v => ValidatedPrincipal v = principal | inl _ => True end.

Lemma judge_entries_grants config principal entries :
  grants_only principal (judge_entries config principal entries).
Proof.
  unfold judge_entries. destruct entries as [|entry entries]; [done|]. case_decide; [done|].
  by case_decide.
Qed.

Lemma LDAPValidator_Validate_grants principal subject lv n :
  grants_only principal (LDAPValidator_Validate principal subject lv n).1.1.
Proof.
  unfold LDAPValidator_Validate. destruct (searchLDAP _ _ _ n) as [[[e|es] conn] n1].
  - destruct (searchLDAP _ _ _ n1) as [[[e'|es] conn'] n2]; [done|]. apply judge_entries_grants.
  - apply judge_entries_grants.
Qed.

Lemma validator_Validate_grants key principal subject :
  calm (grants_only principal) (validator_Validate key principal subject).
Proof.
  apply calm_trigger; [done|]. intros w. simpl. destruct (m_validators _ !! key) as [lv|] eqn:E; [|done].
  pose proof (LDAPValidator_Validate_grants principal subject lv (m_ldap (s_mem w))) as Hg.
  by destruct (LDAPValidator_Validate _ _ _ _) as [[r lv'] n].
Qed.

Lemma ValidateForClient_grants t cl principal subject source :
  calm (grants_only principal) (ValidateForClient vault d t cl principal subject source).
Proof.
  unfold ValidateForClient. cbv zeta. generalize (if decide (source = "") then vd_fallbackSource d else source).
  intros src. case_decide; [done|]. case_decide; [|case_decide; exact I].
  unfold validateLDAP. eapply calm_bind; [apply fetchCredentials_silent|]. intros [[creds|]|e] _; [|exact I..].
  eapply calm_bind; [apply getOrCreateValidator_silent|]. intros key _. apply validator_Validate_grants.
Qed.
End validation.

(** ** Certificates *)

(** A certificate for [req] was signed with the CA key of the request at some reading
    of the clock, and [res] describes it. *)
Definition signed (req : CertRequest) (res : SignResult) : Prop :=
  ∃ sshSigner nonce entropy n,
    ParseCAPrivateKey (CAPrivateKeyPEM req) = Ok sshSigner ∧
    let cert := certificate_of req nonce (now_at n) in
    ssh_SignCert entropy sshSigner cert = Ok (CertBytes res) ∧
    res_Serial res = Serial_ req ∧ res_KeyID res = Cert_KeyId cert ∧
    res_ValidAfter res = Cert_ValidAfter cert ∧ res_ValidBefore res = Cert_ValidBefore cert ∧
    res_CAFingerprint res = ssh_FingerprintSHA256 (ssh_PublicKeyOf sshSigner).

Lemma SignCertificate_signed req :
  calm (λ r, match r with Ok res => signed req res | Err _ => True end) (SignCertificate req).
Proof.
  unfold SignCertificate. destruct (ParseCAPrivateKey _) as [sshSigner|e] eqn:Hk; [|done].
  eapply calm_try_silent; [calm_auto| |done]. intros nonce.
  eapply (calm_bind (λ now, ∃ n, now = now_at n)); [apply calm_trigger; [done|]; intros w; by eexists|].
  intros now [n ->]. eapply calm_try_silent; [calm_auto| |done]. intros entropy. apply calm_ret.
  destruct (ssh_SignCert _ _ _) as [bytes|e] eqn:Hs; [|done].
  exists sshSigner, nonce, entropy, n. by repeat split.
Qed.
End facts.

#[export] Hint Resolve GetCurrentCAKey_silent IncrementSerialCounter_silent RotateCA_silent
  GetValidationCredentials_silent Healthy_silent GetNextCAKey_silent GetMetadata_silent
  ValidateAccessToken_silent : rg.
