(* ===== verification/SignerTheorems.v ===== *)
(** * Every certificate is recorded and allowed

    The invariant of the issuance log under any interleaving of requests, with any
    failures of the database and the secrets engine: rows are never changed, every row
    added is one the policy of an enabled client allows, and a certificate that was
    returned has its row. *)

From stdpp Require Import base gmap sets list strings.
From Stdlib Require Import ZArith Ascii Lia.
From S2P Require Import Prelude GoError Models Schema Wire AmieStore SignerText Rfc3339 SignerStore SignerEffects.
From S2P Require Import SignerLogic SignerPolicy SignerVault SignerAuth SignerHandlers SignerServer.
From S2P Require Import SignerLogic.

Section log.
Context `{SE : SecretsEngine} `{CR : Crypto} `{JL : JwtLib} `{EV : !SignerEnv}.
Context (enf : Enforcer).
Implicit Types (d : SignerDB) (w : SWorld) (cc : ClientConfig) (r : IssuanceRow).

(** ** What is shown of a row *)

(** An enabled client of the table. *)
Definition configured (clients : gmap (string * string) ClientRow) cc : Prop :=
  ∃ row k, clients !! k = Some row ∧ scan_client row = Ok cc ∧ Enabled cc = true.

(** The source address of a request to a client that restricts it. *)
Definition source_allowed cc (sourceIP : string) : Prop :=
  ∀ restriction, SourceAddressRestriction cc = Some restriction → restriction ≠ "" →
    ∃ net ip, ParseCIDR restriction = Some net ∧ ParseIP sourceIP = Some ip ∧ Contains net ip = true.

Definition key_type_allowed cc (key : string) : Prop :=
  ∃ at_, at_ ∈ effective_key_types enf cc ∧ EqualFold at_ (NormalizeKeyType (ssh_KeyType key)) = true.

(** The row of a certificate that the policy of an enabled client allows. *)
Definition justified (clients : gmap (string * string) ClientRow) r : Prop :=
  ∃ cc sourceIP key ttl n exts,
    configured clients cc ∧ ir_tenant_id r = TenantID cc ∧ ir_client_id r = ClientID cc ∧
    principalRegex (ir_principal r) = true ∧
    ir_source_ip r = Some sourceIP ∧ source_allowed cc sourceIP ∧
    ir_public_key_fingerprint r = ssh_FingerprintSHA256 key ∧ key_type_allowed cc key ∧
    (0 < ttl ≤ effective_max_ttl enf cc)%Z ∧
    ir_valid_after r = (wrap64 (wrapu64 (Unix (now_at n))) * second)%Z ∧
    ir_valid_before r = (wrap64 (wrapu64 (wrapu64 (Unix (now_at n)) + wrapu64 ttl)) * second)%Z ∧
    ir_granted_extensions r = marshal_strings exts ∧
    (∀ x, x ∈ exts → x ∈ AllStandardExtensions ∧ x ∉ DeniedExtensions cc).

(** The row that attests the certificate of a response: what the response says, what the
    certificate says, what the row says agree. *)
Definition attests (clients : gmap (string * string) ClientRow) r (x : SignResponse) : Prop :=
  ∃ cc cert entropy sshSigner bytes,
    configured clients cc ∧ ir_tenant_id r = TenantID cc ∧ ir_client_id r = ClientID cc ∧
    ssh_SignCert entropy sshSigner cert = Ok bytes ∧ sr_Certificate x = StdEncoding bytes ∧
    ir_serial_number r = sr_SerialNumber x ∧ Cert_Serial cert = wrapu64 (sr_SerialNumber x) ∧
    ir_principal r = sr_TargetUsername x ∧ Cert_ValidPrincipals cert = [sr_TargetUsername x] ∧
    ir_key_id r = Cert_KeyId cert ∧ ir_public_key_fingerprint r = ssh_FingerprintSHA256 (Cert_Key cert) ∧
    sr_ValidAfter x = wrap64 (Cert_ValidAfter cert) ∧ ir_valid_after r = (sr_ValidAfter x * second)%Z ∧
    sr_ValidBefore x = wrap64 (Cert_ValidBefore cert) ∧ ir_valid_before r = (sr_ValidBefore x * second)%Z ∧
    sr_CAFingerprint x = ssh_FingerprintSHA256 (ssh_PublicKeyOf sshSigner) ∧ ir_ca_fingerprint r = sr_CAFingerprint x ∧
    ir_granted_extensions r = marshal_strings (sr_GrantedExtensions x) ∧
    Cert_Extensions cert = ExtensionsToMap (sr_GrantedExtensions x) ∧
    ir_force_command r = stringPtrIfNonEmpty (sr_ForceCommand x) ∧
    Cert_CriticalOptions cert = BuildCriticalOptions (SourceAddressRestriction cc) (sr_ForceCommand x).

(** ** How a state changes *)

Definition evolves w w' : Prop :=
  t_clients (s_db w') = t_clients (s_db w) ∧
  (signer_db_ok (s_db w) →
   signer_db_ok (s_db w') ∧ t_issuance (s_db w) ⊆ t_issuance (s_db w') ∧
   t_revocations (s_db w) ⊆ t_revocations (s_db w') ∧
   ∀ i r, t_issuance (s_db w') !! i = Some r →
     t_issuance (s_db w) !! i = Some r ∨ justified (t_clients (s_db w)) r).

#[export] Instance evolves_preorder : PreOrder evolves.
Proof.
  split.
  - intros w. split; [done|]. intros Hok. do 3 (split; [done|]). auto.
  - intros w1 w2 w3 [Hc1 H1] [Hc2 H2]. split; [congruence|]. intros Hok.
    destruct (H1 Hok) as (Hok2 & Hi1 & Hr1 & Hn1). destruct (H2 Hok2) as (Hok3 & Hi2 & Hr2 & Hn2).
    split; [done|]. split; [by etrans|]. split; [by etrans|]. intros i r Hr.
    destruct (Hn2 i r Hr) as [Hr'|Hj]; [auto|]. right. by rewrite Hc1 in Hj.
Qed.

Lemma evolves_same_db w w' : s_db w' = s_db w → evolves w w'.
Proof. intros He. unfold evolves. rewrite He. split; [done|]. intros Hok. do 3 (split; [done|]). auto. Qed.

Lemma fresh_seq d : signer_db_ok d → t_issuance d !! seq_issuance d = None.
Proof.
  intros [(_ & Hk & _) _]. destruct (t_issuance d !! _) as [r|] eqn:E; [|done].
  destruct (Hk _ _ E) as [_ Hlt]. lia.
Qed.

Lemma insert_issuance_ok l now d d' :
  insert_issuance l now d = inr d' → signer_db_ok d →
  d' = set_issuance (<[seq_issuance d := issuance_row (seq_issuance d) now l]> (t_issuance d)) (seq_issuance d + 1)%Z d ∧
  signer_db_ok d' ∧ t_issuance d ⊆ t_issuance d'.
Proof.
  unfold insert_issuance. repeat (case_decide; [|done]). intros [= <-] Hok. pose proof (fresh_seq d Hok) as Hf.
  destruct Hok as [(Hkc & Hki & Hkr) Hu]. split; [done|]. split.
  - split; [split; [done|split; [|done]]|].
    + intros i r. simpl. rewrite lookup_insert_Some. intros [[<- <-]|[_ Hr]]; simpl; [lia|].
      destruct (Hki _ _ Hr). lia.
    + assert (∀ i r, t_issuance d !! i = Some r → ir_serial_number r ≠ il_SerialNumber l) as Hns by done.
      intros i j r s. simpl. rewrite !lookup_insert_Some.
      intros [[<- <-]|[_ Hr]] [[<- <-]|[_ Hs]]; simpl; intros He; [done|..].
      * by destruct (Hns _ _ Hs).
      * by destruct (Hns _ _ Hr).
      * by eapply Hu.
  - simpl. by apply insert_subseteq.
Qed.

Lemma issuance_step l w :
  (∀ id now, justified (t_clients (s_db w)) (issuance_row id now l)) →
  let op := OExec (insert_issuance l) in
  evolves w (do_op op w).2 ∧
  ((do_op op w).1 = Ok tt → signer_db_ok (s_db w) →
   ∃ i now, t_issuance (s_db (do_op op w).2) !! i = Some (issuance_row i now l)).
Proof.
  intros Hj. simpl. destruct (insert_issuance l (server_now (s_io w)) (s_db w)) as [e|d'] eqn:Hs.
  - destruct (outcome _); split; (by apply evolves_same_db) || done.
  - assert (evolves w (set_sdb d' (bump_io w))) as Hev.
    { split; [by unfold insert_issuance in Hs; repeat (case_decide; [|done]); simplify_eq|]. intros Hok.
      destruct (insert_issuance_ok _ _ _ _ Hs Hok) as (Hd & Hok' & Hi). simpl. split; [done|]. split; [done|].
      subst d'. split; [done|]. intros i r. simpl. rewrite lookup_insert_Some. intros [[_ <-]|[_ Hr]]; auto. }
    destruct (outcome _); simpl; split; try done; try (by apply evolves_same_db).
    intros _ Hok. destruct (insert_issuance_ok _ _ _ _ Hs Hok) as (-> & _ & _).
    eexists _, _. simpl. by rewrite lookup_insert_eq.
Qed.

Lemma revocation_step e w : evolves w (do_op (OExec (insert_revocation e)) w).2.
Proof.
  assert (∀ now d', insert_revocation e now (s_db w) = inr d' → evolves w (set_sdb d' (bump_io w))) as Hev.
  { intros now d'. unfold insert_revocation. repeat (case_decide; [|done]). intros [= <-]. split; [done|].
    intros [(Hkc & Hki & Hkr) Hu]. simpl. split; [|split; [done|split; [|by auto]]].
    - split; [|done]. split; [done|]. split; [done|]. intros i r. simpl. rewrite lookup_insert_Some.
      intros [[<- <-]|[_ Hr]]; simpl; [lia|]. destruct (Hkr _ _ Hr). lia.
    - apply insert_subseteq. destruct (t_revocations _ !! _) as [r|] eqn:E; [|done].
      destruct (Hkr _ _ E). lia. }
  simpl. destruct (insert_revocation e (server_now (s_io w)) (s_db w)) as [err|d'] eqn:Hs;
    destruct (outcome _); simpl; try (by apply evolves_same_db); by eapply Hev.
Qed.

Lemma evolves_ok w w' : evolves w w' → signer_db_ok (s_db w) → signer_db_ok (s_db w').
Proof. intros [_ He] Hok. by apply He. Qed.
Lemma evolves_row w w' i r :
  evolves w w' → signer_db_ok (s_db w) → t_issuance (s_db w) !! i = Some r → t_issuance (s_db w') !! i = Some r.
Proof. intros [_ He] Hok Hr. destruct (He Hok) as (_ & Hi & _). by eapply lookup_weaken. Qed.

(** ** Rules *)

Implicit Types (Q : SResponse → SWorld → Prop).

Lemma wp_quiet {A} (P : A → Prop) (Q : A → SWorld → Prop) p w :
  calm P p → (∀ a w', evolves w w' → P a → Q a w') → wp evolves Q p w.
Proof. apply (calm_wp evolves), evolves_same_db. Qed.

Lemma wp_or_reply_res {A} (P : A → Prop) resp (p : Proc (Res A)) k Q w :
  calm (λ o, match o with Ok a => P a | Err _ => True end) p →
  (∀ w', evolves w w' → Q resp w') → (∀ a w', evolves w w' → P a → wp evolves Q (k a) w') →
  wp evolves Q (or_reply_res resp p k) w.
Proof.
  intros Hp He Hk. apply wp_bind; [apply _|]. eapply wp_quiet; [exact Hp|]. intros [a|e] w' Hw HP; [auto|].
  apply wp_ret. intros w'' Hw'. apply He. by etrans.
Qed.

Lemma wp_or_reply_silent {A} resp (p : Proc (Res A)) k Q w :
  calm (λ _, True) p →
  (∀ w', evolves w w' → Q resp w') → (∀ a w', evolves w w' → wp evolves Q (k a) w') →
  wp evolves Q (or_reply_res resp p k) w.
Proof.
  intros Hp He Hk. apply (wp_or_reply_res (λ _, True)); [|done|by auto].
  eapply calm_mono; [|exact Hp]. by intros [].
Qed.

Lemma wp_or_reply {E A} (P : A → Prop) (f : E → SResponse) (p : Proc (E + A)) k Q w :
  calm (λ o, match o with inr a => P a | inl _ => True end) p →
  (∀ e w', evolves w w' → Q (f e) w') → (∀ a w', evolves w w' → P a → wp evolves Q (k a) w') →
  wp evolves Q (or_reply f p k) w.
Proof.
  intros Hp He Hk. apply wp_bind; [apply _|]. eapply wp_quiet; [exact Hp|]. intros [e|a] w' Hw HP; [|auto].
  apply wp_ret. intros w'' Hw'. apply He. by etrans.
Qed.

(** ** Signing *)

(** The certificate a response carries is recorded. *)
Definition recorded (resp : SResponse) w : Prop :=
  ∀ x, p_body resp = BSign x →
    ∃ i r, t_issuance (s_db w) !! i = Some r ∧ attests (t_clients (s_db w)) r x.

Lemma not_signed_recorded resp w : (∀ x, p_body resp ≠ BSign x) → recorded resp w.
Proof. intros Hn x Hx. by destruct (Hn x). Qed.

Lemma LogIssuance_wp l (Q : Res unit → SWorld → Prop) w :
  signer_db_ok (s_db w) →
  (∀ id now, justified (t_clients (s_db w)) (issuance_row id now l)) →
  (∀ w' i now, evolves w w' → t_issuance (s_db w') !! i = Some (issuance_row i now l) → Q (Ok tt) w') →
  (∀ e w', evolves w w' → Q (Err e) w') →
  wp evolves Q (LogIssuance l) w.
Proof.
  intros Hok Hj HOk HErr. cbn [LogIssuance InsertIssuanceLog try_map mbind Proc_bind trigger wp].
  intros w1 Hw1. assert (∀ id now, justified (t_clients (s_db w1)) (issuance_row id now l)) as Hj1
    by (destruct Hw1 as [-> _]; done).
  pose proof (evolves_ok _ _ Hw1 Hok) as Hok1.
  destruct (issuance_step l w1 Hj1) as [Hev Hrow]. split; [done|].
  destruct (do_op (OExec (insert_issuance l)) w1) as [[[]|e] w2]; simpl in *.
  - destruct (Hrow eq_refl Hok1) as (i & now & Hi). intros w3 Hw3. apply (HOk w3 i now).
    + etrans; [exact Hw1|]. by etrans.
    + apply (evolves_row w2); [done| |done]. by eapply evolves_ok.
  - intros w3 Hw3. apply HErr. etrans; [exact Hw1|]. by etrans.
Qed.

Section issue.
Context (h : SignHandler) (cc : ClientConfig) (req : SignBody) (principal email key sourceIP caKey : string).
Context (exts : list string) (clients : gmap (string * string) ClientRow).

(** The request that [Handle] makes of the signer for a serial. *)
Definition cert_request (serial : Z) : CertRequest :=
  mkCertRequest key caKey (wrapu64 serial) principal (ClientID cc) (wrapu64 (sb_TTLSeconds req))
    (ExtensionsToMap exts) (BuildCriticalOptions (SourceAddressRestriction cc) (sb_ForceCommand req)).

Definition entry_of (serial : Z) (res : SignResult) : IssuanceLog :=
  audit_entry cc req principal email (ssh_FingerprintSHA256 key) sourceIP exts serial res.

Context (Hcc : configured clients cc) (Hp : principalRegex principal = true).
Context (Hsource : source_allowed cc sourceIP) (Hkey : key_type_allowed cc key).
Context (Httl : (0 < sb_TTLSeconds req ≤ effective_max_ttl enf cc)%Z).
Context (Hexts : ∀ x, x ∈ exts → x ∈ AllStandardExtensions ∧ x ∉ DeniedExtensions cc).

Lemma entry_justified serial res id now :
  signed (cert_request serial) res → justified clients (issuance_row id now (entry_of serial res)).
Proof using All.
  intros (sshSigner & nonce & entropy & n & _ & _ & _ & _ & Ha & Hb & _).
  exists cc, sourceIP, key, (sb_TTLSeconds req), n, exts. simpl. rewrite Ha, Hb. by repeat split; try apply Httl; try apply Hexts.
Qed.

Lemma entry_attests serial res id now :
  signed (cert_request serial) res →
  ∃ x, sign_response cc req principal exts serial res = ok_json (BSign x) ∧
       attests clients (issuance_row id now (entry_of serial res)) x.
Proof using Hcc.
  intros (sshSigner & nonce & entropy & n & _ & Hs & _ & Hk & Ha & Hb & Hf). eexists. split; [done|].
  exists cc, (certificate_of (cert_request serial) nonce (now_at n)), entropy, sshSigner, (CertBytes res). simpl.
  by rewrite Ha, Hb, Hf, Hk.
Qed.

Lemma issue_wp w :
  signer_db_ok (s_db w) → t_clients (s_db w) = clients →
  wp evolves recorded
    (issue h cc req principal email (ssh_FingerprintSHA256 key) sourceIP exts cert_request) w.
Proof using All.
  intros Hok Hcl. unfold issue. cbv zeta. fold entry_of.
  assert (∀ m w', recorded (internal_error m) w') as Herr by (intros; by apply not_signed_recorded).
  (* recording a signed certificate and answering with it *)
  assert (∀ serial res w', evolves w w' → signed (cert_request serial) res → ∀ i now,
            t_issuance (s_db w') !! i = Some (issuance_row i now (entry_of serial res)) →
            recorded (sign_response cc req principal exts serial res) w') as Hdone.
  { intros serial res w' [Hc _] Hsig i now Hi x Hx. rewrite Hcl in Hc.
    destruct (entry_attests serial res i now Hsig) as (x' & Hresp & Hatt). rewrite Hresp in Hx. injection Hx as <-.
    eexists i, _. split; [exact Hi|]. by rewrite Hc. }
  assert (∀ serial res w', evolves w w' → signed (cert_request serial) res → ∀ id now,
            justified (t_clients (s_db w')) (issuance_row id now (entry_of serial res))) as Hjust.
  { intros serial res w' [-> _] Hsig id now. rewrite Hcl. by apply entry_justified. }
  apply wp_or_reply_silent; [eauto with rg|auto|]. intros serial w1 Hw1.
  apply (wp_or_reply_res (signed (cert_request serial))); [apply SignCertificate_signed|auto|].
  intros res w2 Hw2 Hsig. apply wp_bind; [apply _|].
  assert (evolves w w2) as Hw2' by (by etrans).
  apply LogIssuance_wp; [by eapply evolves_ok|by apply Hjust|..].
  - intros w3 i now Hw3 Hi. apply wp_ret. intros w4 Hw4.
    eapply Hdone; [etrans; [exact Hw2'|]; by etrans|exact Hsig|]. eapply evolves_row; [exact Hw4| |exact Hi].
    eapply evolves_ok; [|exact Hok]. by etrans.
  - intros e w3 Hw3. destruct (negb _); [by apply wp_ret|].
    assert (evolves w w3) as Hw3' by (by etrans).
    apply wp_or_reply_silent; [eauto with rg|auto|]. intros serial' w4 Hw4.
    apply (wp_or_reply_res (signed (cert_request serial'))); [apply SignCertificate_signed|auto|].
    intros res' w5 Hw5 Hsig'. assert (evolves w w5) as Hw5' by (etrans; [exact Hw3'|]; by etrans).
    apply wp_bind; [apply _|]. apply LogIssuance_wp; [by eapply evolves_ok|by apply Hjust|..].
    + intros w6 i now Hw6 Hi. apply wp_ret. intros w7 Hw7.
      eapply Hdone; [etrans; [exact Hw5'|]; by etrans|exact Hsig'|]. eapply evolves_row; [exact Hw7| |exact Hi].
      eapply evolves_ok; [|exact Hok]. by etrans.
    + intros e' w6 Hw6. by apply wp_ret.
Qed.
End issue.

(** ** The handlers *)

Lemma SignHandler_wp h (r : SRequest) w :
  policyEnforcer h = enf → signer_db_ok (s_db w) →
  (∀ cc, q_client r = Some cc → configured (t_clients (s_db w)) cc) →
  wp evolves recorded (SignHandler_Handle h r) w.
Proof.
  intros Henf Hok Hcc. unfold SignHandler_Handle, ClientConfigFromContext.
  assert (∀ m w', recorded (internal_error m) w') as Herr by (intros; by apply not_signed_recorded).
  assert (∀ m w', recorded (invalid_request m) w') as Hinv by (intros; by apply not_signed_recorded).
  destruct (q_client r) as [cc|] eqn:Hq; [|by apply wp_ret]. specialize (Hcc cc eq_refl).
  destruct (decode_body _ _) as [req|]; [|by apply wp_ret]. case_decide; [by apply wp_ret|].
  destruct (principalRegex (sb_Principal req)) eqn:Hp; cbn [negb]; [|by apply wp_ret].
  case_decide; [by apply wp_ret|]. case_decide; [by apply wp_ret|].
  destruct (ParseSSHPublicKey _) as [key|]; [|by apply wp_ret].
  apply (wp_or_reply (λ _, True)).
  { eapply calm_mono; [|apply ValidateAccessToken_silent]. by intros []. }
  { intros [code m status|e] w' _; by apply not_signed_recorded. }
  intros identity w1 Hw1 _. cbv zeta. destruct (Enforce _ _ _ _ _) as [m|] eqn:Hen;
    [apply wp_ret; intros; by apply not_signed_recorded|].
  rewrite Henf in Hen. apply Enforce_None in Hen as (Httl & Hkey & Hsource).
  destruct (ResolveExtensions _ _) as [exts|e] eqn:Hexts; [|by apply wp_ret].
  apply (wp_or_reply (λ v, ValidatedPrincipal v = sb_Principal req)).
  { eapply calm_mono; [|apply (ValidateForClient_grants _ _ _ _ (sb_Principal req))]. by intros []. }
  { intros e w' _. by apply not_signed_recorded. }
  intros v w2 Hw2 Hv. cbv beta zeta. rewrite Hv. apply wp_or_reply_silent; [eauto with rg|intros; by apply not_signed_recorded|].
  intros kp w3 Hw3. assert (evolves w w3) as Hev by (etrans; [exact Hw1|]; by etrans).
  apply (issue_wp h cc req (sb_Principal req) (id_Email identity) key (SourceIPFromContext r) (kp_PrivateKey kp) exts
           (t_clients (s_db w))); try done.
  - intros x Hx. pose proof (ResolveExtensions_subset _ _ _ x Hexts Hx) as (? & ? & _). done.
  - by eapply evolves_ok.
  - apply Hev.
Qed.

Lemma Authenticate_wp id secret (Q : auth_failure + ClientConfig → SWorld → Prop) w :
  (∀ e w', evolves w w' → Q (inl e) w') →
  (∀ cc w', evolves w w' → configured (t_clients (s_db w')) cc → Q (inr cc) w') →
  wp evolves Q (Authenticate id secret) w.
Proof.
  intros HErr HOk. unfold Authenticate. case_decide; [by apply wp_ret; auto|]. case_decide; [by apply wp_ret; auto|].
  destruct (ParseClientID id) as [[t cl]|e]; [|by apply wp_ret; auto].
  unfold GetClientConfig. cbn [try_map mbind Proc_bind trigger wp]. intros w1 Hw1.
  split; [apply evolves_same_db; by apply quiet_step|].
  set (w2 := (do_op _ w1).2). assert (evolves w w2) as Hw2
    by (etrans; [exact Hw1|]; apply evolves_same_db; by apply quiet_step).
  assert (s_db w2 = s_db w1) as Hdb by (by apply quiet_step).
  simpl. destruct (outcome _); [|intros w3 Hw3; apply HErr; by etrans..].
  destruct (valid_text t && (valid_text cl && true)); [|intros w3 Hw3; apply HErr; by etrans].
  unfold select_client. destruct (t_clients (s_db w1) !! (t, cl)) as [row|] eqn:Hrow;
    [|intros w3 Hw3; apply HErr; by etrans].
  destruct (scan_client row) as [cc|e] eqn:Hscan; simpl; intros w3 Hw3; [|apply HErr; by etrans].
  assert (evolves w w3) by (by etrans).
  destruct (bcrypt_CompareHashAndPassword _ _); simpl; [|by apply HErr].
  destruct (Enabled cc) eqn:Hen; simpl; [|by apply HErr].
  apply HOk; [done|]. exists row, (t, cl). split; [|done].
  destruct Hw3 as [-> _]. by rewrite Hdb.
Qed.

(** A process that cannot return a certificate and only reads, or writes to the secrets
    engine. *)
Lemma silent_recorded (p : Proc SResponse) w :
  calm (λ resp, ∀ x, p_body resp ≠ BSign x) p → wp evolves recorded p w.
Proof. intros Hp. eapply wp_quiet; [exact Hp|]. intros resp w' _ Hn. by apply not_signed_recorded. Qed.

Lemma LogRevocation_wp e (Q : Res unit → SWorld → Prop) w :
  (∀ o w', evolves w w' → Q o w') → wp evolves Q (LogRevocation e) w.
Proof.
  intros HQ. cbn [LogRevocation InsertRevocationEvent try_map mbind Proc_bind trigger wp]. intros w1 Hw1.
  pose proof (revocation_step e w1) as Hev. split; [done|].
  destruct (do_op (OExec (insert_revocation e)) w1) as [[[]|err] w2]; simpl in *;
    intros w3 Hw3; apply HQ; (etrans; [exact Hw1|]; by etrans).
Qed.

Lemma RevokeHandler_wp (r : SRequest) w : wp evolves recorded (RevokeHandler_Handle r) w.
Proof.
  unfold RevokeHandler_Handle. destruct (ClientConfigFromContext r) as [cc|];
    [|apply wp_ret; intros; by apply not_signed_recorded].
  destruct (decode_body _ _) as [req|]; [|apply wp_ret; intros; by apply not_signed_recorded].
  case_decide; [apply wp_ret; intros; by apply not_signed_recorded|].
  case_decide; [apply wp_ret; intros; by apply not_signed_recorded|].
  apply wp_bind; [apply _|]. apply LogRevocation_wp.
  intros [] w' _; apply wp_ret; intros; by apply not_signed_recorded.
Qed.

(** ** The other routes *)

Definition no_certificate (resp : SResponse) : Prop := ∀ x, p_body resp ≠ BSign x.

Lemma calm_or_reply_res {A} (P : SResponse → Prop) resp (p : Proc (Res A)) k :
  calm (λ _, True) p → P resp → (∀ a, calm P (k a)) → calm P (or_reply_res resp p k).
Proof. intros Hp Hr Hk. eapply calm_bind; [exact Hp|]. intros [a|e] _; [apply Hk|done]. Qed.

Lemma JWKSHandler_calm c (r : SRequest) : calm no_certificate (JWKSHandler_Handle c r).
Proof.
  unfold JWKSHandler_Handle. destruct (ClientConfigFromContext r) as [cc|]; [|done].
  apply calm_or_reply_res; [eauto with rg|done|]. intros kp.
  destruct (PublicKeyToJWK _) as [[jwk|e]|]; [|done..].
  eapply calm_bind; [eauto with rg|]. intros next _. case_match; [|done]. destruct p as [jwk' fp].
  eapply calm_bind; [eauto with rg|]. intros meta _. done.
Qed.
Lemma CAPublicKeyHandler_calm c (r : SRequest) : calm no_certificate (CAPublicKeyHandler_Handle c r).
Proof.
  unfold CAPublicKeyHandler_Handle. destruct (ClientConfigFromContext r) as [cc|]; [|done].
  apply calm_or_reply_res; [eauto with rg|done|]. intros kp. apply calm_ret.
  destruct (PEMToOpenSSH _); [|done]. by destruct (str_contains _ _).
Qed.
Lemma AdminHandler_calm c (r : SRequest) : calm no_certificate (AdminHandler_Handle c r).
Proof.
  unfold AdminHandler_Handle. destruct (ClientConfigFromContext r) as [cc|]; [|done].
  eapply calm_bind; [eauto with rg|]. intros [[pair|e]|] _; [|done..].
  apply calm_or_reply_res; [eauto with rg|done|]. intros kp. eapply calm_bind; [eauto with rg|]. intros next _.
  eapply (calm_bind (λ _, True)); [by apply calm_trigger|]. done.
Qed.
Lemma HealthHandler_calm (r : SRequest) : calm no_certificate (HealthHandler_Handle r).
Proof.
  assert (∀ name p, calm (λ _, True) p → calm (λ _, True) (check name p)) as Hcheck.
  { intros name p Hp. unfold check. eapply (calm_bind (λ _, True)); [by apply calm_trigger|]. intros start _.
    eapply calm_bind; [exact Hp|]. intros o _. eapply (calm_bind (λ _, True)); [by apply calm_trigger|]. done. }
  unfold HealthHandler_Handle. eapply calm_bind; [apply Hcheck; by apply calm_trigger|]. intros db _.
  eapply calm_bind; [apply Hcheck, Healthy_silent|]. done.
Qed.
Lemma HandleList_calm (r : SRequest) : calm no_certificate (HandleList r).
Proof.
  unfold HandleList. destruct (UserIdentityFromContext r) as [id|]; [|done].
  apply calm_or_reply_res; [|done|done]. unfold ListCertificatesByEmail. calm_auto.
Qed.
Lemma HandleGet_calm (r : SRequest) : calm no_certificate (HandleGet r).
Proof.
  unfold HandleGet. destruct (UserIdentityFromContext r) as [id|]; [|done].
  destruct (ParseInt _) as [serial|]; [|done]. eapply (calm_bind (λ _, True)).
  { unfold GetCertificateBySerial. calm_auto. }
  intros [cert|e] _; apply calm_ret; [by case_decide|by destruct (str_contains _ _)].
Qed.
Lemma UserInfoHandler_calm (r : SRequest) : calm no_certificate (UserInfoHandler_Handle r).
Proof. unfold UserInfoHandler_Handle. apply calm_ret. by destruct (UserIdentityFromContext r). Qed.

(** The same process with a function applied to what it returns. *)
Lemma wp_fmap {A B} (f : A → B) (Q : B → SWorld → Prop) (p : Proc A) w :
  wp evolves (λ a, Q (f a)) p w → wp evolves Q (a ← p; mret (f a)) w.
Proof.
  revert w. induction p as [a|X op k IH]; simpl; intros w Hp; [done|]. intros w' Hw.
  destruct (Hp w' Hw) as [Hs Hk]. split; [done|]. by apply IH.
Qed.

Lemma wp_add_headers hs p w : wp evolves recorded p w → wp evolves recorded (add_headers hs p) w.
Proof. intros Hp. apply wp_fmap. eapply wp_mono; [apply _| |exact Hp]. by intros resp w' _ Hr. Qed.

(** ** The server *)

Section server.
Context `{CM : ChiMux} (promhttp_Handler : SRequest → Proc SResponse).
(** The metrics library writes text and touches nothing of the signer. *)
Hypothesis promhttp_calm : ∀ q : SRequest, calm no_certificate (promhttp_Handler q).

Lemma ClientAuth_wp (next : SRequest → Proc SResponse) (r : SRequest) w :
  signer_db_ok (s_db w) →
  (∀ cc w', evolves w w' → configured (t_clients (s_db w')) cc →
     wp evolves recorded (next (WithClientConfig cc r)) w') →
  wp evolves recorded (ClientAuthMiddleware next r) w.
Proof.
  intros Hok Hnext. apply wp_bind; [apply _|]. apply Authenticate_wp.
  - intros e w' _. apply wp_ret. intros w'' _. apply not_signed_recorded. by destruct e.
  - intros cc w' Hw Hcc. by apply Hnext.
Qed.

Lemma BearerAuth_wp v (next : SRequest → Proc SResponse) (r : SRequest) w :
  (∀ q', calm no_certificate (next q')) → wp evolves recorded (BearerAuthMiddleware v next r) w.
Proof.
  intros Hnext. apply silent_recorded. unfold BearerAuthMiddleware. cbv zeta.
  case_decide; [done|]. destruct (negb _); [done|]. case_decide; [done|].
  eapply calm_bind; [apply ValidateAccessToken_silent|]. intros [e|id] _; [by destruct e|apply Hnext].
Qed.

Lemma runServer_wp cfg (r : SRequest) w :
  enf = policyEnforcer (sign_handler cfg) → signer_db_ok (s_db w) →
  wp evolves recorded (runServer promhttp_Handler cfg r) w.
Proof using promhttp_calm.
  intros Henf Hok. unfold runServer, NewRouter.
  set (inner := SecurityHeadersMiddleware _).
  assert (∀ r' : SRequest, wp evolves recorded (inner r') w) as Hinner.
  { intros r'. subst inner. apply wp_add_headers. unfold SourceIPMiddleware, BodyLimitMiddleware.
    case_match; [apply wp_ret; intros; by apply not_signed_recorded|].
    generalize (with_body (match q_body (WithSourceIP (extractSourceIP r') r') with
                           | Some (v, stop) => if (stop <=? 1048576)%Z then Some (v, stop) else None
                           | None => None
                           end) (WithSourceIP (extractSourceIP r') r')). intros q.
    unfold dispatch. destruct (chi_route _ _ _) as [n| |];
      [|apply wp_ret; intros; by apply not_signed_recorded..].
    destruct (route_entries _ _ _ _ !! n) as [[[m path] handler]|] eqn:Hn;
      [|apply wp_ret; intros; by apply not_signed_recorded].
    apply list_elem_of_lookup_2 in Hn. unfold route_entries in Hn. rewrite !elem_of_app in Hn.
    assert (∀ next, (∀ q', calm no_certificate (next q')) →
              wp evolves recorded (ClientAuthMiddleware next q) w) as Hsilent.
    { intros next Hnext. apply ClientAuth_wp; [done|]. intros cc w' _ _. by apply silent_recorded. }
    destruct Hn as [Hn|[Hn|Hn]].
    - apply list_elem_of_singleton in Hn as [= _ _ ->]. apply silent_recorded, HealthHandler_calm.
    - destruct (cfg_Metrics cfg); [|by apply not_elem_of_nil in Hn].
      apply list_elem_of_singleton in Hn as [= _ _ ->]. by apply silent_recorded.
    - rewrite !elem_of_cons, elem_of_nil in Hn. simpl in Hn.
      destruct Hn as [[= _ _ ->]|[[= _ _ ->]|[[= _ _ ->]|[[= _ _ ->]|[[= _ _ ->]|[[= _ _ ->]|[[= _ _ ->]|[[= _ _ ->]|[]]]]]]]]].
      + apply ClientAuth_wp; [done|]. intros cc w' Hw Hcc. apply SignHandler_wp; [done|by eapply evolves_ok|].
        by intros ? [= <-].
      + apply ClientAuth_wp; [done|]. intros cc w' _ _. apply RevokeHandler_wp.
      + apply Hsilent, JWKSHandler_calm.
      + apply Hsilent, CAPublicKeyHandler_calm.
      + apply Hsilent, AdminHandler_calm.
      + apply BearerAuth_wp, HandleList_calm.
      + apply BearerAuth_wp, HandleGet_calm.
      + apply BearerAuth_wp, UserInfoHandler_calm. }
  destruct (cors_Enabled _); [|apply Hinner]. unfold CORSMiddleware. cbv zeta.
  case_decide; [apply wp_ret; intros; by apply not_signed_recorded|]. by apply wp_add_headers.
Qed.
End server.
End log.

(** ** The runs of the server *)

Section main.
Context `{SE : SecretsEngine} `{CR : Crypto} `{JL : JwtLib} `{EV : !SignerEnv} `{CM : ChiMux}.
Context (promhttp_Handler : SRequest → Proc SResponse) (cfg : Config).
Implicit Types (w : SWorld).

(** A request arrives: a new process of the server. *)
Definition serves (p : Proc SResponse) : Prop := ∃ r, p = runServer promhttp_Handler cfg r.

(** From the start of the server: the requests so far and the state they reached. *)
Definition reachable_from w0 (s : list (Proc SResponse) * SWorld) : Prop := rtc (pool_step serves) ([], w0) s.

Lemma server_pool w0 ps w :
  (∀ q, calm no_certificate (promhttp_Handler q)) → signer_db_ok (s_db w0) → reachable_from w0 (ps, w) →
  evolves (policyEnforcer (sign_handler cfg)) w0 w ∧
  Forall (λ p, wp (evolves (policyEnforcer (sign_handler cfg))) recorded p w) ps.
Proof.
  intros Hprom Hok Hrun. set (enf := policyEnforcer (sign_handler cfg)).
  apply (wp_pool (evolves enf) serves (λ w, signer_db_ok (s_db w)) recorded) in Hrun; try done.
  - intros w1 w2. apply evolves_ok.
  - intros p w1 [r ->] Hok1. by apply runServer_wp.
Qed.

(** The lifetime of a certificate of the log. *)
Definition lifetime (r : IssuanceRow) : Z := (ir_valid_before r - ir_valid_after r)%Z.

(** What the log says of a certificate: who asked for it, and that it is within the policy
    of that client. *)
Definition allowed_row (clients : gmap (string * string) ClientRow) (r : IssuanceRow) : Prop :=
  ∃ cc sourceIP key exts,
    configured clients cc ∧ ir_tenant_id r = TenantID cc ∧ ir_client_id r = ClientID cc ∧
    principalRegex (ir_principal r) = true ∧
    ir_source_ip r = Some sourceIP ∧ source_allowed cc sourceIP ∧
    ir_public_key_fingerprint r = ssh_FingerprintSHA256 key ∧
    key_type_allowed (policyEnforcer (sign_handler cfg)) cc key ∧
    (0 < lifetime r ≤ effective_max_ttl (policyEnforcer (sign_handler cfg)) cc * second)%Z ∧
    ir_granted_extensions r = marshal_strings exts ∧
    (∀ x, x ∈ exts → x ∈ AllStandardExtensions ∧ x ∉ DeniedExtensions cc).

(** The clock is after 1970 and within 62 bits of seconds. *)
Definition sane_clock : Prop := ∀ n, (0 ≤ Unix (now_at n) < 2 ^ 62)%Z.
(** No client may ask for more than 62 bits of seconds. *)
Definition sane_ttls (clients : gmap (string * string) ClientRow) : Prop :=
  ∀ cc, configured clients cc → (effective_max_ttl (policyEnforcer (sign_handler cfg)) cc < 2 ^ 62)%Z.

Lemma justified_allowed clients r :
  sane_clock → sane_ttls clients → justified (policyEnforcer (sign_handler cfg)) clients r → allowed_row clients r.
Proof.
  intros Hclock Httls (cc & src & key & ttl & n & exts & Hcc & Ht & Hc & Hp & Hs & Hsa & Hf & Hk & Httl & Ha & Hb & He & Hx).
  exists cc, src, key, exts. do 8 (split; [done|]). split; [|done]. specialize (Hclock n). specialize (Httls cc Hcc).
  assert (∀ z, (0 ≤ z < 2 ^ 63)%Z → wrapu64 z = z ∧ wrap64 z = z) as Hwrap.
  { intros z Hz. unfold wrapu64, wrap64. rewrite !Z.mod_small by lia. lia. }
  unfold lifetime. rewrite Ha, Hb.
  destruct (Hwrap (Unix (now_at n))) as [Hu1 Hu2]; [lia|]. destruct (Hwrap ttl) as [Ht1 _]; [lia|].
  destruct (Hwrap (Unix (now_at n) + ttl)%Z) as [Hv1 Hv2]; [lia|].
  rewrite Hu1, Ht1, Hv1, Hv2, Hu2. unfold second. lia.
Qed.

(** C15: no certificate without a record. Whatever requests are served at the same time,
    in whatever interleaving, and whichever database and secrets engine calls fail: if a
    request was answered with a certificate, the issuance log holds a row with its serial
    number, principal, validity, key, CA and extensions, these are the ones inside the
    signed certificate, and the critical options are those of the client and the request. *)
Theorem certificates_recorded w0 ps w resp x :
  (∀ q, calm no_certificate (promhttp_Handler q)) → signer_db_ok (s_db w0) → reachable_from w0 (ps, w) →
  Ret resp ∈ ps → p_body resp = BSign x →
  ∃ i r, t_issuance (s_db w) !! i = Some r ∧ attests (t_clients (s_db w)) r x.
Proof.
  intros Hprom Hok Hrun Hin Hx. destruct (server_pool w0 ps w Hprom Hok Hrun) as [_ Hps].
  apply list_elem_of_lookup in Hin as [i Hi]. pose proof (proj1 (Forall_lookup _ _) Hps i _ Hi) as Hr.
  by apply (Hr w); [reflexivity|].
Qed.

(** C16: the issuance log. Under the same conditions the log only grows: rows are neither
    changed nor removed, serial numbers stay unique, and every row added is for an enabled
    client of the table, whose policy it satisfies: the lifetime is positive and at most the
    maximum, the key type is allowed, the source address is in the block of the client, the
    extensions are standard and not denied, the principal has the form of a user name. *)
Theorem issuance_log_policy w0 ps w :
  (∀ q, calm no_certificate (promhttp_Handler q)) → signer_db_ok (s_db w0) →
  sane_clock → sane_ttls (t_clients (s_db w0)) → reachable_from w0 (ps, w) →
  signer_db_ok (s_db w) ∧ t_clients (s_db w) = t_clients (s_db w0) ∧
  t_issuance (s_db w0) ⊆ t_issuance (s_db w) ∧ t_revocations (s_db w0) ⊆ t_revocations (s_db w) ∧
  ∀ i r, t_issuance (s_db w) !! i = Some r →
    t_issuance (s_db w0) !! i = Some r ∨ allowed_row (t_clients (s_db w0)) r.
Proof.
  intros Hprom Hok Hclock Httls Hrun. destruct (server_pool w0 ps w Hprom Hok Hrun) as [[Hc Hev] _].
  destruct (Hev Hok) as (Hok' & Hi & Hr & Hnew). do 4 (split; [done|]). intros i r Hir.
  destruct (Hnew i r Hir) as [|Hj]; [auto|]. right. by apply justified_allowed.
Qed.
End main.
