(* ===== verification/SignerSerial.v ===== *)
(** * Metadata and serial numbers

    The metadata of a CA is read back as it was written; serial numbers handed out by
    concurrent requests are distinct as long as the metadata is there and is not
    rewritten by a rotation. *)

From stdpp Require Import base gmap sets list strings.
From Stdlib Require Import ZArith Ascii Lia.
From S2P Require Import Prelude GoError Models Wire SignerText Rfc3339 SignerStore SignerEffects.
From S2P Require Import SignerLogic SignerVault.

Local Open Scope Z_scope.

(** ** Numbers *)

Lemma in_int64_spec z : in_int64 z = true ↔ min_int64 ≤ z ≤ max_int64.
Proof. unfold in_int64. by rewrite andb_true_iff, !Z.leb_le. Qed.

Lemma wrap64_id z : in_int64 z = true → wrap64 z = z.
Proof.
  rewrite in_int64_spec. unfold wrap64, min_int64, max_int64. intros Hz.
  rewrite Z.mod_small by lia. lia.
Qed.

Lemma wrap64_int64 z : in_int64 (wrap64 z) = true.
Proof.
  rewrite in_int64_spec. unfold wrap64, min_int64, max_int64.
  pose proof (Z.mod_pos_bound (z + 2 ^ 63) (2 ^ 64)). lia.
Qed.

(** A number in range that was printed is read back, whatever ParseInt reports. *)
Lemma ParseInt_value_FormatInt z : in_int64 z = true → ParseInt_value (FormatInt z) = z.
Proof.
  intros Hz. pose proof (ParseInt_FormatInt z Hz) as Hp. unfold ParseInt in Hp. unfold ParseInt_value.
  destruct (FormatInt z) as [|c s]; [done|].
  destruct (if decide (c = "-"%char) then Z.opp <$> unsigned s
            else if decide (c = "+"%char) then unsigned s else unsigned (String c s)) as [v|]; [|done].
  simpl in Hp. destruct (in_int64 v); [|done]. injection Hp as ->.
  apply in_int64_spec in Hz. unfold min_int64, max_int64 in *. lia.
Qed.

Lemma ParseInt_value_int64 s : in_int64 (ParseInt_value s) = true.
Proof.
  unfold ParseInt_value. destruct s as [|c s]; [done|].
  destruct (if decide _ then _ else _) as [v|]; [|done].
  apply in_int64_spec. unfold min_int64, max_int64. lia.
Qed.

Lemma float_to_int64_int64 x : in_int64 (float_to_int64 x) = true.
Proof.
  unfold float_to_int64. destruct x as [| | |sign m e]; try done. cbv zeta.
  generalize (if sign then - (if 0 <=? e then Z.pos m * 2 ^ e else Z.pos m / 2 ^ (- e))
              else if 0 <=? e then Z.pos m * 2 ^ e else Z.pos m / 2 ^ (- e)).
  intros z. by destruct (in_int64 z) eqn:E.
Qed.

(** ** The metadata of a CA *)

Definition metadata_ok (m : CAMetadata) : Prop :=
  in_int64 (SerialCounter m) = true ∧ in_int64 (RotationPeriodH m) = true ∧ in_int64 (OverlapHours m) = true.

Lemma metadata_of_ok data : metadata_ok (metadata_of data).
Proof.
  assert (∀ key, in_int64 (num_at key data) = true) as Hn.
  { intros key. unfold num_at. destruct (data !! key) as [[]|]; try done.
    - apply ParseInt_value_int64.
    - apply float_to_int64_int64. }
  by repeat split; apply Hn.
Qed.

Lemma metadata_read_back m : metadata_ok m → metadata_of (metadata_data m) = m.
Proof.
  intros (Hs & Hp & Ho). destruct m as [serial last next period overlap]. simpl in *.
  unfold metadata_of, num_at, str_at, metadata_data.
  cbn [SerialCounter LastRotationAt NextRotationAt RotationPeriodH OverlapHours].
  repeat first [rewrite lookup_insert_eq | rewrite lookup_insert_ne by done].
  by rewrite !ParseInt_value_FormatInt.
Qed.

Lemma key_read_back kp : key_of (key_data kp) = kp.
Proof.
  destruct kp as [priv pub alg created]. unfold key_of, str_at, key_data.
  cbn [kp_PrivateKey kp_PublicKey kp_Algorithm kp_CreatedAt].
  by repeat first [rewrite lookup_insert_eq | rewrite lookup_insert_ne by done].
Qed.

(** The steps of a process, and nothing inside the values. *)
Ltac proc_cbn := cbn [proc_step do_op mbind Proc_bind mret Proc_ret fst snd].

Section serial.
Context `{SE : SecretsEngine} `{CR : Crypto} `{JL : JwtLib} `{EV : !SignerEnv} `{KL : !KVLaws}.
Context (c : Client) (t cl : string).

Definition path : string := metadata_path c t cl.

(** The counter and the version that are stored. *)
Definition stored (w : SWorld) (k : Z) (v : nat) : Prop :=
  ∃ data, kv_read path (s_vault w) = Some (data, v) ∧ SerialCounter (metadata_of data) = k.

(** An increment that has read the metadata. *)
Definition inc_write (meta : CAMetadata) (version : nat) : Proc (Res Z) :=
  let newSerial := wrap64 (SerialCounter meta + 1) in
  _ ←? writeMetadataCAS c t cl (with_serial newSerial meta) version; mret (Ok newSerial).

(** The first step: the metadata is read. *)
Lemma inc_read w k v p' w' :
  stored w k v → proc_step (IncrementSerialCounter c t cl) w = Some (p', w') →
  s_vault w' = s_vault w ∧
  ((∃ e, p' = Ret (Err e)) ∨ ∃ meta, metadata_ok meta ∧ SerialCounter meta = k ∧ p' = inc_write meta v).
Proof.
  intros (data & Hr & Hk). unfold path in Hr.
  unfold IncrementSerialCounter, readMetadataWithVersion, try_map, trigger. proc_cbn.
  destruct (outcome (s_io w)); proc_cbn.
  - rewrite Hr. intros [= <- <-]. split; [done|]. right. exists (metadata_of data).
    split; [apply metadata_of_ok|]. done.
  - intros [= <- <-]. split; [done|]. left. by eexists.
  - intros [= <- <-]. split; [done|]. left. by eexists.
Qed.

(** The second step: the write succeeds only if nobody else has written since. *)
Lemma inc_cas w k v meta version p' w' :
  stored w k v → metadata_ok meta → proc_step (inc_write meta version) w = Some (p', w') →
  (s_vault w' = s_vault w ∧ ∃ e, p' = Ret (Err e)) ∨
  (version = v ∧ stored w' (wrap64 (SerialCounter meta + 1)) (S v) ∧
   (p' = Ret (Ok (wrap64 (SerialCounter meta + 1))) ∨ ∃ e, p' = Ret (Err e))).
Proof using KL.
  intros (data & Hr & Hk) (Hm & Hp & Ho). unfold inc_write, writeMetadataCAS, try_map, trigger. proc_cbn.
  fold path. set (data' := metadata_data _). assert (metadata_ok (with_serial (wrap64 (SerialCounter meta + 1)) meta)) as Hmok
    by (split; [apply wrap64_int64|done]).
  destruct (outcome (s_io w)); [| |].
  1: destruct (kv_write path (Some version) data' (s_vault w)) as [s'|] eqn:Hw; proc_cbn; intros [= <- <-];
       [right|left; split; [done|by eexists]].
  2: proc_cbn; intros [= <- <-]; left; split; [done|by eexists].
  2: destruct (kv_write path (Some version) data' (s_vault w)) as [s'|] eqn:Hw; proc_cbn; intros [= <- <-];
       [right|left; split; [done|by eexists]].
  all: assert (version = kv_version path (s_vault w)) as Hver
         by (apply (kv_write_cas path version data'); by rewrite Hw).
  all: assert (kv_version path (s_vault w) = v) as Hv by (unfold kv_version; by rewrite Hr).
  all: rewrite Hv in Hver; subst version.
  all: pose proof (kv_read_written _ _ _ _ _ Hw) as Hr'; rewrite Hv in Hr'.
  all: split; [done|]; split; [|by eauto].
  all: exists data'; split; [exact Hr'|]; subst data'; by rewrite metadata_read_back.
Qed.

(** ** Any number of concurrent increments *)

Definition inc_start (p : Proc (Res Z)) : Prop := p = IncrementSerialCounter c t cl.

Definition is_ret {A} (p : Proc A) : bool := match p with Ret _ => true | Vis _ _ => false end.
Fixpoint returned {A} (ps : list (Proc A)) : nat :=
  match ps with [] => O | p :: ps' => ((if is_ret p then 1 else 0) + returned ps')%nat end.

Lemma returned_insert {A} (ps : list (Proc A)) i p p' :
  ps !! i = Some p → is_ret p = false →
  returned (<[i := p']> ps) = (returned ps + if is_ret p' then 1 else 0)%nat ∧ (returned ps < length ps)%nat.
Proof.
  assert (∀ ps : list (Proc A), (returned ps ≤ length ps)%nat) as Hle.
  { clear. induction ps as [|p ps IH]; simpl; [lia|]. destruct (is_ret p); lia. }
  revert i. induction ps as [|q ps IH]; intros [|i]; simpl; try done.
  - intros [= ->] ->. specialize (Hle ps). destruct (is_ret p'); lia.
  - intros Hi Hp. destruct (IH i Hi Hp) as [-> ?]. destruct (is_ret q); lia.
Qed.

(** Where a process is, when the counter is [k] at version [v]. *)
Inductive phase (n0 k : Z) (v : nat) : Proc (Res Z) → Prop :=
  | PStart : phase n0 k v (IncrementSerialCounter c t cl)
  | PRead meta version : metadata_ok meta → (version ≤ v)%nat → (version = v → SerialCounter meta = k) →
      phase n0 k v (inc_write meta version)
  | PFailed e : phase n0 k v (Ret (Err e))
  | PDone n : n0 < n ≤ k → phase n0 k v (Ret (Ok n)).

Definition counting (n0 : Z) (s : list (Proc (Res Z)) * SWorld) : Prop :=
  ∃ k v, stored s.2 k v ∧ n0 ≤ k ≤ n0 + Z.of_nat (returned s.1) ∧
    (∀ i p, s.1 !! i = Some p → phase n0 k v p) ∧
    ∀ i j n, s.1 !! i = Some (Ret (Ok n)) → s.1 !! j = Some (Ret (Ok n)) → i = j.

(** A version more: what has been read is stale. *)
Lemma phase_next n0 k v p k' : phase n0 k v p → k ≤ k' → phase n0 k' (S v) p.
Proof.
  intros [|meta ver Hm Hv Hk|e|n Hn] Hle; constructor; try done; try lia.
Qed.

Lemma stored_same w w' k v : s_vault w' = s_vault w → stored w k v → stored w' k v.
Proof. unfold stored. by intros ->. Qed.

Lemma counting_step n0 s s' :
  pool_step inc_start s s' → min_int64 ≤ n0 → n0 + Z.of_nat (length s.1) ≤ max_int64 →
  counting n0 s → counting n0 s'.
Proof using KL.
  intros Hstep Hmin Hmax (k & v & Hst & Hk & Hph & Hinj).
  destruct Hstep as [ps i p p' w w' Hi Hp|ps p w ->]; cbn [fst snd] in *.
  2:{ exists k, v. cbn [fst snd]. split; [done|]. split.
      { assert (returned (ps ++ [IncrementSerialCounter c t cl]) = returned ps) as ->; [|done].
        clear. induction ps as [|q ps IH]; [done|]. cbn [app returned]. by rewrite IH. }
      split.
      - intros i p Hi. apply lookup_snoc_Some in Hi as [[_ Hi]|[_ <-]]; [eauto|constructor].
      - intros i j n Hi Hj. apply lookup_snoc_Some in Hi as [[_ Hi]|[_ Hi]]; [|done].
        apply lookup_snoc_Some in Hj as [[_ Hj]|[_ Hj]]; [eauto|done]. }
  (* the processes other than [i] keep their phase; what [i] returns is new *)
  assert (∀ k' v', stored w' k' v' → n0 ≤ k' ≤ n0 + Z.of_nat (returned (<[i := p']> ps)) →
    (∀ q, phase n0 k v q → phase n0 k' v' q) → phase n0 k' v' p' →
    (∀ n, p' = Ret (Ok n) → k < n) → counting n0 (<[i := p']> ps, w')) as Hdone.
  { intros k' v' Hst' Hk' Hmono Hp' Hnew. exists k', v'. split; [done|]. split; [done|]. cbn [fst snd]. split.
    - intros j q Hj. apply list_lookup_insert_Some in Hj as [(_ & <- & _)|[_ Hj]]; [done|eauto].
    - assert (∀ j n, ps !! j = Some (Ret (Ok n)) → p' ≠ Ret (Ok n)) as Hfresh.
      { intros j n Hj ->. specialize (Hnew n eq_refl). pose proof (Hph j _ Hj) as Hphase.
        inversion Hphase; lia. }
      intros j j' n Hj Hj'. apply list_lookup_insert_Some in Hj as [(<- & -> & _)|[_ Hj]].
      + apply list_lookup_insert_Some in Hj' as [(<- & _ & _)|[_ Hj']]; [done|]. by destruct (Hfresh j' n).
      + apply list_lookup_insert_Some in Hj' as [(<- & -> & _)|[_ Hj']]; [by destruct (Hfresh j n)|eauto]. }
  assert (is_ret p = false) as Hnr by (by destruct p).
  destruct (returned_insert ps i p p' Hi Hnr) as [Hret Hlen]. rewrite Hret in Hdone.
  destruct (Hph i p Hi) as [|meta ver Hm Hver Hcur|e|n Hn]; [| |done..].
  - destruct (inc_read _ _ _ _ _ Hst Hp) as [Hv [[e ->]|(meta & Hm & Hk' & ->)]].
    + apply (Hdone k v); [by eapply stored_same|simpl; lia|done|constructor|done].
    + apply (Hdone k v); [by eapply stored_same|destruct (is_ret _); lia|done|by constructor|done].
  - destruct (inc_cas _ _ _ _ _ _ _ Hst Hm Hp) as [[Hv [e ->]]|(-> & Hst' & Hp')].
    + apply (Hdone k v); [by eapply stored_same|simpl; lia|done|constructor|done].
    + specialize (Hcur eq_refl). rewrite Hcur in *.
      assert (wrap64 (k + 1) = k + 1) as Hw by (apply wrap64_id, in_int64_spec; lia). rewrite Hw in *.
      assert (∀ q, phase n0 k v q → phase n0 (k + 1) (S v) q) as Hmono
        by (intros q Hq; apply (phase_next n0 k v); [done|lia]).
      destruct Hp' as [->|[e ->]].
      * apply (Hdone (k + 1) (S v)); [done|simpl; lia|done|constructor; lia|intros n [= <-]; lia].
      * apply (Hdone (k + 1) (S v)); [done|simpl; lia|done|constructor|done].
Qed.

Lemma pool_length {A} start (s s' : list (Proc A) * SWorld) :
  pool_step start s s' → (length s.1 ≤ length s'.1)%nat.
Proof. intros []; simpl; [by rewrite length_insert|rewrite length_app; simpl; lia]. Qed.

Lemma counting_run n0 s s' :
  rtc (pool_step inc_start) s s' → min_int64 ≤ n0 → n0 + Z.of_nat (length s'.1) ≤ max_int64 →
  counting n0 s → counting n0 s'.
Proof using KL.
  intros Hrun Hmin Hmax Hs. revert Hmax. induction Hrun as [s'|s1 s2 s3 Hstep Hrest IH]; [done|].
  intros Hmax. assert (length s2.1 ≤ length s3.1)%nat as Hlen.
  { clear -Hrest. induction Hrest as [|? ? ? Hst _ IH]; [done|]. apply pool_length in Hst. lia. }
  pose proof (pool_length _ _ _ Hstep). apply IH; [|done]. eapply counting_step; [done|done|lia|done].
Qed.

(** C18: serial numbers under concurrency. In any interleaving of any number of increments
    of the counter of a client, with any failures, including writes whose answer is lost,
    the serials returned are pairwise distinct, greater than the counter at the start and
    at most the counter at the end, provided the metadata exists and the counter does not
    overflow. *)
Theorem serials_distinct w0 n0 v0 ps w :
  stored w0 n0 v0 → min_int64 ≤ n0 → n0 + Z.of_nat (length ps) ≤ max_int64 →
  rtc (pool_step inc_start) ([], w0) (ps, w) →
  ∃ k v, stored w k v ∧
    (∀ i n, ps !! i = Some (Ret (Ok n)) → n0 < n ≤ k) ∧
    ∀ i j n, ps !! i = Some (Ret (Ok n)) → ps !! j = Some (Ret (Ok n)) → i = j.
Proof using KL.
  intros Hst Hmin Hmax Hrun.
  destruct (counting_run n0 ([], w0) (ps, w) Hrun Hmin Hmax) as (k & v & Hst' & Hk & Hph & Hinj).
  { exists n0, v0. split; [done|]. simpl. split; [lia|]. by split. }
  exists k, v. split; [done|]. split; [|done]. intros i n Hi. specialize (Hph i _ Hi). by inversion Hph.
Qed.
End serial.
