(* ===== verification/SignerKeys.v ===== *)
(** * Keys, addresses and names of the signer

    The loop over the exponent of an RSA key ends and yields its bytes; a JWK determines
    the key it was made from; the policy in terms of addresses as numbers; client names. *)

From stdpp Require Import base gmap sets list strings.
From Stdlib Require Import ZArith Ascii Lia.
From S2P Require Import Prelude GoError Models Wire SignerText Rfc3339 SignerStore SignerEffects SignerPolicy.
From S2P Require Import SignerVault SignerAuth SignerLogic SignerHandlers SignerServer.

Local Open Scope Z_scope.

(** ** Big-endian numbers *)

Fixpoint be_value (acc : Z) (s : string) : Z :=
  match s with
  | EmptyString => acc
  | String c s' => be_value (acc * 256 + byte_of c) s'
  end.

Definition no_leading_zero (s : string) : Prop :=
  match s with String c _ => byte_of c ≠ 0 | EmptyString => True end.

Lemma low_byte e : byte_of (ascii_of_nat (Z.to_nat (Z.land e 255))) = e mod 256.
Proof.
  change 255 with (Z.ones 8). rewrite Z.land_ones by lia. change (2 ^ 8) with 256.
  pose proof (Z.mod_pos_bound e 256). unfold byte_of.
  rewrite nat_ascii_embedding by lia. lia.
Qed.

(** With one iteration per byte the loop reaches zero, more change nothing, and the bytes
    read back as the number. *)
Lemma exponent_loop_enough (n : nat) e s :
  e < 2 ^ (8 * Z.of_nat n) →
  (exponent_loop n e s).1 ≤ 0 ∧
  (∀ fuel, (n ≤ fuel)%nat → exponent_loop fuel e s = exponent_loop n e s) ∧
  (0 ≤ e → be_value 0 (exponent_loop n e s).2 = be_value e s) ∧
  (0 < e ∨ no_leading_zero s → no_leading_zero (exponent_loop n e s).2).
Proof.
  revert e s. induction n as [|n IH]; intros e s He.
  - simpl in *. split; [lia|]. split.
    + intros fuel _. destruct fuel as [|fuel]; [done|]. simpl.
      by replace (0 <? e) with false by (symmetry; apply Z.ltb_ge; lia).
    + split; [intros; by replace e with 0 by lia|]. intros [|]; [lia|done].
  - cbn [exponent_loop]. destruct (0 <? e) eqn:E; [apply Z.ltb_lt in E|apply Z.ltb_ge in E].
    + set (c := ascii_of_nat _). assert (Z.shiftr e 8 = e / 256) as Hs by (by rewrite Z.shiftr_div_pow2 by lia).
      assert (byte_of c = e mod 256) as Hc by apply low_byte.
      pose proof (Z.div_mod e 256). pose proof (Z.mod_pos_bound e 256).
      assert (e / 256 < 2 ^ (8 * Z.of_nat n)) as Hlt.
      { apply Z.div_lt_upper_bound; [lia|]. replace (8 * Z.of_nat (S n)) with (8 + 8 * Z.of_nat n) in He by lia.
        rewrite Z.pow_add_r in He by lia. lia. }
      assert (0 ≤ e / 256) as Hpos by (apply Z.div_pos; lia).
      rewrite Hs. destruct (IH (e / 256) (String c s) Hlt) as (H1 & H2 & H3 & H4).
      split; [done|]. split.
      * intros [|fuel] Hf; [lia|]. cbn [exponent_loop].
        replace (0 <? e) with true by (symmetry; by apply Z.ltb_lt). fold c. rewrite Hs. apply H2. lia.
      * split; [intros _; rewrite H3 by done; cbn [be_value]; f_equal; lia|].
        intros _. apply H4. destruct (decide (0 < e / 256)); [auto|]. right. simpl. lia.
    + split; [done|]. split.
      * intros [|fuel] _; [done|]. cbn [exponent_loop].
        by replace (0 <? e) with false by (symmetry; by apply Z.ltb_ge).
      * split; [intros; by replace e with 0 by lia|]. intros [|]; [lia|done].
Qed.

(** C39: the loop of [PublicKeyToJWK] over the exponent ends. For every 64-bit exponent the
    loop stops after at most eight iterations (more change nothing), and for a positive one
    the bytes it leaves are the big-endian representation of the exponent, without a leading
    zero. *)
Theorem exponent_loop_terminates e :
  e ≤ max_int64 →
  (exponent_loop 8 e "").1 ≤ 0 ∧
  (∀ fuel, (8 ≤ fuel)%nat → exponent_loop fuel e "" = exponent_loop 8 e "") ∧
  (0 ≤ e → be_value 0 (exponent_bytes e) = e) ∧ no_leading_zero (exponent_bytes e).
Proof.
  intros He. unfold max_int64 in He.
  destruct (exponent_loop_enough 8 e "") as (H1 & H2 & H3 & H4); [simpl; lia|].
  do 3 (split; [done|]). apply H4. by right.
Qed.

(** ** JWKs *)

Fixpoint strip_zeros (s : string) : string :=
  match s with
  | EmptyString => EmptyString
  | String c s' => if decide (byte_of c = 0) then strip_zeros s' else s
  end.

Definition curve_bits (crv : string) : option Z :=
  if decide (crv = "P-256") then Some 256 else if decide (crv = "P-384") then Some 384
  else if decide (crv = "P-521") then Some 521 else None.

Definition base64url (name : string) (j : gmap string string) : option string := j !! name ≫= unbase64 url_alphabet.

(** The key a JWK stands for. *)
Definition jwk_public (j : gmap string string) : option PublicKey :=
  kty ← j !! "kty";
  if decide (kty = "OKP") then
    crv ← j !! "crv"; x ← base64url "x" j; if decide (crv = "Ed25519") then Some (PubEd25519 x) else None
  else if decide (kty = "EC") then
    bits ← j !! "crv" ≫= curve_bits; x ← base64url "x" j; y ← base64url "y" j;
    Some (PubECDSA bits (strip_zeros x) (strip_zeros y))
  else if decide (kty = "RSA") then
    n ← base64url "n" j; e ← base64url "e" j; Some (PubRSA n (be_value 0 e))
  else None.

(** Keys as the libraries hand them over: coordinates without leading zeros, on a curve that has
    an SSH key type, an exponent that is not negative. *)
Definition key_ok (k : PublicKey) : Prop :=
  match k with
  | PubEd25519 _ => True
  | PubECDSA bits X Y =>
      (bits = 256 ∨ bits = 384 ∨ bits = 521) ∧ no_leading_zero X ∧ no_leading_zero Y ∧
      (String.length X ≤ Z.to_nat ((bits + 7) / 8))%nat ∧ (String.length Y ≤ Z.to_nat ((bits + 7) / 8))%nat
  | PubRSA _ E => 0 ≤ E ≤ max_int64
  | PubOther _ => True
  end.

Lemma strip_zero_bytes n s : strip_zeros (zero_bytes n +:+ s) = strip_zeros s.
Proof.
  induction n as [|n IH]; [done|].
  change (zero_bytes (S n) +:+ s) with (String (ascii_of_nat 0) (zero_bytes n +:+ s)).
  cbn [strip_zeros]. by rewrite decide_True.
Qed.
Lemma strip_no_leading_zero s : no_leading_zero s → strip_zeros s = s.
Proof. destruct s as [|c s]; [done|]. simpl. intros Hc. by rewrite decide_False. Qed.
Lemma pad_left_strip n s padded :
  pad_left n s = Some padded → no_leading_zero s → strip_zeros padded = s.
Proof.
  unfold pad_left. case_decide; [|done]. intros [= <-] Hs. rewrite strip_zero_bytes. by apply strip_no_leading_zero.
Qed.

Lemma decode_raw s : unbase64 url_alphabet (RawURLEncoding s) = Some s.
Proof. apply unbase64_base64, url_alphabet_ok. Qed.

Ltac look := repeat first [rewrite lookup_insert_eq | rewrite lookup_insert_ne by done].

Section jwk.
Context `{CR : Crypto}.

(** C38: the JWK of a CA key. [PublicKeyToJWK] never panics on a key that the libraries read
    and convert to an SSH key, whose ECDSA keys are on P-256, P-384 or P-521. For an Ed25519,
    ECDSA or RSA key it succeeds, and reading the JWK it returns (base64 without padding, padded
    coordinates, the bytes of the exponent) gives back the key; its "kid" is the fingerprint
    under which certificates are recorded. A key of another type, such as DSA, is refused as
    unsupported, and a text that is not read gives the error of the reading. *)
Theorem jwk_roundtrip pem :
  match parse_public_pem pem with
  | Err e => PublicKeyToJWK pem = Some (Err e)
  | Ok (PubOther _, _) => PublicKeyToJWK pem = Some (Err (NewError "unsupported public key type" []))
  | Ok (pub, sshPub) =>
      key_ok pub →
      ∃ j, PublicKeyToJWK pem = Some (Ok j) ∧ jwk_public j = Some pub ∧
           j !! "kid" = Some (ssh_FingerprintSHA256 sshPub)
  end.
Proof.
  unfold PublicKeyToJWK. destruct (parse_public_pem pem) as [[pub sshPub]|e]; [|done].
  destruct pub as [key|bits X Y|N E|k]; [| | |done]; intros Hok.
  - eexists. split; [done|]. split; [|by look].
    unfold jwk_public, base64url. look. cbn [mbind option_bind]. rewrite decode_raw. done.
  - destruct Hok as (Hbits & HX & HY & HlX & HlY).
    destruct (pad_left _ X) as [x|] eqn:Ex; [|unfold pad_left in Ex; by case_decide].
    destruct (pad_left _ Y) as [y|] eqn:Ey; [|unfold pad_left in Ey; by case_decide].
    eexists. split; [done|].
    assert (∃ crv, curve_bits crv = Some bits ∧
      ∀ m : gmap string string, curve_name bits m = <["crv" := crv]> m) as (crv & Hcrv & Hname).
    { destruct Hbits as [->|[->| ->]]; [exists "P-256"|exists "P-384"|exists "P-521"]; split; try done; intros; reflexivity. }
    rewrite Hname. split; [|by look].
    unfold jwk_public, base64url. look. cbn [mbind option_bind]. rewrite !decode_raw. cbn [mbind option_bind].
    rewrite decide_False, decide_True by done. look. cbn [mbind option_bind]. rewrite Hcrv. cbn [mbind option_bind].
    by rewrite (pad_left_strip _ _ _ Ex HX), (pad_left_strip _ _ _ Ey HY).
  - eexists. split; [done|]. split; [|by look].
    unfold jwk_public, base64url. look. cbn [mbind option_bind]. rewrite !decode_raw. cbn [mbind option_bind].
    rewrite !decide_False, decide_True by done. simpl in Hok. unfold max_int64 in Hok.
    destruct (exponent_loop_enough 8 E "") as (_ & _ & HE & _); [simpl; lia|].
    unfold exponent_bytes. rewrite HE by lia. done.
Qed.
End jwk.

(** ** The policy and IPv4 addresses *)

(** A dotted address and its bytes. *)
Definition dotted (s : string) (ip : list Z) : Prop := address_form s = Some "."%char ∧ parseIPv4 s = Some ip.

Lemma dotted_addr s ip : dotted s ip → ParseAddr s = Some ip ∧ length ip = 4%nat ∧ bytes_ok ip.
Proof.
  intros [Hf Hp]. destruct (parseIPv4_bytes s ip Hp) as [Hl Hb]. split; [|done]. unfold ParseAddr. by rewrite Hf, decide_True.
Qed.

(** C37: the policy decision. For a client restricted to a block of IPv4 addresses and a
    request from an IPv4 address, [Enforce] lets the request through exactly when its lifetime
    is positive and at most the maximum in force, the type of its key is among the allowed
    ones, ignoring case, and its address, as a 32-bit number, agrees with the address of the
    block on the bits of the prefix. *)
Theorem policy_decides e ttl keyType sourceIP cfg restriction addr mask a b k :
  SourceAddressRestriction cfg = Some restriction → cut "/" restriction = Some (addr, mask) →
  dotted addr a → unsigned mask = Some k → k ≤ 32 → dotted sourceIP b →
  Enforce e ttl keyType sourceIP cfg = None ↔
  0 < ttl ≤ effective_max_ttl e cfg ∧
  (∃ at_, at_ ∈ effective_key_types e cfg ∧ EqualFold at_ (NormalizeKeyType keyType) = true) ∧
  ip_value b / 2 ^ (32 - k) = ip_value a / 2 ^ (32 - k).
Proof.
  intros Hr Hcut Ha Hk Hle Hb. destruct (dotted_addr _ _ Ha) as (Ha' & Hla & Hba).
  destruct (dotted_addr _ _ Hb) as (Hb' & Hlb & Hbb).
  assert (ParseIP sourceIP = Some (v4InV6Prefix ++ b)) as HIP.
  { unfold ParseIP. rewrite Hb'. simpl. unfold As16. by rewrite decide_True. }
  assert (To4 (v4InV6Prefix ++ b) = Some b) as H4.
  { unfold To4. rewrite length_app, Hlb. simpl. done. }
  destruct (Contains_v4 restriction addr mask a (v4InV6Prefix ++ b) k) as (n & Hn & Hin); try done.
  { apply Forall_app. split; [|done]. repeat constructor; lia. }
  { rewrite length_app, Hlb. by right. }
  assert (restriction ≠ "") as Hne by (by intros ->).
  rewrite Enforce_None. split.
  - intros (Ht & Hty & Hsrc). split; [done|]. split; [done|].
    destruct (Hsrc restriction Hr Hne) as (n' & ip & Hn' & Hip & Hc). rewrite Hn in Hn'. injection Hn' as <-.
    rewrite HIP in Hip. injection Hip as <-. apply Hin in Hc as (b' & Hb4 & Heq). rewrite H4 in Hb4. by injection Hb4 as <-.
  - intros (Ht & Hty & Heq). split; [done|]. split; [done|]. intros r'. rewrite Hr. intros [= <-] _.
    exists n, (v4InV6Prefix ++ b). split; [done|]. split; [done|]. apply Hin. by exists b.
Qed.

(** ** Names of clients *)

Definition no_colon (s : string) : Prop := ∀ i, String.get i s ≠ Some ":"%char.

Lemma ParseClientID_Ok header t cl :
  ParseClientID header = Ok (t, cl) ↔ header = client_key t cl ∧ t ≠ "" ∧ cl ≠ "" ∧ no_colon t.
Proof.
  unfold ParseClientID, client_key. split.
  - case_decide; [done|]. destruct (cut ":" header) as [[t' cl']|] eqn:Hc; [|done]. apply cut_Some in Hc as [-> Hn].
    case_decide as Hd; [done|]. intros [= <- <-]. split; [done|]. tauto.
  - intros (-> & Ht & Hcl & Hn). rewrite decide_False by (by destruct t).
    change (":" +:+ cl) with (String ":" cl). rewrite cut_app by done. rewrite decide_False by tauto. done.
Qed.

(** Names of clients. The header that [ParseClientID] accepts is the key under which the
    caches of the validators hold the client, and two clients that have authenticated share a
    key only if they are the same: the credentials of one are never used for another. *)
Theorem client_keys_distinct h1 h2 t1 cl1 t2 cl2 :
  ParseClientID h1 = Ok (t1, cl1) → ParseClientID h2 = Ok (t2, cl2) →
  client_key t1 cl1 = h1 ∧ (client_key t1 cl1 = client_key t2 cl2 → t1 = t2 ∧ cl1 = cl2).
Proof.
  intros H1 H2. pose proof (proj1 (ParseClientID_Ok _ _ _) H1) as (-> & _).
  pose proof (proj1 (ParseClientID_Ok _ _ _) H2) as (-> & _). split; [done|].
  intros He. rewrite He, H2 in H1. by injection H1 as -> ->.
Qed.

(** Paths of the secrets engine do not separate the names: with a slash in a name, two
    clients share their CA keys and their serial counter. *)
Example paths_collide :
  metadata_path (mkClient "ssh-ca" (mkRotationConfig 1 1)) "a" "b/c" =
  metadata_path (mkClient "ssh-ca" (mkRotationConfig 1 1)) "a/b" "c".
Proof. reflexivity. Qed.

(** * Routing of the signer

    The patterns of [NewRouter] do not overlap, so the handler that serves a request does not
    depend on the order in which chi tries them. *)

Local Open Scope nat_scope.

(** Two patterns that match one path agree on every segment that both have literally. *)
Fixpoint segs_agree (p q : list string) : bool :=
  match p, q with
  | [], [] => true
  | a :: p', b :: q' => (String.prefix "{" a || String.prefix "{" b || String.eqb a b) && segs_agree p' q'
  | _, _ => false
  end.

Lemma segs_match_agree p q path : segs_match p path = true → segs_match q path = true → segs_agree p q = true.
Proof.
  revert q path. induction p as [|a p IH]; intros [|b q] [|s path]; cbn [segs_match segs_agree]; try done.
  intros [Ha Hp]%andb_true_iff [Hb Hq]%andb_true_iff. rewrite (IH q path Hp Hq), andb_true_r.
  destruct (String.prefix "{" a); [done|]. destruct (String.prefix "{" b); [done|].
  apply String.eqb_eq in Ha, Hb. subst. simpl. apply String.eqb_refl.
Qed.

(** The routes other than the one of the metrics, with their places after it. *)
Definition api_routes : list (string * string) :=
  [("GET", "/api/v1/health"); ("POST", "/api/v1/sign"); ("POST", "/api/v1/revoke"); ("GET", "/api/v1/jwks");
   ("GET", "/api/v1/ca-public-key"); ("POST", "/api/v1/admin/rotate-ca"); ("GET", "/api/v1/certificates");
   ("GET", "/api/v1/certificates/{serial}"); ("GET", "/api/v1/userinfo")].

Definition overlap (x y : string * string) : bool :=
  String.eqb x.1 y.1 && segs_agree (split_on "/" x.2) (split_on "/" y.2).

Lemma api_routes_apart i j x y :
  api_routes !! i = Some x → api_routes !! j = Some y → overlap x y = true → i = j.
Proof.
  intros Hi Hj Ho. assert (i < 9 ∧ j < 9) as [Hi9 Hj9] by (split; [apply lookup_lt_Some in Hi|apply lookup_lt_Some in Hj]; done).
  destruct i as [|[|[|[|[|[|[|[|[|i]]]]]]]]]; [..|lia]; destruct j as [|[|[|[|[|[|[|[|[|j]]]]]]]]]; try done; try lia;
    injection Hi as <-; injection Hj as <-; by vm_compute in Ho.
Qed.

Section routing.
Context `{CR : Crypto} `{JL : JwtLib} `{EV : !SignerEnv} `{CM : ChiMux} `{CL : !ChiLaws}.
Context (promhttp_Handler : SRequest → Proc SResponse) (cfg : Config) (v : OIDCValidator) (hs : Handlers).

Abbreviation entries := (route_entries promhttp_Handler cfg v hs).

(** The routes are those of the API and, after the first, the one of the metrics. *)
Lemma routes_shape n :
  match entries.*1 !! n with
  | Some x => (∃ path, cfg_Metrics cfg = Some path ∧ x = ("", path) ∧ n = 1) ∨
      ∃ i, api_routes !! i = Some x ∧ n = if decide (i = 0) then 0 else match cfg_Metrics cfg with Some _ => S i | None => i end
  | None => True
  end.
Proof.
  unfold route_entries. destruct (cfg_Metrics cfg) as [path|].
  - destruct n as [|[|n]]; [right; by exists 0|left; by exists path|].
    destruct (_ !! _) as [x|] eqn:E; [|done]. right. exists (S n). by split.
  - destruct (_ !! _) as [x|] eqn:E; [|done]. right. exists n. split; [exact E|]. by destruct n.
Qed.

(** Routing. A request that matches a route of the server, and not the path of the
    metrics, is served by the handler registered with that route and no other, whatever
    order the router tries the patterns in; a request that matches none is refused with 404
    or 405. *)
Theorem routes_dispatch (r : SRequest) :
  (∀ path, cfg_Metrics cfg = Some path → pattern_matches path (q_path r) = false) →
  (∀ n m p h, entries !! n = Some (m, p, h) → m = q_method r → pattern_matches p (q_path r) = true →
     dispatch entries r = h r) ∧
  ((∀ n m p h, entries !! n = Some (m, p, h) → m = q_method r → pattern_matches p (q_path r) = false) →
     ∃ resp, dispatch entries r = mret resp ∧ (p_status resp = 404%Z ∨ p_status resp = 405%Z)).
Proof using CL.
  intros Hmetrics.
  (* a route that matches is one of the API *)
  assert (∀ n m p, entries.*1 !! n = Some (m, p) → m = q_method r ∨ m = "" → pattern_matches p (q_path r) = true →
    m = q_method r ∧ ∃ i, api_routes !! i = Some (m, p) ∧
      n = if decide (i = 0) then 0 else match cfg_Metrics cfg with Some _ => S i | None => i end) as Hapi.
  { intros n m p Hn Hm Hp. pose proof (routes_shape n) as Hs. rewrite Hn in Hs.
    destruct Hs as [(path & Hpath & [= -> ->] & _)|(i & Hi & ->)]; [by rewrite (Hmetrics path Hpath) in Hp|].
    split; [|by exists i]. destruct Hm as [|Hm]; [done|]. exfalso. revert Hi Hm. clear. intros Hi ->.
    apply list_elem_of_lookup_2 in Hi. unfold api_routes in Hi. rewrite !elem_of_cons, elem_of_nil in Hi. naive_solver. }
  split.
  - intros n m p h Hn Hm Hp. assert (entries.*1 !! n = Some (m, p)) as Hn1 by (by rewrite list_lookup_fmap, Hn).
    destruct (Hapi n m p Hn1) as (_ & i & Hi & Hni); [by left|done|].
    destruct (chi_complete entries.*1 (q_method r) (q_path r) n m p Hn1) as [n' Hn']; [by left|done|].
    destruct (chi_sound _ _ _ _ Hn') as (m' & p' & Hn1' & Hm' & Hp').
    destruct (Hapi n' m' p' Hn1' Hm' Hp') as (Heq & j & Hj & Hnj).
    assert (i = j) as ->.
    { apply (api_routes_apart i j _ _ Hi Hj). unfold overlap. cbn [fst snd]. apply andb_true_iff. split.
      - apply String.eqb_eq. congruence.
      - by eapply segs_match_agree. }
    unfold dispatch. rewrite Hn', Hnj, <-Hni, Hn. done.
  - intros Hnone. unfold dispatch. destruct (chi_route _ _ _) as [n| |] eqn:Hc; [|eexists; (split; [reflexivity|simpl; auto])..].
    destruct (chi_sound _ _ _ _ Hc) as (m & p & Hn & Hm & Hp). destruct (Hapi n m p Hn Hm Hp) as (Heq & _).
    rewrite list_lookup_fmap in Hn. destruct (entries !! n) as [[[m' p'] h]|] eqn:E; [|done]. injection Hn as -> ->.
    by rewrite (Hnone n m p h E Heq) in Hp.
Qed.
End routing.
