(* ===== verification/SignerAccess.v ===== *)
(** * Who the signer answers

    Two invariants of every interleaving of requests: the clients of the table do not
    change, and the cache of key sets is bounded and holds under an issuer only a set that
    was fetched for that issuer. With them: what a client is answered was asked for with the
    credentials of an enabled client, what a user is answered with a token that the keys of
    its own issuer verify (in dev mode with any), and certificates are listed to the address
    of that identity only. *)

From stdpp Require Import base gmap sets list strings.
From Stdlib Require Import ZArith Ascii Lia.
From S2P Require Import Prelude GoError Models Schema Wire AmieStore SignerText Rfc3339 SignerStore SignerEffects.
From S2P Require Import SignerLogic SignerPolicy SignerVault SignerAuth SignerHandlers SignerServer.
From S2P Require Import SignerTheorems.

Section access.
Context `{SE : SecretsEngine} `{CR : Crypto} `{JL : JwtLib} `{EV : !SignerEnv}.
Context (v : OIDCValidator) (clients : gmap (string * string) ClientRow).
Context (issued : gmap Z IssuanceRow) (revoked : gmap Z RevocationRow).
Implicit Types (w : SWorld) (cache : gmap string (jwksEntry KeySet)).

(** ** The cache of key sets *)

(** A set that was fetched for an issuer: from the address its discovery document names or
    from one of the two fallbacks. *)
Definition issued_by (issuer : string) (keySet : KeySet) : Prop :=
  ∃ n uri, jwk_Fetch n uri = Ok keySet ∧
    (uri = issuer +:+ "/.well-known/jwks.json" ∨ uri = issuer +:+ "/certs" ∨
     ∃ m, discovered_uri (http_Get m (issuer +:+ "/.well-known/openid-configuration")) = Some uri).

Definition cache_ok cache : Prop :=
  (Z.of_nat (size cache) ≤ Z.max 1 (ov_maxProviders v))%Z ∧
  ∀ issuer e, cache !! issuer = Some e → issuer ≠ "" ∧ issued_by issuer (je_set e).

(** The range of [getJWKS] finds an entry that no other is older than. *)
Lemma older_fold cache l acc :
  (∀ k, k ∈ l → k ≠ "" ∧ is_Some (cache !! k)) →
  (acc.1 = "" ∨ ∃ e, cache !! acc.1 = Some e ∧ acc.2 = je_fetchedAt e) →
  (l = [] ∨ ∃ e, cache !! (foldl (older cache) acc l).1 = Some e ∧ (foldl (older cache) acc l).2 = je_fetchedAt e) ∧
  (acc.1 ≠ "" → ((foldl (older cache) acc l).2 ≤ acc.2)%Z) ∧
  ∀ k e, k ∈ l → cache !! k = Some e → ((foldl (older cache) acc l).2 ≤ je_fetchedAt e)%Z.
Proof.
  revert acc. induction l as [|k l IH]; intros acc Hl Hacc.
  { split; [by left|]. split; [done|]. by intros ? ? ?%not_elem_of_nil. }
  cbn [foldl]. destruct (Hl k) as [Hk [e He]]; [by left|].
  assert (older cache acc k = (k, je_fetchedAt e) ∧ (acc.1 = "" ∨ (je_fetchedAt e < acc.2)%Z) ∨
          older cache acc k = acc ∧ acc.1 ≠ "" ∧ (acc.2 ≤ je_fetchedAt e)%Z) as Hstep.
  { unfold older. rewrite He. case_decide as Hd; [by left|right].
    split; [done|]. split; [tauto|]. destruct (Z.le_gt_cases acc.2 (je_fetchedAt e)); [done|tauto]. }
  destruct (IH (older cache acc k)) as (Hin & Hle & Hall); [by intros; apply Hl; right| |].
  { destruct Hstep as [[-> _]|(-> & Hne & _)]; [right; by exists e|]. by destruct Hacc as [?|?]; [|right]. }
  assert ((foldl (older cache) (older cache acc k) l).2 ≤ je_fetchedAt e)%Z as Hke.
  { destruct Hstep as [[E _]|(E & Hne & Hle')]; rewrite E in *; cbn [fst snd] in *; [auto|]. specialize (Hle Hne). lia. }
  split; [|split].
  - right. destruct Hin as [->|Hin]; [|done]. cbn [foldl]. destruct Hstep as [[-> _]|(-> & Hne & _)]; [by exists e|].
    by destruct Hacc.
  - intros Hne. destruct Hstep as [[E [?|Hlt]]|(E & _ & _)]; [done| |by rewrite E in *; auto]. lia.
  - intros k' e' [->|Hk']%elem_of_cons He'; [|eauto]. by rewrite He in He'; injection He' as <-.
Qed.

(** At capacity one entry goes, and it is an oldest one. *)
Lemma jwks_evict_oldest cache :
  (∀ k e, cache !! k = Some e → k ≠ "") → cache ≠ ∅ → (ov_maxProviders v ≤ Z.of_nat (size cache))%Z →
  ∃ k e, cache !! k = Some e ∧ jwks_evict v cache = delete k cache ∧
    ∀ k' e', cache !! k' = Some e' → (je_fetchedAt e ≤ je_fetchedAt e')%Z.
Proof.
  intros Hk Hne Hmax. unfold jwks_evict. rewrite (proj2 (Z.leb_le _ _) Hmax).
  set (l := range_cache (dom cache)).
  assert (∀ k, k ∈ l ↔ is_Some (cache !! k)) as Hl.
  { intros k. unfold l. rewrite range_cache_perm. by rewrite elem_of_elements, elem_of_dom. }
  destruct (older_fold cache l ("", zero_time)) as (Hin & _ & Hall).
  { intros k Hin. apply Hl in Hin. split; [|done]. destruct Hin as [e He]. by eapply Hk. }
  { by left. }
  destruct Hin as [Hnil|(e & He & Ht)].
  - destruct (map_choose _ Hne) as (k & e & He). assert (k ∈ l) as Hin by (apply Hl; by eexists).
    rewrite Hnil in Hin. by apply not_elem_of_nil in Hin.
  - eexists _, e. split; [exact He|]. split; [done|]. intros k' e' He'. rewrite <-Ht.
    apply (Hall k'); [|done]. apply Hl. by eexists.
Qed.

Lemma jwks_insert_ok issuer keySet now cache :
  issuer ≠ "" → issued_by issuer keySet → cache_ok cache → cache_ok (jwks_insert v issuer keySet now cache).
Proof.
  intros Hne Hby [Hsize Hent].
  assert (∀ cache', (Z.of_nat (size cache') + 1 ≤ Z.max 1 (ov_maxProviders v))%Z → cache' ⊆ cache →
          cache_ok (<[issuer := mkJwksEntry _ keySet now]> cache')) as Hadd.
  { intros cache' Hs Hsub. split.
    - destruct (cache' !! issuer) as [e|] eqn:E.
      + rewrite map_size_insert_Some by done. lia.
      + rewrite map_size_insert_None by done. lia.
    - intros i e. rewrite lookup_insert_Some. intros [[<- <-]|[_ He]]; [done|]. apply Hent.
      by eapply lookup_weaken. }
  unfold jwks_insert. destruct (Z.le_gt_cases (ov_maxProviders v) (Z.of_nat (size cache))) as [Hle|Hgt].
  - destruct (decide (cache = ∅)) as [->|Hcache].
    + unfold jwks_evict. rewrite (proj2 (Z.leb_le _ _) Hle), delete_empty. apply Hadd; [|done]. rewrite map_size_empty. lia.
    + destruct (jwks_evict_oldest cache) as (k & e & He & -> & _); [by intros k e [Hk _]%Hent|done|done|].
      apply Hadd; [|apply delete_subseteq]. rewrite map_size_delete_Some by (by eexists).
      assert (size cache ≠ 0) by (apply (map_size_ne_0_lookup_2 _ k); by eexists). lia.
  - unfold jwks_evict. rewrite (proj2 (Z.leb_gt _ _) Hgt). apply Hadd; [lia|done].
Qed.

(** ** The invariant *)

Definition served_ok w : Prop := t_clients (s_db w) = clients ∧ cache_ok (m_jwks (s_mem w)).

(** The log so far is part of the log at the end. *)
Definition log_within w : Prop := t_issuance (s_db w) ⊆ issued ∧ t_revocations (s_db w) ⊆ revoked.

Abbreviation sound := (safe served_ok log_within).

(** Operations that touch neither. *)
Definition apart {X} (op : Op X) : Prop :=
  match op with
  | OExec s => ∀ now d d', s now d = inr d' → t_clients d' = t_clients d
  | OMem f => ∀ m, m_jwks (f m).2 = m_jwks m
  | _ => True
  end.

Lemma apart_op {X} (op : Op X) w : apart op → served_ok w → served_ok (do_op op w).2.
Proof.
  intros Ha [Hc Hm]. unfold served_ok. destruct op; simpl in *; try done.
  - destruct (outcome _); [|done|]; destruct (s _ _) as [e|d] eqn:E; simpl; rewrite ?(Ha _ _ _ E); done.
  - destruct (outcome _); [|done|]; by destruct (kv_write _ _ _ _).
  - specialize (Ha (s_mem w)). destruct (f _). simpl in *. by rewrite Ha.
Qed.

Lemma sound_apart {X} (P : X → Prop) (op : Op X) :
  apart op → (∀ w, served_ok w → log_within w → P (do_op op w).1) → sound P (trigger op).
Proof. intros Ha HP. apply safe_trigger. intros w Hw HJ. split; [by apply apart_op|by apply HP]. Qed.
Lemma sound_query {X} params (f : SignerDB → X) : sound (λ _, True) (trigger (OQuery params f)).
Proof. by apply sound_apart. Qed.
Lemma sound_read path : sound (λ _, True) (trigger (OKvRead path)).
Proof. by apply sound_apart. Qed.
Lemma sound_write path cas data : sound (λ _, True) (trigger (OKvWrite path cas data)).
Proof. by apply sound_apart. Qed.
Lemma sound_now : sound (λ _, True) (trigger ONow).
Proof. by apply sound_apart. Qed.
Lemma sound_random : sound (λ _, True) (trigger ORandom).
Proof. by apply sound_apart. Qed.
Lemma sound_ping : sound (λ _, True) (trigger OPing).
Proof. by apply sound_apart. Qed.
#[local] Hint Resolve sound_query sound_read sound_write sound_now sound_random sound_ping : rg.

(** ** The secrets engine *)

Section vault.
Context (c : Client).
Implicit Types t cl s : string.

Lemma readCAKey_sound t cl s : sound (λ _, True) (readCAKey c t cl s).
Proof. unfold readCAKey. safe_auto. Qed.
Lemma writeCAKey_sound t cl s kp : sound (λ _, True) (writeCAKey c t cl s kp).
Proof. unfold writeCAKey. safe_auto. Qed.
Lemma readMetadataWithVersion_sound t cl : sound (λ _, True) (readMetadataWithVersion c t cl).
Proof. unfold readMetadataWithVersion. safe_auto. Qed.
#[local] Hint Resolve readCAKey_sound writeCAKey_sound readMetadataWithVersion_sound : rg.
Lemma readMetadata_sound t cl : sound (λ _, True) (readMetadata c t cl).
Proof. unfold readMetadata. safe_auto. Qed.
Lemma writeMetadata_sound t cl m : sound (λ _, True) (writeMetadata c t cl m).
Proof. unfold writeMetadata. safe_auto. Qed.
Lemma writeMetadataCAS_sound t cl m n : sound (λ _, True) (writeMetadataCAS c t cl m n).
Proof. unfold writeMetadataCAS. safe_auto. Qed.
#[local] Hint Resolve readMetadata_sound writeMetadata_sound writeMetadataCAS_sound : rg.
Lemma initMetadata_sound t cl : sound (λ _, True) (initMetadata c t cl).
Proof. unfold initMetadata, nowUTC_s. safe_auto. Qed.
Lemma generateEd25519CAKey_sound : sound (λ _, True) generateEd25519CAKey.
Proof. unfold generateEd25519CAKey, nowUTC_s. safe_auto. Qed.
#[local] Hint Resolve initMetadata_sound generateEd25519CAKey_sound : rg.
Lemma GetCurrentCAKey_sound t cl : sound (λ _, True) (GetCurrentCAKey c t cl).
Proof. unfold GetCurrentCAKey. safe_auto. Qed.
Lemma IncrementSerialCounter_sound t cl : sound (λ _, True) (IncrementSerialCounter c t cl).
Proof. unfold IncrementSerialCounter. safe_auto. Qed.
Lemma RotateCA_sound t cl : sound (λ _, True) (RotateCA c t cl).
Proof. unfold RotateCA, nowUTC_s. safe_auto. Qed.
Lemma GetValidationCredentials_sound t cl : sound (λ _, True) (GetValidationCredentials c t cl).
Proof. unfold GetValidationCredentials. safe_auto. Qed.
Lemma Healthy_sound : sound (λ _, True) Healthy.
Proof. unfold Healthy. safe_auto. Qed.
Lemma GetNextCAKey_sound t cl : sound (λ _, True) (GetNextCAKey c t cl).
Proof. apply readCAKey_sound. Qed.
Lemma GetMetadata_sound t cl : sound (λ _, True) (GetMetadata c t cl).
Proof. apply readMetadata_sound. Qed.

Section validation.
Context (d : ValidatorDispatcher).
#[local] Hint Resolve GetValidationCredentials_sound : rg.
Lemma sound_creds {X} (f : Memory KeySet → X * Memory KeySet) :
  (∀ m, m_jwks (f m).2 = m_jwks m) → sound (λ _, True) (trigger (OMem f)).
Proof. intros Hf. by apply sound_apart. Qed.
Lemma fetchCredentials_sound t cl : sound (λ _, True) (fetchCredentials c d t cl).
Proof.
  unfold fetchCredentials. eapply safe_bind; [by apply sound_creds|]. intros entry _.
  eapply (safe_bind _ _ (λ _, True)); [destruct entry; safe_auto|]. intros [r|] _; [safe_auto|].
  eapply safe_bind; [apply GetValidationCredentials_sound|]. intros r _.
  eapply safe_bind; [apply sound_now|]. intros now _. cbv zeta. eapply safe_bind; [by apply sound_creds|]. done.
Qed.
Lemma getOrCreateValidator_sound t cl creds : sound (λ _, True) (getOrCreateValidator t cl creds).
Proof.
  unfold getOrCreateValidator. eapply safe_bind; [by apply sound_creds|]. intros [] _; [done|]. cbv zeta.
  eapply safe_bind; [|done]. apply sound_creds. intros m. by destruct (m_validators m !! _).
Qed.
Lemma validator_Validate_sound key principal subject : sound (λ _, True) (validator_Validate key principal subject).
Proof.
  apply sound_creds. intros m. destruct (m_validators m !! key) as [lv|]; [|done].
  by destruct (LDAPValidator_Validate _ _ _ _) as [[r lv'] n].
Qed.
#[local] Hint Resolve fetchCredentials_sound getOrCreateValidator_sound validator_Validate_sound : rg.
Lemma ValidateForClient_sound t cl principal subject source :
  sound (λ _, True) (ValidateForClient c d t cl principal subject source).
Proof. unfold ValidateForClient, validateLDAP. safe_auto. Qed.
End validation.
End vault.
#[local] Hint Resolve GetCurrentCAKey_sound IncrementSerialCounter_sound RotateCA_sound
  Healthy_sound GetNextCAKey_sound GetMetadata_sound ValidateForClient_sound : rg.

(** ** Tokens *)

(** What a token must be for an identity to be derived from it. *)
Definition token_grants (token : string) (id : UserIdentity) : Prop :=
  if ov_enabled v then
    ∃ insecure keySet n tok,
      jwt_ParseInsecure token = Ok insecure ∧ Issuer insecure = id_Issuer id ∧ id_Issuer id ≠ "" ∧
      (ov_allowedIssuers v = [] ∨ id_Issuer id ∈ ov_allowedIssuers v) ∧
      issued_by (id_Issuer id) keySet ∧ jwt_Parse keySet (now_at n) token = Ok tok ∧
      id_Subject id = Subject tok ∧ id_Email id = claim "email" tok ∧
      id_Principal id = extractPrincipal tok ∧ id_Principal id ≠ ""
  else id = mkUserIdentity "dev-mode" (ov_defaultSubject v) (ov_defaultEmail v) (ov_defaultSubject v).

Lemma jwks_cached_sound issuer :
  sound (λ o, ∀ keySet, o = Some keySet → issued_by issuer keySet) (jwks_cached v issuer).
Proof.
  unfold jwks_cached. eapply (safe_bind _ _ (λ o, ∀ e, o = Some e → issued_by issuer (je_set e))).
  { apply sound_apart; [done|]. intros w [_ [_ He]] _ e Hlook. by eapply He. }
  intros [e|] He; [|done]. eapply safe_bind; [apply sound_now|]. intros now _. apply safe_ret. intros keySet.
  destruct (_ <? _)%Z; [|done]. intros [= <-]. by apply He.
Qed.

Lemma sound_fetch uri : sound (λ o, ∀ k, o = Ok k → ∃ n, jwk_Fetch n uri = Ok k) (trigger (OJwkFetch uri)).
Proof. apply sound_apart; [done|]. intros w _ _ k Hk. exists (s_io w). exact Hk. Qed.

Lemma fetchJWKSFromIssuer_sound issuer :
  sound (λ o, match o with Ok k => issued_by issuer k | Err _ => True end) (fetchJWKSFromIssuer issuer).
Proof.
  unfold fetchJWKSFromIssuer.
  eapply (safe_bind _ _ (λ resp, ∃ m, resp = http_Get m (issuer +:+ "/.well-known/openid-configuration"))).
  { apply sound_apart; [done|]. intros w _ _. by eexists. }
  intros resp [m ->].
  eapply (safe_bind _ _ (λ o, ∀ k, o = Some (Ok k) → issued_by issuer k)).
  { destruct (discovered_uri _) as [uri|] eqn:Hd; [|done]. eapply safe_bind; [apply sound_fetch|].
    intros r Hr. apply safe_ret. intros k [= ->]. destruct (Hr k eq_refl) as [n Hn]. exists n, uri. split; [done|]. right; right. by exists m. }
  intros o Ho. assert (sound (λ o, match o with Ok k => issued_by issuer k | Err _ => True end)
    (r ← trigger (OJwkFetch (issuer +:+ "/.well-known/jwks.json"));
     match r with
     | Ok keySet => mret (Ok keySet)
     | Err _ => r ← trigger (OJwkFetch (issuer +:+ "/certs"));
         mret (match r with
               | Ok keySet => Ok keySet
               | Err e => Err (Errorf (Sprintf "fetching JWKS from %s: %w" [issuer] "%w") [] e)
               end)
     end)) as Hfallback.
  { eapply safe_bind; [apply sound_fetch|]. intros [k|e] Hr.
    - destruct (Hr k eq_refl) as [n Hn]. apply safe_ret. eexists n, _. split; [exact Hn|]. by left.
    - eapply safe_bind; [apply sound_fetch|]. intros [k|e'] Hr'; [|done].
      destruct (Hr' k eq_refl) as [n Hn]. apply safe_ret. eexists n, _. split; [exact Hn|]. right; by left. }
  destruct o as [[k|e]|]; [|done..]. apply safe_ret. by apply Ho.
Qed.

Lemma getJWKS_sound issuer :
  issuer ≠ "" → sound (λ o, match o with Ok k => issued_by issuer k | Err _ => True end) (getJWKS v issuer).
Proof.
  intros Hne. unfold getJWKS. eapply safe_bind; [apply jwks_cached_sound|]. intros [k|] Hk; [by apply safe_ret, Hk|].
  eapply safe_bind; [apply jwks_cached_sound|]. intros [k|] Hk'; [by apply safe_ret, Hk'|].
  eapply safe_try; [apply fetchJWKSFromIssuer_sound| |done]. intros k Hby.
  eapply safe_bind; [apply sound_now|]. intros now _. eapply (safe_bind _ _ (λ _, True)); [|done].
  apply safe_trigger. intros w [Hc Hm] _. split; [|done]. split; [done|]. by apply jwks_insert_ok.
Qed.

Lemma ValidateAccessToken_sound token :
  sound (λ o, match o with inr id => token_grants token id | inl _ => True end) (ValidateAccessToken v token).
Proof.
  unfold ValidateAccessToken, token_grants. destruct (ov_enabled v); cbn [negb]; [|done].
  case_decide; [done|]. destruct (jwt_ParseInsecure token) as [insecure|e] eqn:Hp; [|done]. cbv zeta.
  case_decide; [done|]. case_decide as Hallowed; [done|].
  eapply safe_bind; [by apply getJWKS_sound|]. intros [keySet|e] Hk; [|done].
  eapply (safe_bind _ _ (λ now, ∃ n, now = now_at n)).
  { apply sound_apart; [done|]. intros w _ _. by eexists. }
  intros now [n ->]. apply safe_ret. destruct (jwt_Parse _ _ _) as [tok|e] eqn:Ht; [|done].
  case_decide as Hpr; [done|]. exists insecure, keySet, n, tok. do 3 (split; [done|]). split; [|done].
  destruct (decide (ov_allowedIssuers v = [])); [by left|right].
  destruct (decide (Issuer insecure ∈ ov_allowedIssuers v)); [done|]. by destruct Hallowed.
Qed.

(** ** Clients *)

(** The credentials of an enabled client. *)
Definition authenticated (idHeader secret : string) (cc : ClientConfig) : Prop :=
  ∃ t cl row, ParseClientID idHeader = Ok (t, cl) ∧ clients !! (t, cl) = Some row ∧ scan_client row = Ok cc ∧
    bcrypt_CompareHashAndPassword (ClientSecret cc) secret = true ∧ Enabled cc = true.

Lemma Authenticate_sound idHeader secret :
  sound (λ o, match o with inr cc => authenticated idHeader secret cc | inl _ => True end) (Authenticate idHeader secret).
Proof.
  unfold Authenticate. case_decide; [done|]. case_decide; [done|].
  destruct (ParseClientID idHeader) as [[t cl]|e] eqn:Hp; [|done].
  eapply (safe_bind _ _ (λ o, ∀ cc, o = Ok (Some cc) → ∃ row, clients !! (t, cl) = Some row ∧ scan_client row = Ok cc)).
  { unfold GetClientConfig. eapply (safe_try _ _ (λ row, row = clients !! (t, cl))).
    - apply sound_apart; [done|]. intros w [Hc _] _. simpl. destruct (outcome _); [|done..].
      destruct (valid_text t && _); [|done]. unfold select_client. by rewrite Hc.
    - intros row ->. apply safe_ret. intros cc. destruct (clients !! (t, cl)) as [row|]; [|done].
      destruct (scan_client row) as [cc'|] eqn:Hs; [|done]. intros [= <-]. by exists row.
    - done. }
  intros o Ho. apply safe_ret. destruct o as [[cc|]|e]; [|done..].
  destruct (Ho cc eq_refl) as (row & Hrow & Hs). destruct (bcrypt_CompareHashAndPassword _ _) eqn:Hb; [|done]. simpl.
  destruct (Enabled cc) eqn:Hen; simpl; [|done]. by exists t, cl, row.
Qed.

(** ** The handlers *)

(** What only a client is answered, and what only a user is. *)
Definition client_body (b : SBody) : Prop :=
  match b with BSign _ | BRevoke _ | BRotate _ | BJWKS _ | BCAPublicKey _ | BAuthorizedKey _ => True | _ => False end.
Definition user_body (b : SBody) : Prop :=
  match b with BCertificates _ | BCertificate _ | BUserInfo _ => True | _ => False end.

(** A certificate of the log that was issued to an address, with a revocation of its serial
    if it is shown as revoked. *)
Definition own (email : string) (c : CertificateResponse) : Prop :=
  ∃ i row rev cw, issued !! i = Some row ∧ default "" (ir_user_email row) = email ∧
    (∀ r, rev = Some r → ∃ j, revoked !! j = Some r ∧ rr_serial_number r = Some (ir_serial_number row)) ∧
    scan_certificate (row, rev) = Ok cw ∧ c = toCertificateResponse cw.

Definition shown_to (id : UserIdentity) (b : SBody) : Prop :=
  match b with
  | BCertificates x => length (cl_Certificates x) ≤ 100 ∧ ∀ c, c ∈ cl_Certificates x → own (id_Email id) c
  | BCertificate c => own (id_Email id) c
  | BUserInfo id' => id' = id
  | _ => True
  end.

(** The rows of the join come from the two tables. *)
Lemma elem_of_join d c cr :
  cr ∈ join_revocations d c → cr.1 = c ∧
    ∀ r, cr.2 = Some r → ∃ j, t_revocations d !! j = Some r ∧ rr_serial_number r = Some (ir_serial_number c).
Proof.
  unfold join_revocations. destruct (matching_revocations c d) as [|r0 rs] eqn:E.
  - by intros ->%list_elem_of_singleton.
  - rewrite <-E. intros (r & -> & Hr)%list_elem_of_fmap. split; [done|]. simpl. intros ? [= <-].
    by apply elem_of_select_rows in Hr as (Hs & j & Hj); eauto.
Qed.

Lemma scan_all_Ok l cs : scan_all l = Ok cs →
  length cs = length l ∧ ∀ cw, cw ∈ cs → ∃ cr, cr ∈ l ∧ scan_certificate cr = Ok cw.
Proof.
  revert cs. induction l as [|cr l IH]; cbn [scan_all]; intros cs.
  - intros [= <-]. split; [done|]. by intros ? ?%not_elem_of_nil.
  - destruct (scan_certificate cr) as [c|] eqn:Hc; [|done]. destruct (scan_all l) as [cs'|] eqn:Hl; [|done].
    intros [= <-]. destruct (IH cs' eq_refl) as [Hlen Hin]. split; [by simpl; rewrite Hlen|].
    intros cw [->|Hcw]%elem_of_cons; [exists cr; split; [by left|done]|].
    destruct (Hin cw Hcw) as (cr' & Hcr & Hs). exists cr'. split; [by right|done].
Qed.

Lemma within_own w cr cw :
  log_within w → (∃ i, t_issuance (s_db w) !! i = Some cr.1) →
  (∀ r, cr.2 = Some r → ∃ j, t_revocations (s_db w) !! j = Some r ∧ rr_serial_number r = Some (ir_serial_number cr.1)) →
  scan_certificate cr = Ok cw → own (c_UserEmail cw) (toCertificateResponse cw).
Proof.
  intros [Hi Hr] [i Hrow] Hrev Hs. destruct cr as [row rev]. cbn [fst snd] in *.
  exists i, row, rev, cw. split; [by eapply lookup_weaken|]. split.
  - unfold scan_certificate in Hs. destruct (unmarshal_strings _); [|done]. by injection Hs as <-.
  - split; [|done]. intros r Hr'. destruct (Hrev r Hr') as (j & Hj & Hser). exists j.
    split; [by eapply lookup_weaken|done].
Qed.

Lemma clamp_limit_100 limit : (Z.to_nat (clamp_limit limit) ≤ 100)%nat.
Proof. unfold clamp_limit. cbv zeta. destruct (100 <? _)%Z eqn:E; [done|]. apply Z.ltb_ge in E. lia. Qed.

Lemma ListCertificatesByEmail_sound email limit offset :
  sound (λ o, match o with
              | Ok r => length (lr_Certificates r) ≤ 100 ∧
                  ∀ cw, cw ∈ lr_Certificates r → own email (toCertificateResponse cw)
              | Err _ => True
              end) (ListCertificatesByEmail email limit offset).
Proof.
  unfold ListCertificatesByEmail. cbv zeta. eapply safe_try_silent; [apply sound_query| |done]. intros total.
  eapply (safe_try _ _ (λ rows, length rows ≤ 100 ∧ ∀ cr cw, cr ∈ rows → scan_certificate cr = Ok cw →
    own email (toCertificateResponse cw))).
  - apply sound_apart; [done|]. intros w _ HJ. simpl. destruct (outcome _); [|done..].
    destruct (valid_text email && true); [|done]. unfold select_certificates. split.
    + rewrite length_take. pose proof (clamp_limit_100 limit). lia.
    + intros cr cw Hcr Hs. apply elem_of_take in Hcr as (n & Hn & _). rewrite lookup_drop in Hn.
      apply list_elem_of_lookup_2, elem_of_order_by, list_elem_of_bind in Hn as (c & Hjoin & Hc).
      apply elem_of_join in Hjoin as [Hrow Hrev]. apply elem_of_select_rows in Hc as [Hemail [i Hi]].
      assert (own (c_UserEmail cw) (toCertificateResponse cw)) as Hown
        by (apply (within_own w cr cw HJ); [rewrite Hrow; by eauto|by rewrite Hrow|done]).
      assert (c_UserEmail cw = email) as <-; [|done]. destruct cr as [row rev]. cbn [fst] in Hrow. subst row.
      unfold scan_certificate in Hs. destruct (unmarshal_strings _); [|done]. injection Hs as <-. simpl. by rewrite Hemail.
  - intros rows [Hlen Hown]. apply safe_ret. destruct (scan_all rows) as [cs|] eqn:Hs; [|done].
    apply scan_all_Ok in Hs as [Hl Hin]. simpl. split; [lia|]. intros cw Hcw.
    destruct (Hin cw Hcw) as (cr & Hcr & Hs). by eapply Hown.
  - done.
Qed.

Lemma GetCertificateBySerial_sound serial :
  sound (λ o, match o with Ok cw => own (c_UserEmail cw) (toCertificateResponse cw) | Err _ => True end)
    (GetCertificateBySerial serial).
Proof.
  unfold GetCertificateBySerial. eapply (safe_try _ _ (λ row, ∀ cr cw, row = Some cr → scan_certificate cr = Ok cw →
    own (c_UserEmail cw) (toCertificateResponse cw))).
  - apply sound_apart; [done|]. intros w _ HJ. simpl. destruct (outcome _); [|done..].
    intros cr cw Hcr Hs. unfold select_certificate in Hcr. apply head_Some_elem, list_elem_of_bind in Hcr as (c & Hjoin & Hc).
    apply elem_of_join in Hjoin as [Hrow Hrev]. apply elem_of_select_rows in Hc as [_ [i Hi]].
    apply (within_own w cr cw HJ); [rewrite Hrow; by eauto|by rewrite Hrow|done].
  - intros [cr|] Hcr; apply safe_ret; [|done]. destruct (scan_certificate cr) as [cw|] eqn:Hs; [|done]. by eapply Hcr.
  - done.
Qed.

Lemma safe_or_reply_res {A} (P : A → Prop) (P' : SResponse → Prop) resp (p : Proc (Res A)) k :
  sound (λ o, match o with Ok a => P a | Err _ => True end) p → P' resp → (∀ a, P a → sound P' (k a)) →
  sound P' (or_reply_res resp p k).
Proof. intros Hp Hr Hk. eapply safe_bind; [exact Hp|]. intros [a|e]; [apply Hk|done]. Qed.
Lemma safe_or_reply_silent {A} (P' : SResponse → Prop) resp (p : Proc (Res A)) k :
  sound (λ _, True) p → P' resp → (∀ a, sound P' (k a)) → sound P' (or_reply_res resp p k).
Proof. intros Hp Hr Hk. eapply safe_bind; [exact Hp|]. intros [a|e] _; [apply Hk|done]. Qed.
Lemma safe_or_reply {E A} (P : A → Prop) (P' : SResponse → Prop) (f : E → SResponse) (p : Proc (E + A)) k :
  sound (λ o, match o with inr a => P a | inl _ => True end) p → (∀ e, P' (f e)) → (∀ a, P a → sound P' (k a)) →
  sound P' (or_reply f p k).
Proof. intros Hp Hr Hk. eapply safe_bind; [exact Hp|]. intros [e|a]; [intros _; apply Hr|apply Hk]. Qed.

(** The handlers behind the credentials of a client show nothing that is a user's, those
    behind a token nothing that is a client's. *)
Definition for_client (resp : SResponse) : Prop := ¬ user_body (p_body resp).
Definition for_user (id : UserIdentity) (resp : SResponse) : Prop :=
  ¬ client_body (p_body resp) ∧ shown_to id (p_body resp).

Lemma for_user_error id status code m : for_user id (writeError status code m).
Proof. split; [by intros Hb|exact I]. Qed.

Lemma HandleList_sound (r : SRequest) id : q_identity r = Some id → sound (for_user id) (HandleList r).
Proof.
  intros Hid. unfold HandleList, UserIdentityFromContext. rewrite Hid. cbv zeta.
  eapply safe_or_reply_res; [apply ListCertificatesByEmail_sound|apply for_user_error|].
  intros res [Hlen Hown]. apply safe_ret. split; [by intros Hb|]. simpl. split; [by rewrite length_fmap|].
  intros c (cw & -> & Hcw)%list_elem_of_fmap. by apply Hown.
Qed.

Lemma HandleGet_sound (r : SRequest) id : q_identity r = Some id → sound (for_user id) (HandleGet r).
Proof.
  intros Hid. unfold HandleGet, UserIdentityFromContext. rewrite Hid.
  destruct (ParseInt _) as [serial|]; [|apply for_user_error].
  eapply safe_bind; [apply GetCertificateBySerial_sound|]. intros [cw|e] Hcw; apply safe_ret.
  - case_decide as Hd; [apply for_user_error|]. split; [by intros Hb|]. simpl.
    destruct (decide (c_UserEmail cw = id_Email id)) as [<-|]; [done|]. by destruct Hd.
  - destruct (str_contains _ _); apply for_user_error.
Qed.

Lemma UserInfoHandler_sound (r : SRequest) id : q_identity r = Some id → sound (for_user id) (UserInfoHandler_Handle r).
Proof. intros Hid. unfold UserInfoHandler_Handle, UserIdentityFromContext. rewrite Hid. split; [by intros Hb|done]. Qed.

Lemma SignCertificate_sound req : sound (λ _, True) (SignCertificate req).
Proof. unfold SignCertificate. safe_auto. Qed.
Lemma LogIssuance_sound l : sound (λ _, True) (LogIssuance l).
Proof.
  unfold LogIssuance, InsertIssuanceLog. do 2 (eapply safe_try_silent; [|done..]). apply sound_apart; [|done].
  intros now d d'. unfold insert_issuance. repeat (case_decide; [|done]). by intros [= <-].
Qed.
Lemma LogRevocation_sound e : sound (λ _, True) (LogRevocation e).
Proof.
  unfold LogRevocation, InsertRevocationEvent. do 2 (eapply safe_try_silent; [|done..]). apply sound_apart; [|done].
  intros now d d'. unfold insert_revocation. repeat (case_decide; [|done]). by intros [= <-].
Qed.
#[local] Hint Resolve SignCertificate_sound LogIssuance_sound LogRevocation_sound : rg.

Lemma issue_sound h cc req principal email fp sourceIP exts signReq :
  sound for_client (issue h cc req principal email fp sourceIP exts signReq).
Proof.
  assert (∀ m, for_client (internal_error m)) as Herr by (by intros m H).
  assert (∀ serial res, for_client (sign_response cc req principal exts serial res)) as Hresp by (by intros ? ? H).
  unfold issue. cbv zeta. apply safe_or_reply_silent; [auto with rg|done|]. intros serial.
  apply safe_or_reply_silent; [auto with rg|done|]. intros res. eapply safe_bind; [apply LogIssuance_sound|].
  intros [[]|e] _; [by apply safe_ret|]. destruct (negb _); [by apply safe_ret|].
  apply safe_or_reply_silent; [auto with rg|done|]. intros serial'.
  apply safe_or_reply_silent; [auto with rg|done|]. intros res'.
  apply safe_or_reply_silent; [auto with rg|done|]. intros _. by apply safe_ret.
Qed.

Lemma for_client_error status code m : for_client (writeError status code m).
Proof. by intros Hb. Qed.
#[local] Hint Resolve for_client_error : rg.

Lemma SignHandler_sound h (r : SRequest) : oidcValidator h = v → sound for_client (SignHandler_Handle h r).
Proof.
  intros Hv. unfold SignHandler_Handle. rewrite Hv.
  destruct (ClientConfigFromContext r) as [cc|]; [|apply for_client_error].
  destruct (decode_body _ _) as [req|]; [|apply for_client_error].
  case_decide; [apply for_client_error|]. destruct (negb _); [apply for_client_error|].
  case_decide; [apply for_client_error|]. case_decide; [apply for_client_error|].
  destruct (ParseSSHPublicKey _) as [key|]; [|apply for_client_error].
  eapply safe_or_reply; [apply ValidateAccessToken_sound|by intros [] Hb|]. intros id _. cbv zeta.
  destruct (Enforce _ _ _ _ _); [apply for_client_error|].
  destruct (ResolveExtensions _ _); [|apply for_client_error].
  eapply (safe_or_reply (λ _, True)); [|by intros ? Hb|].
  { eapply safe_mono; [|apply ValidateForClient_sound]. by intros []. }
  intros res _. cbv zeta. apply safe_or_reply_silent; [apply GetCurrentCAKey_sound|apply for_client_error|].
  intros kp. apply issue_sound.
Qed.

Lemma RevokeHandler_sound (r : SRequest) : sound for_client (RevokeHandler_Handle r).
Proof.
  unfold RevokeHandler_Handle. destruct (ClientConfigFromContext r) as [cc|]; [|apply for_client_error].
  destruct (decode_body _ _) as [req|]; [|apply for_client_error].
  case_decide; [apply for_client_error|]. case_decide; [apply for_client_error|].
  apply safe_or_reply_silent; [apply LogRevocation_sound|apply for_client_error|]. intros _. by intros Hb.
Qed.

Lemma JWKSHandler_sound c (r : SRequest) : sound for_client (JWKSHandler_Handle c r).
Proof.
  unfold JWKSHandler_Handle. destruct (ClientConfigFromContext r) as [cc|]; [|apply for_client_error].
  apply safe_or_reply_silent; [auto with rg|apply for_client_error|]. intros kp.
  destruct (PublicKeyToJWK _) as [[jwk|e]|]; [|apply for_client_error|by intros Hb].
  eapply safe_bind; [apply GetNextCAKey_sound|]. intros next _. case_match; [|by intros Hb]. destruct p as [jwk' fp].
  eapply safe_bind; [apply GetMetadata_sound|]. intros meta _. by intros Hb.
Qed.
Lemma CAPublicKeyHandler_sound c (r : SRequest) : sound for_client (CAPublicKeyHandler_Handle c r).
Proof.
  unfold CAPublicKeyHandler_Handle. destruct (ClientConfigFromContext r) as [cc|]; [|apply for_client_error].
  apply safe_or_reply_silent; [auto with rg|apply for_client_error|]. intros kp. apply safe_ret.
  destruct (PEMToOpenSSH _); [|apply for_client_error]. destruct (str_contains _ _); by intros Hb.
Qed.
Lemma AdminHandler_sound c (r : SRequest) : sound for_client (AdminHandler_Handle c r).
Proof.
  unfold AdminHandler_Handle. destruct (ClientConfigFromContext r) as [cc|]; [|apply for_client_error].
  eapply safe_bind; [apply RotateCA_sound|]. intros [[pair|e]|] _; [|apply for_client_error|by intros Hb].
  apply safe_or_reply_silent; [auto with rg|apply for_client_error|]. intros kp.
  eapply safe_bind; [apply GetNextCAKey_sound|]. intros next _. eapply safe_bind; [apply sound_now|]. by intros now _ Hb.
Qed.
Lemma HealthHandler_sound (r : SRequest) :
  sound (λ resp, ¬ client_body (p_body resp) ∧ ¬ user_body (p_body resp)) (HealthHandler_Handle r).
Proof.
  assert (∀ name p, sound (λ _, True) p → sound (λ _, True) (check name p)) as Hcheck.
  { intros name p Hp. unfold check. eapply safe_bind; [apply sound_now|]. intros start _.
    eapply safe_bind; [exact Hp|]. intros o _. eapply safe_bind; [apply sound_now|]. done. }
  unfold HealthHandler_Handle. eapply safe_bind; [apply Hcheck, sound_ping|]. intros db _.
  eapply safe_bind; [apply Hcheck, Healthy_sound|]. intros vault _. apply safe_ret. by split; intros H.
Qed.

(** ** The server *)

(** What may be answered to a request. *)
Definition answerable (r : SRequest) (resp : SResponse) : Prop :=
  (client_body (p_body resp) → ∃ cc, authenticated (header "X-Client-Id" r) (header "X-Client-Secret" r) cc) ∧
  (user_body (p_body resp) → ∃ id, String.prefix "Bearer " (header "Authorization" r) = true ∧
     token_grants (TrimPrefix (header "Authorization" r) "Bearer ") id ∧ shown_to id (p_body resp)).

Lemma answerable_neither (r : SRequest) resp :
  ¬ client_body (p_body resp) → ¬ user_body (p_body resp) → answerable r resp.
Proof. by split. Qed.
Lemma answerable_error (r : SRequest) status code m : answerable r (writeError status code m).
Proof. by apply answerable_neither; intros H. Qed.

(** Two requests with the same headers. *)
Lemma answerable_headers (r r' : SRequest) resp : q_headers r' = q_headers r → answerable r' resp → answerable r resp.
Proof. unfold answerable, header. by intros ->. Qed.

Lemma ClientAuth_sound next (r : SRequest) :
  (∀ r', sound for_client (next r')) → sound (answerable r) (ClientAuthMiddleware next r).
Proof.
  intros Hnext. eapply safe_or_reply; [apply Authenticate_sound|intros []; apply answerable_error|].
  intros cc Hcc. eapply safe_mono; [|apply Hnext]. intros resp Hn. by split; [eauto|].
Qed.

Lemma BearerAuth_sound next (r : SRequest) :
  (∀ r' id, q_identity r' = Some id → sound (for_user id) (next r')) → sound (answerable r) (BearerAuthMiddleware v next r).
Proof.
  intros Hnext. unfold BearerAuthMiddleware. cbv zeta. case_decide; [apply answerable_error|].
  destruct (String.prefix _ _) eqn:Hp; cbn [negb]; [|apply answerable_error]. case_decide; [apply answerable_error|].
  eapply safe_or_reply; [apply ValidateAccessToken_sound|intros []; apply answerable_error|].
  intros id Hid. eapply safe_mono; [|by apply (Hnext _ id)]. intros resp [Hc Hs]. split; [done|]. intros _. by exists id.
Qed.

Lemma safe_add_headers P hs p :
  (∀ resp h, P resp → P (mkSResponse (p_status resp) h (p_body resp))) → sound P p → sound P (add_headers hs p).
Proof. intros HP Hp. eapply safe_bind; [exact Hp|]. intros resp Hr. apply safe_ret. by apply HP. Qed.

Section server.
Context `{CM : ChiMux} (promhttp_Handler : SRequest → Proc SResponse).
Hypothesis promhttp_sound : ∀ q : SRequest,
  sound (λ resp, ¬ client_body (p_body resp) ∧ ¬ user_body (p_body resp)) (promhttp_Handler q).

Lemma runServer_sound cfg (r : SRequest) :
  v = NewOIDCValidator (cfg_Auth cfg) (cfg_DevMode cfg) → sound (answerable r) (runServer promhttp_Handler cfg r).
Proof using promhttp_sound.
  intros Hv. unfold runServer, NewRouter. rewrite <-Hv.
  set (inner := SecurityHeadersMiddleware _).
  assert (∀ resp h, answerable r resp → answerable r (mkSResponse (p_status resp) h (p_body resp))) as Hhs by done.
  assert (sound (answerable r) (inner r)) as Hinner.
  { subst inner. apply safe_add_headers; [done|]. unfold SourceIPMiddleware, BodyLimitMiddleware.
    case_match; [apply answerable_error|].
    set (q := with_body _ _). assert (q_headers q = q_headers r) as Hq by done. clearbody q.
    eapply safe_mono; [intros resp; by apply answerable_headers|].
    unfold dispatch. destruct (chi_route _ _ _) as [n| |];
      [|apply safe_ret, answerable_neither; by intros Hb..].
    destruct (route_entries _ _ _ _ !! n) as [[[m path] handler]|] eqn:Hn;
      [|apply safe_ret, answerable_neither; by intros Hb].
    apply list_elem_of_lookup_2 in Hn. unfold route_entries in Hn. rewrite !elem_of_app in Hn.
    destruct Hn as [Hn|[Hn|Hn]].
    - apply list_elem_of_singleton in Hn as [= _ _ ->]. eapply safe_mono; [|apply HealthHandler_sound].
      intros resp []. by apply answerable_neither.
    - destruct (cfg_Metrics cfg); [|by apply not_elem_of_nil in Hn].
      apply list_elem_of_singleton in Hn as [= _ _ ->]. eapply safe_mono; [|apply promhttp_sound].
      intros resp []. by apply answerable_neither.
    - rewrite !elem_of_cons, elem_of_nil in Hn. simpl in Hn.
      destruct Hn as [[= _ _ ->]|[[= _ _ ->]|[[= _ _ ->]|[[= _ _ ->]|[[= _ _ ->]|[[= _ _ ->]|[[= _ _ ->]|[[= _ _ ->]|[]]]]]]]]].
      + apply ClientAuth_sound. intros r'. by apply SignHandler_sound.
      + apply ClientAuth_sound, RevokeHandler_sound.
      + apply ClientAuth_sound, JWKSHandler_sound.
      + apply ClientAuth_sound, CAPublicKeyHandler_sound.
      + apply ClientAuth_sound, AdminHandler_sound.
      + apply BearerAuth_sound, HandleList_sound.
      + apply BearerAuth_sound, HandleGet_sound.
      + apply BearerAuth_sound, UserInfoHandler_sound. }
  destruct (cors_Enabled _); [|done]. unfold CORSMiddleware. cbv zeta.
  case_decide; [apply safe_ret, answerable_neither; by intros Hb|]. by apply safe_add_headers.
Qed.
End server.
End access.

(** ** The runs of the server *)

Section main.
Context `{SE : SecretsEngine} `{CR : Crypto} `{JL : JwtLib} `{EV : !SignerEnv} `{CM : ChiMux}.
Context (promhttp_Handler : SRequest → Proc SResponse) (cfg : Config).
Implicit Types (w : SWorld).

(** The metrics handler writes text and leaves the signer's state alone. *)
Definition text_only (resp : SResponse) : Prop := ∃ s, p_body resp = BText s.
Definition metrics_apart : Prop := ∀ q, bystander text_only (promhttp_Handler q).

Abbreviation validator := (NewOIDCValidator (cfg_Auth cfg) (cfg_DevMode cfg)).
Abbreviation step := (pool_step (serves promhttp_Handler cfg)).

Lemma metrics_calm : metrics_apart → ∀ q, calm no_certificate (promhttp_Handler q).
Proof.
  intros Hm q. eapply calm_mono; [|apply bystander_calm, Hm]. intros resp [s Hs] x. by rewrite Hs.
Qed.

(** Every state of a run has a log that is part of the last one. *)
Lemma run_log_within w0 s s' :
  metrics_apart → signer_db_ok (s_db w0) → rtc step ([], w0) s → rtc step s s' →
  log_within (t_issuance (s_db s'.2)) (t_revocations (s_db s'.2)) s.2.
Proof.
  intros Hm Hok Hs Hw. pose proof (metrics_calm Hm) as Hcalm. destruct s as [ps1 w1], s' as [ps w].
  destruct (server_pool _ _ w0 ps1 w1 Hcalm Hok Hs) as [Hev Hps].
  pose proof (evolves_ok _ _ _ Hev Hok) as Hok1.
  apply (wp_pool (evolves (policyEnforcer (sign_handler cfg))) (serves promhttp_Handler cfg)
           (λ w, signer_db_ok (s_db w)) recorded) in Hw as [[_ Hw] _]; try done.
  - destruct (Hw Hok1) as (_ & Hi & Hr & _). by split.
  - intros w2 w3. apply evolves_ok.
  - intros p w2 [r ->] Hok2. by apply runServer_wp.
Qed.

Lemma serves_sound clients issued revoked :
  metrics_apart → ∀ r, safe (served_ok validator clients) (log_within issued revoked)
    (answerable validator clients issued revoked r) (runServer promhttp_Handler cfg r).
Proof.
  intros Hm r. apply runServer_sound; [|done]. intros q. eapply safe_mono; [|apply bystander_safe; [|apply Hm]].
  - intros resp [s Hs]. rewrite Hs. split; by intros H1.
  - unfold served_ok. by intros w w' -> ->.
Qed.

Lemma server_run_sound w0 s s' :
  metrics_apart → signer_db_ok (s_db w0) → cache_ok validator (m_jwks (s_mem w0)) →
  rtc step ([], w0) s → rtc step s s' →
  let inv := served_ok validator (t_clients (s_db w0)) in
  let sound := safe inv (log_within (t_issuance (s_db s'.2)) (t_revocations (s_db s'.2))) in
  inv s.2 ∧ Forall (sound (λ _, True)) s.1.
Proof.
  intros Hm Hok Hcache Hs Hw inv sound. eapply (safe_pool inv _ _ (λ _, True) 0 (mret aborted)) in Hs as (HI & Hps & _); [done| | |done|done].
  - intros p [r ->]. eapply safe_mono; [|by apply serves_sound]. done.
  - intros t Ht1 Ht2. eapply run_log_within; [done|done|done|by etrans].
Qed.

(** C17: who is answered. Take any run of the server, with any interleaving of requests and
    any failures, and a request in it. If it is answered with what only clients get (a
    certificate, a revocation, a rotation, the CA keys as a key set, as JSON or as a line of
    plain text), its headers carry the identifier of an enabled client of the table and a
    secret that matches its hash. If it is answered with what only users get (certificates,
    the user's identity), it carries a bearer header, and with OIDC validation on, its token
    is verified by a key set fetched for the token's own issuer and the issuer is an allowed
    one; with validation off (dev mode) no token is verified, and the identity is the fixed
    one of the configuration, whatever the token. The identity answered is that one, and the
    certificates are at most 100 of the log, issued to the address of that identity, shown as
    revoked only if the revocation is on record. The metrics handler, a library's, is taken
    to write text and to leave the signer's state alone. *)
Theorem answers_authorized w0 ps1 w1 ps w i r resp :
  metrics_apart → signer_db_ok (s_db w0) → cache_ok validator (m_jwks (s_mem w0)) →
  reachable_from promhttp_Handler cfg w0 (ps1, w1) → ps1 !! i = Some (runServer promhttp_Handler cfg r) →
  rtc step (ps1, w1) (ps, w) → ps !! i = Some (Ret resp) →
  answerable validator (t_clients (s_db w0)) (t_issuance (s_db w)) (t_revocations (s_db w)) r resp.
Proof.
  intros Hm Hok Hcache Hs Hi Hw Hresp.
  destruct (server_run_sound w0 _ _ Hm Hok Hcache Hs Hw) as [HI Hps].
  eapply (safe_pool _ _ _ (answerable validator (t_clients (s_db w0)) (t_issuance (s_db w)) (t_revocations (s_db w)) r) i)
    in Hw as (_ & _ & Hi'); [..|exact HI|exact Hps].
  - destruct (Hi' Hi) as (p' & Hp' & Hsafe); [by apply serves_sound|]. cbn [fst] in Hp'. rewrite Hresp in Hp'.
    by injection Hp' as <-.
  - intros p [r' ->]. eapply safe_mono; [|by apply serves_sound]. done.
  - intros t Ht1 Ht2. eapply run_log_within; [done|done| |done]. etrans; [exact Hs|done].
Qed.

(** The cache of key sets. In every state that requests reach, with any interleaving, the
    cache holds at most the configured number of issuers (at least one), and under each only
    a key set that was fetched for that issuer. *)
Theorem key_sets_bounded w0 ps w :
  metrics_apart → signer_db_ok (s_db w0) → cache_ok validator (m_jwks (s_mem w0)) →
  reachable_from promhttp_Handler cfg w0 (ps, w) → cache_ok validator (m_jwks (s_mem w)).
Proof.
  intros Hm Hok Hcache Hrun. by destruct (server_run_sound w0 _ _ Hm Hok Hcache Hrun (rtc_refl _ _)) as [[_ Hc] _].
Qed.
End main.
