(* ===== verification/SignerOps.v ===== *)
(** * What the operations of the signer do when nothing fails

    One request alone, with every server answering: what a rotation leaves behind, which
    serial an issuance takes, what it records. *)

From stdpp Require Import base gmap sets list strings.
From Stdlib Require Import ZArith Ascii Lia.
From S2P Require Import Prelude GoError Models Schema Wire AmieStore SignerText Rfc3339 SignerStore SignerEffects.
From S2P Require Import SignerLogic SignerPolicy SignerVault SignerAuth SignerHandlers SignerServer.
From S2P Require Import SignerSerial SignerLogic.

Section alone.
Context `{SE : SecretsEngine} `{CR : Crypto} `{JL : JwtLib} `{EV : !SignerEnv} `{KL : !KVLaws}.
Implicit Types (w : SWorld) (t cl slot : string).

(** ** Running a sequence *)

Lemma run_bind {A B} (p : Proc A) (k : A → Proc B) w :
  run (p ≫= k) w = run (k (run p w).1) (run p w).2.
Proof.
  revert w. induction p as [a|X op k' IH]; intros w; [done|]. cbn [mbind Proc_bind run].
  destruct (do_op op w) as [x w']. apply (IH x w').
Qed.

Lemma run_try {A B} f (p : Proc (Res A)) (k : A → Proc (Res B)) w a w' :
  run p w = (Ok a, w') → run (try_map f p k) w = run (k a) w'.
Proof. intros Hp. unfold try_map. rewrite run_bind, Hp. done. Qed.

(** Every round trip is answered, the random source works, keys can be encoded. *)
Class Reliable : Prop := {
  all_answered n : outcome n = Answered;
  all_random n : is_Some (random n);
  marshal_private k : ∃ b, MarshalPKCS8PrivateKey (PrivEd25519 k) = Ok b;
  marshal_public k : ∃ b, MarshalPKIXPublicKey (PubEd25519 k) = Ok b;
  pem_not_empty ty b : pem_Encode ty b ≠ "" }.

Context `{RL : !Reliable} (c : Client).

(** ** The secrets of a client *)

Definition slot_path t cl slot : string := kvPath c [t; cl; slot].

Definition key_at t cl slot (s : kv) : option CAKeyPair :=
  match kv_read (slot_path t cl slot) s with
  | Some (data, _) => if decide (kp_PrivateKey (key_of data) = "") then None else Some (key_of data)
  | None => None
  end.
Definition metadata_at t cl (s : kv) : option CAMetadata :=
  (λ d, metadata_of d.1) <$> kv_read (slot_path t cl "metadata") s.

#[export] Instance slot_path_inj t cl : Inj (=) (=) (slot_path t cl).
Proof.
  intros x y. unfold slot_path, kvPath. cbn [foldl]. intros He. apply (inj (String.append _)) in He.
  by apply (inj (String.append "/")) in He.
Qed.

(** The state after a write of [data] at a slot. *)
Definition written t cl slot (data : gmap string SVal) (s s' : kv) : Prop :=
  ∃ n, kv_read (slot_path t cl slot) s' = Some (data, n) ∧
  ∀ path, path ≠ slot_path t cl slot → kv_read path s' = kv_read path s.

Lemma run_read_key t cl slot w :
  run (readCAKey c t cl slot) w = (Ok (key_at t cl slot (s_vault w)), bump_io w).
Proof using RL.
  unfold readCAKey, try_map, trigger, key_at, slot_path. cbn [mbind Proc_bind run do_op]. rewrite all_answered. cbn [run mret Proc_ret].
  by destruct (kv_read _ _) as [[data n]|].
Qed.

Lemma run_write_key t cl slot kp w :
  ∃ s', run (writeCAKey c t cl slot kp) w = (Ok tt, set_vault s' (bump_io w)) ∧
        written t cl slot (key_data kp) (s_vault w) s'.
Proof using RL KL.
  destruct (kv_write_plain (slot_path t cl slot) (key_data kp) (s_vault w)) as [s' Hw]. exists s'. split.
  - unfold writeCAKey, try_map, trigger. cbn [mbind Proc_bind run do_op]. rewrite all_answered.
    unfold slot_path in Hw. by rewrite Hw.
  - eexists. split; [by eapply kv_read_written|]. intros path Hne. by eapply kv_read_other.
Qed.

Lemma run_write_metadata t cl m w :
  ∃ s', run (writeMetadata c t cl m) w = (Ok tt, set_vault s' (bump_io w)) ∧
        written t cl "metadata" (metadata_data m) (s_vault w) s'.
Proof using RL KL.
  destruct (kv_write_plain (slot_path t cl "metadata") (metadata_data m) (s_vault w)) as [s' Hw]. exists s'. split.
  - unfold writeMetadata, metadata_path, try_map, trigger. cbn [mbind Proc_bind run do_op]. rewrite all_answered.
    unfold slot_path in Hw. by rewrite Hw.
  - eexists. split; [by eapply kv_read_written|]. intros path Hne. by eapply kv_read_other.
Qed.

Lemma run_read_metadata t cl w : run (readMetadata c t cl) w = (Ok (metadata_at t cl (s_vault w)), bump_io w).
Proof using RL.
  unfold readMetadata, readMetadataWithVersion, metadata_path, try_map, trigger, metadata_at, slot_path.
  cbn [mbind Proc_bind run do_op]. rewrite all_answered. cbn [run mret Proc_ret mbind Proc_bind].
  by destruct (kv_read _ _) as [[data n]|].
Qed.

(** A new key, with a private key that is not empty. *)
Lemma run_generate w :
  ∃ kp n n', run generateEd25519CAKey w =
    (Ok kp, mkSWorld (s_db w) (s_vault w) (s_mem w) n n' (s_io w)) ∧ kp_PrivateKey kp ≠ "" ∧ kp_Algorithm kp = "ed25519".
Proof using RL.
  unfold generateEd25519CAKey, nowUTC_s, try_map, trigger. cbn [mbind Proc_bind run do_op].
  destruct (all_random (s_random w)) as [e ->]. cbn [mbind Proc_bind]. destruct (ed25519_GenerateKey e) as [pub priv].
  destruct (marshal_private priv) as [b1 ->]. destruct (marshal_public pub) as [b2 ->].
  eexists _, _, _. split; [done|]. split; [apply pem_not_empty|done].
Qed.

Lemma written_key t cl slot kp s s' :
  written t cl slot (key_data kp) s s' → kp_PrivateKey kp ≠ "" → key_at t cl slot s' = Some kp.
Proof. intros (n & Hr & _) Hp. unfold key_at. rewrite Hr, key_read_back. by rewrite decide_False. Qed.
Lemma written_key_other t cl slot slot' data s s' :
  written t cl slot data s s' → slot' ≠ slot → key_at t cl slot' s' = key_at t cl slot' s.
Proof. intros (n & _ & Ho) Hne. unfold key_at. rewrite Ho; [done|]. by intros ?%(inj (slot_path t cl)). Qed.
Lemma written_metadata t cl m s s' :
  written t cl "metadata" (metadata_data m) s s' → metadata_ok m → metadata_at t cl s' = Some m.
Proof. intros (n & Hr & _) Hm. unfold metadata_at. rewrite Hr. simpl. by rewrite metadata_read_back. Qed.
Lemma written_metadata_other t cl slot data s s' :
  written t cl slot data s s' → slot ≠ "metadata" → metadata_at t cl s' = metadata_at t cl s.
Proof. intros (n & _ & Ho) Hne. unfold metadata_at. rewrite Ho; [done|]. by intros ?%(inj (slot_path t cl)). Qed.

Lemma metadata_at_ok t cl s m : metadata_at t cl s = Some m → metadata_ok m.
Proof. unfold metadata_at. intros (d & _ & ->)%fmap_Some. apply metadata_of_ok. Qed.
Lemma key_at_private t cl slot s kp : key_at t cl slot s = Some kp → kp_PrivateKey kp ≠ "".
Proof. unfold key_at. destruct (kv_read _ _) as [[data n]|]; [|done]. case_decide; [done|]. by intros [= <-]. Qed.

(** ** Rotation *)

(** The metadata that a rotation at [now] writes. *)
Definition rotated_metadata (now : Time) (old : option CAMetadata) : CAMetadata :=
  mkCAMetadata (from_option SerialCounter 0%Z old) (Format now) (Format (next_rotation c now))
    (rot_PeriodHours (rotationCfg c)) (rot_OverlapHours (rotationCfg c)).

Context (Hrot : in_int64 (rot_PeriodHours (rotationCfg c)) = true ∧ in_int64 (rot_OverlapHours (rotationCfg c)) = true).

Lemma rotated_metadata_ok now t cl s : metadata_ok (rotated_metadata now (metadata_at t cl s)).
Proof using Hrot.
  split; [|done]. simpl. destruct (metadata_at t cl s) as [m|] eqn:E; [|done]. by apply metadata_at_ok in E as [? _].
Qed.

(** The key that becomes current: the next one, or a new one. *)
Lemma run_promote t cl (next : option CAKeyPair) w :
  (∀ kp, next = Some kp → kp_PrivateKey kp ≠ "") →
  ∃ cur n n' k s', run (match next with
                        | Some kp => writeCAKey c t cl "current" kp
                        | None => newCurrent ←? generateEd25519CAKey; writeCAKey c t cl "current" newCurrent
                        end) w = (Ok tt, mkSWorld (s_db w) s' (s_mem w) n n' k) ∧
    written t cl "current" (key_data cur) (s_vault w) s' ∧ kp_PrivateKey cur ≠ "" ∧ (∀ kp, next = Some kp → cur = kp).
Proof using RL KL.
  intros Hn. destruct next as [kp|].
  - destruct (run_write_key t cl "current" kp w) as (s' & -> & Hw). exists kp. eexists _, _, _, s'.
    split; [done|]. split; [done|]. split; [by apply Hn|]. by intros ? [= ->].
  - destruct (run_generate w) as (kp & n & n' & Hg & Hp & _).
    rewrite (run_try _ _ _ _ _ _ Hg).
    destruct (run_write_key t cl "current" kp (mkSWorld (s_db w) (s_vault w) (s_mem w) n n' (s_io w))) as (s' & -> & Hw).
    exists kp. eexists _, _, _, s'. split; [done|]. by split.
Qed.

Lemma run_new_next t cl w :
  ∃ kp n n' k s', run (newNext ←? generateEd25519CAKey; _ ←? writeCAKey c t cl "next" newNext; mret (Ok newNext)) w =
      (Ok kp, mkSWorld (s_db w) s' (s_mem w) n n' k) ∧
    written t cl "next" (key_data kp) (s_vault w) s' ∧ kp_PrivateKey kp ≠ "".
Proof using RL KL.
  destruct (run_generate w) as (kp & n & n' & Hg & Hp & _). rewrite (run_try _ _ _ _ _ _ Hg).
  destruct (run_write_key t cl "next" kp (mkSWorld (s_db w) (s_vault w) (s_mem w) n n' (s_io w))) as (s' & Hr & Hw).
  rewrite (run_try _ _ _ _ _ _ Hr). exists kp. eexists _, _, _, s'. by split.
Qed.

Lemma run_rewrite_metadata t cl now w :
  ∃ s', run (m ←? readMetadata c t cl;
             writeMetadata c t cl
               (mkCAMetadata (match m with Some meta => SerialCounter meta | None => 0%Z end)
               (Format now) (Format (next_rotation c now)) (rot_PeriodHours (rotationCfg c)) (rot_OverlapHours (rotationCfg c)))) w =
      (Ok tt, set_vault s' (bump_io (bump_io w))) ∧
    written t cl "metadata" (metadata_data (rotated_metadata now (metadata_at t cl (s_vault w)))) (s_vault w) s'.
Proof using RL KL.
  rewrite (run_try _ _ _ _ _ _ (run_read_metadata t cl w)).
  destruct (run_write_metadata t cl (rotated_metadata now (metadata_at t cl (s_vault w))) (bump_io w)) as (s' & Hr & Hw).
  exists s'. split; [|exact Hw]. rewrite <-Hr. by destruct (metadata_at t cl (s_vault w)).
Qed.

(** Rotation. When every server answers, [RotateCA] makes the published next key the
    current one (a new key when there was none), publishes a new next key, and keeps the
    serial counter; it returns the two public keys that are then stored. The metadata read
    back afterwards are the ones written, with the instant of the next rotation one period
    later to the second. Nothing else changes: no other secret, no row. *)
Theorem rotation_promotes t cl w :
  ∃ cur nxt n w', run (RotateCA c t cl) w = (Some (Ok (kp_PublicKey cur, kp_PublicKey nxt)), w') ∧
    key_at t cl "current" (s_vault w') = Some cur ∧ key_at t cl "next" (s_vault w') = Some nxt ∧
    (∀ kp, key_at t cl "next" (s_vault w) = Some kp → cur = kp) ∧
    metadata_at t cl (s_vault w') = Some (rotated_metadata (now_at n) (metadata_at t cl (s_vault w))) ∧
    (printable (next_rotation c (now_at n)) →
     Parse (NextRotationAt (rotated_metadata (now_at n) (metadata_at t cl (s_vault w)))) =
       Some (Unix (next_rotation c (now_at n)) * second)%Z) ∧
    s_db w' = s_db w ∧ s_mem w' = s_mem w ∧
    ∀ path, path ∉ [slot_path t cl "current"; slot_path t cl "next"; slot_path t cl "metadata"] →
      kv_read path (s_vault w') = kv_read path (s_vault w).
Proof using RL KL Hrot.
  unfold RotateCA. cbv zeta. rewrite run_bind, run_read_key. cbn [fst snd]. set (next := key_at t cl "next" (s_vault w)).
  destruct (run_promote t cl next (bump_io w)) as (cur & n1 & n1' & k1 & s1 & H1 & W1 & Pc & Hcur).
  { intros kp. apply key_at_private. }
  rewrite run_bind, H1. cbn [fst snd]. set (w1 := mkSWorld _ s1 _ _ _ _).
  destruct (run_new_next t cl w1) as (nxt & n2 & n2' & k2 & s2 & H2 & W2 & Pn).
  rewrite run_bind, H2. cbn [fst snd]. set (w2 := mkSWorld _ s2 _ _ _ _).
  unfold nowUTC_s at 1, trigger at 1. cbn [mbind Proc_bind run do_op]. rewrite run_bind.
  destruct (run_rewrite_metadata t cl (now_at (s_clock w2)) (tick w2)) as (s3 & H3 & W3). rewrite H3. cbn [fst snd].
  rewrite run_bind, run_read_key. cbn [fst snd run mret Proc_ret].
  assert (metadata_at t cl s2 = metadata_at t cl (s_vault w)) as Hm.
  { rewrite (written_metadata_other _ _ _ _ _ _ W2) by done. by apply (written_metadata_other _ _ _ _ _ _ W1). }
  assert (key_at t cl "current" s3 = Some cur) as Hc.
  { rewrite (written_key_other _ _ _ _ _ _ _ W3), (written_key_other _ _ _ _ _ _ _ W2) by done. by eapply written_key. }
  change (s_vault (set_vault s3 (bump_io (bump_io (tick w2))))) with s3. rewrite Hc.
  change (s_vault (tick w2)) with s2 in W3. rewrite Hm in W3.
  exists cur, nxt, (s_clock w2). eexists. split; [done|]. cbn [s_vault bump_io set_vault]. split; [done|]. split.
  { rewrite (written_key_other _ _ _ _ _ _ _ W3) by done. by eapply written_key. }
  split; [exact Hcur|]. split; [eapply written_metadata; [exact W3|]; apply rotated_metadata_ok|].
  split; [intros Hp; by apply Parse_Format|]. split; [done|]. split; [done|].
  intros path Hpath. rewrite !not_elem_of_cons in Hpath. destruct Hpath as (Np1 & Np2 & Np3 & _).
  destruct W1 as (? & _ & O1), W2 as (? & _ & O2), W3 as (? & _ & O3). by rewrite O3, O2, O1.
Qed.

(** ** Issuance *)

Lemma run_increment t cl m w :
  metadata_at t cl (s_vault w) = Some m →
  ∃ s', run (IncrementSerialCounter c t cl) w =
      (Ok (wrap64 (SerialCounter m + 1)), set_vault s' (bump_io (bump_io w))) ∧
    written t cl "metadata" (metadata_data (with_serial (wrap64 (SerialCounter m + 1)) m)) (s_vault w) s'.
Proof using RL KL.
  unfold metadata_at. intros ((data & v) & Hr & ->)%fmap_Some. cbn [fst].
  set (m := metadata_of data). set (d := metadata_data _).
  destruct (proj2 (kv_write_cas (slot_path t cl "metadata") v d (s_vault w))) as [s' Hw].
  { unfold kv_version. by rewrite Hr. }
  exists s'. split.
  - unfold slot_path in Hr, Hw.
    unfold IncrementSerialCounter, readMetadataWithVersion, writeMetadataCAS, metadata_path, try_map, trigger.
    cbn [mbind Proc_bind run do_op]. rewrite all_answered, Hr. cbn [mbind Proc_bind mret Proc_ret run do_op].
    rewrite all_answered. change (s_vault (bump_io w)) with (s_vault w). fold m. fold d. by rewrite Hw.
  - eexists. split; [by eapply kv_read_written|]. intros path Hne. by eapply kv_read_other.
Qed.

Lemma run_sign req sshSigner w :
  ParseCAPrivateKey (CAPrivateKeyPEM req) = Ok sshSigner →
  (∀ entropy cert, is_Ok (ssh_SignCert entropy sshSigner cert)) →
  ∃ res n n', run (SignCertificate req) w = (Ok res, mkSWorld (s_db w) (s_vault w) (s_mem w) n n' (s_io w)) ∧ signed req res.
Proof using RL.
  intros Hk Hs. unfold SignCertificate. rewrite Hk. unfold try_map, trigger. cbn [mbind Proc_bind run do_op].
  destruct (all_random (s_random w)) as [e ->]. cbn [mbind Proc_bind run do_op].
  destruct (all_random (s_random (tick (draw w)))) as [e' ->]. cbn [mbind Proc_bind mret Proc_ret run].
  destruct (Hs e' (certificate_of req e (now_at (s_clock (draw w))))) as [bytes Hb]. rewrite Hb.
  eexists _, _, _. split; [done|]. by exists sshSigner, e, e', (s_clock (draw w)).
Qed.

(** No row has a serial number. *)
Definition free (serial : Z) (d : SignerDB) : Prop :=
  map_Forall (λ _ r, ir_serial_number r ≠ serial) (t_issuance d).

(** What the columns of the log can hold. *)
Definition storable (l : IssuanceLog) : Prop :=
  valid_text (il_KeyID l) && valid_text (il_UserEmail l) && valid_text (il_SourceIP l) &&
  valid_text (default "" (il_ForceCommand l)) && valid_text (il_TenantID l) && valid_text (il_ClientID l) &&
  valid_text (il_Principal l) = true ∧
  fits [(255, il_TenantID l); (255, il_ClientID l); (255, il_KeyID l); (255, il_Principal l);
        (255, il_UserEmail l); (255, il_PublicKeyFingerprint l); (255, il_CAFingerprint l);
        (45, il_SourceIP l); (255, il_UserAccessTokenHash l)] ∧
  pg_time_ok (il_ValidAfter l) && pg_time_ok (il_ValidBefore l) = true.

Lemma run_log l w :
  storable l →
  (free (il_SerialNumber l) (s_db w) ∧ ∃ now, run (LogIssuance l) w =
     (Ok tt, set_sdb (set_issuance (<[seq_issuance (s_db w) := issuance_row (seq_issuance (s_db w)) now l]> (t_issuance (s_db w)))
                        (seq_issuance (s_db w) + 1)%Z (s_db w)) (bump_io w))) ∨
  (¬ free (il_SerialNumber l) (s_db w) ∧ ∃ e, isDuplicateKeyError e = true ∧ run (LogIssuance l) w = (Err e, bump_io w)).
Proof using RL.
  intros (H1 & H2 & H3). unfold LogIssuance, InsertIssuanceLog, try_map, trigger. cbn [mbind Proc_bind run do_op].
  rewrite all_answered. unfold insert_issuance, free. rewrite (decide_True (P := _ && _ = true)) by done.
  rewrite (decide_True (P := fits _)), (decide_True (P := pg_time_ok _ && _ = true)) by done.
  destruct (decide (map_Forall _ _)); [left|right]; (split; [done|]); [by eexists|].
  eexists. split; [|done]. done.
Qed.

Section issue.
Context (h : SignHandler) (cfg : ClientConfig) (req : SignBody) (principal email fp sourceIP : string).
Context (exts : list string) (signReq : Z → CertRequest) (sshSigner : SSHSigner).
Hypothesis Hclient : vaultClient h = c.
Hypothesis Hkey : ∀ serial, ParseCAPrivateKey (CAPrivateKeyPEM (signReq serial)) = Ok sshSigner.
Hypothesis Hsign : ∀ entropy cert, is_Ok (ssh_SignCert entropy sshSigner cert).

Abbreviation entry := (audit_entry cfg req principal email fp sourceIP exts).
Hypothesis Hfits : ∀ serial res, signed (signReq serial) res → storable (entry serial res).

(** An attempt with the next serial: what is returned when the serial is free, what goes on
    when it is not. *)
Definition attempt (otherwise : error → Proc SResponse) : Proc SResponse :=
  or_reply_res (internal_error "Failed to allocate serial number")
    (IncrementSerialCounter (vaultClient h) (TenantID cfg) (ClientID cfg)) (λ serial,
  or_reply_res (internal_error "Failed to sign certificate") (SignCertificate (signReq serial)) (λ res,
  r ← LogIssuance (entry serial res);
  match r with
  | Ok _ => mret (sign_response cfg req principal exts serial res)
  | Err e => otherwise e
  end)).

(** A certificate with serial [k] was returned, recorded and counted. *)
Definition issued_with (k : Z) (m : CAMetadata) (d : SignerDB) (o : SResponse * SWorld) : Prop :=
  ∃ res now, o.1 = sign_response cfg req principal exts k res ∧
    s_db o.2 = set_issuance (<[seq_issuance d := issuance_row (seq_issuance d) now (entry k res)]> (t_issuance d))
                 (seq_issuance d + 1)%Z d ∧
    metadata_at (TenantID cfg) (ClientID cfg) (s_vault o.2) = Some (with_serial k m).

Lemma run_attempt otherwise m w k :
  metadata_at (TenantID cfg) (ClientID cfg) (s_vault w) = Some m → k = (SerialCounter m + 1)%Z → in_int64 k = true →
  (free k (s_db w) ∧ issued_with k m (s_db w) (run (attempt otherwise) w)) ∨
  (¬ free k (s_db w) ∧ ∃ e w', isDuplicateKeyError e = true ∧ run (attempt otherwise) w = run (otherwise e) w' ∧
     s_db w' = s_db w ∧ metadata_at (TenantID cfg) (ClientID cfg) (s_vault w') = Some (with_serial k m)).
Proof using KL RL Hclient Hkey Hsign Hfits.
  intros Hm Hk Hin.
  destruct (run_increment _ _ _ _ Hm) as (s1 & Hinc & W1). rewrite <-Hk, (wrap64_id k) in Hinc, W1 by done.
  set (w1 := set_vault s1 _) in Hinc.
  destruct (run_sign (signReq k) sshSigner w1 (Hkey k) Hsign) as (res & n & n' & Hres & Hsigned).
  set (w2 := mkSWorld _ _ _ _ _ _) in Hres.
  assert (run (attempt otherwise) w =
    run (match (run (LogIssuance (entry k res)) w2).1 with
         | Ok _ => mret (sign_response cfg req principal exts k res)
         | Err e => otherwise e
         end) (run (LogIssuance (entry k res)) w2).2) as ->.
  { unfold attempt. rewrite Hclient. unfold or_reply_res. rewrite run_bind, Hinc. cbn [fst snd].
    rewrite run_bind, Hres. cbn [fst snd]. by rewrite run_bind. }
  assert (metadata_at (TenantID cfg) (ClientID cfg) s1 = Some (with_serial k m)) as Hm1.
  { eapply written_metadata; [exact W1|]. apply metadata_at_ok in Hm as (_ & ? & ?). by split. }
  destruct (run_log (entry k res) w2 (Hfits k res Hsigned)) as [(Hf & now & ->)|(Hf & e & He & ->)]; [left|right].
  - split; [exact Hf|]. exists res, now. by split.
  - split; [exact Hf|]. exists e, (bump_io w2). do 2 (split; [done|]). split; [done|exact Hm1].
Qed.

Lemma issue_attempts :
  issue h cfg req principal email fp sourceIP exts signReq =
  attempt (λ e, if negb (isDuplicateKeyError e) then mret (internal_error "Failed to record issuance")
                else attempt (λ _, mret (internal_error "Failed to record issuance"))).
Proof. reflexivity. Qed.

(** C35: which serial is issued. The last part of a signing request, run alone for a client
    that has metadata in Vault, when every server answers and carries out what it is asked, the
    CA key it was handed parses, the SSH library signs with it, and the row of the log fits its
    columns (a source address of at most 45 characters, and so on): it takes the serial after
    the counter if no certificate has it, the one after that if only the first is taken, and
    fails with 500 when both are; in the first two cases the response carries that serial and
    the certificate is recorded with it, in the last nothing is recorded. The counter, which
    must leave room for two serials, ends at the last serial tried. *)
Theorem issue_serials m w :
  metadata_at (TenantID cfg) (ClientID cfg) (s_vault w) = Some m →
  let k := SerialCounter m in
  (k + 2 ≤ max_int64)%Z →
  let o := run (issue h cfg req principal email fp sourceIP exts signReq) w in
  (free (k + 1) (s_db w) → issued_with (k + 1) m (s_db w) o) ∧
  (¬ free (k + 1) (s_db w) → free (k + 2) (s_db w) → issued_with (k + 2) m (s_db w) o) ∧
  (¬ free (k + 1) (s_db w) → ¬ free (k + 2) (s_db w) →
     o.1 = internal_error "Failed to record issuance" ∧ s_db o.2 = s_db w ∧
     metadata_at (TenantID cfg) (ClientID cfg) (s_vault o.2) = Some (with_serial (k + 2) m)).
Proof using KL RL Hclient Hkey Hsign Hfits.
  intros Hm k Hk. cbv zeta. rewrite issue_attempts.
  pose proof (metadata_at_ok _ _ _ _ Hm) as [Hin _]. apply in_int64_spec in Hin. fold k in Hin.
  assert (in_int64 (k + 1) = true ∧ in_int64 (k + 2) = true) as [Hin1 Hin2] by (rewrite !in_int64_spec; lia).
  match goal with |- context [attempt ?o] => destruct (run_attempt o m w (k + 1) Hm eq_refl Hin1) as
    [[Hf Hi]|(Hf & e & w1 & He & Hrun & Hdb & Hm1)] end.
  - split; [done|]. split; intros Hn; by destruct (Hn Hf).
  - rewrite Hrun, He. cbn [negb]. split; [by intros ?|]. rewrite <-Hdb.
    match goal with |- context [attempt ?o] =>
      destruct (run_attempt o (with_serial (k + 1) m) w1 (k + 2) Hm1) as [[Hf2 Hi]|(Hf2 & e2 & w2 & He2 & Hrun2 & Hdb2 & Hm2)] end.
    + cbn [with_serial SerialCounter]. lia.
    + done.
    + split; [by intros _ _|]. intros _ Hn. by destruct (Hn Hf2).
    + split; [by intros _ ?|]. intros _ _. rewrite Hrun2. by split.
Qed.
End issue.
End alone.
