(* ===== verification/SignerScenario.v ===== *)
(** * A concrete signer

    A secrets engine, keys, tokens and a router that satisfy what the theorems assume of
    them, two clients, and runs of the server: the theorems applied to them, and what the
    code does in the cases where the clients of the service may expect something else. *)

From stdpp Require Import base gmap sets list strings pretty.
From Stdlib Require Import ZArith Ascii Lia.
From S2P Require Import Prelude GoError Models Schema Wire AmieStore SignerText Rfc3339 SignerStore SignerEffects.
From S2P Require Import SignerLogic SignerPolicy SignerVault SignerAuth SignerHandlers SignerServer.
From S2P Require Import SignerLogic SignerTheorems SignerSerial SignerKeys SignerAccess SignerOps.

(** ** Instances *)

(** The last version of each path, and how many there were before it. *)
Definition map_write (path : string) (cas : option nat) (d : gmap string SVal)
    (s : gmap string (gmap string SVal * nat)) : option (gmap string (gmap string SVal * nat)) :=
  let v := default 0 (S ∘ snd <$> s !! path) in
  match cas with
  | Some c => if (c =? v)%nat then Some (<[path := (d, v)]> s) else None
  | None => Some (<[path := (d, v)]> s)
  end.
#[local] Instance map_engine : SecretsEngine := {|
  kv := gmap string (gmap string SVal * nat);
  kv_read path s := prod_map id S <$> s !! path;
  kv_write := map_write |}.

Lemma map_engine_version path (s : kv) : kv_version path s = default 0 (S ∘ snd <$> (s : gmap _ _) !! path).
Proof. unfold kv_version. simpl. by destruct (_ !! path) as [[]|]. Qed.

#[local] Instance map_laws : KVLaws.
Proof.
  split.
  - intros path s d v. simpl. destruct (_ !! path) as [[d' n]|]; simpl; [|done]. intros [= _ <-]. lia.
  - intros path d s. by eexists.
  - intros path c d s. rewrite map_engine_version. simpl. unfold map_write. destruct (Nat.eqb_spec c (default 0 (S ∘ snd <$> (s : gmap _ _) !! path))).
    + split; [done|by eexists].
    + split; [by intros []|done].
  - intros path c d s s'. rewrite map_engine_version. simpl. unfold map_write.
    destruct c; [destruct (_ =? _)%nat; [|done]|]; intros [= <-]; by rewrite lookup_insert_eq.
  - intros path path' c d s s'. simpl. unfold map_write.
    destruct c; [destruct (_ =? _)%nat; [|done]|]; intros [= <-] Hne; by rewrite lookup_insert_ne.
Qed.

(** Keys are their own encoding. *)
#[local] Instance plain_keys : Crypto := {|
  ed25519_GenerateKey e := ("P" +:+ e, "S" +:+ e);
  MarshalPKCS8PrivateKey k := match k with PrivEd25519 k => Ok k | _ => Err (NewError "unsupported" []) end;
  MarshalPKIXPublicKey k := match k with PubEd25519 k => Ok k | _ => Err (NewError "unsupported" []) end;
  ParsePKCS8PrivateKey b := Ok (PrivEd25519 b);
  ParseECPrivateKey b := Ok b;
  ParsePKCS1PrivateKey b := Ok b;
  ParsePKIXPublicKey b := Ok (if decide (b = "rsa") then PubRSA b 65537
                              else if decide (b = "ec") then PubECDSA 256 "X" "Y" else PubEd25519 b);
  pem_Encode ty b := "-" +:+ ty +:+ "|" +:+ b;
  pem_Decode s := match s with String _ s' => cut "|" s' | EmptyString => None end;
  ssh_NewSignerFromKey k := Ok (mkSSHSigner k false);
  ssh_PublicKeyOf s := match signer_key s with PrivEd25519 (String _ k) => "P" +:+ k | _ => "" end;
  ssh_NewPublicKey k := Ok (match k with PubEd25519 k => k | PubRSA n _ => n | PubECDSA _ x _ => x | PubOther k => k end);
  ssh_ParseAuthorizedKey s := Ok s;
  ssh_KeyType _ := "ssh-ed25519";
  ssh_MarshalAuthorizedKey k := "ssh-ed25519 " +:+ k;
  ssh_FingerprintSHA256 k := "SHA256:" +:+ k;
  ssh_SignCert _ s cert := Ok (Cert_KeyId cert);
  sha256_Sum256 s := s;
  bcrypt_CompareHashAndPassword h p := String.eqb h p |}.

(** One issuer; a token is the name of its user, and some have no address. *)
Definition token_of (s : string) : Token :=
  mkToken "https://idp" s (if String.prefix "anon" s then ∅ else <["email" := JStr (s +:+ "@site")]> ∅).
#[local] Instance one_issuer : JwtLib := {|
  KeySet := string;
  jwt_ParseInsecure s := Ok (token_of s);
  jwt_Parse keys _ s := if decide (keys = "keys") then Ok (token_of s) else Err (NewError "no key" []) |}.

Lemma elements_perm (s : gset string) : elements s ≡ₚ elements s.
Proof. done. Qed.

Section outcomes.
Context (outcome' : nat → Outcome).
Definition env_with : SignerEnv := {|
  now_at _ := (1700000000 * second)%Z;
  server_now n := ((1700000000 + Z.of_nat n) * second)%Z;
  random n := Some (pretty n);
  outcome := outcome';
  http_Get _ _ := None;
  jwk_Fetch _ uri := if decide (uri = "https://idp/.well-known/jwks.json") then Ok "keys" else Err (NewError "404" []);
  ldap_Connect _ _ _ := true;
  ldap_Bind _ _ _ := true;
  ldap_Search _ _ _ _ := Some [];
  ldap_EscapeFilter s := s;
  range_cache s := elements s;
  range_cache_perm := elements_perm |}.
End outcomes.
#[local] Instance calm_env : SignerEnv := env_with (λ _, Answered).

#[local] Instance first_match : ChiMux := {|
  chi_route routes method path :=
    match list_find (λ x, (x.1 = method ∨ x.1 = "") ∧ pattern_matches x.2 path = true) routes with
    | Some (n, _) => Routed n
    | None => NotFound
    end |}.
#[local] Instance first_match_laws : ChiLaws.
Proof.
  split.
  - intros routes method path n. simpl. destruct (list_find _ _) as [[i [m p]]|] eqn:E; [|done]. intros [= <-].
    apply list_find_Some in E as (Hi & [Hm Hp] & _). by exists m, p.
  - intros routes method path n m p Hn Hm Hp. simpl. destruct (list_find _ _) as [[i x]|] eqn:E; [by eexists|].
    apply list_find_None in E. by destruct (proj1 (Forall_lookup _ _) E n _ Hn).
Qed.

#[local] Instance calm_reliable : Reliable.
Proof. split; try done; try (intros k; by eexists). Qed.

Definition metrics_page (q : SRequest) : Proc SResponse := mret (mkSResponse 200 ∅ (BText "metrics")).
Lemma metrics_page_apart : metrics_apart metrics_page.
Proof. intros q. by exists "metrics". Qed.

(** ** Schedules *)

Section schedules.
Context {A : Type} (start : Proc A → Prop).

(** The processes with these places make a step, in this order. *)
Fixpoint run_schedule (sched : list nat) (s : list (Proc A) * SWorld) : option (list (Proc A) * SWorld) :=
  match sched with
  | [] => Some s
  | i :: sched' =>
      match s.1 !! i with
      | Some p => match proc_step p s.2 with
                  | Some (p', w') => run_schedule sched' (<[i := p']> s.1, w')
                  | None => None
                  end
      | None => None
      end
  end.
Lemma run_schedule_rtc sched s s' : run_schedule sched s = Some s' → rtc (pool_step start) s s'.
Proof.
  revert s. induction sched as [|i sched IH]; intros [ps w]; cbn [run_schedule fst snd]; [by intros [= <-]|].
  destruct (ps !! i) as [p|] eqn:Hi; [|done]. destruct (proc_step p w) as [[p' w']|] eqn:Hp; [|done].
  intros He. eapply rtc_l; [by eapply PoolStep|]. by apply IH.
Qed.

Lemma run_schedule_default sched s d :
  match run_schedule sched s with Some _ => true | None => false end = true → run_schedule sched s = Some (default d (run_schedule sched s)).
Proof. by destruct (run_schedule sched s). Qed.

(** Processes that start together. *)
Lemma starts_rtc ps qs w : Forall start qs → rtc (pool_step start) (ps, w) (ps ++ qs, w).
Proof.
  intros Hq. revert ps. induction Hq as [|q qs Hq _ IH]; intros ps; [by rewrite app_nil_r|].
  eapply rtc_l; [by apply (PoolStart start ps q w)|]. specialize (IH (ps ++ [q])). by rewrite <-app_assoc in IH.
Qed.

(** A process that runs to its end. *)
Lemma run_rtc p w : rtc (pool_step start) ([p], w) ([Ret (run p w).1], (run p w).2).
Proof.
  revert w. induction p as [a|X op k IH]; intros w; [done|]. cbn [run]. destruct (do_op op w) as [x w'] eqn:E.
  eapply rtc_l; [eapply (PoolStep start _ 0 _ (k x) w w')|]; [done|by simpl; rewrite E|apply IH].
Qed.
End schedules.

(** ** Two clients *)

Definition client_row (t cl : string) (restriction : option string) : ClientRow :=
  mkClientRow t cl "secret" "login.site" 22 3600 (JArr [JStr "ed25519"]) restriction None "" true.
Definition db0 : SignerDB :=
  mkSignerDB (<[("t", "a") := client_row "t" "a" (Some "10.0.0.0/8")]> (<[("t", "b") := client_row "t" "b" None]> ∅)) ∅ ∅ 1 1.
Definition world0 : SWorld := mkSWorld db0 ∅ empty_memory 0 0 0.

Lemma db0_ok : signer_db_ok db0.
Proof.
  split; [|done]. split; [|done]. intros k r. simpl. rewrite !lookup_insert_Some.
  intros [[<- <-]|[_ [[<- <-]|[_ Hr]]]]; [done..|]. by rewrite lookup_empty in Hr.
Qed.

Definition config : Config := DefaultConfig.
Definition server : SRequest → Proc SResponse := runServer metrics_page config.

Definition request (method path : string) (headers : list (string * string)) (body : option (JBody * Z))
    (query : list (string * string)) : SRequest :=
  mkSRequest method path headers "10.1.2.3:4567" 0 body query None None "".
Definition as_client (cl : string) : list (string * string) := [("X-Client-Id", "t:" +:+ cl); ("X-Client-Secret", "secret")].
Definition as_user (user : string) : list (string * string) := [("Authorization", "Bearer " +:+ user)].

Definition sign_body : JBody :=
  BObj [("principal", JStr "alice"); ("ttl_seconds", JNum "600"); ("public_key", JStr "KEY");
        ("user_access_token", JStr "alice")].
Definition sign_request (cl : string) : SRequest :=
  request "POST" "/api/v1/sign" (as_client cl) (Some (sign_body, 100%Z)) [].
Definition list_request (user : string) : SRequest := request "GET" "/api/v1/certificates" (as_user user) None [].

(** The state after requests that are served one after the other. *)
Fixpoint serve_all (rs : list SRequest) (w : SWorld) : list SResponse * SWorld :=
  match rs with
  | [] => ([], w)
  | r :: rs' =>
      let '(resp, w') := run (server r) w in
      let '(resps, w'') := serve_all rs' w' in (resp :: resps, w'')
  end.

Definition signed_once := run (server (sign_request "a")) world0.
Definition signed_response : SignResponse :=
  match p_body signed_once.1 with BSign x => x | _ => mkSignResponse "" 0 0 0 "" "" 0 "" "" [] end.

Example signed_ok : p_body signed_once.1 = BSign signed_response ∧ sr_SerialNumber signed_response = 1%Z.
Proof. by vm_compute. Qed.

(** ** The theorems on these runs *)

Lemma server_serves r : serves metrics_page config (server r).
Proof. by exists r. Qed.

Lemma served_reachable r : reachable_from metrics_page config world0 ([Ret (run (server r) world0).1], (run (server r) world0).2).
Proof.
  unfold reachable_from. etrans; [apply (starts_rtc _ [] [server r]); repeat constructor; apply server_serves|]. apply run_rtc.
Qed.

Lemma certificates_recorded_witness :
  p_body signed_once.1 = BSign signed_response ∧
  ∃ i r, t_issuance (s_db signed_once.2) !! i = Some r ∧ attests (t_clients (s_db signed_once.2)) r signed_response.
Proof.
  split; [by vm_compute|].
  apply (certificates_recorded metrics_page config world0 [Ret signed_once.1] signed_once.2 signed_once.1 signed_response).
  - intros q x. done.
  - exact db0_ok.
  - apply served_reachable.
  - by left.
  - by vm_compute.
Defined.

Lemma sane_clock0 : sane_clock.
Proof. intros n. unfold Unix. simpl. rewrite Z.div_mul by (unfold second; lia). lia. Qed.

Lemma config_ttls : sane_ttls config (t_clients db0).
Proof.
  intros cc (row & k & Hk & Hs & _). simpl in Hk. rewrite !lookup_insert_Some in Hk.
  destruct Hk as [[_ <-]|[_ [[_ <-]|[_ Hr]]]]; [..|by rewrite lookup_empty in Hr]; injection Hs as <-; by vm_compute.
Qed.

Lemma issuance_log_policy_witness :
  t_issuance (s_db signed_once.2) !! 1%Z ≠ None ∧
  signer_db_ok (s_db signed_once.2) ∧ t_clients (s_db signed_once.2) = t_clients (s_db world0) ∧
  t_issuance (s_db world0) ⊆ t_issuance (s_db signed_once.2) ∧
  t_revocations (s_db world0) ⊆ t_revocations (s_db signed_once.2) ∧
  ∀ i r, t_issuance (s_db signed_once.2) !! i = Some r →
    t_issuance (s_db world0) !! i = Some r ∨ allowed_row config (t_clients (s_db world0)) r.
Proof.
  split; [by vm_compute|].
  apply (issuance_log_policy metrics_page config world0 [Ret signed_once.1] signed_once.2).
  - intros q x. done.
  - exact db0_ok.
  - exact sane_clock0.
  - exact config_ttls.
  - apply served_reachable.
Defined.

(** After the first issuance a token's key set is in the cache; its user lists the
    certificate. *)
Definition listed := run (server (list_request "alice")) signed_once.2.

Lemma list_served :
  rtc (pool_step (serves metrics_page config)) ([Ret signed_once.1; server (list_request "alice")], signed_once.2)
    ([Ret signed_once.1; Ret listed.1], listed.2).
Proof.
  unfold listed. generalize (server (list_request "alice")) signed_once.2 (@Ret _ SResponse signed_once.1). intros p w q.
  revert w. induction p as [a|X op k IH]; intros w; [done|]. cbn [run]. destruct (do_op op w) as [x w'] eqn:E.
  eapply rtc_l; [eapply (PoolStep _ _ 1 _ (k x) w w')|]; [done|by simpl; rewrite E|apply IH].
Qed.

Lemma cache0_ok : cache_ok (NewOIDCValidator (cfg_Auth config) (cfg_DevMode config)) (m_jwks (s_mem world0)).
Proof. split; [by vm_compute|]. intros issuer e He. change ((∅ : gmap string (jwksEntry KeySet)) !! issuer = Some e) in He. by rewrite lookup_empty in He. Qed.

Lemma answers_authorized_witness :
  (∃ c, p_body listed.1 = BCertificates (mkCertificateListResponse [c] 1 20 0) ∧ ct_SerialNumber c = 1%Z) ∧
  answerable (NewOIDCValidator (cfg_Auth config) (cfg_DevMode config)) (t_clients (s_db world0))
    (t_issuance (s_db listed.2)) (t_revocations (s_db listed.2)) (list_request "alice") listed.1.
Proof.
  split; [eexists; by vm_compute|].
  apply (answers_authorized metrics_page config world0 [Ret signed_once.1; server (list_request "alice")] signed_once.2
           [Ret signed_once.1; Ret listed.1] listed.2 1).
  - apply metrics_page_apart.
  - exact db0_ok.
  - exact cache0_ok.
  - unfold reachable_from. etrans; [apply (served_reachable (sign_request "a"))|].
    apply (starts_rtc _ [Ret signed_once.1] [server (list_request "alice")]). repeat constructor. apply server_serves.
  - done.
  - apply list_served.
  - done.
Defined.

Lemma key_sets_bounded_witness :
  m_jwks (s_mem signed_once.2) !! "https://idp" ≠ None ∧
  cache_ok (NewOIDCValidator (cfg_Auth config) (cfg_DevMode config)) (m_jwks (s_mem signed_once.2)).
Proof.
  split; [by vm_compute|].
  apply (key_sets_bounded metrics_page config world0 [Ret signed_once.1] signed_once.2).
  - apply metrics_page_apart.
  - exact db0_ok.
  - exact cache0_ok.
  - apply served_reachable.
Defined.

(** Two increments that read the same version: one of them is refused. *)
Definition ca : Client := signer_client config.
Definition inc : Proc (Res Z) := IncrementSerialCounter ca "t" "a".
Definition raced : list (Proc (Res Z)) * SWorld := default ([], world0) (run_schedule [0; 1; 1; 0; 2; 2] ([inc; inc; inc], signed_once.2)).

(** The counter and the version, checked by evaluation. *)
Lemma stored_check w k v :
  match kv_read (path ca "t" "a") (s_vault w) with
  | Some (d, v') => (v' =? v)%nat && (SerialCounter (metadata_of d) =? k)%Z
  | None => false
  end = true → stored ca "t" "a" w k v.
Proof.
  unfold stored. destruct (kv_read _ _) as [[d v']|]; [|done]. intros [<-%Nat.eqb_eq Hk%Z.eqb_eq]%andb_true_iff. by exists d.
Qed.

Lemma serials_distinct_witness :
  match raced.1 with [Ret (Err _); Ret (Ok 2%Z); Ret (Ok 3%Z)] => True | _ => False end ∧
  ∃ k v, stored ca "t" "a" raced.2 k v ∧
    (∀ i n, raced.1 !! i = Some (Ret (Ok n)) → (1 < n ≤ k)%Z) ∧
    ∀ i j n, raced.1 !! i = Some (Ret (Ok n)) → raced.1 !! j = Some (Ret (Ok n)) → i = j.
Proof.
  split; [vm_compute; exact I|].
  apply (serials_distinct ca "t" "a" signed_once.2 1 2 raced.1 raced.2).
  - apply stored_check. by vm_compute.
  - vm_compute. done.
  - vm_compute. done.
  - etrans; [apply (starts_rtc _ [] [inc; inc; inc]); by repeat constructor|].
    apply (run_schedule_rtc _ [0; 1; 1; 0; 2; 2]). rewrite <-surjective_pairing. apply run_schedule_default. by vm_compute.
Defined.

Local Open Scope Z_scope.

Lemma exponent_loop_terminates_witness :
  (exponent_loop 8 65537 "").1 ≤ 0 ∧
  (∀ fuel, (8 ≤ fuel)%nat → exponent_loop fuel 65537 "" = exponent_loop 8 65537 "") ∧
  (0 ≤ 65537 → be_value 0 (exponent_bytes 65537) = 65537) ∧ no_leading_zero (exponent_bytes 65537).
Proof. apply exponent_loop_terminates. by vm_compute. Defined.

Lemma jwk_roundtrip_witness :
  ∃ j, PublicKeyToJWK "-PUBLIC KEY|ec" = Some (Ok j) ∧ jwk_public j = Some (PubECDSA 256 "X" "Y") ∧
       j !! "kid" = Some (ssh_FingerprintSHA256 "X").
Proof.
  assert (parse_public_pem "-PUBLIC KEY|ec" = Ok (PubECDSA 256 "X" "Y", "X")) as Hp by (by vm_compute).
  pose proof (jwk_roundtrip "-PUBLIC KEY|ec") as H. rewrite Hp in H. apply H.
  split; [by left|]. split; [done|]. split; [done|]. split; vm_compute; lia.
Defined.

Definition restricted_client : ClientConfig :=
  mkClientConfig "t" "a" "secret" "login.site" 22 3600 ["ED25519"] (Some "10.0.0.0/8") [] "" true.

Lemma policy_decides_witness :
  Enforce (NewEnforcer 86400 []) 600 "ssh-ed25519" "10.1.2.3" restricted_client = None ↔
  0 < 600 ≤ effective_max_ttl (NewEnforcer 86400 []) restricted_client ∧
  (∃ at_, at_ ∈ effective_key_types (NewEnforcer 86400 []) restricted_client ∧
     EqualFold at_ (NormalizeKeyType "ssh-ed25519") = true) ∧
  ip_value [10; 1; 2; 3] / 2 ^ (32 - 8) = ip_value [10; 0; 0; 0] / 2 ^ (32 - 8).
Proof. by apply (policy_decides _ _ _ _ _ "10.0.0.0/8" "10.0.0.0" "8"). Defined.

Lemma client_keys_distinct_witness :
  client_key "t" "a:b" = "t:a:b" ∧ (client_key "t" "a:b" = client_key "t" "a" → "t" = "t" ∧ "a:b" = "a").
Proof. by apply (client_keys_distinct "t:a:b" "t:a"). Defined.

(** A rotation after the first certificate. *)
Lemma rotation_promotes_witness :
  ∃ cur nxt n w', run (RotateCA ca "t" "a") signed_once.2 = (Some (Ok (kp_PublicKey cur, kp_PublicKey nxt)), w') ∧
    key_at ca "t" "a" "current" (s_vault w') = Some cur ∧ key_at ca "t" "a" "next" (s_vault w') = Some nxt ∧
    (∀ kp, key_at ca "t" "a" "next" (s_vault signed_once.2) = Some kp → cur = kp) ∧
    metadata_at ca "t" "a" (s_vault w') = Some (rotated_metadata ca (now_at n) (metadata_at ca "t" "a" (s_vault signed_once.2))) ∧
    (printable (next_rotation ca (now_at n)) →
     Parse (NextRotationAt (rotated_metadata ca (now_at n) (metadata_at ca "t" "a" (s_vault signed_once.2)))) =
       Some (Unix (next_rotation ca (now_at n)) * second)%Z) ∧
    s_db w' = s_db signed_once.2 ∧ s_mem w' = s_mem signed_once.2 ∧
    ∀ path, path ∉ [slot_path ca "t" "a" "current"; slot_path ca "t" "a" "next"; slot_path ca "t" "a" "metadata"] →
      kv_read path (s_vault w') = kv_read path (s_vault signed_once.2).
Proof. by apply (rotation_promotes ca). Defined.

Lemma routes_dispatch_witness :
  dispatch (route_entries metrics_page config (NewOIDCValidator (cfg_Auth config) (cfg_DevMode config)) (signer_handlers config))
    (sign_request "a") =
  ClientAuthMiddleware (SignHandler_Handle (sign_handler config)) (sign_request "a").
Proof.
  destruct (routes_dispatch metrics_page config (NewOIDCValidator (cfg_Auth config) (cfg_DevMode config))
              (signer_handlers config) (sign_request "a")) as [Hd _].
  - intros path [= <-]. by vm_compute.
  - by apply (Hd 2%nat "POST" "/api/v1/sign").
Defined.

(** ** Which serial is issued *)

Definition handler0 : SignHandler := sign_handler config.
Definition client_of (cl : string) : ClientConfig :=
  mkClientConfig "t" cl "secret" "login.site" 22 3600 ["ed25519"] None [] "" true.
Definition body0 : SignBody := mkSignBody "alice" 600 "KEY" "alice" "" [].
Definition cert_request0 (serial : Z) : CertRequest :=
  mkCertRequest "KEY" "-PRIVATE KEY|S0" (wrapu64 serial) "alice" "a" 600 ∅ ∅.

Lemma issue_serials_witness :
  let w := (serve_all [sign_request "a"; sign_request "b"; sign_request "b"] world0).2 in
  let o := run (issue handler0 (client_of "a") body0 "alice" "alice@site" "SHA256:KEY" "10.1.2.3" [] cert_request0) w in
  p_status o.1 = 500 ∧ o.1 = internal_error "Failed to record issuance" ∧ s_db o.2 = s_db w.
Proof.
  intros w o. split; [by vm_compute|].
  destruct (metadata_at ca "t" "a" (s_vault w)) as [m|] eqn:Hm; [|by vm_compute in Hm].
  assert (SerialCounter m = 1) as Hk by (vm_compute in Hm; by injection Hm as <-).
  assert (∀ k, match t_issuance (s_db w) !! k with Some r => ir_serial_number r =? k | None => false end = true →
            ¬ free k (s_db w)) as Htaken.
  { intros k Hr Hf. destruct (t_issuance (s_db w) !! k) as [r|] eqn:E; [|done]. apply Z.eqb_eq in Hr. by apply (Hf k r E). }
  destruct (issue_serials ca handler0 (client_of "a") body0 "alice" "alice@site" "SHA256:KEY" "10.1.2.3" []
              cert_request0 (mkSSHSigner (PrivEd25519 "S0") false)) with (m := m) (w := w) as (_ & _ & H3).
  - reflexivity.
  - done.
  - intros entropy cert. by eexists.
  - intros serial res (s & nonce & entropy & n & Hs & _ & _ & Hid & Ha & Hb & Hf). injection Hs as <-.
    unfold storable, audit_entry. rewrite Hid, Ha, Hb, Hf.
    split; [by vm_compute|]. split; [|by vm_compute]. apply (bool_decide_unpack _). by vm_compute.
  - exact Hm.
  - rewrite Hk. by vm_compute.
  - rewrite Hk in H3. destruct H3 as (Ho & Hdb & _); [apply Htaken; by vm_compute..|]. by split.
Defined.

(** ** What the code does in some cases *)

(** The first increment of a counter that does not exist returns 1 and stores 0, so the
    second returns 1 as well. *)
Example first_serial_twice :
  let o1 := run inc world0 in
  let o2 := run inc o1.2 in
  o1.1 = Ok 1 ∧ o2.1 = Ok 1.
Proof. by vm_compute. Qed.

(** A rotation writes the counter it read: an increment between the read and the write is
    lost, and its serial is returned again. *)
Definition rotate : Proc (Res Z) := _ ← RotateCA ca "t" "a"; mret (Ok 0).
Example rotation_loses_serial :
  match run_schedule (replicate 9 0 ++ [1; 1; 0; 0; 2; 2])%nat ([rotate; inc; inc], signed_once.2) with
  | Some ([Ret (Ok 0); Ret (Ok 2); Ret (Ok 2)], _) => True
  | _ => False
  end.
Proof. vm_compute. exact I. Qed.

(** Counters are per client, serials are unique over all clients, and there is one retry:
    after two certificates for one client the first request of another fails. *)
Example second_client_refused :
  p_status <$> (serve_all [sign_request "a"; sign_request "a"; sign_request "b"] world0).1 = [200; 200; 500].
Proof. by vm_compute. Qed.

Definition revoke_request (cl : string) (ms : list (string * JVal)) : SRequest :=
  request "POST" "/api/v1/revoke" (as_client cl) (Some (BObj (ms ++ [("reason", JStr "lost")]), 100)) [].
(** The serials a listing shows, and whether each is revoked. *)
Definition listing (resps : list SResponse) : option (list (Z * bool) * nat * Z) :=
  match last resps with
  | Some resp =>
      match p_body resp with
      | BCertificates x => Some ((λ c, (ct_SerialNumber c, ct_Revoked c)) <$> cl_Certificates x, cl_Total x, cl_Limit x)
      | _ => None
      end
  | None => None
  end.

(** A revocation by key or by CA is accepted, and the certificate is not shown as revoked. *)
Example revoked_by_key_ignored :
  let o := serve_all [sign_request "a"; revoke_request "a" [("key_id", JStr "alice@a-1700000000")]; list_request "alice"] world0 in
  p_status <$> o.1 = [200; 200; 200] ∧ listing o.1 = Some ([(1, false)], 1%nat, 20).
Proof. by vm_compute. Qed.

(** Any client can revoke a certificate of any other. *)
Example revoked_by_another :
  listing (serve_all [sign_request "a"; revoke_request "b" [("serial_number", JNum "1")]; list_request "alice"] world0).1 =
  Some ([(1, true)], 1%nat, 20).
Proof. by vm_compute. Qed.

(** A certificate that was revoked twice is listed twice, and counted once. *)
Example revoked_twice_listed_twice :
  listing (serve_all [sign_request "a"; revoke_request "a" [("serial_number", JNum "1")];
                  revoke_request "a" [("serial_number", JNum "1")]; list_request "alice"] world0).1 =
  Some ([(1, true); (1, true)], 1%nat, 20).
Proof. by vm_compute. Qed.

(** The limit that a response reports is the one that was asked for, not the one applied. *)
Example limit_reported :
  listing (serve_all [request "GET" "/api/v1/certificates" (as_user "alice") None [("limit", "1000")]] world0).1 =
  Some ([], 0%nat, 1000) ∧ clamp_limit 1000 = 100.
Proof. by vm_compute. Qed.

(** The source address is what the client says it is. *)
Example source_address_claimed :
  let outside r := mkSRequest (q_method r) (q_path r) (q_headers r) "192.0.2.1:99" 0 (q_body r) [] None None "" in
  let claims r := mkSRequest (q_method r) (q_path r) (("X-Forwarded-For", "10.0.0.1") :: q_headers r) "192.0.2.1:99" 0
                    (q_body r) [] None None "" in
  p_status <$> (serve_all [outside (sign_request "a"); claims (sign_request "a")] world0).1 = [400; 200].
Proof. by vm_compute. Qed.

(** Users whose tokens have no address see each other's certificates. *)
Example no_address_shared :
  let body := BObj [("principal", JStr "alice"); ("ttl_seconds", JNum "600"); ("public_key", JStr "KEY");
                    ("user_access_token", JStr "anon1")] in
  listing (serve_all [request "POST" "/api/v1/sign" (as_client "a") (Some (body, 100)) []; list_request "anon2"] world0).1 =
  Some ([(1, false)], 1%nat, 20).
Proof. by vm_compute. Qed.
