(* ===== verification/SlurmTypes.v ===== *)
(** * Types of the SLURM REST client

    connectors/SLURM/Rest-Client/pkg/client: the records exchanged with slurmrestd,
    the two shapes of an association and the translation between them, filters and
    the query strings made from them, TRES lists. A slice is a list, nil and empty
    alike; a field that [omitempty] leaves out is read back as its zero value, so a
    record on the wire is the struct that is encoded. *)

From stdpp Require Import base countable list strings.
From Stdlib Require Import ZArith Ascii SpecFloat.
From S2P Require Import Prelude GoError Models Wire SignerText Rfc3339.

(** ** types.go *)

(** One element of [ErrorResponse.Errors]. *)
Record SlurmError := mkSlurmError {
  SlurmError_Description : string;
  SlurmError_ErrorNumber : Z;
  SlurmError_Error : string;
  SlurmError_Source : string }.

Record TRES := mkTRES {
  TRES_Type : string;
  TRES_Name : string;
  TRES_Count : float64 }.

Record Account := mkAccount {
  Account_Name : string;
  Account_Description : string;
  Account_Organization : string }.

Record AssocLimits := mkAssocLimits {
  GrpJobs : option Z;
  GrpTRES : list TRES;
  GrpTRESMins : list TRES;
  MaxWallPM : option Z }.
Definition no_limits : AssocLimits := mkAssocLimits None [] [] None.

Record Association := mkAssociation {
  Assoc_Account : string;
  Assoc_Cluster : string;
  Assoc_User : string;
  Assoc_Partition : string;
  Assoc_ParentAccount : string;
  Assoc_IsDefault : option bool;
  Assoc_ID : Z;
  Assoc_QoS : list string;
  Assoc_Limits : AssocLimits }.

Record SlurmNumber := mkSlurmNumber {
  Number_Set : bool;
  Number_Infinite : bool;
  Number_Number : Z }.

Definition numPtr (n : option Z) : option SlurmNumber :=
  match n with None => None | Some z => Some (mkSlurmNumber true false z) end.

Definition ptrNum (n : option SlurmNumber) : option Z :=
  match n with
  | None => None
  | Some n => if negb (Number_Set n) || Number_Infinite n then None else Some (Number_Number n)
  end.

Record assocMaxJobsPer := mkAssocMaxJobsPer {
  per_Count : option SlurmNumber;
  per_WallClock : option SlurmNumber }.
Record assocMaxJobs := mkAssocMaxJobs { jobs_Per : option assocMaxJobsPer }.
Record assocMaxTRESGp := mkAssocMaxTRESGp { group_Minutes : list TRES }.
Record assocMaxTRES := mkAssocMaxTRES {
  tres_Total : list TRES;
  tres_Group : option assocMaxTRESGp }.
Record assocMax := mkAssocMax {
  max_Jobs : option assocMaxJobs;
  max_TRES : option assocMaxTRES }.

Record assocWire := mkAssocWire {
  wire_Account : string;
  wire_Cluster : string;
  wire_User : string;
  wire_Partition : string;
  wire_ParentAccount : string;
  wire_IsDefault : option bool;
  wire_ID : Z;
  wire_QoS : list string;
  wire_Max : option assocMax }.

Definition marshal_jobs (l : AssocLimits) : option assocMaxJobs :=
  match GrpJobs l, MaxWallPM l with
  | None, None => None
  | _, _ => Some (mkAssocMaxJobs (Some (mkAssocMaxJobsPer (numPtr (GrpJobs l)) (numPtr (MaxWallPM l)))))
  end.

Definition marshal_tres (l : AssocLimits) : option assocMaxTRES :=
  if (0 <? length (GrpTRES l)) || (0 <? length (GrpTRESMins l)) then
    Some (mkAssocMaxTRES (GrpTRES l)
      (if 0 <? length (GrpTRESMins l) then Some (mkAssocMaxTRESGp (GrpTRESMins l)) else None))
  else None.

(** [Association.MarshalJSON]. *)
Definition MarshalJSON (a : Association) : assocWire :=
  let jobs := marshal_jobs (Assoc_Limits a) in
  let tres := marshal_tres (Assoc_Limits a) in
  mkAssocWire (Assoc_Account a) (Assoc_Cluster a) (Assoc_User a) (Assoc_Partition a)
    (Assoc_ParentAccount a) (Assoc_IsDefault a) (Assoc_ID a) (Assoc_QoS a)
    (match jobs, tres with None, None => None | _, _ => Some (mkAssocMax jobs tres) end).

Definition unmarshal_limits (m : option assocMax) : AssocLimits :=
  match m with
  | None => no_limits
  | Some m =>
      let '(jobs, wall) :=
        match max_Jobs m with
        | Some (mkAssocMaxJobs (Some per)) => (ptrNum (per_Count per), ptrNum (per_WallClock per))
        | _ => (None, None)
        end in
      let '(total, minutes) :=
        match max_TRES m with
        | Some t => (tres_Total t, match tres_Group t with Some g => group_Minutes g | None => [] end)
        | None => ([], [])
        end in
      mkAssocLimits jobs total minutes wall
  end.

(** [Association.UnmarshalJSON], on a value that encoding/json could decode. *)
Definition UnmarshalJSON (w : assocWire) : Association :=
  mkAssociation (wire_Account w) (wire_Cluster w) (wire_User w) (wire_Partition w)
    (wire_ParentAccount w) (wire_IsDefault w) (wire_ID w) (wire_QoS w) (unmarshal_limits (wire_Max w)).

Record JobTime := mkJobTime {
  Time_Elapsed : Z;
  Time_Eligible : Z;
  Time_End : Z;
  Time_Start : Z;
  Time_Submission : Z;
  Time_Suspended : Z }.
Record JobTresInfo := mkJobTresInfo {
  Tres_Allocated : list TRES;
  Tres_Requested : list TRES }.
Record JobExitInfo := mkJobExitInfo {
  Exit_Status : list string;
  Exit_ReturnCode : SlurmNumber }.
Record JobInfo := mkJobInfo {
  Job_Account : string;
  Job_Cluster : string;
  Job_Time : JobTime;
  Job_JobID : Z;
  Job_Name : string;
  Job_Partition : string;
  Job_QoS : string;
  Job_User : string;
  Job_Nodes : string;
  Job_Tres : JobTresInfo;
  Job_ExitCode : JobExitInfo;
  Job_DerivedExitCode : JobExitInfo }.
Record JobSubmitParam := mkJobSubmitParam {
  Submit_Account : string;
  Submit_Partition : string;
  Submit_QoS : string;
  Submit_Name : string;
  Submit_Tasks : Z;
  Submit_CurrentWorkingDir : string;
  Submit_Environment : list string;
  Submit_CpusPerTask : Z;
  Submit_Memory : Z;
  Submit_TimeLimit : SlurmNumber }.
Record JobSubmitRequest := mkJobSubmitRequest {
  Submit_Param : JobSubmitParam;
  Submit_Script : string }.
Record JobSubmitResponse := mkJobSubmitResponse {
  Submitted_JobID : Z;
  Submitted_StepID : string;
  Submitted_UserMsg : string }.

(** ** net/url *)

Definition hex_upper (n : nat) : ascii :=
  if n <? 10 then ascii_of_nat (48 + n) else ascii_of_nat (55 + n).

(** The bytes a query keeps as they are. *)
Definition unreserved (c : ascii) : bool :=
  byte_in 97 122 c || byte_in 65 90 c || byte_in 48 57 c ||
  byte_in 45 46 c || byte_in 95 95 c || byte_in 126 126 c.

Definition escape_byte (c : ascii) (rest : string) : string :=
  let n := nat_of_ascii c in
  if unreserved c then String c rest
  else if (n =? 32) then String "+" rest
  else String "%" (String (hex_upper (n / 16)) (String (hex_upper (n mod 16)) rest)).

(** [url.QueryEscape]. *)
Fixpoint QueryEscape (s : string) : string :=
  match s with
  | EmptyString => EmptyString
  | String c s' => escape_byte c (QueryEscape s')
  end.

(** [url.Values.Encode] of single-valued parameters, given in the order of their keys. *)
Fixpoint Encode (kvs : list (string * string)) : string :=
  match kvs with
  | [] => ""
  | [(k, v)] => QueryEscape k +:+ "=" +:+ QueryEscape v
  | (k, v) :: kvs' => QueryEscape k +:+ "=" +:+ QueryEscape v +:+ "&" +:+ Encode kvs'
  end.

(** [path], and [?q] after it unless [q] is empty. *)
Definition with_query (path q : string) : string := if decide (q = "") then path else path +:+ "?" +:+ q.

(** ** associations.go *)

Record AssocFilter := mkAssocFilter {
  Filter_Account : string;
  Filter_User : string;
  Filter_Cluster : string;
  Filter_Partition : string }.

(** The parameters that are set; [Encode] sorts them by key. *)
Definition set_param (k v : string) : list (string * string) := if decide (v = "") then [] else [(k, v)].
Definition filter_params (f : AssocFilter) : list (string * string) :=
  set_param "account" (Filter_Account f) ++ set_param "cluster" (Filter_Cluster f) ++
  set_param "partition" (Filter_Partition f) ++ set_param "user" (Filter_User f).
Definition filter_query (f : AssocFilter) : string := Encode (filter_params f).

(** [==] on TRES: NaN equals nothing, the two zeros are equal. *)
Definition tres_eqb (s t : TRES) : bool :=
  bool_decide (TRES_Type s = TRES_Type t) && bool_decide (TRES_Name s = TRES_Name t) &&
  SFeqb (TRES_Count s) (TRES_Count t).

(** A [map[TRES]int]: a missing key counts 0, and a key with a NaN is never found again. *)
Fixpoint tally_get (t : TRES) (counts : list (TRES * Z)) : Z :=
  match counts with
  | [] => 0
  | (k, n) :: counts' => if tres_eqb t k then n else tally_get t counts'
  end.
Fixpoint tally_add (t : TRES) (d : Z) (counts : list (TRES * Z)) : list (TRES * Z) :=
  match counts with
  | [] => [(t, d)]
  | (k, n) :: counts' => if tres_eqb t k then (k, (n + d)%Z) :: counts' else (k, n) :: tally_add t d counts'
  end.

Fixpoint tally_check (counts : list (TRES * Z)) (b : list TRES) : bool :=
  match b with
  | [] => true
  | t :: b' =>
      let counts := tally_add t (-1) counts in
      if (tally_get t counts <? 0)%Z then false else tally_check counts b'
  end.

Definition tresSliceEqualUnordered (a b : list TRES) : bool :=
  if length a =? length b then tally_check (foldl (λ counts t, tally_add t 1 counts) [] a) b else false.

(** [assocKey] of association_writer.go: what identifies an association on one cluster. *)
Record assocKey := mkAssocKey {
  key_account : string;
  key_user : string;
  key_partition : string }.

#[export] Instance assocKey_eq_dec : EqDecision assocKey.
Proof. solve_decision. Defined.
#[export] Instance assocKey_countable : Countable assocKey.
Proof.
  refine (inj_countable' (λ k, (key_account k, key_user k, key_partition k))
    (λ '(a, u, p), mkAssocKey a u p) _).
  by intros [].
Defined.

(** ** jobs.go *)

Record JobFilter := mkJobFilter {
  JobFilter_Users : list string;
  JobFilter_StartTime : Z;
  JobFilter_EndTime : Z }.

(** [time.Unix(ts, 0).UTC().Format("2006-01-02T15:04:05")]. *)
Definition slurmQueryTime (ts : Z) : string :=
  let '(y, m, d) := civil_from_days (ts / 86400) in
  let sod := (ts mod 86400)%Z in
  four y +:+ "-" +:+ two m +:+ "-" +:+ two d +:+ "T" +:+
  two (sod / 3600) +:+ ":" +:+ two (sod / 60 mod 60) +:+ ":" +:+ two (sod mod 60).

(** [strings.Join(ss, sep)]. *)
Fixpoint Join (ss : list string) (sep : string) : string :=
  match ss with
  | [] => ""
  | [s] => s
  | s :: ss' => s +:+ sep +:+ Join ss' sep
  end.

(** The parameters of [ListJobs]. *)
Definition job_params (f : JobFilter) : list (string * string) :=
  (if (0 <? JobFilter_EndTime f)%Z then [("end_time", slurmQueryTime (JobFilter_EndTime f))] else []) ++
  (if (0 <? JobFilter_StartTime f)%Z then [("start_time", slurmQueryTime (JobFilter_StartTime f))] else []) ++
  (if 0 <? length (JobFilter_Users f) then [("users", Join (JobFilter_Users f) ",")] else []).

(** ** tres.go *)

Section tres.
Context `{TL : TextLib}.

Definition parse_entry (p : string) : Res TRES :=
  match cut "=" p with
  | None => Err (NewError "malformed TRES entry %q (want key=value)" [p])
  | Some (k, v) =>
      match ParseFloat (TrimSpace v) with
      | None => Err (NewError "TRES count %q not a number" [v])
      | Some n =>
          let key := TrimSpace k in
          Ok match cut "/" key with
             | Some (typ, name) => mkTRES typ name n
             | None => mkTRES key "" n
             end
      end
  end.

Fixpoint parse_entries (ps : list string) : Res (list TRES) :=
  match ps with
  | [] => Ok []
  | p :: ps' =>
      match parse_entry p with
      | Err e => Err e
      | Ok t => match parse_entries ps' with Ok ts => Ok (t :: ts) | Err e => Err e end
      end
  end.

Definition ParseTRES (s : string) : Res (list TRES) :=
  if decide (TrimSpace s = "") then Ok [] else parse_entries (split_on "," s).
End tres.
