(* ===== verification/SlurmEffects.v ===== *)
(** * Effects of the SLURM connectors

    The association mapper and the usage monitor run inside the server process: they
    call the core service ([core]) and, over HTTP, slurmrestd. slurmrestd is the class
    [SlurmServer], a function of the request and of a state of its own; a request can
    be lost on its way, and so can its answer. [SlurmLaws] says what is documented of
    associations: filters, upserts and deletions. A handler of an event, a sweep of the
    reconciler and a poll of the monitor are each one run. *)

From stdpp Require Import base gmap sets list strings.
From Stdlib Require Import ZArith Ascii SpecFloat.
From S2P Require Import Prelude GoError Models Schema Events IdentityCache Effects EffectsLogic.
From S2P Require Import Wire AuthService SignerText SlurmTypes.

Inductive ReqBody :=
  | NoBody
  | AssociationsBody (associations : list assocWire)
  | AccountsAssociationBody (accounts clusters : list string) (description organization : string)
  | SubmitBody (r : JobSubmitRequest).

Record SlurmRequest := mkSlurmRequest {
  req_method : string;
  req_url : string;
  req_user : string;             (* X-SLURM-USER-NAME *)
  req_token : string;            (* X-SLURM-USER-TOKEN *)
  req_body : ReqBody }.

(** A response: the text of its body, and what encoding/json makes of it for each of
    the structs the client decodes ([None] when it reports an error). *)
Record SlurmResponse := mkSlurmResponse {
  resp_status : Z;
  resp_text : string;
  resp_errors : option (list SlurmError);
  resp_associations : option (list assocWire);
  resp_accounts : option (list Account);
  resp_jobs : option (list JobInfo);
  resp_submitted : option JobSubmitResponse }.

Class SlurmServer := {
  sdb : Type;
  slurmrestd : SlurmRequest → sdb → SlurmResponse * sdb }.

(** Whether the [n]-th request reaches the server and its answer the client; otherwise
    the text of the error. *)
Inductive Delivery :=
  | Delivered
  | Undelivered (text : string)
  | Unanswered (text : string).

(** What else the connectors do not control: the URLs that [http.NewRequest] refuses,
    the ids OpenTelemetry gives to the [n]-th span, the order in which Go visits a map. *)
Class SlurmEnv := {
  delivery : nat → Delivery;
  url_error : string → option string;
  slurm_trace : nat → string;
  slurm_span : nat → string;
  range_assocs : gmap assocKey Association → list (assocKey * Association);
  range_assocs_perm m : range_assocs m ≡ₚ map_to_list m }.

(** ** State and monad *)

Section monad.
Context `{SS : SlurmServer}.

Record LWorld := mkLWorld {
  l_core : World;
  l_sdb : sdb;
  l_calls : nat;                  (* HTTP requests made *)
  l_spans : nat;                  (* spans started *)
  l_last : Z }.                   (* lastMonitorTime of the monitor *)

Definition set_lcore (c : World) (w : LWorld) : LWorld :=
  mkLWorld c (l_sdb w) (l_calls w) (l_spans w) (l_last w).
Definition set_sdb (s : sdb) (w : LWorld) : LWorld :=
  mkLWorld (l_core w) s (l_calls w) (l_spans w) (l_last w).
Definition bump_calls (w : LWorld) : LWorld :=
  mkLWorld (l_core w) (l_sdb w) (S (l_calls w)) (l_spans w) (l_last w).
Definition bump_lspans (w : LWorld) : LWorld :=
  mkLWorld (l_core w) (l_sdb w) (l_calls w) (S (l_spans w)) (l_last w).
Definition set_last (t : Z) (w : LWorld) : LWorld :=
  mkLWorld (l_core w) (l_sdb w) (l_calls w) (l_spans w) t.

(** The committed rows of the core database. *)
Definition l_db (w : LWorld) : DB := w_db (l_core w).

Definition LM (A : Type) : Type := LWorld → Res A * LWorld.

#[export] Instance LM_ret : MRet LM := λ A a w, (Ok a, w).
#[export] Instance LM_bind : MBind LM := λ A B k m w,
  match m w with
  | (Ok a, w') => k a w'
  | (Err e, w') => (Err e, w')
  end.

Definition lthrow {A} (e : error) : LM A := λ w, (Err e, w).
Definition lwrapf {A} (format : string) (args : list string) (m : LM A) : LM A := λ w,
  match m w with
  | (Ok a, w') => (Ok a, w')
  | (Err e, w') => (Err (Errorf format args e), w')
  end.

(** A call whose error the caller inspects. *)
Definition lcatch {A} (m : LM A) : LM (Res A) := λ w, let '(r, w') := m w in (Ok r, w').
Definition lgets {A} (f : LWorld → A) : LM A := λ w, (Ok (f w), w).
Definition lmodify (f : LWorld → LWorld) : LM unit := λ w, (Ok tt, f w).

(** [for _, x := range xs { m }], stopping at the first error. *)
Fixpoint leach {A} (f : A → LM unit) (xs : list A) : LM unit :=
  match xs with
  | [] => mret tt
  | x :: xs' => _ ← f x; leach f xs'
  end.

(** A loop over [xs] that updates a value, stopping at the first error. *)
Fixpoint lfold {A B} (f : B → A → LM B) (b : B) (xs : list A) : LM B :=
  match xs with
  | [] => mret b
  | x :: xs' => b' ← f b x; lfold f b' xs'
  end.

(** A call of the core service, or of one of its primitives. *)
Definition core {A} (m : M A) : LM A := λ w, let '(r, c) := m (l_core w) in (r, set_lcore c w).
End monad.
Abbreviation lwrap format m := (lwrapf format [] m).

(** ** internal/tracing *)

Section start.
Context `{SS : SlurmServer} `{SE : SlurmEnv}.

(** [tracing.Start]. [ctx_spanID] is the last span that is not one of the bus. *)
Definition StartSpan (ctx : AuditCtx) : LM AuditCtx :=
  n ← lgets l_spans;
  _ ← lmodify bump_lspans;
  let traceID := if decide (ctx_traceID ctx = "") then slurm_trace n else ctx_traceID ctx in
  mret (if decide (traceID = "" ∨ slurm_span n = "")
        then mkAuditCtx "" "" (ctx_spanID ctx) (ctx_source ctx)
        else mkAuditCtx traceID (slurm_span n) (ctx_spanID ctx) (ctx_source ctx)).
End start.

(** ** client.go *)

Record Client := mkClient {
  c_baseURL : string;
  c_user : string;
  c_token : string;
  c_apiVersion : string }.

Definition NewClient (baseURL user token apiVersion : string) : Client :=
  mkClient (trim_right_byte "/"%char baseURL) user token apiVersion.

Definition finite (x : float64) : bool :=
  match x with S754_zero _ | S754_finite _ _ _ => true | _ => false end.
Definition wire_tres (w : assocWire) : list TRES :=
  match wire_Max w with
  | Some m => match max_TRES m with
              | Some t => tres_Total t ++ match tres_Group t with Some g => group_Minutes g | None => [] end
              | None => []
              end
  | None => []
  end.

(** [json.Marshal(body)] fails on a number that is not finite. *)
Definition marshals (b : ReqBody) : bool :=
  match b with
  | AssociationsBody ws => forallb (λ w, forallb (λ t, finite (TRES_Count t)) (wire_tres w)) ws
  | _ => true
  end.

Definition client_request (c : Client) (method path : string) (body : ReqBody) : SlurmRequest :=
  mkSlurmRequest method (c_baseURL c +:+ path) (c_user c) (c_token c) body.

Section client.
Context `{SS : SlurmServer} `{SE : SlurmEnv}.
Implicit Types (c : Client).

(** [c.http.Do]. *)
Definition send (rq : SlurmRequest) : LM SlurmResponse := λ w,
  match delivery (l_calls w) with
  | Undelivered t => (Err (NewError "%s" [t]), bump_calls w)
  | Unanswered t => (Err (NewError "%s" [t]), set_sdb (slurmrestd rq (l_sdb w)).2 (bump_calls w))
  | Delivered =>
      let '(r, s) := slurmrestd rq (l_sdb w) in (Ok r, set_sdb s (bump_calls w))
  end.

Definition do (c : Client) (method path : string) (body : ReqBody) : LM SlurmResponse :=
  if negb (marshals body) then lthrow (NewError "json: unsupported value" [])
  else match url_error (c_baseURL c +:+ path) with
       | Some t => lthrow (NewError "%s" [t])
       | None =>
           resp ← send (client_request c method path body);
           if (400 <=? resp_status resp)%Z then
             match resp_errors resp with
             | Some (e :: _) =>
                 lthrow (NewError "slurmrestd %d: %s (code=%d source=%s)"
                   [FormatInt (resp_status resp); SlurmError_Description e;
                    FormatInt (SlurmError_ErrorNumber e); SlurmError_Source e])
             | _ => lthrow (NewError "slurmrestd %d: %s" [FormatInt (resp_status resp); resp_text resp])
             end
           else mret resp
       end.

(** [json.NewDecoder(resp.Body).Decode(out)]. *)
Definition decode {A} (out : option A) : LM A :=
  match out with
  | Some a => mret a
  | None => lthrow (Errorf "decode: %w" [] (NewError "invalid JSON" []))
  end.

(** ** associations.go *)

Definition associations_path c (f : AssocFilter) : string :=
  with_query ("/slurmdb/v0.0." +:+ c_apiVersion c +:+ "/associations") (filter_query f).
Definition association_path c (f : AssocFilter) : string :=
  with_query ("/slurmdb/v0.0." +:+ c_apiVersion c +:+ "/association") (filter_query f).

Definition ListAssociations c (f : AssocFilter) : LM (list Association) :=
  resp ← do c "GET" (associations_path c f) NoBody;
  ws ← decode (resp_associations resp);
  mret (UnmarshalJSON <$> ws).

Definition UpsertAssociation c (a : Association) : LM unit :=
  _ ← do c "POST" ("/slurmdb/v0.0." +:+ c_apiVersion c +:+ "/associations")
         (AssociationsBody [MarshalJSON a]);
  assos ← ListAssociations c
            (mkAssocFilter (Assoc_Account a) (Assoc_User a) (Assoc_Cluster a) (Assoc_Partition a));
  match assos with
  | [] => lthrow (NewError "association not found after upsert" [])
  | fetched :: _ =>
      if decide (Assoc_Account fetched ≠ Assoc_Account a ∨ Assoc_User fetched ≠ Assoc_User a ∨
                 Assoc_Cluster fetched ≠ Assoc_Cluster a ∨ Assoc_Partition fetched ≠ Assoc_Partition a)
      then lthrow (NewError "fetched association does not match upserted association" [])
      else if negb (tresSliceEqualUnordered (GrpTRES (Assoc_Limits fetched)) (GrpTRES (Assoc_Limits a)))
      then lthrow (NewError "fetched association limits GrpTRES does not match upserted association limits GrpTRES" [])
      else if negb (tresSliceEqualUnordered (GrpTRESMins (Assoc_Limits fetched)) (GrpTRESMins (Assoc_Limits a)))
      then lthrow (NewError "fetched association limits GrpTRESMins does not match upserted association limits GrpTRESMins" [])
      else mret tt
  end.

Definition DeleteAssociation c (f : AssocFilter) : LM unit :=
  _ ← do c "DELETE" (association_path c f) NoBody; mret tt.

(** ** accounts.go *)

Definition ListAccounts c : LM (list Account) :=
  resp ← do c "GET" ("/slurmdb/v0.0." +:+ c_apiVersion c +:+ "/accounts") NoBody;
  decode (resp_accounts resp).

Definition GetAccount c (name : string) : LM Account :=
  resp ← do c "GET" ("/slurmdb/v0.0." +:+ c_apiVersion c +:+ "/account/" +:+ name) NoBody;
  accounts ← decode (resp_accounts resp);
  match accounts with
  | [] => lthrow (NewError "account %q not found" [name])
  | a :: _ => mret a
  end.

Definition CreateAccount c (a : Account) (cluster : string) : LM unit :=
  _ ← do c "POST" ("/slurmdb/v0.0." +:+ c_apiVersion c +:+ "/accounts_association/")
         (AccountsAssociationBody [Account_Name a] [cluster] (Account_Description a) (Account_Organization a));
  mret tt.

Definition DeleteAccount c (name : string) : LM unit :=
  _ ← do c "DELETE" ("/slurmdb/v0.0." +:+ c_apiVersion c +:+ "/account/" +:+ name) NoBody; mret tt.

(** ** jobs.go *)

Definition jobs_path c (f : JobFilter) : string :=
  with_query ("/slurmdb/v0.0." +:+ c_apiVersion c +:+ "/jobs") (Encode (job_params f)).

Definition ListJobs c (filter : JobFilter) : LM (list JobInfo) :=
  resp ← do c "GET" (jobs_path c filter) NoBody;
  decode (resp_jobs resp).

Definition GetJob c (id : Z) : LM JobInfo :=
  resp ← do c "GET" ("/slurmdb/v0.0." +:+ c_apiVersion c +:+ "/job/" +:+ FormatInt id) NoBody;
  jobs ← decode (resp_jobs resp);
  match jobs with
  | [] => lthrow (NewError "job %d not found" [FormatInt id])
  | j :: _ => mret j
  end.

Definition SubmitJob c (request : JobSubmitRequest) : LM JobSubmitResponse :=
  resp ← do c "POST" ("/slurm/v0.0." +:+ c_apiVersion c +:+ "/job/submit") (SubmitBody request);
  decode (resp_submitted resp).
End client.

(** ** What is documented of slurmrestd

    Associations are keyed by cluster, account, user and partition, the empty user
    and partition standing for the account itself. *)

Definition RecordKey : Type := string * string * string * string.
Definition wire_key (w : assocWire) : RecordKey :=
  (wire_Cluster w, wire_Account w, wire_User w, wire_Partition w).

(** A parameter that is not given matches everything. *)
Definition param_matches (p v : string) : Prop := p = "" ∨ p = v.
Definition key_matches (f : AssocFilter) (k : RecordKey) : Prop :=
  let '(cluster, account, user, partition) := k in
  param_matches (Filter_Cluster f) cluster ∧ param_matches (Filter_Account f) account ∧
  param_matches (Filter_User f) user ∧ param_matches (Filter_Partition f) partition.
#[export] Instance key_matches_dec f k : Decision (key_matches f k).
Proof. destruct k as [[[? ?] ?] ?]. unfold key_matches, param_matches. apply _. Defined.

(** The TRES limits of two records are the same, in any order. *)
Definition same_tres (w w' : assocWire) : Prop :=
  GrpTRES (unmarshal_limits (wire_Max w')) ≡ₚ GrpTRES (unmarshal_limits (wire_Max w)) ∧
  GrpTRESMins (unmarshal_limits (wire_Max w')) ≡ₚ GrpTRESMins (unmarshal_limits (wire_Max w)).

Class SlurmLaws `{SS : SlurmServer} (c : Client) := {
  records : sdb → gmap RecordKey assocWire;
  records_keyed s k w : records s !! k = Some w → wire_key w = k;
  (* an association is one of an account *)
  records_account s k w : records s !! k = Some w → wire_Account w ≠ "";
  (* a list reads the records that match *)
  law_list f s : let '(r, s') := slurmrestd (client_request c "GET" (associations_path c f) NoBody) s in
    records s' = records s ∧
    ∀ ws, (resp_status r < 400)%Z → resp_associations r = Some ws →
      ws ≡ₚ (filter (λ kw, key_matches f kw.1) (map_to_list (records s))).*2;
  (* an upsert writes its record, or nothing; accepted, it writes the record if the
     account has its association with the cluster *)
  law_upsert w s : let '(r, s') := slurmrestd (client_request c "POST"
      ("/slurmdb/v0.0." +:+ c_apiVersion c +:+ "/associations") (AssociationsBody [w])) s in
    (records s' = records s ∨
     ∃ w', wire_key w' = wire_key w ∧ same_tres w w' ∧ records s' = <[wire_key w := w']> (records s)) ∧
    ((resp_status r < 400)%Z → is_Some (records s !! (wire_Cluster w, wire_Account w, "", "")) →
     ∃ w', wire_key w' = wire_key w ∧ same_tres w w' ∧ records s' = <[wire_key w := w']> (records s));
  (* a deletion removes what matches, or is refused *)
  law_delete f s : let '(r, s') := slurmrestd (client_request c "DELETE" (association_path c f) NoBody) s in
    records s' = (if decide (resp_status r < 400)%Z
                  then filter (λ kw, ¬ key_matches f kw.1) (records s) else records s);
  (* an account gets its association with the cluster *)
  law_account a cluster s : let '(r, s') := slurmrestd (client_request c "POST"
      ("/slurmdb/v0.0." +:+ c_apiVersion c +:+ "/accounts_association/")
      (AccountsAssociationBody [Account_Name a] [cluster] (Account_Description a) (Account_Organization a))) s in
    let k := (cluster, Account_Name a, "", "") in
    (records s' = records s ∨ ∃ w, records s !! k = None ∧ wire_key w = k ∧ records s' = <[k := w]> (records s)) ∧
    ((resp_status r < 400)%Z → is_Some (records s' !! k));
  (* jobs are read only *)
  law_jobs f s : records (slurmrestd (client_request c "GET" (jobs_path c f) NoBody) s).2 = records s }.
