(* ===== verification/SlurmMapper.v ===== *)
(** * The SLURM association mapper

    connectors/SLURM/Association-Mapper/internal/subscribers: the handlers of the events
    of the bus, the single writer of associations, their removal, and the reconciler that
    sweeps the clusters. Log lines and the attributes and status of spans are left out. A
    deadline that expires makes the calls of the core fail, like any other fault. *)

From stdpp Require Import base gmap sets list strings.
From Stdlib Require Import ZArith Ascii SpecFloat.
From S2P Require Import Prelude GoError Models Schema Events IdentityCache Effects EffectsLogic.
From S2P Require Import StoreMembership UserService AuthService ProjectService AllocationService MembershipService.
From S2P Require Import EventBus Wire SignerText SlurmTypes SlurmEffects.

(** ** subscriber.go *)

Record AssociationSubscriber := mkAssociationSubscriber {
  sub_slurmClient : Client;
  sub_reconcileInterval : Z;         (* nanoseconds *)
  sub_provisionGrace : Z }.

Definition NewAssociationSubscriber (slurmClient : Client) (reconcileInterval provisionGrace : Z) :
    AssociationSubscriber :=
  mkAssociationSubscriber slurmClient reconcileInterval provisionGrace.

(** ** association_writer.go: records *)

(** [float64(n)]. *)
Definition float_of_int (n : Z) : float64 := binary_normalize 53 1024 n 0 false.

Definition tresFor (resourceType : string) (count : Z) : TRES :=
  match cut "/"%char resourceType with
  | Some (typ, name) => mkTRES typ name (float_of_int count)
  | None => mkTRES resourceType "" (float_of_int count)
  end.

Definition keyOf (a : Association) : assocKey :=
  mkAssocKey (Assoc_Account a) (Assoc_User a) (Assoc_Partition a).

(** The loop of [sameTRES] over [got]; [counts] is keyed by type. *)
Definition sameTRES (want got : list TRES) : bool :=
  if negb (length want =? length got) then false
  else
    let counts : gmap string float64 :=
      foldl (λ counts t, <[TRES_Type t := TRES_Count t]> counts) ∅ want in
    forallb (λ t, match counts !! TRES_Type t with
                  | None => false
                  | Some c => SFeqb c (TRES_Count t)
                  end) got.

Definition sameLimits (want got : Association) : bool :=
  sameTRES (GrpTRES (Assoc_Limits want)) (GrpTRES (Assoc_Limits got)) &&
  sameTRES (GrpTRESMins (Assoc_Limits want)) (GrpTRESMins (Assoc_Limits got)).

(** The zero value of a struct: what a map yields for a missing key. *)
Definition zero_override : ComputeAllocationMembershipResourceOverride :=
  mkComputeAllocationMembershipResourceOverride "" "" "" 0 0.

Definition limitsFor (resource : ComputeAllocationResource)
    (override : ComputeAllocationMembershipResourceOverride) : AssocLimits :=
  mkAssocLimits None
    (if (0 <? Override_OverrideResourceAmount override)%Z
     then [tresFor (Resource_ResourceType resource) (Override_OverrideResourceAmount override)] else [])
    (if (0 <? Override_OverrideResourceTime override)%Z
     then [tresFor (Resource_ResourceType resource) (Override_OverrideResourceTime override)] else [])
    None.

Definition overrideByResource (overrides : list ComputeAllocationMembershipResourceOverride) :
    gmap string ComputeAllocationMembershipResourceOverride :=
  foldl (λ m o, <[Override_ComputeAllocationResourceID o := o]> m) ∅ overrides.

(** The record of one resource of the allocation. *)
Definition association_for (allocation : ComputeAllocation) (cluster : ComputeCluster)
    (csu : ComputeClusterUser) (overrides : list ComputeAllocationMembershipResourceOverride)
    (resource : ComputeAllocationResource) : Association :=
  mkAssociation (ComputeAllocation_Name allocation) (ComputeCluster_Name cluster)
    (ComputeClusterUser_LocalUsername csu) (Resource_Name resource) "" None 0 ["normal"]
    (limitsFor resource (default zero_override (overrideByResource overrides !! Resource_ID resource))).

(** ** deprovision.go: activeAllocation *)

Definition activeAllocation (allocation : ComputeAllocation) : bool :=
  bool_decide (ComputeAllocation_Status allocation = ACTIVE).

(** ** reconciler.go and members.go: constants *)

Definition nanosecond_per_microsecond : Z := 1000.
Definition second_ns : Z := 1000000000.
Definition DefaultReconcileInterval : Z := 5 * 60 * second_ns.
Definition DefaultProvisionGrace : Z := 30 * second_ns.

Section subscribers.
Context `{E : Env} `{SS : SlurmServer} `{SE : SlurmEnv}.
Variable a : AssociationSubscriber.

Definition recordAuditEvent (ctx : AuditCtx) (eventType entityType entityId message : string) : LM unit :=
  now ← core nowUTC;
  _ ← lcatch (core (CreateAuditEvent ctx
        (Some (mkAuditEvent "" eventType now entityId entityType message "" "" "" ""))));
  mret tt.

(** [if err != nil { ...; a.recordAuditEvent(..., message+err.Error()); return }]. *)
Definition or_audit {A} (ctx : AuditCtx) (eventType entityType entityId message : string) (m : LM A)
    (k : A → LM unit) : LM unit :=
  r ← lcatch m;
  match r with
  | Ok x => k x
  | Err e => recordAuditEvent ctx eventType entityType entityId (message +:+ Error e)
  end.

(** ** association_writer.go *)

Definition desiredAssociationsForMembership (membership : ComputeAllocationMembership) :
    LM (list Association) :=
  allocation ← lwrap "get compute allocation: %w"
    (core (GetComputeAllocation (Membership_ComputeAllocationID membership)));
  if negb (activeAllocation allocation) then mret []
  else
    cluster ← lwrap "get compute cluster: %w"
      (core (GetComputeCluster (ComputeAllocation_ComputeClusterID allocation)));
    csu ← lwrap "get compute cluster user: %w"
      (core (GetComputeClusterUserByPair (ComputeCluster_ID cluster) (Membership_UserID membership)));
    if decide (ComputeClusterUser_ProvisionedAt csu = None) then lthrow errNotProvisioned
    else
      resources ← lwrap "list resources for allocation: %w"
        (core (ListResourcesForAllocation (ComputeAllocation_ID allocation)));
      match resources with
      | [] => mret []
      | _ =>
          overrides ← lwrap "list overrides for membership: %w"
            (core (ListOverridesForMembership (Membership_ID membership)));
          mret (association_for allocation cluster csu overrides <$> resources)
      end.

Definition syncAssociationsForMembership (membership : ComputeAllocationMembership)
    (existing : gmap assocKey Association) : LM unit :=
  desired ← desiredAssociationsForMembership membership;
  leach (λ association,
    match existing !! keyOf association with
    | Some got => if sameLimits association got then mret tt
                  else lwrapf "upsert association for partition %s: %w" [Assoc_Partition association]
                         (UpsertAssociation (sub_slurmClient a) association)
    | None => lwrapf "upsert association for partition %s: %w" [Assoc_Partition association]
                (UpsertAssociation (sub_slurmClient a) association)
    end) desired.

Definition upsertAssociationsForMembership (membership : ComputeAllocationMembership) : LM unit :=
  syncAssociationsForMembership membership ∅.

(** ** deprovision.go *)

Definition removeAssociationsForMembership (membership : ComputeAllocationMembership) : LM unit :=
  allocation ← lwrap "get compute allocation: %w"
    (core (GetComputeAllocation (Membership_ComputeAllocationID membership)));
  cluster ← lwrap "get compute cluster: %w"
    (core (GetComputeCluster (ComputeAllocation_ComputeClusterID allocation)));
  csu ← lwrap "get compute cluster user: %w"
    (core (GetComputeClusterUserByPair (ComputeCluster_ID cluster) (Membership_UserID membership)));
  lwrapf "delete associations for %s on %s: %w"
    [ComputeClusterUser_LocalUsername csu; ComputeAllocation_Name allocation]
    (DeleteAssociation (sub_slurmClient a)
       (mkAssocFilter (ComputeAllocation_Name allocation) (ComputeClusterUser_LocalUsername csu)
          (ComputeCluster_Name cluster) "")).

Definition removeAssociationsForAllocation (allocation : ComputeAllocation) : LM unit :=
  cluster ← lwrap "get compute cluster: %w"
    (core (GetComputeCluster (ComputeAllocation_ComputeClusterID allocation)));
  lwrapf "delete associations for allocation %s: %w" [ComputeAllocation_Name allocation]
    (DeleteAssociation (sub_slurmClient a)
       (mkAssocFilter (ComputeAllocation_Name allocation) "" (ComputeCluster_Name cluster) "")).

(** One member of [restoreAssociationsForAllocation]; the number of failures so far. *)
Definition restore_member (failed : nat) (member : MembershipWithUser) : LM nat :=
  let m := MWU_Membership member in
  if decide (Membership_MembershipStatus m ≠ ACTIVE) then mret failed
  else
    r ← lcatch (upsertAssociationsForMembership m);
    mret match r with
         | Ok _ => failed
         | Err e => if errors_Is e SNotProvisioned then failed else S failed
         end.

Definition restoreAssociationsForAllocation (allocation : ComputeAllocation) : LM unit :=
  members ← lwrap "list members for allocation: %w"
    (core (ListMembersForAllocation (ComputeAllocation_ID allocation)));
  failed ← lfold restore_member 0 members;
  if 0 <? failed then
    lthrow (NewError "%d of %d members could not be restored"
              [FormatInt (Z.of_nat failed); FormatInt (Z.of_nat (length members))])
  else mret tt.

(** ** account.go *)

Definition SubscribeToComputeAllocationCreation (ctx : AuditCtx) (computeAllocation : ComputeAllocation) :
    LM unit :=
  ctx ← StartSpan (WithSource ctx "slurm");
  let id := ComputeAllocation_ID computeAllocation in
  let failed := "ComputeAllocationCreationFailed" in
  or_audit ctx failed "compute_allocation" id "Failed to get compute cluster. Error: "
    (core (GetComputeCluster (ComputeAllocation_ComputeClusterID computeAllocation))) (λ cluster,
  or_audit ctx failed "compute_allocation" id "Failed to get project. Error: "
    (core (GetProject (ComputeAllocation_ProjectID computeAllocation))) (λ project,
  or_audit ctx failed "compute_allocation" id "Failed to get project PI. Error: "
    (core (GetUser (Project_ProjectPIID project))) (λ pi,
  or_audit ctx failed "compute_allocation" id "Failed to get organization. Error: "
    (core (GetOrganization (User_OrganizationID pi))) (λ organization,
  or_audit ctx failed "compute_allocation" id "Failed to create SLURM account. Error: "
    (CreateAccount (sub_slurmClient a)
       (mkAccount (ComputeAllocation_Name computeAllocation) (ComputeAllocation_Name computeAllocation)
          (Organization_Name organization)) (ComputeCluster_Name cluster)) (λ _,
  recordAuditEvent ctx "ComputeAllocationCreationSucceeded" "compute_allocation" id
    "Successfully created SLURM account for compute allocation."))))).

Definition SubscribeToComputeAllocationDeletion (ctx : AuditCtx) (computeAllocation : ComputeAllocation) :
    LM unit :=
  ctx ← StartSpan (WithSource ctx "slurm");
  let id := ComputeAllocation_ID computeAllocation in
  or_audit ctx "ComputeAllocationDeletionFailed" "compute_allocation" id "Failed to remove associations. Error: "
    (removeAssociationsForAllocation computeAllocation) (λ _,
  recordAuditEvent ctx "ComputeAllocationDeprovisioned" "compute_allocation" id
    "Removed cluster associations for the deleted allocation.").

Definition SubscribeToComputeAllocationUpdate (ctx : AuditCtx) (computeAllocation : ComputeAllocation) :
    LM unit :=
  ctx ← StartSpan (WithSource ctx "slurm");
  let id := ComputeAllocation_ID computeAllocation in
  if activeAllocation computeAllocation then
    or_audit ctx "ComputeAllocationUpdateFailed" "compute_allocation" id
      "Failed to restore associations. Error: " (restoreAssociationsForAllocation computeAllocation) (λ _,
    recordAuditEvent ctx "ComputeAllocationProvisioned" "compute_allocation" id
      "Restored cluster associations for the active allocation.")
  else
    or_audit ctx "ComputeAllocationUpdateFailed" "compute_allocation" id
      "Failed to remove associations. Error: " (removeAssociationsForAllocation computeAllocation) (λ _,
    recordAuditEvent ctx "ComputeAllocationDeprovisioned" "compute_allocation" id
      "Removed cluster associations for the deactivated allocation.").

Definition SubscribeToComputeAllocationResourceMappingCreation (ctx : AuditCtx)
    (mapping : ComputeAllocationResourceMapping) : LM unit :=
  ctx ← StartSpan (WithSource ctx "slurm");
  let id := Mapping_ID mapping in
  let entity := "compute_allocation_resource_mapping" in
  let failed := "ComputeAllocationResourceMappingCreationFailed" in
  or_audit ctx failed entity id "Failed to get compute allocation. Error: "
    (core (GetComputeAllocation (Mapping_ComputeAllocationID mapping))) (λ allocation,
  or_audit ctx failed entity id "Failed to get compute cluster. Error: "
    (core (GetComputeCluster (ComputeAllocation_ComputeClusterID allocation))) (λ cluster,
  or_audit ctx failed entity id "Failed to get compute allocation resource. Error: "
    (core (GetComputeAllocationResource (Mapping_ComputeAllocationResourceID mapping))) (λ resource,
  let typ := Resource_ResourceType resource in
  if decide ((0 < Mapping_ResourceAmount mapping ∨ 0 < Mapping_ResourceTime mapping)%Z ∧ typ = "") then
    recordAuditEvent ctx failed entity id "Resource type is empty for resource mapping creation"
  else
    let grpTres := if (0 <? Mapping_ResourceAmount mapping)%Z
                   then [tresFor typ (Mapping_ResourceAmount mapping)] else [] in
    let grpTresMins := if (0 <? Mapping_ResourceTime mapping)%Z
                       then [tresFor typ (Mapping_ResourceTime mapping)] else [] in
    or_audit ctx failed entity id "Failed to upsert association. Error: "
      (UpsertAssociation (sub_slurmClient a)
         (mkAssociation (ComputeAllocation_Name allocation) (ComputeCluster_Name cluster) "" "" "" None 0 []
            (mkAssocLimits None grpTres grpTresMins None))) (λ _,
    recordAuditEvent ctx "ComputeAllocationResourceMappingCreationSucceeded" entity id
      "Successfully upserted association for compute allocation resource mapping creation")))).

(** ** members.go *)

(** The call of the single writer in a handler: an account that is not provisioned yet is
    left to the reconciler, any other error is audited. *)
Definition upsert_or_audit (ctx : AuditCtx) (eventType entityType entityId : string)
    (membership : ComputeAllocationMembership) (k : LM unit) : LM unit :=
  r ← lcatch (upsertAssociationsForMembership membership);
  match r with
  | Ok _ => k
  | Err e =>
      if errors_Is e SNotProvisioned then mret tt
      else recordAuditEvent ctx eventType entityType entityId
             ("Failed to upsert association. Error: " +:+ Error e)
  end.

Definition SubscribeToComputeAllocationMembershipCreation (ctx : AuditCtx)
    (membership : ComputeAllocationMembership) : LM unit :=
  ctx ← StartSpan (WithSource ctx "slurm");
  let id := Membership_ID membership in
  let entity := "compute_allocation_membership" in
  let failed := "ComputeAllocationMembershipCreationFailed" in
  or_audit ctx failed entity id "Failed to get compute allocation. Error: "
    (core (GetComputeAllocation (Membership_ComputeAllocationID membership))) (λ allocation,
  or_audit ctx failed entity id "Failed to get compute cluster. Error: "
    (core (GetComputeCluster (ComputeAllocation_ComputeClusterID allocation))) (λ _,
  upsert_or_audit ctx failed entity id membership
    (recordAuditEvent ctx "ComputeAllocationMembershipCreationSucceeded" entity id
       "Successfully upserted association."))).

Definition SubscribeToComputeAllocationMembershipResourceOverrideCreation (ctx : AuditCtx)
    (override : ComputeAllocationMembershipResourceOverride) : LM unit :=
  ctx ← StartSpan (WithSource ctx "slurm");
  let id := Override_ID override in
  let entity := "compute_allocation_membership_resource_override" in
  let failed := "ComputeAllocationMembershipResourceOverrideCreationFailed" in
  or_audit ctx failed entity id "Failed to get compute allocation membership. Error: "
    (core (GetComputeAllocationMembership (Override_ComputeAllocationMembershipID override))) (λ membership,
  upsert_or_audit ctx failed entity id membership
    (recordAuditEvent ctx "ComputeAllocationMembershipResourceOverrideCreationSucceeded" entity id
       "Successfully upserted association.")).

Definition SubscribeToComputeAllocationMembershipUpdate (ctx : AuditCtx)
    (membership : ComputeAllocationMembership) : LM unit :=
  ctx ← StartSpan (WithSource ctx "slurm");
  let id := Membership_ID membership in
  let entity := "compute_allocation_membership" in
  if decide (Membership_MembershipStatus membership = ACTIVE) then
    upsert_or_audit ctx "ComputeAllocationMembershipUpdateFailed" entity id membership (mret tt)
  else
    or_audit ctx "ComputeAllocationMembershipUpdateFailed" entity id "Failed to remove associations. Error: "
      (removeAssociationsForMembership membership) (λ _,
    recordAuditEvent ctx "ComputeAllocationMembershipDeprovisioned" entity id
      "Removed cluster associations for the deactivated membership.").

Definition SubscribeToComputeAllocationMembershipDeletion (ctx : AuditCtx)
    (membership : ComputeAllocationMembership) : LM unit :=
  ctx ← StartSpan (WithSource ctx "slurm");
  let id := Membership_ID membership in
  let entity := "compute_allocation_membership" in
  or_audit ctx "ComputeAllocationMembershipDeletionFailed" entity id "Failed to remove associations. Error: "
    (removeAssociationsForMembership membership) (λ _,
  recordAuditEvent ctx "ComputeAllocationMembershipDeprovisioned" entity id
    "Removed cluster associations for the deleted membership.").

(** ** subscriber.go: registration

    What a handler does on the bus is one action, the whole run. *)

Definition on_bus {T} (h : AuditCtx → T → LM unit) (ctx : AuditCtx) : @Handler (LM unit) T :=
  λ x, ([h ctx x], false).

Definition RegisterSubscribers (ctx : AuditCtx) (b : @Bus (LM unit)) : @Bus (LM unit) :=
  SubscribeComputeAllocationResourceMappingCreated
    (on_bus SubscribeToComputeAllocationResourceMappingCreation ctx)
  (SubscribeComputeAllocationMembershipResourceOverrideCreated
    (on_bus SubscribeToComputeAllocationMembershipResourceOverrideCreation ctx)
  (SubscribeComputeAllocationMembershipDeleted
    (on_bus SubscribeToComputeAllocationMembershipDeletion ctx)
  (SubscribeComputeAllocationMembershipUpdated
    (on_bus SubscribeToComputeAllocationMembershipUpdate ctx)
  (SubscribeComputeAllocationMembershipCreated
    (on_bus SubscribeToComputeAllocationMembershipCreation ctx)
  (SubscribeComputeAllocationUpdated
    (on_bus SubscribeToComputeAllocationUpdate ctx)
  (SubscribeComputeAllocationDeleted
    (on_bus SubscribeToComputeAllocationDeletion ctx)
  (SubscribeComputeAllocationCreated
    (on_bus SubscribeToComputeAllocationCreation ctx) b))))))).

(** ** reconciler.go *)

Definition readyForAssociation (csu : ComputeClusterUser) : LM bool :=
  match ComputeClusterUser_ProvisionedAt csu with
  | None => mret false
  | Some t =>
      let grace := if (sub_provisionGrace a <=? 0)%Z then DefaultProvisionGrace else sub_provisionGrace a in
      now ← core nowUTC;
      mret (grace <=? (now - t) * nanosecond_per_microsecond)%Z
  end.

Definition existingAssociations (clusterName : string) : LM (gmap assocKey Association) :=
  assocs ← ListAssociations (sub_slurmClient a) (mkAssocFilter "" "" clusterName "");
  mret (foldl (λ m assoc, <[keyOf assoc := assoc]> m) ∅ assocs).

Definition managedAccounts (clusterID : string) : LM (gset string) :=
  allocations ← core (ListComputeAllocationsByCluster clusterID);
  mret (list_to_set (ComputeAllocation_Name <$> allocations)).

(** One association that was found; the number of those removed so far. *)
Definition prune_one (cluster : ComputeCluster) (managed : gset string) (desired : gset assocKey)
    (removed : nat) (entry : assocKey * Association) : LM nat :=
  let '(key, assoc) := entry in
  if decide (Assoc_User assoc = "") then mret removed
  else if decide (Assoc_Account assoc ∉ managed) then mret removed
  else if decide (key ∈ desired) then mret removed
  else
    r ← lcatch (DeleteAssociation (sub_slurmClient a)
          (mkAssocFilter (Assoc_Account assoc) (Assoc_User assoc) (ComputeCluster_Name cluster)
             (Assoc_Partition assoc)));
    mret match r with Ok _ => S removed | Err _ => removed end.

Definition pruneStaleAssociations (cluster : ComputeCluster) (existing : gmap assocKey Association)
    (desired : gset assocKey) : LM nat :=
  if decide (existing = ∅) then mret 0
  else if decide (desired = ∅) then mret 0
  else
    managed ← lcatch (managedAccounts (ComputeCluster_ID cluster));
    match managed with
    | Err _ => mret 0
    | Ok managed => lfold (prune_one cluster managed desired) 0 (range_assocs existing)
    end.

(** The write of one record: its errors are logged only. *)
Definition sweep_record (existing : gmap assocKey Association) (record : Association) : LM unit :=
  let write := (_ ← lcatch (UpsertAssociation (sub_slurmClient a) record); mret tt) in
  match existing !! keyOf record with
  | Some got => if sameLimits record got then mret tt else write
  | None => write
  end.

(** One membership of a user of the cluster: the desired keys with its own. An error ends
    the sweep of the cluster. *)
Definition sweep_membership (existing : gmap assocKey Association) (csu : ComputeClusterUser)
    (desired : gset assocKey) (membership : ComputeAllocationMembership) : LM (gset assocKey) :=
  if decide (Membership_MembershipStatus membership ≠ ACTIVE) then mret desired
  else
    records ← desiredAssociationsForMembership membership;
    let desired := desired ∪ list_to_set (keyOf <$> records) in
    ready ← readyForAssociation csu;
    if negb ready then mret desired
    else _ ← leach (sweep_record existing) records; mret desired.

Definition sweep_user (existing : gmap assocKey Association) (desired : gset assocKey)
    (csu : ComputeClusterUser) : LM (gset assocKey) :=
  if decide (ComputeClusterUser_ProvisionedAt csu = None) then mret desired
  else
    memberships ← core (ListAllocationsForUser (ComputeClusterUser_UserID csu));
    lfold (sweep_membership existing csu) desired memberships.

Definition reconcileCluster (cluster : ComputeCluster) : LM unit :=
  clusterUsers ← lcatch (core (ListComputeClusterUsersByCluster (ComputeCluster_ID cluster)));
  match clusterUsers with
  | Err _ => mret tt
  | Ok clusterUsers =>
      existing ← lcatch (existingAssociations (ComputeCluster_Name cluster));
      let existing := match existing with Ok m => m | Err _ => ∅ end in
      desired ← lcatch (lfold (sweep_user existing) ∅ clusterUsers);
      match desired with
      | Err _ => mret tt
      | Ok desired => _ ← pruneStaleAssociations cluster existing desired; mret tt
      end
  end.

Definition reconcile : LM unit :=
  clusters ← lcatch (core ListComputeClusters);
  match clusters with
  | Err _ => mret tt
  | Ok clusters => leach reconcileCluster clusters
  end.

(** The sweeps until the context is cancelled: one at once, one per tick. *)
Fixpoint StartReconciler (ticks : nat) : LM unit :=
  match ticks with
  | O => reconcile
  | S ticks' => _ ← reconcile; StartReconciler ticks'
  end.

Definition reconcile_every : Z :=
  if (sub_reconcileInterval a <=? 0)%Z then DefaultReconcileInterval else sub_reconcileInterval a.
End subscribers.
