(* ===== verification/SlurmMonitor.v ===== *)
(** * The SLURM usage monitor

    connectors/SLURM/Usage-Monitor/internal/smonitor: a poll reads the jobs of a window of
    time from slurmrestd and records what each of them used. Amounts are binary64. *)

From stdpp Require Import base gmap sets list strings.
From Stdlib Require Import ZArith Ascii SpecFloat.
From S2P Require Import Prelude GoError Models Schema Events IdentityCache Effects EffectsLogic.
From S2P Require Import AuthService ProjectService AllocationService MembershipService.
From S2P Require Import AmieWorker SignerText SlurmTypes SlurmEffects SlurmMapper.

(** ** Instants, durations and amounts *)

(** The Unix epoch; instants are microseconds since the zero time. *)
Definition unix_epoch : Time := (62135596800 * 1000000)%Z.
Definition time_Unix (ts : Z) : Time := (unix_epoch + ts * 1000000)%Z.
Definition unix_of (t : Time) : Z := ((t - unix_epoch) / 1000000)%Z.

Definition float_mul (x y : float64) : float64 := SFmul 53 1024 x y.
Definition float_div (x y : float64) : float64 := SFdiv 53 1024 x y.

(** [d.Seconds()], for a duration in nanoseconds, and its integral part. *)
Definition Seconds (d : Z) : float64 :=
  SFadd 53 1024 (float_of_int (Z.quot d second_ns))
    (float_div (float_of_int (Z.rem d second_ns)) (float_of_int 1000000000)).
Definition int_Seconds (d : Z) : Z :=
  match Seconds d with S754_finite s m e => float_trunc s m e | _ => 0%Z end.

(** ** smonitor.go *)

Definition monitorInterval : Z := 30 * second_ns.
Definition defaultPollOverlap : Z := 15 * 60 * second_ns.

Record SlurmMonitor := mkSlurmMonitor {
  mon_slurmClient : Client;
  mon_clusterId : string;
  mon_pollOverlap : Z }.

(** [lastMonitorTime] starts at 1, see [init_monitor]. *)
Definition NewSlurmMonitor (slurmClient : Client) (clusterId : string) (pollOverlap : Z) : SlurmMonitor :=
  mkSlurmMonitor slurmClient clusterId
    (if (pollOverlap <=? 0)%Z then defaultPollOverlap else pollOverlap).

(** The count of the last TRES of type billing. *)
Definition billing_of (job : JobInfo) : float64 :=
  foldl (λ amount t, if decide (TRES_Type t = "billing") then TRES_Count t else amount)
    (S754_zero false) (Tres_Allocated (Job_Tres job)).

Definition job_duration (job : JobInfo) : Z :=
  wrap64 (Time_End (Job_Time job) - Time_Start (Job_Time job)).

Definition raw_amount (billing : float64) (seconds : Z) : float64 :=
  float_div (float_mul billing (float_of_int seconds)) (float_of_int 3600).

Section monitor.
Context `{E : Env} `{SS : SlurmServer} `{SE : SlurmEnv}.
Variable m : SlurmMonitor.

Definition init_monitor : LM unit := lmodify (set_last 1).

(** The row for a job, once everything it refers to is known. *)
Definition usage_row (alloc : ComputeAllocation) (user : ComputeClusterUser)
    (resource : ComputeAllocationResource) (rate : ComputeAllocationResourceRate) (job : JobInfo)
    (now : Time) : ComputeAllocationUsage :=
  let raw := raw_amount (billing_of job) (job_duration job) in
  mkComputeAllocationUsage "" (ComputeAllocation_ID alloc) raw (float_mul raw (Rate_Rate rate)) now
    (ComputeClusterUser_UserID user) (FormatInt (Job_JobID job)) (Resource_ID resource).

Definition replace_usage (existing : option ComputeAllocationUsage) (u : ComputeAllocationUsage) : LM unit :=
  _ ← match existing with
      | Some old => _ ← lcatch (core (DeleteComputeAllocationUsage (Usage_ID old))); mret tt
      | None => mret tt
      end;
  _ ← lcatch (core (CreateComputeAllocationUsage (Some u)));
  mret tt.

(** The body of the loop of [recordJob] for the matching allocation: an error ends it. *)
Definition recordJobFor (job : JobInfo) (cluster : ComputeCluster) (alloc : ComputeAllocation) : LM unit :=
  user ← core (GetComputeClusterUserByClusterAndLocalUsername (ComputeCluster_ID cluster) (Job_User job));
  resource ← core (GetComputeAllocationResourceByNameAndCluster (Job_Partition job) (ComputeCluster_ID cluster));
  found ← lcatch (core (GetComputeAllocationUsageByComputeAllocationIDAndJobID (ComputeAllocation_ID alloc)
            (FormatInt (Job_JobID job))));
  existing ← match found with
             | Ok u => mret (Some u)
             | Err (Sentinel SNotFound) => mret None
             | Err e => lthrow e
             end;
  if (job_duration job <=? 0)%Z then mret tt
  else if SFleb (billing_of job) (S754_zero false) then mret tt
  else
    rate ← core (GetEffectiveRateForResource (Resource_ID resource) (time_Unix (Time_End (Job_Time job))));
    now ← core nowUTC;
    replace_usage existing (usage_row alloc user resource rate job now).

(** [recordJob]: the first allocation with the name of the job's account. *)
Definition recordJob (job : JobInfo) (cluster : ComputeCluster) (allocations : list ComputeAllocation) : LM unit :=
  match filter (λ alloc, ComputeAllocation_Name alloc = Job_Account job) allocations with
  | [] => mret tt
  | alloc :: _ => _ ← lcatch (recordJobFor job cluster alloc); mret tt
  end.

Definition windowStart (lastMonitorTime : Z) : Z :=
  let start := (lastMonitorTime - int_Seconds (mon_pollOverlap m))%Z in
  if (start <? 1)%Z then 1%Z else start.

(** [poll] up to the list of jobs, with its window: an error ends it. *)
Definition poll_list : LM (JobFilter * ComputeCluster * list ComputeAllocation * list JobInfo) :=
  cluster ← core (GetComputeCluster (mon_clusterId m));
  allocations ← core (ListComputeAllocationsByCluster (ComputeCluster_ID cluster));
  last ← lgets l_last;
  now ← core nowUTC;
  let jobFilter := mkJobFilter [] (windowStart last) (unix_of now) in
  jobs ← ListJobs (mon_slurmClient m) jobFilter;
  mret (jobFilter, cluster, allocations, jobs).

Definition poll_jobs : LM unit :=
  '(jobFilter, cluster, allocations, jobs) ← poll_list;
  _ ← lmodify (set_last (JobFilter_EndTime jobFilter));
  leach (λ job, recordJob job cluster allocations) jobs.

Definition poll : LM unit := _ ← lcatch poll_jobs; mret tt.

(** The polls until the context is cancelled, one per tick. *)
Fixpoint StartMonitor (ticks : nat) : LM unit :=
  match ticks with
  | O => mret tt
  | S ticks' => _ ← poll; StartMonitor ticks'
  end.
End monitor.
