(* ===== verification/SlurmFacts.v ===== *)
(** * Facts on the types of the SLURM client

    64-bit integers as float64, the translation of an association to the wire and back, query
    strings, and the comparison of TRES lists. *)

From stdpp Require Import base sets list strings numbers.
From Stdlib Require Import ZArith Ascii SpecFloat Lia.
From S2P Require Import Prelude GoError Models Wire SignerText SlurmTypes SlurmEffects SlurmMapper.

Set Default Goal Selector "!".

(** ** Integers as float64 *)

Section floats.
Local Open Scope Z_scope.

Lemma digits2_size p : digits2_pos p = Pos.size p.
Proof. induction p as [p IH|p IH|]; simpl; [by rewrite IH..|done]. Qed.

Lemma Zdigits2_le m k : 0 ≤ m < 2 ^ k → 0 ≤ k → Zdigits2 m ≤ k.
Proof.
  destruct m as [|p|p]; simpl; [lia| |lia]. intros [_ Hp] Hk. rewrite digits2_size.
  pose proof (Pos.size_le p) as Hs. apply Pos2Z.pos_le_pos in Hs.
  rewrite Pos2Z.inj_pow, (Pos2Z.inj_xO p) in Hs.
  destruct (Z.le_gt_cases (Z.pos (Pos.size p)) k) as [|Hlt]; [done|].
  assert (2 ^ (k + 1) ≤ 2 ^ Z.pos (Pos.size p)) by (apply Z.pow_le_mono_r; lia).
  rewrite Z.pow_add_r in * by lia. lia.
Qed.

Lemma shr_1_bounds x k : 0 ≤ shr_m x ≤ k → 0 ≤ shr_m (shr_1 x) ≤ k.
Proof. destruct x as [[|[p|p|]|p] r s]; simpl; lia. Qed.

Lemma iter_bounds p x k : 0 ≤ shr_m x ≤ k → 0 ≤ shr_m (iter_pos shr_1 p x) ≤ k.
Proof.
  revert x. induction p as [p IH|p IH|]; intros x Hx; simpl; auto using shr_1_bounds.
Qed.

Lemma iter_double q p : Z.pos (Pos.iter xO p q) = Z.pos p * 2 ^ Z.pos q.
Proof.
  induction q as [|q IH] using Pos.peano_ind; [simpl; lia|].
  rewrite Pos.iter_succ, Pos2Z.inj_xO, IH, Pos2Z.inj_succ, Z.pow_succ_r by lia. lia.
Qed.

Lemma shr_bounds m e l k ke :
  0 ≤ m ≤ 2 ^ k → 0 ≤ k → -1074 ≤ ke → e ≤ ke →
  let '(x, e') := shr_fexp 53 1024 m e l in
  0 ≤ shr_m x ≤ 2 ^ k ∧ e' ≤ ke + k.
Proof.
  intros Hm Hk H0 He. unfold shr_fexp, shr.
  assert (shr_m (shr_record_of_loc m l) = m) as Hl by (by destruct l as [|[]]).
  assert (fexp 53 1024 (Zdigits2 m + e) ≤ ke + k) as Hf.
  { assert (Zdigits2 m ≤ k + 1).
    { apply Zdigits2_le; [|lia]. rewrite Z.pow_add_r by lia. pose proof (Z.pow_pos_nonneg 2 k). lia. }
    unfold fexp, emin. lia. }
  destruct (fexp _ _ _ - e) as [|p|p] eqn:En; [split; [by rewrite Hl|lia]| |split; [by rewrite Hl|lia]].
  split; [|lia]. apply iter_bounds. by rewrite Hl.
Qed.

Lemma round_aux_finite sx m e : 0 < m ≤ 2 ^ 200 → e ≤ 100 → finite (binary_round_aux 53 1024 sx m e loc_Exact) = true.
Proof.
  intros Hm He. unfold binary_round_aux.
  pose proof (shr_bounds m e loc_Exact 200 100 ltac:(lia) ltac:(lia) ltac:(lia) He) as H1.
  destruct (shr_fexp 53 1024 m e loc_Exact) as [x e']. destruct H1 as [Hx He'].
  assert (0 ≤ round_nearest_even (shr_m x) (loc_of_shr_record x) ≤ 2 ^ 201) as Hr.
  { change (2 ^ 201) with (2 ^ 200 + 2 ^ 200). pose proof (Z.pow_pos_nonneg 2 200).
    unfold round_nearest_even. destruct (loc_of_shr_record x) as [|[]]; try lia. destruct (Z.even _); lia. }
  pose proof (shr_bounds _ e' loc_Exact 201 300 Hr ltac:(lia) ltac:(lia) ltac:(lia)) as H2.
  destruct (shr_fexp 53 1024 _ e' loc_Exact) as [y e'']. destruct H2 as [Hy He''].
  destruct (shr_m y) as [|p|p]; [done| |lia]. by destruct (Z.leb_spec e'' (1024 - 53)); [|lia].
Qed.

(** A 64-bit integer is a finite float64. *)
Lemma float_of_int_finite n : in_int64 n = true → finite (float_of_int n) = true.
Proof.
  unfold in_int64, min_int64, max_int64. intros [H1%Z.leb_le H2%Z.leb_le]%andb_true_iff.
  assert (∀ sx p, Z.pos p ≤ 2 ^ 64 → finite (binary_round 53 1024 sx p 0) = true) as Hp.
  { intros sx p Hp. unfold binary_round, shl_align.
    assert (-52 ≤ fexp 53 1024 (Z.pos (digits2_pos p) + 0)) as Hf by (unfold fexp, emin; lia).
    destruct (fexp _ _ _ - 0) as [|q|q] eqn:Eq.
    - apply round_aux_finite; lia.
    - apply round_aux_finite; lia.
    - apply round_aux_finite; [|lia]. split; [lia|].
      rewrite iter_double.
      assert (2 ^ Z.pos q ≤ 2 ^ 52) by (apply Z.pow_le_mono_r; lia).
      change (2 ^ 200) with (2 ^ 148 * 2 ^ 52). nia. }
  destruct n as [|p|p]; [done|apply Hp; lia|apply Hp; lia].
Qed.
End floats.

(** ** The wire *)

Lemma association_roundtrip (a : Association) : UnmarshalJSON (MarshalJSON a) = a.
Proof.
  destruct a as [acc cl u p par def id qos [jobs tres mins wall]]. unfold UnmarshalJSON, MarshalJSON. simpl.
  f_equal. unfold marshal_jobs, marshal_tres. simpl.
  destruct jobs, wall, tres, mins; reflexivity.
Qed.

(** ** Query strings *)

Definition unhex (c : ascii) : option nat :=
  let n := nat_of_ascii c in
  if byte_in 48 57 c then Some (n - 48)
  else if byte_in 65 70 c then Some (n - 55)
  else if byte_in 97 102 c then Some (n - 87) else None.

(** [url.QueryUnescape]. *)
Fixpoint QueryUnescape (s : string) : option string :=
  match s with
  | EmptyString => Some EmptyString
  | String c s1 =>
      if decide (c = "%"%char) then
        match s1 with
        | String h (String l s2) =>
            x ← unhex h; y ← unhex l; String (ascii_of_nat (16 * x + y)) <$> QueryUnescape s2
        | _ => None
        end
      else String (if decide (c = "+"%char) then " "%char else c) <$> QueryUnescape s1
  end.

Definition parse_param (s : string) : option (string * string) :=
  '(k, v) ← cut "="%char s; k' ← QueryUnescape k; v' ← QueryUnescape v; Some (k', v').

(** [url.ParseQuery], on parameters that all have a value. *)
Definition ParseQuery (q : string) : option (list (string * string)) :=
  if decide (q = "") then Some [] else mapM parse_param (split_on "&"%char q).

Lemma unescape_byte c rest : QueryUnescape (escape_byte c rest) = String c <$> QueryUnescape rest.
Proof. destruct c as [[] [] [] [] [] [] [] []]; reflexivity. Qed.
Lemma QueryUnescape_Escape s : QueryUnescape (QueryEscape s) = Some s.
Proof. induction s as [|c s IH]; simpl; [done|]. by rewrite unescape_byte, IH. Qed.

(** [c] does not occur in [s]. *)
Fixpoint lacks (c : ascii) (s : string) : Prop :=
  match s with EmptyString => True | String a s' => a ≠ c ∧ lacks c s' end.

Lemma app_String a (s t : string) : String a s +:+ t = String a (s +:+ t).
Proof. done. Qed.
Lemma lacks_app c s t : lacks c (s +:+ t) ↔ lacks c s ∧ lacks c t.
Proof.
  induction s as [|a s IH]; [change ("" +:+ t) with t; simpl; tauto|]. rewrite app_String. simpl. rewrite IH. tauto.
Qed.
Lemma cut_lacks c s t : lacks c s → cut c (s +:+ String c t) = Some (s, t).
Proof.
  induction s as [|a s IH]; intros Hs; [change ("" +:+ String c t) with (String c t); simpl; by rewrite decide_True|].
  destruct Hs as [Ha Hs]. rewrite app_String. simpl. by rewrite decide_False, IH.
Qed.
Lemma split_lacks c s : lacks c s → split_on c s = [s].
Proof. induction s as [|a s IH]; simpl; [done|]. intros [Ha Hs]. by rewrite decide_False, IH. Qed.
Lemma split_lacks_app c s t : lacks c s → split_on c (s +:+ String c t) = s :: split_on c t.
Proof.
  induction s as [|a s IH]; intros Hs; [change ("" +:+ String c t) with (String c t); simpl; by rewrite decide_True|].
  destruct Hs as [Ha Hs]. rewrite app_String. simpl. by rewrite decide_False, IH.
Qed.

(** The separators of a query are escaped. *)
Lemma escape_lacks c s : c = "="%char ∨ c = "&"%char → lacks c (QueryEscape s).
Proof.
  intros Hc. induction s as [|a s IH]; simpl; [done|].
  assert (∀ r, lacks c r → lacks c (escape_byte a r)) as Hb; [|by apply Hb].
  intros r Hr. destruct Hc as [-> | ->]; destruct a as [[] [] [] [] [] [] [] []];
    first [split; [discriminate|exact Hr] | split; [discriminate|split; [discriminate|split; [discriminate|exact Hr]]]].
Qed.

Definition pair_text (kv : string * string) : string := QueryEscape kv.1 +:+ "=" +:+ QueryEscape kv.2.

Lemma pair_lacks kv : lacks "&"%char (pair_text kv).
Proof.
  unfold pair_text. rewrite lacks_app. split; [apply escape_lacks; auto|].
  change ("=" +:+ QueryEscape kv.2) with (String "=" (QueryEscape kv.2)). split; [done|]. apply escape_lacks; auto.
Qed.
Lemma parse_pair kv : parse_param (pair_text kv) = Some kv.
Proof.
  unfold parse_param, pair_text. change ("=" +:+ QueryEscape kv.2) with (String "=" (QueryEscape kv.2)).
  rewrite cut_lacks by (apply escape_lacks; auto). simpl. rewrite !QueryUnescape_Escape. by destruct kv.
Qed.
Lemma Encode_cons kv kv' kvs : Encode (kv :: kv' :: kvs) = pair_text kv +:+ String "&" (Encode (kv' :: kvs)).
Proof.
  unfold pair_text. destruct kv as [k v]. change (Encode ((k, v) :: kv' :: kvs)) with
    (QueryEscape k +:+ "=" +:+ QueryEscape v +:+ "&" +:+ Encode (kv' :: kvs)). simpl fst. simpl snd.
  by rewrite !string_app_assoc.
Qed.

(** What the client encodes, [url.ParseQuery] reads back. *)
Lemma ParseQuery_Encode kvs : ParseQuery (Encode kvs) = Some kvs.
Proof.
  assert (∀ kv kvs, mapM parse_param (split_on "&"%char (Encode (kv :: kvs))) = Some (kv :: kvs)) as Hcons.
  { intros kv kvs'. revert kv. induction kvs' as [|kv' kvs' IH]; intros kv.
    - assert (Encode [kv] = pair_text kv) as -> by (by destruct kv).
      rewrite split_lacks by apply pair_lacks. simpl. by rewrite parse_pair.
    - rewrite Encode_cons, split_lacks_app by apply pair_lacks. specialize (IH kv').
      revert IH. generalize (Encode (kv' :: kvs')). intros t Ht. cbn [mapM]. rewrite parse_pair, Ht. done. }
  unfold ParseQuery. destruct kvs as [|kv kvs]; [done|]. rewrite decide_False; [apply Hcons|].
  intros He. specialize (Hcons kv kvs). by rewrite He in Hcons.
Qed.

(** ** TRES lists as multisets *)

#[export] Instance spec_float_eq_dec : EqDecision spec_float.
Proof. solve_decision. Defined.
#[export] Instance TRES_eq_dec : EqDecision TRES.
Proof. solve_decision. Defined.

(** The two zeros count as one. *)
Definition norm_float (x : float64) : float64 := match x with S754_zero _ => S754_zero false | _ => x end.
Definition norm_tres (t : TRES) : TRES := mkTRES (TRES_Type t) (TRES_Name t) (norm_float (TRES_Count t)).
Definition number (t : TRES) : Prop := TRES_Count t ≠ S754_nan.

Lemma SFeqb_norm x y : x ≠ S754_nan → SFeqb x y = bool_decide (norm_float x = norm_float y).
Proof.
  intros Hx. destruct x as [sx|sx| |sx mx ex], y as [sy|sy| |sy my ey]; try done;
    try (by destruct sx, sy); try (by destruct sx); try (by destruct sy).
  unfold SFeqb, SFcompare. simpl. destruct sx, sy; try (by rewrite bool_decide_eq_false_2);
    (destruct (Z.compare_spec ex ey) as [<-|He|He]; [|rewrite bool_decide_eq_false_2; [done|intros [=]; lia]..]);
    change (Pos.compare_cont Eq mx my) with (Pos.compare mx my);
    (destruct (Pos.compare_spec mx my) as [<-|Hm|Hm]; [by rewrite bool_decide_eq_true_2|..]);
    rewrite bool_decide_eq_false_2; try done; intros [=]; lia.
Qed.

Lemma tres_eqb_norm s t : number s → tres_eqb s t = bool_decide (norm_tres s = norm_tres t).
Proof.
  intros Hs. unfold tres_eqb. rewrite SFeqb_norm by done.
  rewrite <-!bool_decide_and. apply bool_decide_ext. unfold norm_tres. split; [by intros [[-> ->] ->]|by intros [= -> -> ->]].
Qed.

Definition count (x : TRES) (l : list TRES) : Z := Z.of_nat (length (filter (λ y, norm_tres y = norm_tres x) l)).

Lemma count_cons x y l : count x (y :: l) = ((if decide (norm_tres y = norm_tres x) then 1 else 0) + count x l)%Z.
Proof. unfold count. rewrite filter_cons. case_decide; simpl; lia. Qed.

Lemma tally_get_add s t n c :
  number s → number t →
  tally_get t (tally_add s n c) = (tally_get t c + if decide (norm_tres s = norm_tres t) then n else 0)%Z.
Proof.
  intros Hs Ht. induction c as [|[k m] c IH]; simpl; rewrite ?(tres_eqb_norm s), ?(tres_eqb_norm t) by done.
  - repeat case_bool_decide; repeat case_decide; try lia; congruence.
  - repeat case_bool_decide; simpl; rewrite ?(tres_eqb_norm t) by done; repeat case_bool_decide; repeat case_decide;
      rewrite ?IH; try lia; try congruence.
Qed.

Lemma tally_counts t a c :
  number t → Forall number a →
  tally_get t (foldl (λ counts t, tally_add t 1 counts) c a) = (tally_get t c + count t a)%Z.
Proof.
  intros Ht. revert c. induction a as [|x a IH]; intros c Ha; simpl; [unfold count; simpl; lia|].
  apply Forall_cons_1 in Ha as [Hx Ha]. rewrite IH, tally_get_add, count_cons by done. lia.
Qed.

Lemma tally_check_iff c b :
  Forall number b → (∀ t, number t → 0 <= tally_get t c)%Z →
  tally_check c b = true ↔ ∀ t, number t → (count t b <= tally_get t c)%Z.
Proof.
  revert c. induction b as [|x b IH]; intros c Hb Hc; simpl; [by split; [intros _ t Ht; apply Hc|]|].
  apply Forall_cons_1 in Hb as [Hx Hb].
  assert (∀ t, number t → tally_get t (tally_add x (-1) c) =
    tally_get t c + if decide (norm_tres x = norm_tres t) then -1 else 0)%Z as Hadd by (intros; by apply tally_get_add).
  assert (∀ t, 0 <= count t b)%Z as H0 by (intros; unfold count; lia).
  destruct (Z.ltb_spec (tally_get x (tally_add x (-1) c)) 0) as [Hlt|Hge].
  - split; [done|]. intros Hall. specialize (Hall x Hx). specialize (H0 x). rewrite count_cons in Hall.
    rewrite Hadd in Hlt by done. rewrite !decide_True in * by done. lia.
  - rewrite IH; [|done|].
    + split; intros Hall t Ht; specialize (Hall t Ht); rewrite count_cons in *; rewrite Hadd in * by done;
        case_decide; lia.
    + intros t Ht. rewrite Hadd by done. rewrite Hadd, decide_True in Hge by done. specialize (Hc t Ht).
      case_decide as Hn; [|lia].
      assert (tally_get t c = tally_get x c) as ->; [|lia]. clear -Hn Hx Ht.
      induction c as [|[k n] c IH]; simpl; [done|]. rewrite !tres_eqb_norm, Hn, IH by done. done.
Qed.

Lemma counts_permutation (l k : list TRES) :
  length k = length l → (∀ t, t ∈ l → (count t l <= count t k)%Z) → norm_tres <$> l ≡ₚ norm_tres <$> k.
Proof.
  revert k. induction l as [|x l IH]; intros k Hlen Hc; [by destruct k|].
  assert (∃ y, y ∈ k ∧ norm_tres y = norm_tres x) as (y & Hy & Hn).
  { pose proof (Hc x ltac:(set_solver)) as Hx. rewrite count_cons, decide_True in Hx by done.
    unfold count in Hx. destruct (filter (λ y, norm_tres y = norm_tres x) k) as [|y k'] eqn:Hf; [simpl in Hx; lia|].
    exists y. assert (y ∈ filter (λ y, norm_tres y = norm_tres x) k) as Hin by (rewrite Hf; set_solver).
    apply list_elem_of_filter in Hin. tauto. }
  apply list_elem_of_split in Hy as (k1 & k2 & ->). rewrite length_app in Hlen. simpl in Hlen.
  rewrite fmap_app. simpl. rewrite Hn, <-Permutation_middle, <-fmap_app. constructor.
  apply IH; [rewrite length_app; lia|]. intros t Ht. specialize (Hc t ltac:(set_solver)).
  assert (count t (k1 ++ y :: k2) = (if decide (norm_tres y = norm_tres t) then 1 else 0) + count t (k1 ++ k2))%Z as Hk.
  { unfold count. rewrite !list.filter_app, filter_cons, !length_app. case_decide; simpl; lia. }
  rewrite Hk, count_cons, Hn in Hc. case_decide; lia.
Qed.

Lemma count_permutation l k t : norm_tres <$> l ≡ₚ norm_tres <$> k → count t l = count t k.
Proof.
  intros Hp. assert (∀ l, count t l = Z.of_nat (length (filter (λ y, y = norm_tres t) (norm_tres <$> l)))) as Hl.
  { clear. intros l. unfold count. f_equal. induction l as [|x l IH]; [done|]. rewrite fmap_cons, !filter_cons.
    case_decide; simpl; by rewrite IH. }
  rewrite !Hl, Hp. done.
Qed.

(** The comparison with which an upsert is verified ([tresSliceEqualUnordered], by counting
    in a map) holds exactly when the two lists are the same up to order, the two zeros taken as
    one; NaN, which JSON cannot carry, is excluded. *)
Theorem tres_equal_permutation (a b : list TRES) :
  Forall number a → Forall number b →
  tresSliceEqualUnordered a b = true ↔ norm_tres <$> a ≡ₚ norm_tres <$> b.
Proof.
  intros Ha Hb. unfold tresSliceEqualUnordered.
  assert (∀ t, number t → tally_get t (foldl (λ counts t, tally_add t 1 counts) [] a) = count t a) as Hg.
  { intros t Ht. by rewrite tally_counts. }
  destruct (Nat.eqb_spec (length a) (length b)) as [Hlen|Hlen].
  - rewrite tally_check_iff; [|done|intros t Ht; rewrite Hg by done; unfold count; lia]. split.
    + intros Hall. symmetry. apply counts_permutation; [done|]. intros t Ht.
      assert (number t) as Hnt by (rewrite Forall_forall in Hb; apply Hb; by apply list_elem_of_In). rewrite <-Hg by done. by apply Hall.
    + intros Hp t Ht. rewrite Hg by done. by rewrite (count_permutation a b).
  - split; [done|]. intros Hp%Permutation_length. by rewrite !length_fmap in Hp.
Qed.

Lemma tres_equal_permutation_witness :
  let a := [mkTRES "cpu" "" (S754_zero false); mkTRES "gres" "gpu" (S754_zero true)] in
  let b := [mkTRES "gres" "gpu" (S754_zero false); mkTRES "cpu" "" (S754_zero true)] in
  tresSliceEqualUnordered a b = true ↔ norm_tres <$> a ≡ₚ norm_tres <$> b.
Proof. apply tres_equal_permutation; repeat constructor; discriminate. Defined.
