(* ===== verification/SlurmLogic.v ===== *)
(** * Reasoning about the SLURM connectors

    [triple P m Q X]: from a state with [P], [m] returns a value with [Q] or fails with
    [X]. With [X] the invariant of a run this covers any faults; with [X] false it says that
    [m] succeeds. Then what each request of the client does to the records of slurmrestd. *)

From stdpp Require Import base gmap sets list strings.
From Stdlib Require Import ZArith Lia.
From S2P Require Import Prelude GoError Models Schema Events IdentityCache Effects EffectsLogic.
From S2P Require Import SlurmTypes SlurmEffects.

Set Default Goal Selector "!".

Section triples.
Context `{SS : SlurmServer}.
Implicit Types (P X I : LWorld → Prop) (w : LWorld).

Definition triple {A} P (m : LM A) (Q : A → LWorld → Prop) X : Prop :=
  ∀ w, P w → match m w with (Ok a, w') => Q a w' | (Err _, w') => X w' end.

Lemma triple_ret {A} P (a : A) (Q : A → LWorld → Prop) X : (∀ w, P w → Q a w) → triple P (mret a) Q X.
Proof. intros HQ w Hw. by apply HQ. Qed.
Lemma triple_throw {A} P e (Q : A → LWorld → Prop) X : (∀ w, P w → X w) → triple P (lthrow e) Q X.
Proof. intros HX w Hw. by apply HX. Qed.
Lemma triple_bind {A B} P (m : LM A) (k : A → LM B) (R : A → LWorld → Prop) (Q : B → LWorld → Prop) X :
  triple P m R X → (∀ a, triple (R a) (k a) Q X) → triple P (m ≫= k) Q X.
Proof.
  intros Hm Hk w Hw. specialize (Hm w Hw). unfold mbind, LM_bind.
  destruct (m w) as [[a|e] w1]; [|done]. exact (Hk a w1 Hm).
Qed.
Lemma triple_wrapf {A} P f args (m : LM A) Q X : triple P m Q X → triple P (lwrapf f args m) Q X.
Proof. intros Hm w Hw. specialize (Hm w Hw). unfold lwrapf. by destruct (m w) as [[a|e] w1]. Qed.
Lemma triple_catch {A} P (m : LM A) (Q : A → LWorld → Prop) X Y :
  triple P m Q X →
  triple P (lcatch m) (λ r w, match r with Ok a => Q a w | Err _ => X w end) Y.
Proof. intros Hm w Hw. specialize (Hm w Hw). unfold lcatch. by destruct (m w) as [[a|e] w1]. Qed.
Lemma triple_conseq {A} P P' (m : LM A) (Q Q' : A → LWorld → Prop) X X' :
  triple P' m Q' X' → (∀ w, P w → P' w) → (∀ a w, Q' a w → Q a w) → (∀ w, X' w → X w) → triple P m Q X.
Proof. intros Hm HP HQ HX w Hw. specialize (Hm w (HP w Hw)). destruct (m w) as [[a|e] w1]; auto. Qed.
Lemma triple_gets {A} P (f : LWorld → A) (Q : A → LWorld → Prop) X :
  (∀ w, P w → Q (f w) w) → triple P (lgets f) Q X.
Proof. intros HQ w Hw. by apply HQ. Qed.
Lemma triple_modify P f (Q : unit → LWorld → Prop) X :
  (∀ w, P w → Q tt (f w)) → triple P (lmodify f) Q X.
Proof. intros HQ w Hw. by apply HQ. Qed.
(** The elements still to come are at hand, so the invariant can speak of those done. *)
Lemma triple_fold {A B} (J : list A → B → LWorld → Prop) (f : B → A → LM B) (b : B) (xs : list A)
    (Q : B → LWorld → Prop) X :
  (∀ x xs' b, triple (J (x :: xs') b) (f b x) (J xs') X) →
  (∀ b w, J [] b w → Q b w) →
  triple (J xs b) (lfold f b xs) Q X.
Proof.
  intros Hf HQ. revert b. induction xs as [|x xs IH]; intros b; simpl.
  - apply triple_ret. intros w. apply HQ.
  - eapply triple_bind; [apply Hf|]. intros b'. apply IH.
Qed.
Lemma triple_each {A} (J : list A → LWorld → Prop) (f : A → LM unit) (xs : list A)
    (Q : unit → LWorld → Prop) X :
  (∀ x xs', triple (J (x :: xs')) (f x) (λ _, J xs') X) →
  (∀ w, J [] w → Q tt w) →
  triple (J xs) (leach f xs) Q X.
Proof.
  intros Hf HQ. induction xs as [|x xs IH]; simpl.
  - apply triple_ret. intros w. apply HQ.
  - eapply triple_bind; [apply Hf|]. intros []. apply IH.
Qed.
Lemma triple_pure {A} P (φ : Prop) (m : LM A) Q X :
  (φ → triple P m Q X) → triple (λ w, φ ∧ P w) m Q X.
Proof. intros Hm w [Hφ Hw]. by apply Hm. Qed.
Lemma triple_ok {A} P (m : LM A) (Q : A → LWorld → Prop) w :
  triple P m Q (λ _, False) → P w → ∃ a, (m w).1 = Ok a ∧ Q a (m w).2.
Proof.
  intros Hm Hw. specialize (Hm w Hw). destruct (m w) as [[a|e] w1]; [|done]. by exists a.
Qed.
End triples.

(** ** Calls of the core *)

Section core_calls.
Context `{E : Env} `{SS : SlurmServer}.
Implicit Types (w : LWorld).

(** What a connector can tell apart of the state while it only reads the core. *)
Definition view (d : DB) (s : sdb) (w : LWorld) : Prop := l_db w = d ∧ l_sdb w = s.

(** A read of the core: it changes nothing, and its value comes from the database. *)
Lemma triple_core {A} (m : M A) (d : DB) (J : LWorld → Prop) (Q : A → Prop) :
  Quiet m →
  (∀ c a c', m c = (Ok a, c') → w_db c = d → Q a) →
  (∀ w c, J w → w_db c = w_db (l_core w) → J (set_lcore c w)) →
  (∀ w, J w → l_db w = d) →
  triple J (core m) (λ a w, Q a ∧ J w) J.
Proof.
  intros Hm HQ HJ Hd w Hw. specialize (Hm (l_core w)). unfold core.
  destruct (m (l_core w)) as [r c] eqn:Em. injection Hm as Hdb _ _ _.
  assert (J (set_lcore c w)) by auto. destruct r as [a|e]; [|done]. split; [|done].
  eapply HQ; [exact Em|]. by apply Hd.
Qed.
End core_calls.

(** ** The client *)

Section client_facts.
Context `{SS : SlurmServer} `{SE : SlurmEnv} (c : Client) `{!SlurmLaws c}.
Implicit Types (w : LWorld).

Definition recs (w : LWorld) : gmap RecordKey assocWire := records (c:=c) (l_sdb w).

(** Everything but the state of slurmrestd and the number of requests stays. *)
Definition only_slurm (w w' : LWorld) : Prop :=
  l_core w' = l_core w ∧ l_spans w' = l_spans w ∧ l_last w' = l_last w.
#[export] Instance only_slurm_preorder : PreOrder only_slurm.
Proof.
  split; [done|]. intros w1 w2 w3 (A1 & A2 & A3) (B1 & B2 & B3). unfold only_slurm.
  by rewrite B1, B2, B3, A1, A2, A3.
Qed.

(** A request: not sent, or carried out, in which case its answer may be lost or be an error. *)
Lemma do_run method path body w r w' :
  do c method path body w = (r, w') →
  only_slurm w w' ∧
  let rq := client_request c method path body in
  ((l_sdb w' = l_sdb w ∧ ∃ e, r = Err e) ∨
   (l_sdb w' = (slurmrestd rq (l_sdb w)).2 ∧ ∃ e, r = Err e) ∨
   (l_sdb w' = (slurmrestd rq (l_sdb w)).2 ∧ r = Ok (slurmrestd rq (l_sdb w)).1 ∧
    (resp_status (slurmrestd rq (l_sdb w)).1 < 400)%Z)).
Proof.
  unfold do. destruct (marshals body); simpl; [|intros [= <- <-]; (split; [done|]); eauto].
  destruct (url_error _) as [t|]; [intros [= <- <-]; (split; [done|]); eauto|].
  unfold mbind, LM_bind, send.
  destruct (delivery _) as [|t|t]; [|intros [= <- <-]; (split; [done|]); eauto..].
  destruct (slurmrestd _ _) as [resp s]; simpl.
  destruct (Z.leb_spec 400 (resp_status resp)) as [Hs|Hs].
  - destruct (resp_errors resp) as [[|e es]|]; intros [= <- <-]; simpl; (split; [done|]); eauto.
  - intros [= <- <-]; simpl. split; [done|]. eauto 10.
Qed.

Lemma DeleteAssociation_run f w r w' :
  DeleteAssociation c f w = (r, w') →
  only_slurm w w' ∧
  let gone := filter (λ kw, ¬ key_matches f kw.1) (recs w) in
  (recs w' = gone ∨ (recs w' = recs w ∧ ∃ e, r = Err e)).
Proof.
  unfold DeleteAssociation, mbind, LM_bind. destruct (do c _ _ _ w) as [r1 w1] eqn:E1.
  apply do_run in E1 as [Hw Hr]. intros Hm.
  assert (w' = w1) as -> by (destruct r1; by injection Hm).
  pose proof (law_delete f (l_sdb w)) as HL. split; [done|]. unfold recs.
  revert Hr HL. simpl. destruct (slurmrestd _ _) as [resp s]; simpl. intros Hr HL.
  destruct Hr as [[-> [e ->]]|[[-> [e ->]]|(-> & -> & Hs)]]; injection Hm as <-.
  - right. eauto.
  - rewrite HL. case_decide; [by left|right; eauto].
  - left. by rewrite HL, decide_True.
Qed.

(** What a list returns. *)
Definition listed (f : AssocFilter) (R : gmap RecordKey assocWire) (l : list Association) : Prop :=
  ∃ ws, l = UnmarshalJSON <$> ws ∧ ws ≡ₚ (filter (λ kw, key_matches f kw.1) (map_to_list R)).*2.

Lemma ListAssociations_run f w r w' :
  ListAssociations c f w = (r, w') →
  only_slurm w w' ∧ recs w' = recs w ∧ ∀ l, r = Ok l → listed f (recs w) l.
Proof.
  unfold ListAssociations, mbind, LM_bind. destruct (do c _ _ _ w) as [r1 w1] eqn:E1.
  apply do_run in E1 as [Hw Hr]. intros Hm.
  assert (w' = w1) as ->.
  { destruct r1 as [resp|e]; [|by injection Hm]. unfold decode in Hm.
    destruct (resp_associations resp); by injection Hm. }
  pose proof (law_list f (l_sdb w)) as HL. split; [done|]. unfold recs.
  revert Hr HL. simpl. destruct (slurmrestd _ _) as [resp s]; simpl. intros Hr HL. destruct HL as [HL1 HL2].
  destruct Hr as [[-> [e ->]]|[[-> [e ->]]|(-> & -> & Hs)]]; simpl in Hm.
  - injection Hm as <-. done.
  - injection Hm as <-. done.
  - split; [done|]. unfold decode in Hm. destruct (resp_associations resp) as [ws|] eqn:Ews; simpl in Hm.
    + injection Hm as <-. intros l [= <-]. exists ws. auto.
    + injection Hm as <-. done.
Qed.

(** What an upsert can do to the records. *)
Definition upserted (w0 : assocWire) (R R' : gmap RecordKey assocWire) : Prop :=
  ∃ x, wire_key x = wire_key w0 ∧ same_tres w0 x ∧ R' = <[wire_key w0 := x]> R.

Lemma UpsertAssociation_run a w r w' :
  UpsertAssociation c a w = (r, w') →
  only_slurm w w' ∧ (recs w' = recs w ∨ upserted (MarshalJSON a) (recs w) (recs w')).
Proof.
  unfold UpsertAssociation, mbind, LM_bind. destruct (do c _ _ _ w) as [r1 w1] eqn:E1.
  apply do_run in E1 as [Hw Hr].
  assert (recs w1 = recs w ∨ upserted (MarshalJSON a) (recs w) (recs w1)) as H1.
  { pose proof (law_upsert (MarshalJSON a) (l_sdb w)) as HL. unfold recs.
    revert Hr HL. simpl. destruct (slurmrestd _ _) as [resp s]; simpl. intros Hr HL.
    destruct Hr as [[-> _]|[[-> _]|[-> _]]]; [by left|apply HL..]. }
  intros Hm. destruct r1 as [resp|e]; [|injection Hm as _ <-; done].
  destruct (ListAssociations c _ w1) as [r2 w2] eqn:E2.
  assert (w' = w2) as ->.
  { destruct r2 as [[|x l]|e]; try by injection Hm. repeat case_match; by injection Hm. }
  apply ListAssociations_run in E2 as (Hw2 & HR & _). rewrite HR. split; [|done]. by etrans.
Qed.

Lemma CreateAccount_run acc cluster w r w' :
  CreateAccount c acc cluster w = (r, w') →
  only_slurm w w' ∧
  let k := (cluster, Account_Name acc, "", "") in
  (recs w' = recs w ∨ ∃ x, recs w !! k = None ∧ wire_key x = k ∧ recs w' = <[k := x]> (recs w)) ∧
  (∀ u, r = Ok u → is_Some (recs w' !! k)).
Proof.
  unfold CreateAccount, mbind, LM_bind. destruct (do c _ _ _ w) as [r1 w1] eqn:E1.
  apply do_run in E1 as [Hw Hr]. intros Hm.
  assert (w' = w1) as -> by (destruct r1; by injection Hm).
  pose proof (law_account acc cluster (l_sdb w)) as HL. split; [done|]. unfold recs.
  revert Hr HL. simpl. destruct (slurmrestd _ _) as [resp s]; simpl. intros Hr HL. destruct HL as [HL1 HL2].
  destruct Hr as [[-> [e ->]]|[[-> [e ->]]|(-> & -> & Hs)]]; injection Hm as <-.
  - split; [by left|done].
  - split; [done|done].
  - split; [done|]. intros _ _. auto.
Qed.

Lemma ListJobs_run f w r w' :
  ListJobs c f w = (r, w') → only_slurm w w' ∧ recs w' = recs w.
Proof.
  unfold ListJobs, mbind, LM_bind. destruct (do c _ _ _ w) as [r1 w1] eqn:E1.
  apply do_run in E1 as [Hw Hr]. intros Hm.
  assert (w' = w1) as ->.
  { destruct r1 as [resp|e]; [|by injection Hm]. unfold decode in Hm.
    destruct (resp_jobs resp); by injection Hm. }
  split; [done|]. unfold recs. pose proof (law_jobs f (l_sdb w)) as HL.
  destruct Hr as [[-> _]|[[-> _]|[-> _]]]; done.
Qed.
End client_facts.

Section upsert_verified.
Context `{SS : SlurmServer} `{SE : SlurmEnv} (c : Client) `{!SlurmLaws c}.

(** An upsert that reports success has been read back: the record of its key is there, with
    the TRES limits that were sent. *)
Lemma UpsertAssociation_verified a w u w' :
  UpsertAssociation c a w = (Ok u, w') →
  ∃ y, recs c w' !! wire_key (MarshalJSON a) = Some y ∧
    tresSliceEqualUnordered (GrpTRES (unmarshal_limits (wire_Max y))) (GrpTRES (Assoc_Limits a)) = true ∧
    tresSliceEqualUnordered (GrpTRESMins (unmarshal_limits (wire_Max y))) (GrpTRESMins (Assoc_Limits a)) = true.
Proof.
  unfold UpsertAssociation, mbind, LM_bind. destruct (do c _ _ _ w) as [[resp|e] w1]; [|done].
  destruct (ListAssociations c _ w1) as [[l|e] w2] eqn:E2; [|done].
  apply (ListAssociations_run c) in E2 as (_ & HR & Hl). specialize (Hl l eq_refl) as (ws & -> & Hws).
  destruct ws as [|y ws]; simpl; [done|]. case_decide as Hk; [done|].
  destruct (tresSliceEqualUnordered _ _) eqn:E3; simpl; [|done].
  destruct (tresSliceEqualUnordered _ (GrpTRESMins _)) eqn:E4; simpl; [|done]. intros [= <- <-].
  exists y. split; [|done].
  assert (y ∈ (filter (λ kw, key_matches (mkAssocFilter (Assoc_Account a) (Assoc_User a) (Assoc_Cluster a)
    (Assoc_Partition a)) kw.1) (map_to_list (recs c w1))).*2) as Hy by (rewrite <-Hws; set_solver).
  apply list_elem_of_fmap in Hy as ([k y'] & -> & [_ Hy]%list_elem_of_filter). simpl in *.
  apply elem_of_map_to_list in Hy. pose proof (records_keyed _ _ _ Hy) as Hkey.
  assert (wire_key (MarshalJSON a) = k) as ->; [|by rewrite HR]. rewrite <-Hkey. unfold wire_key. simpl.
  destruct (decide (wire_Account y' = Assoc_Account a)) as [->|]; [|by destruct Hk; left].
  destruct (decide (wire_User y' = Assoc_User a)) as [->|]; [|by destruct Hk; right; left].
  destruct (decide (wire_Cluster y' = Assoc_Cluster a)) as [->|]; [|by destruct Hk; do 2 right; left].
  by destruct (decide (wire_Partition y' = Assoc_Partition a)) as [->|]; [|destruct Hk; do 3 right].
Qed.
End upsert_verified.
