(* ===== verification/SlurmSweep.v ===== *)
(** * What a sweep of the reconciler changes

    Who is entitled to an association, read off the tables; then: whatever fails, a sweep
    writes only records of entitled members with the limits of their overrides, removes
    only records that nobody is entitled to, and touches nothing else. *)

From stdpp Require Import base gmap sets list strings.
From Stdlib Require Import ZArith Ascii Lia.
From S2P Require Import Prelude GoError Models Schema Events IdentityCache Effects EffectsLogic.
From S2P Require Import StoreIdentity StoreCluster StoreAllocation StoreMembership.
From S2P Require Import UserService AuthService ProjectService AllocationService MembershipService ServiceApi.
From S2P Require Import SlurmTypes SlurmEffects SlurmMapper SlurmLogic.

Set Default Goal Selector "!".

(** ** Entitlement *)

(** [m] gives its member the resource [r] on the cluster of its allocation. *)
Record grants (d : DB) (m : ComputeAllocationMembership) (al : ComputeAllocation) (cl : ComputeCluster)
    (csu : ComputeClusterUser) (r : ComputeAllocationResource) : Prop := {
  gr_allocation : t_compute_allocations d !! Membership_ComputeAllocationID m = Some al;
  gr_active : ComputeAllocation_Status al = ACTIVE;
  gr_cluster : t_compute_clusters d !! ComputeAllocation_ComputeClusterID al = Some cl;
  gr_account : t_compute_cluster_users d !! ComputeClusterUser_ID csu = Some csu;
  gr_account_cluster : ComputeClusterUser_ComputeClusterID csu = ComputeCluster_ID cl;
  gr_account_user : ComputeClusterUser_UserID csu = Membership_UserID m;
  gr_provisioned : ComputeClusterUser_ProvisionedAt csu ≠ None;
  gr_resource : ∃ id mp, t_resource_mappings d !! id = Some mp ∧
    Mapping_ComputeAllocationID mp = ComputeAllocation_ID al ∧
    t_resources d !! Mapping_ComputeAllocationResourceID mp = Some r }.

(** The record for it: its key and the limits of the overrides of [m]. *)
Definition grant_record (d : DB) (m : ComputeAllocationMembership) (al : ComputeAllocation)
    (cl : ComputeCluster) (csu : ComputeClusterUser) (r : ComputeAllocationResource) : Association :=
  association_for al cl csu
    (pgComputeAllocationMembershipResourceOverrideStore_FindByMembership (Membership_ID m) d) r.

Definition active_member (d : DB) (m : ComputeAllocationMembership) : Prop :=
  t_memberships d !! Membership_ID m = Some m ∧ Membership_MembershipStatus m = ACTIVE.

Definition record_key (x : Association) : RecordKey := wire_key (MarshalJSON x).

(** Some active member is entitled to the association of [k]. *)
Definition entitled (d : DB) (k : RecordKey) : Prop :=
  ∃ m al cl csu r, active_member d m ∧ grants d m al cl csu r ∧ k = record_key (grant_record d m al cl csu r).

(** [x] is a record some active member is entitled to, with the limits of that member. *)
Definition granted (d : DB) (k : RecordKey) (x : assocWire) : Prop :=
  ∃ m al cl csu r, active_member d m ∧ grants d m al cl csu r ∧
    k = record_key (grant_record d m al cl csu r) ∧ same_tres (MarshalJSON (grant_record d m al cl csu r)) x.

(** [acc] is the name of an allocation on the cluster named [cl]. *)
Definition managed (d : DB) (cl acc : string) : Prop :=
  ∃ c al, t_compute_clusters d !! ComputeCluster_ID c = Some c ∧ ComputeCluster_Name c = cl ∧
    t_compute_allocations d !! ComputeAllocation_ID al = Some al ∧
    ComputeAllocation_ComputeClusterID al = ComputeCluster_ID c ∧ ComputeAllocation_Name al = acc.

(** What a sweep that starts with the records [R] may remove: an association of a user on a
    managed account that nobody is entitled to; or any of them of a user who has such an
    association without a partition, because a filter without a partition matches all. *)
Definition removable (d : DB) (R : gmap RecordKey assocWire) (k : RecordKey) : Prop :=
  let '(cl, acc, user, part) := k in
  user ≠ "" ∧ managed d cl acc ∧
  (¬ entitled d k ∨ (is_Some (R !! (cl, acc, user, "")) ∧ ¬ entitled d (cl, acc, user, ""))).

(** What a sweep may do to the record of each key. *)
Definition swept (d : DB) (R R' : gmap RecordKey assocWire) : Prop :=
  ∀ k, R' !! k = R !! k ∨ (∃ x, R' !! k = Some x ∧ granted d k x) ∨ (R' !! k = None ∧ removable d R k).

Definition clusters_named (d : DB) : Prop :=
  map_Forall (λ _ c, ComputeCluster_Name c ≠ "") (t_compute_clusters d).

Lemma granted_entitled d k x : granted d k x → entitled d k.
Proof. intros (m & al & cl & csu & r & ? & ? & ? & _). by exists m, al, cl, csu, r. Qed.

(** ** Reads of the core *)

Section values.
Context `{E : Env} (d : DB) (Hd : integrity d).
Implicit Types (m : ComputeAllocationMembership) (w : World).

Lemma GetComputeAllocation_value id w al w' :
  GetComputeAllocation id w = (Ok al, w') → w_db w = d → t_compute_allocations d !! id = Some al.
Proof. unfold GetComputeAllocation. intros H <-. run. done. Qed.
Lemma GetComputeCluster_value id w cl w' :
  GetComputeCluster id w = (Ok cl, w') → w_db w = d → t_compute_clusters d !! id = Some cl.
Proof. unfold GetComputeCluster. intros H <-. run. done. Qed.
Lemma GetComputeClusterUserByPair_value cid uid w csu w' :
  GetComputeClusterUserByPair cid uid w = (Ok csu, w') → w_db w = d →
  t_compute_cluster_users d !! ComputeClusterUser_ID csu = Some csu ∧
  ComputeClusterUser_ComputeClusterID csu = cid ∧ ComputeClusterUser_UserID csu = uid.
Proof.
  unfold GetComputeClusterUserByPair. intros H Hw. run. subst.
  match goal with H : pgComputeClusterUserStore_FindByPair _ _ _ = Some _ |- _ =>
    apply select_one_Some in H as [[<- <-] [k Hk]] end.
  pose proof (pk_compute_cluster_users _ Hd _ _ Hk) as Hid. simpl in Hid. rewrite <-Hid in Hk. done.
Qed.
Lemma ListResourcesForAllocation_value id w rs w' r :
  ListResourcesForAllocation id w = (Ok rs, w') → w_db w = d →
  r ∈ rs ↔ ∃ i mp, t_resource_mappings d !! i = Some mp ∧ Mapping_ComputeAllocationID mp = id ∧
    t_resources d !! Mapping_ComputeAllocationResourceID mp = Some r.
Proof.
  unfold ListResourcesForAllocation. intros H Hw. run. subst.
  unfold pgComputeAllocationResourceMappingStore_FindResourcesByAllocation.
  rewrite elem_of_order_by, list_elem_of_omap. split.
  - intros (mp & [<- [i Hi]]%elem_of_select_rows & Hr). eauto.
  - intros (i & mp & Hi & <- & Hr). exists mp. split; [|done]. apply elem_of_select_rows. eauto.
Qed.
Lemma ListOverridesForMembership_value id w os w' :
  ListOverridesForMembership id w = (Ok os, w') → w_db w = d →
  os = pgComputeAllocationMembershipResourceOverrideStore_FindByMembership id d.
Proof. unfold ListOverridesForMembership. intros H <-. run. done. Qed.
Lemma ListAllocationsForUser_value uid w ms w' m :
  ListAllocationsForUser uid w = (Ok ms, w') → w_db w = d →
  m ∈ ms ↔ t_memberships d !! Membership_ID m = Some m ∧ Membership_UserID m = uid.
Proof.
  unfold ListAllocationsForUser. intros H Hw. run. subst.
  unfold pgComputeAllocationMembershipStore_FindByUser.
  rewrite elem_of_order_by, elem_of_select_rows. split.
  - intros [<- [i Hi]]. pose proof (pk_memberships _ Hd _ _ Hi) as Hid. simpl in Hid. by subst i.
  - intros [Hm <-]. eauto.
Qed.
Lemma ListComputeClusters_value w cs w' c :
  ListComputeClusters w = (Ok cs, w') → w_db w = d →
  c ∈ cs ↔ t_compute_clusters d !! ComputeCluster_ID c = Some c.
Proof.
  unfold ListComputeClusters. intros H Hw. run. subst.
  unfold pgComputeClusterStore_List. rewrite elem_of_order_by. unfold all_rows.
  rewrite list_elem_of_fmap. split.
  - intros ([i c'] & -> & Hi%elem_of_map_to_list). simpl.
    pose proof (pk_compute_clusters _ Hd _ _ Hi) as Hid. simpl in Hid. by subst i.
  - intros Hc. exists (ComputeCluster_ID c, c). split; [done|]. by apply elem_of_map_to_list.
Qed.
Lemma ListComputeClusterUsersByCluster_value cid w us w' u :
  ListComputeClusterUsersByCluster cid w = (Ok us, w') → w_db w = d →
  u ∈ us ↔ t_compute_cluster_users d !! ComputeClusterUser_ID u = Some u ∧
           ComputeClusterUser_ComputeClusterID u = cid.
Proof.
  unfold ListComputeClusterUsersByCluster. intros H Hw. run. subst.
  unfold pgComputeClusterUserStore_FindByCluster. rewrite elem_of_order_by, elem_of_select_rows. split.
  - intros [<- [i Hi]]. pose proof (pk_compute_cluster_users _ Hd _ _ Hi) as Hid. simpl in Hid. by subst i.
  - intros [Hu <-]. eauto.
Qed.
Lemma ListComputeAllocationsByCluster_value cid w als w' al :
  ListComputeAllocationsByCluster cid w = (Ok als, w') → w_db w = d →
  al ∈ als ↔ t_compute_allocations d !! ComputeAllocation_ID al = Some al ∧
             ComputeAllocation_ComputeClusterID al = cid.
Proof.
  unfold ListComputeAllocationsByCluster. intros H Hw. run. subst.
  unfold pgComputeAllocationStore_FindByCluster. rewrite elem_of_select_rows. split.
  - intros [<- [i Hi]]. pose proof (pk_compute_allocations _ Hd _ _ Hi) as Hid. simpl in Hid. by subst i.
  - intros [Ha <-]. eauto.
Qed.

(** The member's account is the one of the pair. *)
Lemma grants_account m al cl csu csu' r :
  grants d m al cl csu r →
  t_compute_cluster_users d !! ComputeClusterUser_ID csu' = Some csu' →
  ComputeClusterUser_ComputeClusterID csu' = ComputeCluster_ID cl →
  ComputeClusterUser_UserID csu' = Membership_UserID m → csu' = csu.
Proof.
  intros G Hu Hc Hm. pose proof (gr_account _ _ _ _ _ _ G) as Hu'.
  assert (ComputeClusterUser_ID csu' = ComputeClusterUser_ID csu) as Hid.
  { eapply (u_cluster_users_pair _ Hd); [exact Hu|exact Hu'|..]; unfold uq_compute_cluster_users_pair.
    - done.
    - by rewrite Hc, Hm, (gr_account_cluster _ _ _ _ _ _ G), (gr_account_user _ _ _ _ _ _ G). }
  rewrite Hid in Hu. congruence.
Qed.
End values.

(** ** Steps on the records *)

Lemma swept_refl d R : swept d R R.
Proof. intros k. by left. Qed.
Lemma swept_insert d R0 R k x : swept d R0 R → granted d k x → swept d R0 (<[k := x]> R).
Proof.
  intros HR Hx k'. destruct (decide (k' = k)) as [->|Hk].
  - right. left. exists x. by rewrite lookup_insert_eq.
  - rewrite lookup_insert_ne by done. apply HR.
Qed.
Lemma swept_delete d R0 R f :
  swept d R0 R → (∀ k, key_matches f k → removable d R0 k) →
  swept d R0 (filter (λ kw, ¬ key_matches f kw.1) R).
Proof.
  intros HR Hf k. destruct (decide (key_matches f k)) as [Hk|Hk].
  - right. right. split; [|auto]. apply map_lookup_filter_None. right. intros x _ Hc. by apply Hc.
  - destruct (HR k) as [Hl|[(x & Hl & Hx)|[Hl Hx]]].
    + left. rewrite <-Hl. destruct (R !! k) as [x|] eqn:Ex.
      * by apply map_lookup_filter_Some.
      * apply map_lookup_filter_None. by left.
    + right. left. exists x. split; [|done]. by apply map_lookup_filter_Some.
    + right. right. split; [|done]. apply map_lookup_filter_None. by left.
Qed.

Lemma key_matches_full acc user cl part k :
  acc ≠ "" → user ≠ "" → cl ≠ "" → key_matches (mkAssocFilter acc user cl part) k →
  ∃ p, k = (cl, acc, user, p) ∧ (part ≠ "" → p = part).
Proof.
  destruct k as [[[kc ka] ku] kp]. unfold key_matches, param_matches. simpl.
  intros ??? ([?| ->] & [?| ->] & [?| ->] & Hp); try done. exists kp. split; [done|].
  intros ?. by destruct Hp as [?| ->].
Qed.

(** The last association of each key. *)
Lemma by_key_Some (l : list Association) (m : gmap assocKey Association) k x :
  foldl (λ m assoc, <[keyOf assoc := assoc]> m) m l !! k = Some x →
  m !! k = Some x ∨ (x ∈ l ∧ k = keyOf x).
Proof.
  revert m. induction l as [|y l IH]; intros m; simpl; [by left|]. intros H.
  apply IH in H as [H|[H ->]]; [|right; set_solver].
  destruct (decide (keyOf y = k)) as [<-|Hk].
  - rewrite lookup_insert_eq in H. injection H as ->. right. set_solver.
  - rewrite lookup_insert_ne in H by done. by left.
Qed.
Lemma by_key_is_Some (l : list Association) (m : gmap assocKey Association) k :
  is_Some (m !! k) ∨ k ∈ keyOf <$> l →
  is_Some (foldl (λ m assoc, <[keyOf assoc := assoc]> m) m l !! k).
Proof.
  revert m. induction l as [|y l IH]; intros m; simpl; [set_solver|]. intros H. apply IH.
  destruct (decide (keyOf y = k)) as [<-|Hk].
  - left. by rewrite lookup_insert_eq.
  - rewrite lookup_insert_ne by done. set_solver.
Qed.

(** ** Runs that only read the core *)

Section invariant.
Context `{E : Env} `{SS : SlurmServer} `{SE : SlurmEnv} (a : AssociationSubscriber).
Abbreviation c := (sub_slurmClient a).
Context `{!SlurmLaws c} (d : DB) (Hd : integrity d) (S : gmap RecordKey assocWire → Prop).

(** The core has the rows [d] and the records of slurmrestd satisfy [S]. *)
Definition Inv (w : LWorld) : Prop := l_db w = d ∧ S (recs c w).

Lemma read {A} (m : M A) (Q : A → Prop) :
  Quiet m → (∀ w x w', m w = (Ok x, w') → w_db w = d → Q x) →
  triple Inv (core m) (λ x w, Q x ∧ Inv w) Inv.
Proof.
  intros Hm HQ. apply (triple_core _ d); [done..| |by intros w []].
  intros w x [Hw HR] Hx. split; [|done]. unfold l_db in *. simpl. by rewrite Hx.
Qed.
Lemma Inv_only w w' : Inv w → only_slurm w w' → S (recs c w') → Inv w'.
Proof. intros [Hw _] [Hc _] HR. split; [|done]. unfold l_db in *. by rewrite Hc. Qed.

(** The records of a membership: exactly what it grants. *)
Definition desired_exact (m : ComputeAllocationMembership) (l : list Association) : Prop :=
  ∀ x, x ∈ l ↔ ∃ al cl csu r, grants d m al cl csu r ∧ x = grant_record d m al cl csu r.

Lemma desired_triple m :
  triple Inv (desiredAssociationsForMembership m) (λ l w, desired_exact m l ∧ Inv w) Inv.
Proof.
  unfold desiredAssociationsForMembership. eapply triple_bind.
  { apply triple_wrapf, read; [unfold GetComputeAllocation; solve_quiet|].
    intros w x w' H Hw. by eapply GetComputeAllocation_value. }
  intros al. apply triple_pure. intros Hal. destruct (activeAllocation al) eqn:Ea; simpl.
  2: { apply triple_ret. intros w Hw. split; [|done]. intros x. split; [by intros ?%not_elem_of_nil|].
       intros (al' & cl & csu & r & [G1 G2 _ _ _ _ _ _] & _). simplify_eq.
       unfold activeAllocation in Ea. by rewrite bool_decide_eq_false in Ea. }
  apply bool_decide_eq_true in Ea. eapply triple_bind.
  { apply triple_wrapf, read; [unfold GetComputeCluster; solve_quiet|].
    intros w x w' H Hw. by eapply GetComputeCluster_value. }
  intros cl. apply triple_pure. intros Hcl. eapply triple_bind.
  { apply triple_wrapf, read; [unfold GetComputeClusterUserByPair; solve_quiet|].
    intros w x w' H Hw. by eapply GetComputeClusterUserByPair_value. }
  intros csu. apply triple_pure. intros (Hcsu & Hcc & Hcu). case_decide as Hp.
  { apply triple_throw. done. }
  eapply triple_bind.
  { apply triple_wrapf, (read _ (λ rs, ∀ r, r ∈ rs ↔ ∃ i mp, t_resource_mappings d !! i = Some mp ∧
        Mapping_ComputeAllocationID mp = ComputeAllocation_ID al ∧
        t_resources d !! Mapping_ComputeAllocationResourceID mp = Some r));
      [unfold ListResourcesForAllocation; solve_quiet|].
    intros w x w' H Hw. intros r. by eapply ListResourcesForAllocation_value. }
  intros rs. apply triple_pure. intros Hrs.
  assert (∀ os, os = pgComputeAllocationMembershipResourceOverrideStore_FindByMembership (Membership_ID m) d →
    desired_exact m (association_for al cl csu os <$> rs)) as Hex.
  { intros os -> x. rewrite list_elem_of_fmap. split.
    - intros (r & -> & Hr%Hrs). exists al, cl, csu, r. split; [|done]. split; eauto.
    - intros (al' & cl' & csu' & r & G & ->). pose proof G as [G1 _ G2 _ G3 G4 _ G5]. simplify_eq.
      assert (csu = csu') as -> by (by eapply grants_account). exists r. split; [done|]. by apply Hrs. }
  destruct rs as [|r0 rs'].
  - apply triple_ret. intros w Hw. split; [|done]. exact (Hex _ eq_refl).
  - eapply triple_bind.
    { apply triple_wrapf, read; [unfold ListOverridesForMembership; solve_quiet|].
      intros w x w' H Hw. by eapply ListOverridesForMembership_value. }
    intros os. apply triple_pure. intros Hos. apply triple_ret. intros w Hw. split; [|done]. by apply Hex.
Qed.

(** A loop whose body keeps the invariant. *)
Lemma each_in {A} (l : list A) (f : A → LM unit) :
  (∀ x, x ∈ l → triple Inv (f x) (λ _, Inv) Inv) → triple Inv (leach f l) (λ _, Inv) Inv.
Proof.
  clear Hd. intros Hf. eapply triple_conseq with (P' := λ w, (∀ x, x ∈ l → x ∈ l) ∧ Inv w);
    [|by intros w Hw|by intros ? w Hw; exact Hw|by intros w Hw; exact Hw].
  apply (triple_each (λ rem w, (∀ x, x ∈ rem → x ∈ l) ∧ Inv w) f l); [|by intros w [_ Hw]].
  intros x rem. apply triple_pure. intros Hrem. eapply triple_conseq.
  - apply Hf, Hrem. set_solver.
  - done.
  - intros ? w Hw. split; [|done]. intros y Hy. apply Hrem. set_solver.
  - done.
Qed.

Lemma fold_in {A B} (l : list A) (f : B → A → LM B) (b : B) :
  (∀ x b, x ∈ l → triple Inv (f b x) (λ _, Inv) Inv) → triple Inv (lfold f b l) (λ _, Inv) Inv.
Proof.
  clear Hd. revert b. induction l as [|x l IH]; intros b Hf; simpl; [by apply triple_ret|].
  eapply triple_bind; [apply Hf; set_solver|]. intros b1. apply IH. intros y b2 Hy. apply Hf. set_solver.
Qed.

End invariant.

(** ** The sweep, whatever fails *)

Section sweep.
Context `{E : Env} `{SS : SlurmServer} `{SE : SlurmEnv} (a : AssociationSubscriber).
Abbreviation c := (sub_slurmClient a).
Context `{!SlurmLaws c} (d : DB) (Hd : integrity d) (Hn : clusters_named d) (R0 : gmap RecordKey assocWire).
Abbreviation Inv := (Inv a d (swept d R0)).
Abbreviation desired_exact := (desired_exact d).

Lemma upsert_triple m x l :
  active_member d m → desired_exact m l → x ∈ l →
  triple Inv (UpsertAssociation c x) (λ _, Inv) Inv.
Proof.
  intros Hm Hl Hx w Hw. destruct (UpsertAssociation c x w) as [r w'] eqn:Eu.
  apply (UpsertAssociation_run c) in Eu as [Ho HR].
  enough (Inv w') by (by destruct r). apply (Inv_only a d _ w); [done..|].
  destruct Hw as [_ Hs], HR as [->|(y & Hy & Ht & ->)]; [done|].
  apply Hl in Hx as (al & cl & csu & r' & G & ->).
  apply swept_insert; [done|]. exists m, al, cl, csu, r'. done.
Qed.

Lemma sweep_record_triple m x l ex :
  active_member d m → desired_exact m l → x ∈ l →
  triple Inv (sweep_record a ex x) (λ _, Inv) Inv.
Proof.
  intros Hm Hl Hx. unfold sweep_record.
  assert (triple Inv (_ ← lcatch (UpsertAssociation c x); mret tt) (λ _, Inv) Inv) as Hwrite.
  { eapply triple_bind; [eapply triple_catch, (upsert_triple m x l); done|].
    intros r. apply triple_ret. intros w Hw. by destruct r. }
  destruct (ex !! keyOf x) as [got|]; [|done]. destruct (sameLimits x got); [|done].
  by apply triple_ret.
Qed.

(** The keys [b] have those of all that [m] grants. *)
Definition covers (m : ComputeAllocationMembership) (b : gset assocKey) : Prop :=
  ∀ al cl csu r, grants d m al cl csu r → keyOf (grant_record d m al cl csu r) ∈ b.

Lemma covers_mono m b b' : b ⊆ b' → covers m b → covers m b'.
Proof. intros Hb Hc al cl csu r G. by apply Hb, Hc. Qed.

Lemma ready_triple csu : triple Inv (readyForAssociation a csu) (λ _, Inv) Inv.
Proof.
  unfold readyForAssociation. destruct (ComputeClusterUser_ProvisionedAt csu); [|by apply triple_ret].
  eapply triple_bind; [apply (read a d _ _ (λ _, True)); [apply Quiet_nowUTC|done]|].
  intros t. apply triple_ret. by intros w [_ ?].
Qed.

Lemma sweep_membership_triple ex csu b m :
  t_memberships d !! Membership_ID m = Some m →
  triple Inv (sweep_membership a ex csu b m)
    (λ b' w, (b ⊆ b' ∧ (Membership_MembershipStatus m = ACTIVE → covers m b')) ∧ Inv w) Inv.
Proof.
  intros Hm. unfold sweep_membership. case_decide as Hs.
  { apply triple_ret. intros w Hw. done. }
  eapply triple_bind; [by apply desired_triple|].
  intros l. apply triple_pure. intros Hl. cbv zeta. set (b' := b ∪ list_to_set (keyOf <$> l)).
  assert (b ⊆ b' ∧ (Membership_MembershipStatus m = ACTIVE → covers m b')) as Hb.
  { split; [set_solver|]. intros _ al cl csu' r G. apply elem_of_union. right.
    apply elem_of_list_to_set, list_elem_of_fmap. eexists. split; [done|]. apply Hl. eauto 10. }
  eapply triple_bind; [apply ready_triple|]. intros ready. destruct ready; simpl.
  2: { apply triple_ret. done. }
  eapply triple_bind with (R := λ _, Inv).
  { apply each_in. intros x Hx. by apply (sweep_record_triple m x l). }
  intros []. apply triple_ret. done.
Qed.

(** A loop that collects keys. *)
Lemma fold_covers {A} (f : gset assocKey → A → LM (gset assocKey)) (C : A → gset assocKey → Prop)
    (l : list A) (b : gset assocKey) :
  (∀ x b b', b ⊆ b' → C x b → C x b') →
  (∀ x b, x ∈ l → triple Inv (f b x) (λ b' w, (b ⊆ b' ∧ C x b') ∧ Inv w) Inv) →
  triple Inv (lfold f b l) (λ b' w, (b ⊆ b' ∧ ∀ x, x ∈ l → C x b') ∧ Inv w) Inv.
Proof.
  intros HC. revert b. induction l as [|x l IH]; intros b Hf; simpl.
  { apply triple_ret. intros w Hw. split; [|done]. split; [done|]. by intros x ?%not_elem_of_nil. }
  eapply triple_bind; [apply Hf; set_solver|]. intros b1. apply triple_pure. intros [Hb1 Hx].
  eapply triple_conseq; [apply IH|..]; [intros y b2 Hy; apply Hf; set_solver|done| |done].
  intros b2 w [[Hb2 Hl] Hw]. split; [|done]. split; [by etrans|].
  intros y [->|Hy]%elem_of_cons; [by eapply HC|auto].
Qed.

Definition user_covered (csu : ComputeClusterUser) (b : gset assocKey) : Prop :=
  ComputeClusterUser_ProvisionedAt csu ≠ None → ∀ m, active_member d m →
    Membership_UserID m = ComputeClusterUser_UserID csu → covers m b.

Lemma sweep_user_triple ex b csu :
  triple Inv (sweep_user a ex b csu)
    (λ b' w, (b ⊆ b' ∧ user_covered csu b') ∧ Inv w) Inv.
Proof.
  unfold sweep_user. case_decide as Hp.
  { apply triple_ret. intros w Hw. split; [|done]. split; [done|]. by intros ?. }
  eapply triple_bind.
  { apply (read a d _ _ (λ ms, ∀ m, m ∈ ms ↔ t_memberships d !! Membership_ID m = Some m ∧
        Membership_UserID m = ComputeClusterUser_UserID csu)).
    - unfold ListAllocationsForUser. solve_quiet.
    - intros w ms w' H Hw m. by eapply ListAllocationsForUser_value. }
  intros ms. apply triple_pure. intros Hms. eapply triple_conseq.
  - apply (fold_covers _ (λ m b', Membership_MembershipStatus m = ACTIVE → covers m b')).
    + intros m b1 b2 Hb Hm Ha. eapply covers_mono; [exact Hb|auto].
    + intros m b1 [Hm _]%Hms. by apply sweep_membership_triple.
  - done.
  - intros b' w [[Hb Hm] Hw]. split; [|done]. split; [done|]. intros _ m [Hrow Ha] Hu.
    apply Hm; [|done]. by apply Hms.
  - done.
Qed.

(** What is known of the associations read at the start of the sweep of the cluster [cl]. *)
Definition found (cl : string) (ex : gmap assocKey Association) : Prop :=
  ∀ key x, ex !! key = Some x →
    key = keyOf x ∧ Assoc_Account x ≠ "" ∧
    ∃ R, swept d R0 R ∧ is_Some (R !! (cl, Assoc_Account x, Assoc_User x, Assoc_Partition x)).

Lemma existing_triple cl :
  cl ≠ "" → triple Inv (existingAssociations a cl) (λ ex w, found cl ex ∧ Inv w) Inv.
Proof.
  intros Hcl. unfold existingAssociations. eapply triple_bind with
    (R := λ l w, listed (mkAssocFilter "" "" cl "") (recs c w) l ∧ Inv w).
  { intros w Hw. destruct (ListAssociations c _ w) as [r w'] eqn:El.
    apply (ListAssociations_run c) in El as (Ho & HR & Hl).
    assert (Inv w') as Hw' by (apply (Inv_only a d _ w); [done..|]; rewrite HR; apply Hw).
    destruct r as [l|]; [|done]. rewrite HR. auto. }
  intros l. apply triple_ret. intros w [(ws & -> & Hws) Hw]. split; [|done].
  intros key x Hx. apply by_key_Some in Hx as [Hx|[Hx ->]]; [by rewrite lookup_empty in Hx|].
  split; [done|]. apply list_elem_of_fmap in Hx as (y & -> & Hy). rewrite Hws in Hy.
  apply list_elem_of_fmap in Hy as ([k y'] & -> & [Hk Hy]%list_elem_of_filter). simpl in *.
  apply elem_of_map_to_list in Hy. split; [by eapply records_account|].
  exists (recs c w). split; [apply Hw|]. pose proof (records_keyed _ _ _ Hy) as Hkey.
  destruct k as [[[kc ka] ku] kp]. unfold wire_key in Hkey. injection Hkey as <- <- <- <-.
  destruct Hk as ([Hc|Hc] & _); simpl in Hc; [done|]. rewrite Hc. eauto.
Qed.

(** The keys of everything anyone is entitled to on the cluster [cl]. *)
Definition complete (cl : string) (desired : gset assocKey) : Prop :=
  ∀ acc user part, entitled d (cl, acc, user, part) → mkAssocKey acc user part ∈ desired.

Lemma swept_before R k : swept d R0 R → is_Some (R !! k) → ¬ entitled d k → is_Some (R0 !! k).
Proof.
  intros HR [x Hx] Hk. destruct (HR k) as [Hl|[(y & Hl & Hy)|[Hl _]]].
  - rewrite <-Hl. eauto.
  - by destruct Hk; eapply granted_entitled.
  - congruence.
Qed.

Lemma prune_one_triple cl mg desired n key x ex :
  t_compute_clusters d !! ComputeCluster_ID cl = Some cl →
  (∀ acc, acc ∈ mg → managed d (ComputeCluster_Name cl) acc) →
  complete (ComputeCluster_Name cl) desired →
  found (ComputeCluster_Name cl) ex → ex !! key = Some x →
  triple Inv (prune_one a cl mg desired n (key, x)) (λ _, Inv) Inv.
Proof.
  intros Hcl Hmg Hdes Hfound Hkey. apply Hfound in Hkey as (-> & Hacc & R & HR & Hin).
  unfold prune_one. case_decide as Hu; [by apply triple_ret|].
  case_decide as Hm; [by apply triple_ret|].
  case_decide as Hk; [by apply triple_ret|].
  assert (¬ entitled d (ComputeCluster_Name cl, Assoc_Account x, Assoc_User x, Assoc_Partition x)) as Hne.
  { intros He. by apply Hk, Hdes. }
  eapply triple_bind; [eapply triple_catch with (Q := λ _, Inv) (X := Inv)|].
  - intros w Hw. destruct (DeleteAssociation c _ w) as [r w'] eqn:Ed.
    apply (DeleteAssociation_run c) in Ed as [Ho HR']. enough (Inv w') by (by destruct r).
    apply (Inv_only a d _ w); [done..|]. destruct Hw as [_ Hs], HR' as [->|[-> _]]; [|done].
    apply swept_delete; [done|]. intros k Hmatch.
    apply key_matches_full in Hmatch as (p & -> & Hp); [|done|done|exact (Hn _ _ Hcl)].
    unfold removable. split; [done|]. split; [by apply Hmg|].
    destruct (decide (Assoc_Partition x = "")) as [Hpart|Hpart].
    + right. rewrite <-Hpart. split; [|done]. exact (swept_before _ _ HR Hin Hne).
    + left. by rewrite Hp.
  - intros r. apply triple_ret. intros w Hw. by destruct r.
Qed.

Lemma managed_triple cl :
  t_compute_clusters d !! ComputeCluster_ID cl = Some cl →
  triple Inv (managedAccounts (ComputeCluster_ID cl))
    (λ mg w, (∀ acc, acc ∈ mg → managed d (ComputeCluster_Name cl) acc) ∧ Inv w) Inv.
Proof.
  intros Hcl. unfold managedAccounts. eapply triple_bind.
  { apply (read a d _ _ (λ als, ∀ al, al ∈ als ↔ t_compute_allocations d !! ComputeAllocation_ID al = Some al ∧
        ComputeAllocation_ComputeClusterID al = ComputeCluster_ID cl)).
    - unfold ListComputeAllocationsByCluster. solve_quiet.
    - intros w als w' H Hw al. by eapply ListComputeAllocationsByCluster_value. }
  intros als. apply triple_pure. intros Hals. apply triple_ret. intros w Hw. split; [|done].
  intros acc (al & -> & [Hal Hc]%Hals)%elem_of_list_to_set%list_elem_of_fmap.
  by exists cl, al.
Qed.

Lemma prune_triple cl ex desired :
  t_compute_clusters d !! ComputeCluster_ID cl = Some cl →
  complete (ComputeCluster_Name cl) desired → found (ComputeCluster_Name cl) ex →
  triple Inv (pruneStaleAssociations a cl ex desired) (λ _, Inv) Inv.
Proof.
  intros Hcl Hdes Hfound. unfold pruneStaleAssociations.
  case_decide; [by apply triple_ret|]. case_decide; [by apply triple_ret|].
  eapply triple_bind; [eapply triple_catch, managed_triple; done|].
  intros [mg|e]; [|by apply triple_ret]. apply triple_pure. intros Hmg.
  apply fold_in. intros [key x] n Hx. eapply prune_one_triple; [done..|].
  rewrite range_assocs_perm in Hx. by apply elem_of_map_to_list in Hx.
Qed.

(** Who is entitled on a cluster has an account there, and the cluster is named once. *)
Lemma entitled_user cl acc user part :
  t_compute_clusters d !! ComputeCluster_ID cl = Some cl →
  entitled d (ComputeCluster_Name cl, acc, user, part) →
  ∃ m csu al r, active_member d m ∧ grants d m al cl csu r ∧
    mkAssocKey acc user part = keyOf (grant_record d m al cl csu r).
Proof.
  intros Hcl (m & al & cl' & csu & r & Hm & G & Hk).
  unfold record_key, wire_key, grant_record in Hk. simpl in Hk. injection Hk as Hname -> -> ->.
  assert (cl' = cl) as ->; [|by exists m, csu, al, r].
  pose proof (gr_cluster _ _ _ _ _ _ G) as Hcl'.
  assert (ComputeAllocation_ComputeClusterID al = ComputeCluster_ID cl) as Hid.
  { eapply (u_clusters_name _ Hd); [exact Hcl'|exact Hcl|..]; unfold uq_compute_clusters_name; [done|].
    by rewrite Hname. }
  rewrite Hid in Hcl'. congruence.
Qed.

Lemma reconcileCluster_triple cl :
  t_compute_clusters d !! ComputeCluster_ID cl = Some cl →
  triple Inv (reconcileCluster a cl) (λ _, Inv) Inv.
Proof.
  intros Hcl. unfold reconcileCluster. eapply triple_bind.
  { eapply triple_catch, (read a d _ _ (λ us, ∀ u, u ∈ us ↔
        t_compute_cluster_users d !! ComputeClusterUser_ID u = Some u ∧
        ComputeClusterUser_ComputeClusterID u = ComputeCluster_ID cl)).
    - unfold ListComputeClusterUsersByCluster. solve_quiet.
    - intros w us w' H Hw u. by eapply ListComputeClusterUsersByCluster_value. }
  intros [us|e]; [|by apply triple_ret]. apply triple_pure. intros Hus.
  eapply triple_bind; [eapply triple_catch, existing_triple; exact (Hn _ _ Hcl)|].
  intros ex. cbv zeta. set (ex' := match ex with Ok m => m | Err _ => ∅ end).
  eapply triple_conseq with (P' := λ w, found (ComputeCluster_Name cl) ex' ∧ Inv w);
    [|destruct ex; [done|]|by intros ? w Hw; exact Hw|by intros w Hw; exact Hw].
  2: { intros w Hw. split; [|done]. intros key x Hx. unfold ex' in Hx. by rewrite lookup_empty in Hx. }
  apply triple_pure. intros Hfound.
  eapply triple_bind; [eapply triple_catch, (fold_covers _ user_covered)|].
  { intros csu b b' Hb Hc Hp m Hm Hu. exact (covers_mono _ _ _ Hb (Hc Hp m Hm Hu)). }
  { intros csu b _. apply sweep_user_triple. }
  intros [desired|e]; [|by apply triple_ret]. apply triple_pure. intros [_ Hcov].
  eapply triple_bind; [apply prune_triple; [done| |done]|intros n; by apply triple_ret].
  intros acc user part He. apply entitled_user in He as (m & csu & al & r & Hm & G & ->); [|done].
  eapply (Hcov csu); [|apply G|exact Hm|symmetry; apply G|exact G].
  apply Hus. split; apply G.
Qed.

Lemma reconcile_triple : triple Inv (reconcile a) (λ _, Inv) Inv.
Proof.
  unfold reconcile. eapply triple_bind.
  { eapply triple_catch, (read a d _ _ (λ cs, ∀ cl, cl ∈ cs ↔
        t_compute_clusters d !! ComputeCluster_ID cl = Some cl)).
    - unfold ListComputeClusters. solve_quiet.
    - intros w cs w' H Hw cl. by eapply ListComputeClusters_value. }
  intros [cs|e]; [|by apply triple_ret]. apply triple_pure. intros Hcs.
  apply each_in. intros cl Hcl. apply reconcileCluster_triple. by apply Hcs.
Qed.
End sweep.

(** C19: whatever fails of the database and of slurmrestd, a sweep of the reconciler leaves the
    core as it was, and for each association of slurmrestd: it is as before; or it is now the
    record of an active member of an active allocation with a provisioned account, with the
    limits of that member's overrides; or it was removed, and then it was one of a user on the
    account of an allocation of that cluster to which nobody is entitled (or the user had one
    without a partition that nobody is entitled to, whose removal takes all partitions). *)
Theorem sweep_safe `{E : Env} `{SS : SlurmServer} `{SE : SlurmEnv} (a : AssociationSubscriber)
    `{!SlurmLaws (sub_slurmClient a)} (w : LWorld) :
  integrity (l_db w) → clusters_named (l_db w) →
  let w' := (reconcile a w).2 in
  l_db w' = l_db w ∧ swept (l_db w) (recs (sub_slurmClient a) w) (recs (sub_slurmClient a) w').
Proof.
  intros Hd Hn. cbv zeta.
  pose proof (reconcile_triple a (l_db w) Hd Hn (recs (sub_slurmClient a) w) w) as H.
  destruct (reconcile a w) as [r w']. simpl. enough (Inv a (l_db w) (swept (l_db w) (recs _ w)) w') as []; [done|].
  destruct r; apply H; split; [done|apply swept_refl|done|apply swept_refl].
Qed.
