(* ===== verification/SlurmEvents.v ===== *)
(** * What the handlers of events change

    A handler that grants writes only the records its membership grants; one that revokes
    removes exactly the records of its member on the allocation; and what the audit trail
    reports as done has been done. Whatever fails. *)

From stdpp Require Import base gmap sets list strings.
From Stdlib Require Import ZArith Ascii Lia.
From S2P Require Import Prelude GoError Models Schema Events IdentityCache Effects EffectsLogic.
From S2P Require Import StoreIdentity StoreCluster StoreAllocation StoreMembership StoreAuth.
From S2P Require Import UserService AuthService ProjectService AllocationService MembershipService ServiceApi.
From S2P Require Import SlurmTypes SlurmEffects SlurmMapper SlurmLogic SlurmSweep.

Set Default Goal Selector "!".

(** The row an audit event adds. *)
Lemma CreateAuditEvent_row `{Env} ctx t now id ty msg c e c' :
  CreateAuditEvent ctx (Some (mkAuditEvent "" t now id ty msg "" "" "" "")) c = (Ok e, c') →
  ∃ row, t_audit_events (w_db c) !! AuditEvent_ID row = None ∧ AuditEvent_EventType row = t ∧
    AuditEvent_EntityID row = id ∧
    t_audit_events (w_db c') = <[AuditEvent_ID row := row]> (t_audit_events (w_db c)).
Proof.
  unfold CreateAuditEvent. intros Ec. run. simpl in *.
  match goal with H : pgAuditEventStore_Create _ _ = inr _ |- _ => stmt_inv H end. simpl in *.
  match goal with H : Some _ = Some _ |- _ => injection H as <- end.
  match goal with H : or_newID ?x ?u = (Ok _, ?v) |- _ =>
    pose proof (Quiet_or_newID x u) as Q1; rewrite H in Q1; injection Q1 as Q1 _ _ _ end.
  match goal with H : or_now ?x ?u = (Ok _, ?v) |- _ =>
    pose proof (Quiet_or_now x u) as Q2; rewrite H in Q2; injection Q2 as Q2 _ _ _ end.
  simpl in Q1, Q2. rewrite Q2, Q1 in *.
  match goal with |- context [audit_row ?x] => exists (audit_row x) end. done.
Qed.

Section audit.
Context `{SS : SlurmServer}.

Definition audit_trail (w : LWorld) : gmap string AuditEvent := t_audit_events (l_db w).

(** The trail of [w'] is that of [w], or has one more event, of type [t] about [id]. *)
Definition audited (t id : string) (w w' : LWorld) : Prop :=
  audit_trail w' = audit_trail w ∨
  ∃ e, audit_trail w !! AuditEvent_ID e = None ∧ AuditEvent_EventType e = t ∧ AuditEvent_EntityID e = id ∧
    audit_trail w' = <[AuditEvent_ID e := e]> (audit_trail w).

(** An event of type [t] about [id] was added. *)
Definition reported (t id : string) (w w' : LWorld) : Prop :=
  ∃ i e, audit_trail w !! i = None ∧ audit_trail w' !! i = Some e ∧
    AuditEvent_EventType e = t ∧ AuditEvent_EntityID e = id.

Lemma reported_other t t' id w w' : t ≠ t' → audited t' id w w' → ¬ reported t id w w'.
Proof.
  intros Ht Ha (i & e & Hn & Hs & Hty & _). destruct Ha as [Ha|(e' & _ & He & _ & Ha)]; rewrite Ha in Hs.
  - congruence.
  - destruct (decide (AuditEvent_ID e' = i)) as [<-|Hi].
    + rewrite lookup_insert_eq in Hs. congruence.
    + rewrite lookup_insert_ne in Hs by done. congruence.
Qed.

Context `{E : Env} `{SE : SlurmEnv}.

Lemma recordAuditEvent_run ctx t ty id msg w r w' :
  recordAuditEvent ctx t ty id msg w = (r, w') →
  r = Ok tt ∧ l_sdb w' = l_sdb w ∧ audited t id w w'.
Proof.
  unfold recordAuditEvent, mbind, LM_bind, core, lcatch, nowUTC. simpl.
  destruct (CreateAuditEvent _ _ _) as [x c] eqn:Ec. simpl. intros [= <- <-]. split; [done|]. split; [done|].
  unfold audited, audit_trail, l_db. simpl. destruct x as [e|e].
  - right. exact (CreateAuditEvent_row _ _ _ _ _ _ _ _ _ Ec).
  - assert (Acid (CreateAuditEvent ctx (Some (mkAuditEvent "" t (clock (w_clock (l_core w))) id ty msg "" "" "" "")))
      (@CreateAuditEvent (fault_free E) ctx
         (Some (mkAuditEvent "" t (clock (w_clock (l_core w))) id ty msg "" "" "" "")))) as Ha
      by (unfold CreateAuditEvent; solve_acid).
    apply Ha in Ec as [Ec|(_ & e' & c' & Ec & Hd)].
    + left. by injection Ec as -> _ _ _.
    + right. rewrite <- Hd. exact (@CreateAuditEvent_row (fault_free E) _ _ _ _ _ _ _ _ _ Ec).
Qed.
End audit.

(** ** Names

    A filter that is left blank matches everything, so what a handler does depends on the
    names being there. *)
Record named (d : DB) : Prop := {
  named_clusters : clusters_named d;
  named_allocations : map_Forall (λ _ al, ComputeAllocation_Name al ≠ "") (t_compute_allocations d);
  named_accounts : map_Forall (λ _ u, ComputeClusterUser_LocalUsername u ≠ "") (t_compute_cluster_users d) }.

(** The allocation of [m], its cluster and the account of the member there. *)
Definition resolves (d : DB) (m : ComputeAllocationMembership) (al : ComputeAllocation) (cl : ComputeCluster)
    (csu : ComputeClusterUser) : Prop :=
  t_compute_allocations d !! Membership_ComputeAllocationID m = Some al ∧
  t_compute_clusters d !! ComputeAllocation_ComputeClusterID al = Some cl ∧
  t_compute_cluster_users d !! ComputeClusterUser_ID csu = Some csu ∧
  ComputeClusterUser_ComputeClusterID csu = ComputeCluster_ID cl ∧
  ComputeClusterUser_UserID csu = Membership_UserID m.

Definition belongs (cl acc user : string) (k : RecordKey) : Prop :=
  let '(kc, ka, ku, _) := k in kc = cl ∧ ka = acc ∧ ku = user.
#[export] Instance belongs_dec cl acc user k : Decision (belongs cl acc user k).
Proof. destruct k as [[[? ?] ?] ?]. apply _. Defined.

(** The records without those of a user on an account. *)
Definition without (cl acc user : string) (R : gmap RecordKey assocWire) : gmap RecordKey assocWire :=
  filter (λ kw, ¬ belongs cl acc user kw.1) R.

Lemma without_filter cl acc user R :
  cl ≠ "" → acc ≠ "" → user ≠ "" →
  filter (λ kw, ¬ key_matches (mkAssocFilter acc user cl "") kw.1) R = without cl acc user R.
Proof.
  intros Hc Ha Hu. apply map_filter_ext. intros [[[kc ka] ku] kp] x _.
  unfold key_matches, param_matches, belongs. simpl. naive_solver.
Qed.

Section handlers.
Context `{E : Env} `{SS : SlurmServer} `{SE : SlurmEnv} (a : AssociationSubscriber).
Abbreviation c := (sub_slurmClient a).
Context `{!SlurmLaws c}.
Implicit Types (m : ComputeAllocationMembership) (w : LWorld).

(** [or_audit], run: the call, then what follows, or an event of failure. *)
Lemma or_audit_run {A} ctx t ty id msg (m : LM A) (k : A → LM unit) w :
  match m w with
  | (Ok x, w1) => or_audit ctx t ty id msg m k w = k x w1
  | (Err e, w1) => or_audit ctx t ty id msg m k w = recordAuditEvent ctx t ty id (msg +:+ Error e) w1
  end.
Proof. unfold or_audit, mbind, LM_bind, lcatch. by destruct (m w) as [[x|e] w1]. Qed.

Lemma StartSpan_run ctx w :
  ∃ ctx', StartSpan ctx w = (Ok ctx', bump_lspans w).
Proof. unfold StartSpan. eexists. reflexivity. Qed.

(** ** Revocation *)

Definition revoked m w w' : Prop :=
  ∃ al cl csu, resolves (l_db w) m al cl csu ∧
    recs c w' = without (ComputeCluster_Name cl) (ComputeAllocation_Name al)
                  (ComputeClusterUser_LocalUsername csu) (recs c w).

Lemma removal_triple m (w0 : LWorld) :
  integrity (l_db w0) → named (l_db w0) →
  triple (λ w, l_db w = l_db w0 ∧ recs c w = recs c w0) (removeAssociationsForMembership a m)
    (λ _ w, l_db w = l_db w0 ∧ revoked m w0 w)
    (λ w, l_db w = l_db w0 ∧ (recs c w = recs c w0 ∨ revoked m w0 w)).
Proof.
  intros Hd Hnm. set (I := λ w, l_db w = l_db w0 ∧ recs c w = recs c w0).
  set (X := λ w, l_db w = l_db w0 ∧ (recs c w = recs c w0 ∨ revoked m w0 w)).
  assert (∀ A (q : M A) Q, Quiet q → (∀ x y z, q x = (Ok y, z) → w_db x = l_db w0 → Q y) →
    triple I (core q) (λ y w, Q y ∧ I w) X) as Hread.
  { intros A q Q Hq HQ. eapply triple_conseq; [apply (triple_core q (l_db w0) I Q); [done..| |by intros w []]|..].
    - intros w x [Hw HR] Hx. split; [|done]. unfold l_db in *. simpl. by rewrite Hx.
    - done.
    - done.
    - intros w [? ?]. split; [done|]. by left. }
  unfold removeAssociationsForMembership. eapply triple_bind.
  { apply triple_wrapf, Hread; [unfold GetComputeAllocation; solve_quiet|].
    intros x y z H Hx. by eapply GetComputeAllocation_value. }
  intros al. apply triple_pure. intros Hal. eapply triple_bind.
  { apply triple_wrapf, Hread; [unfold GetComputeCluster; solve_quiet|].
    intros x y z H Hx. by eapply GetComputeCluster_value. }
  intros cl. apply triple_pure. intros Hcl. eapply triple_bind.
  { apply triple_wrapf, Hread; [unfold GetComputeClusterUserByPair; solve_quiet|].
    intros x y z H Hx. by eapply (GetComputeClusterUserByPair_value _ Hd). }
  intros csu. apply triple_pure. intros (Hcsu & Hcc & Hcu). apply triple_wrapf.
  intros w [Hw HR]. destruct (DeleteAssociation c _ w) as [r w'] eqn:Ed.
  apply (DeleteAssociation_run c) in Ed as [Ho HR'].
  assert (l_db w' = l_db w0) as Hw' by (unfold l_db in *; by rewrite (proj1 Ho)).
  destruct HR' as [HR'|[HR' [e ->]]].
  - assert (revoked m w0 w') as Hrev.
    { exists al, cl, csu. split; [done|]. rewrite HR', HR. apply without_filter.
      - by eapply named_clusters.
      - by eapply named_allocations.
      - by eapply named_accounts. }
    destruct r; [done|]. split; [done|]. by right.
  - split; [done|]. left. by rewrite HR'.
Qed.

(** A handler that revokes, given the event types it reports. *)
Lemma revoking_run ctx m failed done_ msg msg' w :
  integrity (l_db w) → named (l_db w) →
  let t := "ComputeAllocationMembershipDeprovisioned" in
  failed ≠ t →
  let w' := (or_audit ctx failed "compute_allocation_membership" (Membership_ID m) msg
    (removeAssociationsForMembership a m) (λ _, recordAuditEvent ctx done_ "compute_allocation_membership"
       (Membership_ID m) msg') w).2 in
  (recs c w' = recs c w ∨ revoked m w w') ∧ (reported t (Membership_ID m) w w' → revoked m w w').
Proof.
  intros Hd Hnm t Ht w'. pose proof (removal_triple m w Hd Hnm w (conj eq_refl eq_refl)) as H.
  pose proof (or_audit_run ctx failed "compute_allocation_membership" (Membership_ID m) msg
    (removeAssociationsForMembership a m) (λ _, recordAuditEvent ctx done_ "compute_allocation_membership"
       (Membership_ID m) msg') w) as Hr.
  destruct (removeAssociationsForMembership a m w) as [[u|e] w1]; destruct H as [Hdb H].
  - assert (revoked m w w') as Hrev; [|by split; [right|]].
    destruct H as (al & cl & csu & Hres & HR). exists al, cl, csu. split; [done|].
    unfold w'. rewrite Hr. destruct (recordAuditEvent _ _ _ _ _ w1) as [r w2] eqn:Ea.
    apply recordAuditEvent_run in Ea as (_ & Hs & _). unfold recs in *. simpl. by rewrite Hs.
  - destruct (recordAuditEvent ctx failed _ _ (msg +:+ Error e) w1) as [r w2] eqn:Ea.
    assert (w' = w2) as -> by (unfold w'; by rewrite Hr).
    apply recordAuditEvent_run in Ea as (_ & Hs & Haud).
    assert (audited failed (Membership_ID m) w w2) as Haud'.
    { unfold audited, audit_trail in *. by rewrite Hdb in Haud. }
    split.
    + destruct H as [H|(al & cl & csu & Hres & H)]; [left|right; exists al, cl, csu; split; [done|]];
        unfold recs in *; by rewrite Hs.
    + intros Hrep. by destruct (reported_other t failed (Membership_ID m) w w2 (not_eq_sym Ht) Haud').
Qed.

(** ** Grants *)

(** Only records that [m] grants were written. *)
Definition written (d : DB) m (R R' : gmap RecordKey assocWire) : Prop :=
  ∀ k, R' !! k = R !! k ∨ ∃ al cl csu r x, grants d m al cl csu r ∧
    k = record_key (grant_record d m al cl csu r) ∧ R' !! k = Some x ∧
    same_tres (MarshalJSON (grant_record d m al cl csu r)) x.

(** Everything [m] grants is there. *)
Definition provisioned (d : DB) m (R : gmap RecordKey assocWire) : Prop :=
  ∀ al cl csu r, grants d m al cl csu r → is_Some (R !! record_key (grant_record d m al cl csu r)).

Lemma written_insert (d : DB) m R R' al cl csu r x :
  written d m R R' → grants d m al cl csu r → same_tres (MarshalJSON (grant_record d m al cl csu r)) x →
  written d m R (<[record_key (grant_record d m al cl csu r) := x]> R').
Proof.
  intros HR G Ht k. destruct (decide (record_key (grant_record d m al cl csu r) = k)) as [<-|Hk].
  - right. exists al, cl, csu, r, x. by rewrite lookup_insert_eq.
  - rewrite lookup_insert_ne by done. apply HR.
Qed.

Lemma upsert_grant_triple (d : DB) m (R : gmap RecordKey assocWire) l x (Done : list Association) :
  desired_exact d m l → x ∈ l →
  triple (λ w, Inv a d (written d m R) w ∧ ∀ y, y ∈ Done → is_Some (recs c w !! record_key y))
    (UpsertAssociation c x)
    (λ _ w, Inv a d (written d m R) w ∧ ∀ y, y ∈ x :: Done → is_Some (recs c w !! record_key y))
    (Inv a d (written d m R)).
Proof.
  intros Hl Hx w [Hw HD]. destruct (UpsertAssociation c x w) as [r w'] eqn:Eu. pose proof Eu as Eu'.
  apply (UpsertAssociation_run c) in Eu' as [Ho HR].
  assert (Inv a d (written d m R) w') as Hw'.
  { apply (Inv_only a d _ w); [done..|]. destruct Hw as [_ Hs], HR as [->|(y & _ & Ht & ->)]; [done|].
    apply Hl in Hx as (al & cl & csu & r' & G & ->). by apply written_insert. }
  destruct r as [u|e]; [|done]. split; [done|].
  intros y [->|Hy]%elem_of_cons.
  - apply (UpsertAssociation_verified c) in Eu as (z & Hz & _). by exists z.
  - destruct HR as [->|(z & _ & _ & ->)]; [by apply HD|]. apply lookup_insert_is_Some'. right. by apply HD.
Qed.

Lemma upsert_all_triple (d : DB) m (R : gmap RecordKey assocWire) l :
  desired_exact d m l →
  triple (Inv a d (written d m R))
    (leach (λ x, match (∅ : gmap assocKey Association) !! keyOf x with
       | Some got => if sameLimits x got then mret tt
                     else lwrapf "upsert association for partition %s: %w" [Assoc_Partition x]
                            (UpsertAssociation c x)
       | None => lwrapf "upsert association for partition %s: %w" [Assoc_Partition x] (UpsertAssociation c x)
       end) l)
    (λ _ w, Inv a d (written d m R) w ∧ provisioned d m (recs c w)) (Inv a d (written d m R)).
Proof.
  intros Hl. set (I := Inv a d (written d m R)).
  set (J := λ rem w, I w ∧ ∃ pre, l = pre ++ rem ∧ ∀ y, y ∈ pre → is_Some (recs c w !! record_key y)).
  eapply triple_conseq with (P' := J l) (Q' := λ _, J []); [|..|by intros w Hw; exact Hw].
  - apply (triple_each J); [|by intros w Hw; exact Hw].
    intros x rem. rewrite lookup_empty. apply triple_wrapf. intros w [Hw (pre & El & HD)].
    assert (x ∈ l) as Hx by (rewrite El; set_solver).
    pose proof (upsert_grant_triple d m R l x pre Hl Hx w (conj Hw HD)) as Hu.
    destruct (UpsertAssociation c x w) as [[u|e] w']; [|done]. destruct Hu as [Hw' HD']. split; [done|].
    exists (pre ++ [x]). split; [by rewrite <-app_assoc|]. set_solver.
  - intros w Hw. split; [done|]. exists []. split; [done|]. by intros y ?%not_elem_of_nil.
  - intros u w [Hw (pre & -> & HD)]. split; [done|]. intros al cl csu r G. rewrite app_nil_r in Hl.
    apply HD. apply Hl. eauto 10.
Qed.

Lemma upsert_membership_triple (d : DB) m (R : gmap RecordKey assocWire) :
  integrity d →
  triple (Inv a d (written d m R)) (upsertAssociationsForMembership a m)
    (λ _ w, Inv a d (written d m R) w ∧ provisioned d m (recs c w)) (Inv a d (written d m R)).
Proof.
  intros Hd. unfold upsertAssociationsForMembership, syncAssociationsForMembership.
  eapply triple_bind; [by apply desired_triple|]. intros l. apply triple_pure. intros Hl.
  by apply upsert_all_triple.
Qed.

(** What a handler that grants [m] ensures, when it reports success by events of type [t]. *)
Definition granting (t id : string) m (w w' : LWorld) : Prop :=
  written (l_db w) m (recs c w) (recs c w') ∧
  (reported t id w w' → provisioned (l_db w) m (recs c w')).

Lemma granting_audit t t' id m w w1 ctx ty msg :
  Inv a (l_db w) (written (l_db w) m (recs c w)) w1 →
  (t' = t → provisioned (l_db w) m (recs c w1)) →
  granting t id m w (recordAuditEvent ctx t' ty id msg w1).2.
Proof.
  intros [Hdb HR] Hp. destruct (recordAuditEvent ctx t' ty id msg w1) as [r w2] eqn:Ea.
  apply recordAuditEvent_run in Ea as (_ & Hs & Haud). simpl.
  assert (recs c w2 = recs c w1) as Hrecs by (unfold recs; by rewrite Hs).
  unfold granting. rewrite Hrecs. split; [done|]. intros Hrep.
  destruct (decide (t' = t)) as [Ht|Ht]; [auto|].
  destruct (reported_other t t' id w w2); [done| |done].
  unfold audited, audit_trail in *. by rewrite Hdb in Haud.
Qed.

Lemma granting_quiet t id m w w1 :
  Inv a (l_db w) (written (l_db w) m (recs c w)) w1 → granting t id m w w1.
Proof.
  intros [Hdb HR]. split; [done|]. intros (i & e & Hn & Hs & _). unfold audit_trail in *.
  rewrite Hdb in Hs. congruence.
Qed.

(** A read of the core in a handler: on failure it is audited. *)
Lemma or_audit_triple {A} ctx t t' ty id msg (q : M A) (Q : A → Prop) (k : A → LM unit) m w :
  let I := Inv a (l_db w) (written (l_db w) m (recs c w)) in
  Quiet q → (∀ x y z, q x = (Ok y, z) → w_db x = l_db w → Q y) → t' ≠ t →
  (∀ y, Q y → triple I (k y) (λ _, granting t id m w) (granting t id m w)) →
  triple I (or_audit ctx t' ty id msg (core q) k) (λ _, granting t id m w) (granting t id m w).
Proof.
  intros I Hq HQ Ht Hk w1 Hw1. pose proof (read a (l_db w) _ q Q Hq HQ w1 Hw1) as Hr.
  pose proof (or_audit_run ctx t' ty id msg (core q) k w1) as Hrun.
  destruct (core q w1) as [[y|e] w2]; rewrite Hrun.
  - destruct Hr as [Hy Hw2]. by apply Hk.
  - pose proof (granting_audit t t' id m w w2 ctx ty (msg +:+ Error e) Hr) as Hg.
    destruct (recordAuditEvent _ _ _ _ _ w2) as [[u|e'] w3]; by apply Hg.
Qed.

Lemma upsert_or_audit_triple ctx t t' t'' ty id msg m w :
  integrity (l_db w) → t' ≠ t →
  let I := Inv a (l_db w) (written (l_db w) m (recs c w)) in
  triple I (upsert_or_audit a ctx t' ty id m (recordAuditEvent ctx t'' ty id msg))
    (λ _, granting t id m w) (granting t id m w) ∧
  triple I (upsert_or_audit a ctx t' ty id m (mret tt)) (λ _, granting t id m w) (granting t id m w).
Proof.
  intros Hd Ht I.
  assert (∀ k : LM unit, (∀ w1, I w1 → provisioned (l_db w) m (recs c w1) → granting t id m w (k w1).2) →
    triple I (upsert_or_audit a ctx t' ty id m k) (λ _, granting t id m w) (granting t id m w)) as Hgen.
  { intros k Hk w1 Hw1. pose proof (upsert_membership_triple (l_db w) m (recs c w) Hd w1 Hw1) as Hu.
    unfold upsert_or_audit, mbind, LM_bind, lcatch.
    destruct (upsertAssociationsForMembership a m w1) as [[u|e] w2].
    - destruct Hu as [Hw2 Hp]. specialize (Hk w2 Hw2 Hp). destruct (k w2) as [[u'|e'] w3]; exact Hk.
    - destruct (errors_Is e SNotProvisioned); [by apply granting_quiet|].
      pose proof (granting_audit t t' id m w w2 ctx ty
        ("Failed to upsert association. Error: " +:+ Error e) Hu) as Hg.
      destruct (recordAuditEvent _ _ _ _ _ w2) as [[u|e'] w3]; by apply Hg. }
  split; apply Hgen; intros w1 Hw1 Hp.
  - by apply granting_audit.
  - by apply granting_quiet.
Qed.
End handlers.

Lemma written_refl d m R : written d m R R.
Proof. intros k. by left. Qed.

Section claims.
Context `{E : Env} `{SS : SlurmServer} `{SE : SlurmEnv} (a : AssociationSubscriber).
Abbreviation c := (sub_slurmClient a).
Context `{!SlurmLaws c}.

(** C21: revocation, in tables where no cluster, no allocation and no login of an account has a
    blank name (a blank one would widen the filter of the deletion, and the update of an
    allocation does not refuse it). Whatever fails, the handlers of a deleted membership and of
    one that is not active any more leave the records of slurmrestd as they are, or remove
    exactly the records, of every partition, of that member on that allocation and cluster; and
    when the audit trail reports the membership as deprovisioned, they have been removed. *)
Theorem revocation_exact (ctx : AuditCtx) (m : ComputeAllocationMembership) (h : LM unit) (w : LWorld) :
  integrity (l_db w) → named (l_db w) →
  h = SubscribeToComputeAllocationMembershipDeletion a ctx m ∨
    (Membership_MembershipStatus m ≠ ACTIVE ∧ h = SubscribeToComputeAllocationMembershipUpdate a ctx m) →
  let w' := (h w).2 in
  (recs c w' = recs c w ∨ revoked a m w w') ∧
  (reported "ComputeAllocationMembershipDeprovisioned" (Membership_ID m) w w' → revoked a m w w').
Proof.
  intros Hd Hnm Hh. cbv zeta.
  destruct Hh as [->|[Hs ->]];
    [unfold SubscribeToComputeAllocationMembershipDeletion|unfold SubscribeToComputeAllocationMembershipUpdate];
    unfold mbind, LM_bind; destruct (StartSpan_run (WithSource ctx "slurm") w) as [ctx' ->].
  - exact (revoking_run a ctx' m "ComputeAllocationMembershipDeletionFailed" _ _ _ (bump_lspans w) Hd Hnm
      ltac:(done)).
  - rewrite decide_False by done.
    exact (revoking_run a ctx' m "ComputeAllocationMembershipUpdateFailed" _ _ _ (bump_lspans w) Hd Hnm
      ltac:(done)).
Qed.

(** Nothing is granted, so nothing is written, on an allocation that is not active. *)
Lemma written_inactive d m R R' al :
  t_compute_allocations d !! Membership_ComputeAllocationID m = Some al → ComputeAllocation_Status al ≠ ACTIVE →
  written d m R R' → R' = R.
Proof.
  intros Hal Hs HR. apply map_eq. intros k. destruct (HR k) as [?|(al' & cl & csu & r & x & G & _)]; [done|].
  destruct Hs. rewrite <-(gr_active _ _ _ _ _ _ G). pose proof (gr_allocation _ _ _ _ _ _ G). congruence.
Qed.

Lemma grants_run (ctx : AuditCtx) (m : ComputeAllocationMembership)
    (o : ComputeAllocationMembershipResourceOverride) (w : LWorld) :
  integrity (l_db w) →
  t_memberships (l_db w) !! Override_ComputeAllocationMembershipID o = Some m →
  granting a "ComputeAllocationMembershipCreationSucceeded" (Membership_ID m) m w
    (SubscribeToComputeAllocationMembershipCreation a ctx m w).2 ∧
  (Membership_MembershipStatus m = ACTIVE →
   written (l_db w) m (recs c w) (recs c (SubscribeToComputeAllocationMembershipUpdate a ctx m w).2)) ∧
  granting a "ComputeAllocationMembershipResourceOverrideCreationSucceeded" (Override_ID o) m w
    (SubscribeToComputeAllocationMembershipResourceOverrideCreation a ctx o w).2.
Proof.
  intros Hd Hm. set (w1 := bump_lspans w).
  assert (∀ (h : LM unit) t id, triple (Inv a (l_db w1) (written (l_db w1) m (recs c w1))) h
    (λ _, granting a t id m w1) (granting a t id m w1) → granting a t id m w1 (h w1).2) as Hrun.
  { intros h t id Hh. specialize (Hh w1 (conj eq_refl (written_refl _ _ _))).
    by destruct (h w1) as [[u|e] w2]. }
  split_and!.
  - unfold SubscribeToComputeAllocationMembershipCreation, mbind, LM_bind.
    destruct (StartSpan_run (WithSource ctx "slurm") w) as [ctx' ->]. apply Hrun.
    apply (or_audit_triple a _ _ _ _ _ _ _ (λ _, True));
      [unfold GetComputeAllocation; solve_quiet|done|done|]. intros al _.
    apply (or_audit_triple a _ _ _ _ _ _ _ (λ _, True));
      [unfold GetComputeCluster; solve_quiet|done|done|]. intros cl _.
    by apply upsert_or_audit_triple.
  - intros Hs. unfold SubscribeToComputeAllocationMembershipUpdate, mbind, LM_bind.
    destruct (StartSpan_run (WithSource ctx "slurm") w) as [ctx' ->]. rewrite decide_True by done.
    apply (Hrun _ "" (Membership_ID m)). by apply (upsert_or_audit_triple a ctx' "" _ "" _ _ "").
  - unfold SubscribeToComputeAllocationMembershipResourceOverrideCreation, mbind, LM_bind.
    destruct (StartSpan_run (WithSource ctx "slurm") w) as [ctx' ->]. apply Hrun.
    apply (or_audit_triple a _ _ _ _ _ _ _ (λ m', m' = m)); [unfold GetComputeAllocationMembership; solve_quiet| |done|].
    + unfold GetComputeAllocationMembership. intros x y z Hx Hw. run. simpl in *.
      change (l_db w1) with (l_db w) in Hw. unfold pgComputeAllocationMembershipStore_FindByID in Hx.
      rewrite Hw in Hx. congruence.
    + intros m' ->. by apply upsert_or_audit_triple.
Qed.

(** C22: whatever fails, the handlers of a new membership, of one that became active and of a new
    override of its limits write only records that the membership grants (its allocation is
    active, the member's account on its cluster is provisioned), with the limits of its
    overrides, and leave every other record alone; when the audit trail reports the success of
    the first or the last of them, there is a record for everything that the membership grants,
    that is for every resource of an active allocation. When the allocation is not active the
    three handlers write nothing, whatever they report. *)
Theorem grants_exact (ctx : AuditCtx) (m : ComputeAllocationMembership)
    (o : ComputeAllocationMembershipResourceOverride) (w : LWorld) :
  integrity (l_db w) →
  t_memberships (l_db w) !! Override_ComputeAllocationMembershipID o = Some m →
  granting a "ComputeAllocationMembershipCreationSucceeded" (Membership_ID m) m w
    (SubscribeToComputeAllocationMembershipCreation a ctx m w).2 ∧
  (Membership_MembershipStatus m = ACTIVE →
   written (l_db w) m (recs c w) (recs c (SubscribeToComputeAllocationMembershipUpdate a ctx m w).2)) ∧
  granting a "ComputeAllocationMembershipResourceOverrideCreationSucceeded" (Override_ID o) m w
    (SubscribeToComputeAllocationMembershipResourceOverrideCreation a ctx o w).2 ∧
  (∀ al h, t_compute_allocations (l_db w) !! Membership_ComputeAllocationID m = Some al →
     ComputeAllocation_Status al ≠ ACTIVE →
     h = SubscribeToComputeAllocationMembershipCreation a ctx m ∨
     (Membership_MembershipStatus m = ACTIVE ∧ h = SubscribeToComputeAllocationMembershipUpdate a ctx m) ∨
     h = SubscribeToComputeAllocationMembershipResourceOverrideCreation a ctx o →
     recs c (h w).2 = recs c w).
Proof.
  intros Hd Hm. destruct (grants_run ctx m o w Hd Hm) as (H1 & H2 & H3). split_and!; [done..|].
  intros al h Hal Hs Hh. apply (written_inactive (l_db w) m _ _ al Hal Hs).
  destruct Hh as [->|[[Hact ->]| ->]]; [apply H1|by apply H2|apply H3].
Qed.
End claims.
