(* ===== verification/SlurmConverge.v ===== *)
(** * A sweep that nothing disturbs

    When no call fails, one sweep of a cluster makes slurmrestd agree with the allocations:
    who is entitled has an association, and nobody else has one on a managed account, unless
    nobody is entitled to anything. *)

From stdpp Require Import base gmap sets list strings.
From Stdlib Require Import ZArith Ascii Lia.
From S2P Require Import Prelude GoError Models Schema Events IdentityCache Effects EffectsLogic.
From S2P Require Import StoreIdentity StoreCluster StoreAllocation StoreMembership.
From S2P Require Import UserService AuthService ProjectService AllocationService MembershipService ServiceApi.
From S2P Require Import Wire SignerText SlurmTypes SlurmEffects SlurmMapper SlurmFacts SlurmLogic SlurmSweep.

Set Default Goal Selector "!".

(** ** A server that answers *)

Definition creates_account (b : ReqBody) : bool :=
  match b with AccountsAssociationBody _ _ _ _ => true | _ => false end.

Class Reliable `{SS : SlurmServer} `{SE : SlurmEnv} (c : Client) : Prop := {
  rel_delivered n : delivery n = Delivered;
  rel_url u : url_error u = None;
  rel_accepts rq s : creates_account (req_body rq) = false → (resp_status (slurmrestd rq s).1 < 400)%Z;
  rel_decodes f s : is_Some (resp_associations
    (slurmrestd (client_request c "GET" (associations_path c f) NoBody) s).1) }.

Section reliable.
Context `{SS : SlurmServer} `{SE : SlurmEnv} (c : Client) `{!SlurmLaws c} `{!Reliable c}.

Lemma do_reliable method path body w :
  marshals body = true → creates_account body = false →
  let rq := client_request c method path body in
  do c method path body w =
    (Ok (slurmrestd rq (l_sdb w)).1, set_sdb (slurmrestd rq (l_sdb w)).2 (bump_calls w)).
Proof.
  intros Hb Hn. unfold do. rewrite Hb, rel_url. simpl. unfold mbind, LM_bind, send. rewrite rel_delivered.
  pose proof (rel_accepts (client_request c method path body) (l_sdb w) Hn) as Hs.
  destruct (slurmrestd _ _) as [resp s]. simpl in *. by destruct (Z.leb_spec 400 (resp_status resp)); [lia|].
Qed.

Lemma ListAssociations_reliable f w :
  ∃ l w', ListAssociations c f w = (Ok l, w') ∧ only_slurm w w' ∧ recs c w' = recs c w ∧
    listed f (recs c w) l.
Proof.
  destruct (ListAssociations c f w) as [r w'] eqn:El. pose proof El as El'.
  apply (ListAssociations_run c) in El' as (Ho & HR & Hl).
  unfold ListAssociations, mbind, LM_bind in El. rewrite do_reliable in El by done. simpl in El.
  destruct (rel_decodes f (l_sdb w)) as [ws Hws]. unfold decode in El. rewrite Hws in El. simpl in El.
  injection El as <- <-. eexists _, _. split; [done|]. auto.
Qed.

Lemma DeleteAssociation_reliable f w :
  ∃ w', DeleteAssociation c f w = (Ok tt, w') ∧ only_slurm w w' ∧
    recs c w' = filter (λ kw, ¬ key_matches f kw.1) (recs c w).
Proof.
  destruct (DeleteAssociation c f w) as [r w'] eqn:Ed. pose proof Ed as Ed'.
  apply (DeleteAssociation_run c) in Ed' as (Ho & HR).
  unfold DeleteAssociation, mbind, LM_bind in Ed. rewrite do_reliable in Ed by done.
  injection Ed as <- <-. eexists. split; [done|]. split; [done|]. destruct HR as [HR|[_ [e He]]]; done.
Qed.

(** An upsert is carried out when the account is known, whether or not it is confirmed. *)
Lemma UpsertAssociation_reliable x w :
  marshals (AssociationsBody [MarshalJSON x]) = true →
  is_Some (recs c w !! (Assoc_Cluster x, Assoc_Account x, "", "")) →
  only_slurm w (UpsertAssociation c x w).2 ∧
  upserted (MarshalJSON x) (recs c w) (recs c (UpsertAssociation c x w).2).
Proof.
  intros Hm Hacc. destruct (UpsertAssociation c x w) as [r w'] eqn:Eu. pose proof Eu as Eu'.
  apply (UpsertAssociation_run c) in Eu' as (Ho & _). split; [done|]. simpl.
  unfold UpsertAssociation, mbind, LM_bind in Eu. rewrite do_reliable in Eu by done. simpl in Eu.
  match type of Eu with match ListAssociations c ?f ?v with _ => _ end = _ =>
    destruct (ListAssociations_reliable f v) as (l & w2 & El & _ & HR & _); rewrite El in Eu; set (w1 := v) in * end.
  assert (w' = w2) as -> by (destruct l; [by injection Eu|]; repeat case_match; by injection Eu).
  rewrite HR. unfold w1, recs. simpl. pose proof (law_upsert (MarshalJSON x) (l_sdb w)) as HL.
  pose proof (rel_accepts (client_request c "POST" ("/slurmdb/v0.0." +:+ c_apiVersion c +:+ "/associations")
    (AssociationsBody [MarshalJSON x])) (l_sdb w) eq_refl) as Hs.
  destruct (slurmrestd _ _) as [resp s]. simpl in *. by apply HL.
Qed.
End reliable.

(** ** What the tables must say for a sweep of [cl] to go through *)

(** The allocation of [m] is not active, or the member has a provisioned account on its cluster. *)
Definition resolved (d : DB) (m : ComputeAllocationMembership) : Prop :=
  ∃ al, t_compute_allocations d !! Membership_ComputeAllocationID m = Some al ∧
    ComputeAllocation_ID al ≠ "" ∧ Membership_ID m ≠ "" ∧
    (ComputeAllocation_Status al = ACTIVE → ∃ cl csu,
       t_compute_clusters d !! ComputeAllocation_ComputeClusterID al = Some cl ∧ ComputeCluster_ID cl ≠ "" ∧
       t_compute_cluster_users d !! ComputeClusterUser_ID csu = Some csu ∧
       ComputeClusterUser_ComputeClusterID csu = ComputeCluster_ID cl ∧
       ComputeClusterUser_UserID csu = Membership_UserID m ∧ ComputeClusterUser_ProvisionedAt csu ≠ None).

(** [csu] is a provisioned account on [cl], and [m] an active membership of its user. *)
Definition member_on (d : DB) (cl : ComputeCluster) (csu : ComputeClusterUser)
    (m : ComputeAllocationMembership) : Prop :=
  t_compute_cluster_users d !! ComputeClusterUser_ID csu = Some csu ∧
  ComputeClusterUser_ComputeClusterID csu = ComputeCluster_ID cl ∧
  ComputeClusterUser_ProvisionedAt csu ≠ None ∧
  active_member d m ∧ Membership_UserID m = ComputeClusterUser_UserID csu.

Definition amounts_int64 (d : DB) : Prop :=
  map_Forall (λ _ o, in_int64 (Override_OverrideResourceAmount o) = true ∧
                     in_int64 (Override_OverrideResourceTime o) = true) (t_overrides d).

(** A key that the sweep of [cl] counts as desired: what is granted to the users of [cl], on
    whichever cluster, because keys do not name the cluster. *)
Definition wanted (d : DB) (cl : ComputeCluster) (key : assocKey) : Prop :=
  ∃ csu m al cl' csu' r, member_on d cl csu m ∧ grants d m al cl' csu' r ∧
    key = keyOf (grant_record d m al cl' csu' r).

Record sweepable (d : DB) (cl : ComputeCluster) (R : gmap RecordKey assocWire) : Prop := {
  sw_integrity : integrity d;
  sw_named : clusters_named d;
  sw_amounts : amounts_int64 d;
  sw_cluster : t_compute_clusters d !! ComputeCluster_ID cl = Some cl;
  sw_cluster_id : ComputeCluster_ID cl ≠ "";
  sw_user_ids csu : t_compute_cluster_users d !! ComputeClusterUser_ID csu = Some csu →
    ComputeClusterUser_UserID csu ≠ "";
  (* every active membership of the users of the cluster can be resolved *)
  sw_resolved csu m : member_on d cl csu m → resolved d m;
  (* the accounts exist *)
  sw_accounts csu m al cl' csu' r : member_on d cl csu m → grants d m al cl' csu' r →
    is_Some (R !! (ComputeCluster_Name cl', ComputeAllocation_Name al, "", ""));
  (* every association of a user is one on a partition *)
  sw_partitions acc user : user ≠ "" → R !! (ComputeCluster_Name cl, acc, user, "") = None }.

(** ** Reads that succeed *)

Section reads.
Context `{E : Env} `{!NoFaults} (d : DB) (Hd : integrity d).
Implicit Types (w : World).

Lemma GetComputeAllocation_ok id al w :
  w_db w = d → t_compute_allocations d !! id = Some al → (GetComputeAllocation id w).1 = Ok al.
Proof.
  intros <- Hal. unfold GetComputeAllocation. erewrite bind_run; [|apply wrap_run, query_run].
  unfold pgComputeAllocationStore_FindByID. by rewrite Hal.
Qed.
Lemma GetComputeCluster_ok id cl w :
  w_db w = d → t_compute_clusters d !! id = Some cl → (GetComputeCluster id w).1 = Ok cl.
Proof.
  intros <- Hcl. unfold GetComputeCluster. erewrite bind_run; [|apply wrap_run, query_run].
  unfold pgComputeClusterStore_FindByID. by rewrite Hcl.
Qed.
Lemma GetComputeClusterUserByPair_ok csu w :
  w_db w = d → t_compute_cluster_users d !! ComputeClusterUser_ID csu = Some csu →
  ComputeClusterUser_ComputeClusterID csu ≠ "" → ComputeClusterUser_UserID csu ≠ "" →
  (GetComputeClusterUserByPair (ComputeClusterUser_ComputeClusterID csu) (ComputeClusterUser_UserID csu) w).1 = Ok csu.
Proof.
  intros Hw Hu Hc Hn. unfold GetComputeClusterUserByPair.
  erewrite bind_run; [|by apply fail_if_run]. erewrite bind_run; [|by apply fail_if_run].
  erewrite bind_run; [|apply wrap_run, query_run]. rewrite Hw.
  unfold pgComputeClusterUserStore_FindByPair.
  erewrite (select_one_unique _ _ _ csu); [done|exact Hu|done|].
  intros k' r' Hk' [H1 H2]. assert (k' = ComputeClusterUser_ID csu) as ->; [|congruence].
  eapply (u_cluster_users_pair _ Hd); [exact Hk'|exact Hu|..]; unfold uq_compute_cluster_users_pair; [done|].
  by rewrite H1, H2.
Qed.
(** A list whose argument is given. *)
Lemma list_ok {A} (x : string) (msg fmt : string) (q : DB → A) w :
  x ≠ "" → ((_ ← fail_if (x = "") (Errorf msg [] ErrInvalidInput); wrap fmt (query q)) w).1 = Ok (q (w_db w)).
Proof.
  intros Hx. erewrite bind_run; [|by apply fail_if_run]. by rewrite (wrap_run fmt [] _ _ _ _ (query_run q w)).
Qed.
End reads.

(** ** Limits can be sent *)

Lemma overrideByResource_elem os k o : overrideByResource os !! k = Some o → o ∈ os.
Proof.
  unfold overrideByResource.
  assert (∀ m : gmap string ComputeAllocationMembershipResourceOverride,
    foldl (λ m o, <[Override_ComputeAllocationResourceID o := o]> m) m os !! k = Some o →
    m !! k = Some o ∨ o ∈ os) as Hgen.
  { induction os as [|x os IH]; intros m; simpl; [by left|]. intros [H|H]%IH; [|right; set_solver].
    destruct (decide (Override_ComputeAllocationResourceID x = k)) as [<-|Hk].
    - rewrite lookup_insert_eq in H. injection H as ->. right. set_solver.
    - rewrite lookup_insert_ne in H by done. by left. }
  intros [H|H]%Hgen; [by rewrite lookup_empty in H|done].
Qed.

Lemma tresFor_finite t n : in_int64 n = true → finite (TRES_Count (tresFor t n)) = true.
Proof. intros Hn. unfold tresFor. destruct (cut _ t) as [[]|]; simpl; by apply float_of_int_finite. Qed.

Lemma limits_marshal x r o :
  in_int64 (Override_OverrideResourceAmount o) = true → in_int64 (Override_OverrideResourceTime o) = true →
  Assoc_Limits x = limitsFor r o → marshals (AssociationsBody [MarshalJSON x]) = true.
Proof.
  intros H1 H2 Hx. unfold marshals, wire_tres. simpl. rewrite Hx. unfold marshal_jobs, marshal_tres, limitsFor. simpl.
  destruct (0 <? Override_OverrideResourceAmount o)%Z, (0 <? Override_OverrideResourceTime o)%Z; simpl;
    rewrite ?tresFor_finite by done; done.
Qed.

Lemma grant_marshals d m al cl csu r :
  amounts_int64 d → marshals (AssociationsBody [MarshalJSON (grant_record d m al cl csu r)]) = true.
Proof.
  intros Hd. unfold grant_record, association_for.
  set (o := default zero_override _). apply (limits_marshal _ r o); [..|done]; unfold o;
    (destruct (overrideByResource _ !! _) as [o'|] eqn:Eo; [|done]); simpl;
    apply overrideByResource_elem in Eo;
    unfold pgComputeAllocationMembershipResourceOverrideStore_FindByMembership in Eo;
    rewrite elem_of_order_by, elem_of_select_rows in Eo; destruct Eo as (_ & k & Hk); by apply (Hd k o').
Qed.

(** ** The writes of a sweep *)

Section converge.
Context `{E : Env} `{!NoFaults} `{SS : SlurmServer} `{SE : SlurmEnv} (a : AssociationSubscriber).
Abbreviation c := (sub_slurmClient a).
Context `{!SlurmLaws c} `{!Reliable c} (d : DB) (cl : ComputeCluster) (R : gmap RecordKey assocWire)
  (Hsw : sweepable d cl R).
Implicit Types (w : LWorld) (m : ComputeAllocationMembership) (csu : ComputeClusterUser).

(** The record of [k] is one that the sweep writes. *)
Definition writes (k : RecordKey) : Prop :=
  ∃ csu m al cl' csu' r, member_on d cl csu m ∧ grants d m al cl' csu' r ∧
    k = record_key (grant_record d m al cl' csu' r).

(** While the sweep writes: nothing of [R] is lost, and only what it writes is new. *)
Definition during (R' : gmap RecordKey assocWire) : Prop :=
  (∀ k, is_Some (R !! k) → is_Some (R' !! k)) ∧ (∀ k, is_Some (R' !! k) → is_Some (R !! k) ∨ writes k).
Abbreviation W := (Inv a d during).

Definition grows w w' : Prop := ∀ k, is_Some (recs c w !! k) → is_Some (recs c w' !! k).

(** [m] succeeds, keeps what is there, and ends with [Q]. *)
Definition ok {A} (P : LWorld → Prop) (m : LM A) (Q : A → LWorld → Prop) : Prop :=
  ∀ w, W w → P w → ∃ x w', m w = (Ok x, w') ∧ W w' ∧ grows w w' ∧ Q x w'.

Lemma ok_ret {A} P (x : A) (Q : A → LWorld → Prop) : (∀ w, P w → Q x w) → ok P (mret x) Q.
Proof. intros HQ w Hw HP. exists x, w. split; [done|]. split; [done|]. split; [by intros k|auto]. Qed.
Lemma ok_bind {A B} P (q : LM A) (k : A → LM B) (Q : A → LWorld → Prop) (Q' : B → LWorld → Prop) :
  ok P q Q → (∀ x, ok (Q x) (k x) Q') → ok P (q ≫= k) Q'.
Proof.
  intros Hq Hk w Hw HP. destruct (Hq w Hw HP) as (x & w1 & E1 & Hw1 & G1 & HQ).
  destruct (Hk x w1 Hw1 HQ) as (y & w2 & E2 & Hw2 & G2 & HQ').
  exists y, w2. unfold mbind, LM_bind. rewrite E1. split; [done|]. split; [done|]. split; [|done].
  intros k' Hk'. by apply G2, G1.
Qed.
Lemma ok_weaken {A} P P' (q : LM A) (Q Q' : A → LWorld → Prop) :
  ok P q Q → (∀ w, P' w → P w) → (∀ x w, Q x w → Q' x w) → ok P' q Q'.
Proof.
  intros Hq HP HQ w Hw HP'. destruct (Hq w Hw (HP w HP')) as (x & w1 & E1 & Hw1 & G1 & HQ1).
  exists x, w1. auto.
Qed.
(** What stays true while records are added. *)
Lemma ok_frame {A} P (F : LWorld → Prop) (q : LM A) (Q : A → LWorld → Prop) :
  (∀ w w', grows w w' → F w → F w') → ok P q Q → ok (λ w, P w ∧ F w) q (λ x w, Q x w ∧ F w).
Proof.
  intros HF Hq w Hw [HP Hf]. destruct (Hq w Hw HP) as (x & w1 & E1 & Hw1 & G1 & HQ).
  exists x, w1. eauto 10.
Qed.
Lemma ok_pure {A} P (φ : Prop) (q : LM A) (Q : A → LWorld → Prop) :
  (φ → ok P q Q) → ok (λ w, φ ∧ P w) q Q.
Proof. intros Hq w Hw [Hφ HP]. by apply Hq. Qed.
Lemma ok_core {A} (q : M A) (Q : A → Prop) :
  Quiet q → (∀ x, w_db x = d → ∃ y, (q x).1 = Ok y ∧ Q y) → ok (λ _, True) (core q) (λ y _, Q y).
Proof.
  intros Hq HQ w [Hw HR] _. specialize (Hq (l_core w)). unfold core.
  destruct (HQ (l_core w) Hw) as (y & Ey & HQy). destruct (q (l_core w)) as [r x]. simpl in Ey. subst r.
  injection Hq as Hdb _ _ _. exists y, (set_lcore x w). split; [done|].
  split; [|by split; [intros k|]]. split; [|done]. unfold l_db in *. simpl. by rewrite Hdb.
Qed.
Lemma ok_each {A} (f : A → LM unit) (C : A → LWorld → Prop) (l : list A) :
  (∀ x w w', grows w w' → C x w → C x w') →
  (∀ x, x ∈ l → ok (λ _, True) (f x) (λ _, C x)) →
  ok (λ _, True) (leach f l) (λ _ w, ∀ x, x ∈ l → C x w).
Proof.
  intros HC. induction l as [|x l IH]; intros Hf; simpl.
  { apply ok_ret. by intros w _ x ?%not_elem_of_nil. }
  eapply ok_bind; [apply Hf; set_solver|]. intros u. eapply ok_weaken.
  - apply (ok_frame (λ _, True) (C x)); [exact (HC x)|]. apply IH. intros y Hy. apply Hf. set_solver.
  - done.
  - intros ? w [Hl Hx] y [->|Hy]%elem_of_cons; auto.
Qed.
Lemma ok_fold {A} (f : gset assocKey → A → LM (gset assocKey)) (C : A → gset assocKey → LWorld → Prop)
    (l : list A) (b : gset assocKey) :
  (∀ x b b' w w', b ⊆ b' → grows w w' → C x b w → C x b' w') →
  (∀ x b, x ∈ l → ok (λ _, True) (f b x)
     (λ b' w, b ⊆ b' ∧ (∀ key, key ∈ b' → key ∈ b ∨ wanted d cl key) ∧ C x b' w)) →
  ok (λ _, True) (lfold f b l)
    (λ b' w, b ⊆ b' ∧ (∀ key, key ∈ b' → key ∈ b ∨ wanted d cl key) ∧ ∀ x, x ∈ l → C x b' w).
Proof.
  intros HC. revert b. induction l as [|x l IH]; intros b Hf; simpl.
  { apply ok_ret. intros w _. split; [done|]. split; [by left|]. by intros x ?%not_elem_of_nil. }
  eapply ok_bind; [apply Hf; set_solver|]. intros b1.
  eapply ok_weaken with (P := λ w, (b ⊆ b1 ∧ (∀ key, key ∈ b1 → key ∈ b ∨ wanted d cl key)) ∧ True ∧ C x b1 w);
    [|tauto|by intros ? w Hw; exact Hw].
  apply ok_pure. intros [Hb1 Hw1]. eapply ok_weaken.
  - apply (ok_frame (λ _, True) (C x b1)); [by intros w w' Hg; apply HC|]. apply IH. intros y b2 Hy. apply Hf. set_solver.
  - done.
  - intros b2 w [(Hb2 & Hw2 & Hl) Hx]. split; [by etrans|]. split.
    + intros key Hk. destruct (Hw2 key Hk); auto.
    + intros y [->|Hy]%elem_of_cons; [|auto]. eapply HC; [exact Hb2|by intros k|exact Hx].
Qed.

(** The key of a record on [cl]. *)
Definition on_cluster (key : assocKey) : RecordKey :=
  (ComputeCluster_Name cl, key_account key, key_user key, key_partition key).

(** What was read at the start: one association per record of the cluster. *)
Definition read_back (ex : gmap assocKey Association) : Prop :=
  (∀ key x, ex !! key = Some x → key = keyOf x) ∧
  (∀ key, is_Some (ex !! key) ↔ is_Some (R !! on_cluster key)).

Lemma sweep_record_ok csu m l x ex :
  member_on d cl csu m → desired_exact d m l → x ∈ l → read_back ex →
  ok (λ _, True) (sweep_record a ex x)
    (λ _ w, Assoc_Cluster x = ComputeCluster_Name cl → is_Some (recs c w !! record_key x)).
Proof.
  intros Hm Hl Hx [_ Hex] w Hw _. pose proof Hx as (al & cl' & csu' & r & G & Ex)%Hl.
  assert (∃ w', (_ ← lcatch (UpsertAssociation c x); mret tt) w = (Ok tt, w') ∧ W w' ∧ grows w w' ∧
    (Assoc_Cluster x = ComputeCluster_Name cl → is_Some (recs c w' !! record_key x))) as Hwrite.
  { destruct (UpsertAssociation_reliable c x w) as (Ho & y & Hy & _ & HR).
    - rewrite Ex. apply grant_marshals, (sw_amounts _ _ _ Hsw).
    - apply Hw. rewrite Ex. by eapply (sw_accounts _ _ _ Hsw).
    - unfold mbind, LM_bind, lcatch. destruct (UpsertAssociation c x w) as [u w'] eqn:Eu. simpl in Ho, HR.
      exists w'. split; [done|]. fold (record_key x) in HR.
      split; [|split].
      + apply (Inv_only a d during w); [done..|]. rewrite HR. destruct Hw as (_ & D1 & D2). split.
        * intros k Hk. apply lookup_insert_is_Some'. right. auto.
        * intros k [<-|Hk]%lookup_insert_is_Some'; [|auto]. right. rewrite Ex. by exists csu, m, al, cl', csu', r.
      + intros k Hk. rewrite HR. apply lookup_insert_is_Some'. by right.
      + intros _. rewrite HR, lookup_insert_eq. eauto. }
  unfold sweep_record. destruct Hwrite as (w' & Hrun & Hw' & Hg & HQ).
  destruct (ex !! keyOf x) as [got|] eqn:Eg; [|exists tt, w'; by rewrite Hrun].
  destruct (sameLimits x got); [|exists tt, w'; by rewrite Hrun].
  exists tt, w. split; [done|]. split; [done|]. split; [by intros k|]. intros Hcl.
  assert (record_key x = on_cluster (keyOf x)) as -> by (unfold record_key, wire_key; simpl; by rewrite Hcl).
  apply (proj1 (proj2 Hw)), Hex. by rewrite Eg.
Qed.

(** [desiredAssociationsForMembership] on a membership that can be resolved. *)
Lemma desired_ok csu m :
  member_on d cl csu m → ok (λ _, True) (desiredAssociationsForMembership m) (λ l _, desired_exact d m l).
Proof.
  intros Hm w Hw _. pose proof (sw_integrity _ _ _ Hsw) as Hd.
  destruct (sw_resolved _ _ _ Hsw _ _ Hm) as (al & Hal & Hid & Hmid & Hact).
  assert (∃ l w', desiredAssociationsForMembership m w = (Ok l, w') ∧ W w' ∧ grows w w') as
    (l & w' & El & Hw' & Hg).
  2: { exists l, w'. split; [done|]. split; [done|]. split; [done|].
       pose proof (desired_triple a d Hd during m w Hw) as Ht. rewrite El in Ht. apply Ht. }
  enough (ok (λ _, True) (desiredAssociationsForMembership m) (λ _ _, True)) as Hok.
  { destruct (Hok w Hw I) as (l & w' & ? & ? & ? & _). eauto 10. }
  assert (∀ A (q : M A) (Q : A → Prop) fmt, Quiet q → (∀ x, w_db x = d → ∃ y, (q x).1 = Ok y ∧ Q y) →
    ok (λ _, True) (lwrap fmt (core q)) (λ y _, Q y)) as Hwrap.
  { intros A q Q fmt Hq HQ v Hv Hp. destruct (ok_core q Q Hq HQ v Hv Hp) as (y & v' & Ev & ?).
    exists y, v'. unfold lwrapf. by rewrite Ev. }
  unfold desiredAssociationsForMembership. eapply ok_bind.
  { apply (Hwrap _ _ (λ y, y = al)); [unfold GetComputeAllocation; solve_quiet|].
    intros x Hx. exists al. split; [by apply (GetComputeAllocation_ok d)|done]. }
  intros al'. eapply ok_weaken with (P := λ _, al' = al ∧ True) (Q := λ _ _, True); [|by intros v Hv; split|done].
  apply ok_pure. intros ->. destruct (activeAllocation al) eqn:Ea; simpl; [|by apply ok_ret].
  apply bool_decide_eq_true in Ea. destruct (Hact Ea) as (cl' & csu' & Hcl' & Hclid & Hcsu & Hcc & Hcu & Hp).
  eapply ok_bind.
  { apply (Hwrap _ _ (λ y, y = cl')); [unfold GetComputeCluster; solve_quiet|].
    intros x Hx. exists cl'. split; [by apply (GetComputeCluster_ok d)|done]. }
  intros cl''. eapply ok_weaken with (P := λ _, cl'' = cl' ∧ True) (Q := λ _ _, True); [|by intros v Hv; split|done].
  apply ok_pure. intros ->. eapply ok_bind.
  { apply (Hwrap _ _ (λ y, y = csu')); [unfold GetComputeClusterUserByPair; solve_quiet|].
    intros x Hx. exists csu'. split; [|done]. rewrite <-Hcc, <-Hcu.
    apply (GetComputeClusterUserByPair_ok d Hd); [done..|by rewrite Hcc|by apply (sw_user_ids _ _ _ Hsw)]. }
  intros csu''. eapply ok_weaken with (P := λ _, csu'' = csu' ∧ True) (Q := λ _ _, True); [|by intros v Hv; split|done].
  apply ok_pure. intros ->. rewrite decide_False by done. eapply ok_bind.
  { apply (Hwrap _ _ (λ _, True)); [unfold ListResourcesForAllocation; solve_quiet|].
    intros x Hx. eexists. split; [by apply list_ok|done]. }
  intros [|r0 rs]; [by apply ok_ret|]. eapply ok_bind.
  { apply (Hwrap _ _ (λ _, True)); [unfold ListOverridesForMembership; solve_quiet|].
    intros x Hx. eexists. split; [by apply list_ok|done]. }
  intros os. by apply ok_ret.
Qed.

(** The account has been provisioned long enough at every instant of the run. *)
Definition settled csu : Prop :=
  ∃ t, ComputeClusterUser_ProvisionedAt csu = Some t ∧
    let grace := if (sub_provisionGrace a <=? 0)%Z then DefaultProvisionGrace else sub_provisionGrace a in
    ∀ n, (grace <= (clock n - t) * nanosecond_per_microsecond)%Z.

Lemma ready_ok csu : ok (λ _, True) (readyForAssociation a csu) (λ b _, settled csu → b = true).
Proof.
  unfold readyForAssociation. destruct (ComputeClusterUser_ProvisionedAt csu) as [t|] eqn:Et.
  2: { apply ok_ret. intros w _ (t & Ht & _). congruence. }
  eapply ok_bind.
  - apply (ok_core nowUTC (λ now, ∃ n, now = clock n)); [apply Quiet_nowUTC|].
    intros x Hx. unfold nowUTC. simpl. eauto.
  - intros now. apply ok_ret. intros w [n ->] (t' & Ht' & Hs). assert (t' = t) as -> by congruence.
    by apply Z.leb_le.
Qed.

(** What [m] grants on [cl] is there. *)
Definition present m w : Prop :=
  ∀ al csu' r, grants d m al cl csu' r → is_Some (recs c w !! record_key (grant_record d m al cl csu' r)).

Lemma present_grows m w w' : grows w w' → present m w → present m w'.
Proof. intros Hg Hp al csu' r G. by apply Hg, Hp. Qed.

Lemma covers_up m (b b' : gset assocKey) : b ⊆ b' → covers d m b → covers d m b'.
Proof. intros Hb Hc al cl' csu' r G. by apply Hb, Hc. Qed.

Lemma sweep_membership_ok ex csu b m :
  read_back ex →
  (Membership_MembershipStatus m = ACTIVE → member_on d cl csu m) →
  ok (λ _, True) (sweep_membership a ex csu b m)
    (λ b' w, b ⊆ b' ∧ (∀ key, key ∈ b' → key ∈ b ∨ wanted d cl key) ∧
       (Membership_MembershipStatus m = ACTIVE → covers d m b' ∧ (settled csu → present m w))).
Proof.
  intros Hex Hm. unfold sweep_membership. case_decide as Hs.
  { apply ok_ret. intros w _. split; [done|]. split; [by left|]. by intros ?. }
  specialize (Hm Hs). eapply ok_bind; [by apply (desired_ok csu)|]. intros l.
  eapply ok_weaken with (P := λ _, desired_exact d m l ∧ True); [|by intros v Hv; split|by intros ? w Hw; exact Hw].
  apply ok_pure. intros Hl. cbv zeta. set (b' := b ∪ list_to_set (keyOf <$> l)).
  assert (b ⊆ b' ∧ (∀ key, key ∈ b' → key ∈ b ∨ wanted d cl key) ∧ covers d m b') as (Hb1 & Hb2 & Hb3).
  { split; [set_solver|]. split.
    - intros key [?|Hk]%elem_of_union; [by left|]. right.
      apply elem_of_list_to_set, list_elem_of_fmap in Hk as (x & -> & (al & cl' & csu' & r & G & ->)%Hl).
      by exists csu, m, al, cl', csu', r.
    - intros al cl' csu' r G. apply elem_of_union. right.
      apply elem_of_list_to_set, list_elem_of_fmap. eexists. split; [done|]. apply Hl. eauto 10. }
  eapply ok_bind; [apply ready_ok|]. intros [|]; simpl.
  2: { apply ok_ret. intros w Hr. split; [done|]. split; [done|]. intros _. split; [done|]. by intros ?%Hr. }
  eapply ok_bind.
  { eapply ok_weaken; [apply (ok_each _ (λ x w, Assoc_Cluster x = ComputeCluster_Name cl →
      is_Some (recs c w !! record_key x)))|done|by intros ? w Hw; exact Hw].
    - intros x w w' Hg Hx Hcl. by apply Hg, Hx.
    - intros x Hx. by apply (sweep_record_ok csu m l). }
  intros u. apply ok_ret. intros w Hw. split; [done|]. split; [done|]. intros _. split; [done|].
  intros _ al csu' r G. apply Hw; [|done]. apply Hl. eauto 10.
Qed.

Lemma sweep_user_ok ex b csu :
  read_back ex →
  t_compute_cluster_users d !! ComputeClusterUser_ID csu = Some csu →
  ComputeClusterUser_ComputeClusterID csu = ComputeCluster_ID cl →
  ok (λ _, True) (sweep_user a ex b csu)
    (λ b' w, b ⊆ b' ∧ (∀ key, key ∈ b' → key ∈ b ∨ wanted d cl key) ∧
       ∀ m, member_on d cl csu m → covers d m b' ∧ (settled csu → present m w)).
Proof.
  intros Hex Hrow Hcc. unfold sweep_user. case_decide as Hp.
  { apply ok_ret. intros w _. split; [done|]. split; [by left|]. intros m Hm. by destruct Hm as (_ & _ & ? & _). }
  eapply ok_bind.
  { apply (ok_core _ (λ ms, ∀ m, m ∈ ms ↔ t_memberships d !! Membership_ID m = Some m ∧
      Membership_UserID m = ComputeClusterUser_UserID csu)); [unfold ListAllocationsForUser; solve_quiet|].
    intros x Hx. destruct (ListAllocationsForUser (ComputeClusterUser_UserID csu) x) as [r x'] eqn:El.
    pose proof (f_equal fst El) as Er. unfold ListAllocationsForUser in Er.
    rewrite list_ok in Er by (by apply (sw_user_ids _ _ _ Hsw)). simpl in Er. subst r.
    eexists. split; [done|]. intros m. by eapply (ListAllocationsForUser_value d (sw_integrity _ _ _ Hsw)). }
  intros ms. eapply ok_weaken with (P := λ _, (∀ m, m ∈ ms ↔ t_memberships d !! Membership_ID m = Some m ∧
    Membership_UserID m = ComputeClusterUser_UserID csu) ∧ True);
    [|by intros v Hv; split|by intros ? w Hw; exact Hw].
  apply ok_pure. intros Hms. eapply ok_weaken.
  - apply (ok_fold _ (λ m b' w, Membership_MembershipStatus m = ACTIVE →
      covers d m b' ∧ (settled csu → present m w))).
    + intros m b1 b2 w w' Hb Hg Hm Ha. destruct (Hm Ha) as [H1 H2]. split; [by eapply covers_up|].
      intros Hs. eapply present_grows; [exact Hg|auto].
    + intros m b1 [Hm Hu]%Hms. apply sweep_membership_ok; [done|]. intros Ha. done.
  - done.
  - intros b' w (Hb & Hk & Hm). split; [done|]. split; [done|]. intros m (_ & _ & _ & [Hr Ha] & Hu).
    apply Hm; [|done]. by apply Hms.
Qed.

(** ** The removals of a sweep *)

Lemma existing_ok w :
  l_db w = d → recs c w = R →
  ∃ ex w', existingAssociations a (ComputeCluster_Name cl) w = (Ok ex, w') ∧ W w' ∧ read_back ex.
Proof.
  intros Hw HR. unfold existingAssociations, mbind, LM_bind.
  destruct (ListAssociations_reliable c (mkAssocFilter "" "" (ComputeCluster_Name cl) "") w)
    as (l & w' & El & Ho & HR' & ws & -> & Hws). rewrite El. eexists _, w'. split; [done|].
  pose proof (sw_named _ _ _ Hsw _ _ (sw_cluster _ _ _ Hsw)) as Hne.
  rewrite HR in HR', Hws. split.
  { split; [unfold l_db in *; by rewrite (proj1 Ho)|]. rewrite HR'. split; [done|]. by left. }
  assert (∀ y, y ∈ ws ↔ ∃ k, R !! k = Some y ∧ wire_Cluster y = ComputeCluster_Name cl ∧ wire_key y = k) as Hy.
  { intros y. rewrite Hws, list_elem_of_fmap. setoid_rewrite list_elem_of_filter. split.
    - intros ([k y'] & -> & Hk & Hin%elem_of_map_to_list). exists k. split; [done|]. simpl in *.
      assert (wire_key y' = k) as Hkey by (rewrite <-HR in Hin; by eapply records_keyed).
      split; [|done]. rewrite <-Hkey in Hk. destruct Hk as ([?|Hk] & _); [done|]. by symmetry.
    - intros (k & Hk & Hc & Hkey). exists (k, y). split; [done|]. split; [|by apply elem_of_map_to_list].
      simpl. rewrite <-Hkey. unfold wire_key, key_matches, param_matches. simpl. rewrite Hc. auto. }
  split.
  - intros key x [Hx|[_ ->]]%by_key_Some; [by rewrite lookup_empty in Hx|done].
  - intros key. split.
    + intros [x [Hx|[Hx ->]]%by_key_Some]; [by rewrite lookup_empty in Hx|].
      apply list_elem_of_fmap in Hx as (y & -> & (k & Hk & Hc & Hkey)%Hy). exists y. rewrite <-Hk. f_equal.
      rewrite <-Hkey. unfold on_cluster, wire_key. simpl. by rewrite Hc.
    + intros [y Hk]. apply by_key_is_Some. right. apply list_elem_of_fmap.
      assert (wire_key y = on_cluster key) as Hkey by (rewrite <-HR in Hk; by eapply records_keyed).
      unfold on_cluster, wire_key in Hkey. injection Hkey as Hc Ha Hu Hp.
      exists (UnmarshalJSON y). split; [unfold keyOf; simpl; rewrite Ha, Hu, Hp; by destruct key|].
      apply list_elem_of_fmap. exists y. split; [done|]. apply Hy. exists (on_cluster key).
      split; [done|]. split; [done|]. unfold on_cluster, wire_key. by rewrite Hc, Ha, Hu, Hp.
Qed.

(** After the removals: nothing is new, what is desired stays, and what is stale among the
    keys [done] is gone. *)
Definition pruned (D : gset assocKey) (mg : gset string) (pre : list (assocKey * Association))
    (w1 w : LWorld) : Prop :=
  l_db w = d ∧ (∀ k x, recs c w !! k = Some x → recs c w1 !! k = Some x) ∧
  (∀ key, key ∈ D → recs c w !! on_cluster key = recs c w1 !! on_cluster key) ∧
  (∀ key x, (key, x) ∈ pre → key_user key ≠ "" → key_account key ∈ mg → key ∉ D →
     recs c w !! on_cluster key = None).

Lemma prune_one_ok D mg pre ex n key x w0 w1 w :
  R = recs c w0 → read_back ex → ex !! key = Some x → pruned D mg pre w1 w →
  ∃ n' w', prune_one a cl mg D n (key, x) w = (Ok n', w') ∧ pruned D mg (pre ++ [(key, x)]) w1 w'.
Proof.
  intros HR0 [Hkey Hin] Hx (Hw & P1 & P2 & P3). pose proof (Hkey _ _ Hx) as ->. unfold prune_one.
  assert (∀ n' : nat, (Assoc_User x = "" ∨ Assoc_Account x ∉ mg ∨ keyOf x ∈ D) →
    ∃ n'' w', mret (M := LM) n' w = (Ok n'', w') ∧ pruned D mg (pre ++ [(keyOf x, x)]) w1 w') as Hskip.
  { intros n' Hsk. exists n', w. split; [done|]. split; [done|]. split; [done|]. split; [done|].
    intros k y [Hy|[= -> ->]%list_elem_of_singleton]%elem_of_app Hu Hm Hk; [by eapply P3|].
    simpl in *. destruct Hsk as [?|[?|?]]; done. }
  case_decide as Hu; [auto|]. case_decide as Hm; [auto|]. case_decide as Hk; [auto|]. clear Hskip.
  assert (is_Some (R !! on_cluster (keyOf x))) as [y Hy] by (apply Hin; by rewrite Hx).
  assert (Assoc_Partition x ≠ "") as Hp.
  { intros Hp. pose proof (sw_partitions _ _ _ Hsw (Assoc_Account x) (Assoc_User x) Hu) as Hn.
    unfold on_cluster in Hy. simpl in Hy. rewrite Hp in Hy. discriminate (eq_trans (eq_sym Hn) Hy). }
  assert (Assoc_Account x ≠ "") as Hacc.
  { rewrite HR0 in Hy. pose proof (records_account _ _ _ Hy) as Ha. apply records_keyed in Hy.
    unfold wire_key, on_cluster in Hy. injection Hy as _ Ha' _ _. by rewrite Ha' in Ha. }
  pose proof (sw_named _ _ _ Hsw _ _ (sw_cluster _ _ _ Hsw)) as Hcl.
  set (f := mkAssocFilter (Assoc_Account x) (Assoc_User x) (ComputeCluster_Name cl) (Assoc_Partition x)).
  destruct (DeleteAssociation_reliable c f w) as (w' & Ed & Ho & HR').
  unfold mbind, LM_bind, lcatch. rewrite Ed. eexists _, w'. split; [done|].
  assert (∀ k, recs c w' !! k = if decide (k = on_cluster (keyOf x)) then None else recs c w !! k) as Hlook.
  { intros k. rewrite HR'. case_decide as Hkx.
    - apply map_lookup_filter_None. right. intros z _ Hc. apply Hc. rewrite Hkx. unfold f, on_cluster.
      simpl. unfold param_matches. auto.
    - destruct (recs c w !! k) as [z|] eqn:Ez; [|apply map_lookup_filter_None; by left].
      apply map_lookup_filter_Some. split; [done|]. intros Hc. apply Hkx. simpl in Hc.
      apply key_matches_full in Hc as (p & -> & Hpp); [|done..]. by rewrite Hpp. }
  split; [unfold l_db in *; by rewrite (proj1 Ho)|]. split; [|split].
  - intros k z. rewrite Hlook. case_decide; [done|auto].
  - intros key Hd. rewrite Hlook. case_decide as Hkx; [|by apply P2].
    destruct Hk. unfold on_cluster in Hkx. injection Hkx as H1 H2 H3. by destruct key; simplify_eq/=.
  - intros key z [Hz|[= -> ->]%list_elem_of_singleton]%elem_of_app Hu' Hm' Hk'; rewrite Hlook.
    + case_decide; [done|]. by eapply P3.
    + by rewrite decide_True.
Qed.

Lemma prune_all_ok D mg ex n w0 w1 :
  R = recs c w0 → read_back ex → l_db w1 = d →
  ∃ n' w', lfold (prune_one a cl mg D) n (range_assocs ex) w1 = (Ok n', w') ∧
    pruned D mg (range_assocs ex) w1 w'.
Proof.
  intros HR0 Hex Hw1.
  assert (∀ pre rem n w, range_assocs ex = pre ++ rem → pruned D mg pre w1 w →
    ∃ n' w', lfold (prune_one a cl mg D) n rem w = (Ok n', w') ∧ pruned D mg (range_assocs ex) w1 w') as Hgen.
  { intros pre rem. revert pre. induction rem as [|[key x] rem IH]; intros pre n' w Er Hp; cbn [lfold].
    - exists n', w. split; [done|]. by rewrite Er, app_nil_r.
    - assert (ex !! key = Some x) as Hx.
      { apply elem_of_map_to_list. rewrite <-range_assocs_perm, Er. set_solver. }
      destruct (prune_one_ok D mg pre ex n' key x w0 w1 w HR0 Hex Hx Hp) as (n2 & w2 & E2 & Hp2).
      unfold mbind, LM_bind. rewrite E2. apply (IH (pre ++ [(key, x)])); [by rewrite <-app_assoc|done]. }
  apply (Hgen []); [done|]. split; [done|]. split; [done|]. split; [done|]. by intros key x ?%not_elem_of_nil.
Qed.

Lemma managed_exact w :
  l_db w = d →
  ∃ mg w', managedAccounts (ComputeCluster_ID cl) w = (Ok mg, w') ∧ l_db w' = d ∧ recs c w' = recs c w ∧
    ∀ acc, managed d (ComputeCluster_Name cl) acc → acc ∈ mg.
Proof.
  intros Hw. pose proof (sw_integrity _ _ _ Hsw) as Hd. pose proof (sw_cluster _ _ _ Hsw) as Hcl.
  unfold managedAccounts, mbind, LM_bind, core.
  destruct (ListComputeAllocationsByCluster (ComputeCluster_ID cl) (l_core w)) as [r x] eqn:El.
  assert (r = Ok (pgComputeAllocationStore_FindByCluster (ComputeCluster_ID cl) d) ∧ w_db x = d) as [-> Hx].
  { unfold ListComputeAllocationsByCluster in El.
    erewrite wrap_run in El by apply query_run. injection El as <- <-.
    unfold l_db in Hw. simpl. by rewrite Hw. }
  eexists _, _. split; [done|]. split; [done|]. split; [done|].
  intros acc (cl' & al & Hcl' & Hname & Hal & Hc & <-).
  apply elem_of_list_to_set, list_elem_of_fmap. exists al. split; [done|].
  apply (ListComputeAllocationsByCluster_value d Hd _ _ _ _ _ El Hw). split; [done|].
  rewrite Hc. eapply (u_clusters_name _ Hd); [exact Hcl'|exact Hcl|..]; unfold uq_compute_clusters_name; [done|].
  by rewrite Hname.
Qed.

(** What a sweep of [cl] leaves behind. When nobody is entitled to anything the sweep removes
    nothing, on purpose. *)
Definition converged w : Prop :=
  l_db w = d ∧
  (∀ csu m al r, member_on d cl csu m → settled csu → grants d m al cl csu r →
     is_Some (recs c w !! record_key (grant_record d m al cl csu r))) ∧
  ((∃ key, wanted d cl key) →
     ∀ acc user part, user ≠ "" → managed d (ComputeCluster_Name cl) acc →
     is_Some (recs c w !! (ComputeCluster_Name cl, acc, user, part)) → wanted d cl (mkAssocKey acc user part)) ∧
  ((¬ ∃ key, wanted d cl key) → dom (recs c w) = dom R).

(** A key that the sweep writes is wanted. *)
Lemma writes_wanted key : writes (on_cluster key) → wanted d cl key.
Proof.
  intros (csu & m & al & cl' & csu' & r & Hmo & G & Hkey). exists csu, m, al, cl', csu', r. split; [done|]. split; [done|].
  unfold on_cluster, record_key, wire_key in Hkey. injection Hkey as _ H1 H2 H3. destruct key. unfold keyOf in *. simpl in *. congruence.
Qed.

(** Nothing wanted: nothing was written and nothing is removed. *)
Lemma nothing_wanted w : W w → (¬ ∃ key, wanted d cl key) → dom (recs c w) = dom R.
Proof.
  intros [_ [D1 D2]] Hn. apply set_eq. intros k. rewrite !elem_of_dom. split; [|apply D1].
  intros [?|(csu & m & al & cl' & csu' & r & ? & ? & _)]%D2; [done|]. destruct Hn. by eexists _, csu, m, al, cl', csu', r.
Qed.

Lemma prune_converges D ex w0 w1 :
  R = recs c w0 → read_back ex → W w1 →
  (∀ key, key ∈ D ↔ wanted d cl key) →
  (∀ csu m, member_on d cl csu m → settled csu → present m w1) →
  ∃ n w2, pruneStaleAssociations a cl ex D w1 = (Ok n, w2) ∧ converged w2.
Proof.
  intros HR0 Hex HW1 HD Hpres. pose proof HW1 as [Hw1 [D1 D2]].
  destruct (decide (D = ∅)) as [HDe|HDe].
  { assert (¬ ∃ key, wanted d cl key) as Hn by (intros [key Hk%HD]; set_solver).
    exists 0, w1. unfold pruneStaleAssociations. rewrite (decide_True _ _ HDe). split; [by case_decide|].
    split; [done|]. split; [|split; [by intros ?%Hn|by intros _; apply nothing_wanted]].
    intros csu m al r Hm Hs G. by eapply (Hpres csu m). }
  destruct (managed_exact w1 Hw1) as (mg & w1' & Em & Hw1' & HRm & Hmg).
  assert (∃ n w2, pruneStaleAssociations a cl ex D w1 = (Ok n, w2) ∧ pruned D mg (range_assocs ex) w1 w2)
    as (n & w2 & E2 & Hdb & P1 & P2 & P3).
  { unfold pruneStaleAssociations. case_decide as Hempty.
    { exists 0, w1. split; [done|]. split; [done|]. split; [done|]. split; [done|].
      intros key x Hx. rewrite range_assocs_perm, Hempty in Hx. by apply elem_of_map_to_list in Hx. }
    rewrite decide_False by done. unfold mbind, LM_bind, lcatch. rewrite Em.
    destruct (prune_all_ok D mg ex 0 w0 w1' HR0 Hex Hw1') as (n & w2 & E2 & HP). exists n, w2. split; [done|].
    unfold pruned in *. by rewrite HRm in HP. }
  exists n, w2. split; [done|]. split; [done|]. split_and!.
  - intros csu m al r Hm Hs G.
    assert (record_key (grant_record d m al cl csu r) = on_cluster (keyOf (grant_record d m al cl csu r))) as ->
      by done.
    rewrite P2; [|apply HD; by exists csu, m, al, cl, csu, r]. by eapply (Hpres csu m).
  - intros _ acc user part Hu Hm Hin. set (key := mkAssocKey acc user part).
    change (ComputeCluster_Name cl, acc, user, part) with (on_cluster key) in Hin.
    destruct (decide (key ∈ D)) as [Hk|Hk]; [by apply HD|].
    destruct Hin as [x Hx]. destruct (D2 (on_cluster key)) as [Hin|Hwr]; [exists x; by apply P1| |by apply writes_wanted].
    destruct Hex as [Hkx Hin']. apply Hin' in Hin as [y Hy].
    assert ((key, y) ∈ range_assocs ex) as Hr by (rewrite range_assocs_perm; by apply elem_of_map_to_list).
    discriminate (eq_trans (eq_sym (P3 key y Hr Hu (Hmg _ Hm) Hk)) Hx).
  - intros Hn. destruct (set_choose_L D HDe) as [key Hk%HD]. destruct Hn. by exists key.
Qed.

Lemma reconcileCluster_converges w :
  l_db w = d → recs c w = R → ∃ w', reconcileCluster a cl w = (Ok tt, w') ∧ converged w'.
Proof.
  intros Hw HR. pose proof (sw_integrity _ _ _ Hsw) as Hd. unfold reconcileCluster.
  assert (ok (λ _, True) (core (ListComputeClusterUsersByCluster (ComputeCluster_ID cl)))
    (λ us v, ∀ u, u ∈ us ↔ t_compute_cluster_users d !! ComputeClusterUser_ID u = Some u ∧
       ComputeClusterUser_ComputeClusterID u = ComputeCluster_ID cl)) as Hus.
  { apply (ok_core _ (λ us, ∀ u, u ∈ us ↔ t_compute_cluster_users d !! ComputeClusterUser_ID u = Some u ∧
       ComputeClusterUser_ComputeClusterID u = ComputeCluster_ID cl));
      [unfold ListComputeClusterUsersByCluster; solve_quiet|].
    intros x Hx. destruct (ListComputeClusterUsersByCluster (ComputeCluster_ID cl) x) as [r x'] eqn:El.
    pose proof (f_equal fst El) as Er. unfold ListComputeClusterUsersByCluster in Er.
    rewrite list_ok in Er by apply (sw_cluster_id _ _ _ Hsw). simpl in Er. subst r.
    eexists. split; [done|]. intros u. by eapply (ListComputeClusterUsersByCluster_value d Hd). }
  assert (W w) as HW by (split; [done|]; rewrite HR; split; [done|by left]).
  destruct (Hus w HW I) as (us & w1 & E1 & HW1 & _ & Hu).
  assert (recs c w1 = R) as HR1.
  { unfold core in E1. destruct (ListComputeClusterUsersByCluster _ _). by injection E1 as _ <-. }
  destruct (existing_ok w1 (proj1 HW1) HR1) as (ex & w2 & E2 & HW2 & Hex).
  assert (ok (λ _, True) (lfold (sweep_user a ex) ∅ us)
    (λ D v, ∅ ⊆ D ∧ (∀ key, key ∈ D → key ∈ (∅ : gset assocKey) ∨ wanted d cl key) ∧
       ∀ csu, csu ∈ us → ∀ m, member_on d cl csu m → covers d m D ∧ (settled csu → present m v))) as Hsweep.
  { apply (ok_fold _ (λ csu D v, ∀ m, member_on d cl csu m → covers d m D ∧ (settled csu → present m v))).
    - intros csu b b' v v' Hb Hg Hc m Hm. destruct (Hc m Hm) as [H1 H2]. split; [by eapply covers_up|].
      intros Hs. eapply present_grows; [exact Hg|auto].
    - intros csu b [H1 H2]%Hu. by apply sweep_user_ok. }
  destruct (Hsweep w2 HW2 I) as (D & w3 & E3 & HW3 & _ & _ & HD1 & HD2).
  assert (∀ csu m, member_on d cl csu m → covers d m D ∧ (settled csu → present m w3)) as Hall.
  { intros csu m Hm. apply (HD2 csu); [|done]. apply Hu. split; apply Hm. }
  destruct (prune_converges D ex w w3) as (n & w4 & E4 & Hc); [by symmetry|done|done|..].
  - intros key. split; [intros [?|?]%HD1; [set_solver|done]|].
    intros (csu & m & al & cl' & csu' & r & Hm & G & ->). by apply (proj1 (Hall csu m Hm)).
  - intros csu m Hm Hs. by apply (proj2 (Hall csu m Hm)).
  - exists w4. split; [|done]. unfold mbind, LM_bind, lcatch. by rewrite E1, E2, E3, E4.
Qed.
End converge.

(** C20: one sweep of a cluster brings the associations in line with the allocations, under
    these conditions: no call of the core fails; slurmrestd answers and accepts every request;
    each active membership of the cluster's users can be resolved (its allocation is not
    active, or the member has a provisioned account on the allocation's cluster); the account
    associations of what they grant exist; no user has an association without a partition;
    identifiers and cluster names are not blank and the amounts of overrides fit 64 bits. Every
    active member with a provisioned account that has passed the grace period then has the
    association of each resource of its active allocations there; and, if the sweep counts any
    association as desired, every association of a user on a managed account is one that it
    counts as desired. If it counts none, it removes none and adds none. *)
Theorem sweep_converges `{E : Env} `{!NoFaults} `{SS : SlurmServer} `{SE : SlurmEnv}
    (a : AssociationSubscriber) `{!SlurmLaws (sub_slurmClient a)} `{!Reliable (sub_slurmClient a)}
    (cl : ComputeCluster) (w : LWorld) :
  sweepable (l_db w) cl (recs (sub_slurmClient a) w) →
  (reconcileCluster a cl w).1 = Ok tt ∧ converged a (l_db w) cl (recs (sub_slurmClient a) w) (reconcileCluster a cl w).2.
Proof.
  intros Hsw. destruct (reconcileCluster_converges a (l_db w) cl _ Hsw w eq_refl eq_refl) as (w' & -> & Hc).
  done.
Qed.
