(* ===== verification/SlurmUsage.v ===== *)
(** * What the usage monitor charges

    The usage rows as a ledger, at most one charge for a job on an allocation. Without faults a
    poll posts to the ledger what the tables say the listed jobs cost, in the order of the list,
    a later record of a job replacing an earlier one; so a job that is listed again is not
    charged again. With faults, every row is still one of a listed job. The windows of the
    polls leave no gap. *)

From stdpp Require Import base gmap sets list strings pretty.
From Stdlib Require Import ZArith Ascii SpecFloat Lia.
From S2P Require Import Prelude GoError Models Schema Events IdentityCache Effects EffectsLogic.
From S2P Require Import StoreCluster StoreAllocation StoreMembership.
From S2P Require Import UserService AuthService ProjectService AllocationService MembershipService.
From S2P Require Import Wire AmieWorker SignerText SlurmTypes SlurmEffects SlurmMapper SlurmMonitor SlurmLogic SlurmSweep.

Set Default Goal Selector "!".

(** ** The ledger *)

Record Charge := mkCharge {
  charge_raw : float64;
  charge_su : float64;
  charge_user : string;
  charge_resource : string }.

(** A charge is for a job on an allocation. *)
Definition usage_key (u : ComputeAllocationUsage) : string * string :=
  (Usage_ComputeAllocationID u, Usage_JobID u).
Definition charge_of (u : ComputeAllocationUsage) : Charge :=
  mkCharge (Usage_UsedRawAmount u) (Usage_UsedSUAmount u) (Usage_UserID u) (Usage_ComputeAllocationResourceID u).

Abbreviation Usages := (gmap string ComputeAllocationUsage).
Abbreviation Ledger := (gmap (string * string) Charge).

Definition ledger (t : Usages) : Ledger :=
  list_to_map ((λ iu, (usage_key iu.2, charge_of iu.2)) <$> map_to_list t).

(** At most one row for a job on an allocation. *)
Definition usage_unique (t : Usages) : Prop :=
  ∀ i j u v, t !! i = Some u → t !! j = Some v → usage_key u = usage_key v → i = j.

Lemma ledger_lookup t k x :
  usage_unique t → ledger t !! k = Some x ↔ ∃ i u, t !! i = Some u ∧ usage_key u = k ∧ charge_of u = x.
Proof.
  intros Ht. unfold ledger. rewrite <-elem_of_list_to_map.
  - rewrite list_elem_of_fmap. split.
    + intros ([i u] & [= -> ->] & Hu%elem_of_map_to_list). eauto.
    + intros (i & u & Hu & <- & <-). exists (i, u). split; [done|]. by apply elem_of_map_to_list.
  - rewrite <-list_fmap_compose. apply NoDup_fmap_2_strong; [|apply NoDup_map_to_list].
    intros [i u] [j v] Hi%elem_of_map_to_list Hj%elem_of_map_to_list Hk. simpl in *.
    assert (i = j) as -> by eauto. congruence.
Qed.

(** The rows of other jobs. *)
Definition others (k : string * string) (t : Usages) : Usages := filter (λ iu, usage_key iu.2 ≠ k) t.

Lemma others_unique k t : usage_unique t → usage_unique (others k t).
Proof. intros Ht i j u v [Hu _]%map_lookup_filter_Some [Hv _]%map_lookup_filter_Some. by apply Ht. Qed.

Lemma ledger_others k t : usage_unique t → ledger (others k t) = delete k (ledger t).
Proof.
  intros Ht. apply map_eq. intros k'. apply option_eq. intros x.
  rewrite ledger_lookup by by apply others_unique. rewrite lookup_delete_Some, ledger_lookup by done.
  split.
  - intros (i & u & [Hu Hk]%map_lookup_filter_Some & <- & <-). simpl in Hk. split; [done|]. eauto.
  - intros (Hk & i & u & Hu & <- & <-). exists i, u. split_and!; try done. by apply map_lookup_filter_Some.
Qed.

Lemma insert_unique t i u :
  usage_unique t → t !! i = None → (∀ j v, t !! j = Some v → usage_key v ≠ usage_key u) → usage_unique (<[i := u]> t).
Proof.
  intros Ht Hi Hk j1 j2 u1 u2. rewrite !lookup_insert_Some. intros [[<- <-]|[H1 L1]] [[<- <-]|[H2 L2]] He; eauto.
  - by destruct (Hk _ _ L2).
  - by destruct (Hk _ _ L1).
Qed.

Lemma ledger_insert t i u :
  usage_unique t → t !! i = None → (∀ j v, t !! j = Some v → usage_key v ≠ usage_key u) →
  ledger (<[i := u]> t) = <[usage_key u := charge_of u]> (ledger t).
Proof.
  intros Ht Hi Hk. apply map_eq. intros k. apply option_eq. intros x.
  rewrite ledger_lookup by by apply insert_unique. rewrite lookup_insert_Some, ledger_lookup by done. split.
  - intros (j & v & [[<- <-]|[Hj Hv]]%lookup_insert_Some & <- & <-); [by left|]. right. split; [|eauto].
    intros Hu. by destruct (Hk j v).
  - intros [[<- <-]|[Hne (j & v & Hv & <- & <-)]].
    + exists i, u. by rewrite lookup_insert_eq.
    + exists j, v. split_and!; [|done..]. rewrite lookup_insert_ne; [done|]. congruence.
Qed.

(** Deleting the row that the query for the job finds leaves the rows of the others. *)
Lemma delete_found (d : DB) al job :
  keyed Usage_ID (t_usages d) → usage_unique (t_usages d) →
  match pgComputeAllocationUsageStore_FindByComputeAllocationIDAndJobID al job d with
  | Some u => t_usages d !! Usage_ID u = Some u ∧ delete (Usage_ID u) (t_usages d) = others (al, job) (t_usages d)
  | None => others (al, job) (t_usages d) = t_usages d
  end.
Proof.
  intros Hpk Ht. unfold pgComputeAllocationUsageStore_FindByComputeAllocationIDAndJobID.
  destruct (select_one _ _) as [u|] eqn:Hs.
  - apply select_one_Some in Hs as [[<- <-] [i Hi]]. pose proof (Hpk i u Hi) as Hid. simpl in Hid. subst i.
    split; [done|]. apply map_eq. intros j. apply option_eq. intros v.
    unfold others. rewrite lookup_delete_Some, map_lookup_filter_Some. simpl. split; intros [H1 H2].
    + split; [done|]. intros Hk. apply H1. by apply (Ht _ _ u v).
    + split; [|done]. intros <-. apply H2. by assert (u = v) as -> by congruence.
  - rewrite select_one_None in Hs. apply map_filter_id. intros i u Hi Hk. simpl in Hk. apply (Hs i u Hi).
    unfold usage_key in Hk. by injection Hk.
Qed.

(** ** What a job costs *)

(** The charge for [job], and to which allocation it goes, from the tables: the first
    allocation of the cluster with the name of its account, the local user, the resource with
    the name of the partition, the rate that holds when the job ended. *)
Definition billed (d : DB) (cl : ComputeCluster) (job : JobInfo) : option (string * string * Charge) :=
  let raw := raw_amount (billing_of job) (job_duration job) in
  al ← head (filter (λ al, ComputeAllocation_Name al = Job_Account job)
               (pgComputeAllocationStore_FindByCluster (ComputeCluster_ID cl) d));
  csu ← pgComputeClusterUserStore_FindByClusterAndLocalUsername (ComputeCluster_ID cl) (Job_User job) d;
  resource ← pgComputeAllocationResourceStore_FindByNameAndCluster (Job_Partition job) (ComputeCluster_ID cl) d;
  if (job_duration job <=? 0)%Z then None
  else if SFleb (billing_of job) (S754_zero false) then None
  else
    rate ← pgComputeAllocationResourceRateStore_FindEffective (Resource_ID resource)
             (time_Unix (Time_End (Job_Time job))) d;
    Some (ComputeAllocation_ID al, FormatInt (Job_JobID job),
          mkCharge raw (float_mul raw (Rate_Rate rate)) (ComputeClusterUser_UserID csu) (Resource_ID resource)).

(** The core takes the charge: it fits the columns and no amount is negative. *)
Definition postable (k : string * string) (x : Charge) : Prop :=
  fits [(255, k.1); (255, charge_user x); (255, k.2); (255, charge_resource x)] ∧
  float_negative (charge_raw x) = false ∧ float_negative (charge_su x) = false.
#[export] Instance postable_dec k x : Decision (postable k x).
Proof. unfold postable. apply _. Defined.

(** Posting a job: its charge replaces an earlier one. One that the core refuses leaves none. *)
Definition post (d : DB) (cl : ComputeCluster) (L : Ledger) (job : JobInfo) : Ledger :=
  match billed d cl job with
  | None => L
  | Some (k, x) => if decide (postable k x) then <[k := x]> L else delete k L
  end.

(** The last charge for [k] among [jobs]. *)
Definition last_post (d : DB) (cl : ComputeCluster) (k : string * string) (jobs : list JobInfo) (o : option Charge) :
    option Charge :=
  foldl (λ o job, match billed d cl job with
                  | Some (k', x) => if decide (k' = k) then (if decide (postable k' x) then Some x else None) else o
                  | None => o
                  end) o jobs.

Lemma post_lookup d cl L jobs k : foldl (post d cl) L jobs !! k = last_post d cl k jobs (L !! k).
Proof.
  revert L. induction jobs as [|job jobs IH]; intros L; [done|]. simpl. rewrite IH. f_equal. unfold post.
  destruct (billed d cl job) as [[k' x]|]; [|done]. destruct (decide (k' = k)) as [->|Hk].
  - case_decide; [apply lookup_insert_eq|apply lookup_delete_eq].
  - case_decide; [by apply lookup_insert_ne|by apply lookup_delete_ne].
Qed.

(** Records of one job on one allocation cost the same. *)
Definition consistent (d : DB) (cl : ComputeCluster) (jobs : list JobInfo) : Prop :=
  ∀ j j' k x x', j ∈ jobs → j' ∈ jobs → billed d cl j = Some (k, x) → billed d cl j' = Some (k, x') → x = x'.

Lemma last_post_found d cl k jobs o job x :
  consistent d cl jobs → job ∈ jobs → billed d cl job = Some (k, x) →
  last_post d cl k jobs o = if decide (postable k x) then Some x else None.
Proof.
  intros Hc Hj Hb. revert o. induction jobs as [|job' jobs IH] using rev_ind; intros o; [by apply not_elem_of_nil in Hj|].
  unfold last_post in *. rewrite foldl_snoc. destruct (billed d cl job') as [[k' x']|] eqn:Hb'.
  - destruct (decide (k' = k)) as [->|Hk].
    + assert (x' = x) as -> by (eapply Hc; [| |exact Hb'|exact Hb]; set_solver). done.
    + apply IH; [intros ???????; apply Hc; set_solver|].
      apply elem_of_app in Hj as [?|Hj]; [done|]. apply list_elem_of_singleton in Hj. congruence.
  - apply IH; [intros ???????; apply Hc; set_solver|].
      apply elem_of_app in Hj as [?|Hj]; [done|]. apply list_elem_of_singleton in Hj. congruence.
Qed.
Lemma last_post_missing d cl k jobs o :
  (∀ job x, job ∈ jobs → billed d cl job ≠ Some (k, x)) → last_post d cl k jobs o = o.
Proof.
  revert o. induction jobs as [|job jobs IH]; intros o Hk; [done|]. simpl.
  destruct (billed d cl job) as [[k' x]|] eqn:Hb; [|apply IH; set_solver].
  rewrite decide_False; [apply IH; set_solver|]. intros ->. by destruct (Hk job x); [set_solver|].
Qed.

(** Jobs that are listed again change nothing. *)
Lemma post_again d cl L jobs jobs' :
  consistent d cl jobs → jobs' ⊆ jobs →
  foldl (post d cl) (foldl (post d cl) L jobs) jobs' = foldl (post d cl) L jobs.
Proof.
  intros Hc Hs. apply map_eq. intros k. rewrite !post_lookup.
  assert (consistent d cl jobs') as Hc' by (intros ???????; apply Hc; set_solver).
  destruct (decide (Exists (λ job, fst <$> billed d cl job = Some k) jobs')) as [Hx|Hx].
  - apply Exists_exists in Hx as (job & Hj & Hb). destruct (billed d cl job) as [[k' x]|] eqn:Hjob; [|done].
    injection Hb as ->. rewrite (last_post_found _ _ _ jobs' _ job x), (last_post_found _ _ _ jobs _ job x) by set_solver.
    done.
  - apply last_post_missing. intros job x Hj Hb. apply Hx, Exists_exists. exists job. by rewrite Hb.
Qed.

(** Nothing that a charge depends on is in the usage table. *)
Lemma billed_usages d t : billed (set_usages t d) = billed d.
Proof. done. Qed.
Lemma post_usages d t : post (set_usages t d) = post d.
Proof. done. Qed.

(** ** Recording a job, without faults *)

Lemma FormatInt_nonblank z : FormatInt z ≠ "".
Proof.
  unfold FormatInt. destruct z as [|p|p]; [done| |].
  - change (pretty (Z.pos p)) with (pretty (N.pos p)). intros H. pose proof (unsigned_pretty (N.pos p)) as Hu.
    by rewrite H in Hu.
  - by change (pretty (Z.neg p)) with (String "-" (pretty (N.pos p))).
Qed.

(** What the tables must hold for the lookups of the monitor: no blank ids and names, and at
    most one row for a job on an allocation. *)
Record bookable (cl : ComputeCluster) (d : DB) : Prop := {
  bk_integrity : integrity d;
  bk_cluster : ComputeCluster_ID cl ≠ "";
  bk_allocations : t_compute_allocations d !! "" = None;
  bk_resources : t_resources d !! "" = None;
  bk_usages : t_usages d !! "" = None;
  bk_usernames : map_Forall (λ _ u, ComputeClusterUser_LocalUsername u ≠ "") (t_compute_cluster_users d);
  bk_names : map_Forall (λ _ r, Resource_Name r ≠ "") (t_resources d);
  bk_unique : usage_unique (t_usages d) }.

Section record.
Context `{E : Env} `{SS : SlurmServer}.
Implicit Types (w : LWorld) (c : World).

(** The identifiers up to the [B]-th that are still to be drawn are new, distinct, and fit. *)
Definition fresh_ids (B : nat) w : Prop :=
  ∀ n, w_ids (l_core w) ≤ n < B →
    uuid n ≠ "" ∧ fits [(255, uuid n)] ∧ t_usages (l_db w) !! uuid n = None ∧
    ∀ n', w_ids (l_core w) ≤ n' < n → uuid n' ≠ uuid n.

(** Only the core changed, and there only the usages and the counters; at most [k]
    identifiers were drawn. *)
Definition usages_become (k : nat) (t : Usages) w w' : Prop :=
  l_db w' = set_usages t (l_db w) ∧ l_sdb w' = l_sdb w ∧ l_calls w' = l_calls w ∧ l_last w' = l_last w ∧
  w_ids (l_core w) ≤ w_ids (l_core w') ≤ w_ids (l_core w) + k.

(** A read of the core: the value of a query, or an error. *)
Definition reads {A} (q : M A) (d : DB) (o : option A) : Prop :=
  ∀ c, w_db c = d → ∃ r c', q c = (r, c') ∧ w_db c' = d ∧ w_ids c' = w_ids c ∧
    match o with Some x => r = Ok x | None => ∃ e, r = Err e end.

Lemma usages_become_refl w : usages_become 0 (t_usages (l_db w)) w w.
Proof. unfold usages_become. split_and!; try done; try lia. by destruct (l_db w). Qed.

(** A read keeps everything. *)
Lemma core_reads {A} (q : M A) o w :
  reads q (l_db w) o →
  ∃ r w', core q w = (r, w') ∧ usages_become 0 (t_usages (l_db w)) w w' ∧
    match o with Some x => r = Ok x | None => ∃ e, r = Err e end.
Proof.
  intros Hq. destruct (Hq (l_core w) eq_refl) as (r & c' & Hc & Hd & Hi & Hr). unfold core. rewrite Hc.
  exists r, (set_lcore c' w). split; [done|]. split; [|done]. unfold usages_become. split_and!; try done; try (simpl; lia).
  change (l_db (set_lcore c' w)) with (w_db c'). rewrite Hd. by destruct (l_db w).
Qed.
Lemma usages_become_trans k k' t t' w w1 w2 :
  usages_become k t w w1 → usages_become k' t' w1 w2 → usages_become (k + k') t' w w2.
Proof.
  intros (A1 & A2 & A3 & A4 & A5) (B1 & B2 & B3 & B4 & B5). unfold usages_become. split_and!; try congruence; try lia.
  by rewrite B1, A1.
Qed.
Lemma usages_become_db k t w w' : usages_become k t w w' → l_db w' = set_usages t (l_db w).
Proof. by intros []. Qed.
End record.

Section record_reads.
Context `{E : Env} `{!NoFaults} (cl : ComputeCluster) (d : DB) (Hbk : bookable cl d).

Lemma bookable_usages t : usage_unique t → t !! "" = None → keyed Usage_ID t → bookable cl (set_usages t d).
Proof.
  intros Hu Hn Hk. destruct Hbk. split; try done. clear -bk_integrity0 Hk. destruct bk_integrity0. by split.
Qed.

(** [return row, ErrNotFound if there is none], after the checks on the arguments. *)
Lemma reads_row {A} (q : DB → option A) fmt e : reads (x ← wrap fmt (query q); deref x e) d (q d).
Proof.
  intros c Hc. erewrite bind_run; [|apply wrap_run, query_run]. rewrite Hc. unfold deref.
  destruct (q d) as [x|]; [exists (Ok x)|exists (Err e)]; exists (bump_stmt c); split_and!; eauto.
Qed.
Lemma reads_checked {A} P `{!Decision P} e (q : M A) o :
  (P → o = None) → reads q d o → reads (_ ← fail_if P e; q) d o.
Proof.
  intros HP Hq c Hc. destruct (decide P) as [Hp|Hp].
  - rewrite (bind_run_Err _ _ _ _ _ (fail_if_fail P e c Hp)), (HP Hp). eauto 10.
  - rewrite (bind_run _ _ _ _ _ (fail_if_run P e c Hp)). by apply Hq.
Qed.

Lemma reads_user local :
  reads (GetComputeClusterUserByClusterAndLocalUsername (ComputeCluster_ID cl) local) d
    (pgComputeClusterUserStore_FindByClusterAndLocalUsername (ComputeCluster_ID cl) local d).
Proof.
  apply reads_checked; [by intros ?%(bk_cluster _ _ Hbk)|]. apply reads_checked; [|apply reads_row].
  intros ->. unfold pgComputeClusterUserStore_FindByClusterAndLocalUsername. apply select_one_None.
  intros k u Hu [_ Hx]. by apply (bk_usernames _ _ Hbk k u Hu).
Qed.
Lemma reads_resource name :
  reads (GetComputeAllocationResourceByNameAndCluster name (ComputeCluster_ID cl)) d
    (pgComputeAllocationResourceStore_FindByNameAndCluster name (ComputeCluster_ID cl) d).
Proof.
  apply reads_checked; [|apply reads_checked; [by intros ?%(bk_cluster _ _ Hbk)|apply reads_row]].
  intros ->. unfold pgComputeAllocationResourceStore_FindByNameAndCluster. apply select_one_None.
  intros k u Hu [Hx _]. by apply (bk_names _ _ Hbk k u Hu).
Qed.
Lemma reads_rate id t :
  id ≠ "" → t ≠ 0%Z →
  reads (GetEffectiveRateForResource id t) d (pgComputeAllocationResourceRateStore_FindEffective id t d).
Proof.
  intros Hid Ht. apply reads_checked; [done|]. unfold or_now, IsZero. rewrite decide_False by done.
  intros c Hc. rewrite (bind_run _ _ _ t c) by done. by apply reads_row.
Qed.
End record_reads.

Section record_writes.
Context `{E : Env} `{!NoFaults} `{SS : SlurmServer}.
Implicit Types (w : LWorld).

Lemma delete_run id w :
  id ≠ "" → is_Some (t_usages (l_db w) !! id) →
  ∃ r w', core (DeleteComputeAllocationUsage id) w = (r, w') ∧
    usages_become 0 (delete id (t_usages (l_db w))) w w'.
Proof.
  intros Hid [u Hu]. unfold core, DeleteComputeAllocationUsage.
  erewrite bind_run; [|by apply fail_if_run]. erewrite bind_run; [|apply wrap_run, query_run].
  unfold pgComputeAllocationUsageStore_FindByID. fold (l_db w). rewrite Hu.
  erewrite bind_run; [|by apply fail_if_run].
  erewrite wrap_run; [|rewrite inTx_run; erewrite exec_run; [done|done]].
  eexists _, _. split; [done|]. unfold usages_become. split_and!; try done; simpl; lia.
Qed.

Lemma create_run B u w :
  w_ids (l_core w) < B → Usage_ID u = "" → Usage_ComputeAllocationID u ≠ "" →
  is_Some (t_compute_allocations (l_db w) !! Usage_ComputeAllocationID u) →
  is_Some (t_resources (l_db w) !! Usage_ComputeAllocationResourceID u) → fresh_ids B w →
  let n := w_ids (l_core w) in
  ∃ r w', core (CreateComputeAllocationUsage (Some u)) w = (r, w') ∧
    if decide (postable (usage_key u) (charge_of u)) then
      ∃ u', Usage_ID u' = uuid n ∧ usage_key u' = usage_key u ∧ charge_of u' = charge_of u ∧
        usages_become 1 (<[uuid n := u']> (t_usages (l_db w))) w w' ∧ n < w_ids (l_core w')
    else usages_become 1 (t_usages (l_db w)) w w'.
Proof.
  intros HB Hi Hal [al Ha] [res Hr] Hf. cbv zeta. unfold core, CreateComputeAllocationUsage.
  destruct (Hf (w_ids (l_core w)) ltac:(lia)) as (Hn & Hfit & Hnew & _).
  rewrite (bind_run _ _ _ u (l_core w)) by done. erewrite bind_run; [|by apply fail_if_run].
  destruct (decide (float_negative (Usage_UsedRawAmount u) = true ∨ float_negative (Usage_UsedSUAmount u) = true)) as [Hneg|Hneg].
  { rewrite (bind_run_Err _ _ _ _ _ (fail_if_fail _ _ _ Hneg)). eexists _, _. split; [done|].
    rewrite decide_False; [|intros (_ & H1 & H2); simpl in *; rewrite H1, H2 in Hneg; naive_solver].
    destruct (usages_become_refl w) as (? & ? & ? & ? & ?). unfold usages_become. split_and!; try done; simpl; lia. }
  erewrite bind_run; [|by apply fail_if_run]. erewrite bind_run; [|apply wrap_run, query_run].
  unfold pgComputeAllocationStore_FindByID. fold (l_db w). rewrite Ha. erewrite bind_run; [|by apply fail_if_run].
  match goal with |- context [(when ?P ?m ≫= ?k) ?c] =>
    assert (∃ c', when P m c = (Ok tt, c') ∧ w_db c' = l_db w ∧ w_ids c' = w_ids (l_core w) ) as (c1 & Hc1 & Hd1 & Hi1) end.
  { unfold when. case_decide; [|by eexists]. erewrite bind_run; [|apply wrap_run, query_run].
    unfold pgComputeAllocationResourceStore_FindByID. simpl. fold (l_db w). rewrite Hr.
    eexists. split; [by apply fail_if_run|done]. }
  rewrite (bind_run _ _ _ _ _ Hc1). unfold or_newID. rewrite decide_True by done.
  rewrite (bind_run newID _ _ _ (bump_ids c1) eq_refl). rewrite Hi1.
  assert (∃ t c2, or_now (Usage_CalculatedTime u) (bump_ids c1) = (Ok t, c2) ∧ w_db c2 = l_db w ∧
    w_ids c2 = S (w_ids (l_core w))) as (t & c2 & Hc2 & Hd2 & Hi2).
  { unfold or_now. destruct (decide (IsZero (Usage_CalculatedTime u))); eexists _, _; (split; [reflexivity|]); simpl; by rewrite Hd1, Hi1. }
  rewrite (bind_run _ _ _ _ _ Hc2). cbv zeta.
  set (u' := mkComputeAllocationUsage _ _ _ _ t _ _ _).
  assert (postable (usage_key u) (charge_of u) ↔ fits [(255, Usage_ID u'); (255, Usage_ComputeAllocationID u');
    (255, Usage_UserID u'); (255, Usage_JobID u'); (255, Usage_ComputeAllocationResourceID u')]) as Hpost.
  { unfold postable, fits in *. simpl. rewrite Forall_singleton in Hfit. simpl in Hfit.
    apply Decidable.not_or in Hneg as [H1%not_true_iff_false H2%not_true_iff_false]. clear -Hfit H1 H2.
    rewrite !Forall_cons. simpl. tauto. }
  assert (w_tx (tx_begin c2) = l_db w) as Htx by done.
  destruct (decide (postable (usage_key u) (charge_of u))) as [Hp|Hp].
  - assert (pgComputeAllocationUsageStore_Create u' (w_tx (tx_begin c2)) =
      inr (set_usages (<[uuid (w_ids (l_core w)) := u']> (t_usages (l_db w))) (l_db w))) as Hs.
    { unfold pgComputeAllocationUsageStore_Create. rewrite decide_True; [|by apply Hpost, Hp].
      rewrite Htx. by rewrite decide_True. }
    erewrite bind_run; [|apply wrap_run; rewrite inTx_run, (exec_run _ _ _ Hs); reflexivity].
    eexists _, _. split; [reflexivity|]. exists u'. split_and!; try done; try (simpl; rewrite Hi2; lia).
    unfold usages_become. split_and!; try done; simpl; rewrite Hi2; lia.
  - assert (pgComputeAllocationUsageStore_Create u' (w_tx (tx_begin c2)) = inl StringTooLong) as Hs.
    { unfold pgComputeAllocationUsageStore_Create. rewrite decide_False; [done|by rewrite <-Hpost]. }
    erewrite bind_run_Err; [|unfold wrapf; rewrite inTx_run, (exec_fail _ _ _ Hs); reflexivity].
    eexists _, _. split; [reflexivity|]. unfold usages_become. split_and!; try done; try (simpl; rewrite Hi2; lia).
    change (w_db c2 = set_usages (t_usages (l_db w)) (l_db w)). rewrite Hd2. by destruct (l_db w).
Qed.
End record_writes.

Section record_job.
Context `{E : Env} `{!NoFaults} `{SS : SlurmServer} `{SE : SlurmEnv} (cl : ComputeCluster) (B : nat).
Implicit Types (w : LWorld) (job : JobInfo).

(** The tables are in order, and identifiers are fresh. *)
Definition in_order w : Prop := bookable cl (l_db w) ∧ fresh_ids B w.

(** The state after a call that posts [L]. *)
Definition posted (k : nat) (L : Ledger) w w' : Prop :=
  ∃ t, usages_become k t w w' ∧ ledger t = L ∧ in_order w'.

Lemma in_order_same w w' : in_order w → usages_become 0 (t_usages (l_db w)) w w' → in_order w'.
Proof.
  intros [Hb Hf] (Hd & _ & _ & _ & Hi).
  assert (l_db w' = l_db w) as Hd' by (rewrite Hd; by destruct (l_db w)).
  split; [by rewrite Hd'|]. unfold fresh_ids. assert (w_ids (l_core w') = w_ids (l_core w)) as -> by lia. by rewrite Hd'.
Qed.
Lemma posted_same w w' :
  in_order w → usages_become 0 (t_usages (l_db w)) w w' → posted 1 (ledger (t_usages (l_db w))) w w'.
Proof.
  intros Hw Hs. exists (t_usages (l_db w)). split_and!; [|done|by eapply in_order_same].
  destruct Hs as (? & ? & ? & ? & ?). unfold usages_become. split_and!; try done; lia.
Qed.

Lemma replace_run al jid u w :
  in_order w → w_ids (l_core w) < B → Usage_ID u = "" → Usage_ComputeAllocationID u = al → Usage_JobID u = jid → al ≠ "" →
  is_Some (t_compute_allocations (l_db w) !! al) →
  is_Some (t_resources (l_db w) !! Usage_ComputeAllocationResourceID u) →
  ∃ w', replace_usage (pgComputeAllocationUsageStore_FindByComputeAllocationIDAndJobID al jid (l_db w)) u w = (Ok tt, w') ∧
    posted 1 (if decide (postable (al, jid) (charge_of u)) then <[(al, jid) := charge_of u]> (ledger (t_usages (l_db w)))
            else delete (al, jid) (ledger (t_usages (l_db w)))) w w'.
Proof.
  intros [Hb Hf] HB Hu <- <- Hal Ha Hr. set (k := usage_key u).
  pose proof (bk_unique _ _ Hb) as Hun. pose proof (pk_usages _ (bk_integrity _ _ Hb)) as Hpk.
  pose proof (delete_found (l_db w) (Usage_ComputeAllocationID u) (Usage_JobID u) Hpk Hun) as Hdel.
  assert (∃ w1, (match pgComputeAllocationUsageStore_FindByComputeAllocationIDAndJobID
      (Usage_ComputeAllocationID u) (Usage_JobID u) (l_db w) with
      | Some old => _ ← lcatch (core (DeleteComputeAllocationUsage (Usage_ID old))); mret tt
      | None => mret tt end : LM unit) w = (Ok tt, w1) ∧
    usages_become 0 (others k (t_usages (l_db w))) w w1) as (w1 & Hw1 & Hs1).
  { fold k in Hdel. destruct (pgComputeAllocationUsageStore_FindByComputeAllocationIDAndJobID _ _ _) as [old|].
    - destruct Hdel as [Hold Hdel]. unfold k, usage_key. rewrite <-Hdel.
      destruct (delete_run (Usage_ID old) w) as (r & w1 & Hd & Hs); [|by eexists|].
      { intros Hid. rewrite Hid in Hold. by rewrite (bk_usages _ _ Hb) in Hold. }
      exists w1. split; [|done]. unfold mbind, LM_bind, lcatch. by rewrite Hd.
    - exists w. split; [done|]. unfold k, usage_key. rewrite Hdel. apply usages_become_refl. }
  pose proof (usages_become_db _ _ _ _ Hs1) as Hdb1. pose proof Hs1 as (_ & _ & _ & _ & Hid1).
  assert (t_usages (l_db w1) = others k (t_usages (l_db w))) as Ht1 by by rewrite Hdb1.
  assert (w_ids (l_core w1) = w_ids (l_core w)) as Hids by lia.
  assert (fresh_ids B w1) as Hf1.
  { intros n Hn. rewrite Hids in *. destruct (Hf n Hn) as (? & ? & Hnew & ?). split_and!; try done.
    rewrite Ht1. unfold others. apply map_lookup_filter_None. by left. }
  destruct (create_run B u w1) as (r & w2 & Hc & Hpost); [lia|done|done|by rewrite Hdb1|by rewrite Hdb1|done|].
  exists w2. split.
  { unfold replace_usage, mbind, LM_bind in *. rewrite Hw1. unfold lcatch. by rewrite Hc. }
  change (Usage_ComputeAllocationID u, Usage_JobID u) with k in *. fold k in Hpost.
  assert (keyed Usage_ID (others k (t_usages (l_db w)))) as Hk1.
  { intros i x [Hx _]%map_lookup_filter_Some. by apply Hpk. }
  assert (others k (t_usages (l_db w)) !! "" = None) as Hb1.
  { apply map_lookup_filter_None. left. apply (bk_usages _ _ Hb). }
  destruct (decide (postable k (charge_of u))) as [Hp|Hp].
  - destruct Hpost as (u' & Hid & Hku & Hcu & Hs2 & Hn). rewrite Ht1 in Hs2.
    destruct (Hf1 (w_ids (l_core w1)) ltac:(lia)) as (Hn1 & _ & Hnew & _). rewrite Ht1 in Hnew.
    assert (∀ j v, others k (t_usages (l_db w)) !! j = Some v → usage_key v ≠ usage_key u') as Hne.
    { intros j v [_ Hv]%map_lookup_filter_Some. rewrite Hku. done. }
    exists (<[uuid (w_ids (l_core w1)) := u']> (others k (t_usages (l_db w)))). split_and!.
    + exact (usages_become_trans 0 1 _ _ _ _ _ Hs1 Hs2).
    + rewrite ledger_insert, ledger_others, Hku, Hcu by (done || by apply others_unique). by rewrite insert_delete_eq.
    + split.
      * rewrite (usages_become_db _ _ _ _ (usages_become_trans _ _ _ _ _ _ _ Hs1 Hs2)). apply bookable_usages; [done|..].
        -- apply insert_unique; [by apply others_unique|done|done].
        -- by rewrite lookup_insert_ne.
        -- intros i x [[<- <-]|[_ Hx]]%lookup_insert_Some; [done|by apply Hk1].
      * intros n Hn2. destruct (Hf n ltac:(lia)) as (? & ? & Hnn & Hdis). split_and!; [done|done| |].
        -- rewrite (usages_become_db _ _ _ _ Hs2). simpl. apply lookup_insert_None. split.
           ++ apply map_lookup_filter_None. by left.
           ++ apply Hdis. lia.
        -- intros n' Hn'. apply Hdis. lia.
  - rewrite Ht1 in Hpost. pose proof (usages_become_trans 0 1 _ _ _ _ _ Hs1 Hpost) as Hs.
    exists (others k (t_usages (l_db w))). split; [done|]. split; [by apply ledger_others|]. split.
    + rewrite (usages_become_db _ _ _ _ Hs). apply bookable_usages; [done|by apply others_unique|done|done].
    + intros n Hn. destruct Hpost as (_ & _ & _ & _ & Hid2). destruct (Hf n ltac:(lia)) as (? & ? & Hnn & Hdis).
      split_and!; [done|done| |intros n' Hn'; apply Hdis; lia].
      rewrite (usages_become_db _ _ _ _ Hs). simpl. apply map_lookup_filter_None. by left.
Qed.

(** ** From the lookups to the ledger *)

(** There is an identifier left. *)
Definition ready w : Prop := in_order w ∧ w_ids (l_core w) < B.
Lemma ready_same w w' : ready w → usages_become 0 (t_usages (l_db w)) w w' → ready w'.
Proof. intros [Hw Hi] Hs. split; [by eapply in_order_same|]. destruct Hs as (_ & _ & _ & _ & ?). lia. Qed.

Definition outcome {A} (m : LM A) w (L : Ledger) : Prop := ∃ r w', m w = (r, w') ∧ posted 1 L w w'.

Lemma posted_after L w w1 w2 :
  usages_become 0 (t_usages (l_db w)) w w1 → posted 1 L w1 w2 → posted 1 L w w2.
Proof. intros Hs (t & Ht & HL & Ho). exists t. split; [exact (usages_become_trans 0 1 _ _ _ _ _ Hs Ht)|done]. Qed.
Lemma same_db k w w' : usages_become k (t_usages (l_db w)) w w' → l_db w' = l_db w.
Proof. intros (-> & _). by destruct (l_db w). Qed.

Lemma outcome_end {A} (r : Res A) w : ready w → outcome (λ w, (r, w)) w (ledger (t_usages (l_db w))).
Proof. intros Hw. exists r, w. split; [done|]. apply posted_same; [apply Hw|apply usages_become_refl]. Qed.

Lemma outcome_read {A C} d (q : M A) o (k : A → LM C) w L :
  l_db w = d → ready w → reads q d o →
  match o with
  | Some x => ∀ w1, l_db w1 = d → ready w1 → outcome (k x) w1 L
  | None => L = ledger (t_usages d)
  end → outcome (core q ≫= k) w L.
Proof.
  intros <- Hw Hq Hk. destruct (core_reads q o w Hq) as (r & w1 & Hc & Hs & Hr).
  unfold outcome, mbind, LM_bind. rewrite Hc. destruct o as [x|].
  - subst r. destruct (Hk w1) as (r & w2 & H2 & Hp); [by eapply same_db|by eapply ready_same|].
    exists r, w2. split; [done|]. by eapply posted_after.
  - destruct Hr as [e ->]. subst L. exists (Err e), w1. split; [done|]. apply posted_same; [apply Hw|done].
Qed.

(** The lookup of an earlier row: none is not an error. *)
Lemma outcome_existing {C} d al jid (k : option ComputeAllocationUsage → LM C) w L :
  l_db w = d → ready w → al ≠ "" → jid ≠ "" →
  (∀ w1, l_db w1 = d → ready w1 →
     outcome (k (pgComputeAllocationUsageStore_FindByComputeAllocationIDAndJobID al jid d)) w1 L) →
  outcome (found ← lcatch (core (GetComputeAllocationUsageByComputeAllocationIDAndJobID al jid));
           existing ← match found with
                      | Ok u => mret (Some u)
                      | Err (Sentinel SNotFound) => mret None
                      | Err e => lthrow e
                      end;
           k existing) w L.
Proof.
  intros <- Hw Hal Hj Hk. set (o := pgComputeAllocationUsageStore_FindByComputeAllocationIDAndJobID al jid (l_db w)) in *.
  set (w1 := set_lcore (bump_stmt (l_core w)) w).
  assert (core (GetComputeAllocationUsageByComputeAllocationIDAndJobID al jid) w =
    (match o with Some u => Ok u | None => Err ErrNotFound end, w1)) as Hc.
  { unfold core, GetComputeAllocationUsageByComputeAllocationIDAndJobID.
    erewrite bind_run; [|by apply fail_if_run]. erewrite bind_run; [|by apply fail_if_run].
    erewrite bind_run; [|apply wrap_run, query_run]. fold (l_db w). fold o. by destruct o. }
  assert (usages_become 0 (t_usages (l_db w)) w w1) as Hs.
  { unfold usages_become. split_and!; try done; [|simpl; lia]. change (l_db w1) with (l_db w). by destruct (l_db w). }
  destruct (Hk w1) as (r & w2 & H2 & Hp); [by eapply same_db|by eapply ready_same|].
  exists r, w2. split; [|by eapply posted_after]. unfold mbind, LM_bind, lcatch. rewrite Hc. by destruct o.
Qed.

Lemma outcome_now {C} d (k : Time → LM C) w L :
  l_db w = d → ready w → (∀ t w1, l_db w1 = d → ready w1 → outcome (k t) w1 L) →
  outcome (core nowUTC ≫= k) w L.
Proof.
  intros <- Hw Hk. set (w1 := set_lcore (bump_clock (l_core w)) w).
  assert (usages_become 0 (t_usages (l_db w)) w w1) as Hs.
  { unfold usages_become. split_and!; try done; [|simpl; lia]. change (l_db w1) with (l_db w). by destruct (l_db w). }
  destruct (Hk (clock (w_clock (l_core w))) w1) as (r & w2 & H2 & Hp); [done|by eapply ready_same|].
  exists r, w2. split; [exact H2|by eapply posted_after].
Qed.

(** Recording a job posts what it costs. *)
Lemma recordJob_run job w :
  ready w → (0 <= Time_End (Job_Time job))%Z →
  ∃ w', recordJob job cl (pgComputeAllocationStore_FindByCluster (ComputeCluster_ID cl) (l_db w)) w = (Ok tt, w') ∧
    posted 1 (post (l_db w) cl (ledger (t_usages (l_db w))) job) w w'.
Proof.
  intros Hw Hend. remember (l_db w) as d eqn:Hd. symmetry in Hd.
  assert (bookable cl d) as Hb by (rewrite <-Hd; apply Hw). unfold recordJob, post, billed.
  set (als := filter _ _). destruct als as [|al als'] eqn:Hals; simpl.
  { exists w. split; [done|]. rewrite <-Hd. apply posted_same; [apply Hw|apply usages_become_refl]. }
  assert (t_compute_allocations d !! ComputeAllocation_ID al = Some al) as Hal.
  { assert (al ∈ als) as Hin by (rewrite Hals; set_solver). apply list_elem_of_filter in Hin as [_ Hin].
    apply elem_of_select_rows in Hin as [_ [i Hi]].
    pose proof (pk_compute_allocations _ (bk_integrity _ _ Hb) _ _ Hi) as Hid. simpl in Hid. by subst i. }
  assert (ComputeAllocation_ID al ≠ "") as Hal0.
  { intros H0. rewrite H0 in Hal. by rewrite (bk_allocations _ _ Hb) in Hal. }
  match goal with |- ∃ w', _ ∧ posted _ ?L _ _ => assert (outcome (recordJobFor job cl al) w L) as (r & w' & Hr & Hp) end.
  2: { exists w'. split; [|done]. unfold mbind, LM_bind, lcatch. by rewrite Hr. }
  unfold recordJobFor. eapply outcome_read; [exact Hd|done|by apply reads_user|].
  destruct (pgComputeClusterUserStore_FindByClusterAndLocalUsername _ _ _) as [csu|]; simpl; [|done].
  clear dependent w. intros w Hd Hw. eapply outcome_read; [exact Hd|done|by apply reads_resource|].
  destruct (pgComputeAllocationResourceStore_FindByNameAndCluster _ _ _) as [res|] eqn:Hres; simpl; [|done].
  assert (t_resources d !! Resource_ID res = Some res) as Hrid.
  { apply select_one_Some in Hres as [_ [i Hi]].
    pose proof (pk_resources _ (bk_integrity _ _ Hb) _ _ Hi) as Hid. simpl in Hid. by subst i. }
  assert (Resource_ID res ≠ "") as Hrid0.
  { intros H0. rewrite H0 in Hrid. by rewrite (bk_resources _ _ Hb) in Hrid. }
  clear dependent w. intros w Hd Hw. apply (outcome_existing d); [done|done|done|apply FormatInt_nonblank|].
  clear dependent w. intros w Hd Hw. rewrite <-Hd.
  destruct (job_duration job <=? 0)%Z; [by apply outcome_end|].
  destruct (SFleb (billing_of job) (S754_zero false)); [by apply outcome_end|]. rewrite Hd.
  eapply outcome_read; [exact Hd|done|apply reads_rate; [done|unfold time_Unix, unix_epoch; lia]|].
  destruct (pgComputeAllocationResourceRateStore_FindEffective _ _ _) as [rate|]; simpl; [|done].
  clear dependent w. intros w Hd Hw.
  apply (outcome_now d); [done|done|]. clear dependent w. intros now w Hd Hw.
  destruct (replace_run (ComputeAllocation_ID al) (FormatInt (Job_JobID job)) (usage_row al csu res rate job now) w)
    as (w' & Hr & Hp); [apply Hw|apply Hw|done..|by rewrite Hd|by rewrite Hd|].
  rewrite Hd in Hr, Hp. exists (Ok tt), w'. done.
Qed.

Lemma recordJobs_run jobs w :
  in_order w → w_ids (l_core w) + length jobs ≤ B → Forall (λ job, 0 <= Time_End (Job_Time job))%Z jobs →
  ∃ w', leach (λ job, recordJob job cl (pgComputeAllocationStore_FindByCluster (ComputeCluster_ID cl) (l_db w))) jobs w =
          (Ok tt, w') ∧
    posted (length jobs) (foldl (post (l_db w) cl) (ledger (t_usages (l_db w))) jobs) w w'.
Proof.
  revert w. induction jobs as [|job jobs IH]; intros w Hw HB Hjobs.
  { exists w. split; [done|]. exists (t_usages (l_db w)). split; [apply usages_become_refl|done]. }
  apply Forall_cons in Hjobs as [Hjob Hjobs]. simpl in HB.
  assert (ready w) as Hr by (split; [done|lia]). destruct (recordJob_run job w Hr Hjob) as (w1 & H1 & t & Ht & HL & Hw1).
  pose proof Ht as (_ & _ & _ & _ & Hids).
  destruct (IH w1 Hw1 ltac:(lia) Hjobs) as (w2 & H2 & t2 & Ht2 & HL2 & Hw2).
  pose proof (usages_become_db _ _ _ _ Ht) as Hd. rewrite Hd in H2, HL2. simpl in HL2. rewrite HL in HL2.
  exists w2. split; [cbn [leach]; unfold mbind, LM_bind; by rewrite H1|].
  exists t2. split; [exact (usages_become_trans 1 _ _ _ _ _ _ Ht Ht2)|done].
Qed.
End record_job.

(** ** A poll *)

Section poll.
Context `{E : Env} `{SS : SlurmServer} `{SE : SlurmEnv} (m : SlurmMonitor).
Implicit Types (w : LWorld).

(** The window of the next poll. *)
Definition window w : JobFilter :=
  mkJobFilter [] (windowStart m (l_last w)) (unix_of (clock (w_clock (l_core w)))).

(** The client does not look at the core. *)
Lemma ListJobs_core f w c :
  ListJobs (mon_slurmClient m) f (set_lcore c w) =
    let '(r, w1) := ListJobs (mon_slurmClient m) f w in (r, set_lcore c w1).
Proof.
  unfold ListJobs, do, mbind, LM_bind. destruct (marshals NoBody); [|done]. simpl.
  destruct (url_error _) as [t|]; [done|]. unfold send. simpl.
  destruct (delivery (l_calls w)) as [|t|t]; [|done..]. destruct (slurmrestd _ _) as [resp sd]. simpl.
  destruct (400 <=? resp_status resp)%Z; [by destruct (resp_errors resp) as [[|e es]|]|].
  unfold decode, mret, LM_ret. by destruct (resp_jobs resp).
Qed.

Context `{!NoFaults} (cl : ComputeCluster).

Lemma poll_head w :
  t_compute_clusters (l_db w) !! mon_clusterId m = Some cl →
  ∃ c, w_db c = l_db w ∧ w_ids c = w_ids (l_core w) ∧
    (poll m w).2 =
      match ListJobs (mon_slurmClient m) (window w) w with
      | (Ok jobs, w1) =>
          (leach (λ job, recordJob job cl (pgComputeAllocationStore_FindByCluster (ComputeCluster_ID cl) (l_db w))) jobs
             (set_last (JobFilter_EndTime (window w)) (set_lcore c w1))).2
      | (Err _, w1) => set_lcore c w1
      end.
Proof.
  intros Hcl. exists (bump_clock (bump_stmt (bump_stmt (l_core w)))). split; [done|]. split; [done|].
  set (c := bump_clock _). set (w0 := set_lcore c w).
  set (k := λ jobs, _ ← lmodify (set_last (JobFilter_EndTime (window w)));
    leach (λ job, recordJob job cl (pgComputeAllocationStore_FindByCluster (ComputeCluster_ID cl) (l_db w))) jobs).
  assert (poll_jobs m w = (ListJobs (mon_slurmClient m) (window w) ≫= k) w0) as Hp.
  { set (w1 := set_lcore (bump_stmt (l_core w)) w).
    assert (core (GetComputeCluster (mon_clusterId m)) w = (Ok cl, w1)) as H1.
    { unfold core, GetComputeCluster. rewrite (bind_run _ _ _ _ _ (wrap_run _ _ _ _ _ _ (query_run _ _))).
      unfold pgComputeClusterStore_FindByID. fold (l_db w). by rewrite Hcl. }
    assert (core (ListComputeAllocationsByCluster (ComputeCluster_ID cl)) w1 =
      (Ok (pgComputeAllocationStore_FindByCluster (ComputeCluster_ID cl) (l_db w)),
       set_lcore (bump_stmt (bump_stmt (l_core w))) w)) as H2.
    { unfold core, ListComputeAllocationsByCluster. by rewrite (wrap_run _ _ _ _ _ _ (query_run _ _)). }
    assert (poll_list m w = match ListJobs (mon_slurmClient m) (window w) w0 with
      | (Ok jobs, w2) => (Ok (window w, cl, pgComputeAllocationStore_FindByCluster (ComputeCluster_ID cl) (l_db w), jobs), w2)
      | (Err e, w2) => (Err e, w2) end) as Hl.
    { unfold poll_list, mbind, LM_bind. rewrite H1, H2. reflexivity. }
    unfold poll_jobs, mbind, LM_bind. rewrite Hl. by destruct (ListJobs _ _ w0) as [[jobs|e] w2]. }
  assert ((poll m w).2 = (poll_jobs m w).2) as ->.
  { unfold poll, mbind, LM_bind, lcatch. by destruct (poll_jobs m w). }
  rewrite Hp. unfold mbind at 1, LM_bind at 1. unfold w0. rewrite ListJobs_core.
  by destruct (ListJobs _ _ w) as [[jobs|e] w1].
Qed.
End poll.

(** What a poll posts. *)
Definition polled `{E : Env} `{SS : SlurmServer} `{SE : SlurmEnv} (m : SlurmMonitor) (cl : ComputeCluster)
    (B : nat) (w w' : LWorld) : Prop :=
  match (ListJobs (mon_slurmClient m) (window m w) w).1 with
  | Ok jobs =>
      ledger (t_usages (l_db w')) = foldl (post (l_db w) cl) (ledger (t_usages (l_db w))) jobs ∧
      l_db w' = set_usages (t_usages (l_db w')) (l_db w) ∧ in_order cl B w' ∧
      l_last w' = JobFilter_EndTime (window m w)
  | Err _ => l_db w' = l_db w ∧ in_order cl B w' ∧ l_last w' = l_last w
  end.

(** The jobs that the next poll gets. *)
Definition next_jobs `{E : Env} `{SS : SlurmServer} `{SE : SlurmEnv} (m : SlurmMonitor) (w : LWorld) : list JobInfo :=
  match (ListJobs (mon_slurmClient m) (window m w) w).1 with Ok jobs => jobs | Err _ => [] end.

Definition after_epoch (job : JobInfo) : Prop := (0 <= Time_End (Job_Time job))%Z.

Section polls.
Context `{E : Env} `{!NoFaults} `{SS : SlurmServer} `{SE : SlurmEnv}.
Context (m : SlurmMonitor) (cl : ComputeCluster) (B : nat).
Implicit Types (w : LWorld).

Lemma in_order_move w c w1 :
  in_order cl B w → w_db c = l_db w → w_ids c = w_ids (l_core w) → in_order cl B (set_lcore c w1).
Proof. intros [Hb Hf] Hd Hi. split; [by rewrite <-Hd in Hb|]. intros n. unfold l_db. simpl. rewrite Hd, Hi. apply Hf. Qed.

Lemma poll_run w :
  in_order cl B w → t_compute_clusters (l_db w) !! mon_clusterId m = Some cl → Forall after_epoch (next_jobs m w) →
  w_ids (l_core w) + length (next_jobs m w) ≤ B → polled m cl B w (poll m w).2.
Proof.
  intros Hw Hcl Hj HB. destruct (poll_head m cl w Hcl) as (c & Hc & Hi & Hp). unfold polled, next_jobs in *.
  destruct (ListJobs _ _ w) as [r w1] eqn:Hl. unfold ListJobs in Hl.
  assert (l_last w1 = l_last w) as Hlast.
  { unfold mbind, LM_bind in Hl. destruct (do _ _ _ _ w) as [r1 w2] eqn:Hd. apply do_run in Hd as [(_ & _ & Ho) _].
    rewrite <-Ho. destruct r1 as [resp|e]; [|by injection Hl as _ <-]. unfold decode in Hl.
    by destruct (resp_jobs resp); injection Hl as _ <-. }
  simpl in *. destruct r as [jobs|e].
  - rewrite Hp. set (w2 := set_last _ _). assert (l_db w2 = l_db w) as Hd2 by done.
    assert (in_order cl B w2) as Hw2 by exact (in_order_move w c w1 Hw Hc Hi).
    assert (w_ids (l_core w2) + length jobs ≤ B) as HB2 by (simpl; by rewrite Hi).
    destruct (recordJobs_run cl B jobs w2 Hw2 HB2 Hj) as (w' & Hr & t & Ht & HL & Ho).
    rewrite Hd2 in Hr, HL. rewrite Hr. simpl. destruct Ht as (Hdb & _ & _ & Hl' & _).
    rewrite Hdb. split; [exact HL|]. split; [by rewrite Hd2|]. split; [done|]. by rewrite Hl'.
  - rewrite Hp. split; [done|]. split; [|done]. by eapply in_order_move.
Qed.

(** C23: when no call of the core fails, a poll that gets a list of jobs changes nothing but
    the usage rows, and these, read as a ledger with one charge for a job on an allocation,
    become the ledger to which the cost of each job is posted in the order of the list: billing
    units times hours, at the rate that holds when the job ended, for the user and the resource
    that the tables name; a job that the tables do not resolve, or that has no duration or no
    billing, posts nothing. Then the next window starts from the end of this one. Without a list
    the rows and the window stay. The tables are in order (no blank login, resource name or
    identifier, at most one row for a job on an allocation), new identifiers are distinct, and
    no job ended before 1970. *)
Theorem poll_posts_charges w :
  in_order cl B w → t_compute_clusters (l_db w) !! mon_clusterId m = Some cl → Forall after_epoch (next_jobs m w) →
  w_ids (l_core w) + length (next_jobs m w) ≤ B → polled m cl B w (poll m w).2.
Proof. apply poll_run. Qed.

(** C24: jobs that a poll lists again, because its window looks back, are not charged again.
    When no call of the core fails in two polls that follow each other, the records of a job in
    the first list that fall on one allocation cost the same, and every record of the second
    list is one of the first, the ledger after the second poll is the one that the first left
    (with tables, identifiers and end times as for the poll that posts charges).
    (A deletion that fails, or a record that comes back with another duration, does change it.) *)
Theorem relisted_jobs_free w :
  let w1 := (poll m w).2 in
  in_order cl B w → t_compute_clusters (l_db w) !! mon_clusterId m = Some cl →
  Forall after_epoch (next_jobs m w) → consistent (l_db w) cl (next_jobs m w) →
  next_jobs m w1 ⊆ next_jobs m w →
  w_ids (l_core w) + length (next_jobs m w) ≤ B → w_ids (l_core w1) + length (next_jobs m w1) ≤ B →
  ledger (t_usages (l_db (poll m w1).2)) = ledger (t_usages (l_db w1)).
Proof.
  cbv zeta. intros Hw Hcl Hj Hc Hs HB HB1. pose proof (poll_run w Hw Hcl Hj HB) as H1. unfold polled in H1.
  assert (Forall after_epoch (next_jobs m (poll m w).2)) as Hj1.
  { rewrite Forall_forall in *. intros j Hin. by apply Hj, Hs. }
  assert (t_compute_clusters (l_db (poll m w).2) = t_compute_clusters (l_db w) ∧ in_order cl B (poll m w).2) as [Hcl1 Hw1].
  { destruct (ListJobs _ _ w).1; [destruct H1 as (_ & -> & ? & _)|destruct H1 as (-> & ? & _)]; done. }
  rewrite <-Hcl1 in Hcl. pose proof (poll_run _ Hw1 Hcl Hj1 HB1) as H2. unfold polled in H2.
  unfold next_jobs in *. destruct (ListJobs _ _ (poll m w).2).1 as [jobs'|e]; [|destruct H2 as (-> & _); done].
  destruct H2 as (-> & _). destruct (ListJobs _ _ w).1 as [jobs|e].
  - destruct H1 as (-> & Hd & _). rewrite Hd, post_usages. by apply post_again.
  - assert (jobs' = []) as -> by (destruct jobs' as [|j ?]; [done|]; exfalso; apply (not_elem_of_nil j), Hs; set_solver). done.
Qed.
End polls.

(** ** Durations as seconds *)

Definition nonneg (x : float64) : Prop :=
  match x with S754_zero s | S754_infinity s | S754_finite s _ _ => s = false | S754_nan => True end.

Lemma round_aux_sign m e l : nonneg (binary_round_aux 53 1024 false m e l).
Proof.
  unfold binary_round_aux. destruct (shr_fexp 53 1024 m e l) as [x e']. destruct (shr_fexp 53 1024 _ e' _) as [y e''].
  destruct (shr_m y); [done| |done]. by destruct (Z.leb _ _).
Qed.
Lemma normalize_sign m e : (0 <= m)%Z → nonneg (binary_normalize 53 1024 m e false).
Proof.
  intros Hm. unfold binary_normalize. destruct m as [|p|p]; [done| |lia]. unfold binary_round.
  destruct (shl_align _ _ _). apply round_aux_sign.
Qed.
Lemma div_sign x y : nonneg x → nonneg y → nonneg (float_div x y).
Proof.
  destruct x as [| | |sx mx ex], y as [| | |sy my ey]; simpl; intros Hx Hy; subst; try done.
  destruct (SFdiv_core_binary _ _ _ _ _ _) as [[q e] l]. apply round_aux_sign.
Qed.
Lemma add_sign x y : nonneg x → nonneg y → nonneg (SFadd 53 1024 x y).
Proof.
  destruct x as [[]|[]| |sx mx ex], y as [[]|[]| |sy my ey]; simpl; try done.
  intros -> ->. apply normalize_sign. unfold cond_Zopp. lia.
Qed.

Lemma int_Seconds_nonneg d : (0 <= d)%Z → (0 <= int_Seconds d)%Z.
Proof.
  intros Hd. assert (nonneg (Seconds d)) as Hs.
  { unfold Seconds, second_ns. apply add_sign; [apply normalize_sign|apply div_sign; apply normalize_sign].
    - by apply Z.quot_pos.
    - by apply Z.rem_nonneg.
    - done. }
  unfold int_Seconds. destruct (Seconds d) as [| | |s mx ex]; try lia. simpl in Hs. subst s.
  unfold float_trunc. case_decide; [by apply Z.shiftl_nonneg|by apply Z.shiftr_nonneg].
Qed.

(** The look-back that is used when none is configured: 900 seconds. *)
Lemma default_look_back c id last :
  windowStart (NewSlurmMonitor c id 0) last = Z.max 1 (last - 900).
Proof.
  unfold windowStart. assert (int_Seconds (mon_pollOverlap (NewSlurmMonitor c id 0)) = 900%Z) as -> by by vm_compute.
  destruct (Z.ltb_spec (last - 900) 1); lia.
Qed.

(** ** Windows *)

Section windows.
Context `{E : Env} `{SS : SlurmServer} `{SE : SlurmEnv} (m : SlurmMonitor).
Implicit Types (w : LWorld).

(** The window for which the next poll gets a list of jobs, if it does. *)
Definition answered w : list (Z * Z) :=
  match (poll_list m w).1 with
  | Ok (f, _, _, _) => [(JobFilter_StartTime f, JobFilter_EndTime f)]
  | Err _ => []
  end.

(** The windows of the next polls. *)
Fixpoint windows (ticks : nat) w : list (Z * Z) :=
  match ticks with
  | O => []
  | S ticks' => answered w ++ windows ticks' (poll m w).2
  end.

(** What leaves [lastMonitorTime] alone. *)
Definition keeps_last {A} (q : LM A) : Prop := ∀ w, l_last (q w).2 = l_last w.

Lemma keeps_core {A} (q : M A) : keeps_last (core q).
Proof. intros w. unfold core. by destruct (q (l_core w)). Qed.
Lemma keeps_ret {A} (x : A) : keeps_last (mret x).
Proof. done. Qed.
Lemma keeps_throw {A} e : keeps_last (lthrow e : LM A).
Proof. done. Qed.
Lemma keeps_bind {A B} (q : LM A) (k : A → LM B) : keeps_last q → (∀ x, keeps_last (k x)) → keeps_last (q ≫= k).
Proof.
  intros Hq Hk w. specialize (Hq w). unfold mbind, LM_bind. destruct (q w) as [[x|e] w1]; simpl in *; [|done].
  by rewrite Hk.
Qed.
Lemma keeps_catch {A} (q : LM A) : keeps_last q → keeps_last (lcatch q).
Proof. intros Hq w. specialize (Hq w). unfold lcatch. by destruct (q w). Qed.
Lemma keeps_each {A} (f : A → LM unit) xs : (∀ x, keeps_last (f x)) → keeps_last (leach f xs).
Proof. intros Hf. induction xs as [|x xs IH]; [apply keeps_ret|]. apply keeps_bind; [apply Hf|]. intros []. apply IH. Qed.

Create HintDb keeps discriminated.
#[local] Hint Resolve keeps_core keeps_ret keeps_throw keeps_bind keeps_catch keeps_each : keeps.

Lemma keeps_recordJob job cl als : keeps_last (recordJob job cl als).
Proof.
  unfold recordJob. destruct (filter _ als) as [|al als']; [apply keeps_ret|].
  apply keeps_bind; [|auto with keeps]. apply keeps_catch. unfold recordJobFor, replace_usage.
  repeat first [apply keeps_bind; intros | apply keeps_catch | apply keeps_core | apply keeps_ret | apply keeps_throw | case_match].
Qed.
Lemma keeps_ListJobs f : keeps_last (ListJobs (mon_slurmClient m) f).
Proof.
  apply keeps_bind; [|intros resp; unfold decode; destruct (resp_jobs resp); auto with keeps].
  intros w. destruct (do _ _ _ _ w) as [r1 w2] eqn:Hd. by apply do_run in Hd as [(_ & _ & Ho) _].
Qed.

(** A list of jobs is one for the window from the last one on. *)
Lemma poll_list_run w :
  l_last (poll_list m w).2 = l_last w ∧
  ∀ f cl als jobs, (poll_list m w).1 = Ok (f, cl, als, jobs) → JobFilter_StartTime f = windowStart m (l_last w).
Proof.
  unfold poll_list, mbind, LM_bind. pose proof (keeps_core (GetComputeCluster (mon_clusterId m)) w) as K1.
  destruct (core _ w) as [[cl|e] w1]; simpl in *; [|done].
  pose proof (keeps_core (ListComputeAllocationsByCluster (ComputeCluster_ID cl)) w1) as K2.
  destruct (core _ w1) as [[als|e] w2]; simpl in *; [|by rewrite K2, K1].
  unfold lgets. rewrite K2, K1. set (f := mkJobFilter _ _ _). set (w3 := set_lcore _ w2).
  pose proof (keeps_ListJobs f w3) as K3. unfold mret, LM_ret.
  destruct (ListJobs _ f w3) as [[jobs|e] w4]; simpl in *; rewrite K3, K2, K1; [|done].
  split; [done|]. by intros ???? [= <- _ _ _].
Qed.

Lemma poll_last w :
  l_last (poll m w).2 = match (poll_list m w).1 with Ok (f, _, _, _) => JobFilter_EndTime f | Err _ => l_last w end.
Proof.
  destruct (poll_list_run w) as [Hl _]. unfold poll, poll_jobs, mbind, LM_bind, lcatch.
  destruct (poll_list m w) as [[[[[f cl] als] jobs]|e] w1]; simpl in *; [|done].
  pose proof (keeps_each _ jobs (λ job, keeps_recordJob job cl als) (set_last (JobFilter_EndTime f) w1)) as Hk.
  by destruct (leach _ jobs _).
Qed.

Lemma windows_cover ticks w t :
  (0 <= mon_pollOverlap m)%Z → (1 < t)%Z → (l_last w < t <= l_last (StartMonitor m ticks w).2)%Z →
  ∃ s e, (s, e) ∈ windows ticks w ∧ (s <= t <= e)%Z.
Proof.
  intros Ho Ht. revert w. induction ticks as [|ticks IH]; intros w Hw; [simpl in Hw; lia|]. cbn [windows].
  assert (StartMonitor m (S ticks) w = StartMonitor m ticks (poll m w).2) as Hs.
  { cbn [StartMonitor]. unfold poll, mbind, LM_bind, lcatch. by destruct (poll_jobs m w). }
  rewrite Hs in Hw. destruct (Z.lt_ge_cases (l_last (poll m w).2) t) as [Hlt|Hge].
  - destruct (IH _ (conj Hlt (proj2 Hw))) as (s & e & Hin & Hb). exists s, e. split; [set_solver|done].
  - rewrite poll_last in Hge. destruct (poll_list_run w) as [_ Hf]. unfold answered.
    destruct (poll_list m w).1 as [[[[f cl] als] jobs]|e]; [|lia].
    specialize (Hf f cl als jobs eq_refl). eexists _, _. split; [apply elem_of_app; left; apply list_elem_of_singleton; done|].
    split; [|done]. rewrite Hf. unfold windowStart. pose proof (int_Seconds_nonneg _ Ho).
    destruct (Z.ltb_spec (l_last w - int_Seconds (mon_pollOverlap m)) 1); lia.
Qed.
End windows.

(** C36: from its start on, whatever fails, the monitor leaves no gap: every second after the
    first up to [lastMonitorTime] lies in the window of a poll that got a list of jobs. *)
Theorem windows_no_gap `{E : Env} `{SS : SlurmServer} `{SE : SlurmEnv} (c : Client) (id : string) (overlap : Z)
    (ticks : nat) (w : LWorld) (t : Z) :
  let m := NewSlurmMonitor c id overlap in
  let w0 := (init_monitor w).2 in
  (1 < t <= l_last (StartMonitor m ticks w0).2)%Z →
  ∃ s e, (s, e) ∈ windows m ticks w0 ∧ (s <= t <= e)%Z.
Proof.
  cbv zeta. intros Ht. apply windows_cover; [|lia|exact Ht].
  unfold NewSlurmMonitor. simpl. destruct (Z.leb_spec overlap 0); [done|lia].
Qed.
