(* ===== verification/SlurmScenario.v ===== *)
(** * The SLURM connectors on concrete servers

    A slurmrestd that keeps its associations in a map and reads its filters from the URL; it
    satisfies what [SlurmLaws] and [Reliable] ask for. On it the theorems of the connectors are
    instantiated and the behaviours reported as findings are exhibited. *)

From stdpp Require Import base gmap sets list strings pretty.
From Stdlib Require Import ZArith Ascii SpecFloat Lia.
From S2P Require Import Prelude GoError Models Schema Events IdentityCache Effects EffectsLogic.
From S2P Require Import StoreCluster StoreAllocation StoreMembership.
From S2P Require Import UserService AuthService ProjectService AllocationService MembershipService ServiceApi Scenario.
From S2P Require Import Wire SignerText SlurmTypes SlurmEffects SlurmMapper SlurmMonitor SlurmFacts SlurmLogic.
From S2P Require Import SlurmSweep SlurmEvents SlurmConverge SlurmUsage.

Set Default Goal Selector "!".

Definition client0 : Client := NewClient "http://slurm/" "root" "token" "41".

Record SlurmState := mkSlurmState {
  st_records : gmap RecordKey assocWire;
  st_jobs : list JobInfo }.

(** ** Requests *)

Definition param (k : string) (kvs : list (string * string)) : string :=
  match list_find (λ kv, kv.1 = k) kvs with Some (_, kv) => kv.2 | None => "" end.

(** The path of a URL, and the filter its query stands for. *)
Definition endpoint (url : string) : string * AssocFilter :=
  let '(path, q) := match cut "?" url with Some pq => pq | None => (url, "") end in
  let kvs := default [] (ParseQuery q) in
  (path, mkAssocFilter (param "account" kvs) (param "user" kvs) (param "cluster" kvs) (param "partition" kvs)).

Lemma param_of_filter f :
  mkAssocFilter (param "account" (filter_params f)) (param "user" (filter_params f)) (param "cluster" (filter_params f))
    (param "partition" (filter_params f)) = f.
Proof.
  destruct f as [a u c p]. unfold filter_params, set_param. simpl.
  repeat case_decide; subst; reflexivity.
Qed.

Lemma Encode_nil kvs : Encode kvs = "" → kvs = [].
Proof. intros H. pose proof (ParseQuery_Encode kvs) as Hp. rewrite H in Hp. by injection Hp. Qed.

Lemma endpoint_query path f :
  lacks "?" path → endpoint (with_query path (filter_query f)) = (path, f).
Proof.
  intros Hp. unfold endpoint, with_query, filter_query. case_decide as Hq.
  - assert (cut "?" path = None) as ->.
    { clear -Hp. induction path as [|a path IH]; [done|]. destruct Hp as [Ha Hp]. cbn [cut].
      by rewrite decide_False, IH. }
    change (ParseQuery "") with (Some (@nil (string * string))). simpl.
    apply Encode_nil in Hq. pose proof (param_of_filter f) as Hf. rewrite Hq in Hf. by rewrite <-Hf.
  - change ("?" +:+ Encode (filter_params f)) with (String "?" (Encode (filter_params f))).
    rewrite cut_lacks by done. rewrite ParseQuery_Encode. simpl. by rewrite param_of_filter.
Qed.

(** ** The server *)

Definition base : string := "http://slurm/slurmdb/v0.0.41".

(** The association of an account with a cluster. *)
Definition account_record (cluster account : string) : assocWire :=
  mkAssocWire account cluster "" "" "root" None 0 [] None.

Definition set_records (R : gmap RecordKey assocWire) (s : SlurmState) : SlurmState := mkSlurmState R (st_jobs s).

(** What is stored under its own key and names an account. *)
Definition proper (kw : RecordKey * assocWire) : Prop := wire_key kw.2 = kw.1 ∧ wire_Account kw.2 ≠ "".
#[export] Instance proper_dec kw : Decision (proper kw).
Proof. unfold proper. apply _. Defined.
Definition stored (s : SlurmState) : gmap RecordKey assocWire := filter proper (st_records s).

Definition upsert (s : SlurmState) (x : assocWire) : SlurmState :=
  if decide (is_Some (stored s !! (wire_Cluster x, wire_Account x, "", "")))
  then set_records (<[wire_key x := x]> (stored s)) s else s.

Definition answer (status : Z) (assocs : list assocWire) (jobs : list JobInfo) : SlurmResponse :=
  mkSlurmResponse status "" (Some []) (Some assocs) (Some []) (Some jobs) None.

Definition slurmrestd0 (rq : SlurmRequest) (s : SlurmState) : SlurmResponse * SlurmState :=
  let '(path, f) := endpoint (req_url rq) in
  match req_body rq with
  | AssociationsBody xs => (answer 200 [] [], foldl upsert s xs)
  | AccountsAssociationBody [name] [cluster] _ _ =>
      if decide (name = "") then (answer 400 [] [], s)
      else
        let k := (cluster, name, "", "") in
        (answer 200 [] [],
         if decide (is_Some (stored s !! k)) then s else set_records (<[k := account_record cluster name]> (stored s)) s)
  | _ =>
      if decide (req_method rq = "DELETE") then
        (answer 200 [] [], set_records (filter (λ kw, ¬ key_matches f kw.1) (stored s)) s)
      else (answer 200 (filter (λ kw, key_matches f kw.1) (map_to_list (stored s))).*2 (st_jobs s), s)
  end.

#[export] Instance server0 : SlurmServer := {| sdb := SlurmState; slurmrestd := slurmrestd0 |}.

Lemma stored_set R s : map_Forall (λ k x, proper (k, x)) R → stored (set_records R s) = R.
Proof. intros HR. apply map_filter_id. exact HR. Qed.
Lemma stored_proper s : map_Forall (λ k x, proper (k, x)) (stored s).
Proof. intros k x [_ H]%map_lookup_filter_Some. done. Qed.
Lemma stored_insert k x s :
  wire_key x = k → wire_Account x ≠ "" → stored (set_records (<[k := x]> (stored s)) s) = <[k := x]> (stored s).
Proof. intros Hk Ha. apply stored_set, map_Forall_insert_2; [done|apply stored_proper]. Qed.

Lemma upsert_stored x s :
  stored (upsert s x) = stored s ∧ ¬ is_Some (stored s !! (wire_Cluster x, wire_Account x, "", "")) ∨
  stored (upsert s x) = <[wire_key x := x]> (stored s).
Proof.
  unfold upsert. case_decide as Hs; [right|by left]. apply stored_insert; [done|].
  destruct Hs as [y Hy]. pose proof (stored_proper s _ _ Hy) as [Hk Ha]. simpl in *. unfold wire_key in Hk. congruence.
Qed.

Lemma keyed0 s k x : stored s !! k = Some x → wire_key x = k.
Proof. intros Hx. apply (stored_proper s k x Hx). Qed.
Lemma account0 s k x : stored s !! k = Some x → wire_Account x ≠ "".
Proof. intros Hx. apply (stored_proper s k x Hx). Qed.

Lemma endpoint_list f : endpoint (c_baseURL client0 +:+ associations_path client0 f) = (base +:+ "/associations", f).
Proof.
  assert (c_baseURL client0 +:+ associations_path client0 f = with_query (base +:+ "/associations") (filter_query f)) as ->.
  { unfold associations_path, with_query. by case_decide. }
  apply endpoint_query. vm_compute. repeat split; discriminate.
Qed.
Lemma endpoint_delete f : endpoint (c_baseURL client0 +:+ association_path client0 f) = (base +:+ "/association", f).
Proof.
  assert (c_baseURL client0 +:+ association_path client0 f = with_query (base +:+ "/association") (filter_query f)) as ->.
  { unfold association_path, with_query. by case_decide. }
  apply endpoint_query. vm_compute. repeat split; discriminate.
Qed.

Lemma list0 f s :
  let '(r, s') := slurmrestd0 (client_request client0 "GET" (associations_path client0 f) NoBody) s in
  stored s' = stored s ∧
  ∀ ws, (resp_status r < 400)%Z → resp_associations r = Some ws →
    ws ≡ₚ (filter (λ kw, key_matches f kw.1) (map_to_list (stored s))).*2.
Proof.
  unfold slurmrestd0, client_request. cbn [req_url req_body req_method]. rewrite endpoint_list.
  rewrite decide_False by done. split; [done|]. by intros ws _ [= <-].
Qed.
Lemma delete0 f s :
  let '(r, s') := slurmrestd0 (client_request client0 "DELETE" (association_path client0 f) NoBody) s in
  stored s' = (if decide (resp_status r < 400)%Z
               then filter (λ kw, ¬ key_matches f kw.1) (stored s) else stored s).
Proof.
  unfold slurmrestd0, client_request. cbn [req_url req_body req_method]. rewrite endpoint_delete.
  rewrite decide_True by done. rewrite decide_True by done. apply stored_set.
  intros k x [Hx _]%map_lookup_filter_Some. by apply stored_proper in Hx.
Qed.
Lemma upsert0 x s :
  let '(r, s') := slurmrestd0 (client_request client0 "POST"
      ("/slurmdb/v0.0." +:+ c_apiVersion client0 +:+ "/associations") (AssociationsBody [x])) s in
  (stored s' = stored s ∨
   ∃ x', wire_key x' = wire_key x ∧ same_tres x x' ∧ stored s' = <[wire_key x := x']> (stored s)) ∧
  ((resp_status r < 400)%Z → is_Some (stored s !! (wire_Cluster x, wire_Account x, "", "")) →
   ∃ x', wire_key x' = wire_key x ∧ same_tres x x' ∧ stored s' = <[wire_key x := x']> (stored s)).
Proof.
  unfold slurmrestd0. destruct (endpoint _) as [path f]. cbn [req_body client_request foldl].
  destruct (upsert_stored x s) as [[H1 H2]|H1]; rewrite H1.
  - split; [by left|]. intros _ H3. done.
  - split; [right|intros _ _]; by exists x.
Qed.
Lemma create0 a cluster s :
  let '(r, s') := slurmrestd0 (client_request client0 "POST"
      ("/slurmdb/v0.0." +:+ c_apiVersion client0 +:+ "/accounts_association/")
      (AccountsAssociationBody [Account_Name a] [cluster] (Account_Description a) (Account_Organization a))) s in
  let k := (cluster, Account_Name a, "", "") in
  (stored s' = stored s ∨ ∃ x, stored s !! k = None ∧ wire_key x = k ∧ stored s' = <[k := x]> (stored s)) ∧
  ((resp_status r < 400)%Z → is_Some (stored s' !! k)).
Proof.
  unfold slurmrestd0. destruct (endpoint _) as [path f]. cbn [req_body client_request].
  case_decide as Hn; [split; [by left|simpl; lia]|].
  case_decide as Hs; [split; [by left|done]|]. rewrite <-eq_None_not_Some in Hs.
  assert (stored (set_records (<[(cluster, Account_Name a, "", "") := account_record cluster (Account_Name a)]> (stored s)) s)
    = <[(cluster, Account_Name a, "", "") := account_record cluster (Account_Name a)]> (stored s)) as ->
    by (apply stored_insert; [done|exact Hn]).
  split; [|intros _; by rewrite lookup_insert_eq]. right. exists (account_record cluster (Account_Name a)). done.
Qed.
Lemma jobs0 f s : stored (slurmrestd0 (client_request client0 "GET" (jobs_path client0 f) NoBody) s).2 = stored s.
Proof.
  unfold slurmrestd0. destruct (endpoint _) as [path g]. cbn [req_body req_method client_request].
  by rewrite decide_False.
Qed.

#[export] Instance laws0 : SlurmLaws client0 := {|
  records := stored; records_keyed := keyed0; records_account := account0; law_list := list0;
  law_upsert := upsert0; law_delete := delete0; law_account := create0; law_jobs := jobs0 |}.

(** Everything is delivered; maps are visited in the order of their keys. *)
#[export] Instance slurm_env0 : SlurmEnv := {|
  delivery _ := Delivered; url_error _ := None;
  slurm_trace n := "trace" +:+ pretty n; slurm_span n := "span" +:+ pretty n;
  range_assocs m := map_to_list m; range_assocs_perm m := Permutation_refl _ |}.

#[export] Instance reliable0 : Reliable client0.
Proof.
  split; [done|done| |].
  - intros rq s Hb. unfold slurmrestd, server0, slurmrestd0. destruct (endpoint _) as [path f].
    destruct (req_body rq); try discriminate Hb; try case_decide; done.
  - intros f s. simpl. unfold slurmrestd0, client_request. cbn [req_url req_body req_method].
    rewrite endpoint_list, decide_False by done. eauto.
Qed.

(** ** The core *)

(** The clock of the connectors: a minute passes between two readings. *)
Definition env1 : Env := {|
  uuid n := "id" +:+ pretty n;
  clock n := time_Unix (1700000000 + 60 * Z.of_nat n);
  db_clock n := time_Unix (1700000000 + 60 * Z.of_nat n);
  fault _ := false;
  lost _ := false |}.
#[export] Instance env1_NoFaults : @NoFaults env1.
Proof. intros n. reflexivity. Qed.

(** alice has a provisioned account on Delta and is a member of the allocation, which has one
    resource; a GPU hour costs two units. *)
Definition gpu_rate : float64 := float_of_int 2.
Definition slurm_setup : list Request :=
  [ReqCreateComputeClusterUser (Some (mkComputeClusterUser "cu" "delta" "alice" "alice1" None));
   ReqMarkComputeClusterUserProvisioned "cu";
   ReqCreateComputeAllocationResource (Some (mkComputeAllocationResource "gpu" "gpuA100" "gres/gpu" 8 "delta"));
   ReqAttachResourceToAllocation "alloc" "gpu" 4 0;
   ReqCreateComputeAllocationResourceRate
     (Some (mkComputeAllocationResourceRate "rate" "gpu" gpu_rate 5 (time_Unix 4000000000)));
   ReqCreateComputeAllocationMembership (Some (mkComputeAllocationMembership "m1" "alloc" "alice" 1 2 ""));
   ReqCreateComputeAllocationMembershipResourceOverride
     (Some (mkComputeAllocationMembershipResourceOverride "ov" "m1" "gpu" 2 0))].
Definition w_core : World := run_requests env0 slurm_setup w_setup.

Lemma w_core_integrity : integrity (w_db w_core).
Proof. apply run_requests_integrity, w_setup_integrity. Qed.

(** Only [vm_compute] runs it. *)
#[global] Opaque w_core.

(** The account of the allocation, an association that nobody is entitled to any more, and one
    on an account that custos does not manage. *)
Definition user_record (account user partition : string) : assocWire :=
  mkAssocWire account "Delta" user partition "" None 0 ["normal"] None.
Definition records_start : gmap RecordKey assocWire :=
  list_to_map ((λ x, (wire_key x, x)) <$>
    [account_record "Delta" "Alloc"; user_record "Alloc" "mallory" "gpuA100"; user_record "Physics" "bob" "gpuA100"]).

(** Two hours on one GPU, and a job of a user nobody knows. *)
Definition job (id : Z) (user : string) (start stop : Z) : JobInfo :=
  mkJobInfo "Alloc" "Delta" (mkJobTime (stop - start) start stop start start 0) id "sim" "gpuA100" "normal" user "n1"
    (mkJobTresInfo [mkTRES "cpu" "" (float_of_int 16); mkTRES "billing" "" (float_of_int 1)] [])
    (mkJobExitInfo [] (mkSlurmNumber true false 0)) (mkJobExitInfo [] (mkSlurmNumber true false 0)).
Definition jobs_start : list JobInfo := [job 7 "alice1" 1699990000 1699997200; job 8 "eve" 1699990000 1699997200].

Definition lw0 : LWorld := mkLWorld w_core (mkSlurmState records_start jobs_start) 0 0 1.
Definition sub0 : AssociationSubscriber := NewAssociationSubscriber client0 0 0.
Definition monitor0 : SlurmMonitor := NewSlurmMonitor client0 "delta" 0.
Definition ctx0 : AuditCtx := mkAuditCtx "" "" "" "".

Definition delta : ComputeCluster := mkComputeCluster "delta" "Delta".
Definition m1 : ComputeAllocationMembership := mkComputeAllocationMembership "m1" "alloc" "alice" 1 2 ACTIVE.
Definition ov : ComputeAllocationMembershipResourceOverride :=
  mkComputeAllocationMembershipResourceOverride "ov" "m1" "gpu" 2 0.

Lemma lw0_clusters_named : clusters_named (l_db lw0).
Proof. apply (bool_decide_unpack _). vm_compute. exact I. Qed.
Lemma lw0_named : named (l_db lw0).
Proof. split; [apply lw0_clusters_named|..]; apply (bool_decide_unpack _); vm_compute; exact I. Qed.

(** ** Instances *)

Lemma sweep_safe_witness :
  let w' := (@reconcile env1 server0 slurm_env0 sub0 lw0).2 in
  l_db w' = l_db lw0 ∧ swept (l_db lw0) (recs client0 lw0) (recs client0 w').
Proof. exact (@sweep_safe env1 server0 slurm_env0 sub0 laws0 lw0 w_core_integrity lw0_clusters_named). Defined.

Lemma revocation_exact_witness :
  let w' := (@SubscribeToComputeAllocationMembershipDeletion env1 server0 slurm_env0 sub0 ctx0 m1 lw0).2 in
  (recs client0 w' = recs client0 lw0 ∨ revoked sub0 m1 lw0 w') ∧
  (reported "ComputeAllocationMembershipDeprovisioned" "m1" lw0 w' → revoked sub0 m1 lw0 w').
Proof.
  exact (@revocation_exact env1 server0 slurm_env0 sub0 laws0 ctx0 m1 _ lw0 w_core_integrity lw0_named (or_introl eq_refl)).
Defined.

Lemma grants_exact_witness :
  granting sub0 "ComputeAllocationMembershipCreationSucceeded" "m1" m1 lw0
    (@SubscribeToComputeAllocationMembershipCreation env1 server0 slurm_env0 sub0 ctx0 m1 lw0).2.
Proof.
  refine (proj1 (@grants_exact env1 server0 slurm_env0 sub0 laws0 ctx0 m1 ov lw0 w_core_integrity _)).
  vm_compute. reflexivity.
Defined.

(** One sweep adds alice, removes mallory and leaves the other account alone. *)
Example sweep_result :
  dom (recs client0 (@reconcile env1 server0 slurm_env0 sub0 lw0).2) =
  {[("Delta", "Alloc", "", ""); ("Delta", "Alloc", "alice1", "gpuA100"); ("Delta", "Physics", "bob", "gpuA100")]}.
Proof. apply (bool_decide_unpack _). vm_compute. exact I. Qed.

(** The tables of [lw0]. *)
Definition cu : ComputeClusterUser := mkComputeClusterUser "cu" "delta" "alice" "alice1" (Some 81000000%Z).
Definition alloc : ComputeAllocation := mkComputeAllocation "alloc" "proj" "Alloc" ACTIVE "delta" 100 1 2.

Lemma lw0_rows :
  map_to_list (t_compute_clusters (l_db lw0)) = [("delta", delta)] ∧
  map_to_list (t_compute_cluster_users (l_db lw0)) = [("cu", cu)] ∧
  map_to_list (t_compute_allocations (l_db lw0)) = [("alloc", alloc)] ∧
  map_to_list (t_memberships (l_db lw0)) = [("m1", m1)] ∧
  map_to_list (t_overrides (l_db lw0)) = [("ov", ov)] ∧ map_to_list (t_usages (l_db lw0)) = [].
Proof. vm_compute. repeat split. Qed.

Lemma one_row {R} (t : gmap string R) k x i y : map_to_list t = [(k, x)] → t !! i = Some y ↔ i = k ∧ y = x.
Proof.
  intros Ht. rewrite <-elem_of_map_to_list, Ht, list_elem_of_singleton. split; [by intros [= -> ->]|by intros [-> ->]].
Qed.
Lemma no_row {R} (t : gmap string R) i : map_to_list t = [] → t !! i = None.
Proof. intros Ht%map_to_list_empty_iff. by rewrite Ht. Qed.

Lemma lw0_clusters i y : t_compute_clusters (l_db lw0) !! i = Some y ↔ i = "delta" ∧ y = delta.
Proof. apply one_row, lw0_rows. Qed.
Lemma lw0_cluster_users i y : t_compute_cluster_users (l_db lw0) !! i = Some y ↔ i = "cu" ∧ y = cu.
Proof. apply one_row, lw0_rows. Qed.
Lemma lw0_allocations i y : t_compute_allocations (l_db lw0) !! i = Some y ↔ i = "alloc" ∧ y = alloc.
Proof. apply one_row, lw0_rows. Qed.
Lemma lw0_memberships i y : t_memberships (l_db lw0) !! i = Some y ↔ i = "m1" ∧ y = m1.
Proof. apply one_row, lw0_rows. Qed.
Lemma lw0_overrides i y : t_overrides (l_db lw0) !! i = Some y ↔ i = "ov" ∧ y = ov.
Proof. apply one_row, lw0_rows. Qed.

Lemma lw0_usages i : t_usages (l_db lw0) !! i = None.
Proof. apply no_row, lw0_rows. Qed.

Lemma lw0_member csu m : member_on (l_db lw0) delta csu m → csu = cu ∧ m = m1.
Proof.
  intros (Hcsu & _ & _ & [Hm _] & _). apply lw0_cluster_users in Hcsu as [_ ->]. by apply lw0_memberships in Hm as [_ ->].
Qed.

Lemma lw0_sweepable : sweepable (l_db lw0) delta (recs client0 lw0).
Proof.
  split.
  - apply w_core_integrity.
  - apply lw0_clusters_named.
  - intros i o [_ ->]%lw0_overrides. done.
  - by apply lw0_clusters.
  - done.
  - by intros csu [_ ->]%lw0_cluster_users.
  - intros csu m [-> ->]%lw0_member. exists alloc. split; [by apply lw0_allocations|]. split; [done|]. split; [done|].
    intros _. exists delta, cu. split; [by apply lw0_clusters|]. split; [done|].
    split; [by apply lw0_cluster_users|]. split; [done|]. split; done.
  - intros csu m al cl' csu' r [-> ->]%lw0_member [Hal _ Hcl _ _ _ _ _].
    apply lw0_allocations in Hal as [_ ->]. apply lw0_clusters in Hcl as [_ ->].
    apply (bool_decide_unpack _). vm_compute. exact I.
  - intros acc user Hu. apply eq_None_not_Some. intros [x Hx].
    assert (map_Forall (λ (k : RecordKey) (_ : assocWire), let '(_, _, user, part) := k in user ≠ "" → part ≠ "")
      (recs client0 lw0)) as Hall.
    { apply (bool_decide_unpack _). vm_compute. exact I. }
    by apply (Hall _ _ Hx Hu).
Qed.

Lemma lw0_wanted : ∃ key, wanted (l_db lw0) delta key.
Proof.
  exists (mkAssocKey "Alloc" "alice1" "gpuA100"), cu, m1, alloc, delta, cu,
      (mkComputeAllocationResource "gpu" "gpuA100" "gres/gpu" 8 "delta").
    split.
    + split; [by apply lw0_cluster_users|]. split; [done|]. split; [done|]. split; [|done].
      split; [by apply lw0_memberships|done].
    + split; [|reflexivity]. split; [..|].
      * by apply lw0_allocations.
      * done.
      * by apply lw0_clusters.
      * by apply lw0_cluster_users.
      * done.
      * done.
      * done.
      * exists "id4", (mkComputeAllocationResourceMapping "id4" "alloc" "gpu" 4 0).
        split_and!; vm_compute; reflexivity.
Qed.

Lemma sweep_converges_witness :
  (@reconcileCluster env1 server0 slurm_env0 sub0 delta lw0).1 = Ok tt ∧
  (∃ key, wanted (l_db lw0) delta key) ∧
  converged (E:=env1) sub0 (l_db lw0) delta (recs client0 lw0) (@reconcileCluster env1 server0 slurm_env0 sub0 delta lw0).2.
Proof.
  destruct (@sweep_converges env1 env1_NoFaults server0 slurm_env0 sub0 laws0 reliable0 delta lw0 lw0_sweepable) as [Hr Hc].
  split; [exact Hr|]. split; [exact lw0_wanted|exact Hc].
Defined.

(** *** The monitor *)

Lemma lw0_in_order : in_order (E:=env1) delta 8 lw0.
Proof.
  split.
  - split.
    + apply w_core_integrity.
    + done.
    + vm_compute. reflexivity.
    + vm_compute. reflexivity.
    + vm_compute. reflexivity.
    + by intros i u [_ ->]%lw0_cluster_users.
    + apply (bool_decide_unpack _). vm_compute. exact I.
    + intros i j u v Hi. discriminate (eq_trans (eq_sym (lw0_usages i)) Hi).
  - assert (w_ids (l_core lw0) = 5) as Hids by by vm_compute.
    intros n Hn. rewrite Hids in *. assert (n = 5 ∨ n = 6 ∨ n = 7) as Hc by lia.
    split_and!; [by destruct Hc as [-> | [-> | ->]]| |apply lw0_usages|].
    + destruct Hc as [-> | [-> | ->]]; apply (bool_decide_unpack _); vm_compute; exact I.
    + intros n' Hn'. assert (n' = 5 ∨ n' = 6) as Hc' by lia. by destruct Hc as [-> | [-> | ->]], Hc' as [-> | ->]; try lia.
Qed.

Lemma lw0_jobs : @next_jobs env1 server0 slurm_env0 monitor0 lw0 = jobs_start.
Proof. vm_compute. reflexivity. Qed.

Lemma poll_posts_charges_witness :
  polled (E:=env1) monitor0 delta 8 lw0 (@poll env1 server0 slurm_env0 monitor0 lw0).2.
Proof.
  apply (@poll_posts_charges env1 env1_NoFaults server0 slurm_env0 monitor0 delta 8 lw0 lw0_in_order).
  - by apply lw0_clusters.
  - rewrite lw0_jobs. repeat constructor; vm_compute; discriminate.
  - rewrite lw0_jobs. vm_compute. lia.
Defined.

(** The job of two hours costs four units, the one of an unknown user nothing. *)
Example ledger_result :
  map_to_list (ledger (t_usages (l_db (@poll env1 server0 slurm_env0 monitor0 lw0).2))) =
  [("alloc", "7", mkCharge (float_of_int 2) (float_of_int 4) "alice" "gpu")].
Proof. vm_compute. reflexivity. Qed.

Lemma lw0_epoch : Forall after_epoch (@next_jobs env1 server0 slurm_env0 monitor0 lw0).
Proof. rewrite lw0_jobs. repeat constructor; vm_compute; discriminate. Qed.

Lemma lw0_consistent : consistent (l_db lw0) delta jobs_start.
Proof.
  assert (billed (l_db lw0) delta (job 8 "eve" 1699990000 1699997200) = None) as Hno by (vm_compute; reflexivity).
  assert (∀ j, j ∈ jobs_start → j = job 7 "alice1" 1699990000 1699997200 ∨ billed (l_db lw0) delta j = None) as Hj.
  { intros j Hin. apply elem_of_cons in Hin as [-> | Hin]; [by left|]. apply list_elem_of_singleton in Hin as ->. by right. }
  intros j j' k x x' [-> | H1]%Hj [-> | H2]%Hj; intros; congruence.
Qed.

Lemma relisted_jobs_free_witness :
  let w1 := (@poll env1 server0 slurm_env0 monitor0 lw0).2 in
  ledger (t_usages (l_db (@poll env1 server0 slurm_env0 monitor0 w1).2)) = ledger (t_usages (l_db w1)).
Proof.
  apply (@relisted_jobs_free env1 env1_NoFaults server0 slurm_env0 monitor0 delta 8 lw0 lw0_in_order).
  - by apply lw0_clusters.
  - exact lw0_epoch.
  - rewrite lw0_jobs. exact lw0_consistent.
  - assert (@next_jobs env1 server0 slurm_env0 monitor0 (@poll env1 server0 slurm_env0 monitor0 lw0).2 = jobs_start) as ->
      by (vm_compute; reflexivity).
    by rewrite lw0_jobs.
  - rewrite lw0_jobs. vm_compute. lia.
  - vm_compute. lia.
Defined.

Lemma windows_no_gap_witness :
  let w0 := (@init_monitor server0 lw0).2 in
  ∃ s e, (s, e) ∈ @windows env1 server0 slurm_env0 monitor0 3 w0 ∧ (s <= 1700000000 <= e)%Z.
Proof.
  apply (@windows_no_gap env1 server0 slurm_env0 client0 "delta" 0 3 lw0 1700000000).
  vm_compute. split; [reflexivity|discriminate].
Defined.

(** ** Behaviours of the code that the theorems leave room for *)

(** The core after [rs], slurmrestd with the records [xs]. *)
Definition start (rs : list Request) (xs : list assocWire) : LWorld :=
  mkLWorld (run_requests env0 rs w_core) (mkSlurmState (list_to_map ((λ x, (wire_key x, x)) <$> xs)) jobs_start) 0 0 1.
Definition keys_of (w : LWorld) : gset RecordKey := dom (recs client0 w).
Definition swept_keys (w : LWorld) : gset RecordKey := keys_of (@reconcile env1 server0 slurm_env0 sub0 w).2.

(** alice is a member on another cluster too, where her account is not provisioned yet: the
    sweep of Delta ends there, and mallory keeps the association. *)
Definition other_cluster : list Request :=
  [ReqCreateComputeCluster (Some (mkComputeCluster "eps" "Epsilon"));
   ReqCreateComputeClusterUser (Some (mkComputeClusterUser "cu2" "eps" "alice" "alice1" None));
   ReqCreateComputeAllocation (Some (mkComputeAllocation "alloc2" "proj" "Alloc2" "" "eps" 100 1 2));
   ReqCreateComputeAllocationMembership (Some (mkComputeAllocationMembership "m2" "alloc2" "alice" 1 2 ""))].
Example sweep_aborted :
  ("Delta", "Alloc", "mallory", "gpuA100") ∈
    swept_keys (start other_cluster [account_record "Delta" "Alloc"; user_record "Alloc" "mallory" "gpuA100"]).
Proof. apply (bool_decide_unpack _). vm_compute. exact I. Qed.

(** An association of alice without a partition is stale; its removal takes the one that the
    sweep has just written. *)
Example sweep_removes_partitions :
  swept_keys (start [] [account_record "Delta" "Alloc"; user_record "Alloc" "alice1" ""]) = {[("Delta", "Alloc", "", "")]}.
Proof. apply (bool_decide_unpack _). vm_compute. exact I. Qed.

(** An override for a membership that is not active grants access again. *)
Example override_regrants :
  let w := start [ReqUpdateMembershipStatus "m1" "INACTIVE"] [account_record "Delta" "Alloc"] in
  ("Delta", "Alloc", "alice1", "gpuA100") ∈
    keys_of (@SubscribeToComputeAllocationMembershipResourceOverrideCreation env1 server0 slurm_env0 sub0 ctx0 ov w).2.
Proof. apply (bool_decide_unpack _). vm_compute. exact I. Qed.

(** An update that blanks the name of an allocation and deactivates it removes every
    association of the cluster, those of other accounts too. *)
Definition blanked : ComputeAllocation := mkComputeAllocation "alloc" "proj" "" "INACTIVE" "delta" 100 1 2.
Example blank_name_removes_all :
  let w := start [ReqUpdateComputeAllocation (Some blanked)]
             [account_record "Delta" "Alloc"; user_record "Physics" "bob" "gpuA100"] in
  t_compute_allocations (l_db w) !! "alloc" = Some blanked ∧
  keys_of (@SubscribeToComputeAllocationUpdate env1 server0 slurm_env0 sub0 ctx0 blanked w).2 = ∅.
Proof. split; [vm_compute; reflexivity|]. apply (bool_decide_unpack _). vm_compute. exact I. Qed.

(** Deactivating an allocation removes the association of its account as well, with the limits
    of the allocation, and activating it again does not bring it back. *)
Definition with_status (s : string) : ComputeAllocation := mkComputeAllocation "alloc" "proj" "Alloc" s "delta" 100 1 2.
Example reactivation_incomplete :
  let w := start [] [account_record "Delta" "Alloc"; user_record "Alloc" "alice1" "gpuA100"] in
  let w1 := (@SubscribeToComputeAllocationUpdate env1 server0 slurm_env0 sub0 ctx0 (with_status "INACTIVE") w).2 in
  let w2 := (@SubscribeToComputeAllocationUpdate env1 server0 slurm_env0 sub0 ctx0 (with_status "ACTIVE") w1).2 in
  ("Delta", "Alloc", "", "") ∉ keys_of w2.
Proof. cbv zeta. apply (bool_decide_unpack _). vm_compute. exact I. Qed.

(** The errors of the deletion and of the creation of a usage row are dropped: when the
    deletion fails the job is charged twice, when the creation fails it is not charged. *)
Definition env_slurm (l : list nat) : Env := {|
  uuid n := "id" +:+ pretty n;
  clock n := time_Unix (1700000000 + 60 * Z.of_nat n);
  db_clock n := time_Unix (1700000000 + 60 * Z.of_nat n);
  fault n := bool_decide (n ∈ l);
  lost _ := false |}.
Definition rows_after (l : list nat) : nat :=
  size (t_usages (l_db (@StartMonitor (env_slurm l) server0 slurm_env0 monitor0 2 lw0).2)).
Example usage_duplicated : (rows_after [], rows_after [127], rows_after [131]) = (1, 2, 0).
Proof. vm_compute. reflexivity. Qed.
