(* ===== verification/Comanage.v ===== *)
(** * The COmanage registry and its client

    connectors/COmanage/Identity-Provisioner/internal/client. The registry is the class
    [Registry], a function of the request and of a state of its own (what it does in the
    meantime it can do when the next request arrives). A request can be lost on its way,
    and so can its answer. JSON is kept as values, with the members of an object in order;
    what encoding/json stores of a value is written out, one decoder per struct, from the
    names of its json tags. Every request of a run is logged with the answer the client
    saw. *)

From stdpp Require Import base gmap sets list strings.
From Stdlib Require Import ZArith Ascii.
From S2P Require Import Prelude GoError Models Schema Events IdentityCache Effects.
From S2P Require Import Wire AuthService SignerText SlurmTypes.

(** ** JSON *)

Inductive Json :=
  | JsNull
  | JsBool (b : bool)
  | JsNum (literal : string)
  | JsStr (s : string)
  | JsArr (vs : list Json)
  | JsObj (members : list (string * Json)).

(** [json.RawMessage]: a text, as the value it denotes; [None] when it is not JSON. *)
Definition RawMessage : Type := option Json.

Definition js_int (z : Z) : Json := JsNum (FormatInt z).

(** What [json.Unmarshal] stores in a variable of type [A]: the new value, and whether
    there was no error. *)
Class JTarget (A : Type) := {
  tzero : A;
  tset : Json → A → A * bool }.

#[export] Instance string_target : JTarget string := {|
  tzero := "";
  tset v old := match v with JsStr s => (s, true) | JsNull => (old, true) | _ => (old, false) end |}.
#[export] Instance int_target : JTarget Z := {|
  tzero := 0%Z;
  tset v old := match v with
                | JsNum lit => match ParseInt lit with Some z => (z, true) | None => (old, false) end
                | JsNull => (old, true)
                | _ => (old, false)
                end |}.
#[export] Instance bool_target : JTarget bool := {|
  tzero := false;
  tset v old := match v with JsBool b => (b, true) | JsNull => (old, true) | _ => (old, false) end |}.

(** The elements of an array are stored over those the slice has. *)
Fixpoint set_elems {A} `{JTarget A} (olds : list A) (vs : list Json) : list A * bool :=
  match vs with
  | [] => ([], true)
  | v :: vs' =>
      let '(a, ok) := tset v (default tzero (head olds)) in
      let '(rest, ok') := set_elems (tail olds) vs' in (a :: rest, ok && ok')
  end.
#[export] Instance list_target {A} `{JTarget A} : JTarget (list A) := {|
  tzero := [];
  tset v old := match v with JsArr vs => set_elems old vs | JsNull => ([], true) | _ => (old, false) end |}.

(** A struct [R], built field by field from the members of an object; a member that no
    field has is ignored. *)
Definition SDec (R A : Type) : Type := list (string * Json) → R → A * bool.
Definition make {R A} (f : A) : SDec R A := λ _ _, (f, true).
Definition store_field {A} `{JTarget A} (name : string) (st : A * bool) (kv : string * Json) : A * bool :=
  if decide (fold_key kv.1 = fold_key name)
  then let '(a, ok) := tset kv.2 st.1 in (a, st.2 && ok)
  else st.
Definition with_json {R A B} `{JTarget A} (d : SDec R (A → B)) (field : string * (R → A)) : SDec R B := λ ms old,
  let '(f, ok) := d ms old in
  let '(a, ok') := foldl (store_field field.1) (field.2 old, true) ms in (f a, ok && ok').
Definition target_of {R} (zero : R) (d : SDec R R) : JTarget R := {|
  tzero := zero;
  tset v old := match v with JsObj ms => d ms old | JsNull => (old, true) | _ => (old, false) end |}.

Declare Scope json_scope.
Delimit Scope json_scope with json.
Infix "⊙" := with_json (at level 61, left associativity) : json_scope.

(** [json.Unmarshal(raw, &v)] of a new [v]: the value, unless there was an error. *)
Definition Unmarshal {A} `{JTarget A} (raw : RawMessage) : option A :=
  match raw with
  | Some v => let '(a, ok) := tset v tzero in if ok then Some a else None
  | None => None
  end.

(** [map[string]json.RawMessage]; [None] is the nil map. *)
Definition RawMap : Type := option (gmap string Json).
Definition members_map (ms : list (string * Json)) : gmap string Json := foldl (λ m kv, <[kv.1 := kv.2]> m) ∅ ms.
Definition raw_map (v : Json) : option RawMap :=
  match v with
  | JsObj ms => Some (Some (members_map ms))
  | JsNull => Some None
  | _ => None
  end.
(** [[]map[string]json.RawMessage]. *)
Definition raw_maps (v : Json) : option (list RawMap) :=
  match v with
  | JsArr vs => mapM raw_map vs
  | JsNull => Some []
  | _ => None
  end.
(** [json.Marshal] writes the members in the order of their keys. *)
Definition marshal_map (m : RawMap) : Json :=
  match m with
  | Some m => JsObj (order_by fst String.le (map_to_list m))
  | None => JsNull
  end.

(** ** fmt.Sscanf(s, "%d", &n): spaces, a sign and digits; what follows is left *)

Fixpoint skip_spaces (s : string) : string :=
  match s with
  | String c s' => if is_space c && negb (nat_of_ascii c =? 10)%nat then skip_spaces s' else s
  | EmptyString => EmptyString
  end.
Fixpoint leading_digits (s : string) : string :=
  match s with
  | String c s' => match digit c with Some _ => String c (leading_digits s') | None => EmptyString end
  | EmptyString => EmptyString
  end.
Definition Sscanf_d (s : string) : option Z :=
  ParseInt match skip_spaces s with
           | String c s' => if decide (c = "-"%char ∨ c = "+"%char) then String c (leading_digits s')
                            else leading_digits (String c s')
           | EmptyString => EmptyString
           end.

(** ** Errors of the client *)

Inductive cerror :=
  | CErr (e : error)
  | ErrAuth401
  | ErrNoRecord                                           (* client.ErrNotFound *)
  | HTTPError (Method URL : string) (StatusCode : Z) (Body : string)
  | CErrorf (format : string) (args : list string) (wrapped : cerror).

(** [errors.Is(err, client.ErrNotFound)]. *)
Fixpoint is_no_record (e : cerror) : bool :=
  match e with
  | ErrNoRecord => true
  | CErrorf _ _ e' => is_no_record e'
  | _ => false
  end.
(** [errors.As(err, &httpErr)], as the status of the error found. *)
Fixpoint http_status (e : cerror) : option Z :=
  match e with
  | HTTPError _ _ s _ => Some s
  | CErrorf _ _ e' => http_status e'
  | _ => None
  end.

Definition truncate (s : string) (n : nat) : string :=
  let s := TrimSpace s in
  if (String.length s <=? n)%nat then s else String.substring 0 n s +:+ "...".

Fixpoint CError (e : cerror) : string :=
  match e with
  | CErr e => Error e
  | ErrAuth401 => "comanage: 401 unauthorized"
  | ErrNoRecord => "comanage: not found"
  | HTTPError m u s b => Sprintf "comanage %s %s: %d: %s" [m; u; FormatInt s; truncate b 200] ""
  | CErrorf f args e' => Sprintf f args (CError e')
  end.

(** ** Requests, answers and state *)

Record RegRequest := mkRegRequest {
  rq_method : string;
  rq_url : string;
  rq_user : string;
  rq_key : string;
  rq_body : option Json }.

(** An answer: its status, its body, and the JSON value in it. *)
Record RegResponse := mkRegResponse {
  rs_status : Z;
  rs_text : string;
  rs_json : RawMessage }.

Class Registry := {
  rdb : Type;
  registry : RegRequest → rdb → RegResponse * rdb }.

(** What becomes of the [n]-th request: it is answered; it does not arrive; its answer
    does not, or only in part. *)
Inductive Transport :=
  | Carried
  | Dropped (text : string)
  | Lost (text : string)
  | CutOff (text : string).

(** What else the connector does not control: the URLs that [http.NewRequest] refuses, the
    texts of the errors of encoding/json, fmt and strconv, the ids of the [n]-th span. *)
Class RegEnv := {
  transport : nat → Transport;
  bad_url : string → option string;
  json_error : RawMessage → string;
  scan_error : string → string;
  reg_trace : nat → string;
  reg_span : nat → string }.

(** A request and the answer the client got. *)
Record Exchange := mkExchange { x_request : RegRequest; x_answer : option RegResponse }.

(** What a call comes to: a value, an error, or a panic. *)
Inductive Outcome (A : Type) :=
  | Done (a : A)
  | Failed (e : cerror)
  | Panicked.
Arguments Done {_} _.
Arguments Failed {_} _.
Arguments Panicked {_}.

Section monad.
Context `{RG : Registry}.

Record CWorld := mkCWorld {
  p_core : World;
  p_reg : rdb;
  p_log : list Exchange;          (* newest last *)
  p_spans : nat }.

Definition set_pcore (c : World) (w : CWorld) : CWorld := mkCWorld c (p_reg w) (p_log w) (p_spans w).
Definition bump_pspans (w : CWorld) : CWorld := mkCWorld (p_core w) (p_reg w) (p_log w) (S (p_spans w)).
Definition log_exchange (rq : RegRequest) (a : option RegResponse) (s : rdb) (w : CWorld) : CWorld :=
  mkCWorld (p_core w) s (p_log w ++ [mkExchange rq a]) (p_spans w).
Definition p_db (w : CWorld) : DB := w_db (p_core w).

Definition CM (A : Type) : Type := CWorld → Outcome A * CWorld.

#[export] Instance CM_ret : MRet CM := λ A a w, (Done a, w).
#[export] Instance CM_bind : MBind CM := λ A B k m w,
  match m w with
  | (Done a, w') => k a w'
  | (Failed e, w') => (Failed e, w')
  | (Panicked, w') => (Panicked, w')
  end.

Definition cfail {A} (e : cerror) : CM A := λ w, (Failed e, w).
Definition panic {A} : CM A := λ w, (Panicked, w).
Definition cwrapf {A} (format : string) (args : list string) (m : CM A) : CM A := λ w,
  match m w with
  | (Failed e, w') => (Failed (CErrorf format args e), w')
  | r => r
  end.
(** A call whose error the caller inspects; a panic goes on. *)
Definition ctry {A} (m : CM A) : CM (cerror + A) := λ w,
  match m w with
  | (Done a, w') => (Done (inr a), w')
  | (Failed e, w') => (Done (inl e), w')
  | (Panicked, w') => (Panicked, w')
  end.
(** A call of the core service. *)
Definition pcore {A} (m : M A) : CM A := λ w,
  let '(r, c) := m (p_core w) in
  (match r with Ok a => Done a | Err e => Failed (CErr e) end, set_pcore c w).
(** A value, or an error when there is none. *)
Definition some_or {A} (e : cerror) (o : option A) : CM A :=
  match o with Some a => mret a | None => cfail e end.
End monad.
Abbreviation cwrap format m := (cwrapf format [] m).

Section client.
Context `{RG : Registry} `{RE : RegEnv}.

(** [tracing.Start]. *)
Definition start_span (ctx : AuditCtx) : CM AuditCtx := λ w,
  let n := p_spans w in
  let traceID := if decide (ctx_traceID ctx = "") then reg_trace n else ctx_traceID ctx in
  (Done (if decide (traceID = "" ∨ reg_span n = "")
         then mkAuditCtx "" "" (ctx_spanID ctx) (ctx_source ctx)
         else mkAuditCtx traceID (reg_span n) (ctx_spanID ctx) (ctx_source ctx)), bump_pspans w).

(** ** client.go *)

Definition restAPIVersion : string := "1.0".

Record Config := mkConfig {
  RegistryURL : string;
  COID : Z;
  APIUser : string;
  APIKey : string;
  PersonIDType : string;
  UnixClusterID : Z;
  CustosClusterID : string;
  DefaultShell : string;
  HomedirPrefix : string }.
Implicit Types (c : Config).

Definition coreAPI c (path : string) : string :=
  RegistryURL c +:+ "/api/co/" +:+ FormatInt (COID c) +:+ "/core/v1" +:+ path.
Definition restAPI c (path : string) : string := RegistryURL c +:+ path.

Definition some_text (t : string) : cerror := CErr (NewError "%s" [t]).

(** [c.http.Do] and the reading of the body. *)
Definition exchange (rq : RegRequest) : CM RegResponse := λ w,
  let '(r, s) := registry rq (p_reg w) in
  match transport (length (p_log w)) with
  | Carried => (Done r, log_exchange rq (Some r) s w)
  | Dropped t => (Failed (CErrorf "http: %w" [] (some_text t)), log_exchange rq None (p_reg w) w)
  | Lost t => (Failed (CErrorf "http: %w" [] (some_text t)), log_exchange rq None s w)
  | CutOff t => (Failed (CErrorf "read response: %w" [] (some_text t)), log_exchange rq None s w)
  end.

Definition request_of c (method url : string) (body : option Json) : RegRequest :=
  mkRegRequest method url (APIUser c) (APIKey c) body.

Definition doOnce c (method url : string) (body : option Json) : CM RegResponse :=
  match bad_url url with
  | Some t => cfail (CErrorf "build request: %w" [] (some_text t))
  | None => exchange (request_of c method url body)
  end.

(** The loop of [Do]: [attempts] are left after the answer [resp]. *)
Fixpoint retry c (method url : string) (body : option Json) (attempts : nat) (resp : RegResponse) : CM RegResponse :=
  match attempts with
  | O => mret resp
  | S n =>
      resp' ← doOnce c method url body;
      if (rs_status resp' <? 500)%Z then mret resp' else retry c method url body n resp'
  end.

Definition Do c (method url : string) (body : option Json) : CM RegResponse :=
  resp ← doOnce c method url body;
  if (500 <=? rs_status resp)%Z && (rs_status resp <? 600)%Z then retry c method url body 3 resp
  else mret resp.

Definition http_error (method url : string) (resp : RegResponse) : cerror :=
  HTTPError method url (rs_status resp) (rs_text resp).

(** ** What the calls have in common *)

(** GET of a list: [Some] on 200, [None] on 204. *)
Definition get_list {A} `{JTarget A} c (what url : string) : CM (option A) :=
  resp ← Do c "GET" url None;
  if decide (rs_status resp = 200%Z) then
    out ← some_or (CErrorf ("decode " +:+ what +:+ ": %w") [] (some_text (json_error (rs_json resp))))
            (Unmarshal (rs_json resp));
    mret (Some out)
  else if decide (rs_status resp = 204%Z) then mret None
  else if decide (rs_status resp = 401%Z) then cfail ErrAuth401
  else cfail (http_error "GET" url resp).

(** The NewObject shape of the answer to a POST. *)
Record CoGroupCreateResponse := mkCoGroupCreateResponse {
  New_ResponseType : string;
  New_Version : string;
  New_ObjectType : string;
  New_Id : string }.
#[export] Instance new_object_target : JTarget CoGroupCreateResponse :=
  target_of (mkCoGroupCreateResponse "" "" "" "")
    (make mkCoGroupCreateResponse ⊙ ("ResponseType", New_ResponseType) ⊙ ("Version", New_Version)
       ⊙ ("ObjectType", New_ObjectType) ⊙ ("Id", New_Id))%json.

(** The switch on the status of a POST, [what] and [obj] as the messages name the object. *)
Definition new_object (what obj method url : string) (resp : RegResponse) : CM Z :=
  if decide (rs_status resp = 201%Z ∨ rs_status resp = 200%Z) then
    out ← some_or (CErrorf ("decode " +:+ what +:+ ": %w: %s") [rs_text resp]
                    (some_text (json_error (rs_json resp)))) (Unmarshal (rs_json resp));
    some_or (CErrorf ("parse " +:+ obj +:+ " id %q: %w") [New_Id out] (some_text (scan_error (New_Id out))))
      (Sscanf_d (New_Id out))
  else if decide (rs_status resp = 401%Z) then cfail ErrAuth401
  else cfail (http_error method url resp).
Definition decodeNewObjectID : string → string → RegResponse → CM Z := new_object "create response" "object".

Definition post_object c (what obj url : string) (body : Json) : CM Z :=
  resp ← Do c "POST" url (Some body); new_object what obj "POST" url resp.

(** The switch on the status of a DELETE. *)
Definition delete_object c (url : string) : CM unit :=
  resp ← Do c "DELETE" url None;
  if decide (rs_status resp = 200%Z ∨ rs_status resp = 204%Z) then mret tt
  else if decide (rs_status resp = 401%Z) then cfail ErrAuth401
  else if decide (rs_status resp = 404%Z) then cfail ErrNoRecord
  else cfail (http_error "DELETE" url resp).

(** The id of the first element the loop takes, 0 without one. *)
Definition first_id {A} (P : A → Prop) `{!∀ x, Decision (P x)} (id : A → Z) (xs : list A) : Z :=
  default 0%Z (id <$> head (filter P xs)).

(** ** people.go *)

Record CreatePersonResponseEntry := mkCreatePersonResponseEntry {
  Entry_Identifier : string;
  Entry_Type : string;
  Entry_Login : bool;
  Entry_Status : string }.
#[export] Instance entry_target : JTarget CreatePersonResponseEntry :=
  target_of (mkCreatePersonResponseEntry "" "" false "")
    (make mkCreatePersonResponseEntry ⊙ ("identifier", Entry_Identifier) ⊙ ("type", Entry_Type)
       ⊙ ("login", Entry_Login) ⊙ ("status", Entry_Status))%json.

Definition CreatePerson c (body : Json) : CM (list CreatePersonResponseEntry) :=
  let u := coreAPI c "/people" in
  resp ← Do c "POST" u (Some body);
  if decide (rs_status resp = 201%Z ∨ rs_status resp = 200%Z) then
    some_or (CErrorf "decode create-person response: %w: %s" [rs_text resp]
              (some_text (json_error (rs_json resp)))) (Unmarshal (rs_json resp))
  else if decide (rs_status resp = 401%Z) then cfail ErrAuth401
  else cfail (http_error "POST" u resp).

Definition person_url c (identifier : string) : string := coreAPI c ("/people/" +:+ identifier).

Definition GetPersonComposite c (identifier : string) : CM RawMessage :=
  let u := person_url c identifier in
  resp ← Do c "GET" u None;
  if decide (rs_status resp = 200%Z) then mret (rs_json resp)
  else if decide (rs_status resp = 401%Z) then cfail ErrAuth401
  else if decide (rs_status resp = 404%Z) then cfail ErrNoRecord
  else cfail (http_error "GET" u resp).

Definition UpdatePerson c (identifier : string) (body : Json) : CM RawMessage :=
  let u := person_url c identifier in
  resp ← Do c "PUT" u (Some body);
  if decide (rs_status resp = 200%Z) then mret (rs_json resp)
  else if decide (rs_status resp = 401%Z) then cfail ErrAuth401
  else if decide (rs_status resp = 404%Z) then cfail ErrNoRecord
  else cfail (http_error "PUT" u resp).

Definition DeletePerson c (identifier : string) : CM unit := delete_object c (person_url c identifier).

Record CoPersonListOne := mkCoPersonListOne {
  Person_Version : string;
  Person_Id : Z;
  Person_CoId : Z;
  Person_Status : string }.
#[export] Instance person_target : JTarget CoPersonListOne :=
  target_of (mkCoPersonListOne "" 0 0 "")
    (make mkCoPersonListOne ⊙ ("Version", Person_Version) ⊙ ("Id", Person_Id)
       ⊙ ("CoId", Person_CoId) ⊙ ("Status", Person_Status))%json.
Record CoPersonListResponse := mkCoPersonListResponse {
  PersonList_ResponseType : string;
  PersonList_Version : string;
  CoPeople : list CoPersonListOne }.
#[export] Instance person_list_target : JTarget CoPersonListResponse :=
  target_of (mkCoPersonListResponse "" "" [])
    (make mkCoPersonListResponse ⊙ ("ResponseType", PersonList_ResponseType)
       ⊙ ("Version", PersonList_Version) ⊙ ("CoPeople", CoPeople))%json.

Definition email_url c (email : string) : string :=
  restAPI c ("/co_people.json?coid=" +:+ FormatInt (COID c) +:+ "&search.mail=" +:+ QueryEscape email).

Definition FindCoPersonByEmail c (email : string) : CM (list CoPersonListOne) :=
  let u := email_url c email in
  resp ← Do c "GET" u None;
  if decide (rs_status resp = 200%Z) then
    out ← some_or (CErrorf "decode co_people list: %w" [] (some_text (json_error (rs_json resp))))
            (Unmarshal (rs_json resp));
    mret (CoPeople out)
  else if decide (rs_status resp = 204%Z) then mret []
  else if decide (rs_status resp = 401%Z) then cfail ErrAuth401
  else if decide (rs_status resp = 404%Z) then cfail ErrNoRecord
  else cfail (http_error "GET" u resp).

(** ** identifiers.go *)

Record IdentifierParent := mkIdentifierParent { Parent_Type : string; Parent_Id : Z }.
#[export] Instance parent_target : JTarget IdentifierParent :=
  target_of (mkIdentifierParent "" 0)
    (make mkIdentifierParent ⊙ ("Type", Parent_Type) ⊙ ("Id", Parent_Id))%json.
Definition js_parent (p : IdentifierParent) : Json :=
  JsObj [("Type", JsStr (Parent_Type p)); ("Id", js_int (Parent_Id p))].

(** The envelope of a POST of one object. *)
Definition envelope (requestType : string) (object : Json) : Json :=
  JsObj [("RequestType", JsStr requestType); ("Version", JsStr restAPIVersion); (requestType, JsArr [object])].

Definition IdentifierCreateOne (value typ : string) (login : bool) (person : IdentifierParent) : Json :=
  JsObj [("Version", JsStr restAPIVersion); ("Identifier", JsStr value); ("Type", JsStr typ);
         ("Login", JsBool login); ("Status", JsStr "Active"); ("Person", js_parent person)].
Definition IdentifierCreateRequest (value typ : string) (login : bool) (person : IdentifierParent) : Json :=
  envelope "Identifiers" (IdentifierCreateOne value typ login person).

Definition CreateIdentifierOnGroup c (value identifierType : string) (coGroupId : Z) : CM Z :=
  post_object c "identifier create response" "identifier" (restAPI c "/identifiers.json")
    (IdentifierCreateRequest value identifierType false (mkIdentifierParent "Group" coGroupId)).

Record IdentifierListOne := mkIdentifierListOne {
  Ident_Version : string;
  Ident_Id : Z;
  Ident_Identifier : string;
  Ident_Type : string;
  Ident_Status : string }.
#[export] Instance ident_target : JTarget IdentifierListOne :=
  target_of (mkIdentifierListOne "" 0 "" "" "")
    (make mkIdentifierListOne ⊙ ("Version", Ident_Version) ⊙ ("Id", Ident_Id)
       ⊙ ("Identifier", Ident_Identifier) ⊙ ("Type", Ident_Type) ⊙ ("Status", Ident_Status))%json.
Record IdentifierListResponse := mkIdentifierListResponse {
  IdentList_ResponseType : string;
  IdentList_Version : string;
  Identifiers : list IdentifierListOne }.
#[export] Instance ident_list_target : JTarget IdentifierListResponse :=
  target_of (mkIdentifierListResponse "" "" [])
    (make mkIdentifierListResponse ⊙ ("ResponseType", IdentList_ResponseType)
       ⊙ ("Version", IdentList_Version) ⊙ ("Identifiers", Identifiers))%json.

Definition group_identifiers_url c (coGroupId : Z) : string :=
  restAPI c ("/identifiers.json?cogroupid=" +:+ FormatInt coGroupId).
Definition person_identifiers_url c (coPersonID : Z) : string :=
  restAPI c ("/identifiers.json?copersonid=" +:+ FormatInt coPersonID).

Definition FindIdentifierOnGroup c (coGroupId : Z) (identifierType : string) : CM Z :=
  out ← get_list c "identifiers list" (group_identifiers_url c coGroupId);
  mret (first_id (λ i, Ident_Type i = identifierType) Ident_Id (from_option Identifiers [] out)).

Definition FindIdentifierValueOnPerson c (coPersonID : Z) (identifierType : string) : CM string :=
  out ← get_list c "identifiers list" (person_identifiers_url c coPersonID);
  mret (default "" (Ident_Identifier <$>
          head (filter (λ i, Ident_Type i = identifierType) (from_option Identifiers [] out)))).

(** ** groups.go *)

Definition CoGroupCreateOne c (name description : string) : Json :=
  JsObj [("Version", JsStr restAPIVersion); ("CoId", js_int (COID c)); ("Name", JsStr name);
         ("Description", JsStr description); ("Open", JsBool false); ("Status", JsStr "Active");
         ("GroupType", JsStr "CL"); ("Auto", JsBool false)].
Definition CoGroupCreateRequest c (name description : string) : Json :=
  envelope "CoGroups" (CoGroupCreateOne c name description).

Definition CreateCoGroup c (name description : string) : CM Z :=
  post_object c "co_group create response" "co_group" (restAPI c "/co_groups.json")
    (CoGroupCreateRequest c name description).

Record CoGroupReadOne := mkCoGroupReadOne {
  Group_Version : string;
  Group_Id : Z;
  Group_CoId : Z;
  Group_Name : string }.
#[export] Instance group_target : JTarget CoGroupReadOne :=
  target_of (mkCoGroupReadOne "" 0 0 "")
    (make mkCoGroupReadOne ⊙ ("Version", Group_Version) ⊙ ("Id", Group_Id)
       ⊙ ("CoId", Group_CoId) ⊙ ("Name", Group_Name))%json.
Record CoGroupListResponse := mkCoGroupListResponse {
  GroupList_ResponseType : string;
  GroupList_Version : string;
  CoGroups : list CoGroupReadOne }.
#[export] Instance group_list_target : JTarget CoGroupListResponse :=
  target_of (mkCoGroupListResponse "" "" [])
    (make mkCoGroupListResponse ⊙ ("ResponseType", GroupList_ResponseType)
       ⊙ ("Version", GroupList_Version) ⊙ ("CoGroups", CoGroups))%json.

Definition groups_url c : string := restAPI c ("/co_groups.json?coid=" +:+ FormatInt (COID c)).

Definition FindCoGroupByName c (name : string) : CM Z :=
  out ← get_list c "co_groups list" (groups_url c);
  mret (first_id (λ g, Group_Name g = name) Group_Id (from_option CoGroups [] out)).

Definition DeleteCoGroup c (id : Z) : CM unit :=
  delete_object c (restAPI c ("/co_groups/" +:+ FormatInt id +:+ ".json")).

(** ** group_members.go *)

Definition CoGroupMemberCreateOne (coPersonId coGroupId : Z) : Json :=
  JsObj [("Version", JsStr restAPIVersion); ("Person", js_parent (mkIdentifierParent "CO" coPersonId));
         ("CoGroupId", js_int coGroupId); ("Member", JsBool true); ("Owner", JsBool true)].
Definition CoGroupMemberCreateRequest (coPersonId coGroupId : Z) : Json :=
  envelope "CoGroupMembers" (CoGroupMemberCreateOne coPersonId coGroupId).

Definition CreateCoGroupMember c (coPersonId coGroupId : Z) : CM Z :=
  post_object c "co_group_member response" "co_group_member" (restAPI c "/co_group_members.json")
    (CoGroupMemberCreateRequest coPersonId coGroupId).

Record CoGroupMemberListOne := mkCoGroupMemberListOne {
  Member_Version : string;
  Member_Id : Z;
  Member_Person : IdentifierParent;
  Member_CoGroupId : Z;
  Member_Member : bool;
  Member_Owner : bool }.
#[export] Instance member_target : JTarget CoGroupMemberListOne :=
  target_of (mkCoGroupMemberListOne "" 0 (mkIdentifierParent "" 0) 0 false false)
    (make mkCoGroupMemberListOne ⊙ ("Version", Member_Version) ⊙ ("Id", Member_Id)
       ⊙ ("Person", Member_Person) ⊙ ("CoGroupId", Member_CoGroupId)
       ⊙ ("Member", Member_Member) ⊙ ("Owner", Member_Owner))%json.
Record CoGroupMemberListResponse := mkCoGroupMemberListResponse {
  MemberList_ResponseType : string;
  MemberList_Version : string;
  CoGroupMembers : list CoGroupMemberListOne }.
#[export] Instance member_list_target : JTarget CoGroupMemberListResponse :=
  target_of (mkCoGroupMemberListResponse "" "" [])
    (make mkCoGroupMemberListResponse ⊙ ("ResponseType", MemberList_ResponseType)
       ⊙ ("Version", MemberList_Version) ⊙ ("CoGroupMembers", CoGroupMembers))%json.

Definition member_url c (coGroupId coPersonId : Z) : string :=
  restAPI c ("/co_group_members.json?cogroupid=" +:+ FormatInt coGroupId +:+ "&copersonid=" +:+ FormatInt coPersonId).

Definition FindCoGroupMember c (coGroupId coPersonId : Z) : CM Z :=
  out ← get_list c "co_group_members list" (member_url c coGroupId coPersonId);
  mret (first_id (λ m, Member_CoGroupId m = coGroupId ∧ Parent_Id (Member_Person m) = coPersonId) Member_Id
          (from_option CoGroupMembers [] out)).

(** ** unix_cluster.go *)

Definition UnixClusterGroupCreateOne c (coGroupId : Z) : Json :=
  JsObj [("Version", JsStr restAPIVersion); ("UnixClusterId", js_int (UnixClusterID c)); ("CoGroupId", js_int coGroupId)].
Definition UnixClusterGroupCreateRequest c (coGroupId : Z) : Json :=
  envelope "UnixClusterGroups" (UnixClusterGroupCreateOne c coGroupId).

Record UnixClusterGroupReadOne := mkUnixClusterGroupReadOne {
  Binding_Version : string;
  Binding_Id : Z;
  Binding_UnixClusterId : Z;
  Binding_CoGroupId : Z }.
#[export] Instance binding_target : JTarget UnixClusterGroupReadOne :=
  target_of (mkUnixClusterGroupReadOne "" 0 0 0)
    (make mkUnixClusterGroupReadOne ⊙ ("Version", Binding_Version) ⊙ ("Id", Binding_Id)
       ⊙ ("UnixClusterId", Binding_UnixClusterId) ⊙ ("CoGroupId", Binding_CoGroupId))%json.
Record UnixClusterGroupListResponse := mkUnixClusterGroupListResponse {
  BindingList_ResponseType : string;
  BindingList_Version : string;
  UnixClusterGroups : list UnixClusterGroupReadOne }.
#[export] Instance binding_list_target : JTarget UnixClusterGroupListResponse :=
  target_of (mkUnixClusterGroupListResponse "" "" [])
    (make mkUnixClusterGroupListResponse ⊙ ("ResponseType", BindingList_ResponseType)
       ⊙ ("Version", BindingList_Version) ⊙ ("UnixClusterGroups", UnixClusterGroups))%json.

Definition binding_url c (coGroupId : Z) : string :=
  restAPI c ("/unix_cluster/unix_cluster_groups.json?cogroupid=" +:+ FormatInt coGroupId).

Definition FindUnixClusterGroup c (coGroupId : Z) : CM Z :=
  out ← get_list c "unix_cluster_groups list" (binding_url c coGroupId);
  mret (first_id (λ g, Binding_UnixClusterId g = UnixClusterID c) Binding_Id (from_option UnixClusterGroups [] out)).

Definition CreateUnixClusterGroup c (coGroupId : Z) : CM Z :=
  post_object c "unix_cluster_group response" "unix_cluster_group"
    (restAPI c "/unix_cluster/unix_cluster_groups.json") (UnixClusterGroupCreateRequest c coGroupId).

Definition DeleteUnixClusterGroup c (id : Z) : CM unit :=
  delete_object c (restAPI c ("/unix_cluster/unix_cluster_groups/" +:+ FormatInt id +:+ ".json")).

(** ** org_identities.go *)

Definition CreateOrgIdentity c : CM Z :=
  let u := restAPI c "/org_identities.json" in
  resp ← Do c "POST" u (Some (JsObj [
    ("OrgIdentities", JsArr [JsObj [("CoId", js_int (COID c)); ("Version", JsStr restAPIVersion)]]);
    ("RequestType", JsStr "OrgIdentities"); ("Version", JsStr restAPIVersion)]));
  decodeNewObjectID "POST" u resp.

Definition CreateIdentifierOnOrgIdentity c (value identifierType : string) (orgIdentityID : Z) (login : bool) : CM Z :=
  let u := restAPI c "/identifiers.json" in
  resp ← Do c "POST" u
           (Some (IdentifierCreateRequest value identifierType login (mkIdentifierParent "Org" orgIdentityID)));
  decodeNewObjectID "POST" u resp.

Definition CreateCoOrgIdentityLink c (coPersonID orgIdentityID : Z) : CM Z :=
  let u := restAPI c "/co_org_identity_links.json" in
  resp ← Do c "POST" u (Some (JsObj [
    ("CoOrgIdentityLinks", JsArr [JsObj [("CoPersonId", js_int coPersonID); ("OrgIdentityId", js_int orgIdentityID);
                                         ("Version", JsStr restAPIVersion)]]);
    ("RequestType", JsStr "CoOrgIdentityLinks"); ("Version", JsStr restAPIVersion)]));
  decodeNewObjectID "POST" u resp.
End client.
