(* ===== verification/ComanageProvision.v ===== *)
(** * Provisioning of POSIX accounts in COmanage

    connectors/COmanage/Identity-Provisioner/internal/operations and
    internal/subscribers: for a new account on the configured cluster, find or create the
    person in the registry, their primary group with its identifiers, membership and binding
    to the cluster, then put the account on the person's record and mark it provisioned. A
    handler is one run. Log lines and the attributes of spans are left out. *)

From stdpp Require Import base gmap sets list strings.
From Stdlib Require Import ZArith Ascii.
From S2P Require Import Prelude GoError Models Schema Events IdentityCache Effects.
From S2P Require Import Wire UserService AuthService ProjectService SignerText SlurmTypes Comanage.

(** ** compose.go *)

Record UnixClusterAccountBlock := mkUnixClusterAccountBlock {
  Block_UnixClusterId : Z;
  Block_SyncMode : string;
  Block_Status : string;
  Block_Username : string;
  Block_Uid : Z;
  Block_Gecos : string;
  Block_LoginShell : string;
  Block_HomeDirectory : string;
  Block_PrimaryCoGroupId : Z }.

Definition js_block (b : UnixClusterAccountBlock) : Json :=
  JsObj [("unix_cluster_id", js_int (Block_UnixClusterId b)); ("sync_mode", JsStr (Block_SyncMode b));
         ("status", JsStr (Block_Status b)); ("username", JsStr (Block_Username b));
         ("uid", js_int (Block_Uid b)); ("gecos", JsStr (Block_Gecos b));
         ("login_shell", JsStr (Block_LoginShell b)); ("home_directory", JsStr (Block_HomeDirectory b));
         ("primary_co_group_id", js_int (Block_PrimaryCoGroupId b))].

(** [json.Unmarshal(composite, &top)] with [top] a map of raw messages. *)
Definition top_of (composite : RawMessage) : option RawMap := composite ≫= raw_map.

(** An element of the Identifier array, its type and the loop over the elements. *)
Definition ident_type (ident : RawMap) : string :=
  default "" (Unmarshal (ident ≫= (.!! "type"))).
Definition set_login (username : string) (ident : RawMap) : RawMap :=
  if decide (ident_type ident = "uid") then <["identifier" := JsStr username]> <$> ident else ident.
Definition login_ident (username : string) : RawMap :=
  Some (list_to_map [("identifier", JsStr username); ("type", JsStr "uid"); ("login", JsBool false);
                     ("status", JsStr "A")]).
Definition set_logins (username : string) (idents : list RawMap) : list RawMap :=
  (set_login username <$> idents) ++
  (if decide (Exists (λ i, ident_type i = "uid") idents) then [] else [login_ident username]).

Section compose.
Context `{RG : Registry} `{RE : RegEnv}.

Definition bad_json (format : string) (raw : RawMessage) : cerror :=
  CErrorf format [] (some_text (json_error raw)).

(** An assignment to the nil map panics. *)
Definition mergeUnixClusterAccount (composite : RawMessage) (block : UnixClusterAccountBlock) : CM Json :=
  top ← some_or (bad_json "decode composite: %w" composite) (top_of composite);
  match top with
  | None => panic
  | Some m => mret (marshal_map (Some (<["UnixClusterAccount" := JsArr [js_block block]]> m)))
  end.

Definition mergeLoginIdentifier (composite : RawMessage) (username : string) : CM Json :=
  top ← some_or (bad_json "decode composite: %w" composite) (top_of composite);
  idents ← match top ≫= (.!! "Identifier") with
           | Some raw => some_or (bad_json "decode Identifier array: %w" (Some raw)) (raw_maps raw)
           | None => mret []
           end;
  match top with
  | None => panic
  | Some m =>
      mret (marshal_map (Some (<["Identifier" := JsArr (marshal_map <$> set_logins username idents)]> m)))
  end.

(** The two fields of an identifier that are looked at. *)
Record IdentifierField := mkIdentifierField { Field_Identifier : string; Field_Type : string }.
#[export] Instance identifier_field_target : JTarget IdentifierField :=
  target_of (mkIdentifierField "" "")
    (make mkIdentifierField ⊙ ("identifier", Field_Identifier) ⊙ ("type", Field_Type))%json.

Definition extractIdentifier (composite : RawMessage) (identifierType : string) : CM string :=
  top ← some_or (bad_json "decode composite: %w" composite) (top_of composite);
  match top ≫= (.!! "Identifier") with
  | None => mret ""
  | Some raw =>
      idents ← some_or (bad_json "decode Identifier array: %w" (Some raw)) (Unmarshal (Some raw));
      mret (default "" (Field_Identifier <$> head (filter (λ i, Field_Type i = identifierType) idents)))
  end.

Record OrgIdentityField := mkOrgIdentityField { Org_Identifier : list IdentifierField }.
#[export] Instance org_identity_target : JTarget OrgIdentityField :=
  target_of (mkOrgIdentityField []) (make mkOrgIdentityField ⊙ ("Identifier", Org_Identifier))%json.
Record OrgIdentitiesField := mkOrgIdentitiesField { Top_OrgIdentity : list OrgIdentityField }.
#[export] Instance org_identities_target : JTarget OrgIdentitiesField :=
  target_of (mkOrgIdentitiesField []) (make mkOrgIdentitiesField ⊙ ("OrgIdentity", Top_OrgIdentity))%json.

Definition extractOrgIdentifierValues (composite : RawMessage) (identifierType : string) : CM (list string) :=
  top ← some_or (bad_json "decode composite for org identifiers: %w" composite) (Unmarshal composite);
  mret (Top_OrgIdentity top ≫= λ org,
          Field_Identifier <$> filter (λ i, Field_Type i = identifierType) (Org_Identifier org)).

Record MetaField := mkMetaField { Meta_Id : Z }.
#[export] Instance meta_target : JTarget MetaField :=
  target_of (mkMetaField 0) (make mkMetaField ⊙ ("id", Meta_Id))%json.
Record CoPersonField := mkCoPersonField { CoPerson_Meta : MetaField }.
#[export] Instance co_person_target : JTarget CoPersonField :=
  target_of (mkCoPersonField (mkMetaField 0)) (make mkCoPersonField ⊙ ("meta", CoPerson_Meta))%json.
Record TopCoPerson := mkTopCoPerson { Top_CoPerson : CoPersonField }.
#[export] Instance top_co_person_target : JTarget TopCoPerson :=
  target_of (mkTopCoPerson (mkCoPersonField (mkMetaField 0)))
    (make mkTopCoPerson ⊙ ("CoPerson", Top_CoPerson))%json.

Definition extractCoPersonID (composite : RawMessage) : CM Z :=
  top ← some_or (bad_json "decode composite for CoPerson.id: %w" composite) (Unmarshal composite);
  mret (Meta_Id (CoPerson_Meta (Top_CoPerson top))).
End compose.

Section provision.
Context `{E : Env} `{RG : Registry} `{RE : RegEnv} (c : Config).
Implicit Types (ctx : AuditCtx) (cu : ComputeClusterUser) (user : User).

(** ** ensure_posix_account.go: the audit trail *)

Definition cu_event cu (eventType details : string) : option AuditEvent :=
  Some (mkAuditEvent "" eventType zero_time (ComputeClusterUser_ID cu) "compute_cluster_user" details "" "" "" "").

Definition audit ctx cu (eventType details : string) : CM unit :=
  _ ← ctry (pcore (CreateAuditEvent ctx (cu_event cu eventType details))); mret tt.

(** [err] is nil in one of the calls. *)
Definition dlq ctx cu (step : string) (err : option cerror) : CM unit :=
  ctx ← start_span ctx;
  audit ctx cu "ComanageProvisioningFailed"
    ("step=" +:+ step +:+ " err=" +:+ from_option CError "<nil>" err).

(** A call whose failure is put on record before it is returned. *)
Definition or_dlq {A} ctx cu (step : string) (m : CM A) : CM A :=
  r ← ctry m;
  match r with
  | inr a => mret a
  | inl e => _ ← dlq ctx cu step (Some e); cfail e
  end.

(** ** lookup.go *)

Definition comanageIdentitySource : string := "comanage".

Definition findStoredPersonID ctx (userID : string) : CM string :=
  _ ← start_span ctx;
  idents ← cwrap "list user identities: %w" (pcore (ListUserIdentitiesForUser userID));
  mret (default "" (UserIdentity_ExternalID <$>
    head (filter (λ id, UserIdentity_Source id = comanageIdentitySource ∧ UserIdentity_ExternalID id ≠ "") idents))).

Definition storePersonID ctx (userID personID : string) : CM unit :=
  ctx ← start_span ctx;
  existing ← findStoredPersonID ctx userID;
  if decide (existing ≠ "") then mret tt
  else
    _ ← pcore (CreateUserIdentity
                 (Some (mkUserIdentity "" userID comanageIdentitySource personID "" "" "" zero_time)));
    mret tt.

Definition findByEmailExact (email : string) : CM Z :=
  if decide (email = "") then mret 0%Z
  else
    r ← ctry (FindCoPersonByEmail c email);
    match r with
    | inl e => if is_no_record e then mret 0%Z else cfail e
    | inr candidates =>
        mret (first_id (λ p, Person_CoId p = COID c ∧ Person_Status p = "Active") Person_Id candidates)
    end.

(** ** ensure_posix_account.go: the person *)

Definition getPersonComposite ctx (personID : string) : CM RawMessage :=
  _ ← start_span ctx; GetPersonComposite c personID.

Definition findOIDCSub (userID : string) : CM string :=
  idents ← cwrap "list user identities: %w" (pcore (ListUserIdentitiesForUser userID));
  mret (match head (filter (λ id, UserIdentity_Source id = "oidc") idents) with
        | Some id => if decide (UserIdentity_OIDCSub id ≠ "") then UserIdentity_OIDCSub id else UserIdentity_ExternalID id
        | None => ""
        end).

(** Keys of a map are written in order. *)
Definition buildCreatePersonBody user (sub : string) : Json :=
  JsObj ([("CoPerson", JsObj [("co_id", js_int (COID c)); ("status", JsStr "A")]);
          ("EmailAddress", JsArr [JsObj [("mail", JsStr (User_Email user)); ("type", JsStr "official");
                                         ("verified", JsBool true)]])] ++
         (if decide (sub = "") then []
          else [("Identifier", JsArr [JsObj [("identifier", JsStr sub); ("login", JsBool true);
                                             ("status", JsStr "A"); ("type", JsStr "oidcsub")]])]) ++
         [("Name", JsArr [JsObj [("family", JsStr (User_LastName user)); ("given", JsStr (User_FirstName user));
                                 ("language", JsStr "en"); ("primary_name", JsBool true);
                                 ("type", JsStr "official")]])]).

(** One round of [waitForCreatedPersonID]. *)
Definition wait_round (email : string) : CM (option (string * RawMessage)) :=
  r ← ctry (findByEmailExact email);
  match r with
  | inl _ => mret None
  | inr coPersonID =>
      if decide (coPersonID = 0%Z) then mret None
      else
        r ← ctry (FindIdentifierValueOnPerson c coPersonID (PersonIDType c));
        match r with
        | inl _ => mret None
        | inr personID =>
            if decide (personID = "") then mret None
            else
              r ← ctry (GetPersonComposite c personID);
              match r with
              | inl _ => mret None
              | inr composite => mret (Some (personID, composite))
              end
        end
  end.

Fixpoint wait_rounds (email : string) (rounds : nat) : CM (option (string * RawMessage)) :=
  match rounds with
  | O => mret None
  | S n =>
      r ← wait_round email;
      match r with
      | Some found => mret (Some found)
      | None => wait_rounds email n
      end
  end.

(** There are four delays. *)
Definition waitForCreatedPersonID (email : string) : CM (option (string * RawMessage)) := wait_rounds email 4.

(** The record the stored identifier leads to, if it is still there. *)
Definition lookup_stored ctx user : CM (option (string * RawMessage)) :=
  stored ← cwrap "stored lookup: %w" (findStoredPersonID ctx (User_ID user));
  if decide (stored = "") then mret None
  else
    r ← ctry (GetPersonComposite c stored);
    match r with
    | inr composite => mret (Some (stored, composite))
    | inl e => if is_no_record e then mret None else cfail (CErrorf "get composite for stored id: %w" [] e)
    end.

(** The record the search for the address leads to. *)
Definition lookup_email user : CM (option (string * RawMessage)) :=
  if decide (User_Email user = "") then mret None
  else
    r ← ctry (findByEmailExact (User_Email user));
    coPersonID ← match r with
                 | inr id => mret id
                 | inl e => if is_no_record e then mret 0%Z else cfail (CErrorf "email search: %w" [] e)
                 end;
    if decide (coPersonID = 0%Z) then mret None
    else
      personID ← cwrapf "find %s on CoPerson %d: %w" [PersonIDType c; FormatInt coPersonID]
                   (FindIdentifierValueOnPerson c coPersonID (PersonIDType c));
      if decide (personID = "") then mret None
      else
        composite ← cwrapf "get composite by %s %s: %w" [PersonIDType c; personID] (GetPersonComposite c personID);
        mret (Some (personID, composite)).

(** [fmt.Sprintf("%+v", resp)]. *)
Definition entries_text (resp : list CreatePersonResponseEntry) : string :=
  "[" +:+ String.concat " " ((λ r, "{Identifier:" +:+ Entry_Identifier r +:+ " Type:" +:+ Entry_Type r +:+
    " Login:" +:+ (if Entry_Login r then "true" else "false") +:+ " Status:" +:+ Entry_Status r +:+ "}") <$> resp)
  +:+ "]".

Definition create_person user (sub : string) : CM (string * option RawMessage) :=
  resp ← cwrap "create coperson: %w" (CreatePerson c (buildCreatePersonBody user sub));
  match head (filter (λ r, Entry_Type r = PersonIDType c) resp) with
  | Some r => mret (Entry_Identifier r, None)
  | None =>
      found ← (if decide (User_Email user = "") then mret None else waitForCreatedPersonID (User_Email user));
      match found with
      | Some (personID, composite) => mret (personID, Some composite)
      | None => cfail (CErr (NewError "POST /people returned no %s identifier: %+v" [PersonIDType c; entries_text resp]))
      end
  end.

(** The identifier of the person, their record when it was read, and whether they are new. *)
Definition lookupOrCreateCoPerson ctx user (sub : string) : CM (string * option RawMessage * bool) :=
  ctx ← start_span ctx;
  stored ← lookup_stored ctx user;
  match stored with
  | Some (personID, composite) => mret (personID, Some composite, false)
  | None =>
      found ← lookup_email user;
      match found with
      | Some (personID, composite) => mret (personID, Some composite, false)
      | None => '(personID, composite) ← create_person user sub; mret (personID, composite, true)
      end
  end.

Definition ensureOIDCLinkage ctx cu (coPersonID : Z) (composite : RawMessage) (sub : string) : CM unit :=
  ctx ← start_span ctx;
  if decide (sub = "") then mret tt
  else
    r ← ctry (extractOrgIdentifierValues composite "oidcsub");
    if decide (sub ∈ match r with inr existing => existing | inl _ => [] end) then mret tt
    else
      orgID ← or_dlq ctx cu "create_org_identity" (CreateOrgIdentity c);
      _ ← or_dlq ctx cu "create_org_identity_identifier" (CreateIdentifierOnOrgIdentity c sub "oidcsub" orgID true);
      _ ← or_dlq ctx cu "link_org_identity" (CreateCoOrgIdentityLink c coPersonID orgID);
      audit ctx cu "ComanageOIDCLinkageCreated"
        ("co_person_id=" +:+ FormatInt coPersonID +:+ " org_identity_id=" +:+ FormatInt orgID).

(** ** ensure_posix_account.go: the group *)

Definition findOrCreateCoGroup ctx (name : string) : CM Z :=
  _ ← start_span ctx;
  id ← FindCoGroupByName c name;
  if decide (id = 0%Z) then CreateCoGroup c name ("Primary group for " +:+ name) else mret id.

Definition findOrCreateIdentifier ctx cu (coGroupID : Z) (value identifierType : string) : CM unit :=
  _ ← start_span ctx;
  existing ← or_dlq ctx cu ("find_" +:+ identifierType +:+ "_identifier")
               (FindIdentifierOnGroup c coGroupID identifierType);
  if decide (existing ≠ 0%Z) then mret tt
  else
    _ ← or_dlq ctx cu ("create_" +:+ identifierType +:+ "_identifier")
          (CreateIdentifierOnGroup c value identifierType coGroupID);
    mret tt.

Definition findOrCreateCoGroupMember ctx cu (coGroupID coPersonID : Z) : CM unit :=
  _ ← start_span ctx;
  existing ← or_dlq ctx cu "find_co_group_member" (FindCoGroupMember c coGroupID coPersonID);
  if decide (existing ≠ 0%Z) then mret tt
  else
    _ ← or_dlq ctx cu "create_co_group_member" (CreateCoGroupMember c coPersonID coGroupID);
    mret tt.

(** The answer of a search that found something. *)
Definition found_id (r : cerror + Z) : bool :=
  match r with inr id => negb (id =? 0)%Z | inl _ => false end.
Definition is_4xx (e : cerror) : bool :=
  match http_status e with Some s => (400 <=? s)%Z && (s <? 500)%Z | None => false end.

Definition findOrCreateUnixClusterGroup ctx cu (coGroupID : Z) : CM unit :=
  ctx ← start_span ctx;
  existing ← ctry (FindUnixClusterGroup c coGroupID);
  if found_id existing then mret tt
  else
    created ← ctry (CreateUnixClusterGroup c coGroupID);
    match created with
    | inr _ => mret tt
    | inl e =>
        if is_4xx e then mret tt
        else
          again ← (if decide (http_status e = Some 500%Z) then ctry (FindUnixClusterGroup c coGroupID)
                   else mret (inr 0%Z));
          if found_id again then mret tt
          else _ ← dlq ctx cu "create_unix_cluster_group" (Some e); cfail e
    end.

Definition updatePerson ctx (personID : string) (body : Json) : CM unit :=
  _ ← start_span ctx; _ ← UpdatePerson c personID body; mret tt.

(** ** ensure_posix_account.go: the account *)

Definition account_block cu (uid coGroupID : Z) : UnixClusterAccountBlock :=
  mkUnixClusterAccountBlock (UnixClusterID c) "M" "A" (ComputeClusterUser_LocalUsername cu) uid ""
    (DefaultShell c) (HomedirPrefix c +:+ ComputeClusterUser_LocalUsername cu) coGroupID.

(** The numeric ids of the person's record, each failure on record. *)
Definition person_ids ctx cu (personID : string) (composite : RawMessage) : CM (string * Z * Z) :=
  uidnumber ← or_dlq ctx cu "extract_uidnumber" (extractIdentifier composite "uidnumber");
  _ ← (if decide (uidnumber = "")
       then or_dlq ctx cu "missing_uidnumber"
              (cfail (A:=unit) (CErr (NewError "uidnumber identifier missing on CoPerson %s" [personID])))
       else mret tt);
  uidInt ← or_dlq ctx cu "parse_uidnumber" (some_or (some_text (scan_error uidnumber)) (ParseInt uidnumber));
  r ← ctry (extractCoPersonID composite);
  match r with
  | inl e =>
      _ ← dlq ctx cu "extract_coperson_id" (Some e);
      cfail (CErrorf "extract CoPerson.meta.id: %w" [] e)
  | inr coPersonID =>
      if decide (coPersonID = 0%Z) then
        _ ← dlq ctx cu "extract_coperson_id" None;
        cfail (CErr (NewError "extract CoPerson.meta.id: %!w(<nil>)" []))
      else mret (uidnumber, uidInt, coPersonID)
  end.

(** The second half: the account goes on the record as it is now. *)
Definition attach_account ctx cu (personID : string) (uidInt coGroupID : Z) : CM unit :=
  fresh ← or_dlq ctx cu "refetch_composite" (getPersonComposite ctx personID);
  putBody ← or_dlq ctx cu "merge_composite" (mergeUnixClusterAccount fresh (account_block cu uidInt coGroupID));
  putBody ← or_dlq ctx cu "merge_login_identifier"
              (mergeLoginIdentifier (Some putBody) (ComputeClusterUser_LocalUsername cu));
  _ ← or_dlq ctx cu "put_composite" (updatePerson ctx personID putBody);
  _ ← audit ctx cu "ComanageClusterAccountAttached"
        ("comanage_id=" +:+ personID +:+ " username=" +:+ ComputeClusterUser_LocalUsername cu +:+
         " uid=" +:+ FormatInt uidInt);
  _ ← ctry (pcore (MarkComputeClusterUserProvisioned (ComputeClusterUser_ID cu)));
  mret tt.

Definition ensurePOSIXAccountImpl ctx cu : CM unit :=
  user ← cwrap "get custos user: %w" (pcore (GetUser (ComputeClusterUser_UserID cu)));
  sub ← or_dlq ctx cu "find_oidc_sub" (findOIDCSub (ComputeClusterUser_UserID cu));
  '(personID, found, created) ← or_dlq ctx cu "lookup_or_create_coperson" (lookupOrCreateCoPerson ctx user sub);
  _ ← (if (created : bool)
       then audit ctx cu "ComanageCoPersonCreated" ("comanage_id=" +:+ personID +:+ " email=" +:+ User_Email user)
       else mret tt);
  _ ← ctry (storePersonID ctx (ComputeClusterUser_UserID cu) personID);
  composite ← match found with
              | Some composite => mret composite
              | None => or_dlq ctx cu "get_composite" (getPersonComposite ctx personID)
              end;
  '(uidnumber, uidInt, coPersonID) ← person_ids ctx cu personID composite;
  _ ← ensureOIDCLinkage ctx cu coPersonID composite sub;
  coGroupID ← findOrCreateCoGroup ctx (ComputeClusterUser_LocalUsername cu);
  _ ← findOrCreateIdentifier ctx cu coGroupID (ComputeClusterUser_LocalUsername cu) "uid";
  _ ← findOrCreateIdentifier ctx cu coGroupID uidnumber "gidnumber";
  _ ← findOrCreateCoGroupMember ctx cu coGroupID coPersonID;
  _ ← findOrCreateUnixClusterGroup ctx cu coGroupID;
  attach_account ctx cu personID uidInt coGroupID.

(** ** orchestrator.go *)

Definition EnsurePOSIXAccount ctx cu : CM unit := ctx ← start_span ctx; ensurePOSIXAccountImpl ctx cu.

(** ** subscribers/cluster_user.go *)

(** The payload of an event: a pointer to an account, perhaps nil, or something else. *)
Inductive ClusterUserPayload :=
  | AccountPtr (cu : option ComputeClusterUser)
  | OtherPayload.

Definition handleClusterUserCreate ctx (payload : ClusterUserPayload) : CM unit :=
  ctx ← start_span (WithSource ctx "comanage");
  match payload with
  | OtherPayload => mret tt
  | AccountPtr None => panic
  | AccountPtr (Some cu) =>
      if decide (ComputeClusterUser_ComputeClusterID cu ≠ CustosClusterID c) then mret tt
      else
        _ ← audit ctx cu "ComanageProvisioningStarted"
              ("cluster_user_id=" +:+ ComputeClusterUser_ID cu +:+ " user_id=" +:+ ComputeClusterUser_UserID cu);
        _ ← ctry (EnsurePOSIXAccount ctx cu);
        mret tt
  end.
End provision.
