(* ===== verification/ComanageTheorems.v ===== *)
(** * What the provisioner does, whatever fails

    Each fact holds for any registry, any answers, and requests, statements and commits that
    fail at any point. The parts of a run are taken one by one: [CRel R m] says that [m]
    moves the state along the preorder [R], [Cost n m] that it makes at most [n] requests. *)

From stdpp Require Import base gmap sets list strings.
From Stdlib Require Import ZArith Ascii Lia.
From S2P Require Import Prelude GoError Models Schema Events IdentityCache Effects EffectsLogic.
From S2P Require Import StoreIdentity StoreCluster StoreAuth Wire UserService AuthService ProjectService ServiceApi Scenario.
From S2P Require Import SignerText SlurmTypes Comanage ComanageProvision.

Set Default Goal Selector "!".

(** ** JSON objects that are written and read again *)

Lemma members_map_list (ms : list (string * Json)) (m : gmap string Json) :
  NoDup ms.*1 → foldl (λ m kv, <[kv.1 := kv.2]> m) m ms = list_to_map ms ∪ m.
Proof.
  revert m. induction ms as [|[k v] ms IH]; intros m Hn; simpl.
  - by rewrite (left_id_L ∅ (∪)).
  - apply NoDup_cons in Hn as [Hk Hn]. rewrite IH by done.
    rewrite <-insert_union_l, insert_union_r; [done|].
    by apply not_elem_of_list_to_map_1.
Qed.

Lemma members_map_marshal (m : gmap string Json) :
  members_map (order_by fst String.le (map_to_list m)) = m.
Proof.
  assert (order_by fst String.le (map_to_list m) ≡ₚ map_to_list m) as Hp by apply order_by_Permutation.
  unfold members_map. rewrite members_map_list.
  - rewrite (right_id_L ∅ (∪)). erewrite list_to_map_proper; [apply list_to_map_to_list|..|exact Hp].
    rewrite Hp. apply NoDup_fst_map_to_list.
  - rewrite Hp. apply NoDup_fst_map_to_list.
Qed.

Lemma raw_map_marshal (m : RawMap) : raw_map (marshal_map m) = Some m.
Proof. destruct m as [m|]; simpl; [|done]. by rewrite members_map_marshal. Qed.

Lemma raw_maps_marshal (ms : list RawMap) : raw_maps (JsArr (marshal_map <$> ms)) = Some ms.
Proof.
  simpl. apply mapM_Some. rewrite Forall2_fmap_l. apply Forall_Forall2_diag, Forall_true.
  apply raw_map_marshal.
Qed.

(** ** Runs *)

Section logic.
Context `{E : Env} `{RG : Registry} `{RE : RegEnv}.
Implicit Types (w : CWorld) (R : relation CWorld).

Definition CRel {A} R (m : CM A) : Prop := ∀ w, R w (m w).2.

Section rules.
Context (R : relation CWorld) `{!PreOrder R} {A B : Type}.
Implicit Types (m : CM A).

Lemma CRel_ret (a : A) : CRel R (mret a).
Proof. intros w. simpl. reflexivity. Qed.
Lemma CRel_fail e : CRel R (cfail (A:=A) e).
Proof. intros w. simpl. reflexivity. Qed.
Lemma CRel_panic : CRel R (panic (A:=A)).
Proof. intros w. simpl. reflexivity. Qed.
Lemma CRel_some_or e (o : option A) : CRel R (some_or e o).
Proof. destruct o; [apply CRel_ret|apply CRel_fail]. Qed.
Lemma CRel_bind m (k : A → CM B) : CRel R m → (∀ a, CRel R (k a)) → CRel R (m ≫= k).
Proof.
  intros Hm Hk w. specialize (Hm w). unfold mbind, CM_bind.
  destruct (m w) as [[a|e|] w1]; simpl in *; [|done..]. etrans; [exact Hm|apply Hk].
Qed.
Lemma CRel_wrapf f args m : CRel R m → CRel R (cwrapf f args m).
Proof. intros Hm w. specialize (Hm w). unfold cwrapf. by destruct (m w) as [[a|e|] w1]. Qed.
Lemma CRel_try m : CRel R m → CRel R (ctry m).
Proof. intros Hm w. specialize (Hm w). unfold ctry. by destruct (m w) as [[a|e|] w1]. Qed.
End rules.

Lemma CRel_weaken {A} R R' (m : CM A) : CRel R m → (∀ w w', R w w' → R' w w') → CRel R' m.
Proof. intros Hm HR w. apply HR, Hm. Qed.

(** The first part of a run moves along [R]; [Q] is asked of where it stops, or goes on to. *)
Lemma bind_ends {A B} R (Q : CWorld → Prop) (m : CM A) (k : A → CM B) w :
  CRel R m → (∀ w1, R w w1 → Q w1) → (∀ a w1, m w = (Done a, w1) → R w w1 → Q (k a w1).2) →
  Q ((m ≫= k) w).2.
Proof.
  intros Hm HQ Hk. specialize (Hm w). unfold mbind, CM_bind.
  destruct (m w) as [[a|e|] w1]; simpl in *; auto.
Qed.

(** ** Requests *)

(** What a call of [Do] does: it repeats one request, at most four times, and returns the
    last answer. *)
Definition requested (rq : RegRequest) (w w' : CWorld) (seg : list Exchange) : Prop :=
  p_core w' = p_core w ∧ p_spans w' = p_spans w ∧ p_log w' = p_log w ++ seg ∧
  Forall (λ x, x_request x = rq) seg.
Definition answers (rq : RegRequest) (seg : list Exchange) (o : Outcome RegResponse) : Prop :=
  match o with
  | Done resp => last seg = Some (mkExchange rq (Some resp))
  | Failed _ => True
  | Panicked => False
  end.

Lemma requested_app rq w w1 w2 s1 s2 :
  requested rq w w1 s1 → requested rq w1 w2 s2 → requested rq w w2 (s1 ++ s2).
Proof.
  intros (A1 & A2 & A3 & A4) (B1 & B2 & B3 & B4). unfold requested.
  rewrite B1, B2, B3, A3, (assoc_L (++)), Forall_app. auto.
Qed.

Lemma doOnce_run c m u b w :
  ∃ seg, requested (request_of c m u b) w (doOnce c m u b w).2 seg ∧ length seg ≤ 1 ∧
    answers (request_of c m u b) seg (doOnce c m u b w).1.
Proof.
  unfold doOnce. destruct (bad_url u) as [t|].
  { exists []. unfold requested. simpl. rewrite (right_id_L [] (++)). split_and!; [done..|lia|done]. }
  unfold exchange. destruct (registry _ _) as [r s].
  destruct (transport _); eexists [_]; unfold requested; simpl; split_and!; done || lia || auto.
Qed.

Lemma retry_run c m u b n resp0 w seg0 :
  last seg0 = Some (mkExchange (request_of c m u b) (Some resp0)) →
  ∃ seg, requested (request_of c m u b) w (retry c m u b n resp0 w).2 seg ∧ length seg ≤ n ∧
    answers (request_of c m u b) (seg0 ++ seg) (retry c m u b n resp0 w).1.
Proof.
  revert resp0 w seg0. induction n as [|n IH]; intros resp0 w seg0 H0; simpl.
  { exists []. unfold requested. rewrite !(right_id_L [] (++)). auto. }
  destruct (doOnce_run c m u b w) as (s1 & Hr & Hl & Ha). unfold mbind, CM_bind.
  destruct (doOnce c m u b w) as [[resp|e|] w1]; simpl in *; [|exists s1; split_and!; [done|lia|done]|done].
  destruct (rs_status resp <? 500)%Z; simpl.
  { exists s1. split_and!; [done|lia|]. rewrite last_app. by rewrite Ha. }
  destruct (IH resp w1 (seg0 ++ s1)) as (s2 & Hr2 & Hl2 & Ha2); [by rewrite last_app, Ha|].
  exists (s1 ++ s2). rewrite length_app, (assoc_L (++)). split_and!; [by eapply requested_app|lia|done].
Qed.

Lemma Do_run c m u b w :
  ∃ seg, requested (request_of c m u b) w (Do c m u b w).2 seg ∧ length seg ≤ 4 ∧
    answers (request_of c m u b) seg (Do c m u b w).1.
Proof.
  unfold Do. destruct (doOnce_run c m u b w) as (s1 & Hr & Hl & Ha). unfold mbind, CM_bind.
  destruct (doOnce c m u b w) as [[resp|e|] w1]; simpl in *; [|exists s1; split_and!; [done|lia|done]|done].
  destruct (_ && _); [|exists s1; simpl; split_and!; [done|lia|done]].
  destruct (retry_run c m u b 3 resp w1 s1 Ha) as (s2 & Hr2 & Hl2 & Ha2).
  exists (s1 ++ s2). rewrite length_app. split_and!; [by eapply requested_app|lia|done].
Qed.

(** A relation that one request, repeated, moves along. *)
Lemma CRel_Do R c m u b :
  (∀ w w' seg, requested (request_of c m u b) w w' seg → R w w') → CRel R (Do c m u b).
Proof. intros HR w. destruct (Do_run c m u b w) as (seg & Hr & _). eauto. Qed.

(** A relation that calls of the core move along. *)
Lemma CRel_pcore {A} R (m : M A) :
  (∀ w, R w (set_pcore (m (p_core w)).2 w)) → CRel R (pcore m).
Proof. intros HR w. specialize (HR w). unfold pcore. by destruct (m (p_core w)). Qed.
End logic.

Ltac crel_step :=
  lazymatch goal with
  | |- ∀ _, _ => intros ?
  | |- CRel _ (mret _) => apply CRel_ret; apply _
  | |- CRel _ (cfail _) => apply CRel_fail; apply _
  | |- CRel _ panic => apply CRel_panic; apply _
  | |- CRel _ (some_or _ _) => apply CRel_some_or; apply _
  | |- CRel _ (_ ≫= _) => apply CRel_bind; [apply _| |]
  | |- CRel _ (cwrapf _ _ _) => apply CRel_wrapf
  | |- CRel _ (ctry _) => apply CRel_try
  | |- CRel _ (if ?b then _ else _) => destruct b
  | |- CRel _ (match ?x with _ => _ end) => destruct x
  | |- CRel _ (let _ := _ in _) => cbv zeta
  | |- CRel _ _ => first [assumption | solve [auto 2 with prov nocore]
                         | solve [eauto 4 with prov typeclass_instances nocore]]
  end.
Ltac solve_crel := repeat crel_step.

Create HintDb prov discriminated.
#[export] Hint Constants Opaque : prov.

(** ** The core database in a run *)

(** The committed rows move along [S], and the log only grows. *)
Definition prov_rel `{RG : Registry} (S : relation DB) : relation CWorld := λ w w',
  S (p_db w) (p_db w') ∧ p_log w `prefix_of` p_log w'.
#[export] Instance prov_rel_preorder `{RG : Registry} S `{!PreOrder S} : PreOrder (prov_rel S).
Proof.
  split; [by split|]. intros w1 w2 w3 [A1 A2] [B1 B2]. split; [by etrans|by etrans].
Qed.

Section core_calls.
Context `{E : Env} `{RG : Registry} `{RE : RegEnv} (c : Config) (S : relation DB) `{!PreOrder S}.
Implicit Types (ctx : AuditCtx) (cu : ComputeClusterUser).

Lemma prov_pcore {A} (m : M A) : DbRel S m → CRel (prov_rel S) (pcore m).
Proof. intros Hm. apply CRel_pcore. intros w. split; [apply Hm|done]. Qed.
Lemma prov_Do m u b : CRel (prov_rel S) (Do c m u b).
Proof.
  apply CRel_Do. intros w w' seg (Hc & _ & Hl & _). unfold prov_rel, p_db. rewrite Hc, Hl. split; [done|].
  by exists seg.
Qed.
Lemma prov_start_span ctx : CRel (prov_rel S) (start_span ctx).
Proof. intros w. by split. Qed.
Hint Resolve prov_Do prov_start_span : prov.

Lemma prov_get_list {A} `{JTarget A} what u : CRel (prov_rel S) (get_list (A:=A) c what u).
Proof. unfold get_list. solve_crel. Qed.
Lemma prov_new_object a b m u resp : CRel (prov_rel S) (new_object a b m u resp).
Proof. unfold new_object. solve_crel. Qed.
Hint Resolve prov_get_list prov_new_object : prov.
Lemma prov_post_object a b u body : CRel (prov_rel S) (post_object c a b u body).
Proof. unfold post_object. solve_crel. Qed.
Lemma prov_GetPersonComposite i : CRel (prov_rel S) (GetPersonComposite c i).
Proof. unfold GetPersonComposite. solve_crel. Qed.
Hint Resolve prov_post_object prov_GetPersonComposite : prov.

Lemma prov_findByEmailExact email : CRel (prov_rel S) (findByEmailExact c email).
Proof. unfold findByEmailExact, FindCoPersonByEmail. solve_crel. Qed.
Lemma prov_FindIdentifierValueOnPerson i t : CRel (prov_rel S) (FindIdentifierValueOnPerson c i t).
Proof. unfold FindIdentifierValueOnPerson. solve_crel. Qed.
Hint Resolve prov_findByEmailExact prov_FindIdentifierValueOnPerson : prov.
Lemma prov_wait_rounds email n : CRel (prov_rel S) (wait_rounds c email n).
Proof. induction n as [|n IH]; simpl; unfold wait_round; solve_crel. Qed.
Hint Resolve prov_wait_rounds : prov.

(** Reads of the core, and the audit trail. *)
Context (HA : ∀ ctx e, DbRel S (CreateAuditEvent ctx e)).

Lemma prov_identities userID : CRel (prov_rel S) (pcore (ListUserIdentitiesForUser userID)).
Proof. apply prov_pcore. unfold ListUserIdentitiesForUser. solve_db. Qed.
Lemma prov_audit ctx cu t d : CRel (prov_rel S) (audit ctx cu t d).
Proof.
  unfold audit. apply CRel_bind; [apply _|apply CRel_try, prov_pcore, HA|]. intros r. apply CRel_ret, _.
Qed.
Hint Resolve prov_identities prov_audit : prov.
Lemma prov_dlq ctx cu step e : CRel (prov_rel S) (dlq ctx cu step e).
Proof. unfold dlq. solve_crel. Qed.
Hint Resolve prov_dlq : prov.
Lemma prov_or_dlq {A} ctx cu step (m : CM A) : CRel (prov_rel S) m → CRel (prov_rel S) (or_dlq ctx cu step m).
Proof. intros Hm. unfold or_dlq. solve_crel. Qed.
Lemma prov_findStoredPersonID ctx u : CRel (prov_rel S) (findStoredPersonID ctx u).
Proof. unfold findStoredPersonID. solve_crel. Qed.
Hint Resolve prov_findStoredPersonID : prov.

Lemma prov_lookup ctx user sub : CRel (prov_rel S) (lookupOrCreateCoPerson c ctx user sub).
Proof.
  unfold lookupOrCreateCoPerson, lookup_stored, lookup_email, create_person, CreatePerson, waitForCreatedPersonID.
  solve_crel.
Qed.
Lemma prov_storePersonID ctx user pid :
  DbRel S (CreateUserIdentity (Some (mkUserIdentity "" user comanageIdentitySource pid "" "" "" zero_time))) →
  CRel (prov_rel S) (storePersonID ctx user pid).
Proof. intros HI. unfold storePersonID. solve_crel. by apply prov_pcore. Qed.
Hint Resolve prov_lookup prov_or_dlq : prov.

Lemma prov_findOIDCSub u : CRel (prov_rel S) (findOIDCSub u).
Proof. unfold findOIDCSub. solve_crel. Qed.
Lemma prov_getPersonComposite ctx pid : CRel (prov_rel S) (getPersonComposite c ctx pid).
Proof. unfold getPersonComposite. solve_crel. Qed.
Lemma prov_extractIdentifier raw t : CRel (prov_rel S) (extractIdentifier raw t).
Proof. unfold extractIdentifier. solve_crel. Qed.
Hint Resolve prov_findOIDCSub prov_getPersonComposite prov_extractIdentifier : prov.
Lemma prov_person_ids ctx cu pid raw : CRel (prov_rel S) (person_ids ctx cu pid raw).
Proof.
  unfold person_ids, extractCoPersonID. solve_crel; apply prov_or_dlq; solve_crel.
Qed.
Lemma prov_ensureOIDCLinkage ctx cu i raw sub : CRel (prov_rel S) (ensureOIDCLinkage c ctx cu i raw sub).
Proof.
  unfold ensureOIDCLinkage, extractOrgIdentifierValues.
  solve_crel; apply prov_or_dlq; unfold CreateOrgIdentity, CreateIdentifierOnOrgIdentity,
    CreateCoOrgIdentityLink, decodeNewObjectID; solve_crel.
Qed.
Lemma prov_findOrCreateCoGroup ctx name : CRel (prov_rel S) (findOrCreateCoGroup c ctx name).
Proof. unfold findOrCreateCoGroup, FindCoGroupByName, CreateCoGroup. solve_crel. Qed.
Lemma prov_findOrCreateIdentifier ctx cu g v t : CRel (prov_rel S) (findOrCreateIdentifier c ctx cu g v t).
Proof.
  unfold findOrCreateIdentifier.
  solve_crel; apply prov_or_dlq; unfold FindIdentifierOnGroup, CreateIdentifierOnGroup; solve_crel.
Qed.
Lemma prov_findOrCreateCoGroupMember ctx cu g p : CRel (prov_rel S) (findOrCreateCoGroupMember c ctx cu g p).
Proof.
  unfold findOrCreateCoGroupMember.
  solve_crel; apply prov_or_dlq; unfold FindCoGroupMember, CreateCoGroupMember; solve_crel.
Qed.
Lemma prov_findOrCreateUnixClusterGroup ctx cu g : CRel (prov_rel S) (findOrCreateUnixClusterGroup c ctx cu g).
Proof.
  unfold findOrCreateUnixClusterGroup, FindUnixClusterGroup, CreateUnixClusterGroup. solve_crel.
Qed.
Lemma prov_mergeUnixClusterAccount raw b : CRel (prov_rel S) (mergeUnixClusterAccount raw b).
Proof. unfold mergeUnixClusterAccount. solve_crel. Qed.
Lemma prov_mergeLoginIdentifier raw u : CRel (prov_rel S) (mergeLoginIdentifier raw u).
Proof. unfold mergeLoginIdentifier. solve_crel. Qed.
Lemma prov_updatePerson ctx pid body : CRel (prov_rel S) (updatePerson c ctx pid body).
Proof. unfold updatePerson, UpdatePerson. solve_crel. Qed.
End core_calls.
#[export] Hint Resolve prov_pcore prov_start_span prov_audit prov_dlq prov_or_dlq prov_lookup prov_storePersonID
  prov_findOIDCSub prov_getPersonComposite prov_extractIdentifier prov_person_ids prov_ensureOIDCLinkage
  prov_findOrCreateCoGroup prov_findOrCreateIdentifier prov_findOrCreateCoGroupMember
  prov_findOrCreateUnixClusterGroup prov_mergeUnixClusterAccount prov_mergeLoginIdentifier
  prov_updatePerson : prov.

(** ** What a run may write to the core *)

Definition account_rows (d : DB) : gmap string ComputeClusterUser := t_compute_cluster_users d.

(** Every table but those of identities, audit events and accounts is as it was. *)
Definition restore (d d' : DB) : DB :=
  set_compute_cluster_users (t_compute_cluster_users d)
    (set_audit_events (t_audit_events d) (set_user_identities (t_user_identities d) d')).
Definition untouched (d d' : DB) : Prop := restore d d' = d.

(** Identities are only added, and only the registry's, of the user of the account; audit
    events are only added; of the accounts only the time of provisioning of this one moves. *)
Record frame (cu : ComputeClusterUser) (d d' : DB) : Prop := {
  frame_tables : untouched d d';
  frame_identities : t_user_identities d ⊆ t_user_identities d';
  frame_new_identities i e : t_user_identities d' !! i = Some e →
    t_user_identities d !! i = Some e ∨
    (UserIdentity_UserID e = ComputeClusterUser_UserID cu ∧ UserIdentity_Source e = comanageIdentitySource);
  frame_audit : t_audit_events d ⊆ t_audit_events d';
  frame_others i : i ≠ ComputeClusterUser_ID cu → account_rows d' !! i = account_rows d !! i;
  frame_account : ∃ f, account_rows d' !! ComputeClusterUser_ID cu =
    (λ u, with_provisioned (f u) u) <$> account_rows d !! ComputeClusterUser_ID cu }.

#[export] Instance frame_preorder cu : PreOrder (frame cu).
Proof.
  split.
  - intros d. split; [by destruct d|done|auto|done|done|]. exists ComputeClusterUser_ProvisionedAt.
    by destruct (account_rows d !! _) as [[]|].
  - intros d1 d2 d3 [A1 A2 A3 A4 A5 A6] [B1 B2 B3 B4 B5 B6]. split.
    + unfold untouched in *. change (restore d1 (restore d2 d3) = d1). by rewrite B1.
    + by etrans.
    + intros i e [H|H]%B3; [by apply A3|auto].
    + by etrans.
    + intros i Hi. by rewrite B5, A5.
    + destruct A6 as [f Hf], B6 as [g Hg]. exists (λ u, g (with_provisioned (f u) u)). rewrite Hg, Hf.
      by destruct (account_rows d1 !! _) as [[]|].
Qed.

Lemma frame_audit_stmt cu e : StmtRel (frame cu) (pgAuditEventStore_Create e).
Proof.
  intros d d' H. stmt_inv H. split; simpl; [by destruct d|done|auto| |done|].
  - by apply insert_subseteq.
  - exists ComputeClusterUser_ProvisionedAt. unfold account_rows. simpl.
    by destruct (t_compute_cluster_users d !! _) as [[]|].
Qed.
Lemma frame_identity_stmt cu e now :
  UserIdentity_UserID e = ComputeClusterUser_UserID cu → UserIdentity_Source e = comanageIdentitySource →
  StmtRel (frame cu) (pgUserIdentityStore_Create e now).
Proof.
  intros Hu Hs d d' H. stmt_inv H. split; simpl; [by destruct d| | |done|done|].
  - by apply insert_subseteq.
  - intros j x. rewrite lookup_insert_Some. intros [[<- <-]|[_ Hx]]; [|by left]. right. by destruct e.
  - exists ComputeClusterUser_ProvisionedAt. unfold account_rows. simpl.
    by destruct (t_compute_cluster_users d !! _) as [[]|].
Qed.
Lemma frame_mark_stmt cu now :
  StmtRel (frame cu) (pgComputeClusterUserStore_MarkProvisioned (ComputeClusterUser_ID cu) now).
Proof.
  intros d d' H. unfold pgComputeClusterUserStore_MarkProvisioned in H.
  destruct (t_compute_cluster_users d !! _) as [u|] eqn:Hu; injection H as <-; [|reflexivity].
  split; simpl; [by destruct d|done|auto|done| |].
  - intros i Hi. unfold account_rows. simpl. by rewrite lookup_insert_ne.
  - exists (λ _, Some now). unfold account_rows. simpl. by rewrite Hu, lookup_insert_eq.
Qed.

Section frame_calls.
Context `{E : Env} `{RG : Registry} `{RE : RegEnv}.
Implicit Types (cu : ComputeClusterUser) (S : relation DB).

Lemma CreateAuditEvent_rel S `{!PreOrder S} ctx e :
  (∀ e, StmtRel S (pgAuditEventStore_Create e)) → DbRel S (CreateAuditEvent ctx e).
Proof. intros HS. unfold CreateAuditEvent. solve_db. Qed.
Lemma DbRel_ret_bind {A B} S (a : A) (k : A → M B) : DbRel S (k a) → DbRel S (mret a ≫= k).
Proof. done. Qed.
Lemma CreateUserIdentity_rel S `{!PreOrder S} u pid :
  (∀ e now, UserIdentity_UserID e = u → UserIdentity_Source e = comanageIdentitySource →
     StmtRel S (pgUserIdentityStore_Create e now)) →
  DbRel S (CreateUserIdentity (Some (mkUserIdentity "" u comanageIdentitySource pid "" "" "" zero_time))).
Proof.
  intros HS. unfold CreateUserIdentity, deref. apply DbRel_ret_bind. solve_db. by apply HS.
Qed.
Lemma Mark_rel S `{!PreOrder S} id :
  (∀ now, StmtRel S (pgComputeClusterUserStore_MarkProvisioned id now)) →
  DbRel S (MarkComputeClusterUserProvisioned id).
Proof. intros HS. unfold MarkComputeClusterUserProvisioned. solve_db. Qed.

(** The rows of accounts, which only the last step writes. *)
Lemma accounts_audit_stmt e : StmtRel (same account_rows) (pgAuditEventStore_Create e).
Proof. intros d d' H. stmt_inv H. done. Qed.
Lemma accounts_identity_stmt e now : StmtRel (same account_rows) (pgUserIdentityStore_Create e now).
Proof. intros d d' H. stmt_inv H. done. Qed.
End frame_calls.

(** ** The record that is put *)

(** The Identifier array of a record. *)
Definition idents_of (top : gmap string Json) : option (list RawMap) :=
  match top !! "Identifier" with Some raw => raw_maps raw | None => Some [] end.
Definition member (k : string) (i : RawMap) : option Json := i ≫= (.!! k).

(** [top'] is [top] with the account and the login name: no other key is touched; every
    identifier of type uid is the login name, and there is one; identifiers of other types
    stay, in order, and of the others no other member changes. *)
Record record_update (block : UnixClusterAccountBlock) (username : string) (top top' : gmap string Json) : Prop := {
  update_account : top' !! "UnixClusterAccount" = Some (JsArr [js_block block]);
  update_others k : k ≠ "UnixClusterAccount" → k ≠ "Identifier" → top' !! k = top !! k;
  update_idents : ∃ ids ids', idents_of top = Some ids ∧ idents_of top' = Some ids' ∧
    (∃ i, i ∈ ids' ∧ ident_type i = "uid") ∧
    (∀ i, i ∈ ids' → ident_type i = "uid" → member "identifier" i = Some (JsStr username)) ∧
    filter (λ i, ident_type i ≠ "uid") ids' = filter (λ i, ident_type i ≠ "uid") ids ∧
    (∀ n i, ids !! n = Some i → ∃ i', ids' !! n = Some i' ∧ ∀ k, k ≠ "identifier" → member k i' = member k i) }.

Lemma set_login_member username i k : k ≠ "identifier" → member k (set_login username i) = member k i.
Proof.
  intros Hk. unfold set_login. destruct (decide _); [|done]. destruct i as [m|]; [|done].
  unfold member. simpl. by rewrite lookup_insert_ne.
Qed.
Lemma ident_type_member i : ident_type i = default "" (Unmarshal (member "type" i)).
Proof. done. Qed.
Lemma set_login_type username i : ident_type (set_login username i) = ident_type i.
Proof. by rewrite !ident_type_member, set_login_member. Qed.
Lemma set_login_other username i : ident_type i ≠ "uid" → set_login username i = i.
Proof. intros Hi. unfold set_login. by rewrite decide_False. Qed.
Lemma set_login_uid username i :
  ident_type i = "uid" → member "identifier" (set_login username i) = Some (JsStr username).
Proof.
  intros Hi. unfold set_login. rewrite decide_True by done. destruct i as [m|]; [|done].
  unfold member. simpl. by rewrite lookup_insert_eq.
Qed.

Lemma set_logins_uid username ids :
  (∃ i, i ∈ set_logins username ids ∧ ident_type i = "uid") ∧
  ∀ i, i ∈ set_logins username ids → ident_type i = "uid" → member "identifier" i = Some (JsStr username).
Proof.
  unfold set_logins. split.
  - destruct (decide _) as [He|Hn].
    + apply Exists_exists in He as (i & Hi & Ht). exists (set_login username i).
      rewrite set_login_type, elem_of_app, list_elem_of_fmap. eauto.
    + exists (login_ident username). rewrite elem_of_app, list_elem_of_singleton. auto.
  - intros i [Hi|Hi]%elem_of_app Ht.
    + apply list_elem_of_fmap in Hi as (i0 & -> & _). rewrite set_login_type in Ht. by apply set_login_uid.
    + destruct (decide _); [by apply elem_of_nil in Hi|]. by apply list_elem_of_singleton in Hi as ->.
Qed.
Lemma set_logins_others username ids :
  filter (λ i, ident_type i ≠ "uid") (set_logins username ids) = filter (λ i, ident_type i ≠ "uid") ids.
Proof.
  unfold set_logins. rewrite filter_app.
  replace (filter _ (if decide _ then [] else _)) with (@nil RawMap) by (by destruct (decide _)).
  rewrite (right_id_L [] (++)). induction ids as [|i ids IH]; [done|]. rewrite fmap_cons.
  destruct (decide (ident_type i = "uid")) as [Hi|Hi].
  - rewrite !filter_cons_False; [done|..]; rewrite ?set_login_type; by intros [].
  - rewrite !filter_cons_True; [by rewrite IH, set_login_other|done|by rewrite set_login_type].
Qed.
Lemma set_logins_kept username ids n i :
  ids !! n = Some i →
  ∃ i', set_logins username ids !! n = Some i' ∧ ∀ k, k ≠ "identifier" → member k i' = member k i.
Proof.
  intros Hi. exists (set_login username i). split; [|intros k; apply set_login_member].
  unfold set_logins. rewrite lookup_app_l; [by rewrite list_lookup_fmap, Hi|].
  rewrite length_fmap. by eapply lookup_lt_Some.
Qed.

Section record.
Context `{E : Env} `{RG : Registry} `{RE : RegEnv}.

Definition put_body (composite : RawMessage) (block : UnixClusterAccountBlock) (username : string) : CM Json :=
  body ← mergeUnixClusterAccount composite block; mergeLoginIdentifier (Some body) username.

Lemma put_body_run composite block username w :
  match top_of composite with
  | Some (Some top) =>
      match idents_of top with
      | Some ids => put_body composite block username w =
          (Done (marshal_map (Some (<["Identifier" := JsArr (marshal_map <$> set_logins username ids)]>
                   (<["UnixClusterAccount" := JsArr [js_block block]]> top)))), w)
      | None => ∃ e, put_body composite block username w = (Failed e, w)
      end
  | Some None => put_body composite block username w = (Panicked, w)
  | None => ∃ e, put_body composite block username w = (Failed e, w)
  end.
Proof.
  unfold put_body, mergeUnixClusterAccount, mergeLoginIdentifier, idents_of, mbind, CM_bind.
  destruct (top_of composite) as [[top|]|]; simpl; [|done|eauto].
  rewrite members_map_marshal. simpl. rewrite lookup_insert_ne by done.
  destruct (top !! "Identifier") as [raw|]; simpl; [|done]. destruct (raw_maps raw); simpl; [done|eauto].
Qed.

Lemma record_updated block username top ids :
  idents_of top = Some ids →
  record_update block username top
    (<["Identifier" := JsArr (marshal_map <$> set_logins username ids)]>
       (<["UnixClusterAccount" := JsArr [js_block block]]> top)).
Proof.
  intros Hids. split.
  - by rewrite lookup_insert_ne, lookup_insert_eq.
  - intros k H1 H2. by rewrite !lookup_insert_ne.
  - exists ids, (set_logins username ids). split_and!; [done|..|apply set_logins_others|apply set_logins_kept].
    + unfold idents_of. rewrite lookup_insert_eq. apply raw_maps_marshal.
    + apply set_logins_uid.
    + apply set_logins_uid.
Qed.

(** C26: what the body that is put on a person's record keeps and what it replaces. Its array
    of cluster accounts is the one account of this provisioning, whatever was there: accounts
    on other clusters are dropped. Every identifier of type uid names the login, and there is
    at least one; identifiers of other types stay, in order. Every other top-level key keeps its
    value. A record that is not an object, or whose identifiers are not objects, is refused;
    null panics. *)
Theorem record_preserved composite block username w :
  match top_of composite with
  | Some (Some top) =>
      (idents_of top = None ∧ ∃ e, put_body composite block username w = (Failed e, w)) ∨
      ∃ body top', put_body composite block username w = (Done body, w) ∧
        top_of (Some body) = Some (Some top') ∧ record_update block username top top'
  | Some None => put_body composite block username w = (Panicked, w)
  | None => ∃ e, put_body composite block username w = (Failed e, w)
  end.
Proof.
  pose proof (put_body_run composite block username w) as H.
  destruct (top_of composite) as [[top|]|]; [|done..].
  destruct (idents_of top) as [ids|] eqn:Hids; [right|by left].
  eexists _, _. split_and!; [exact H|apply raw_map_marshal|by apply record_updated].
Qed.
End record.

(** ** The end of a run *)

(** The row a mark changes. *)
Lemma Mark_Ok `{E : Env} id (w w' : World) :
  MarkComputeClusterUserProvisioned id w = (Ok tt, w') →
  ∃ u now, account_rows (w_db w) !! id = Some u ∧
    account_rows (w_db w') = <[id := with_provisioned (Some now) u]> (account_rows (w_db w)).
Proof.
  intros H. unfold MarkComputeClusterUserProvisioned in H. run. simpl in *.
  match goal with HS : pgComputeClusterUserStore_MarkProvisioned _ _ _ = inr _ |- _ =>
    unfold pgComputeClusterUserStore_MarkProvisioned in HS; simpl in HS end.
  destruct (t_compute_cluster_users (w_db w) !! id) as [u|] eqn:Hu; simplify_eq/=. eauto.
Qed.

Section ends.
Context `{E : Env} `{RG : Registry} `{RE : RegEnv} (c : Config).
Implicit Types (w : CWorld) (cu : ComputeClusterUser) (ctx : AuditCtx).

(** From a state [R] leads to from [w0], [m] ends in one with [Q]. *)
Definition Ends {A} (R : relation CWorld) (Q : CWorld → Prop) w0 (m : CM A) : Prop :=
  ∀ w, R w0 w → Q (m w).2.

Lemma Ends_bind {A B} R `{!PreOrder R} (Q : CWorld → Prop) w0 (m : CM A) (k : A → CM B) :
  (∀ w, R w0 w → Q w) → CRel R m → (∀ a, Ends R Q w0 (k a)) → Ends R Q w0 (m ≫= k).
Proof.
  intros HQ Hm Hk w Hw. apply (bind_ends R); [done|..].
  - intros w1 Hw1. apply HQ. by etrans.
  - intros a w1 _ Hw1. apply Hk. by etrans.
Qed.

Definition accounts w : gmap string ComputeClusterUser := account_rows (p_db w).

(** [w'] was reached from [w0], and the last request of the run put the account of [cu] on
    the record of a person, as that record had been answered in the run; the registry
    accepted it. *)
Definition account_put cu w0 w' : Prop :=
  ∃ personID fresh uid group top top' seg put,
    p_log w' = p_log w0 ++ seg ∧
    last seg = Some (mkExchange (request_of c "PUT" (person_url c personID)
                                   (Some (marshal_map (Some top')))) (Some put)) ∧
    rs_status put = 200%Z ∧
    mkExchange (request_of c "GET" (person_url c personID) None) (Some fresh) ∈ seg ∧
    rs_status fresh = 200%Z ∧ top_of (rs_json fresh) = Some (Some top) ∧
    record_update (account_block c cu uid group) (ComputeClusterUser_LocalUsername cu) top top'.

(** The row of [cu] is provisioned now, and the account has been put. *)
Definition marked cu w0 w' : Prop :=
  account_put cu w0 w' ∧
  ∃ u now, accounts w0 !! ComputeClusterUser_ID cu = Some u ∧
    accounts w' = <[ComputeClusterUser_ID cu := with_provisioned (Some now) u]> (accounts w0).

Abbreviation R := (prov_rel (same account_rows)).
Abbreviation settled cu w0 := (λ w', accounts w' = accounts w0 ∨ marked cu w0 w').

Lemma Mark_run id (w w' : World) r :
  MarkComputeClusterUserProvisioned id w = (r, w') →
  w_db w' = w_db w ∨
  ∃ u now, account_rows (w_db w) !! id = Some u ∧
    account_rows (w_db w') = <[id := with_provisioned (Some now) u]> (account_rows (w_db w)).
Proof.
  destruct r as [[]|e]; intros H; [by right; eapply Mark_Ok|].
  assert (Acid (MarkComputeClusterUserProvisioned id) (@MarkComputeClusterUserProvisioned (fault_free E) id)) as Ha
    by (unfold MarkComputeClusterUserProvisioned; solve_acid).
  apply Ha in H as [H|(_ & [] & w'' & H & Hd)]; [left; by injection H|].
  right. rewrite <- Hd. by eapply (@Mark_Ok (fault_free E)).
Qed.

Lemma or_dlq_Done {A} ctx cu step (m : CM A) w a w' :
  or_dlq ctx cu step m w = (Done a, w') → m w = (Done a, w').
Proof.
  unfold or_dlq, mbind, CM_bind, ctry. destruct (m w) as [[a1|e|] w1]; [by intros [= -> ->]| |done].
  by destruct (dlq _ _ _ _ w1) as [[] ?].
Qed.

(** A call that succeeds has got the answer it returns. *)
Lemma getPersonComposite_Done ctx pid w fresh w' :
  getPersonComposite c ctx pid w = (Done fresh, w') →
  ∃ seg resp, p_log w' = p_log w ++ seg ∧ rs_status resp = 200%Z ∧ rs_json resp = fresh ∧
    mkExchange (request_of c "GET" (person_url c pid) None) (Some resp) ∈ seg.
Proof.
  unfold getPersonComposite, GetPersonComposite, mbind, CM_bind. simpl.
  destruct (Do_run c "GET" (person_url c pid) None (bump_pspans w)) as (seg & (_ & _ & Hl & _) & _ & Ha).
  destruct (Do _ _ _ _ _) as [[resp|e|] w1]; simpl in *; [|done..].
  repeat (destruct (decide _); [|]); intros [= <- <-]. exists seg, resp. split_and!; [done..|].
  apply last_Some_elem_of in Ha. done.
Qed.
Lemma updatePerson_Done ctx pid body w w' :
  updatePerson c ctx pid body w = (Done tt, w') →
  ∃ seg resp, p_log w' = p_log w ++ seg ∧ rs_status resp = 200%Z ∧
    last seg = Some (mkExchange (request_of c "PUT" (person_url c pid) (Some body)) (Some resp)).
Proof.
  unfold updatePerson, UpdatePerson, mbind, CM_bind. simpl.
  destruct (Do_run c "PUT" (person_url c pid) (Some body) (bump_pspans w)) as (seg & (_ & _ & Hl & _) & _ & Ha).
  destruct (Do _ _ _ _ _) as [[resp|e|] w1]; simpl in *; [|done..].
  repeat (destruct (decide _); [|]); intros [= <-]. by exists seg, resp.
Qed.

(** Calls that write neither accounts nor the log. *)
Lemma accounts_audit ctx e : DbRel (same account_rows) (CreateAuditEvent ctx e).
Proof. apply CreateAuditEvent_rel; [apply _|]. apply accounts_audit_stmt. Qed.
Lemma audit_log ctx cu t d w : p_log (audit ctx cu t d w).2 = p_log w.
Proof.
  unfold audit, mbind, CM_bind, ctry, pcore.
  by destruct (CreateAuditEvent _ _ _) as [[]].
Qed.
Hint Resolve accounts_audit : prov.

Lemma merges_put composite block username w1 w2 w3 b1 b2 :
  mergeUnixClusterAccount composite block w1 = (Done b1, w2) →
  mergeLoginIdentifier (Some b1) username w2 = (Done b2, w3) →
  w3 = w1 ∧ ∃ top top', top_of composite = Some (Some top) ∧ b2 = marshal_map (Some top') ∧
    record_update block username top top'.
Proof.
  intros H1 H2. pose proof (put_body_run composite block username w1) as H.
  unfold put_body, mbind, CM_bind in H. rewrite H1, H2 in H.
  destruct (top_of composite) as [[top|]|]; [|done|by destruct H as [? [=]]].
  destruct (idents_of top) as [ids|] eqn:Hids; [|by destruct H as [? [=]]].
  injection H as -> ->. split; [done|]. eexists _, _. split_and!; [done..|by apply record_updated].
Qed.

Lemma attach_settled ctx cu pid uid group w0 :
  Ends R (settled cu w0) w0 (attach_account c ctx cu pid uid group).
Proof.
  intros w Hw. unfold attach_account.
  assert (∀ w1, R w w1 → settled cu w0 w1) as Hstop.
  { intros w1 H1. left. apply (transitivity Hw H1). }
  apply (bind_ends R); [solve_crel|done|].
  intros fresh w1 (seg1 & resp1 & L1 & S1 & J1 & X1)%or_dlq_Done%getPersonComposite_Done H1.
  apply (bind_ends R); [solve_crel|intros w2 H2; apply Hstop; by etrans|]. intros b1 w2 E2%or_dlq_Done H2.
  apply (bind_ends R); [solve_crel|intros w3 H3; apply Hstop; by repeat (etrans; [eassumption|])|].
  intros b2 w3 E3%or_dlq_Done _. destruct (merges_put _ _ _ _ _ _ _ _ E2 E3) as [-> (top & top' & HT & -> & HU)].
  apply (bind_ends R); [solve_crel|intros w3 H3; apply Hstop; by etrans|].
  intros [] w3 (seg3 & put & L3 & S3 & X3)%or_dlq_Done%updatePerson_Done H3.
  apply (bind_ends (λ w w', R w w' ∧ p_log w' = p_log w)).
  { intros w4. split; [|apply audit_log]. revert w4. change (CRel R (audit ctx cu "ComanageClusterAccountAttached"
      ("comanage_id=" +:+ pid +:+ " username=" +:+ ComputeClusterUser_LocalUsername cu +:+ " uid=" +:+ FormatInt uid))).
    solve_crel. }
  { intros w4 [H4 _]. apply Hstop. by repeat (etrans; [eassumption|]). }
  intros [] w4 _ [H4 L4]. unfold mbind, CM_bind, ctry, pcore.
  destruct (MarkComputeClusterUserProvisioned _ _) as [r x] eqn:EM.
  assert (accounts w4 = accounts w0) as HA.
  { transitivity (accounts w); [|apply Hw]. transitivity (accounts w1); [|apply H1].
    transitivity (accounts w3); [apply H4|apply H3]. }
  assert (settled cu w0 (set_pcore x w4)) as HS; [|by destruct r].
  apply Mark_run in EM as [EM|(u & now & Hu & EM)]; [left|right].
  { unfold accounts, p_db in *. simpl. by rewrite EM. }
  destruct Hw as [Hw [seg0 L0]]. split.
  - exists pid, resp1, uid, group, top, top', (seg0 ++ seg1 ++ seg3), put. simpl.
    rewrite L4, L3, L1, L0, J1, !last_app, X3, !elem_of_app, <-!(assoc_L (++)). split_and!; auto.
  - exists u, now. unfold accounts, p_db in *. simpl. rewrite <-HA. auto.
Qed.
Hint Resolve attach_settled : prov.

Lemma accounts_identity u pid : DbRel (same account_rows)
  (CreateUserIdentity (Some (mkUserIdentity "" u comanageIdentitySource pid "" "" "" zero_time))).
Proof. apply CreateUserIdentity_rel; [apply _|]. intros. apply accounts_identity_stmt. Qed.
Lemma accounts_GetUser u : DbRel (same account_rows) (GetUser u).
Proof. unfold GetUser. solve_db. Qed.
Hint Resolve accounts_identity accounts_GetUser : prov.

Lemma ensure_settled ctx cu w0 : Ends R (settled cu w0) w0 (EnsurePOSIXAccount c ctx cu).
Proof.
  assert (∀ w1, R w0 w1 → settled cu w0 w1) as Hstop by (intros w1 H1; left; apply H1).
  unfold EnsurePOSIXAccount, ensurePOSIXAccountImpl.
  repeat lazymatch goal with
  | |- Ends _ _ _ (_ ≫= _) => apply Ends_bind; [apply _|exact Hstop|solve [solve_crel]|intros ?]
  | |- Ends _ _ _ (match ?x with _ => _ end) => destruct x
  end. apply attach_settled.
Qed.

(** C25: an account is marked provisioned only when the registry has it. Whatever fails in the
    handling of an event, either no account row changes, or the event was about an account of
    the configured cluster, the only change is the time of provisioning of its row, and the
    last request of the run put the account on the person's record, as the registry had
    answered it in the same run, and was answered 200. *)
Theorem provisioned_after_put ctx payload w :
  let w' := (handleClusterUserCreate c ctx payload w).2 in
  accounts w' = accounts w ∨
  ∃ cu, payload = AccountPtr (Some cu) ∧ ComputeClusterUser_ComputeClusterID cu = CustosClusterID c ∧
    marked cu w w'.
Proof.
  cbv zeta. unfold handleClusterUserCreate.
  apply (bind_ends R); [solve_crel|intros w1 H1; left; apply H1|]. intros ctx1 w1 _ H1.
  destruct payload as [[cu|]|]; [|left; apply H1..]. destruct (decide _) as [Hc|Hc]; [left; apply H1|].
  assert (settled cu w (((_ ← audit ctx1 cu "ComanageProvisioningStarted"
              ("cluster_user_id=" +:+ ComputeClusterUser_ID cu +:+ " user_id=" +:+ ComputeClusterUser_UserID cu);
            _ ← ctry (EnsurePOSIXAccount c ctx1 cu); mret tt) : CM unit) w1).2) as [HS|HS]; [|by left|].
  - apply (bind_ends R); [solve_crel|intros w2 H2; left; apply (transitivity H1 H2)|]. intros [] w2 _ H2.
    pose proof (ensure_settled ctx1 cu w w2 (transitivity H1 H2)) as He. unfold mbind, CM_bind, ctry.
    by destruct (EnsurePOSIXAccount c ctx1 cu w2) as [[]].
  - right. exists cu. split_and!; [done| |done].
    by destruct (decide (ComputeClusterUser_ComputeClusterID cu = CustosClusterID c)).
Qed.

(** ** The frame of a run *)

Lemma frame_audit_rel cu ctx e : DbRel (frame cu) (CreateAuditEvent ctx e).
Proof. apply CreateAuditEvent_rel; [apply _|]. apply frame_audit_stmt. Qed.
Lemma frame_identity_rel cu pid : DbRel (frame cu) (CreateUserIdentity
  (Some (mkUserIdentity "" (ComputeClusterUser_UserID cu) comanageIdentitySource pid "" "" "" zero_time))).
Proof. apply CreateUserIdentity_rel; [apply _|]. intros. by apply frame_identity_stmt. Qed.
Lemma frame_mark_rel cu : DbRel (frame cu) (MarkComputeClusterUserProvisioned (ComputeClusterUser_ID cu)).
Proof. apply Mark_rel; [apply _|]. apply frame_mark_stmt. Qed.
Lemma frame_GetUser cu u : DbRel (frame cu) (GetUser u).
Proof. unfold GetUser. solve_db. Qed.
Hint Resolve frame_audit_rel frame_identity_rel frame_mark_rel frame_GetUser : prov.

(** What the handling of an event of the bus can change in the core: nothing for an account
    of another cluster or another payload, and then no request is made either; otherwise only
    audit events are added, identities of the registry for the user of the account, and the
    time of provisioning of that account. No other row of any table changes. *)
Theorem provisioning_frame ctx payload w :
  let w' := (handleClusterUserCreate c ctx payload w).2 in
  (p_core w' = p_core w ∧ p_reg w' = p_reg w ∧ p_log w' = p_log w) ∨
  ∃ cu, payload = AccountPtr (Some cu) ∧ ComputeClusterUser_ComputeClusterID cu = CustosClusterID c ∧
    frame cu (p_db w) (p_db w') ∧ p_log w `prefix_of` p_log w'.
Proof.
  cbv zeta. unfold handleClusterUserCreate. unfold mbind at 1, CM_bind at 1. simpl.
  destruct payload as [[cu|]|]; [|by left..]. destruct (decide _) as [Hc|Hc]; [by left|right].
  exists cu. split; [done|].
  split; [by destruct (decide (ComputeClusterUser_ComputeClusterID cu = CustosClusterID c))|].
  assert (∀ ctx, CRel (prov_rel (frame cu)) (EnsurePOSIXAccount c ctx cu)) as He.
  { intros ctx1. unfold EnsurePOSIXAccount, ensurePOSIXAccountImpl, attach_account.
    solve_crel. }
  match goal with |- context [(?m ?x).2] =>
    change (prov_rel (frame cu) x (m x).2); generalize x; change (CRel (prov_rel (frame cu)) m) end.
  solve_crel.
Qed.
End ends.

(** ** Nothing is created without a search

    The objects of an account's group, the request that creates one, the search for it, and
    an answer to the search without it. *)

Inductive Creation :=
  | NewGroup (name : string)
  | NewGroupIdentifier (value typ : string) (group : Z)
  | NewMember (person group : Z).

Section searches.
Context `{E : Env} `{RG : Registry} `{RE : RegEnv} (c : Config).
Implicit Types (w : CWorld) (cu : ComputeClusterUser) (ctx : AuditCtx) (k : Creation).

Definition create_request k : RegRequest :=
  match k with
  | NewGroup name => request_of c "POST" (restAPI c "/co_groups.json")
      (Some (CoGroupCreateRequest c name ("Primary group for " +:+ name)))
  | NewGroupIdentifier value typ group => request_of c "POST" (restAPI c "/identifiers.json")
      (Some (IdentifierCreateRequest value typ false (mkIdentifierParent "Group" group)))
  | NewMember person group => request_of c "POST" (restAPI c "/co_group_members.json")
      (Some (CoGroupMemberCreateRequest person group))
  end.
Definition search_request k : RegRequest :=
  request_of c "GET" match k with
                     | NewGroup _ => groups_url c
                     | NewGroupIdentifier _ _ group => group_identifiers_url c group
                     | NewMember person group => member_url c group person
                     end None.
(** The id of the object in the answer, 0 without one. *)
Definition id_found k (raw : RawMessage) : option Z :=
  match k with
  | NewGroup name => (λ out, first_id (λ g, Group_Name g = name) Group_Id (CoGroups out)) <$> Unmarshal raw
  | NewGroupIdentifier _ typ _ =>
      (λ out, first_id (λ i, Ident_Type i = typ) Ident_Id (Identifiers out)) <$> Unmarshal raw
  | NewMember person group =>
      (λ out, first_id (λ m, Member_CoGroupId m = group ∧ Parent_Id (Member_Person m) = person) Member_Id
                (CoGroupMembers out)) <$> Unmarshal raw
  end.
Definition absent k (resp : RegResponse) : Prop :=
  rs_status resp = 204%Z ∨ (rs_status resp = 200%Z ∧ id_found k (rs_json resp) = Some 0%Z).

(** Every request of the run that creates an object comes after a search of the same run that
    was answered without it. *)
Definition justified w w' : Prop :=
  ∃ seg, p_log w' = p_log w ++ seg ∧
    ∀ k i x, seg !! i = Some x → x_request x = create_request k →
      ∃ j resp, j < i ∧ seg !! j = Some (mkExchange (search_request k) (Some resp)) ∧ absent k resp.
#[export] Instance justified_preorder : PreOrder justified.
Proof.
  split.
  - intros w. exists []. rewrite (right_id_L [] (++)). split; [done|]. intros k i x Hx. by rewrite lookup_nil in Hx.
  - intros w1 w2 w3 (s1 & L1 & J1) (s2 & L2 & J2). exists (s1 ++ s2). rewrite L2, L1, (assoc_L (++)).
    split; [done|]. intros k i x [Hx|[Hi Hx]]%lookup_app_Some Hk.
    + destruct (J1 k i x Hx Hk) as (j & resp & Hj & Hs & Ha). exists j, resp. split_and!; [done| |done].
      by apply lookup_app_l_Some.
    + destruct (J2 k _ x Hx Hk) as (j & resp & Hj & Hs & Ha). exists (length s1 + j), resp.
      split_and!; [lia| |done]. by rewrite lookup_app_r, Nat.add_comm, Nat.add_sub by lia.
Qed.

Lemma create_request_inj k k' : create_request k = create_request k' → k = k'.
Proof.
  destruct k, k'; simpl; intros H; injection H; intros; simplify_eq; try done.
Qed.

(** A request that creates nothing of these. *)
Definition harmless (rq : RegRequest) : Prop := ∀ k, rq ≠ create_request k.
Lemma harmless_GET u b : harmless (request_of c "GET" u b).
Proof. intros []; done. Qed.
Lemma harmless_PUT u b : harmless (request_of c "PUT" u b).
Proof. intros []; done. Qed.

Lemma justified_log w w' : p_log w' = p_log w → justified w w'.
Proof.
  intros Hl. exists []. rewrite (right_id_L [] (++)). split; [done|]. intros k i x Hx. by rewrite lookup_nil in Hx.
Qed.
Lemma just_Do m u b : harmless (request_of c m u b) → CRel justified (Do c m u b).
Proof.
  intros Hh. apply CRel_Do. intros w w' seg (_ & _ & Hl & Hf). exists seg. split; [done|].
  intros k i x Hx Hk. rewrite Forall_lookup in Hf. specialize (Hf i x Hx). destruct (Hh k). congruence.
Qed.
Lemma just_pcore {A} (m : M A) : CRel justified (pcore m).
Proof. apply CRel_pcore. intros w. by apply justified_log. Qed.
Lemma just_start_span ctx : CRel justified (start_span ctx).
Proof. intros w. by apply justified_log. Qed.
Lemma just_GET u : CRel justified (Do c "GET" u None).
Proof. apply just_Do, harmless_GET. Qed.
Lemma just_PUT u b : CRel justified (Do c "PUT" u b).
Proof. apply just_Do, harmless_PUT. Qed.
Hint Resolve just_pcore just_start_span just_GET just_PUT : prov.

(** [m] makes only the request [rq]. *)
Definition only {A} (rq : RegRequest) (m : CM A) : Prop :=
  ∀ w, ∃ seg, p_log (m w).2 = p_log w ++ seg ∧ Forall (λ x, x_request x = rq) seg.
(** [m] searches: when it finds nothing, the last answer says so. *)
Definition searches k (m : CM Z) : Prop :=
  ∀ w, ∃ seg, p_log (m w).2 = p_log w ++ seg ∧ Forall (λ x, x_request x = search_request k) seg ∧
    ((m w).1 = Done 0%Z → ∃ resp, mkExchange (search_request k) (Some resp) ∈ seg ∧ absent k resp).

Lemma guarded {A} k (m : CM Z) (f : Z → CM A) :
  searches k m → only (create_request k) (f 0%Z) → (∀ n, n ≠ 0%Z → CRel justified (f n)) →
  CRel justified (m ≫= f).
Proof.
  intros Hm H0 Hf w. destruct (Hm w) as (s1 & L1 & F1 & Hs). unfold mbind, CM_bind.
  assert (justified w (m w).2) as J1.
  { exists s1. split; [done|]. intros k' i x Hx Hk. rewrite Forall_lookup in F1.
    rewrite (F1 i x Hx) in Hk. destruct k'; done. }
  destruct (m w) as [[n|e|] w1]; simpl in *; [|done..].
  destruct (decide (n = 0%Z)) as [->|Hn]; [|etrans; [exact J1|by apply Hf]].
  destruct (Hs eq_refl) as (resp & Hin & Ha). destruct (H0 w1) as (s2 & L2 & F2).
  exists (s1 ++ s2). rewrite L2, L1, (assoc_L (++)). split; [done|].
  intros k' i x [Hx|[Hi Hx]]%lookup_app_Some Hk.
  - rewrite Forall_lookup in F1. rewrite (F1 i x Hx) in Hk. destruct k'; done.
  - rewrite Forall_lookup in F2. rewrite (F2 _ x Hx) in Hk. apply create_request_inj in Hk as <-.
    apply list_elem_of_lookup in Hin as [j Hj]. pose proof (lookup_lt_Some _ _ _ Hj) as Hlt.
    exists j, resp. split_and!; [lia|by apply lookup_app_l_Some|done].
Qed.

Lemma only_Do m u b : only (request_of c m u b) (Do c m u b).
Proof. intros w. destruct (Do_run c m u b w) as (seg & (_ & _ & Hl & Hf) & _). eauto. Qed.
Lemma only_bind {A B} rq (m : CM A) (k : A → CM B) :
  only rq m → (∀ a w, p_log (k a w).2 = p_log w) → only rq (m ≫= k).
Proof.
  intros Hm Hk w. destruct (Hm w) as (seg & Hl & Hf). exists seg. split; [|done]. unfold mbind, CM_bind.
  destruct (m w) as [[a|e|] w1]; simpl in *; by rewrite ?Hk.
Qed.
Lemma new_object_log a b m u resp w : p_log (new_object a b m u resp w).2 = p_log w.
Proof.
  unfold new_object, mbind, CM_bind. repeat destruct (decide _); simpl; try done.
  destruct (Unmarshal _) as [out|]; simpl; [|done]. by destruct (Sscanf_d _).
Qed.
Lemma only_post_object a b u body : only (request_of c "POST" u (Some body)) (post_object c a b u body).
Proof. apply only_bind; [apply only_Do|]. intros. apply new_object_log. Qed.

(** Putting a failure on record makes no request. *)
Lemma dlq_log ctx cu step e w : p_log (dlq ctx cu step e w).2 = p_log w.
Proof. unfold dlq, mbind, CM_bind. simpl. by rewrite audit_log. Qed.
Lemma or_dlq_log {A} ctx cu step (m : CM A) w :
  p_log (or_dlq ctx cu step m w).2 = p_log (m w).2.
Proof.
  unfold or_dlq, mbind, CM_bind, ctry. destruct (m w) as [[a|e|] w1]; simpl; [done| |done].
  pose proof (dlq_log ctx cu step (Some e) w1). by destruct (dlq _ _ _ _ w1) as [[] ?].
Qed.
Lemma only_or_dlq {A} rq ctx cu step (m : CM A) : only rq m → only rq (or_dlq ctx cu step m).
Proof. intros Hm w. rewrite or_dlq_log. apply Hm. Qed.
Lemma searches_or_dlq k ctx cu step m : searches k m → searches k (or_dlq ctx cu step m).
Proof.
  intros Hm w. rewrite or_dlq_log. destruct (Hm w) as (seg & Hl & Hf & Hs). exists seg. split_and!; [done..|].
  intros H0. apply Hs. destruct (or_dlq ctx cu step m w) as [r w'] eqn:Eo. simpl in H0. subst r.
  by apply or_dlq_Done in Eo as ->.
Qed.

(** A search over the answer to a GET. *)
Lemma searches_list {A} `{JTarget A} k what url (get : A → Z) :
  search_request k = request_of c "GET" url None →
  (∀ raw, id_found k raw = get <$> Unmarshal raw) →
  searches k (out ← get_list c what url; mret (from_option get 0%Z out)).
Proof.
  intros Hk Hid w. rewrite Hk. destruct (Do_run c "GET" url None w) as (seg & (_ & _ & Hl & Hf) & _ & Ha).
  unfold get_list, mbind, CM_bind. destruct (Do c "GET" url None w) as [[resp|e|] w1]; simpl in *; [|by exists seg|done].
  exists seg. destruct (decide (rs_status resp = 200%Z)) as [H2|H2].
  - destruct (Unmarshal (rs_json resp)) as [out|] eqn:Eu; simpl; split_and!; try done.
    intros [= H0]. exists resp. split; [by apply last_Some_elem_of|]. right. split; [done|].
    by rewrite Hid, Eu, <-H0.
  - destruct (decide (rs_status resp = 204%Z)); [|by destruct (decide (rs_status resp = 401%Z))].
    simpl. split_and!; [done..|]. intros _. exists resp. split; [by apply last_Some_elem_of|by left].
Qed.

Lemma searches_ext k m m' : (∀ w, m w = m' w) → searches k m' → searches k m.
Proof. intros He Hm w. rewrite He. apply Hm. Qed.
Lemma first_in_list {A B} `{JTarget A} (F : A → list B) P `{!∀ x, Decision (P x)} (id : B → Z) what url w :
  (out ← get_list c what url; mret (first_id P id (from_option F [] out)) : CM Z) w =
  (out ← get_list c what url; mret (from_option (λ o, first_id P id (F o)) 0%Z out) : CM Z) w.
Proof. unfold mbind, CM_bind. by destruct (get_list c what url w) as [[[]| |] ?]. Qed.

Lemma searches_FindCoGroupByName name : searches (NewGroup name) (FindCoGroupByName c name).
Proof. eapply searches_ext; [apply first_in_list|]. by apply searches_list. Qed.
Lemma searches_FindIdentifierOnGroup v t g :
  searches (NewGroupIdentifier v t g) (FindIdentifierOnGroup c g t).
Proof. eapply searches_ext; [apply first_in_list|]. by apply searches_list. Qed.
Lemma searches_FindCoGroupMember g p : searches (NewMember p g) (FindCoGroupMember c g p).
Proof. eapply searches_ext; [apply first_in_list|]. by apply searches_list. Qed.

(** *** The parts of a run *)

Lemma just_audit ctx cu t d : CRel justified (audit ctx cu t d).
Proof. unfold audit. solve_crel. Qed.
Hint Resolve just_audit : prov.
Lemma just_dlq ctx cu step e : CRel justified (dlq ctx cu step e).
Proof. unfold dlq. solve_crel. Qed.
Hint Resolve just_dlq : prov.
Lemma just_or_dlq {A} ctx cu step (m : CM A) : CRel justified m → CRel justified (or_dlq ctx cu step m).
Proof. intros Hm. unfold or_dlq. solve_crel. Qed.
Hint Resolve just_or_dlq : prov.
Lemma just_get_list {A} `{JTarget A} what u : CRel justified (get_list (A:=A) c what u).
Proof. unfold get_list. solve_crel. Qed.
Lemma just_new_object a b m u resp : CRel justified (new_object a b m u resp).
Proof. unfold new_object. solve_crel. Qed.
Lemma just_GetPersonComposite i : CRel justified (GetPersonComposite c i).
Proof. unfold GetPersonComposite. solve_crel. Qed.
Hint Resolve just_get_list just_new_object just_GetPersonComposite : prov.
Lemma just_findByEmailExact email : CRel justified (findByEmailExact c email).
Proof. unfold findByEmailExact, FindCoPersonByEmail. solve_crel. Qed.
Lemma just_FindIdentifierValueOnPerson i t : CRel justified (FindIdentifierValueOnPerson c i t).
Proof. unfold FindIdentifierValueOnPerson. solve_crel. Qed.
Hint Resolve just_findByEmailExact just_FindIdentifierValueOnPerson : prov.
Lemma just_wait_rounds email n : CRel justified (wait_rounds c email n).
Proof. induction n as [|n IH]; simpl; unfold wait_round; solve_crel. Qed.
Lemma just_findStoredPersonID ctx u : CRel justified (findStoredPersonID ctx u).
Proof. unfold findStoredPersonID. solve_crel. Qed.
Lemma just_CreatePerson user sub : CRel justified (CreatePerson c (buildCreatePersonBody c user sub)).
Proof. unfold CreatePerson. solve_crel. apply just_Do. intros []; done. Qed.
Hint Resolve just_wait_rounds just_findStoredPersonID just_CreatePerson : prov.
Lemma just_lookup ctx user sub : CRel justified (lookupOrCreateCoPerson c ctx user sub).
Proof.
  unfold lookupOrCreateCoPerson, lookup_stored, lookup_email, create_person, waitForCreatedPersonID. solve_crel.
Qed.
Lemma just_storePersonID ctx u pid : CRel justified (storePersonID ctx u pid).
Proof. unfold storePersonID. solve_crel. Qed.
Lemma just_person_ids ctx cu pid raw : CRel justified (person_ids ctx cu pid raw).
Proof.
  unfold person_ids, extractIdentifier, extractCoPersonID. solve_crel; apply just_or_dlq; solve_crel.
Qed.
Lemma just_ensureOIDCLinkage ctx cu i raw sub : CRel justified (ensureOIDCLinkage c ctx cu i raw sub).
Proof.
  unfold ensureOIDCLinkage, extractOrgIdentifierValues.
  solve_crel; apply just_or_dlq; unfold CreateOrgIdentity, CreateIdentifierOnOrgIdentity,
    CreateCoOrgIdentityLink, decodeNewObjectID; solve_crel; apply just_Do; intros []; done.
Qed.
Hint Resolve just_lookup just_storePersonID just_person_ids just_ensureOIDCLinkage : prov.

Lemma just_findOrCreateCoGroup ctx name : CRel justified (findOrCreateCoGroup c ctx name).
Proof.
  unfold findOrCreateCoGroup. apply CRel_bind; [apply _|solve_crel|]. intros _.
  apply (guarded (NewGroup name)); [apply searches_FindCoGroupByName|apply only_post_object|].
  intros n Hn. rewrite decide_False by done. solve_crel.
Qed.
Lemma just_findOrCreateIdentifier ctx cu g v t : CRel justified (findOrCreateIdentifier c ctx cu g v t).
Proof.
  unfold findOrCreateIdentifier. apply CRel_bind; [apply _|solve_crel|]. intros _.
  apply (guarded (NewGroupIdentifier v t g)); [apply searches_or_dlq, searches_FindIdentifierOnGroup|..].
  - apply only_bind; [apply only_or_dlq, only_post_object|done].
  - intros n Hn. rewrite decide_True by done. solve_crel.
Qed.
Lemma just_findOrCreateCoGroupMember ctx cu g p : CRel justified (findOrCreateCoGroupMember c ctx cu g p).
Proof.
  unfold findOrCreateCoGroupMember. apply CRel_bind; [apply _|solve_crel|]. intros _.
  apply (guarded (NewMember p g)); [apply searches_or_dlq, searches_FindCoGroupMember|..].
  - apply only_bind; [apply only_or_dlq, only_post_object|done].
  - intros n Hn. rewrite decide_True by done. solve_crel.
Qed.
Lemma just_findOrCreateUnixClusterGroup ctx cu g : CRel justified (findOrCreateUnixClusterGroup c ctx cu g).
Proof.
  unfold findOrCreateUnixClusterGroup, FindUnixClusterGroup, CreateUnixClusterGroup, post_object.
  solve_crel; apply just_Do; intros []; done.
Qed.
Lemma just_attach ctx cu pid uid g : CRel justified (attach_account c ctx cu pid uid g).
Proof.
  unfold attach_account. solve_crel; apply just_or_dlq; unfold getPersonComposite, mergeUnixClusterAccount,
    mergeLoginIdentifier, updatePerson, UpdatePerson; solve_crel.
Qed.
Hint Resolve just_findOrCreateCoGroup just_findOrCreateIdentifier just_findOrCreateCoGroupMember
  just_findOrCreateUnixClusterGroup just_attach : prov.

(** C27: nothing of an account's primary group is created without a search: every request of a
    run that creates the group, one of its identifiers or the membership, repeated or not,
    comes after a search of the same run for that object which the registry answered without
    it. *)
Theorem creates_only_missing ctx payload w : justified w (handleClusterUserCreate c ctx payload w).2.
Proof.
  revert w. change (CRel justified (handleClusterUserCreate c ctx payload)).
  unfold handleClusterUserCreate, EnsurePOSIXAccount, ensurePOSIXAccountImpl, findOIDCSub, getPersonComposite.
  solve_crel; apply just_or_dlq; solve_crel.
Qed.
End searches.

(** ** How many requests a run makes *)

Create HintDb cost discriminated.
#[export] Hint Constants Opaque : cost.

Section cost.
Context `{E : Env} `{RG : Registry} `{RE : RegEnv} (c : Config).
Implicit Types (w : CWorld) (cu : ComputeClusterUser) (ctx : AuditCtx).

Definition Cost {A} (n : nat) (m : CM A) : Prop := ∀ w, length (p_log (m w).2) ≤ length (p_log w) + n.

Lemma Cost_free {A} n (m : CM A) : (∀ w, p_log (m w).2 = p_log w) → Cost n m.
Proof. intros Hm w. rewrite Hm. lia. Qed.
Lemma Cost_bind {A B} n1 n (m : CM A) (k : A → CM B) :
  Cost n1 m → n1 ≤ n → (∀ a, Cost (n - n1) (k a)) → Cost n (m ≫= k).
Proof.
  intros Hm Hn Hk w. specialize (Hm w). unfold mbind, CM_bind.
  destruct (m w) as [[a|e|] w1]; simpl in *; [|lia..]. specialize (Hk a w1). lia.
Qed.
Lemma Cost_le {A} n1 n (m : CM A) : Cost n1 m → n1 ≤ n → Cost n m.
Proof. intros Hm Hn w. specialize (Hm w). lia. Qed.
Lemma Cost_wrapf {A} n f args (m : CM A) : Cost n m → Cost n (cwrapf f args m).
Proof. intros Hm w. specialize (Hm w). unfold cwrapf. by destruct (m w) as [[] ?]. Qed.
Lemma Cost_try {A} n (m : CM A) : Cost n m → Cost n (ctry m).
Proof. intros Hm w. specialize (Hm w). unfold ctry. by destruct (m w) as [[] ?]. Qed.
Lemma Cost_or_dlq {A} n ctx cu step (m : CM A) : Cost n m → Cost n (or_dlq ctx cu step m).
Proof. intros Hm w. rewrite or_dlq_log. apply Hm. Qed.
Lemma Cost_Do m u b : Cost 4 (Do c m u b).
Proof.
  intros w. destruct (Do_run c m u b w) as (seg & (_ & _ & -> & _) & Hl & _). rewrite length_app. lia.
Qed.
Lemma Cost_pcore {A} (m : M A) : Cost 0 (pcore m).
Proof. apply Cost_free. intros w. unfold pcore. by destruct (m (p_core w)). Qed.
Lemma Cost_some_or {A} e (o : option A) : Cost 0 (some_or e o).
Proof. apply Cost_free. by destruct o. Qed.
Lemma Cost_start_span ctx : Cost 0 (start_span ctx).
Proof. by apply Cost_free. Qed.
Lemma Cost_audit ctx cu t d : Cost 0 (audit ctx cu t d).
Proof. apply Cost_free, audit_log. Qed.
Lemma Cost_dlq ctx cu step e : Cost 0 (dlq ctx cu step e).
Proof. apply Cost_free, dlq_log. Qed.
Lemma Cost_new_object a b m u resp : Cost 0 (new_object a b m u resp).
Proof. apply Cost_free, new_object_log. Qed.
End cost.
#[export] Hint Resolve Cost_wrapf Cost_try Cost_or_dlq Cost_Do Cost_pcore Cost_some_or Cost_start_span Cost_audit
  Cost_dlq Cost_new_object : cost.

Ltac cost_step :=
  lazymatch goal with
  | |- ∀ _, _ => intros ?
  | |- Cost _ (mret _) => by apply Cost_free
  | |- Cost _ (cfail _) => by apply Cost_free
  | |- Cost _ panic => by apply Cost_free
  | |- Cost _ (_ ≫= _) =>
      first [ eapply Cost_bind; [solve [eauto 4 with cost nocore]|simpl; lia|simpl]
            | eapply (Cost_bind 0); [|lia|rewrite Nat.sub_0_r] ]
  | |- Cost _ (ctry _) => apply Cost_try
  | |- Cost _ (cwrapf _ _ _) => apply Cost_wrapf
  | |- Cost _ (or_dlq _ _ _ _) => apply Cost_or_dlq
  | |- Cost _ (if ?b then _ else _) => destruct b
  | |- Cost _ (match ?x with _ => _ end) => destruct x
  | |- Cost _ (let _ := _ in _) => cbv zeta
  | |- Cost _ _ => eapply Cost_le; [solve [eauto 4 with cost nocore]|simpl; lia]
  end.
Ltac solve_cost := repeat cost_step.

Section costs.
Context `{E : Env} `{RG : Registry} `{RE : RegEnv} (c : Config).
Implicit Types (cu : ComputeClusterUser) (ctx : AuditCtx).

Lemma Cost_get_list {A} `{JTarget A} what u : Cost 4 (get_list (A:=A) c what u).
Proof. unfold get_list. solve_cost. Qed.
Lemma Cost_post_object a b u body : Cost 4 (post_object c a b u body).
Proof. unfold post_object. solve_cost. Qed.
Lemma Cost_GetPersonComposite i : Cost 4 (GetPersonComposite c i).
Proof. unfold GetPersonComposite. solve_cost. Qed.
Hint Resolve Cost_get_list Cost_post_object Cost_GetPersonComposite : cost.
Lemma Cost_FindIdentifierValueOnPerson i t : Cost 4 (FindIdentifierValueOnPerson c i t).
Proof. unfold FindIdentifierValueOnPerson. solve_cost. Qed.
Lemma Cost_FindCoPersonByEmail e : Cost 4 (FindCoPersonByEmail c e).
Proof. unfold FindCoPersonByEmail. solve_cost. Qed.
Hint Resolve Cost_FindIdentifierValueOnPerson Cost_FindCoPersonByEmail : cost.
Lemma Cost_findByEmailExact e : Cost 4 (findByEmailExact c e).
Proof. unfold findByEmailExact. solve_cost. Qed.
Hint Resolve Cost_findByEmailExact : cost.
Lemma Cost_wait_round e : Cost 12 (wait_round c e).
Proof. unfold wait_round. solve_cost. Qed.
Hint Resolve Cost_wait_round : cost.
Lemma Cost_waitForCreatedPersonID e : Cost 48 (waitForCreatedPersonID c e).
Proof. unfold waitForCreatedPersonID, wait_rounds. solve_cost. Qed.
Lemma Cost_CreatePerson b : Cost 4 (CreatePerson c b).
Proof. unfold CreatePerson. solve_cost. Qed.
Hint Resolve Cost_waitForCreatedPersonID Cost_CreatePerson : cost.
Lemma Cost_create_person user sub : Cost 52 (create_person c user sub).
Proof.
  unfold create_person.
  assert (Cost 48 (if decide (User_Email user = "") then mret None else waitForCreatedPersonID c (User_Email user)))
    by solve_cost. solve_cost.
Qed.
Lemma Cost_findStoredPersonID ctx u : Cost 0 (findStoredPersonID ctx u).
Proof. unfold findStoredPersonID. solve_cost. Qed.
Hint Resolve Cost_create_person Cost_findStoredPersonID : cost.
Lemma Cost_lookup_stored ctx user : Cost 4 (lookup_stored c ctx user).
Proof. unfold lookup_stored. solve_cost. Qed.
Lemma Cost_lookup_email user : Cost 12 (lookup_email c user).
Proof. unfold lookup_email. solve_cost. Qed.
Hint Resolve Cost_lookup_stored Cost_lookup_email : cost.
Lemma Cost_lookup ctx user sub : Cost 68 (lookupOrCreateCoPerson c ctx user sub).
Proof. unfold lookupOrCreateCoPerson. solve_cost. Qed.
Lemma Cost_storePersonID ctx u pid : Cost 0 (storePersonID ctx u pid).
Proof. unfold storePersonID. solve_cost. Qed.
Lemma Cost_getPersonComposite ctx pid : Cost 4 (getPersonComposite c ctx pid).
Proof. unfold getPersonComposite. solve_cost. Qed.
Lemma Cost_findOIDCSub u : Cost 0 (findOIDCSub u).
Proof. unfold findOIDCSub. solve_cost. Qed.
Lemma Cost_extractIdentifier raw t : Cost 0 (extractIdentifier raw t).
Proof. unfold extractIdentifier. solve_cost. Qed.
Lemma Cost_extractCoPersonID raw : Cost 0 (extractCoPersonID raw).
Proof. unfold extractCoPersonID. solve_cost. Qed.
Hint Resolve Cost_lookup Cost_storePersonID Cost_getPersonComposite Cost_findOIDCSub Cost_extractIdentifier
  Cost_extractCoPersonID : cost.
Lemma Cost_person_ids ctx cu pid raw : Cost 0 (person_ids ctx cu pid raw).
Proof. unfold person_ids. solve_cost. Qed.
Lemma Cost_CreateOrgIdentity : Cost 4 (CreateOrgIdentity c).
Proof. unfold CreateOrgIdentity, decodeNewObjectID. solve_cost. Qed.
Lemma Cost_CreateIdentifierOnOrgIdentity v t o l : Cost 4 (CreateIdentifierOnOrgIdentity c v t o l).
Proof. unfold CreateIdentifierOnOrgIdentity, decodeNewObjectID. solve_cost. Qed.
Lemma Cost_CreateCoOrgIdentityLink p o : Cost 4 (CreateCoOrgIdentityLink c p o).
Proof. unfold CreateCoOrgIdentityLink, decodeNewObjectID. solve_cost. Qed.
Lemma Cost_extractOrgIdentifierValues raw t : Cost 0 (extractOrgIdentifierValues raw t).
Proof. unfold extractOrgIdentifierValues. solve_cost. Qed.
Hint Resolve Cost_CreateOrgIdentity Cost_CreateIdentifierOnOrgIdentity Cost_CreateCoOrgIdentityLink
  Cost_extractOrgIdentifierValues : cost.
Lemma Cost_ensureOIDCLinkage ctx cu i raw sub : Cost 12 (ensureOIDCLinkage c ctx cu i raw sub).
Proof. unfold ensureOIDCLinkage. solve_cost. Qed.
Lemma Cost_FindUnixClusterGroup g : Cost 4 (FindUnixClusterGroup c g).
Proof. unfold FindUnixClusterGroup. solve_cost. Qed.
Lemma Cost_CreateUnixClusterGroup g : Cost 4 (CreateUnixClusterGroup c g).
Proof. apply Cost_post_object. Qed.
Lemma Cost_FindIdentifierOnGroup g t : Cost 4 (FindIdentifierOnGroup c g t).
Proof. unfold FindIdentifierOnGroup. solve_cost. Qed.
Lemma Cost_CreateIdentifierOnGroup v t g : Cost 4 (CreateIdentifierOnGroup c v t g).
Proof. apply Cost_post_object. Qed.
Lemma Cost_FindCoGroupMember g p : Cost 4 (FindCoGroupMember c g p).
Proof. unfold FindCoGroupMember. solve_cost. Qed.
Lemma Cost_CreateCoGroupMember p g : Cost 4 (CreateCoGroupMember c p g).
Proof. apply Cost_post_object. Qed.
Lemma Cost_FindCoGroupByName n : Cost 4 (FindCoGroupByName c n).
Proof. unfold FindCoGroupByName. solve_cost. Qed.
Lemma Cost_CreateCoGroup n d : Cost 4 (CreateCoGroup c n d).
Proof. apply Cost_post_object. Qed.
Lemma Cost_UpdatePerson pid b : Cost 4 (UpdatePerson c pid b).
Proof. unfold UpdatePerson. solve_cost. Qed.
Hint Resolve Cost_FindUnixClusterGroup Cost_CreateUnixClusterGroup Cost_FindIdentifierOnGroup
  Cost_CreateIdentifierOnGroup Cost_FindCoGroupMember Cost_CreateCoGroupMember Cost_FindCoGroupByName
  Cost_CreateCoGroup Cost_UpdatePerson Cost_person_ids Cost_ensureOIDCLinkage : cost.
Lemma Cost_findOrCreateCoGroup ctx n : Cost 8 (findOrCreateCoGroup c ctx n).
Proof. unfold findOrCreateCoGroup. solve_cost. Qed.
Lemma Cost_findOrCreateIdentifier ctx cu g v t : Cost 8 (findOrCreateIdentifier c ctx cu g v t).
Proof. unfold findOrCreateIdentifier. solve_cost. Qed.
Lemma Cost_findOrCreateCoGroupMember ctx cu g p : Cost 8 (findOrCreateCoGroupMember c ctx cu g p).
Proof. unfold findOrCreateCoGroupMember. solve_cost. Qed.
Lemma Cost_findOrCreateUnixClusterGroup ctx cu g : Cost 12 (findOrCreateUnixClusterGroup c ctx cu g).
Proof.
  assert (∀ e, Cost 4 (if decide (http_status e = Some 500%Z) then ctry (FindUnixClusterGroup c g)
                       else mret (inr 0%Z))) by solve_cost.
  unfold findOrCreateUnixClusterGroup. solve_cost.
Qed.
Lemma Cost_attach_account ctx cu pid uid g : Cost 8 (attach_account c ctx cu pid uid g).
Proof.
  assert (∀ raw b, Cost 0 (mergeUnixClusterAccount raw b)) by (intros; unfold mergeUnixClusterAccount; solve_cost).
  assert (∀ raw u, Cost 0 (mergeLoginIdentifier raw u)) by (intros; unfold mergeLoginIdentifier; solve_cost).
  assert (∀ b, Cost 4 (updatePerson c ctx pid b)) by (intros; unfold updatePerson; solve_cost).
  unfold attach_account. solve_cost.
Qed.
Hint Resolve Cost_findOrCreateCoGroup Cost_findOrCreateIdentifier Cost_findOrCreateCoGroupMember
  Cost_findOrCreateUnixClusterGroup Cost_attach_account : cost.

Lemma Cost_EnsurePOSIXAccount ctx cu : Cost 136 (EnsurePOSIXAccount c ctx cu).
Proof.
  assert (∀ ctx pid (raw : option RawMessage), Cost 4 match raw with
    | Some composite => mret composite
    | None => or_dlq ctx cu "get_composite" (getPersonComposite c ctx pid)
    end) by solve_cost.
  assert (∀ ctx (b : bool) t d, Cost 0 (if b then audit ctx cu t d else mret tt)) by solve_cost.
  unfold EnsurePOSIXAccount, ensurePOSIXAccountImpl. solve_cost.
Qed.
Hint Resolve Cost_EnsurePOSIXAccount : cost.

(** A run makes at most 136 requests: one call of the registry makes at most four, the
    search for the person sixty-eight at most with the four rounds of waiting, and no step is
    repeated. *)
Theorem requests_bounded ctx payload w :
  length (p_log (handleClusterUserCreate c ctx payload w).2) ≤ length (p_log w) + 136.
Proof.
  revert w. change (Cost 136 (handleClusterUserCreate c ctx payload)).
  unfold handleClusterUserCreate. solve_cost.
Qed.
End costs.

(** ** A registry to run against

    People with their records, groups with identifiers, members and bindings. A search for an
    address finds every address that contains it, and a record that is put replaces the one
    there was. *)

Record RegState := mkRegState {
  g_people : list (Z * gmap string Json);
  g_groups : list (Z * string);
  g_idents : list (Z * string * string);          (* group, type, value *)
  g_members : list (Z * Z);                       (* group, person *)
  g_bindings : list Z;
  g_next : Z }.

Fixpoint strip (p s : string) : option string :=
  match p, s with
  | EmptyString, _ => Some s
  | String a p', String b s' => if decide (a = b) then strip p' s' else None
  | String _ _, EmptyString => None
  end.
Definition jget (k : string) (v : Json) : option Json :=
  match v with JsObj ms => members_map ms !! k | JsArr (JsObj ms :: _) => members_map ms !! k | _ => None end.
Definition jpath (ks : list string) (v : Json) : option Json :=
  foldl (λ o k, match o with Some v => jget k v | None => None end) (Some v) ks.
Definition jstr (v : option Json) : string := match v with Some (JsStr s) => s | _ => "" end.
Definition jint (v : option Json) : Z := match v with Some (JsNum s) => default 0%Z (ParseInt s) | _ => 0%Z end.
Definition jarr (v : option Json) : list Json := match v with Some (JsArr vs) => vs | _ => [] end.

Definition answer_json (status : Z) (v : Json) : RegResponse := mkRegResponse status "" (Some v).
Definition answer_status (status : Z) : RegResponse := mkRegResponse status "" None.
Definition new_id (n : Z) : RegResponse := answer_json 201 (JsObj [("Id", JsStr (FormatInt n))]).
Definition listing (name : string) (vs : list Json) : RegResponse :=
  match vs with [] => answer_status 204 | _ => answer_json 200 (JsObj [(name, JsArr vs)]) end.

Definition person_names (r : gmap string Json) : list (string * string) :=
  (λ i, (jstr (jget "type" i), jstr (jget "identifier" i))) <$> jarr (r !! "Identifier").
Definition person_mail (r : gmap string Json) : string := jstr (r !! "EmailAddress" ≫= jget "mail").
Definition named_as (pid : string) (p : Z * gmap string Json) : Prop := ("custosid", pid) ∈ person_names p.2.
#[export] Instance named_as_dec pid p : Decision (named_as pid p).
Proof. unfold named_as. apply _. Defined.

Definition ident_json (typ value : string) (login : bool) : Json :=
  JsObj [("identifier", JsStr value); ("type", JsStr typ); ("login", JsBool login)].

Definition registry_get (path : string) (s : RegState) : RegResponse :=
  match strip "/api/co/1/core/v1/people/" path, strip "/co_people.json?coid=1&search.mail=" path,
        strip "/identifiers.json?copersonid=" path, strip "/identifiers.json?cogroupid=" path,
        strip "/unix_cluster/unix_cluster_groups.json?cogroupid=" path with
  | Some pid, _, _, _, _ =>
      match head (filter (named_as pid) (g_people s)) with
      | Some (_, r) => answer_json 200 (marshal_map (Some r))
      | None => answer_status 404
      end
  | _, Some q, _, _, _ =>
      listing "CoPeople" ((λ p, JsObj [("Id", js_int p.1); ("CoId", js_int 1); ("Status", JsStr "Active")]) <$>
        filter (λ p, str_contains q (QueryEscape (person_mail p.2)) = true) (g_people s))
  | _, _, Some n, _, _ =>
      listing "Identifiers" ((λ i, JsObj [("Id", js_int 1); ("Identifier", JsStr i.2); ("Type", JsStr i.1)]) <$>
        (filter (λ p, FormatInt p.1 = n) (g_people s) ≫= λ p, person_names p.2))
  | _, _, _, Some n, _ =>
      listing "Identifiers" ((λ i, JsObj [("Id", js_int 1); ("Identifier", JsStr i.2); ("Type", JsStr i.1.2)]) <$>
        filter (λ i, FormatInt i.1.1 = n) (g_idents s))
  | _, _, _, _, Some n =>
      listing "UnixClusterGroups" ((λ g, JsObj [("Id", js_int 1); ("UnixClusterId", js_int 5); ("CoGroupId", js_int g)]) <$>
        filter (λ g, FormatInt g = n) (g_bindings s))
  | _, _, _, _, _ =>
      match strip "/co_groups.json" path, strip "/co_group_members.json" path with
      | Some _, _ => listing "CoGroups"
          ((λ g, JsObj [("Id", js_int g.1); ("CoId", js_int 1); ("Name", JsStr g.2)]) <$> g_groups s)
      | _, Some _ => listing "CoGroupMembers"
          ((λ m, JsObj [("Id", js_int 1); ("Person", JsObj [("Type", JsStr "CO"); ("Id", js_int m.2)]);
                        ("CoGroupId", js_int m.1)]) <$> g_members s)
      | _, _ => answer_status 404
      end
  end.

Definition registry_post (path : string) (body : Json) (s : RegState) : RegResponse * RegState :=
  let n := g_next s in
  if decide (path = "/api/co/1/core/v1/people") then
    let pid := "Custos" +:+ FormatInt n in
    let r := <["CoPerson" := JsObj [("meta", JsObj [("id", js_int n)])]]>
               (<["Identifier" := JsArr (jarr (jget "Identifier" body) ++
                    [ident_json "custosid" pid false; ident_json "uidnumber" (FormatInt (1000 + n)) false])]>
                  (match body with JsObj ms => members_map ms | _ => ∅ end)) in
    (answer_json 201 (JsArr [ident_json "custosid" pid false]),
     mkRegState (g_people s ++ [(n, r)]) (g_groups s) (g_idents s) (g_members s) (g_bindings s) (n + 1))
  else if decide (path = "/co_groups.json") then
    (new_id n, mkRegState (g_people s) (g_groups s ++ [(n, jstr (jpath ["CoGroups"; "Name"] body))])
                 (g_idents s) (g_members s) (g_bindings s) (n + 1))
  else if decide (path = "/identifiers.json") then
    let i k := jpath ["Identifiers"; k] body in
    let p k := jpath ["Identifiers"; "Person"; k] body in
    (new_id n, mkRegState (g_people s) (g_groups s)
                 (if decide (jstr (p "Type") = "Group")
                  then g_idents s ++ [(jint (p "Id"), jstr (i "Type"), jstr (i "Identifier"))]
                  else g_idents s) (g_members s) (g_bindings s) (n + 1))
  else if decide (path = "/co_group_members.json") then
    let m ks := jint (jpath ("CoGroupMembers" :: ks) body) in
    (new_id n, mkRegState (g_people s) (g_groups s) (g_idents s)
                 (g_members s ++ [(m ["CoGroupId"], m ["Person"; "Id"])])
                 (g_bindings s) (n + 1))
  else if decide (path = "/unix_cluster/unix_cluster_groups.json") then
    (new_id n, mkRegState (g_people s) (g_groups s) (g_idents s) (g_members s)
                 (g_bindings s ++ [jint (jpath ["UnixClusterGroups"; "CoGroupId"] body)]) (n + 1))
  else (new_id n, mkRegState (g_people s) (g_groups s) (g_idents s) (g_members s) (g_bindings s) (n + 1)).

Definition registry_put (path : string) (body : Json) (s : RegState) : RegResponse * RegState :=
  match strip "/api/co/1/core/v1/people/" path, raw_map body with
  | Some pid, Some (Some r) =>
      (answer_json 200 body,
       mkRegState ((λ p, if decide (named_as pid p) then (p.1, r) else p) <$> g_people s) (g_groups s) (g_idents s)
         (g_members s) (g_bindings s) (g_next s))
  | _, _ => (answer_status 404, s)
  end.

#[export] Instance registry0 : Registry := {|
  rdb := RegState;
  registry rq s :=
    match strip "http://reg" (rq_url rq), rq_body rq with
    | Some path, None => (registry_get path s, s)
    | Some path, Some body => if decide (rq_method rq = "PUT") then registry_put path body s else registry_post path body s
    | None, _ => (answer_status 404, s)
    end |}.

Definition reg_env0 : RegEnv := {|
  transport _ := Carried;
  bad_url _ := None;
  json_error _ := "";
  scan_error _ := "";
  reg_trace n := "trace" +:+ FormatInt (Z.of_nat n);
  reg_span n := "span" +:+ FormatInt (Z.of_nat n) |}.

Definition config0 : Config :=
  mkConfig "http://reg" 1 "user" "key" "custosid" 5 "delta" "/bin/bash" "/home/".
Definition ctx_bus : AuditCtx := mkAuditCtx "" "" "" "".

(** Alice gets an account on the cluster. *)
Definition cu_alice : ComputeClusterUser := mkComputeClusterUser "cu1" "delta" "alice" "aalice" None.
Definition w_account : World := run_requests env0 [ReqCreateComputeClusterUser (Some cu_alice)] w_setup.
Definition no_registry : RegState := mkRegState [] [] [] [] [] 1.
Definition start (s : RegState) : CWorld := mkCWorld w_account s [] 0.
Definition handled (E : Env) (RE : RegEnv) (w : CWorld) : CWorld :=
  (handleClusterUserCreate config0 ctx_bus (AccountPtr (Some cu_alice)) w).2.
#[global] Opaque w_account.

(** What the registry has of the accounts: for every person their address, login and accounts. *)
Definition accounts_of (r : gmap string Json) : list (Z * string * Z) :=
  (λ a, (jint (jget "unix_cluster_id" a), jstr (jget "username" a), jint (jget "uid" a))) <$>
    jarr (r !! "UnixClusterAccount").
Definition people_of (w : CWorld) : list (string * list (Z * string * Z)) :=
  (λ p, (person_mail p.2, accounts_of p.2)) <$> g_people (p_reg w).
Definition provisioned (w : CWorld) : option (option Time) :=
  ComputeClusterUser_ProvisionedAt <$> t_compute_cluster_users (p_db w) !! "cu1".
Definition posts (w : CWorld) : nat := length (filter (λ x, rq_method (x_request x) = "POST") (p_log w)).

(** A first run creates the person, the group and the account, and marks the row; a second one
    creates nothing. *)
Example provisioning_run :
  let w1 := handled env0 reg_env0 (start no_registry) in
  let w2 := handled env0 reg_env0 w1 in
  people_of w1 = [("alice@example.org", [(5%Z, "aalice", 1001%Z)])] ∧
  g_groups (p_reg w1) = [(2%Z, "aalice")] ∧
  g_idents (p_reg w1) = [(2%Z, "uid", "aalice"); (2%Z, "gidnumber", "1001")] ∧
  g_members (p_reg w1) = [(2%Z, 1%Z)] ∧ g_bindings (p_reg w1) = [2%Z] ∧
  provisioned (start no_registry) = Some None ∧ is_Some (mjoin (provisioned w1)) ∧
  posts w1 = 6 ∧ posts w2 = 6 ∧ people_of w2 = people_of w1.
Proof. vm_compute. split_and!; first [reflexivity|by eexists]. Qed.

(** ** Behaviours worth knowing *)

(** The registry, except that the first [times] requests with [P] are answered with [status],
    carried out or not. *)
Definition patched (P : RegRequest → bool) (status : Z) (done : bool) (times : nat) : Registry := {|
  rdb := nat * RegState;
  registry rq s :=
    let '(n, s) := s in
    let '(r, s') := @registry registry0 rq s in
    if P rq && (n <? times)%nat then (answer_status status, (S n, if done then s' else s)) else (r, (n, s')) |}.
Definition is_request (method path : string) (rq : RegRequest) : bool :=
  bool_decide (rq_method rq = method) && bool_decide (rq_url rq = "http://reg" +:+ path).
Definition handled_by (RG : Registry) (s : @rdb RG) : @CWorld RG :=
  (@handleClusterUserCreate env0 RG reg_env0 config0 ctx_bus (AccountPtr (Some cu_alice)) (@mkCWorld RG w_account s [] 0)).2.
Definition audited_types (d : DB) : gset string :=
  list_to_set ((AuditEvent_EventType ∘ snd) <$> map_to_list (t_audit_events d)).

Definition person_with (mail : string) (accounts : list Json) : gmap string Json :=
  list_to_map [("CoPerson", JsObj [("meta", JsObj [("id", js_int 7)])]);
               ("EmailAddress", JsArr [JsObj [("mail", JsStr mail)]]);
               ("Identifier", JsArr [ident_json "custosid" "Custos7" false; ident_json "uidnumber" "1007" false]);
               ("UnixClusterAccount", JsArr accounts)].

(** The account replaces whatever accounts the record has: those of other clusters are gone. *)
Example other_accounts_dropped :
  let other := JsObj [("unix_cluster_id", js_int 9); ("username", JsStr "alice"); ("uid", js_int 1007)] in
  let w := start (mkRegState [(7%Z, person_with "alice@example.org" [other])] [] [] [] [] 8) in
  people_of w = [("alice@example.org", [(9%Z, "alice", 1007%Z)])] ∧
  people_of (handled env0 reg_env0 w) = [("alice@example.org", [(5%Z, "aalice", 1007%Z)])].
Proof. vm_compute. split; reflexivity. Qed.

(** The search for an address finds one that contains it, and its person gets the account. *)
Example similar_address_taken :
  let w := start (mkRegState [(7%Z, person_with "malice@example.org" [])] [] [] [] [] 8) in
  people_of (handled env0 reg_env0 w) = [("malice@example.org", [(5%Z, "aalice", 1007%Z)])].
Proof. vm_compute. reflexivity. Qed.

(** A creation that is carried out and answered 502 is repeated: there are two people. *)
Example creation_repeated :
  let RG := patched (is_request "POST" "/api/co/1/core/v1/people") 502 true 1 in
  (person_mail ∘ snd) <$> g_people (@p_reg RG (handled_by RG (0, no_registry))).2 =
  ["alice@example.org"; "alice@example.org"].
Proof. vm_compute. reflexivity. Qed.

(** A binding that is refused (403) counts as one that exists: the account is marked
    provisioned, and the group is bound to no cluster. *)
Example refusal_taken_for_binding :
  let RG := patched (is_request "POST" "/unix_cluster/unix_cluster_groups.json") 403 false 1 in
  let w' := handled_by RG (0, no_registry) in
  g_bindings (@p_reg RG w').2 = [] ∧
  is_Some (mjoin (ComputeClusterUser_ProvisionedAt <$> t_compute_cluster_users (@p_db RG w') !! "cu1")).
Proof. vm_compute. split; [reflexivity|by eexists]. Qed.

(** A failure to find the group leaves no event of failure in the audit trail. *)
Example group_failure_unrecorded :
  let RG := patched (is_request "GET" "/co_groups.json?coid=1") 400 false 1 in
  let w' := handled_by RG (0, no_registry) in
  (mjoin (ComputeClusterUser_ProvisionedAt <$> t_compute_cluster_users (@p_db RG w') !! "cu1"),
   bool_decide ("ComanageProvisioningFailed" ∈ audited_types (@p_db RG w')),
   bool_decide ("ComanageProvisioningStarted" ∈ audited_types (@p_db RG w'))) = (None, false, true).
Proof. vm_compute. reflexivity. Qed.

(** A record that is null when it is read again makes the handler panic. *)
Example null_record_panics :
  @mergeUnixClusterAccount registry0 reg_env0 (Some JsNull) (account_block config0 cu_alice 1 2) (start no_registry) =
  (Panicked, start no_registry).
Proof. reflexivity. Qed.
